(* ===== verification/_CoqProject ===== *)
-Q . S2P
Prelude.v
GoStrings.v
GoErrors.v
PgTypes.v
GoTime.v
Target.v
Version.v
Values.v
Json.v
JsonLaws.v
Dcs.v
Effects.v
Contract.v
Readback.v
Samples.v
Select.v
Snapshots.v
Batch.v
Reload.v
Restart.v
Reinitialize.v
Transition.v
TransitionHonest.v
TransitionProtocol.v
Pause.v
Flush.v
FlushSafety.v
Remove.v
ConfigPatch.v
EditConfig.v
Standby.v
Decode.v
Cluster.v
DecodeLaws.v
ClusterLaws.v
Reads.v
ReadsLaws.v
Connect.v
Postgres.v
PostgresLaws.v
Etcd.v
EtcdLaws.v
MemEtcd.v
StoreLaws.v
StoreRuns.v
Watch.v
WatchLaws.v
Secret.v
SecretLaws.v
Assoc.v
Config.v
ConfigProject.v
ConfigLaws.v
ResolveLaws.v
Tls.v
TlsLaws.v
Rest.v
RestApi.v
RestCatalog.v
RestLaws.v
Runtime.v
Inspect.v
RuntimeLaws.v
OnlyReads.v
Cli.v
CliRender.v
CliWrite.v
CliEdit.v
CliRead.v
CliActs.v
CliSamples.v
CliConsent.v
CliMachine.v
CliTables.v
CliReadLaws.v
CliCommands.v
CliLines.v
MachineSchema.v
MachineTypes.v
SchemaLaws.v
