(* ===== verification/Prelude.v ===== *)
(** * Verification library of go-patroni

    go-patroni is a Go SDK and command line for Patroni clusters.  Its core is
    the [control] package: every operation is prepared as a [Plan] from a
    snapshot of the distributed configuration store (DCS), and executed, after
    the plan and a fresh snapshot have been compared, through the Patroni REST
    API or a compare-and-swap on the DCS.  What an operation may claim is the
    hard part: a [Result] says SUCCEEDED only when the requested state was
    observed (or an endpoint accepted it), FAILED only when nothing can have
    been changed, and UNKNOWN otherwise.  This library models those operations
    and proves that they keep that contract whatever the cluster answers.
    Around them it models what they are made of and called by: the store over
    etcd, the REST and the SQL client, TLS, the configuration loader, the runtime
    that opens them, and the command line.

    ** Parts and files

    The Go language and its standard library:
    - [Prelude]: notations, automation and generic lemmas;
    - [GoStrings]: [strings], [strconv], [sort], [net/url] escaping, on bytes;
    - [GoErrors]: error trees, [errors.Is]/[As], [dcs.Error], [patroni.Error];
    - [GoTime]: instants, their RFC 3339 text;
    - [Values]: [any] values of decoded JSON, the class [GoStd] of the
      functions whose text format is not spelled out;
    - [Json]: [json.Marshal] and [json.Unmarshal] on text; [JsonLaws]: what is
      written reads back, and what is read is well formed.

    The model of the program, file by file:
    - [Target] ([model/target.go]): identities, their text and its parser;
    - [Version] ([model/version.go], [catalog.go]): versions and the gates;
    - [Dcs] ([dcs/types.go], [dcs/path.go]): snapshots, keys and roots;
    - [Effects]: programs over the calls an operation makes, and [wp];
    - [Contract] ([control/result.go], [errors.go], [plan.go], [service.go],
      [version_gate.go], [write_types.go]): results, plans, evidence, the
      service, classification of errors, and [may_have_applied], the
      specification of which calls can have changed the cluster;
    - [Readback]: the verification loop after a write;
    - [Select] and [Snapshots] ([control/citus.go], [discover.go] and the
      selectors of [read.go], [reload.go], [flush.go]): members and fresh,
      version-checked snapshots, also of a Citus scope;
    - [Batch]: member-by-member writes, and members asked one after
      another until one answers;
    - [Reload], [Restart], [Reinitialize], [Pause], [Remove]
      (the files of those names in [control]);
    - [Transition] ([control/failover.go]): failover and switchover, with
      [TransitionHonest] and [TransitionProtocol] for their theorems;
    - [Flush] ([control/flush.go]), with [FlushSafety] for its theorems;
    - [ConfigPatch] and [EditConfig] ([control/edit_config.go]);
    - [Standby] ([control/standby_cluster.go]);
    - [Decode] ([dcs/decode.go]): raw keys to cluster states and discovered
      clusters, with [DecodeLaws] for its theorems;
    - [Etcd] ([dcs/etcd3/store.go], [txn.go], [entry.go]): the store over the
      class [EtcdClient] of requests to etcd; [EtcdLaws]: what is relied on of
      etcd, as a class, and that the store's writes are honest; [StoreLaws]:
      the theorems of the store; [MemEtcd]: an etcd in memory, with faults, that
      is an instance of both classes;
    - [StoreRuns]: the programs of [control] run on the store;
    - [Watch] ([dcs/etcd3/watch.go]): the goroutine that follows a cluster, with
      [WatchLaws] for its theorems;
    - [Cluster] ([model/cluster.go], [model/state.go], the projections of
      [control/read.go]): what an operator is shown of a snapshot, with
      [ClusterLaws];
    - [Reads] ([control/read.go], [read_types.go], [discover.go]): the
      inspection handlers, with [ReadsLaws];
    - [PgTypes] ([postgres/types.go], [errors.go]), [Connect]
      ([postgres/connection.go]) and [Postgres] ([postgres/client.go],
      [file.go]): the query client over a connector, with [PostgresLaws];
    - [Secret] ([internal/secret/value.go]): secret values and the redaction of
      text, with [SecretLaws];
    - [Assoc]: Go maps as association lists; [Config] ([config/config.go],
      [errors.go], [merge.go], [load.go]) and [ConfigProject]
      ([config/project.go], [network.go], [resolve.go], [validate.go]): from
      documents to a resolved configuration, with [ConfigLaws] (merging,
      attribution, inheritance) and [ResolveLaws] (endpoints, overrides,
      redaction);
    - [Tls] ([tls.go]): transports and their cache, with [TlsLaws];
    - [Rest] and [RestApi] ([client.go], [endpoints.go], [types.go]): the REST
      client over an abstract [http.Client], and [RestCatalog] ([catalog.go]);
      [RestLaws] connects them to the calls of [control];
    - [Runtime] ([runtime/runtime.go], [internal/version/version.go]) and
      [Inspect] ([control/inspect.go]), with [RuntimeLaws];
    - [OnlyReads]: which operations of [control] never write, for any service;
    - the command line ([internal/cli]): [Cli] (commands as trees of actions,
      the root, the prompts), [CliRender] ([render.go], [machine_catalog.go],
      the tables), [CliWrite] ([write_handlers.go]), [CliEdit]
      ([edit_config_handler.go], [execute]), [CliRead] ([read_handlers.go]) and
      [CliCommands] ([root.go], [read_commands.go], [write_commands.go]: the
      command tree with its flags); [CliActs]: what its parts do; [CliConsent],
      [CliMachine], [CliTables], [CliReadLaws] and [CliLines]: its theorems;
      [CliSamples]: its sample terminal;
    - [MachineSchema] ([tools/machineschema/main.go]): the generator of the JSON
      schema, the contract and the examples of machine documents;
      [MachineTypes]: the type declarations it reflects on, of every package;
      [SchemaLaws]: its theorems;
    - [Samples]: a small cluster on which the theorems are instantiated.

    ** How code corresponds to definitions

    A Go struct is a record with the fields in order and a prefix, a string
    enumeration is an inductive type with one more constructor ([...Raw] or
    [...Other]) for other texts, a method [T.M] is [T_M].  A handler is a
    [prog]: a tree of calls ([call]) that branches on every reply, so a
    statement about all runs is a statement about every behaviour of the DCS,
    the REST client, the context and the injected functions.  Long handlers are
    cut where the code has a phase, and the pieces are composed as the code
    composes them.  A loop with a bound is a Fixpoint on it
    ([verificationAttempts], [standbyVerificationAttempts], the members of a
    list); recursion over configuration values takes the nesting depth as fuel
    and the JSON reader the length of its text, both of which are enough
    ([collect_nil], [read_quoted_array]).  Every program returns for any
    replies ([runs_exists]).

    A command of the command line is a [cli], a tree of actions in the same
    style, whose control calls are the programs of [control]: a theorem about
    the runs of an operation holds of the command that makes it ([calls_of]).

    ** What the theorems show

    - Transitions: every run is a trace of a protocol of at most one REST
      request and at most one compare-and-swap; FAILED means nothing can have
      been applied; SUCCEEDED is backed by an answer or a snapshot; plans pass
      their own validators ([TransitionProtocol], [TransitionHonest]).
    - Flush, pause, restart, reload, reinitialize: the same honesty per member
      and for the whole batch, with one write per confirmed member at most; and
      a pause that may have been applied is reported SUCCEEDED when one of the
      bounded readbacks shows it ([ExecutePause_converges]).
    - Remove, edit-config, standby clusters: at most one write, only after a
      fresh, version-checked snapshot agrees with the plan in everything the
      operator confirmed; success only when a snapshot shows the result; plans
      are accepted by the validators and lead to the write on the snapshot they
      were made from.
    - Configuration edits: independence of map order, the lens laws of
      dotted-path settings, a reported no-op is one.
    - Identities and versions: round trips, injectivity, total preorder,
      exactness of the audited range, monotone features.
    - Decoding: a snapshot does not depend on the order of the keys, its
      numbers are 64-bit and its configuration is one value per key; what the
      control package writes decodes to what it meant; a discovered cluster is
      the one a snapshot of its root shows.
    - The store: discovery is bounded, a removal touches exactly the keys below
      one root, an accepted compare-and-swap is read back; and, composed with
      the operations: what FAILED, SUCCEEDED and the plan say of the cluster is
      true of what this client committed to etcd, whatever faults and other
      clients do ([executeTransition_on_store], [ExecuteEditConfig_on_store],
      [ExecuteRemove_on_store]).
    - The watch: against a server that reports the history in order (the
      promise [honest]) what was delivered always replays to a view the cluster
      had, nothing is lost or repeated across reopened watches and
      resynchronizations; it ends once the caller's context has ended.
    - Projections: every member once, one role each, exact positions and lags;
      a topology is a tree walk that visits every member once and terminates.
    - Reads: they change nothing, their results are valid, listings of a
      namespace show every discovered cluster once; a query sends one statement
      at most, to a member its own read selected.
    - The query client: one connection, closed last; the caller's SQL only in a
      session of the required role; the rows shown are the longest prefix
      within the limits; TLS as the caller's mode says for every address.
    - Configuration: each leaf of the merged map is the value of the last layer
      that sets it and [sources] names that layer; inheritance terminates and
      refuses cycles; an explicit DCS locator replaces every DCS section;
      endpoints are addresses; the effective configuration hides each secret.
    - Redaction: a known secret is not in the redacted text.
    - The REST client: the send state of a reply is what happened to the
      request; every REST call of [control] is a row of the catalogue, available
      exactly in the versions that have its feature.
    - TLS: the cache is a bounded LRU list, never serves a transport of other
      files than the current ones, and a transport trusts what was configured.
    - The runtime: what [Open] opens is closed on failure and handed over on
      success; clients and target are those of the resolved configuration.
    - The command line: no request that may change a cluster is sent before the
      operator consents to the plan, for every command line; in machine mode one
      document is printed and the exit status is that of its category; commands
      that read change nothing; tables are aligned; the tree can be built.
    - The published schema: every value that fits the declared type of its
      document prints, as [encoding/json] prints it, a document the generated
      schema accepts ([resultSchema_sound]); the program's declarations qualify,
      and what the tool writes passes its own check ([run_write_then_check]).
    - Places where the code breaks its own contract
      ([ExecuteFlush_switchover_false_failure], [ExecutePause_unverified_noop]),
      tables of cells with line breaks ([renderPretty_panics]), an edit whose
      plan is not the one shown ([edit_config_unasked]), a second machine
      document after an error ([two_documents]), redaction that breaks JSON or
      reaches into the next line ([Redact_breaks_json],
      [Redact_takes_next_line]),
      a key that is discovered under a root that does not hold it
      ([padded_group_discovered]), a lag that is negative ([projectLSN_exact]),
      a SQL file that reads as empty ([ReadSQLFile_whole]), fallback addresses
      that ignore the selected member ([connectConfig_addresses]), and results
      whose documents the published schema refuses ([DSN_member_breaks_schema],
      [query_error_breaks_schema]).

    ** Abstractions

    - The clock is read once per operation ([svcNow]); [clock_set] says it is
      not the zero time.
    - [GoStd] is a parameter without laws; the one hypothesis on it, where it
      appears, is that an HMAC-SHA-256 token has 64 hexadecimal characters.
    - Texts of errors are kept where the code branches on them and abbreviated
      elsewhere ([%q] arguments are dropped); text that depends on the random
      order of a Go map is fixed.
    - A Go integer of a configuration is kept as the text of its number; the
      JSON body of a failover key is kept as its list of fields; copying a
      configuration is the identity; a nil receiver or a nil interface inside a
      non-nil service is not modelled.
    - The etcd client and server are a parameter, [EtcdClient] with
      [EtcdLaws]: a request may fail before or after it is committed; other
      clients are an arbitrary function between two calls that leaves this
      client's log alone.
    - The watch is iterated with fuel that counts its steps, so a statement for
      every fuel is one about the unbounded loop; the walk of a topology has one
      unit of fuel more than the cluster has members ([walk_terminates]).
    - A PostgreSQL server is a function from SQL text to a finite stream of
      results; [pgx.ParseConfig] and the connector are parameters; sinks are a
      class with their own state; counters are [int64] and wrap ([plus64]).
    - In a decoded cluster a nil map or slice and an empty one are the same;
      [int64(f)] outside the range of [int64], which Go leaves to the platform,
      is not an integer; [sort.Slice] is a stable sort, which matters only
      between entries of equal keys.
    - Integers are mathematical where the code only compares and prints them;
      parsing is bounded to 64 bits, and [nonnegativeLag] wraps.
    - [yaml.v3], [net/url], PEM, X.509 and PKCS #8, [net/http] exchanges, the
      name server, the dialer, files and the process environment are parameters;
      [YamlInput] is limited to documents that JSON can carry too.
    - [Encoders] is the text that [encoding/json] and [yaml.v3] give a document,
      [LocalZone] the process' time zone, [CliStd] the texts of URL errors and
      of cobra's argument errors and [unicode.IsPrint].
    - cobra and pflag hand over a [command_line]: the command, its arguments and
      the flags that were given, parsed or not.
    - The JSON schema vocabulary is given the meaning of its specification for
      the keywords the generator uses ([keyword]), on documents whose numbers
      are integers and whose texts are compared byte by byte; [schemaFor] takes
      fuel for the nesting of types, and says when it runs out.
    - A watch of the command line runs [ticks] intervals; statements hold for
      every [ticks].

    ** Not modelled

    How cobra splits the words of a command line, its help and completion;
    extensions of the command tree; signals, the terminal files and the facades
    [cli/cli.go] and [cmd]; the generator of the compatibility cases
    ([tools/compatgen]) and the flags of [tools/machineschema]; the pgx adapter
    and the logging of the query client; copying of YAML nodes; [String] and
    [Close] methods. *)

From Stdlib Require Export Ascii.
From stdpp Require Export base tactics decidable option list sorting strings gmap.
From Stdlib Require Export ZArith Lia Wf_nat.

#[export] Set Default Proof Using "Type".

(** ** Notations of the development *)

Declare Scope go_scope.
Delimit Scope go_scope with go.

Infix "==s" := String.eqb (at level 70, no associativity) : go_scope.
Notation "x '!=s' y" := (negb (String.eqb x y)) (at level 70, no associativity) : go_scope.

Open Scope go_scope.

(** ** The zero value of a Go type

    [var x T] and an omitted struct field hold the zero value of [T].  The
    generic helpers of the control package build [Result[T]] values whose
    [Data] field is left at zero. *)

Class Zero (A : Type) := zero : A.

#[export] Instance zero_string : Zero string := "".
#[export] Instance zero_Z : Zero Z := 0%Z.
#[export] Instance zero_bool : Zero bool := false.
#[export] Instance zero_list {A} : Zero (list A) := [].
#[export] Instance zero_option {A} : Zero (option A) := None.

(** ** Automation *)

(** [go_bool] turns the boolean tests of the code into propositions. *)
Ltac go_bool :=
  repeat match goal with
  | H : negb _ = true |- _ => apply negb_true_iff in H
  | H : negb _ = false |- _ => apply negb_false_iff in H
  | H : (_ && _)%bool = true |- _ => apply andb_true_iff in H; destruct H
  | H : (_ || _)%bool = false |- _ => apply orb_false_iff in H; destruct H
  | H : (_ && _)%bool = false |- _ => apply andb_false_iff in H; destruct H
  | H : (_ || _)%bool = true |- _ => apply orb_true_iff in H; destruct H
  | H : String.eqb _ _ = true |- _ => apply String.eqb_eq in H
  | H : String.eqb _ _ = false |- _ => apply String.eqb_neq in H
  | H : bool_decide _ = true |- _ => apply bool_decide_eq_true in H
  | H : bool_decide _ = false |- _ => apply bool_decide_eq_false in H
  | H : Z.eqb _ _ = true |- _ => apply Z.eqb_eq in H
  | H : Z.eqb _ _ = false |- _ => apply Z.eqb_neq in H
  | H : Z.ltb _ _ = true |- _ => apply Z.ltb_lt in H
  | H : Z.ltb _ _ = false |- _ => apply Z.ltb_ge in H
  | H : Z.leb _ _ = true |- _ => apply Z.leb_le in H
  | H : Z.leb _ _ = false |- _ => apply Z.leb_gt in H
  end.

(** [go_cases] splits on every test of the goal, keeping the equations. *)
Ltac go_cases := repeat (case_match; try discriminate; go_bool); simplify_eq/=.

Create HintDb go discriminated.
Create Rewrite HintDb go.

(** ** Lists *)

(** The last occurrence wins when a Go map is filled from a slice. *)
Definition map_of_list {A} (key : A → string) (l : list A) : gmap string A :=
  foldl (λ m x, <[key x := x]> m) ∅ l.

Lemma map_of_list_snoc {A} (key : A → string) l x :
  map_of_list key (l ++ [x]) = <[key x := x]> (map_of_list key l).
Proof. unfold map_of_list. by rewrite foldl_app. Qed.

Lemma map_of_list_lookup_Some {A} (key : A → string) l k x :
  map_of_list key l !! k = Some x → x ∈ l ∧ key x = k.
Proof.
  induction l as [|y l IH] using rev_ind; [done|].
  rewrite map_of_list_snoc, elem_of_app, list_elem_of_singleton.
  destruct (decide (key y = k)) as [<-|Hne].
  - rewrite lookup_insert_eq. intros [= ->]. eauto.
  - rewrite lookup_insert_ne by done. intros [? ?]%IH. eauto.
Qed.

Lemma map_of_list_lookup_None {A} (key : A → string) l k :
  map_of_list key l !! k = None → ∀ x, x ∈ l → key x ≠ k.
Proof.
  induction l as [|y l IH] using rev_ind; [intros _ x Hx; by apply not_elem_of_nil in Hx|].
  rewrite map_of_list_snoc. destruct (decide (key y = k)) as [<-|Hne].
  - by rewrite lookup_insert_eq.
  - rewrite lookup_insert_ne by done. intros Hl x.
    rewrite elem_of_app, list_elem_of_singleton. intros [?| ->]; [by eapply IH|done].
Qed.

Lemma map_of_list_lookup_NoDup {A} (key : A → string) l x :
  NoDup (key <$> l) → x ∈ l → map_of_list key l !! key x = Some x.
Proof.
  induction l as [|y l IH] using rev_ind; intros Hnd Hx; [by apply not_elem_of_nil in Hx|].
  rewrite fmap_app in Hnd. apply NoDup_app in Hnd as (Hnd & Hdisj & _).
  rewrite map_of_list_snoc. apply elem_of_app in Hx as [Hx|Hx].
  - rewrite lookup_insert_ne; [by apply IH|].
    intros Heq. apply (Hdisj (key x)); [by apply list_elem_of_fmap_2|].
    rewrite <- Heq. cbn. set_solver.
  - apply list_elem_of_singleton in Hx as ->. apply lookup_insert_eq.
Qed.

(** The Go idiom [for _, x := range l { if p(x) { return x, true } }]. *)
Definition find_first {A} (p : A → bool) (l : list A) : option A := List.find p l.

Lemma find_first_Some {A} (p : A → bool) l x :
  find_first p l = Some x → x ∈ l ∧ p x = true.
Proof. intros [? ?]%List.find_some. split; [by apply list_elem_of_In|done]. Qed.

Lemma find_first_None {A} (p : A → bool) l :
  find_first p l = None → ∀ x, x ∈ l → p x = false.
Proof. intros H x Hx. eapply List.find_none; [done|by apply list_elem_of_In]. Qed.

(** ** Strings *)

Lemma string_app_nil_r (s : string) : s +:+ "" = s.
Proof. induction s as [|c s IH]; [done|]. change (String c (s +:+ "") = String c s). by rewrite IH. Qed.

Lemma string_app_assoc (s t u : string) : (s +:+ t) +:+ u = s +:+ (t +:+ u).
Proof.
  induction s as [|c s IH]; [done|].
  change (String c ((s +:+ t) +:+ u) = String c (s +:+ (t +:+ u))). by rewrite IH.
Qed.

(** ** Optional values with a default, as in [x := 0; if p != nil { x = *p }] *)

Definition deref {A} (d : A) (o : option A) : A := match o with Some x => x | None => d end.

Definition is_nil {A} (o : option A) : bool := match o with None => true | Some _ => false end.
