(* ===== verification/GoStrings.v ===== *)
(** * The Go string functions the module uses

    A Go string is a sequence of bytes, here Stdlib's [string] (a list of
    8-bit [ascii]).  [strings.TrimSpace] removes Unicode white space: the
    byte sequences below are the UTF-8 encodings of [unicode.IsSpace].
    [strings.ToLower] is exact on ASCII text and on the two code points whose
    lower case is an ASCII letter (U+0130 and U+212A); other bytes are kept,
    which is enough because the module compares its result with ASCII words.
    [strings.EqualFold] folds ASCII letters and the code points U+017F and
    U+212A that fold to ASCII letters.  Integers are 64 bits wide. *)

From S2P Require Import Prelude.



#[local] Arguments String.append : simpl nomatch.

(** ** Bytes *)

Definition byte (n : nat) : ascii := ascii_of_nat n.

Definition byte_le (lo : nat) (c : ascii) (hi : nat) : bool :=
  (lo <=? nat_of_ascii c)%nat && (nat_of_ascii c <=? hi)%nat.

Definition is_digit (c : ascii) : bool := byte_le 48 c 57.

Definition has_char (p : ascii → bool) (s : string) : bool :=
  existsb p (String.list_ascii_of_string s).

(** ** [strings.TrimSpace] *)

Definition space1 (c : ascii) : bool := byte_le 9 c 13 || Ascii.eqb c " ".

Definition space2 (a b : ascii) : bool :=
  Ascii.eqb a (byte 194) && (Ascii.eqb b (byte 133) || Ascii.eqb b (byte 160)).

Definition space3 (a b c : ascii) : bool :=
  (Ascii.eqb a (byte 225) && Ascii.eqb b (byte 154) && Ascii.eqb c (byte 128)) ||
  (Ascii.eqb a (byte 226) && Ascii.eqb b (byte 128) &&
     (byte_le 128 c 138 || Ascii.eqb c (byte 168) || Ascii.eqb c (byte 169) || Ascii.eqb c (byte 175))) ||
  (Ascii.eqb a (byte 226) && Ascii.eqb b (byte 129) && Ascii.eqb c (byte 159)) ||
  (Ascii.eqb a (byte 227) && Ascii.eqb b (byte 128) && Ascii.eqb c (byte 128)).

Section ltrim.
Context (f2 : ascii → ascii → bool) (f3 : ascii → ascii → ascii → bool).

Fixpoint ltrim (l : list ascii) : list ascii :=
  match l with
  | [] => []
  | a :: l1 =>
      if space1 a then ltrim l1 else
      match l1 with
      | [] => l
      | b :: l2 =>
          if f2 a b then ltrim l2 else
          match l2 with
          | [] => l
          | c :: l3 => if f3 a b c then ltrim l3 else l
          end
      end
  end.

Definition lead (l : list ascii) : bool :=
  match l with
  | [] => false
  | a :: l1 => space1 a ||
      match l1 with
      | [] => false
      | b :: l2 => f2 a b || match l2 with [] => false | c :: _ => f3 a b c end
      end
  end.

End ltrim.

Definition rspace2 (a b : ascii) : bool := space2 b a.
Definition rspace3 (a b c : ascii) : bool := space3 c b a.

Definition trim_bytes (l : list ascii) : list ascii :=
  reverse (ltrim rspace2 rspace3 (reverse (ltrim space2 space3 l))).

Definition TrimSpace (s : string) : string :=
  String.string_of_list_ascii (trim_bytes (String.list_ascii_of_string s)).
#[global] Arguments TrimSpace : simpl never.

(** ** Splitting and joining *)

(** [strings.Split(s, sep)] for a one-byte separator. *)
Fixpoint Split (sep : ascii) (s : string) : list string :=
  match s with
  | EmptyString => [""]
  | String c r =>
      if Ascii.eqb c sep then "" :: Split sep r
      else match Split sep r with
           | [] => [String c ""]
           | x :: xs => String c x :: xs
           end
  end.

Definition Join (l : list string) (sep : string) : string := String.concat sep l.
#[global] Arguments Join : simpl never.

(** [strings.FieldsFunc] with the predicate [r == sep]. *)
Definition FieldsFunc (sep : ascii) (s : string) : list string :=
  filter (λ x, x ≠ "") (Split sep s).

(** ** Prefixes, suffixes and cut sets *)

Definition HasPrefix (s p : string) : bool := String.prefix p s.

Fixpoint drop_bytes (n : nat) (s : string) : string :=
  match n, s with
  | S n, String _ r => drop_bytes n r
  | _, _ => s
  end.

Definition TrimPrefix (s p : string) : string :=
  if HasPrefix s p then drop_bytes (String.length p) s else s.

Definition HasSuffix (s p : string) : bool := String.prefix (String.rev p) (String.rev s).

Definition TrimSuffix (s p : string) : string :=
  if HasSuffix s p then String.rev (drop_bytes (String.length p) (String.rev s)) else s.

(** [strings.TrimLeft] for a cut set of ASCII bytes, given as a predicate. *)
Fixpoint TrimLeft (cut : ascii → bool) (s : string) : string :=
  match s with
  | EmptyString => ""
  | String c r => if cut c then TrimLeft cut r else s
  end.

Definition TrimRight (cut : ascii → bool) (s : string) : string :=
  String.rev (TrimLeft cut (String.rev s)).

Definition Trim (cut : ascii → bool) (s : string) : string := TrimRight cut (TrimLeft cut s).

Definition slash (c : ascii) : bool := Ascii.eqb c "/".

(** [strings.Count] of a one-byte substring. *)
Definition CountByte (c : ascii) (s : string) : nat :=
  length (filter (λ x, Ascii.eqb x c = true) (String.list_ascii_of_string s)).

Definition Contains (s sub : string) : bool :=
  match String.index 0 sub s with Some _ => true | None => false end.

(** [strings.ReplaceAll] of one byte by another. *)
Fixpoint ReplaceByte (old new : ascii) (s : string) : string :=
  match s with
  | EmptyString => ""
  | String c r => String (if Ascii.eqb c old then new else c) (ReplaceByte old new r)
  end.

(** ** Case *)

Definition lower_byte (c : ascii) : ascii :=
  if byte_le 65 c 90 then byte (nat_of_ascii c + 32) else c.

Fixpoint lower_bytes (l : list ascii) : list ascii :=
  match l with
  | [] => []
  | a :: l1 =>
      match l1 with
      | b :: l2 =>
          if Ascii.eqb a (byte 196) && Ascii.eqb b (byte 176) then "i"%char :: lower_bytes l2 else
          match l2 with
          | c :: l3 =>
              if Ascii.eqb a (byte 226) && Ascii.eqb b (byte 132) && Ascii.eqb c (byte 170)
              then "k"%char :: lower_bytes l3
              else lower_byte a :: lower_bytes l1
          | [] => lower_byte a :: lower_bytes l1
          end
      | [] => [lower_byte a]
      end
  end.

Definition ToLower (s : string) : string :=
  String.string_of_list_ascii (lower_bytes (String.list_ascii_of_string s)).

Fixpoint fold_bytes (l : list ascii) : list ascii :=
  match l with
  | [] => []
  | a :: l1 =>
      match l1 with
      | b :: l2 =>
          if Ascii.eqb a (byte 197) && Ascii.eqb b (byte 191) then "s"%char :: fold_bytes l2 else
          match l2 with
          | c :: l3 =>
              if Ascii.eqb a (byte 226) && Ascii.eqb b (byte 132) && Ascii.eqb c (byte 170)
              then "k"%char :: fold_bytes l3
              else lower_byte a :: fold_bytes l1
          | [] => lower_byte a :: fold_bytes l1
          end
      | [] => [lower_byte a]
      end
  end.

Definition EqualFold (s t : string) : bool :=
  bool_decide (fold_bytes (String.list_ascii_of_string s) = fold_bytes (String.list_ascii_of_string t)).

(** ** [strconv] *)

Definition max_int64 : Z := 9223372036854775807.
Definition min_int64 : Z := -9223372036854775808.
Definition int64 (z : Z) : Prop := (min_int64 <= z <= max_int64)%Z.

Definition digit (n : N) : ascii := ascii_of_N (48 + n).
Definition digit_value (c : ascii) : N := N_of_ascii c - 48.

Fixpoint format_digits (fuel : nat) (n : N) (acc : string) : string :=
  match fuel with
  | O => acc
  | S fuel =>
      let acc := String (digit (n mod 10)) acc in
      if (n <? 10)%N then acc else format_digits fuel (n / 10) acc
  end.

Definition format_N (n : N) : string := format_digits (S (N.to_nat (N.log2 n))) n "".

(** [strconv.Itoa] and [strconv.FormatInt(_, 10)]. *)
Definition FormatInt (z : Z) : string :=
  if (z <? 0)%Z then String "-" (format_N (Z.abs_N z)) else format_N (Z.abs_N z).

Definition parse_step (acc : option N) (c : ascii) : option N :=
  match acc with
  | Some n => if is_digit c then Some (10 * n + digit_value c)%N else None
  | None => None
  end.

Definition parse_digits (s : string) : option N :=
  match s with
  | EmptyString => None
  | _ => foldl parse_step (Some 0%N) (String.list_ascii_of_string s)
  end.

(** [strconv.ParseInt(_, 10, 64)] and [strconv.Atoi]. *)
Definition ParseInt (s : string) : option Z :=
  let in_range z := if (min_int64 <=? z)%Z && (z <=? max_int64)%Z then Some z else None in
  match s with
  | String "-" r => n ← parse_digits r; in_range (- Z.of_N n)%Z
  | String "+" r => n ← parse_digits r; in_range (Z.of_N n)
  | _ => n ← parse_digits s; in_range (Z.of_N n)
  end.

Definition FormatBool (b : bool) : string := if b then "true" else "false".

(** ** [sort] *)

Definition sort_strings (l : list string) : list string := merge_sort String.le l.

Fixpoint StringsAreSorted (l : list string) : bool :=
  match l with
  | x :: (y :: _) as l' => negb (String.ltb y x) && StringsAreSorted l'
  | _ => true
  end.

(** [sort.SliceStable] by a string key. *)
Definition key_le {A} (key : A → string) (x y : A) : Prop := String.le (key x) (key y).

#[export] Instance key_le_dec {A} (key : A → string) : RelDecision (key_le key) :=
  λ x y, String.le_dec (key x) (key y).

Definition sort_by {A} (key : A → string) (l : list A) : list A := merge_sort (key_le key) l.

(** ** [net/url]: [PathEscape] and [PathUnescape] *)

Definition is_alnum (c : ascii) : bool := byte_le 97 c 122 || byte_le 65 c 90 || is_digit c.

(** Bytes kept by [shouldEscape(c, encodePathSegment)]: the unreserved ones and
    the reserved characters that have no special meaning inside a segment. *)
Definition path_plain (c : ascii) : bool :=
  is_alnum c || existsb (Ascii.eqb c) ["-"; "_"; "."; "~"; "$"; "&"; "+"; ":"; "="; "@"]%char.

Definition hex_digit (n : N) : ascii :=
  if (n <? 10)%N then ascii_of_N (48 + n) else ascii_of_N (55 + n).

Definition hex_value (c : ascii) : option N :=
  if is_digit c then Some (N_of_ascii c - 48)%N
  else if byte_le 97 c 102 then Some (N_of_ascii c - 87)%N
  else if byte_le 65 c 70 then Some (N_of_ascii c - 55)%N
  else None.

Fixpoint PathEscape (s : string) : string :=
  match s with
  | EmptyString => ""
  | String c r =>
      if path_plain c then String c (PathEscape r)
      else String "%" (String (hex_digit (N_of_ascii c / 16))
             (String (hex_digit (N_of_ascii c mod 16)) (PathEscape r)))
  end.

Fixpoint PathUnescape (s : string) : option string :=
  match s with
  | EmptyString => Some ""
  | String c r =>
      if Ascii.eqb c "%" then
        match r with
        | String a (String b r') =>
            x ← hex_value a; y ← hex_value b; t ← PathUnescape r';
            Some (String (ascii_of_N (16 * x + y)) t)
        | _ => None
        end
      else t ← PathUnescape r; Some (String c t)
  end.

(** ** Lemmas *)

(** *** Trimming *)

Section ltrim_lemmas.
Context (f2 : ascii → ascii → bool) (f3 : ascii → ascii → ascii → bool).
Abbreviation ltrim := (ltrim f2 f3).
Abbreviation lead := (lead f2 f3).

Lemma ltrim_lead l : lead (ltrim l) = false.
Proof.
  induction l as [l IH] using (induction_ltof1 _ (@length ascii)); unfold ltof in IH.
  destruct l as [|a [|b [|c l]]]; cbn [ltrim lead].
  - done.
  - destruct (space1 a) eqn:Ha; [done|]. cbn. by rewrite Ha.
  - destruct (space1 a) eqn:Ha; [apply (IH [b]); cbn; lia|].
    destruct (f2 a b) eqn:Hb; [done|]. cbn. by rewrite Ha, Hb.
  - destruct (space1 a) eqn:Ha; [apply (IH (b :: c :: l)); cbn; lia|].
    destruct (f2 a b) eqn:Hb; [apply (IH (c :: l)); cbn; lia|].
    destruct (f3 a b c) eqn:Hc; [apply (IH l); cbn; lia|].
    cbn. by rewrite Ha, Hb, Hc.
Qed.

Lemma ltrim_id l : lead l = false → ltrim l = l.
Proof.
  destruct l as [|a [|b [|c l]]]; cbn; intros H; repeat case_match; go_bool; simplify_eq/=; try done;
    naive_solver congruence.
Qed.

Lemma ltrim_suffix l : ∃ k, l = k ++ ltrim l.
Proof.
  induction l as [l IH] using (induction_ltof1 _ (@length ascii)); unfold ltof in IH.
  destruct l as [|a l1]; cbn [ltrim]; [by exists []|].
  destruct (space1 a).
  { destruct (IH l1) as [k Hk]; [cbn; lia|]. exists (a :: k). cbn. by rewrite <- Hk. }
  destruct l1 as [|b l2]; [by exists []|].
  destruct (f2 a b).
  { destruct (IH l2) as [k Hk]; [cbn; lia|]. exists (a :: b :: k). cbn. by rewrite <- Hk. }
  destruct l2 as [|c l3]; [by exists []|].
  destruct (f3 a b c).
  { destruct (IH l3) as [k Hk]; [cbn; lia|]. exists (a :: b :: c :: k). cbn. by rewrite <- Hk. }
  by exists [].
Qed.

Lemma lead_app l k : lead (l ++ k) = false → lead l = false.
Proof.
  destruct l as [|a [|b [|c l]]]; cbn; intros H; [done| | |done].
  - by apply orb_false_iff in H as [-> _].
  - apply orb_false_iff in H as [-> H]. by apply orb_false_iff in H as [-> _].
Qed.
End ltrim_lemmas.

Definition trimmed_bytes (l : list ascii) : Prop :=
  lead space2 space3 l = false ∧ lead rspace2 rspace3 (reverse l) = false.

Definition trimmed (s : string) : Prop := trimmed_bytes (String.list_ascii_of_string s).

Lemma trim_bytes_id l : trimmed_bytes l → trim_bytes l = l.
Proof.
  intros [H1 H2]. unfold trim_bytes.
  rewrite (ltrim_id _ _ _ H1), (ltrim_id _ _ _ H2). apply reverse_involutive.
Qed.

Lemma trim_bytes_trimmed l : trimmed_bytes (trim_bytes l).
Proof.
  unfold trimmed_bytes, trim_bytes. rewrite reverse_involutive. split; [|apply ltrim_lead].
  set (u := ltrim space2 space3 l).
  destruct (ltrim_suffix rspace2 rspace3 (reverse u)) as [k Hk].
  apply (lead_app _ _ _ (reverse k)).
  rewrite <- reverse_app, <- Hk, reverse_involutive. apply ltrim_lead.
Qed.

Lemma TrimSpace_trimmed s : trimmed (TrimSpace s).
Proof.
  unfold trimmed, TrimSpace. rewrite String.list_ascii_of_string_of_list_ascii.
  apply trim_bytes_trimmed.
Qed.

Lemma TrimSpace_id s : trimmed s → TrimSpace s = s.
Proof.
  intros H. unfold TrimSpace. rewrite trim_bytes_id by done.
  apply String.string_of_list_ascii_of_string.
Qed.

Lemma TrimSpace_idem s : TrimSpace (TrimSpace s) = TrimSpace s.
Proof. apply TrimSpace_id, TrimSpace_trimmed. Qed.

#[export] Hint Resolve TrimSpace_trimmed : go.
#[export] Hint Rewrite TrimSpace_idem : go.

(** A byte that occurs in no white space encoding separates trimming. *)
Lemma lead_sep f2 f3 q c r :
  q ≠ [] → space1 c = false → (∀ a, f2 a c = false) → (∀ a b, f3 a c b = false ∧ f3 a b c = false) →
  lead f2 f3 (q ++ c :: r) = lead f2 f3 q.
Proof.
  intros Hq H1 H2 H3. destruct q as [|x [|y [|z q]]]; cbn; [done| | |done].
  - rewrite H2. destruct r as [|d r]; [done|]. by rewrite (proj1 (H3 x d)).
  - by rewrite (proj2 (H3 x y)).
Qed.

Lemma lead_cons_sep f2 f3 c r :
  space1 c = false → (∀ b, f2 c b = false) → (∀ b d, f3 c b d = false) →
  lead f2 f3 (c :: r) = false.
Proof.
  intros H1 H2 H3. cbn. rewrite H1. destruct r as [|b [|d r]]; cbn; rewrite ?H2, ?H3; done.
Qed.

(** *** Splitting and joining *)

Lemma string_app_bytes x l :
  x +:+ String.string_of_list_ascii l = String.string_of_list_ascii (String.list_ascii_of_string x ++ l).
Proof. induction x as [|c x IH]; cbn; [done|]. by rewrite IH. Qed.

Definition lacks (sep : ascii) (s : string) : Prop := has_char (Ascii.eqb sep) s = false.

Lemma lacks_cons sep c s : lacks sep (String c s) ↔ sep ≠ c ∧ lacks sep s.
Proof.
  unfold lacks, has_char. cbn. rewrite orb_false_iff, Ascii.eqb_neq. done.
Qed.

Lemma lacks_empty sep : lacks sep "".
Proof. done. Qed.

#[export] Hint Resolve lacks_empty : go.

Lemma Split_not_nil sep s : Split sep s ≠ [].
Proof. destruct s; cbn; [done|]. repeat case_match; done. Qed.

Lemma Split_lacks sep s : Forall (lacks sep) (Split sep s).
Proof.
  induction s as [|c s IH]; cbn; [by repeat constructor|].
  destruct (Ascii.eqb_spec c sep) as [->|Hne]; [by constructor|].
  destruct (Split sep s) as [|x xs] eqn:E; [by apply Split_not_nil in E|].
  inv IH. constructor; [|done]. apply lacks_cons. split; [congruence|done].
Qed.

Lemma Split_app sep s t : lacks sep s → Split sep (s +:+ String sep t) = s :: Split sep t.
Proof.
  induction s as [|c s IH]; cbn.
  - intros _. cbn. by rewrite Ascii.eqb_refl.
  - intros [Hne Hs]%lacks_cons. destruct (Ascii.eqb_spec c sep); [congruence|]. by rewrite IH.
Qed.

Lemma Split_lacks_id sep s : lacks sep s → Split sep s = [s].
Proof.
  induction s as [|c s IH]; cbn; [done|].
  intros [Hne Hs]%lacks_cons. destruct (Ascii.eqb_spec c sep); [congruence|]. by rewrite IH.
Qed.

Lemma Join_cons x y l sep : Join (x :: y :: l) sep = x +:+ sep +:+ Join (y :: l) sep.
Proof. done. Qed.

Lemma Split_Join sep l :
  Forall (lacks sep) l → l ≠ [] → Split sep (Join l (String sep "")) = l.
Proof.
  induction 1 as [|x l Hx Hl IH]; [done|]. intros _. destruct l as [|y l].
  - by apply Split_lacks_id.
  - rewrite Join_cons. cbn [String.append]. by rewrite Split_app, IH.
Qed.

Lemma Join_Split sep s : Join (Split sep s) (String sep "") = s.
Proof.
  induction s as [|c s IH]; cbn; [done|].
  destruct (Ascii.eqb_spec c sep) as [->|Hne].
  - destruct (Split sep s) eqn:E; [by apply Split_not_nil in E|].
    rewrite Join_cons. cbn. by rewrite IH.
  - destruct (Split sep s) as [|x xs] eqn:E; [by apply Split_not_nil in E|].
    rewrite <- IH. by destruct xs.
Qed.

(** Joining is injective on lists of pieces without the separator. *)
Lemma Join_inj sep l k :
  Forall (lacks sep) l → Forall (lacks sep) k → l ≠ [] → k ≠ [] →
  Join l (String sep "") = Join k (String sep "") → l = k.
Proof. intros Hl Hk Hnl Hnk Heq. rewrite <- (Split_Join sep l), Heq by done. by apply Split_Join. Qed.

(** *** Decimal integers *)

Lemma digit_spec n : (n < 10)%N → is_digit (digit n) = true ∧ digit_value (digit n) = n.
Proof.
  intros Hn. assert (n = 0 ∨ n = 1 ∨ n = 2 ∨ n = 3 ∨ n = 4 ∨ n = 5 ∨ n = 6 ∨ n = 7 ∨ n = 8 ∨ n = 9)%N as H by lia.
  by repeat destruct H as [->|H]; [..|subst n].
Qed.

Definition parse_from (acc : option N) (s : string) : option N :=
  foldl parse_step acc (String.list_ascii_of_string s).

Lemma parse_format_digits fuel n acc :
  (n < 2 ^ N.of_nat fuel)%N → parse_from (Some 0%N) (format_digits fuel n acc) =
  match fuel with O => parse_from (Some 0%N) acc | _ => parse_from (Some n) acc end.
Proof.
  revert n acc. induction fuel as [|fuel IH]; intros n acc Hn; [done|]. cbn [format_digits].
  destruct (digit_spec (n mod 10)) as [Hd Hv]; [apply N.mod_lt; lia|].
  assert (Hdiv : n = (10 * (n / 10) + n mod 10)%N) by (apply N.div_mod; lia).
  assert (Hstep : ∀ m, parse_from (Some m) (String (digit (n mod 10)) acc)
                       = parse_from (Some (10 * m + n mod 10)%N) acc).
  { intros m. unfold parse_from. cbn. by rewrite Hd, Hv. }
  destruct (N.ltb_spec n 10) as [Hlt|Hge].
  - rewrite Hstep. do 3 f_equal. rewrite N.mod_small; lia.
  - rewrite IH.
    + destruct fuel; [cbn in Hn; lia|]. rewrite Hstep. do 2 f_equal. lia.
    + rewrite Nat2N.inj_succ, N.pow_succ_r' in Hn. apply N.Div0.div_lt_upper_bound. lia.
Qed.

Lemma format_N_fuel n : (n < 2 ^ N.of_nat (S (N.to_nat (N.log2 n))))%N.
Proof.
  rewrite Nat2N.inj_succ, N2Nat.id. destruct (decide (n = 0)%N) as [->|Hn]; [done|].
  apply N.log2_spec. lia.
Qed.

Lemma format_digits_cons fuel n acc :
  ∃ c r, format_digits (S fuel) n acc = String c r ∧ is_digit c = true.
Proof.
  revert n acc. induction fuel as [|fuel IH]; intros n acc; cbn [format_digits];
    (destruct (digit_spec (n mod 10)) as [Hd _]; [apply N.mod_lt; lia|]).
  - destruct (n <? 10)%N; eauto.
  - destruct (n <? 10)%N; [eauto|]. apply (IH (n / 10)%N).
Qed.

Lemma parse_format_N n : parse_digits (format_N n) = Some n.
Proof.
  unfold format_N.
  pose proof (parse_format_digits _ n "" (format_N_fuel n)) as H.
  destruct (format_digits_cons (N.to_nat (N.log2 n)) n "") as (c & r & Heq & _).
  rewrite Heq in H |- *. exact H.
Qed.

Lemma format_N_first n : ∃ c r, format_N n = String c r ∧ is_digit c = true.
Proof. apply format_digits_cons. Qed.

Lemma ParseInt_FormatInt z : int64 z → ParseInt (FormatInt z) = Some z.
Proof.
  unfold int64, FormatInt. intros [Hlo Hhi]. destruct (Z.ltb_spec z 0) as [Hneg|Hpos].
  - unfold ParseInt. rewrite parse_format_N. cbn. rewrite N2Z.inj_abs_N.
    replace (- Z.abs z)%Z with z by lia. by rewrite !(proj2 (Z.leb_le _ _)).
  - destruct (format_N_first (Z.abs_N z)) as (c & r & Heq & Hc).
    assert (Hp : ParseInt (format_N (Z.abs_N z)) = (n ← parse_digits (format_N (Z.abs_N z));
       if (min_int64 <=? Z.of_N n)%Z && (Z.of_N n <=? max_int64)%Z then Some (Z.of_N n) else None)).
    { rewrite Heq. unfold ParseInt. destruct c as [[] [] [] [] [] [] [] []]; cbn in Hc; done. }
    rewrite Hp, parse_format_N. cbn. rewrite N2Z.inj_abs_N, Z.abs_eq by done.
    by rewrite !(proj2 (Z.leb_le _ _)).
Qed.

Lemma FormatInt_inj z z' : int64 z → int64 z' → FormatInt z = FormatInt z' → z = z'.
Proof.
  intros H H' Heq. apply (f_equal ParseInt) in Heq.
  rewrite !ParseInt_FormatInt in Heq by done. congruence.
Qed.

Lemma FormatInt_not_dash z : FormatInt z ≠ "-".
Proof.
  unfold FormatInt. destruct (z <? 0)%Z; destruct (format_N_first (Z.abs_N z)) as (c & r & -> & Hc); [done|].
  intros [= -> ->]. done.
Qed.

(** *** Escaping *)

Lemma hex_digit_spec n : (n < 16)%N → hex_value (hex_digit n) = Some n ∧ hex_digit n ≠ "/"%char ∧ hex_digit n ≠ "%"%char.
Proof.
  intros Hn.
  assert (∃ k, n = N.of_nat k ∧ (k < 16)%nat) as (k & -> & Hk) by (exists (N.to_nat n); lia).
  do 16 (destruct k as [|k]; [split; [vm_compute; reflexivity|done]|]). lia.
Qed.

Lemma N_of_ascii_bound c : (N_of_ascii c < 256)%N.
Proof. destruct c as [[] [] [] [] [] [] [] []]; done. Qed.

Lemma PathUnescape_PathEscape s : PathUnescape (PathEscape s) = Some s.
Proof.
  induction s as [|c s IH]; [done|]. cbn [PathEscape].
  destruct (path_plain c) eqn:Hc.
  - cbn. destruct (Ascii.eqb_spec c "%") as [->|]; [done|]. by rewrite IH.
  - pose proof (N_of_ascii_bound c) as Hb. cbn.
    destruct (hex_digit_spec (N_of_ascii c / 16)) as [-> _]; [by apply N.Div0.div_lt_upper_bound|].
    destruct (hex_digit_spec (N_of_ascii c mod 16)) as [-> _]; [by apply N.mod_lt|].
    cbn [mbind option_bind]. rewrite IH. cbn [mbind option_bind]. do 2 f_equal.
    rewrite <- N.div_mod by done. apply ascii_N_embedding.
Qed.

Lemma PathEscape_lacks s : lacks "/" (PathEscape s).
Proof.
  induction s as [|c s IH]; [done|]. cbn [PathEscape].
  destruct (path_plain c) eqn:Hc.
  - apply lacks_cons. split; [|done]. by intros <-.
  - pose proof (N_of_ascii_bound c) as Hb.
    destruct (hex_digit_spec (N_of_ascii c / 16)) as (_ & ? & _); [by apply N.Div0.div_lt_upper_bound|].
    destruct (hex_digit_spec (N_of_ascii c mod 16)) as (_ & ? & _); [by apply N.mod_lt|].
    apply lacks_cons. split; [done|]. apply lacks_cons. split; [congruence|].
    apply lacks_cons. split; [congruence|done].
Qed.

Lemma PathEscape_inj s t : PathEscape s = PathEscape t → s = t.
Proof.
  intros H. apply (f_equal PathUnescape) in H. rewrite !PathUnescape_PathEscape in H. congruence.
Qed.

#[export] Hint Resolve PathEscape_lacks : go.

Lemma format_N_digits n : has_char (λ c, negb (is_digit c)) (format_N n) = false.
Proof.
  unfold format_N. generalize (S (N.to_nat (N.log2 n))). intros fuel.
  assert (∀ acc, has_char (λ c, negb (is_digit c)) acc = false →
    has_char (λ c, negb (is_digit c)) (format_digits fuel n acc) = false) as H; [|by apply H].
  revert n. induction fuel as [|fuel IH]; intros n acc Hacc; cbn [format_digits]; [done|].
  assert (has_char (λ c, negb (is_digit c)) (String (digit (n mod 10)) acc) = false) as Hs.
  { unfold has_char in *. cbn. rewrite Hacc, orb_false_r.
    destruct (digit_spec (n mod 10)) as [-> _]; [apply N.mod_lt; lia|done]. }
  destruct (n <? 10)%N; [done|]. by apply IH.
Qed.

Lemma lacks_non_digit c s :
  has_char (λ c, negb (is_digit c)) s = false → is_digit c = false → lacks c s.
Proof.
  intros Hs Hc. induction s as [|d s IH]; [done|].
  unfold has_char in Hs. cbn in Hs. apply orb_false_iff in Hs as [Hd Hs].
  apply lacks_cons. split; [|by apply IH]. intros <-. by rewrite Hc in Hd.
Qed.

Lemma FormatInt_lacks c z : is_digit c = false → c ≠ "-"%char → lacks c (FormatInt z).
Proof.
  intros Hc Hm. unfold FormatInt. destruct (z <? 0)%Z.
  - apply lacks_cons. split; [done|]. apply lacks_non_digit; [apply format_N_digits|done].
  - apply lacks_non_digit; [apply format_N_digits|done].
Qed.

(** *** Reversal and right trimming *)

Lemma bytes_inj s t : String.list_ascii_of_string s = String.list_ascii_of_string t → s = t.
Proof.
  intros E. by rewrite <- (String.string_of_list_ascii_of_string s), E, String.string_of_list_ascii_of_string.
Qed.

Lemma rev_bytes s : String.list_ascii_of_string (String.rev s) = reverse (String.list_ascii_of_string s).
Proof.
  unfold String.rev. assert (∀ t, String.list_ascii_of_string (String.rev_app s t)
    = reverse (String.list_ascii_of_string s) ++ String.list_ascii_of_string t) as ->.
  { induction s as [|c s IH]; intros t; [done|].
    cbn [String.rev_app String.list_ascii_of_string]. by rewrite IH, reverse_cons, <- app_assoc. }
  by rewrite app_nil_r.
Qed.

Lemma rev_involutive s : String.rev (String.rev s) = s.
Proof. apply bytes_inj. by rewrite !rev_bytes, reverse_involutive. Qed.

Lemma rev_has_char p s : has_char p (String.rev s) = has_char p s.
Proof.
  unfold has_char. rewrite rev_bytes. apply eq_true_iff_eq. rewrite !existsb_exists.
  setoid_rewrite <- list_elem_of_In. setoid_rewrite elem_of_reverse. done.
Qed.

Lemma TrimLeft_has_char p cut s : has_char p s = false → has_char p (TrimLeft cut s) = false.
Proof.
  induction s as [|c s IH]; [done|]. cbn [TrimLeft]. intros Hs. destruct (cut c); [|done].
  apply IH. unfold has_char in *. cbn in Hs. by apply orb_false_iff in Hs as [_ ?].
Qed.

Lemma TrimRight_has_char p cut s : has_char p s = false → has_char p (TrimRight cut s) = false.
Proof. unfold TrimRight. intros Hs. rewrite rev_has_char. apply TrimLeft_has_char. by rewrite rev_has_char. Qed.

(** Nothing is trimmed behind a last byte outside the cut set. *)
Lemma TrimRight_snoc cut s c : cut c = false → TrimRight cut (s +:+ String c "") = s +:+ String c "".
Proof.
  intros Hc. unfold TrimRight. assert (String.rev (s +:+ String c "") = String c (String.rev s)) as E.
  { apply bytes_inj. rewrite rev_bytes. cbn [String.list_ascii_of_string]. rewrite rev_bytes.
    assert (String.list_ascii_of_string (s +:+ String c "") = String.list_ascii_of_string s ++ [c]) as ->
      by (induction s as [|d s IH]; [done|]; change (d :: String.list_ascii_of_string (s +:+ String c "") = d :: (String.list_ascii_of_string s ++ [c])); by rewrite IH).
    by rewrite reverse_app. }
  rewrite E. cbn [TrimLeft]. rewrite Hc, <- E. apply rev_involutive.
Qed.

Lemma string_snoc s : s = "" ∨ ∃ t c, s = t +:+ String c "".
Proof.
  induction s as [|c s IH]; [by left|]. right. destruct IH as [->|(t & d & ->)]; [by exists "", c|]. by exists (String c t), d.
Qed.

Lemma TrimRight_lacks c s t : t ≠ "" → lacks c t → TrimRight (λ d, Ascii.eqb d c) (s +:+ t) = s +:+ t.
Proof.
  intros Hne Hl. destruct (string_snoc t) as [->|(u & d & ->)]; [done|]. rewrite <- string_app_assoc.
  apply TrimRight_snoc. apply Ascii.eqb_neq. intros ->. revert Hl. unfold lacks, has_char.
  induction u as [|e u IH]; [cbn; by rewrite Ascii.eqb_refl|].
  change (Ascii.eqb c e || existsb (Ascii.eqb c) (String.list_ascii_of_string (u +:+ String c "")) = false → False).
  intros [_ Hu]%orb_false_iff. apply IH; [by destruct u|done].
Qed.

(** *** Sorting *)

Lemma sort_strings_perm l : sort_strings l ≡ₚ l.
Proof. apply merge_sort_Permutation. Qed.

Lemma sort_strings_StronglySorted l : StronglySorted String.le (sort_strings l).
Proof. apply StronglySorted_merge_sort; apply _. Qed.

Lemma sort_strings_unique l k : l ≡ₚ k → sort_strings l = sort_strings k.
Proof.
  intros H. apply (StronglySorted_unique String.le); [apply sort_strings_StronglySorted..|].
  by rewrite !sort_strings_perm.
Qed.

Lemma sort_strings_id l : StronglySorted String.le l → sort_strings l = l.
Proof.
  intros H. apply (StronglySorted_unique String.le); [apply sort_strings_StronglySorted|done|].
  apply sort_strings_perm.
Qed.

Lemma StringsAreSorted_correct l : StringsAreSorted l = true ↔ StronglySorted String.le l.
Proof.
  split.
  - intros H. apply Sorted_StronglySorted; [apply _|].
    induction l as [|x l IH]; [constructor|]. destruct l as [|y l]; [by repeat constructor|].
    cbn in H. go_bool. constructor; [by apply IH|]. constructor.
    unfold String.le. apply Is_true_true. unfold String.ltb in *. unfold String.leb.
    rewrite (String.compare_antisym x y). by destruct (String.compare y x).
  - induction 1 as [|x l Hl IH Hx]; [done|]. destruct l as [|y l]; [done|]. cbn.
    apply andb_true_iff. split; [|done]. inv Hx.
    match goal with H : String.le x y |- _ => apply Is_true_true in H; revert H end.
    unfold String.leb, String.ltb. rewrite (String.compare_antisym x y). by destruct (String.compare y x).
Qed.

Lemma sort_strings_sorted l : StringsAreSorted (sort_strings l) = true.
Proof. apply StringsAreSorted_correct, sort_strings_StronglySorted. Qed.

#[export] Hint Resolve sort_strings_sorted : go.

#[export] Instance key_le_trans {A} (key : A → string) : Transitive (key_le key).
Proof. intros x y z. unfold key_le. apply transitivity. Qed.

#[export] Instance key_le_total {A} (key : A → string) : Total (key_le key).
Proof. intros x y. unfold key_le. apply total. apply _. Qed.

Lemma sort_by_perm {A} (key : A → string) l : sort_by key l ≡ₚ l.
Proof. apply merge_sort_Permutation. Qed.

Lemma sort_by_elem {A} (key : A → string) l x : x ∈ sort_by key l ↔ x ∈ l.
Proof. by rewrite (sort_by_perm key l). Qed.

Lemma sort_by_sorted {A} (key : A → string) l : StronglySorted (key_le key) (sort_by key l).
Proof. apply StronglySorted_merge_sort; apply _. Qed.

Lemma StronglySorted_key_fmap {A} (key : A → string) l :
  StronglySorted (key_le key) l → StronglySorted String.le (key <$> l).
Proof. induction 1; cbn; constructor; [done|]. by apply Forall_fmap. Qed.

Lemma sort_by_keys {A} (key : A → string) l : key <$> sort_by key l = sort_strings (key <$> l).
Proof.
  apply (StronglySorted_unique String.le).
  - apply StronglySorted_key_fmap, sort_by_sorted.
  - apply sort_strings_StronglySorted.
  - by rewrite sort_strings_perm, sort_by_perm.
Qed.

(** With distinct keys the order by key is antisymmetric. *)
Lemma key_le_anti {A} (key : A → string) l x y :
  NoDup (key <$> l) → x ∈ l → y ∈ l → key_le key x y → key_le key y x → x = y.
Proof using Type.
  intros Hnd Hx Hy Hxy Hyx. assert (key x = key y) as Heq by by apply (anti_symm String.le).
  apply list_elem_of_lookup in Hx as [i Hi], Hy as [j Hj].
  assert (i = j) as ->; [|congruence]. eapply NoDup_lookup; [exact Hnd|by rewrite list_lookup_fmap, Hi|].
  by rewrite list_lookup_fmap, Hj, Heq.
Qed.

Lemma sort_by_unique {A} (key : A → string) l k : NoDup (key <$> l) → l ≡ₚ k → sort_by key l = sort_by key k.
Proof using Type.
  intros Hnd Hp. apply (StronglySorted_unique_strong (key_le key)); [|apply sort_by_sorted..|by rewrite !sort_by_perm].
  intros x y Hx Hy. apply sort_by_elem in Hx, Hy. rewrite <- Hp in Hy. by apply (key_le_anti key l).
Qed.

Lemma sort_by_id {A} (key : A → string) l : NoDup (key <$> l) → StronglySorted (key_le key) l → sort_by key l = l.
Proof using Type.
  intros Hnd Hs. apply (StronglySorted_unique_strong (key_le key)); [|apply sort_by_sorted|done|apply sort_by_perm].
  intros x y Hx%sort_by_elem Hy. by apply (key_le_anti key l).
Qed.

(** A map that keeps the keys commutes with the sort. *)
Lemma sort_by_fmap {A B} (key : A → string) (key' : B → string) (g : A → B) l :
  (∀ x, key' (g x) = key x) → NoDup (key <$> l) → sort_by key' (g <$> l) = g <$> sort_by key l.
Proof using Type.
  intros Hg Hnd. assert (∀ k, key' <$> (g <$> k) = key <$> k) as Hkeys
    by (intros k; rewrite <- list_fmap_compose; apply list_fmap_ext; intros; apply Hg).
  rewrite (sort_by_unique key' (g <$> l) (g <$> sort_by key l)); [|by rewrite Hkeys|by rewrite sort_by_perm].
  apply sort_by_id; [rewrite Hkeys; by rewrite sort_by_perm|].
  pose proof (sort_by_sorted key l) as Hs. induction Hs as [|x k _ IH Hx]; cbn; constructor; [done|].
  apply Forall_fmap. eapply Forall_impl; [exact Hx|]. intros y. unfold key_le, compose. by rewrite !Hg.
Qed.

(** Trimming keeps a subset of the bytes. *)
Lemma TrimSpace_has_char p s : has_char p s = false → has_char p (TrimSpace s) = false.
Proof.
  unfold has_char, TrimSpace, trim_bytes. rewrite String.list_ascii_of_string_of_list_ascii.
  generalize (String.list_ascii_of_string s). intros l.
  assert (∀ f2 f3 k, existsb p k = false → existsb p (ltrim f2 f3 k) = false) as Hl.
  { intros f2 f3 k Hk. destruct (ltrim_suffix f2 f3 k) as [k' Heq].
    rewrite Heq, existsb_app in Hk. by apply orb_false_iff in Hk as [_ ?]. }
  assert (∀ k, existsb p k = false → existsb p (reverse k) = false) as Hr.
  { intros k Hk. apply not_true_iff_false. intros (x & Hx & Hpx)%existsb_exists.
    rewrite <- list_elem_of_In, elem_of_reverse, list_elem_of_In in Hx.
    apply (proj2 (not_true_iff_false _)) in Hk. apply Hk, existsb_exists. by exists x. }
  auto.
Qed.

Lemma TrimSpace_lacks c s : lacks c s → lacks c (TrimSpace s).
Proof. apply TrimSpace_has_char. Qed.

Lemma TrimSpace_empty : TrimSpace "" = "".
Proof. done. Qed.

(** ** Text around a separator *)

(** [strings.Cut] at a byte. *)
Fixpoint Cut (sep : ascii) (s : string) : option (string * string) :=
  match s with
  | EmptyString => None
  | String c r => if Ascii.eqb c sep then Some ("", r)
                  else match Cut sep r with Some (a, b) => Some (String c a, b) | None => None end
  end.

(** The text around the last occurrence of a byte. *)
Definition CutLast (sep : ascii) (s : string) : option (string * string) :=
  match Cut sep (String.rev s) with
  | Some (b, a) => Some (String.rev a, String.rev b)
  | None => None
  end.

Lemma bytes_app s t :
  String.list_ascii_of_string (s +:+ t) = String.list_ascii_of_string s ++ String.list_ascii_of_string t.
Proof.
  induction s as [|c s IH]; [done|].
  change (c :: String.list_ascii_of_string (s +:+ t) = c :: (String.list_ascii_of_string s ++ String.list_ascii_of_string t)).
  by rewrite IH.
Qed.

Lemma string_app_self p c r : p +:+ String c r ≠ p.
Proof. induction p as [|d p IH]; [done|]. intros [= H]. by apply IH. Qed.

Lemma lacks_app c s t : lacks c (s +:+ t) ↔ lacks c s ∧ lacks c t.
Proof.
  induction s as [|d s IH].
  - split; [|by intros [_ ?]]. split; [apply lacks_empty|done].
  - change (String d s +:+ t) with (String d (s +:+ t)). rewrite !lacks_cons, IH. tauto.
Qed.

Lemma Cut_Some c s a b : Cut c s = Some (a, b) → s = a +:+ String c b ∧ lacks c a.
Proof.
  revert a. induction s as [|d s IH]; intros a; [done|]. cbn. destruct (Ascii.eqb_spec d c) as [->|Hne].
  - intros [= <- <-]. split; [done|apply lacks_empty].
  - destruct (Cut c s) as [[a' b']|]; [|done]. intros [= <- <-]. destruct (IH a' eq_refl) as [-> ?].
    split; [done|]. apply lacks_cons. by split; [congruence|].
Qed.

Lemma Cut_None c s : Cut c s = None → lacks c s.
Proof.
  induction s as [|d s IH]; [intros; apply lacks_empty|]. cbn. destruct (Ascii.eqb_spec d c) as [->|Hne]; [done|].
  destruct (Cut c s) as [[a' b']|]; [done|]. intros _. apply lacks_cons. split; [congruence|by apply IH].
Qed.

Lemma Cut_app c a b : lacks c a → Cut c (a +:+ String c b) = Some (a, b).
Proof.
  induction a as [|d a IH]; intros H.
  - change (Cut c (String c b) = Some ("", b)). cbn. by rewrite Ascii.eqb_refl.
  - apply lacks_cons in H as [Hne H]. change (String d a +:+ String c b) with (String d (a +:+ String c b)).
    cbn. rewrite (proj2 (Ascii.eqb_neq d c)) by congruence. by rewrite IH.
Qed.

Lemma rev_app s t : String.rev (s +:+ t) = String.rev t +:+ String.rev s.
Proof. apply bytes_inj. by rewrite rev_bytes, !bytes_app, !rev_bytes, reverse_app. Qed.

Lemma rev_lacks c s : lacks c (String.rev s) ↔ lacks c s.
Proof. unfold lacks. by rewrite rev_has_char. Qed.

Lemma rev_cons c s : String.rev (String c s) = String.rev s +:+ String c "".
Proof. change (String c s) with (String c "" +:+ s). by rewrite rev_app. Qed.

Lemma CutLast_app c a b : lacks c b → CutLast c (a +:+ String c b) = Some (a, b).
Proof.
  intros H. unfold CutLast. rewrite rev_app, rev_cons, string_app_assoc.
  change (String c "" +:+ String.rev a) with (String c (String.rev a)).
  rewrite Cut_app by by apply rev_lacks. by rewrite !rev_involutive.
Qed.

Lemma CutLast_Some c s a b : CutLast c s = Some (a, b) → s = a +:+ String c b ∧ lacks c b.
Proof.
  unfold CutLast. destruct (Cut c (String.rev s)) as [[x y]|] eqn:E; [|done]. intros [= <- <-].
  apply Cut_Some in E as [E H]. split; [|by apply rev_lacks].
  rewrite <- (rev_involutive s), E, rev_app, rev_cons, string_app_assoc. done.
Qed.

Lemma CutLast_None c s : CutLast c s = None → lacks c s.
Proof.
  unfold CutLast. destruct (Cut c (String.rev s)) as [[x y]|] eqn:E; [done|]. intros _.
  by apply rev_lacks, Cut_None.
Qed.

Lemma HasPrefix_app p s : HasPrefix (p +:+ s) p = true.
Proof. unfold HasPrefix. induction p as [|c p IH]; cbn; [by destruct s|]. by destruct (ascii_dec c c). Qed.

Lemma HasPrefix_spec s p : HasPrefix s p = true → ∃ r, s = p +:+ r.
Proof.
  unfold HasPrefix. revert s. induction p as [|c p IH]; intros s; [by exists s|]. destruct s as [|d s]; [done|].
  cbn. destruct (ascii_dec c d) as [->|]; [|done]. intros [r ->]%IH. by exists r.
Qed.

(** ** Prefixes of a given length *)

Lemma length_string_app (s t : string) : String.length (s +:+ t) = (String.length s + String.length t)%nat.
Proof. induction s as [|c s IH]; [done|]. change (String c s +:+ t) with (String c (s +:+ t)). cbn. by rewrite IH. Qed.

Lemma substring_prefix (u r : string) : String.substring 0 (String.length u) (u +:+ r) = u.
Proof.
  induction u as [|c u IH]; [by destruct r|]. change (String c u +:+ r) with (String c (u +:+ r)). cbn. by rewrite IH.
Qed.

Lemma length_substring n (s : string) : String.length (String.substring 0 n s) = (n `min` String.length s)%nat.
Proof. revert n. induction s as [|c s IH]; intros [|n]; cbn; [done..|]. by rewrite IH. Qed.

Lemma substring_whole n (s : string) : (String.length s <= n)%nat → String.substring 0 n s = s.
Proof. revert n. induction s as [|c s IH]; intros [|n]; cbn; intros; [done..|lia|]. f_equal. apply IH. lia. Qed.

