(* ===== verification/GoErrors.v ===== *)
(** * Errors: [errors.go], [dcs/errors.go], [postgres/errors.go] and the [errors] package

    A Go [error] value is a tree: [fmt.Errorf("%w")] and the typed errors wrap
    at most one cause, [errors.Join] wraps several.  [errors.Is] and
    [errors.As] search that tree in pre-order. *)

From S2P Require Import Prelude GoStrings.

(** ** [dcs.ErrorKind], [dcs.DeliveryState] *)

Module dcsE.
Inductive ErrorKind :=
| ErrorConfiguration | ErrorAuthentication | ErrorTransport | ErrorConflict | ErrorCompacted
| ErrorLimit | ErrorDecode | ErrorCanceled | ErrorDeadline
| ErrorOther (text : string).

Inductive DeliveryState :=
| DeliveryUnknown | DeliveryNotSent | DeliveryMaybeSent | DeliveryResponseReceived
| DeliveryOther (text : string).
End dcsE.

(** ** [patroni.ErrorKind], [patroni.DeliveryState] *)

Module patroniE.
Inductive ErrorKind :=
| ErrorRequest | ErrorAuthentication | ErrorTransport | ErrorResponseBody | ErrorDecode
| ErrorOther (text : string).

Inductive DeliveryState :=
| DeliveryNotSent | DeliveryMaybeSent | DeliveryResponseReceived
| DeliveryOther (text : string).
End patroniE.

(** ** [postgres.ErrorKind] *)

Module pgE.
Inductive ErrorKind :=
| ErrorConfiguration | ErrorConnect | ErrorDatabase | ErrorTransport | ErrorSink | ErrorCanceled
| ErrorDeadline | ErrorLimit | ErrorRoleMismatch | ErrorInvariant
| ErrorOther (text : string).
End pgE.

(** ** Error values *)

Inductive goerror :=
| EText (message : string)                                 (* errors.New *)
| EWrap (message : string) (cause : goerror)               (* fmt.Errorf with one %w *)
| EJoin (errs : list goerror)                              (* errors.Join *)
| ECanceled                                                (* context.Canceled *)
| EDeadlineExceeded                                        (* context.DeadlineExceeded *)
| EUnsupportedPatroniVersion                               (* model.ErrUnsupportedPatroniVersion *)
| EDcs (kind : dcsE.ErrorKind) (operation key : string)
       (delivery : dcsE.DeliveryState) (cause : option goerror)        (* *dcs.Error *)
| EConflict (key : string) (expected observed : Z)                     (* *dcs.ConflictError *)
| EPatroni (kind : patroniE.ErrorKind) (method endpoint : string)
       (delivery : patroniE.DeliveryState) (status : Z) (cause : option goerror)  (* *patroni.Error *)
| EPgError (code : string)                                             (* *pgconn.PgError *)
| EPostgres (kind : pgE.ErrorKind) (stage sqlState : string) (cause : option goerror). (* *postgres.Error *)

(** The [Unwrap] tree in the order [errors.Is] and [errors.As] visit it. *)
Fixpoint err_chain (e : goerror) : list goerror :=
  e :: match e with
       | EWrap _ c => err_chain c
       | EJoin es => (fix go (l : list goerror) :=
                        match l with [] => [] | x :: xs => err_chain x ++ go xs end) es
       | EDcs _ _ _ _ (Some c) => err_chain c
       | EPatroni _ _ _ _ _ (Some c) => err_chain c
       | EPostgres _ _ _ (Some c) => err_chain c
       | _ => []
       end.

(** [dcs.NewError] and [dcs.NewWriteError]. *)
Definition dcs_NewError (kind : dcsE.ErrorKind) (operation key : string) (cause : goerror) : goerror :=
  EDcs kind operation key dcsE.DeliveryUnknown (Some cause).

Definition dcs_NewWriteError (kind : dcsE.ErrorKind) (operation key : string)
    (delivery : dcsE.DeliveryState) (cause : goerror) : goerror :=
  EDcs kind operation key delivery (Some cause).

Definition is_canceled (e : goerror) : bool := match e with ECanceled => true | _ => false end.
Definition is_deadline (e : goerror) : bool := match e with EDeadlineExceeded => true | _ => false end.
Definition is_unsupported (e : goerror) : bool := match e with EUnsupportedPatroniVersion => true | _ => false end.

(** [errors.Is(err, sentinel)]; a nil error matches nothing. *)
Definition errors_Is (err : option goerror) (sentinel : goerror → bool) : bool :=
  match err with None => false | Some e => existsb sentinel (err_chain e) end.

(** [errors.As(err, &x)] for the typed errors. *)
Definition as_with {A} (view : goerror → option A) (err : option goerror) : option A :=
  match err with
  | None => None
  | Some e => head (omap view (err_chain e))
  end.

Definition as_dcs_view (e : goerror) : option (dcsE.ErrorKind * dcsE.DeliveryState) :=
  match e with EDcs kind _ _ delivery _ => Some (kind, delivery) | _ => None end.

Definition as_conflict_view (e : goerror) : option (string * Z * Z) :=
  match e with EConflict key expected observed => Some (key, expected, observed) | _ => None end.

Definition as_patroni_view (e : goerror) : option (patroniE.ErrorKind * patroniE.DeliveryState) :=
  match e with EPatroni kind _ _ delivery _ _ => Some (kind, delivery) | _ => None end.

Definition as_pg_view (e : goerror) : option string := match e with EPgError code => Some code | _ => None end.

Definition as_postgres_view (e : goerror) : option (pgE.ErrorKind * string) :=
  match e with EPostgres kind _ sqlState _ => Some (kind, sqlState) | _ => None end.

Definition as_pg := as_with as_pg_view.
Definition as_postgres := as_with as_postgres_view.
Definition as_dcs := as_with as_dcs_view.
Definition as_conflict := as_with as_conflict_view.
Definition as_patroni := as_with as_patroni_view.

Definition has_conflict (err : option goerror) : bool := negb (is_nil (as_conflict err)).

(** [AmbiguousWrite] of both error types. *)
Definition dcs_AmbiguousWrite (delivery : dcsE.DeliveryState) : bool :=
  match delivery with dcsE.DeliveryMaybeSent => true | _ => false end.

Definition patroni_AmbiguousWrite (delivery : patroniE.DeliveryState) : bool :=
  match delivery with patroniE.DeliveryMaybeSent => true | _ => false end.
