(* ===== verification/PgTypes.v ===== *)
(** * Queries: the types of [postgres/types.go], [errors.go] and [connection.go]

    What a query asks, what its result holds and how a failure is classified.
    The client itself is in [Postgres]. *)

From S2P Require Import Prelude GoStrings GoErrors.

(** ** Requests *)

Record Limits := mkLimits { lmMaxRows : Z; lmMaxBytes : Z; lmUnlimited : bool }.

#[export] Instance zero_Limits : Zero Limits := mkLimits 0 0 false.

Module pg.
Record QueryRequest := mkQueryRequest { pqSQL : string; pqLimits : Limits }.
End pg.

Inductive RecoveryExpectation :=
| RecoveryAny | RecoveryPrimary | RecoveryStandby | RecoveryRaw (text : string).

#[export] Instance RecoveryExpectation_eq_dec : EqDecision RecoveryExpectation.
Proof. solve_decision. Defined.

(** The empty expectation is valid, and means any. *)
Definition RecoveryExpectation_valid (expectation : RecoveryExpectation) : bool :=
  match expectation with RecoveryRaw text => text ==s "" | _ => true end.

(** ** Connections *)

Inductive TLSMode := TLSVerifyFull | TLSInsecure | TLSDisable | TLSFromSource | TLSRaw (text : string).

#[export] Instance TLSMode_eq_dec : EqDecision TLSMode.
Proof. solve_decision. Defined.

(** [tls.Config], the fields the package reads or sets; the rest of it is the
    caller's. *)
Record TLSConfig := mkTLSConfig {
  tcMinVersion : Z;
  tcServerName : string;
  tcInsecureSkipVerify : bool;
  tcVerifyPeerCertificate : bool;  (* whether the callback is set *)
  tcVerifyConnection : bool
}.

Record ConnectionOptions := mkConnectionOptions {
  coHost : string;
  coPort : Z;
  coDatabase : string;
  coUsername : string;
  coApplicationName : string;
  coConnectTimeout : Z;
  coConnectionString : string;
  coPassword : string;
  coTLSMode : TLSMode;
  coTLSConfig : option TLSConfig
}.

#[export] Instance zero_ConnectionOptions : Zero ConnectionOptions :=
  mkConnectionOptions "" 0 "" "" "" 0 "" "" (TLSRaw "") None.

Definition NewConnectionOptions (connectionString : string) : ConnectionOptions :=
  mkConnectionOptions "" 0 "" "" "" 0 connectionString "" TLSVerifyFull None.

Definition WithPassword (o : ConnectionOptions) (password : string) : ConnectionOptions :=
  mkConnectionOptions (coHost o) (coPort o) (coDatabase o) (coUsername o) (coApplicationName o) (coConnectTimeout o)
    (coConnectionString o) password (coTLSMode o) (coTLSConfig o).

Definition WithTLSMode (o : ConnectionOptions) (mode : TLSMode) : ConnectionOptions :=
  mkConnectionOptions (coHost o) (coPort o) (coDatabase o) (coUsername o) (coApplicationName o) (coConnectTimeout o)
    (coConnectionString o) (coPassword o) mode (coTLSConfig o).

Definition WithTLSConfig (o : ConnectionOptions) (configuration : option TLSConfig) : ConnectionOptions :=
  mkConnectionOptions (coHost o) (coPort o) (coDatabase o) (coUsername o) (coApplicationName o) (coConnectTimeout o)
    (coConnectionString o) (coPassword o) (coTLSMode o) configuration.

(** [options.TLSMode()] *)
Definition ConnectionOptions_TLSMode (o : ConnectionOptions) : TLSMode :=
  match coTLSMode o with TLSRaw text => if text ==s "" then TLSVerifyFull else TLSRaw text | mode => mode end.

(** [connection.Host = host; connection.Port = port], and the application name
    when the caller gave none. *)
Definition connect_to (o : ConnectionOptions) (host : string) (port : Z) (applicationName : string) : ConnectionOptions :=
  mkConnectionOptions host port (coDatabase o) (coUsername o) applicationName (coConnectTimeout o)
    (coConnectionString o) (coPassword o) (coTLSMode o) (coTLSConfig o).

(** ** Results *)

Record Column := mkColumn {
  clName : string;
  clTableOID : Z;
  clTableAttributeNumber : Z;
  clDataTypeOID : Z;
  clDataTypeSize : Z;
  clTypeModifier : Z;
  clFormat : Z
}.

Record Cell := mkCell { ceNull : bool; ceText : string; ceBytes : Z }.

#[export] Instance zero_Cell : Zero Cell := mkCell false "" 0.

Definition Row : Type := list Cell.

Record CommandTag := mkCommandTag { ctText : string; ctRowsAffected : Z }.

Record ResultInfo := mkResultInfo { rinIndex : Z; rinColumns : list Column }.

Record ResultSummary := mkResultSummary {
  rsmIndex : Z;
  rsmColumns : list Column;
  rsmCommandTag : string;
  rsmRowsAffected : Z;
  rsmObservedRows : Z;
  rsmEmittedRows : Z;
  rsmObservedBytes : Z;
  rsmEmittedBytes : Z;
  rsmTruncated : bool
}.

Record Summary := mkSummary {
  smResults : list ResultSummary;
  smObservedRows : Z;
  smEmittedRows : Z;
  smObservedBytes : Z;
  smEmittedBytes : Z;
  smTruncated : bool
}.

#[export] Instance zero_Summary : Zero Summary := mkSummary [] 0 0 0 0 false.

Record ResultSet := mkResultSet {
  rsIndex : Z;
  rsColumns : list Column;
  rsRows : list Row;
  rsCommandTag : string;
  rsRowsAffected : Z;
  rsTruncated : bool
}.

Record QueryResult := mkQueryResult { qrSets : list ResultSet; qrSummary : Summary }.

#[export] Instance zero_QueryResult : Zero QueryResult := mkQueryResult [] zero.

(** ** Errors *)

(** [newError]: a server error and the end of a context override the kind. *)
Definition newError (kind : pgE.ErrorKind) (stage : string) (cause : goerror) : goerror :=
  let '(kind, sqlState) := match as_pg (Some cause) with
                           | Some code => (pgE.ErrorDatabase, code)
                           | None => (kind, "")
                           end in
  let kind := if errors_Is (Some cause) is_canceled then pgE.ErrorCanceled else kind in
  let kind := if errors_Is (Some cause) is_deadline then pgE.ErrorDeadline else kind in
  EPostgres kind stage sqlState (Some cause).

Definition configurationError (stage reason : string) : goerror :=
  newError pgE.ErrorConfiguration stage (EText reason).
