(* ===== verification/GoTime.v ===== *)
(** * Instants: the part of package [time] the control component uses

    A [time.Time] is an instant (seconds since 1 January of year 1, and
    nanoseconds) with the offset of its location.  [Format] is given for the
    two layouts the code writes, [Parse] for the one it reads, and the calendar
    is the proleptic Gregorian one. *)

From S2P Require Import Prelude GoStrings.

#[local] Open Scope Z_scope.

Record Time := mkTime {
  tmSec : Z;      (* seconds since 0001-01-01T00:00:00Z *)
  tmNsec : Z;     (* 0 <= tmNsec < 1e9 *)
  tmOffset : Z    (* seconds east of UTC *)
}.

#[export] Instance Time_eq_dec : EqDecision Time.
Proof. solve_decision. Defined.

#[export] Instance zero_Time : Zero Time := mkTime 0 0 0.

Definition IsZero (t : Time) : bool := (tmSec t =? 0) && (tmNsec t =? 0).

Definition Time_Equal (t u : Time) : bool := (tmSec t =? tmSec u) && (tmNsec t =? tmNsec u).

(** ** The calendar

    Days count from 1 January of year 1; 400-year eras start on 1 March of
    year 0, which is 306 days earlier. *)

Definition year_of_era (doe : Z) : Z := (doe - doe / 1460 + doe / 36524 - doe / 146096) / 365.
Definition day_of_year (doe : Z) : Z :=
  let yoe := year_of_era doe in doe - (365 * yoe + yoe / 4 - yoe / 100).

Definition civil_from_days (days : Z) : Z * Z * Z :=
  let z := days + 306 in
  let era := z / 146097 in
  let doe := z mod 146097 in
  let yoe := year_of_era doe in
  let doy := day_of_year doe in
  let mp := (5 * doy + 2) / 153 in
  let d := doy - (153 * mp + 2) / 5 + 1 in
  let m := if mp <? 10 then mp + 3 else mp - 9 in
  (yoe + era * 400 + (if m <=? 2 then 1 else 0), m, d).

Definition days_from_civil (y m d : Z) : Z :=
  let y := if m <=? 2 then y - 1 else y in
  let era := y / 400 in
  let yoe := y mod 400 in
  let mp := if m <=? 2 then m + 9 else m - 3 in
  let doy := (153 * mp + 2) / 5 + d - 1 in
  era * 146097 + (yoe * 365 + yoe / 4 - yoe / 100 + doy) - 306.

Definition leap_year (y : Z) : bool :=
  ((y mod 4 =? 0) && negb (y mod 100 =? 0)) || (y mod 400 =? 0).

Definition days_in (m y : Z) : Z :=
  if m =? 2 then if leap_year y then 29 else 28
  else if (m =? 4) || (m =? 6) || (m =? 9) || (m =? 11) then 30 else 31.

(** ** [Format] *)

Fixpoint digits_of (width : nat) (n : Z) : string :=
  match width with
  | O => ""
  | S w => String (digit (Z.to_N (n / 10 ^ Z.of_nat w mod 10))) (digits_of w n)
  end.

(** Zero-padded to [width], wider when the number needs it. *)
Definition pad (width : nat) (n : Z) : string :=
  let text := FormatInt (Z.abs n) in
  (if n <? 0 then "-" else "") +:+
  (if (String.length text <=? width)%nat then digits_of width (Z.abs n) else text).

(** [.999999999]: the fraction without trailing zeros, nothing when zero. *)
Definition format_fraction (nsec : Z) : string :=
  if nsec =? 0 then "" else "." +:+ TrimRight (Ascii.eqb "0") (digits_of 9 nsec).

Definition format_offset (offset : Z) : string :=
  let zone := Z.quot offset 60 in
  (if zone <? 0 then "-" else "+") +:+ pad 2 (Z.abs zone / 60) +:+ ":" +:+ pad 2 (Z.abs zone mod 60).

Definition format_datetime (t : Time) : string :=
  let local := tmSec t + tmOffset t in
  let '(y, m, d) := civil_from_days (local / 86400) in
  let s := local mod 86400 in
  pad 4 y +:+ "-" +:+ pad 2 m +:+ "-" +:+ pad 2 d +:+ "T" +:+
  pad 2 (s / 3600) +:+ ":" +:+ pad 2 (s / 60 mod 60) +:+ ":" +:+ pad 2 (s mod 60).

Definition format_zone (offset : Z) : string := if offset =? 0 then "Z" else format_offset offset.

(** [t.Format(time.RFC3339Nano)], [t.Format(time.RFC3339)]. *)
Definition FormatRFC3339Nano (t : Time) : string :=
  format_datetime t +:+ format_fraction (tmNsec t) +:+ format_zone (tmOffset t).

Definition FormatRFC3339 (t : Time) : string :=
  format_datetime t +:+ format_zone (tmOffset t).

(** [formatPatroniTimestamp] of [control/service.go]. *)
Definition formatPatroniTimestamp (t : Time) : string :=
  format_datetime t +:+ format_fraction (tmNsec t) +:+ format_offset (tmOffset t).

(** ** [time.Parse(time.RFC3339Nano, _)] *)

(** Exactly [width] digits. *)
Fixpoint take_digits (width : nat) (acc : Z) (s : string) : option (Z * string) :=
  match width with
  | O => Some (acc, s)
  | S w => match s with
           | String c r => if is_digit c then take_digits w (10 * acc + Z.of_N (digit_value c)) r else None
           | EmptyString => None
           end
  end.

Definition take_byte (c : ascii) (s : string) : option string :=
  match s with String d r => if Ascii.eqb c d then Some r else None | EmptyString => None end.

(** The hour may have one digit. *)
Definition take_hour (s : string) : option (Z * string) :=
  match take_digits 2 0 s with Some r => Some r | None => take_digits 1 0 s end.

(** The digits of a fraction; those past the ninth are dropped. *)
Fixpoint take_fraction (scale acc : Z) (s : string) : Z * string :=
  match s with
  | String c r =>
      if is_digit c then take_fraction (scale / 10) (acc + scale * Z.of_N (digit_value c)) r else (acc, s)
  | EmptyString => (acc, s)
  end.

Definition parse_fraction (s : string) : Z * string :=
  match s with
  | String c (String d r) =>
      if (Ascii.eqb c "." || Ascii.eqb c ",") && is_digit d
      then take_fraction 100000000 0 (String d r) else (0, s)
  | _ => (0, s)
  end.

Definition parse_zone (s : string) : option (Z * string) :=
  match s with
  | String "Z" r => Some (0, r)
  | String c r =>
      if Ascii.eqb c "+" || Ascii.eqb c "-" then
        '(h, r) ← take_digits 2 0 r; r ← take_byte ":" r; '(m, r) ← take_digits 2 0 r;
        if (h <=? 24) && (m <=? 60)
        then Some ((if Ascii.eqb c "-" then -1 else 1) * (h * 3600 + m * 60), r) else None
      else None
  | EmptyString => None
  end.

Definition ParseRFC3339Nano (s : string) : option Time :=
  '(y, s) ← take_digits 4 0 s; s ← take_byte "-" s;
  '(mo, s) ← take_digits 2 0 s; s ← take_byte "-" s;
  '(d, s) ← take_digits 2 0 s; s ← take_byte "T" s;
  '(h, s) ← take_hour s; s ← take_byte ":" s;
  '(mi, s) ← take_digits 2 0 s; s ← take_byte ":" s;
  '(se, s) ← take_digits 2 0 s;
  let '(nsec, s) := parse_fraction s in
  '(offset, s) ← parse_zone s;
  if (s ==s "") && (1 <=? mo) && (mo <=? 12) && (1 <=? d) && (d <=? days_in mo y)
     && (h <? 24) && (mi <? 60) && (se <? 60)
  then Some (mkTime (days_from_civil y mo d * 86400 + h * 3600 + mi * 60 + se - offset) nsec offset)
  else None.
