(* ===== verification/Target.v ===== *)
(** * Resource identities: [model/target.go]

    [Target] is the identity every other component uses.  [Normalize] puts it
    in canonical form, [Validate] checks it, [ClusterID] and [MemberID] print
    it and [ParseTargetID] reads it back. *)

From S2P Require Import Prelude GoStrings GoErrors.

Definition DefaultContext : string := "default".
Definition DefaultNamespace : string := "/service".
Definition clusterIDPrefix : string := "patroni:cluster/".
Definition memberIDPrefix : string := "patroni:member/".
Definition legacyClusterIDPrefix : string := "boar:cluster/".
Definition legacyMemberIDPrefix : string := "boar:member/".

Record Target := mkTarget {
  tContext : string;
  tNamespace : string;
  tScope : string;
  tGroup : option Z;
  tMember : string
}.

#[export] Instance Target_eq_dec : EqDecision Target.
Proof. solve_decision. Defined.

#[export] Instance zero_Target : Zero Target := mkTarget "" "" "" None "".

(** [t.Member = name] on a copy of [t]. *)
Definition with_member (t : Target) (name : string) : Target :=
  mkTarget (tContext t) (tNamespace t) (tScope t) (tGroup t) name.

(** ** Normalization *)

Definition NormalizeNamespace (namespace : string) : string :=
  let parts := filter (λ p, p ≠ "") (TrimSpace <$> FieldsFunc "/" (TrimSpace namespace)) in
  match parts with
  | [] => DefaultNamespace
  | _ => "/" +:+ Join parts "/"
  end.

#[global] Arguments NormalizeNamespace : simpl never.

Definition Normalize (t : Target) : Target :=
  let context := TrimSpace (tContext t) in
  mkTarget (if context ==s "" then DefaultContext else context)
           (NormalizeNamespace (tNamespace t))
           (TrimSpace (tScope t)) (tGroup t) (TrimSpace (tMember t)).

(** ** Validation *)

Definition forbidden (c : ascii) : bool :=
  Ascii.eqb c (byte 0) || Ascii.eqb c (byte 10) || Ascii.eqb c (byte 13).

Definition invalidIdentityPart (value : string) : bool := has_char forbidden value.

Definition Target_Validate (t : Target) (requireScope : bool) : option goerror :=
  let t := Normalize t in
  if invalidIdentityPart (tContext t) then
    Some (EText "target context contains a forbidden control character")
  else if invalidIdentityPart (tNamespace t) then
    Some (EText "target namespace contains a forbidden control character")
  else if requireScope && (tScope t ==s "") then Some (EText "target scope is required")
  else if invalidIdentityPart (tScope t) then
    Some (EText "target scope contains a forbidden control character")
  else if (tMember t !=s "") && (tScope t ==s "") then Some (EText "target member requires a scope")
  else if invalidIdentityPart (tMember t) then
    Some (EText "target member contains a forbidden control character")
  else match tGroup t with
       | Some g => if (g <? 0)%Z then Some (EText "target Citus group must be non-negative") else None
       | None => None
       end.

(** ** Identifiers *)

Definition group_text (g : option Z) : string :=
  match g with None => "-" | Some g => FormatInt g end.

Definition cluster_segments (t : Target) : list string :=
  [PathEscape (tContext t); PathEscape (tNamespace t); PathEscape (tScope t); group_text (tGroup t)].

Definition ClusterID (t : Target) : string :=
  let t := Normalize t in clusterIDPrefix +:+ Join (cluster_segments t) "/".

Definition MemberID (t : Target) : string :=
  let t := Normalize t in
  if tMember t ==s "" then ""
  else memberIDPrefix +:+ Join (cluster_segments t ++ [PathEscape (tMember t)]) "/".

(** The prefix switch of [ParseTargetID]: whether a member is named, and the
    encoded segments. *)
Definition strip_id_prefix (value : string) : option (bool * string) :=
  if HasPrefix value clusterIDPrefix then Some (false, TrimPrefix value clusterIDPrefix)
  else if HasPrefix value memberIDPrefix then Some (true, TrimPrefix value memberIDPrefix)
  else if HasPrefix value legacyClusterIDPrefix then Some (false, TrimPrefix value legacyClusterIDPrefix)
  else if HasPrefix value legacyMemberIDPrefix then Some (true, TrimPrefix value legacyMemberIDPrefix)
  else None.

Definition parse_group (text : string) : goerror + option Z :=
  if text ==s "-" then inr None
  else match ParseInt text with
       | Some g => inr (Some g)
       | None => inl (EWrap "decode target group" (EText "strconv.Atoi"))
       end.

(** The decoding loop: the first bad segment is reported with its index. *)
Fixpoint decode_segments (index : Z) (parts : list string) : goerror + list string :=
  match parts with
  | [] => inr []
  | part :: rest =>
      match PathUnescape part with
      | None => inl (EWrap ("decode target ID segment " +:+ FormatInt index) (EText "url.EscapeError"))
      | Some text =>
          match decode_segments (index + 1) rest with
          | inl err => inl err
          | inr texts => inr (text :: texts)
          end
      end
  end.

Definition ParseTargetID (value : string) : goerror + Target :=
  match strip_id_prefix value with
  | None => inl (EText "target ID has an unknown prefix")
  | Some (member, encoded) =>
      let parts := Split "/" encoded in
      let expected := if member then 5%nat else 4%nat in
      if negb (length parts =? expected)%nat then 
        inl (EText ("target ID has " +:+ FormatInt (Z.of_nat (length parts)) +:+ " segments, expected " +:+
                    FormatInt (Z.of_nat expected)))
      else match decode_segments 0 parts with
           | inl err => inl err
           | inr decoded =>
               match decoded with
               | context :: namespace :: scope :: group :: rest =>
                   match parse_group group with
                   | inl err => inl err
                   | inr g =>
                       let target := Normalize (mkTarget context namespace scope g
                                                  (if member then deref "" (head rest) else "")) in
                       if (tContext target ==s "") || (tNamespace target ==s "") || (tScope target ==s "")
                          || (member && (tMember target ==s ""))
                       then inl (EText "target ID contains an empty required segment")
                       else match Target_Validate target true with
                            | Some err => inl (EWrap "invalid target ID" err)
                            | None => inr target
                            end
                   end
               | _ => inl (EText "unreachable: fewer than four segments")
               end
           end
  end.

(** ** Lemmas: normalization *)

(** The bytes of ["/" ++ join (parts ++ [p])] end with a slash and [p]. *)
Lemma join_slash_bytes parts p :
  ∃ k, "/" +:+ Join (parts ++ [p]) "/" =
         String.string_of_list_ascii (k ++ "/"%char :: String.list_ascii_of_string p) ∧
       (k = [] ∨ ∃ k', k = "/"%char :: k').
Proof.
  induction parts as [|x parts (k & Heq & Hk)].
  - exists []. split; [|by left]. cbn. by rewrite String.string_of_list_ascii_of_string.
  - exists ("/"%char :: String.list_ascii_of_string x ++ k). split; [|right; eauto].
    assert (Join (x :: (parts ++ [p])) "/" = x +:+ "/" +:+ Join (parts ++ [p]) "/") as Hj by by destruct parts.
    cbn [app]. rewrite Hj, Heq, string_app_bytes, <- app_assoc. done.
Qed.

Lemma join_slash_trimmed parts p :
  p ≠ "" → trimmed p → trimmed ("/" +:+ Join (parts ++ [p]) "/").
Proof.
  intros Hne [_ Hp]. destruct (join_slash_bytes parts p) as (k & -> & Hk).
  unfold trimmed, trimmed_bytes. rewrite String.list_ascii_of_string_of_list_ascii. split.
  - destruct Hk as [->|[k' ->]]; apply lead_cons_sep; done.
  - assert (reverse (String.list_ascii_of_string p) ≠ []) as Hrev.
    { intros Hr. apply (f_equal reverse) in Hr. rewrite reverse_involutive in Hr. by destruct p. }
    rewrite reverse_app, reverse_cons, <- app_assoc. cbn [app].
    rewrite lead_sep; [done|done|done|..].
    + intros a. unfold rspace2, space2. by rewrite andb_false_l.
    + intros a b. unfold rspace3, space3. cbn. by rewrite !andb_false_r.
Qed.

Definition namespace_parts (namespace : string) : list string :=
  filter (λ p, p ≠ "") (TrimSpace <$> FieldsFunc "/" (TrimSpace namespace)).

Lemma namespace_parts_spec namespace x :
  x ∈ namespace_parts namespace → x ≠ "" ∧ trimmed x ∧ lacks "/" x.
Proof.
  unfold namespace_parts. intros [Hne (y & -> & Hy)%list_elem_of_fmap]%list_elem_of_filter.
  split; [done|]. split; [apply TrimSpace_trimmed|]. apply TrimSpace_lacks.
  unfold FieldsFunc in Hy. apply list_elem_of_filter in Hy as [_ Hy].
  by apply (proj1 (Forall_forall _ _) (Split_lacks "/" (TrimSpace namespace))).
Qed.

Lemma NormalizeNamespace_unfold namespace :
  NormalizeNamespace namespace =
    match namespace_parts namespace with [] => DefaultNamespace | l => "/" +:+ Join l "/" end.
Proof. unfold NormalizeNamespace, namespace_parts. by case_match. Qed.

(** A namespace assembled from clean pieces is its own normal form. *)
Lemma NormalizeNamespace_clean l :
  l ≠ [] → (∀ x, x ∈ l → x ≠ "" ∧ trimmed x ∧ lacks "/" x) →
  NormalizeNamespace ("/" +:+ Join l "/") = "/" +:+ Join l "/".
Proof.
  intros Hne Hl. rewrite NormalizeNamespace_unfold. unfold namespace_parts, FieldsFunc.
  assert (trimmed ("/" +:+ Join l "/")) as Ht.
  { destruct l as [|p l _] using rev_ind; [done|].
    apply join_slash_trimmed; apply (Hl p); set_solver. }
  rewrite (TrimSpace_id _ Ht).
  assert (Split "/" ("/" +:+ Join l "/") = "" :: l) as ->.
  { change ("/" +:+ Join l "/") with (String "/" (Join l "/")). cbn [Split]. rewrite Ascii.eqb_refl.
    f_equal. apply Split_Join; [|done]. apply Forall_forall. intros x Hx. by apply Hl. }
  assert (filter (λ x, x ≠ "") l = l) as Hf.
  { clear Hne Ht. induction l as [|x l IH]; [done|].
    rewrite filter_cons_True by (apply (Hl x); set_solver). f_equal. apply IH.
    intros y Hy. apply Hl. set_solver. }
  rewrite filter_cons_False, Hf by (intros H; by apply H).
  assert (TrimSpace <$> l = l) as ->.
  { clear -Hl. induction l as [|x l IH]; [done|]. cbn. f_equal.
    - apply TrimSpace_id, (Hl x). set_solver.
    - apply IH. intros y Hy. apply Hl. set_solver. }
  rewrite Hf. by destruct l.
Qed.

Lemma NormalizeNamespace_idem namespace :
  NormalizeNamespace (NormalizeNamespace namespace) = NormalizeNamespace namespace.
Proof.
  rewrite (NormalizeNamespace_unfold namespace).
  pose proof (namespace_parts_spec namespace) as H.
  destruct (namespace_parts namespace) as [|x l]; [done|].
  apply NormalizeNamespace_clean; [done|exact H].
Qed.

Lemma NormalizeNamespace_not_empty namespace : NormalizeNamespace namespace ≠ "".
Proof. rewrite NormalizeNamespace_unfold. by case_match. Qed.

Lemma Normalize_idem t : Normalize (Normalize t) = Normalize t.
Proof.
  unfold Normalize. cbn. rewrite NormalizeNamespace_idem, !TrimSpace_idem. f_equal.
  destruct (String.eqb_spec (TrimSpace (tContext t)) "") as [Hc|Hc]; [done|].
  rewrite TrimSpace_idem. by rewrite (proj2 (String.eqb_neq _ _) Hc).
Qed.

Lemma Normalize_context_not_empty t : tContext (Normalize t) ≠ "".
Proof. cbn. by destruct (String.eqb_spec (TrimSpace (tContext t)) ""). Qed.

Lemma Target_Validate_Normalize t b : Target_Validate (Normalize t) b = Target_Validate t b.
Proof. unfold Target_Validate. by rewrite Normalize_idem. Qed.

Lemma ClusterID_Normalize t : ClusterID (Normalize t) = ClusterID t.
Proof. unfold ClusterID. by rewrite Normalize_idem. Qed.

Lemma MemberID_Normalize t : MemberID (Normalize t) = MemberID t.
Proof. unfold MemberID. by rewrite Normalize_idem. Qed.

#[export] Hint Rewrite Normalize_idem Target_Validate_Normalize ClusterID_Normalize MemberID_Normalize : go.

Lemma Normalize_with_member t m :
  Normalize (with_member (Normalize t) m) = with_member (Normalize t) (TrimSpace m).
Proof.
  pose proof (Normalize_idem t) as H. destruct (Normalize t) as [c n s g m'] eqn:E.
  unfold with_member, Normalize in *. cbn in *. injection H as Hc Hn Hs Hm. by rewrite Hc, Hn, Hs.
Qed.

(** The cluster of a member of the cluster. *)
Lemma ClusterID_with_member t m : ClusterID (with_member (Normalize t) m) = ClusterID t.
Proof. unfold ClusterID. by rewrite Normalize_with_member. Qed.

(** Validation without the scope requirement is weaker. *)
Lemma Target_Validate_weaken t b : Target_Validate t true = None → Target_Validate t b = None.
Proof.
  unfold Target_Validate. cbv zeta. destruct b; [done|]. rewrite andb_true_l, andb_false_l.
  destruct (invalidIdentityPart (tContext _)); [done|].
  destruct (invalidIdentityPart (tNamespace _)); [done|].
  destruct (tScope (Normalize t) ==s ""); [discriminate|]. by intros H.
Qed.

Lemma Target_Validate_scope t : Target_Validate t true = None → TrimSpace (tScope t) ≠ "".
Proof.
  unfold Target_Validate. intros H ?. rewrite (proj2 (String.eqb_eq (tScope (Normalize t)) "")) in H by done.
  repeat case_match; done.
Qed.

(** Dropping the member keeps a valid target valid. *)
Lemma Target_Validate_drop_member t b :
  Target_Validate t b = None → Target_Validate (with_member t "") b = None.
Proof.
  unfold Target_Validate. cbn. intros H.
  repeat (case_match; try discriminate); done.
Qed.

(** ** Lemmas: identifiers *)

#[local] Arguments String.append : simpl nomatch.

Lemma TrimPrefix_app p s : TrimPrefix (p +:+ s) p = s.
Proof.
  unfold TrimPrefix, HasPrefix.
  assert (String.prefix p (p +:+ s) = true) as ->.
  { induction p as [|c p IH]; cbn; [by destruct s|]. by destruct (ascii_dec c c). }
  induction p as [|c p IH]; cbn; [by destruct s|exact IH].
Qed.

Lemma strip_cluster s : strip_id_prefix (clusterIDPrefix +:+ s) = Some (false, s).
Proof. unfold strip_id_prefix. by rewrite HasPrefix_app, TrimPrefix_app. Qed.

Lemma strip_member s : strip_id_prefix (memberIDPrefix +:+ s) = Some (true, s).
Proof.
  unfold strip_id_prefix. rewrite HasPrefix_app, TrimPrefix_app.
  assert (HasPrefix (memberIDPrefix +:+ s) clusterIDPrefix = false) as -> by reflexivity. reflexivity.
Qed.

Lemma decode_segments_escape i l :
  decode_segments i (PathEscape <$> l) = inr l.
Proof.
  revert i. induction l as [|x l IH]; intros i; cbn; [done|].
  by rewrite PathUnescape_PathEscape, IH.
Qed.

Lemma format_int_plain z : PathEscape (FormatInt z) = FormatInt z.
Proof.
  assert (∀ s, has_char (λ c, negb (is_digit c)) s = false → PathEscape s = s) as H.
  { intros s. induction s as [|c s IH]; [done|]. unfold has_char. cbn.
    intros [Hc Hs]%orb_false_iff. apply negb_false_iff in Hc. unfold path_plain, is_alnum.
    rewrite Hc, !orb_true_r. cbn. by rewrite IH. }
  unfold FormatInt. destruct (z <? 0)%Z; cbn; by rewrite H by apply format_N_digits.
Qed.

Lemma group_text_plain g : PathEscape (group_text g) = group_text g.
Proof. destruct g; [apply format_int_plain|done]. Qed.

Lemma group_text_lacks g : lacks "/" (group_text g).
Proof. destruct g; [by apply FormatInt_lacks|done]. Qed.

#[export] Hint Resolve group_text_lacks : go.

Lemma parse_group_text g :
  (∀ z, g = Some z → int64 z) → parse_group (group_text g) = inr g.
Proof.
  intros H. unfold parse_group. destruct g as [z|]; [|done]. cbn.
  rewrite (proj2 (String.eqb_neq _ _) (FormatInt_not_dash z)). by rewrite ParseInt_FormatInt by eauto.
Qed.

Lemma cluster_segments_lacks t : Forall (lacks "/") (cluster_segments t).
Proof. unfold cluster_segments. repeat constructor; auto with go. Qed.

Lemma cluster_segments_fmap t :
  cluster_segments t = PathEscape <$> [tContext t; tNamespace t; tScope t; group_text (tGroup t)].
Proof. unfold cluster_segments. cbn. by rewrite group_text_plain. Qed.

Definition group_in_range (t : Target) : Prop := ∀ z, tGroup t = Some z → int64 z.

(** What the tail of [ParseTargetID] does with the decoded fields of a normal,
    valid target: it accepts it unchanged. *)
Lemma ParseTargetID_tail t (member : bool) :
  Normalize t = t → Target_Validate t true = None → (member = true → tMember t ≠ "") →
  (tContext t ==s "") || (tNamespace t ==s "") || (tScope t ==s "") || (member && (tMember t ==s "")) = false.
Proof.
  intros Hn Hv Hm.
  assert (tContext t ≠ "") as Hc by (rewrite <- Hn; apply Normalize_context_not_empty).
  assert (tNamespace t ≠ "") as Hns by (rewrite <- Hn; apply NormalizeNamespace_not_empty).
  assert (tScope t ≠ "") as Hs by (rewrite <- Hn; apply Target_Validate_scope, Hv).
  rewrite !(proj2 (String.eqb_neq _ _)) by done. cbn.
  destruct member; [|done]. by rewrite (proj2 (String.eqb_neq _ _) (Hm eq_refl)).
Qed.

Lemma ParseTargetID_cluster_normal t :
  Normalize t = t → tMember t = "" → Target_Validate t true = None → group_in_range t →
  ParseTargetID (clusterIDPrefix +:+ Join (cluster_segments t) "/") = inr t.
Proof.
  intros Hn Hm Hv Hg. unfold ParseTargetID. rewrite strip_cluster.
  rewrite Split_Join by (try apply cluster_segments_lacks; done).
  cbv zeta. rewrite cluster_segments_fmap at 1. cbn [length fmap list_fmap Nat.eqb negb].
  rewrite cluster_segments_fmap, decode_segments_escape. rewrite parse_group_text by done.
  assert (mkTarget (tContext t) (tNamespace t) (tScope t) (tGroup t) "" = t) as ->.
  { destruct t. cbn in *. by subst. }
  rewrite Hn, (ParseTargetID_tail t false) by done. by rewrite Hv.
Qed.

Lemma ParseTargetID_member_normal t :
  Normalize t = t → tMember t ≠ "" → Target_Validate t true = None → group_in_range t →
  ParseTargetID (memberIDPrefix +:+ Join (cluster_segments t ++ [PathEscape (tMember t)]) "/") = inr t.
Proof.
  intros Hn Hm Hv Hg. unfold ParseTargetID. rewrite strip_member.
  rewrite Split_Join; [|apply Forall_app; split; [apply cluster_segments_lacks|by repeat constructor; auto with go]|done].
  rewrite cluster_segments_fmap.
  change [PathEscape (tMember t)] with (PathEscape <$> [tMember t]). rewrite <- fmap_app.
  cbn [length fmap list_fmap Nat.eqb negb app]. cbv zeta.
  change (PathEscape (tContext t) :: PathEscape (tNamespace t) :: PathEscape (tScope t)
    :: PathEscape (group_text (tGroup t)) :: [PathEscape (tMember t)])
    with (PathEscape <$> [tContext t; tNamespace t; tScope t; group_text (tGroup t); tMember t]).
  rewrite decode_segments_escape. rewrite parse_group_text by done. cbn [head deref].
  assert (mkTarget (tContext t) (tNamespace t) (tScope t) (tGroup t) (tMember t) = t) as -> by by destruct t.
  rewrite Hn, (ParseTargetID_tail t true) by done. by rewrite Hv.
Qed.

(** ** Properties *)

(** C33: printing a valid cluster identity and parsing it back gives the
    normalized target (the member is not part of a cluster identity). *)
Theorem ParseTargetID_ClusterID (t : Target) :
  Target_Validate t true = None → group_in_range t →
  ParseTargetID (ClusterID t) = inr (with_member (Normalize t) "").
Proof.
  intros Hv Hg. unfold ClusterID. cbv zeta.
  change (cluster_segments (Normalize t)) with (cluster_segments (with_member (Normalize t) "")).
  apply ParseTargetID_cluster_normal; [by rewrite Normalize_with_member|done| |done].
  apply Target_Validate_drop_member. by rewrite Target_Validate_Normalize.
Qed.

Lemma ParseTargetID_ClusterID_witness :
  ParseTargetID (ClusterID (mkTarget " prod" "service/" "pg main" (Some 7%Z) "n1")) =
  inr (mkTarget "prod" "/service" "pg main" (Some 7%Z) "").
Proof.
  apply (ParseTargetID_ClusterID (mkTarget " prod" "service/" "pg main" (Some 7%Z) "n1")).
  - reflexivity.
  - intros z [= <-]. vm_compute. done.
Defined.

(** Printing a valid member identity and parsing it back gives the
    normalized target. *)
Theorem ParseTargetID_MemberID (t : Target) :
  Target_Validate t true = None → group_in_range t → TrimSpace (tMember t) ≠ "" →
  ParseTargetID (MemberID t) = inr (Normalize t).
Proof.
  intros Hv Hg Hm. unfold MemberID. cbv zeta.
  rewrite (proj2 (String.eqb_neq (tMember (Normalize t)) "")) by done.
  apply ParseTargetID_member_normal; [apply Normalize_idem|done| |done].
  by rewrite Target_Validate_Normalize.
Qed.

Lemma ParseTargetID_MemberID_witness :
  ParseTargetID (MemberID (mkTarget "" "/" "a/b" None " node 1 ")) =
  inr (mkTarget "default" "/service" "a/b" None "node 1").
Proof.
  apply (ParseTargetID_MemberID (mkTarget "" "/" "a/b" None " node 1 ")); [reflexivity| |done].
  intros z [=].
Defined.

(** Whatever text [ParseTargetID] accepts, the target it returns is in
    normal form and valid. *)
Theorem ParseTargetID_sound (value : string) (t : Target) :
  ParseTargetID value = inr t → Normalize t = t ∧ Target_Validate t true = None.
Proof.
  unfold ParseTargetID. intros H.
  repeat (case_match; simplify_eq/=); (split; [apply Normalize_idem|done]).
Qed.

Lemma ParseTargetID_sound_witness :
  Normalize (mkTarget "c" "/n" "s" None "") = mkTarget "c" "/n" "s" None "" ∧
  Target_Validate (mkTarget "c" "/n" "s" None "") true = None.
Proof. apply (ParseTargetID_sound "boar:cluster/c/n/s/-"). reflexivity. Defined.

(** Two valid targets have the same cluster identity exactly when they
    normalize to the same context, namespace, scope and group. *)
Theorem ClusterID_injective (t u : Target) :
  Target_Validate t true = None → Target_Validate u true = None →
  group_in_range t → group_in_range u →
  ClusterID t = ClusterID u ↔ with_member (Normalize t) "" = with_member (Normalize u) "".
Proof.
  intros Ht Hu Hgt Hgu. split; intros Heq.
  - apply (f_equal ParseTargetID) in Heq. rewrite !ParseTargetID_ClusterID in Heq by done. congruence.
  - unfold ClusterID. cbv zeta.
    change (cluster_segments (Normalize t)) with (cluster_segments (with_member (Normalize t) "")).
    by rewrite Heq.
Qed.

Lemma ClusterID_injective_witness :
  ClusterID (mkTarget "" "service" "a" None "x") = ClusterID (mkTarget "default" "/service" " a" None "") ↔
  mkTarget "default" "/service" "a" None "" = mkTarget "default" "/service" "a" None "".
Proof.
  apply (ClusterID_injective (mkTarget "" "service" "a" None "x") (mkTarget "default" "/service" " a" None ""));
    try reflexivity; intros z [=].
Defined.
