(* ===== verification/Version.v ===== *)
(** * Patroni versions and the compatibility gate: [model/version.go], [catalog.go]

    [ParseVersion] reads a Patroni version string, [Version_Compare] orders
    versions by SemVer precedence, [VersionRange_Contains] is the gate every
    cluster write passes, and [SupportsFeature] is the per-feature gate. *)

From S2P Require Import Prelude GoStrings GoErrors.

#[local] Open Scope Z_scope.

Record Version := mkVersion {
  vMajor : Z;
  vMinor : Z;
  vPatch : Z;
  vSuffix : string
}.

(** ** [versionPattern]

    [^v?([0-9]+)\.([0-9]+)\.([0-9]+)([.-][0-9A-Za-z.-]+)?(?: \([^\r\n()]*\))?$]
    The expression is deterministic: no class overlaps the byte that may
    follow it, so greedy spans are the only match. *)

Fixpoint span (p : ascii → bool) (s : string) : string * string :=
  match s with
  | EmptyString => ("", "")
  | String c r => if p c then let '(a, b) := span p r in (String c a, b) else ("", s)
  end.

Definition suffix_lead (c : ascii) : bool := Ascii.eqb c "." || Ascii.eqb c "-".
Definition suffix_char (c : ascii) : bool := is_alnum c || suffix_lead c.
Definition comment_char (c : ascii) : bool :=
  negb (Ascii.eqb c (byte 13) || Ascii.eqb c (byte 10) || Ascii.eqb c "(" || Ascii.eqb c ")").

Definition match_digits (s : string) : option (string * string) :=
  let '(a, b) := span is_digit s in if a ==s "" then None else Some (a, b).

Definition match_dot (s : string) : option string :=
  match s with String "." r => Some r | _ => None end.

Definition match_suffix (s : string) : option (string * string) :=
  match s with
  | String c r =>
      if suffix_lead c then
        let '(a, b) := span suffix_char r in if a ==s "" then None else Some (String c a, b)
      else Some ("", s)
  | EmptyString => Some ("", "")
  end.

Definition match_comment (s : string) : bool :=
  match s with
  | EmptyString => true
  | String " " (String "(" r) => (span comment_char r).2 ==s ")"
  | _ => false
  end.

Definition match_version (s : string) : option (string * string * string * string) :=
  let s := match s with String "v" r => r | _ => s end in
  '(a, s) ← match_digits s; s ← match_dot s;
  '(b, s) ← match_digits s; s ← match_dot s;
  '(c, s) ← match_digits s;
  '(suffix, s) ← match_suffix s;
  if match_comment s then Some (a, b, c, suffix) else None.

Definition invalid_version (value : string) : goerror :=
  EText ("invalid Patroni version " +:+ value).

Definition ParseVersion (value : string) : goerror + Version :=
  match match_version value with
  | None => inl (invalid_version value)
  | Some (a, b, c, suffix) =>
      match ParseInt a, ParseInt b, ParseInt c with
      | Some x, Some y, Some z => inr (mkVersion x y z suffix)
      | _, _, _ => inl (invalid_version value)
      end
  end.

Definition Version_String (v : Version) : string :=
  FormatInt (vMajor v) +:+ "." +:+ FormatInt (vMinor v) +:+ "." +:+ FormatInt (vPatch v) +:+ vSuffix v.

(** ** Comparison: negative, zero or positive, as in Go *)

Definition cmp_int (a b : Z) : Z := if (a <? b)%Z then -1 else if (b <? a)%Z then 1 else 0.

Definition cmp_string (a b : string) : Z :=
  if String.ltb a b then -1 else if String.ltb b a then 1 else 0.

(** Continue with [c2] when [c1] finds no difference. *)
Definition cmp_then (c1 c2 : Z) : Z := if (c1 =? 0)%Z then c2 else c1.

Definition numericIdentifier (value : string) : option string :=
  if (value ==s "") || has_char (λ c, negb (is_digit c)) value then None
  else let normalized := TrimLeft (Ascii.eqb "0") value in
       Some (if normalized ==s "" then "0" else normalized).

Definition cmp_length (a b : string) : Z :=
  cmp_int (Z.of_nat (String.length a)) (Z.of_nat (String.length b)).

(** The switch of the comparison loop, zero when the loop goes on. *)
Definition comparePart (l r : string) : Z :=
  match numericIdentifier l, numericIdentifier r with
  | Some x, Some y => cmp_then (cmp_length x y) (cmp_string x y)
  | Some _, None => -1
  | None, Some _ => 1
  | None, None => cmp_string l r
  end.

(** [cmp_list cmp] is the loop over two slices followed by the comparison of
    their lengths. *)
Fixpoint cmp_list {A} (cmp : A → A → Z) (xs ys : list A) : Z :=
  match xs, ys with
  | [], [] => 0
  | [], _ => -1
  | _, [] => 1
  | x :: xs, y :: ys => cmp_then (cmp x y) (cmp_list cmp xs ys)
  end.

Definition comparePrerelease (l r : string) : Z :=
  let l := TrimLeft suffix_lead l in
  let r := TrimLeft suffix_lead r in
  if (l ==s "") && (r ==s "") then 0
  else if l ==s "" then 1
  else if r ==s "" then -1
  else cmp_list comparePart (Split "." l) (Split "." r).

Definition compareNumericCore (l r : Version) : Z :=
  cmp_then (cmp_int (vMajor l) (vMajor r))
    (cmp_then (cmp_int (vMinor l) (vMinor r)) (cmp_int (vPatch l) (vPatch r))).

Definition Version_Compare (v other : Version) : Z :=
  cmp_then (compareNumericCore v other) (comparePrerelease (vSuffix v) (vSuffix other)).

(** ** Ranges *)

Record VersionRange := mkVersionRange { rangeMin : Version; rangeMax : Version }.

Definition VersionRange_Contains (r : VersionRange) (version : Version) : bool :=
  (0 <=? Version_Compare version (rangeMin r))%Z && (compareNumericCore version (rangeMax r) <? 0)%Z.

Definition AuditedPatroniRange : VersionRange :=
  mkVersionRange (mkVersion 3 0 0 "") (mkVersion 5 0 0 "").

Definition VersionRange_String (r : VersionRange) : string :=
  ">=" +:+ Version_String (rangeMin r) +:+ ",<" +:+ Version_String (rangeMax r).

Definition VersionRange_Validate (r : VersionRange) : option goerror :=
  if (0 <=? Version_Compare (rangeMin r) (rangeMax r))%Z then
    Some (EText "patroni version range minimum must be less than maximum")
  else if (Version_Compare (rangeMin r) (rangeMin AuditedPatroniRange) <? 0)%Z
       || (0 <? Version_Compare (rangeMax r) (rangeMax AuditedPatroniRange))%Z then
    Some (EText ("patroni version range " +:+ VersionRange_String r +:+ " is outside SDK range " +:+
                 VersionRange_String AuditedPatroniRange))
  else None.

Definition NewVersionRange (minimum maximum : string) : goerror + VersionRange :=
  match ParseVersion minimum with
  | inl err => inl (EWrap "minimum Patroni version" err)
  | inr lo =>
      match ParseVersion maximum with
      | inl err => inl (EWrap "maximum Patroni version" err)
      | inr hi =>
          match VersionRange_Validate (mkVersionRange lo hi) with
          | Some err => inl err
          | None => inr (mkVersionRange lo hi)
          end
      end
  end.

Definition CheckPatroniVersion (value : string) : option goerror :=
  match ParseVersion value with
  | inl err => Some err
  | inr version =>
      if VersionRange_Contains AuditedPatroniRange version then None
      else Some (EWrap (Version_String version +:+ " is outside " +:+ VersionRange_String AuditedPatroniRange)
                       EUnsupportedPatroniVersion)
  end.

(** ** Features *)

Inductive Feature :=
| FeatureCoreRESTAPI | FeatureMPPEndpoint | FeatureQuorumStatus | FeatureFailsafeLSNHeader
| FeatureReadinessLagMode | FeatureReinitializeFromLeader | FeatureStandbyClusterCLI
| FeatureOther (text : string).

#[export] Instance Feature_eq_dec : EqDecision Feature.
Proof. solve_decision. Defined.

Definition PatroniV3 : string := "3.0.0".
Definition PatroniV3MPP : string := "3.3.0".
Definition PatroniV4 : string := "4.0.0".
Definition PatroniV4Point1 : string := "4.1.0".

Definition featureCatalog : list (Feature * string) :=
  [(FeatureCoreRESTAPI, PatroniV3); (FeatureMPPEndpoint, PatroniV3MPP);
   (FeatureQuorumStatus, PatroniV4); (FeatureFailsafeLSNHeader, PatroniV4);
   (FeatureReadinessLagMode, PatroniV4Point1);
   (FeatureReinitializeFromLeader, PatroniV4Point1);
   (FeatureStandbyClusterCLI, PatroniV4Point1)].

Definition SupportsFeature (versionText : string) (feature : Feature) : goerror + bool :=
  match ParseVersion versionText with
  | inl err => inl err
  | inr version =>
      match CheckPatroniVersion versionText with
      | Some err => inl err
      | None =>
          match find_first (λ c, bool_decide (c.1 = feature)) featureCatalog with
          | None => inl (EText "unknown Patroni feature")
          | Some (_, since) =>
              match ParseVersion since with
              | inl err => inl err
              | inr s => inr (0 <=? Version_Compare version s)%Z
              end
          end
      end
  end.

(** ** What a parsed version looks like *)

Definition lead_fails (p : ascii → bool) (s : string) : bool :=
  match s with String c _ => negb (p c) | EmptyString => true end.

Definition all_chars (p : ascii → bool) (s : string) : bool := negb (has_char (λ c, negb (p c)) s).

Definition valid_suffix (s : string) : bool :=
  match s with
  | EmptyString => true
  | String c r => suffix_lead c && all_chars suffix_char r && (r !=s "")
  end.

Definition valid_number (z : Z) : Prop := 0 <= z <= max_int64.

Definition valid_version (v : Version) : Prop :=
  valid_number (vMajor v) ∧ valid_number (vMinor v) ∧ valid_number (vPatch v) ∧
  valid_suffix (vSuffix v) = true.

(** ** Specification of a three-way comparison, and the sort keys of the comparisons above *)

Class GoodCmp {A} (cmp : A → A → Z) : Prop := {
  cmp_antisym x y : cmp y x = - cmp x y;
  cmp_trans x y z : cmp x y <= 0 → cmp y z <= 0 → cmp x z <= 0
}.

(** A part compares by its class (numbers first), then by the length of the
    normalised number, then by its text. *)
Definition part_class (s : string) : Z := match numericIdentifier s with Some _ => 0 | None => 1 end.
Definition part_length (s : string) : Z :=
  match numericIdentifier s with Some n => Z.of_nat (String.length n) | None => 0 end.
Definition part_text (s : string) : string := deref s (numericIdentifier s).

(** A suffix that trims to nothing is a release, above every pre-release. *)
Definition pre_class (s : string) : Z := if TrimLeft suffix_lead s ==s "" then 1 else 0.
Definition pre_parts (s : string) : list string :=
  if TrimLeft suffix_lead s ==s "" then [] else Split "." (TrimLeft suffix_lead s).

(** ** Every comparison is a total preorder *)

Section good_cmp.
Context {A} (cmp : A → A → Z) `{!GoodCmp cmp}.

Lemma cmp_trans_strict x y z : cmp x y < 0 → cmp y z <= 0 → cmp x z < 0.
Proof using Type*.
  intros Hxy Hyz. destruct (Z.lt_ge_cases (cmp x z) 0) as [|Hge]; [done|].
  assert (Hzx : cmp z x <= 0) by (rewrite (cmp_antisym x z); lia).
  pose proof (cmp_trans y z x Hyz Hzx) as Hyx. rewrite (cmp_antisym x y) in Hyx. lia.
Qed.

Lemma cmp_trans_strict_r x y z : cmp x y <= 0 → cmp y z < 0 → cmp x z < 0.
Proof using Type*.
  intros Hxy Hyz. destruct (Z.lt_ge_cases (cmp x z) 0) as [|Hge]; [done|].
  assert (Hzx : cmp z x <= 0) by (rewrite (cmp_antisym x z); lia).
  pose proof (cmp_trans z x y Hzx Hxy) as Hzy. rewrite (cmp_antisym y z) in Hzy. lia.
Qed.

Lemma cmp_trans_eq x y z : cmp x y = 0 → cmp y z = 0 → cmp x z = 0.
Proof using Type*.
  intros Hxy Hyz.
  assert (cmp x z <= 0) by (apply (cmp_trans x y z); lia).
  assert (cmp z x <= 0)
    by (apply (cmp_trans z y x); rewrite cmp_antisym; lia).
  rewrite (cmp_antisym x z) in *. lia.
Qed.
End good_cmp.

#[export] Instance cmp_int_good : GoodCmp cmp_int.
Proof.
  split; unfold cmp_int; intros *;
    repeat match goal with |- context [?a <? ?b] => destruct (Z.ltb_spec a b) end; lia.
Qed.

Lemma cmp_string_le x y : cmp_string x y <= 0 ↔ String.le x y.
Proof.
  unfold cmp_string, String.le, String.leb, String.ltb. rewrite (String.compare_antisym x y).
  destruct (String.compare y x); cbn; split; try done; lia.
Qed.

#[export] Instance cmp_string_good : GoodCmp cmp_string.
Proof.
  split.
  - intros x y. unfold cmp_string, String.ltb. rewrite (String.compare_antisym y x).
    by destruct (String.compare x y).
  - intros x y z. rewrite !cmp_string_le. by intros ->.
Qed.

#[export] Instance cmp_on_good {A B} (f : A → B) (cmp : B → B → Z) :
  GoodCmp cmp → GoodCmp (λ x y, cmp (f x) (f y)).
Proof. intros H. split; intros *; [apply cmp_antisym|apply cmp_trans]. Qed.

Lemma cmp_then_le0 c d : cmp_then c d <= 0 ↔ c < 0 ∨ c = 0 ∧ d <= 0.
Proof. unfold cmp_then. destruct (Z.eqb_spec c 0); lia. Qed.

#[export] Instance cmp_then_good {A} (c1 c2 : A → A → Z) :
  GoodCmp c1 → GoodCmp c2 → GoodCmp (λ x y, cmp_then (c1 x y) (c2 x y)).
Proof.
  intros H1 H2. split; intros x y.
  - rewrite (cmp_antisym (cmp := c1) x y), (cmp_antisym (cmp := c2) x y). unfold cmp_then.
    do 2 case_match; go_bool; lia.
  - intros z. rewrite !cmp_then_le0. intros [Hx|[Hx Hx']] [Hy|[Hy Hy']].
    + left. apply (cmp_trans_strict c1 x y z); lia.
    + left. apply (cmp_trans_strict c1 x y z); lia.
    + left. apply (cmp_trans_strict_r c1 x y z); lia.
    + right. split; [by apply (cmp_trans_eq c1 x y z)|by apply (cmp_trans x y z)].
Qed.

Lemma cmp_list_antisym {A} (cmp : A → A → Z) `{!GoodCmp cmp} xs ys :
  cmp_list cmp ys xs = - cmp_list cmp xs ys.
Proof.
  revert ys. induction xs as [|x xs IH]; intros [|y ys]; try done. cbn.
  rewrite (IH ys), (cmp_antisym x y). unfold cmp_then. do 2 case_match; go_bool; lia.
Qed.

#[export] Instance cmp_list_good {A} (cmp : A → A → Z) : GoodCmp cmp → GoodCmp (cmp_list cmp).
Proof.
  intros Hc. split; [intros; by apply cmp_list_antisym|].
  intros xs. induction xs as [|x xs IH]; intros [|y ys] [|z zs]; cbn; try lia.
  rewrite !cmp_then_le0. intros [Hx|[Hx Hx']] [Hy|[Hy Hy']].
  - left. apply (cmp_trans_strict cmp x y z); lia.
  - left. apply (cmp_trans_strict cmp x y z); lia.
  - left. apply (cmp_trans_strict_r cmp x y z); lia.
  - right. split; [by apply (cmp_trans_eq cmp x y z)|by apply (IH ys zs)].
Qed.

Lemma comparePart_key x y :
  comparePart x y =
  cmp_then (cmp_int (part_class x) (part_class y))
    (cmp_then (cmp_int (part_length x) (part_length y)) (cmp_string (part_text x) (part_text y))).
Proof.
  unfold comparePart, part_class, part_length, part_text.
  by destruct (numericIdentifier x), (numericIdentifier y).
Qed.

Lemma GoodCmp_ext {A} (c d : A → A → Z) : (∀ x y, c x y = d x y) → GoodCmp d → GoodCmp c.
Proof.
  intros Heq Hd. split; intros *; rewrite !Heq; [apply cmp_antisym|apply cmp_trans].
Qed.

#[export] Instance comparePart_good : GoodCmp comparePart.
Proof. eapply GoodCmp_ext; [apply comparePart_key|apply _]. Qed.

Lemma comparePrerelease_key x y :
  comparePrerelease x y =
  cmp_then (cmp_int (pre_class x) (pre_class y)) (cmp_list comparePart (pre_parts x) (pre_parts y)).
Proof.
  unfold comparePrerelease, pre_class, pre_parts. cbv zeta.
  destruct (TrimLeft suffix_lead x ==s ""), (TrimLeft suffix_lead y ==s ""); try done.
Qed.

#[export] Instance comparePrerelease_good : GoodCmp comparePrerelease.
Proof. eapply GoodCmp_ext; [apply comparePrerelease_key|apply _]. Qed.

#[export] Instance compareNumericCore_good : GoodCmp compareNumericCore.
Proof. unfold compareNumericCore. apply _. Qed.

#[export] Instance Version_Compare_good : GoodCmp Version_Compare.
Proof.
  unfold Version_Compare. apply cmp_then_good; [apply _|].
  apply (cmp_on_good vSuffix comparePrerelease). apply _.
Qed.

Lemma Version_Compare_core v w : Version_Compare v w <= 0 → compareNumericCore v w <= 0.
Proof. unfold Version_Compare. rewrite cmp_then_le0. lia. Qed.

(** ** The pattern matcher *)

Lemma all_chars_cons p c s : all_chars p (String c s) = p c && all_chars p s.
Proof. unfold all_chars, has_char. cbn. by destruct (p c). Qed.

Lemma span_spec p s a b :
  span p s = (a, b) → s = a +:+ b ∧ all_chars p a = true ∧ lead_fails p b = true.
Proof.
  revert a b. induction s as [|c s IH]; intros a b; cbn; [by intros [= <- <-]|].
  destruct (p c) eqn:Ec; [|by intros [= <- <-]; cbn; rewrite Ec].
  destruct (span p s) as [u w] eqn:E. intros [= <- <-].
  destruct (IH u w eq_refl) as (-> & Ha & Hb). rewrite all_chars_cons, Ec, Ha. done.
Qed.

Lemma span_app p a b :
  all_chars p a = true → lead_fails p b = true → span p (a +:+ b) = (a, b).
Proof.
  intros Ha Hb. induction a as [|c a IH].
  - change ("" +:+ b) with b. destruct b as [|c b]; [done|]. cbn in Hb |- *. by destruct (p c).
  - rewrite all_chars_cons in Ha. go_bool.
    change (String c a +:+ b) with (String c (a +:+ b)). cbn. rewrite H. by rewrite IH.
Qed.

Lemma parse_digits_bound z s : all_chars is_digit s = true → ParseInt s = Some z → valid_number z.
Proof.
  intros Hs. destruct s as [|c s]; [done|]. rewrite all_chars_cons in Hs. go_bool.
  assert (Hp : ParseInt (String c s) = n ← parse_digits (String c s);
      if (min_int64 <=? Z.of_N n) && (Z.of_N n <=? max_int64) then Some (Z.of_N n) else None).
  { revert H. unfold ParseInt. clear. destruct c as [[] [] [] [] [] [] [] []]; try done. }
  rewrite Hp. destruct (parse_digits _); cbn; [|done]. case_match; [|done]. go_bool.
  intros [= <-]. unfold valid_number. lia.
Qed.

Lemma FormatInt_digits z : valid_number z → all_chars is_digit (FormatInt z) = true ∧ FormatInt z ≠ "".
Proof.
  intros Hz. unfold FormatInt, all_chars. replace (z <? 0) with false by (symmetry; apply Z.ltb_ge, Hz).
  rewrite format_N_digits. split; [done|]. by destruct (format_N_first (Z.abs_N z)) as (c & r & -> & _).
Qed.

Lemma ParseInt_FormatInt_valid z : valid_number z → ParseInt (FormatInt z) = Some z.
Proof. intros Hz. apply ParseInt_FormatInt. unfold int64, valid_number, min_int64, max_int64 in *. lia. Qed.

Lemma match_digits_FormatInt z r :
  valid_number z → lead_fails is_digit r = true → match_digits (FormatInt z +:+ r) = Some (FormatInt z, r).
Proof.
  intros Hz Hr. destruct (FormatInt_digits z Hz) as [Hd Hn]. unfold match_digits.
  rewrite span_app by done. by apply String.eqb_neq in Hn as ->.
Qed.

Lemma match_digits_spec s a r : match_digits s = Some (a, r) → all_chars is_digit a = true.
Proof.
  unfold match_digits. destruct (span is_digit s) as [x y] eqn:E. case_match; [done|].
  intros [= <- <-]. by apply span_spec in E as (_ & ? & _).
Qed.

Lemma match_suffix_spec s a r : match_suffix s = Some (a, r) → valid_suffix a = true.
Proof.
  unfold match_suffix. destruct s as [|c s]; [by intros [= <- _]|].
  destruct (suffix_lead c) eqn:Ec; [|by intros [= <- _]].
  destruct (span suffix_char s) as [x y] eqn:E. case_match eqn:En; [done|].
  intros [= <- <-]. apply span_spec in E as (_ & Ha & _). cbn. by rewrite Ec, Ha, En.
Qed.

Lemma match_suffix_valid s : valid_suffix s = true → match_suffix s = Some (s, "").
Proof.
  unfold match_suffix, valid_suffix. destruct s as [|c s]; [done|]. intros H. go_bool. rewrite H.
  assert (Hs : span suffix_char s = (s, "")).
  { pose proof (span_app suffix_char s "" H1 eq_refl) as E. by rewrite string_app_nil_r in E. }
  rewrite Hs. by apply String.eqb_neq in H0 as ->.
Qed.

Lemma match_dot_app r : match_dot ("." +:+ r) = Some r.
Proof. done. Qed.

(** The matcher on a printed core followed by a suffix. *)
Lemma match_version_String v :
  valid_version v →
  match_version (Version_String v) =
  Some (FormatInt (vMajor v), FormatInt (vMinor v), FormatInt (vPatch v), vSuffix v).
Proof.
  intros (Ha & Hb & Hc & Hs). unfold match_version, Version_String.
  assert (Hv : ∀ r, match FormatInt (vMajor v) +:+ r with String "v" t => t | _ => FormatInt (vMajor v) +:+ r end
               = FormatInt (vMajor v) +:+ r).
  { intros r. destruct (FormatInt_digits _ Ha) as [Hd Hn]. destruct (FormatInt (vMajor v)) as [|c t]; [done|].
    rewrite all_chars_cons in Hd. go_bool. change (String c t +:+ r) with (String c (t +:+ r)).
    destruct c as [[] [] [] [] [] [] [] []]; done. }
  rewrite Hv, match_digits_FormatInt by done. cbn. rewrite match_dot_app. cbn.
  rewrite match_digits_FormatInt by done. cbn. rewrite match_dot_app. cbn.
  rewrite match_digits_FormatInt.
  - cbn. rewrite match_suffix_valid by done. done.
  - done.
  - destruct (vSuffix v) as [|c t]; [done|]. cbn in Hs. go_bool. cbn.
    unfold suffix_lead in H. go_bool; by apply Ascii.eqb_eq in H as ->.
Qed.

Lemma ParseVersion_valid s v : ParseVersion s = inr v → valid_version v.
Proof.
  unfold ParseVersion, match_version.
  destruct (match_digits _) as [[a s1]|] eqn:Ea; cbn; [|done]. destruct (match_dot s1) as [s2|]; cbn; [|done].
  destruct (match_digits s2) as [[b s3]|] eqn:Eb; cbn; [|done]. destruct (match_dot s3) as [s4|]; cbn; [|done].
  destruct (match_digits s4) as [[c s5]|] eqn:Ec; cbn; [|done].
  destruct (match_suffix s5) as [[suffix s6]|] eqn:Es; cbn; [|done].
  destruct (match_comment s6); [|done].
  destruct (ParseInt a) eqn:?; [|done]. destruct (ParseInt b) eqn:?; [|done].
  destruct (ParseInt c) eqn:?; [|done]. intros [= <-].
  refine (conj _ (conj _ (conj _ _))); [..|by eapply match_suffix_spec];
    eauto using parse_digits_bound, match_digits_spec.
Qed.

Lemma ParseVersion_String v : valid_version v → ParseVersion (Version_String v) = inr v.
Proof.
  intros Hv. unfold ParseVersion. rewrite match_version_String by done.
  destruct Hv as (Ha & Hb & Hc & _). rewrite !ParseInt_FormatInt_valid by done. by destruct v.
Qed.

(** ** Properties *)

(** Version precedence is a total preorder, and the order [Compare]
    computes is antisymmetric in its sign: swapping the operands negates it. *)
Theorem Version_Compare_total_preorder u v w :
  Version_Compare v u = - Version_Compare u v ∧
  (Version_Compare u v <= 0 → Version_Compare v w <= 0 → Version_Compare u w <= 0).
Proof. split; [apply cmp_antisym|apply cmp_trans]. Qed.

Lemma Version_Compare_total_preorder_witness :
  Version_Compare (mkVersion 4 1 0 "-rc.2") (mkVersion 4 1 0 "") <= 0.
Proof.
  apply (proj2 (Version_Compare_total_preorder (mkVersion 4 1 0 "-rc.2") (mkVersion 4 1 0 "-rc.10")
                  (mkVersion 4 1 0 ""))); vm_compute; discriminate.
Defined.

(** What [ParseVersion] accepts prints back to a text that parses to the
    same version, so a version survives the round trip through [String]. *)
Theorem ParseVersion_round_trip s v :
  ParseVersion s = inr v → ParseVersion (Version_String v) = inr v.
Proof. intros H%ParseVersion_valid. by apply ParseVersion_String. Qed.

Lemma ParseVersion_round_trip_witness :
  ParseVersion (Version_String (mkVersion 4 1 0 "-rc.1")) = inr (mkVersion 4 1 0 "-rc.1").
Proof. apply (ParseVersion_round_trip "v4.1.0-rc.1 (abc)"). reflexivity. Defined.

(** A range that passes [Validate] only narrows the audited range: every
    version it contains is one the SDK was audited for. *)
Theorem VersionRange_Validate_narrows r v :
  VersionRange_Validate r = None → VersionRange_Contains r v = true →
  VersionRange_Contains AuditedPatroniRange v = true.
Proof.
  unfold VersionRange_Validate, VersionRange_Contains. intros Hr Hv.
  case_match; [done|]. case_match eqn:Ho; [done|]. clear Hr. go_bool.
  apply andb_true_iff. split.
  - apply Z.leb_le. rewrite (cmp_antisym _ v). 
    enough (Version_Compare (rangeMin AuditedPatroniRange) v <= 0) by lia.
    apply (cmp_trans _ (rangeMin r)); rewrite cmp_antisym; lia.
  - apply Z.ltb_lt. apply (cmp_trans_strict compareNumericCore v (rangeMax r)); [done|].
    by apply Version_Compare_core.
Qed.

Lemma VersionRange_Validate_narrows_witness :
  VersionRange_Contains AuditedPatroniRange (mkVersion 4 0 3 "") = true.
Proof.
  apply (VersionRange_Validate_narrows (mkVersionRange (mkVersion 4 0 0 "") (mkVersion 4 1 0 "")));
    reflexivity.
Defined.

(** The audited range is exactly the releases and pre-releases of majors 3
    and 4, less the pre-releases of 3.0.0; a pre-release of 5.0.0 is out. *)
Theorem AuditedPatroniRange_exact v :
  valid_version v →
  VersionRange_Contains AuditedPatroniRange v =
  (3 <=? vMajor v) && (vMajor v <? 5) &&
  negb ((vMajor v =? 3) && (vMinor v =? 0) && (vPatch v =? 0) &&
        (TrimLeft suffix_lead (vSuffix v) !=s "")).
Proof.
  destruct v as [a b c suffix]. unfold valid_version, valid_number. cbn [vMajor vMinor vPatch vSuffix].
  intros (Ha & Hb & Hc & _).
  unfold VersionRange_Contains, AuditedPatroniRange, Version_Compare, compareNumericCore, comparePrerelease.
  cbn [rangeMin rangeMax vMajor vMinor vPatch vSuffix TrimLeft]. cbv zeta.
  unfold cmp_int, cmp_then.
  destruct (TrimLeft suffix_lead suffix ==s ""); cbn;
  destruct (Z.ltb_spec a 3), (Z.ltb_spec 3 a), (Z.leb_spec 3 a), (Z.ltb_spec a 5), (Z.eqb_spec a 3),
    (Z.ltb_spec b 0), (Z.ltb_spec 0 b), (Z.ltb_spec c 0), (Z.ltb_spec 0 c), (Z.eqb_spec b 0),
    (Z.eqb_spec c 0), (Z.ltb_spec 5 a); try lia; reflexivity.
Qed.

Lemma AuditedPatroniRange_exact_witness :
  VersionRange_Contains AuditedPatroniRange (mkVersion 5 0 0 "-rc1") = false.
Proof. rewrite AuditedPatroniRange_exact; [reflexivity|vm_compute; intuition discriminate]. Defined.

(** Features are never withdrawn: a supported version at or above one that
    has a feature has it too. *)
Theorem SupportsFeature_monotone a b u v f :
  ParseVersion a = inr u → ParseVersion b = inr v → Version_Compare u v <= 0 →
  CheckPatroniVersion b = None → SupportsFeature a f = inr true → SupportsFeature b f = inr true.
Proof.
  unfold SupportsFeature. intros -> -> Huv ->. case_match; [done|].
  case_match; [|done]. destruct p as [f' since]. case_match; [done|]. intros [= Hle]. do 2 f_equal.
  go_bool. apply Z.leb_le. rewrite (cmp_antisym _ v).
  enough (Version_Compare v0 v <= 0) by lia.
  apply (cmp_trans _ u); [rewrite cmp_antisym; lia|done].
Qed.

Lemma SupportsFeature_monotone_witness : SupportsFeature "4.2.0" FeatureStandbyClusterCLI = inr true.
Proof.
  apply (SupportsFeature_monotone "4.1.0" "4.2.0" (mkVersion 4 1 0 "") (mkVersion 4 2 0 ""));
    try reflexivity; vm_compute; discriminate.
Defined.
