(* ===== verification/Values.v ===== *)
(** * Dynamic values: [any] as [encoding/json] builds it, and their readers

    A Patroni configuration is a [map[string]any] decoded with [UseNumber].
    [boolConfig], [synchronousMode], [standbyCluster] and [clusterLoopWait] of
    the control package are the only readers of those values that decide what
    an operation does.

    [GoStd] gathers the standard-library functions whose text format the model
    does not spell out.  It has no laws: every theorem holds for any instance. *)

From Stdlib Require Import SpecFloat.
From S2P Require Import Prelude GoStrings GoErrors.

(** ** Values *)

Inductive value :=
| VNull
| VBool (b : bool)
| VNumber (text : string)                 (* json.Number *)
| VFloat (f : spec_float)                 (* float64 *)
| VString (s : string)
| VList (items : list value)
| VMap (fields : list (string * value)).  (* one entry per key *)

Definition config := list (string * value).

(** ** The standard-library functions left open *)

(** A [*url.URL] as [patroniBaseURL] and [postgresAddress] see it. *)
Record URL := mkURL {
  urlScheme : string;
  urlHasUser : bool;
  urlHost : string;
  urlPath : string;
  urlRawPath : string;
  urlRawQuery : string;
  urlFragment : string
}.

Class GoStd := {
  url_Parse : string → option URL;              (* net/url.Parse *)
  URL_String : URL → string;                    (* URL.String *)
  URL_Hostname : URL → string;                  (* URL.Hostname *)
  URL_Port : URL → string;                      (* URL.Port *)
  url_CutQuery : string → option (string * string);  (* url.Parse: String() once RawQuery is empty, and RawQuery *)
  Query_Get : string → string → string;         (* URL.Query().Get, by RawQuery and name *)
  ParseFloat : string → option spec_float;      (* strconv.ParseFloat(_, 64) *)
  ParseDuration : string → option Z;            (* time.ParseDuration, in nanoseconds *)
  Sprint_float : spec_float → string;           (* fmt.Sprint of a float64 *)
  json_float : spec_float → option string;      (* json.Marshal of a float64 *)
  hmac_sha256 : string → string → string;       (* hex text of HMAC-SHA256, by key and message *)
  Sprint_composite : value → string             (* fmt.Sprint of a slice or a map *)
}.

(** ** Access *)

(** [configuration[key]] and [value, exists := configuration[key]]. *)
Definition map_get (m : config) (key : string) : option value :=
  option_map snd (find_first (λ kv, kv.1 ==s key) m).

Definition map_index (m : config) (key : string) : value := deref VNull (map_get m key).

(** [fmt.Sprint(value)].  The text of slices and maps depends on nested
    formatting and is left to [GoStd]. *)
Definition Sprint `{GoStd} (v : value) : string :=
  match v with
  | VNull => "<nil>"
  | VBool b => FormatBool b
  | VNumber text => text
  | VFloat f => Sprint_float f
  | VString s => s
  | VList _ | VMap _ => Sprint_composite v
  end.

(** ** Readers, from [control/read.go] and [control/reload.go] *)

Definition float_one : spec_float := S754_finite false 4503599627370496 (-52).

Definition boolConfig (v : value) : bool :=
  match v with
  | VBool b => b
  | VString s => 
      let t := ToLower (TrimSpace s) in
      (t ==s "1") || (t ==s "true") || (t ==s "yes") || (t ==s "on")
  | VNumber text => text ==s "1"
  | VFloat f => SFeqb f float_one
  | _ => false
  end.

Section with_std.
  Context `{GoStd}.

Definition synchronousMode (configuration : config) : bool :=
  let v := map_index configuration "synchronous_mode" in
  boolConfig v || EqualFold (Sprint v) "quorum".

Definition standbyCluster (configuration : config) : bool :=
  match map_index configuration "standby_cluster" with
  | VMap raw =>
      existsb (λ key, match map_get raw key with
                      | Some v => (TrimSpace (Sprint v) !=s "") && (Sprint v !=s "0")
                      | None => false
                      end)
              ["host"; "port"; "restore_command"]
  | _ => false
  end.

Definition clusterLoopWait (configuration : config) : Z :=
  match map_get configuration "loop_wait" with
  | None => 10
  | Some v => match ParseInt (Sprint v) with
              | Some parsed => if (0 <? parsed)%Z then parsed else 10
              | None => 10
              end
  end.

(** ** Addresses *)

(** [patroniBaseURL] *)
Definition patroniBaseURL (apiURL : string) : option string :=
  match url_Parse (TrimSpace apiURL) with
  | None => None
  | Some parsed =>
      if (urlHost parsed ==s "") || urlHasUser parsed
         || ((urlScheme parsed !=s "http") && (urlScheme parsed !=s "https")) then None
      else if (urlRawQuery parsed !=s "") || (urlFragment parsed !=s "") then None
      else
        let path := TrimSuffix (TrimRight slash (urlPath parsed)) "/patroni" in
        Some (TrimRight slash
          (URL_String (mkURL (urlScheme parsed) (urlHasUser parsed) (urlHost parsed) path ""
                             (urlRawQuery parsed) (urlFragment parsed))))
  end.

(** [postgresAddress]: host and port, zero values on error. *)
Definition postgresAddress (connectionURL : string) : string * Z * option goerror :=
  let bad message := ("", 0%Z, Some (EText message)) in
  match url_Parse (TrimSpace connectionURL) with
  | None => bad "invalid PostgreSQL connection URL"
  | Some parsed =>
      if (urlHost parsed ==s "") || (URL_Hostname parsed ==s "") then bad "invalid PostgreSQL connection URL"
      else if (urlScheme parsed !=s "postgres") && (urlScheme parsed !=s "postgresql")
      then bad "unsupported PostgreSQL connection URL scheme"
      else if URL_Port parsed ==s "" then (URL_Hostname parsed, 5432%Z, None)
      else match parse_digits (URL_Port parsed) with
           | Some port => if (0 <? port)%N && (port <? 65536)%N
                          then (URL_Hostname parsed, Z.of_N port, None) else bad "invalid PostgreSQL connection URL port"
           | None => bad "invalid PostgreSQL connection URL port"
           end
  end.

(** [validateRestartTimeout] of [control/restart.go]: whether the text is
    accepted. *)
Definition positive_float (f : spec_float) : bool := SFltb (S754_zero false) f.

Fixpoint replace_min (l : list ascii) : list ascii :=
  match l with
  | "m"%char :: "i"%char :: "n"%char :: r => "m"%char :: replace_min r
  | c :: r => c :: replace_min r
  | [] => []
  end.

Definition remove_spaces (s : string) : string :=
  String.string_of_list_ascii (List.filter (λ c, negb (Ascii.eqb c " ")) (String.list_ascii_of_string s)).

Definition validateRestartTimeout (v : string) : bool :=
  let trimmed := TrimSpace v in
  match ParseFloat trimmed with
  | Some seconds => positive_float seconds
  | None =>
      let compact := String.string_of_list_ascii
                       (replace_min (String.list_ascii_of_string (remove_spaces trimmed))) in
      (HasSuffix compact "d" &&
       match ParseFloat (TrimSuffix compact "d") with Some days => positive_float days | None => false end)
      || match ParseDuration compact with Some d => (0 <? d)%Z | None => false end
  end.

(** ** LSN arithmetic of [control/read.go] *)

Fixpoint hex_digits (fuel : nat) (n : N) (acc : string) : string :=
  match fuel with
  | O => acc
  | S fuel => let acc := String (hex_digit (n mod 16)) acc in
              if (n <? 16)%N then acc else hex_digits fuel (n / 16) acc
  end.

(** [%X] of an unsigned 64-bit value: sixteen digits are enough. *)
Definition format_hex (n : N) : string := hex_digits 16 n "".

End with_std.

(** [fmt.Sprintf("%X/%X", uint64(value)>>32, uint64(value)&0xffffffff)] *)
Definition uint64 (z : Z) : Z := z mod 2 ^ 64.

Definition formatLSN (v : Z) : string :=
  format_hex (Z.to_N (Z.shiftr (uint64 v) 32)) +:+ "/" +:+ format_hex (Z.to_N (Z.land (uint64 v) (Z.ones 32))).

(** [int64] subtraction wraps. *)
Definition int64_wrap (z : Z) : Z := (z + 2 ^ 63) mod 2 ^ 64 - 2 ^ 63.

Definition nonnegativeLag (cluster member : Z) : Z :=
  if (cluster <=? member)%Z then 0 else int64_wrap (cluster - member).
