(* ===== verification/Json.v ===== *)
(** * JSON text: the part of [encoding/json] the module uses

    [Marshal] writes a value as [json.Marshal] does: object keys of a map in
    byte order, HTML-sensitive bytes escaped, malformed UTF-8 replaced by
    U+FFFD.  [parse_json] reads a document as [json.Decoder] with [UseNumber]
    does and keeps the pairs of an object as they were written; [as_any] is
    the map a repeated key leaves behind (the last one wins).

    The lemmas show that a string of valid UTF-8, and a list of such strings,
    reads back as it was written, which is what a plan that carries a key
    inventory in a precondition relies on. *)

From S2P Require Import Prelude GoStrings Values.

(** ** UTF-8, [unicode/utf8.DecodeRune] *)

Definition cont (c : ascii) : bool := byte_le 128 c 191.

Definition three_lead (a b : ascii) : bool :=
  (Ascii.eqb a (byte 224) && byte_le 160 b 191) ||
  (Ascii.eqb a (byte 237) && byte_le 128 b 159) ||
  ((byte_le 225 a 236 || byte_le 238 a 239) && cont b).

Definition four_lead (a b : ascii) : bool :=
  (Ascii.eqb a (byte 240) && byte_le 144 b 191) ||
  (Ascii.eqb a (byte 244) && byte_le 128 b 143) ||
  (byte_le 241 a 243 && cont b).

(** The width of the rune at the head, 0 when it is malformed. *)
Definition utf8_len (l : list ascii) : nat :=
  match l with
  | [] => 0
  | a :: l1 =>
      if byte_le 0 a 127 then 1 else
      match l1 with
      | [] => 0
      | b :: l2 =>
          if byte_le 194 a 223 && cont b then 2 else
          match l2 with
          | [] => 0
          | c :: l3 =>
              if three_lead a b && cont c then 3 else
              match l3 with
              | [] => 0
              | d :: _ => if four_lead a b && cont c && cont d then 4 else 0
              end
          end
      end
  end%nat.

(** The bytes of each rune; [None] for a malformed byte. *)
Fixpoint runes (fuel : nat) (l : list ascii) : list (option (list ascii)) :=
  match fuel, l with
  | S fuel, _ :: l1 =>
      match utf8_len l with
      | O => None :: runes fuel l1
      | n => Some (take n l) :: runes fuel (drop n l)
      end
  | _, _ => []
  end.

Definition string_runes (s : string) : list (option (list ascii)) :=
  let l := String.list_ascii_of_string s in runes (length l) l.

Definition valid_utf8 (s : string) : bool := forallb (λ r, negb (is_nil r)) (string_runes s).

(** [utf8.AppendRune] *)
Definition encode_rune (r : N) : list ascii :=
  let b n := ascii_of_N n in
  let tail n := b (128 + n mod 64)%N in
  (if r <? 128 then [b r]
   else if r <? 2048 then [b (192 + r / 64); tail r]
   else if r <? 65536 then [b (224 + r / 4096); tail (r / 64); tail r]
   else [b (240 + r / 262144); tail (r / 4096); tail (r / 64); tail r])%N.

Definition replacement : list ascii := [byte 239; byte 191; byte 189].

(** ** Writing strings *)

Definition dquote : ascii := byte 34.
Definition backslash : ascii := byte 92.

Definition hex_lower (n : N) : ascii := if (n <? 10)%N then digit n else ascii_of_N (87 + n).

Definition escape_u (c : ascii) : list ascii :=
  [backslash; "u"%char; "0"%char; "0"%char; hex_lower (N_of_ascii c / 16); hex_lower (N_of_ascii c mod 16)].

(** One ASCII byte, with [SetEscapeHTML] on. *)
Definition escape_byte (c : ascii) : list ascii :=
  if Ascii.eqb c dquote || Ascii.eqb c backslash then [backslash; c]
  else match nat_of_ascii c with
  | 8 => [backslash; "b"%char]
  | 9 => [backslash; "t"%char]
  | 10 => [backslash; "n"%char]
  | 12 => [backslash; "f"%char]
  | 13 => [backslash; "r"%char]
  | _ => if byte_le 0 c 31 || Ascii.eqb c "<" || Ascii.eqb c ">" || Ascii.eqb c "&" then escape_u c else [c]
  end%nat.

(** U+2028 and U+2029. *)
Definition line_separator (l : list ascii) : option ascii :=
  match l with
  | [a; b; c] =>
      if Ascii.eqb a (byte 226) && Ascii.eqb b (byte 128) then
        if Ascii.eqb c (byte 168) then Some "8"%char else if Ascii.eqb c (byte 169) then Some "9"%char else None
      else None
  | _ => None
  end.

Definition quote_rune (r : option (list ascii)) : list ascii :=
  match r with
  | None => [backslash; "u"%char; "f"%char; "f"%char; "f"%char; "d"%char]
  | Some [c] => escape_byte c
  | Some l => match line_separator l with
              | Some d => [backslash; "u"%char; "2"%char; "0"%char; "2"%char; d]
              | None => l
              end
  end.

Definition quote_bytes (s : string) : list ascii := mjoin (quote_rune <$> string_runes s).

Definition json_quote (s : string) : string :=
  String dquote (String.string_of_list_ascii (quote_bytes s) +:+ String dquote "").

(** ** Numbers *)

Fixpoint take_while (p : ascii → bool) (l : list ascii) : list ascii * list ascii :=
  match l with
  | c :: r => if p c then let '(t, rest) := take_while p r in (c :: t, rest) else ([], l)
  | [] => ([], [])
  end.

Definition scan_int (l : list ascii) : option (list ascii * list ascii) :=
  match l with
  | "0"%char :: r => Some (["0"%char], r)
  | c :: _ => if byte_le 49 c 57 then Some (take_while is_digit l) else None
  | [] => None
  end.

Definition scan_digits (l : list ascii) : option (list ascii * list ascii) :=
  match take_while is_digit l with ([], _) => None | t => Some t end.

Definition scan_frac (l : list ascii) : option (list ascii * list ascii) :=
  match l with
  | "."%char :: r => '(t, rest) ← scan_digits r; Some ("."%char :: t, rest)
  | _ => Some ([], l)
  end.

Definition scan_exp (l : list ascii) : option (list ascii * list ascii) :=
  match l with
  | c :: r =>
      if Ascii.eqb c "e" || Ascii.eqb c "E" then
        match r with
        | s :: r' => if Ascii.eqb s "+" || Ascii.eqb s "-"
                     then '(t, rest) ← scan_digits r'; Some (c :: s :: t, rest)
                     else '(t, rest) ← scan_digits r; Some (c :: t, rest)
        | [] => None
        end
      else Some ([], l)
  | [] => Some ([], l)
  end.

(** The number at the head: its text and what follows. *)
Definition scan_number (l : list ascii) : option (list ascii * list ascii) :=
  let '(sign, l) := match l with "-"%char :: r => (["-"%char], r) | _ => ([], l) end in
  '(int, l) ← scan_int l; '(frac, l) ← scan_frac l; '(exp, l) ← scan_exp l;
  Some (sign ++ int ++ frac ++ exp, l).

(** [isValidNumber] *)
Definition isValidNumber (s : string) : bool :=
  match scan_number (String.list_ascii_of_string s) with Some (_, []) => true | _ => false end.

(** ** [json.Marshal] *)

Definition json_object (pairs : list (string * string)) : string :=
  "{" +:+ Join ((λ kv, json_quote kv.1 +:+ ":" +:+ kv.2) <$> pairs) "," +:+ "}".

Definition json_array (items : list string) : string := "[" +:+ Join items "," +:+ "]".

Section with_std.
  Context `{GoStd}.

Fixpoint Marshal (v : value) : option string :=
  match v with
  | VNull => Some "null"
  | VBool b => Some (FormatBool b)
  | VNumber text => if text ==s "" then Some "0" else if isValidNumber text then Some text else None
  | VFloat f => json_float f
  | VString s => Some (json_quote s)
  | VList items => option_map json_array (mapM Marshal items)
  | VMap fields =>
      option_map (λ pairs, json_object (sort_by fst pairs))
        (mapM (λ kv, option_map (pair kv.1) (Marshal kv.2)) fields)
  end.

(** A Go struct: its fields in the order of the declaration. *)
Definition Marshal_struct (fields : list (string * value)) : option string :=
  option_map json_object (mapM (λ kv, option_map (pair kv.1) (Marshal kv.2)) fields).

End with_std.

(** A [[]string]; it always has a text. *)
Definition Marshal_strings (l : list string) : string := json_array (json_quote <$> l).

(** ** Reading *)

Definition is_space (c : ascii) : bool :=
  Ascii.eqb c " " || Ascii.eqb c (byte 9) || Ascii.eqb c (byte 10) || Ascii.eqb c (byte 13).

Fixpoint skip_space (l : list ascii) : list ascii :=
  match l with c :: r => if is_space c then skip_space r else l | [] => [] end.

Definition hex_nibble (c : ascii) : option N :=
  if is_digit c then Some (digit_value c)
  else if byte_le 97 c 102 then Some (N_of_ascii c - 87)%N
  else if byte_le 65 c 70 then Some (N_of_ascii c - 55)%N
  else None.

(** [getu4], after the backslash and the [u]. *)
Definition read_u4 (l : list ascii) : option (N * list ascii) :=
  match l with
  | a :: b :: c :: d :: rest =>
      a ← hex_nibble a; b ← hex_nibble b; c ← hex_nibble c; d ← hex_nibble d;
      Some (a * 4096 + b * 256 + c * 16 + d, rest)%N
  | _ => None
  end.

Definition high_surrogate (n : N) : bool := (55296 <=? n)%N && (n <? 56320)%N.
Definition low_surrogate (n : N) : bool := (56320 <=? n)%N && (n <? 57344)%N.

(** A [\u] escape: its bytes and what follows; a surrogate needs its pair. *)
Definition read_unicode (l : list ascii) : option (list ascii * list ascii) :=
  '(r, rest) ← read_u4 l;
  if high_surrogate r then
    match rest with
    | x :: y :: rest1 =>
        if Ascii.eqb x backslash && Ascii.eqb y "u" then
          match read_u4 rest1 with
          | Some (r2, rest2) =>
              if low_surrogate r2
              then Some (encode_rune (65536 + (r - 55296) * 1024 + (r2 - 56320))%N, rest2)
              else Some (replacement, rest)
          | None => Some (replacement, rest)
          end
        else Some (replacement, rest)
    | _ => Some (replacement, rest)
    end
  else if low_surrogate r then Some (replacement, rest)
  else Some (encode_rune r, rest).

(** The escape after a backslash. *)
Definition read_escape (l : list ascii) : option (list ascii * list ascii) :=
  match l with
  | c :: rest =>
      if Ascii.eqb c dquote || Ascii.eqb c backslash || Ascii.eqb c "/" then Some ([c], rest)
      else if Ascii.eqb c "b" then Some ([byte 8], rest)
      else if Ascii.eqb c "f" then Some ([byte 12], rest)
      else if Ascii.eqb c "n" then Some ([byte 10], rest)
      else if Ascii.eqb c "r" then Some ([byte 13], rest)
      else if Ascii.eqb c "t" then Some ([byte 9], rest)
      else if Ascii.eqb c "u" then read_unicode rest
      else None
  | [] => None
  end.

(** One character of a string: its bytes and what follows. *)
Definition read_char (l : list ascii) : option (list ascii * list ascii) :=
  match l with
  | [] => None
  | c :: rest =>
      if Ascii.eqb c backslash then read_escape rest
      else if byte_le 0 c 31 then None
      else match utf8_len l with
           | O => Some (replacement, rest)
           | n => Some (take n l, drop n l)
           end
  end.

(** The characters up to the closing quote. *)
Fixpoint read_chars (fuel : nat) (l : list ascii) : option (list ascii * list ascii) :=
  match fuel, l with
  | S fuel, c :: rest =>
      if Ascii.eqb c dquote then Some ([], rest)
      else '(s, l) ← read_char l; '(t, l) ← read_chars fuel l; Some (s ++ t, l)
  | _, _ => None
  end.

Definition read_string (l : list ascii) : option (string * list ascii) :=
  match l with
  | c :: rest =>
      if Ascii.eqb c dquote
      then '(s, l) ← read_chars (length rest) rest; Some (String.string_of_list_ascii s, l)
      else None
  | [] => None
  end.

Definition expect (text : string) (v : value) (l : list ascii) : option (value * list ascii) :=
  let t := String.list_ascii_of_string text in
  if bool_decide (take (length t) l = t) then Some (v, drop (length t) l) else None.

Definition max_depth : N := 10000.

(** A value; [fuel] bounds the number of bytes read and [depth] the nesting. *)
Fixpoint read_value (fuel : nat) (depth : N) (l : list ascii) : option (value * list ascii) :=
  match fuel with
  | O => None
  | S fuel =>
      match skip_space l with
      | [] => None
      | c :: rest =>
          if Ascii.eqb c dquote then '(s, l) ← read_string (c :: rest); Some (VString s, l)
          else if Ascii.eqb c "n" then expect "null" VNull (c :: rest)
          else if Ascii.eqb c "t" then expect "true" (VBool true) (c :: rest)
          else if Ascii.eqb c "f" then expect "false" (VBool false) (c :: rest)
          else if Ascii.eqb c "[" then
            if (max_depth <=? depth)%N then None
            else match skip_space rest with
                 | x :: l =>
                     if Ascii.eqb x "]" then Some (VList [], l)
                     else '(items, l) ← read_items fuel (depth + 1)%N (x :: l); Some (VList items, l)
                 | [] => None
                 end
          else if Ascii.eqb c "{" then
            if (max_depth <=? depth)%N then None
            else match skip_space rest with
                 | x :: l =>
                     if Ascii.eqb x "}" then Some (VMap [], l)
                     else '(fields, l) ← read_fields fuel (depth + 1)%N (x :: l); Some (VMap fields, l)
                 | [] => None
                 end
          else '(t, l) ← scan_number (c :: rest); Some (VNumber (String.string_of_list_ascii t), l)
      end
  end
with read_items (fuel : nat) (depth : N) (l : list ascii) : option (list value * list ascii) :=
  match fuel with
  | O => None
  | S fuel =>
      '(v, l) ← read_value fuel depth l;
      match skip_space l with
      | ","%char :: l => '(vs, l) ← read_items fuel depth l; Some (v :: vs, l)
      | "]"%char :: l => Some ([v], l)
      | _ => None
      end
  end
with read_fields (fuel : nat) (depth : N) (l : list ascii) : option (list (string * value) * list ascii) :=
  match fuel with
  | O => None
  | S fuel =>
      '(k, l) ← read_string (skip_space l);
      match skip_space l with
      | ":"%char :: l =>
          '(v, l) ← read_value fuel depth l;
          match skip_space l with
          | ","%char :: l => '(vs, l) ← read_fields fuel depth l; Some ((k, v) :: vs, l)
          | "}"%char :: l => Some ([(k, v)], l)
          | _ => None
          end
      | _ => None
      end
  end.

(** A whole document: one value and white space. *)
Definition parse_json (s : string) : option value :=
  let l := String.list_ascii_of_string s in
  '(v, rest) ← read_value (S (2 * length l)) 0 l;
  match skip_space rest with [] => Some v | _ => None end.

(** [configuration[key] = value] *)
Fixpoint map_set {A} (m : list (string * A)) (key : string) (v : A) : list (string * A) :=
  match m with
  | [] => [(key, v)]
  | (k, w) :: m => if k ==s key then (k, v) :: m else (k, w) :: map_set m key v
  end.

Fixpoint as_any (v : value) : value :=
  match v with
  | VList items => VList (as_any <$> items)
  | VMap fields => VMap (foldl (λ m kv, map_set m kv.1 kv.2) [] ((λ kv, (kv.1, as_any kv.2)) <$> fields))
  | v => v
  end.

(** [json.Unmarshal] into a field of a struct: every pair whose key names the
    field, in any case, is stored in turn; [read] is given the value the field
    has and fails on a kind of JSON value the field does not take. *)
Fixpoint unmarshal_field {A} (read : A → value → option A) (name : string) (acc : A) (fields : config)
    : option A :=
  match fields with
  | [] => Some acc
  | (key, v) :: rest =>
      if EqualFold key name then acc ← read acc v; unmarshal_field read name acc rest
      else unmarshal_field read name acc rest
  end.

(** A string field: [null] leaves it unchanged. *)
Definition read_string_field (acc : string) (v : value) : option string :=
  match v with VString s => Some s | VNull => Some acc | _ => None end.

(** An element of a JSON array read as a Go string: [null] leaves it empty. *)
Definition as_string (v : value) : option string :=
  match v with VString s => Some s | VNull => Some "" | _ => None end.

(** [json.Unmarshal] into a [[]string]. *)
Definition Unmarshal_strings (s : string) : option (list string) :=
  v ← parse_json s;
  match v with
  | VNull => Some []
  | VList items => mapM as_string items
  | _ => None
  end.

(** ** Lemmas: runes *)

Definition good_rune (ch : list ascii) : Prop := ch ≠ [] ∧ utf8_len ch = length ch.

Lemma utf8_len_bound l : (utf8_len l ≤ length l)%nat.
Proof. destruct l as [|a [|b [|c [|d l]]]]; cbn; repeat case_match; cbn; lia. Qed.

Lemma utf8_len_take l n : utf8_len l = n → utf8_len (take n l) = n.
Proof.
  intros <-. destruct l as [|a [|b [|c [|d l]]]]; [done|..]; cbn;
    repeat (case_match; cbn in *; simplify_eq; try done).
Qed.

Lemma utf8_len_app ch rest : good_rune ch → utf8_len (ch ++ rest) = length ch.
Proof.
  intros [Hne H]. destruct ch as [|a [|b [|c [|d [|e ch]]]]]; [done|..];
    cbn in *; repeat (case_match; cbn in *; simplify_eq; try done).
Qed.

Lemma runes_good fuel l :
  (length l ≤ fuel)%nat → forallb (λ r, negb (is_nil r)) (runes fuel l) = true →
  ∃ chs, runes fuel l = Some <$> chs ∧ mjoin chs = l ∧ Forall good_rune chs.
Proof.
  revert l. induction fuel as [|fuel IH]; intros [|a l]; cbn [length]; intros Hl; try lia;
    [by exists []|by exists []|].
  cbn [runes]. destruct (utf8_len (a :: l)) as [|n] eqn:E; [by cbn|].
  cbn [forallb is_nil negb andb]. intros Hv. pose proof (utf8_len_bound (a :: l)) as Hb. rewrite E in Hb.
  destruct (IH (drop (S n) (a :: l))) as (chs & -> & Hj & Hg); [rewrite length_drop; cbn in *; lia|done|].
  exists (take (S n) (a :: l) :: chs). split; [done|]. split.
  - cbn [mjoin]. change (take (S n) (a :: l) ++ mjoin chs = a :: l). rewrite Hj. apply take_drop.
  - constructor; [|done]. split; [done|]. rewrite (utf8_len_take _ _ E), length_take. lia.
Qed.

(** ** Lemmas: strings *)

Lemma read_escaped_byte c rest :
  byte_le 0 c 127 = true → read_char (escape_byte c ++ rest) = Some ([c], rest).
Proof. destruct c as [[] [] [] [] [] [] [] []]; intros H; try discriminate H; reflexivity. Qed.

Lemma read_quoted_rune ch rest : good_rune ch → read_char (quote_rune (Some ch) ++ rest) = Some (ch, rest).
Proof.
  intros Hg. destruct ch as [|a [|b ch]]; [by destruct Hg|..].
  - cbn [quote_rune]. apply read_escaped_byte. destruct Hg as [_ H]. cbn [utf8_len] in H. by destruct (byte_le 0 a 127).
  - cbn [quote_rune]. destruct (line_separator _) as [x|] eqn:E.
    + destruct ch as [|c [|d ch]]; cbn [line_separator] in E; try done.
      destruct (Ascii.eqb_spec a (byte 226)) as [->|], (Ascii.eqb_spec b (byte 128)) as [->|]; cbn [andb] in E; try done.
      destruct (Ascii.eqb_spec c (byte 168)) as [->|]; [by simplify_eq|].
      destruct (Ascii.eqb_spec c (byte 169)) as [->|]; by simplify_eq.
    + pose proof (utf8_len_app _ rest Hg) as Hl.
      unfold read_char. cbn [app] in *. 
      assert (byte_le 0 a 127 = false) as Ha.
      { destruct Hg as [_ Hg]. cbn [utf8_len] in Hg. by destruct (byte_le 0 a 127). }
      replace (Ascii.eqb a backslash) with false by (destruct a as [[] [] [] [] [] [] [] []]; done).
      replace (byte_le 0 a 31) with false by (destruct a as [[] [] [] [] [] [] [] []]; done).
      rewrite Hl. cbn [length take drop]. by rewrite take_app_length, drop_app_length.
Qed.

Lemma quoted_rune_head ch : good_rune ch → ∃ c t, quote_rune (Some ch) = c :: t ∧ Ascii.eqb c dquote = false.
Proof.
  intros Hg. destruct ch as [|a [|b ch]]; [by destruct Hg|..]; cbn [quote_rune].
  - unfold escape_byte. destruct (Ascii.eqb a dquote) eqn:E; cbn [orb]; [by eexists _, _|].
    repeat case_match; by eexists _, _.
  - destruct (line_separator _); [by eexists _, _|]. eexists _, _. split; [done|].
    destruct Hg as [_ Hg]. cbn [utf8_len] in Hg. destruct (byte_le 0 a 127) eqn:Ha; [done|].
    by destruct a as [[] [] [] [] [] [] [] []].
Qed.

Lemma read_quoted_chars chs rest fuel :
  Forall good_rune chs → (length chs < fuel)%nat →
  read_chars fuel (mjoin (quote_rune ∘ Some <$> chs) ++ dquote :: rest) = Some (mjoin chs, rest).
Proof.
  revert fuel. induction chs as [|ch chs IH]; intros [|fuel] Hg Hf; cbn [length] in Hf; try lia; [done|].
  apply Forall_cons in Hg as [Hg Hgs].
  change (mjoin (quote_rune ∘ Some <$> ch :: chs))
    with (quote_rune (Some ch) ++ mjoin (quote_rune ∘ Some <$> chs)).
  set (tail := mjoin (quote_rune ∘ Some <$> chs)) in *.
  destruct (quoted_rune_head _ Hg) as (c & t & E & Hc).
  pose proof (read_quoted_rune ch (tail ++ dquote :: rest) Hg) as Hr.
  rewrite <- app_assoc, E in *. change ((c :: t) ++ tail ++ dquote :: rest) with (c :: (t ++ tail ++ dquote :: rest)) in *.
  cbn [read_chars]. rewrite Hc, Hr. cbn [mbind option_bind].
  subst tail. rewrite IH by (done || lia). done.
Qed.

Lemma length_quoted chs :
  Forall good_rune chs → (length chs ≤ length (mjoin (quote_rune ∘ Some <$> chs)))%nat.
Proof.
  induction 1 as [|ch chs Hg _ IH]; [done|].
  change (mjoin (quote_rune ∘ Some <$> ch :: chs))
    with (quote_rune (Some ch) ++ mjoin (quote_rune ∘ Some <$> chs)).
  rewrite length_app. destruct (quoted_rune_head _ Hg) as (c & t & -> & _). cbn [length]. lia.
Qed.

Definition quoted_bytes (s : string) : list ascii := dquote :: quote_bytes s ++ [dquote].

Lemma json_quote_bytes s : String.list_ascii_of_string (json_quote s) = quoted_bytes s.
Proof.
  unfold json_quote, quoted_bytes. cbn [String.list_ascii_of_string]. f_equal.
  by rewrite bytes_app, String.list_ascii_of_string_of_list_ascii.
Qed.

(** A string of valid UTF-8 reads back as it was written. *)
Lemma read_json_quote s rest : valid_utf8 s = true → read_string (quoted_bytes s ++ rest) = Some (s, rest).
Proof.
  unfold valid_utf8, string_runes. intros Hv. apply runes_good in Hv as (chs & E & Hj & Hg); [|done].
  unfold quoted_bytes, read_string, quote_bytes, string_runes. rewrite E, <- list_fmap_compose.
  cbn [app]. rewrite Ascii.eqb_refl, <- app_assoc.
  rewrite (read_quoted_chars chs rest) by
    (done || (rewrite length_app; cbn; pose proof (length_quoted _ Hg); lia)).
  cbn. by rewrite Hj, String.string_of_list_ascii_of_string.
Qed.

(** ** Lemmas: lists of strings *)

Definition items_bytes (l : list string) : list ascii := String.list_ascii_of_string (Join (json_quote <$> l) ",").

Lemma items_bytes_cons s t l :
  items_bytes (s :: t :: l) = quoted_bytes s ++ ","%char :: items_bytes (t :: l).
Proof. unfold items_bytes. cbn [fmap list_fmap]. by rewrite Join_cons, !bytes_app, json_quote_bytes. Qed.

Lemma items_bytes_singleton s : items_bytes [s] = quoted_bytes s.
Proof. unfold items_bytes. cbn [fmap list_fmap]. unfold Join. cbn [String.concat]. apply json_quote_bytes. Qed.

Lemma skip_space_quoted s rest : skip_space (quoted_bytes s ++ rest) = quoted_bytes s ++ rest.
Proof. done. Qed.

Lemma read_value_quoted fuel depth s rest :
  valid_utf8 s = true → (0 < fuel)%nat →
  read_value fuel depth (quoted_bytes s ++ rest) = Some (VString s, rest).
Proof.
  intros Hv Hf. destruct fuel as [|fuel]; [lia|]. cbn [read_value]. rewrite skip_space_quoted.
  pose proof (read_json_quote s rest Hv) as Hr.
  unfold quoted_bytes in *. cbn [app] in *. rewrite Ascii.eqb_refl, Hr. done.
Qed.

Lemma read_quoted_items fuel depth s l rest :
  Forall (λ s, valid_utf8 s = true) (s :: l) → (S (length l) < fuel)%nat →
  read_items fuel depth (items_bytes (s :: l) ++ "]"%char :: rest) = Some (VString <$> s :: l, rest).
Proof.
  revert fuel s. induction l as [|t l IH]; intros [|fuel] s Hv Hf; cbn [length] in Hf; try lia;
    apply Forall_cons in Hv as [Hs Hl]; cbn [read_items].
  - rewrite items_bytes_singleton, read_value_quoted by (done || lia). done.
  - rewrite items_bytes_cons, <- app_assoc, read_value_quoted by (done || lia). cbn [mbind option_bind app].
    change (skip_space (","%char :: items_bytes (t :: l) ++ "]"%char :: rest))
      with (","%char :: items_bytes (t :: l) ++ "]"%char :: rest). cbv iota beta.
    rewrite IH by (done || lia). done.
Qed.

Lemma items_bytes_head s l : ∃ t, items_bytes (s :: l) = dquote :: t.
Proof.
  destruct l as [|t l]; [rewrite items_bytes_singleton|rewrite items_bytes_cons]; by eexists.
Qed.

Lemma length_items_bytes s l : (S (length l) ≤ length (items_bytes (s :: l)))%nat.
Proof.
  revert s. induction l as [|t l IH]; intros s.
  - rewrite items_bytes_singleton. cbn. lia.
  - rewrite items_bytes_cons, length_app. specialize (IH t). cbn [length] in *. lia.
Qed.

Lemma read_quoted_array fuel s l rest :
  Forall (λ s, valid_utf8 s = true) (s :: l) → (S (length l) < fuel)%nat →
  read_value (S fuel) 0 ("["%char :: items_bytes (s :: l) ++ "]"%char :: rest) = Some (VList (VString <$> s :: l), rest).
Proof.
  intros Hv Hf. pose proof (read_quoted_items fuel 1 s l rest Hv Hf) as Hr.
  destruct (items_bytes_head s l) as [t E]. rewrite E in *. cbn [app] in *.
  remember (t ++ "]"%char :: rest) as body. cbn [read_value].
  change (skip_space ("["%char :: dquote :: body)) with ("["%char :: dquote :: body).
  cbv iota beta. change (skip_space (dquote :: body)) with (dquote :: body).
  change (Ascii.eqb dquote "]") with false. change (0 + 1)%N with 1%N. cbv iota beta. rewrite Hr. done.
Qed.

Lemma mapM_as_string l : mapM as_string (VString <$> l) = Some l.
Proof. induction l as [|s l IH]; [done|]. cbn. by rewrite IH. Qed.

(** A list of strings of valid UTF-8 reads back as it was written. *)
Lemma Unmarshal_Marshal_strings l :
  Forall (λ s, valid_utf8 s = true) l → Unmarshal_strings (Marshal_strings l) = Some l.
Proof.
  intros Hv. unfold Unmarshal_strings, parse_json, Marshal_strings, json_array.
  assert (String.list_ascii_of_string ("[" +:+ Join (json_quote <$> l) "," +:+ "]")
            = "["%char :: items_bytes l ++ ["]"%char]) as -> by by rewrite !bytes_app.
  destruct l as [|s l]; [done|]. pose proof (length_items_bytes s l) as Hlen.
  rewrite (read_quoted_array _ s l []) by (done || (cbn [length]; rewrite length_app; cbn [length]; lia)).
  cbn [mbind option_bind skip_space]. apply mapM_as_string.
Qed.
