(* ===== verification/JsonLaws.v ===== *)
(** * JSON laws: the round trip and the typing of what is read

    What [json.Marshal] writes, [json.Decoder] with [UseNumber] reads back:
    every value a decoder can build has a text, and the text reads as the same
    value with its keys in order.  A dynamic configuration that one client
    writes to etcd is the one the next client decodes. *)

From S2P Require Import Prelude GoStrings Values Json.

(** ** Values with a text *)

(** A decoded value: valid UTF-8, one entry per key, numbers as JSON writes
    them, no [float64]. *)
Fixpoint wire (v : value) : Prop :=
  match v with
  | VNull | VBool _ => True
  | VNumber text => isValidNumber text = true
  | VFloat _ => False
  | VString s => valid_utf8 s = true
  | VList items => foldr (λ v P, wire v ∧ P) True items
  | VMap fields =>
      NoDup (fst <$> fields) ∧ foldr (λ kv P, (valid_utf8 kv.1 = true ∧ wire kv.2) ∧ P) True fields
  end.

(** How deep arrays and objects nest. *)
Fixpoint nesting (v : value) : N :=
  match v with
  | VList items => 1 + foldr (λ v n, N.max (nesting v) n) 0 items
  | VMap fields => 1 + foldr (λ kv n, N.max (nesting kv.2) n) 0 fields
  | _ => 0
  end%N.

(** The keys of every object in the order [json.Marshal] writes them. *)
Fixpoint in_key_order (v : value) : value :=
  match v with
  | VList items => VList (in_key_order <$> items)
  | VMap fields => VMap (sort_by fst ((λ kv, (kv.1, in_key_order kv.2)) <$> fields))
  | v => v
  end.

Lemma value_induction (P : value → Prop) :
  P VNull → (∀ b, P (VBool b)) → (∀ t, P (VNumber t)) → (∀ f, P (VFloat f)) → (∀ s, P (VString s)) →
  (∀ items, Forall P items → P (VList items)) →
  (∀ fields, Forall (λ kv : string * value, P kv.2) fields → P (VMap fields)) → ∀ v, P v.
Proof.
  intros Hnull Hbool Hnum Hfloat Hstr Hlist Hmap. fix IH 1. intros [|b|t|f|s|items|fields]; [done..|by auto|by auto|by auto|by auto| |].
  - apply Hlist. induction items as [|v items IHitems]; constructor; [apply IH|exact IHitems].
  - apply Hmap. induction fields as [|[k v] fields IHfields]; constructor; [apply IH|exact IHfields].
Qed.

Lemma foldr_and_Forall {A} (P : A → Prop) l : foldr (λ x Q, P x ∧ Q) True l ↔ Forall P l.
Proof. induction l as [|x l IH]; cbn; [by split; [constructor|]|]. by rewrite Forall_cons, IH. Qed.

Lemma foldr_max_Forall {A} (f : A → N) l n : (foldr (λ x m, N.max (f x) m) 0 l ≤ n)%N → Forall (λ x, (f x ≤ n)%N) l.
Proof. induction l as [|x l IH]; cbn; constructor; [lia|apply IH; lia]. Qed.

(** ** What may follow a value *)

Definition delimiter (c : ascii) : bool := Ascii.eqb c "," || Ascii.eqb c "]" || Ascii.eqb c "}".

Definition delimited (l : list ascii) : Prop := match l with [] => True | c :: _ => delimiter c = true end.

(** ** Numbers *)

Lemma take_while_app p l rest t l' :
  delimited rest → (∀ c, delimiter c = true → p c = false) →
  take_while p l = (t, l') → take_while p (l ++ rest) = (t, l' ++ rest).
Proof.
  intros Hrest Hp. revert t l'. induction l as [|c l IH]; intros t l'.
  - cbn. intros [= <- <-]. destruct rest as [|d rest]; [done|]. cbn in *. by rewrite Hp.
  - cbn. destruct (p c); [|by intros [= <- <-]]. destruct (take_while p l) as [t0 l0].
    intros [= <- <-]. by rewrite (IH _ _ eq_refl).
Qed.

Lemma take_while_split p l t l' : take_while p l = (t, l') → l = t ++ l'.
Proof.
  revert t l'. induction l as [|c l IH]; cbn; intros t l'; [by intros [= <- <-]|].
  destruct (p c); [|by intros [= <- <-]]. destruct (take_while p l) as [t0 l0]. intros [= <- <-].
  cbn. by rewrite (IH _ _ eq_refl) at 1.
Qed.

Lemma delimiter_spec c :
  delimiter c = true → is_digit c = false ∧ c ≠ "0"%char ∧ byte_le 49 c 57 = false ∧ c ≠ "."%char ∧
  Ascii.eqb c "e" = false ∧ Ascii.eqb c "E" = false ∧ c ≠ "-"%char.
Proof. unfold delimiter. intros H. destruct c as [[] [] [] [] [] [] [] []]; try done; repeat split; done. Qed.

(** A scanner that reads the same prefix whatever delimiter follows it. *)
Definition prefix_scanner (scan : list ascii → option (list ascii * list ascii)) : Prop :=
  ∀ l t l', scan l = Some (t, l') → l = t ++ l' ∧ ∀ rest, delimited rest → scan (l ++ rest) = Some (t, l' ++ rest).

Lemma digits_app l rest t l' :
  delimited rest → take_while is_digit l = (t, l') → take_while is_digit (l ++ rest) = (t, l' ++ rest).
Proof. intros Hr. apply take_while_app; [done|]. intros c Hc. by apply delimiter_spec in Hc as [? _]. Qed.

Lemma scan_digits_prefix : prefix_scanner scan_digits.
Proof.
  intros l t l' H. unfold scan_digits in *. destruct (take_while is_digit l) as [t0 l0] eqn:E.
  assert (t0 = t ∧ l0 = l') as [-> ->] by (destruct t0; [discriminate H|by injection H as -> ->]). split; [by apply take_while_split in E|].
  intros rest Hr. rewrite (digits_app _ _ _ _ Hr E). by destruct t.
Qed.

Lemma scan_int_prefix : prefix_scanner scan_int.
Proof.
  intros [|c l] t l' H; [done|]. destruct (decide (c = "0"%char)) as [->|Hc].
  { cbn in *. by simplify_eq. }
  assert (∀ l, scan_int (c :: l) = if byte_le 49 c 57 then Some (take_while is_digit (c :: l)) else None) as E
    by (intros; destruct c as [[] [] [] [] [] [] [] []]; done).
  rewrite E in H. destruct (byte_le 49 c 57) eqn:Hb; [|done]. injection H as H.
  split; [exact (take_while_split is_digit (c :: l) t l' H)|]. intros rest Hr.
  change ((c :: l) ++ rest) with (c :: (l ++ rest)).
  rewrite E. f_equal.
  exact (digits_app (c :: l) rest t l' Hr H).
Qed.

Lemma scan_frac_other l : (∀ r, l ≠ "."%char :: r) → scan_frac l = Some ([], l).
Proof. destruct l as [|c l]; [done|]. intros H. destruct c as [[] [] [] [] [] [] [] []]; try done. by destruct (H l). Qed.

Lemma scan_frac_prefix : prefix_scanner scan_frac.
Proof.
  intros l t l' H. destruct l as [|c l].
  - cbn in H. simplify_eq/=. split; [done|]. intros [|c rest] Hr; [done|]. apply scan_frac_other.
    intros r [= -> ->]. by apply delimiter_spec in Hr as (_ & _ & _ & ? & _).
  - destruct (decide (c = "."%char)) as [->|Hc].
    + cbn in *. destruct (scan_digits l) as [[t0 l0]|] eqn:E; [|done]. cbn in H. simplify_eq.
      apply scan_digits_prefix in E as [-> Hs]. split; [done|]. intros rest Hr. cbn. by rewrite Hs.
    + rewrite scan_frac_other in H by congruence. simplify_eq. split; [done|]. intros rest Hr.
      apply scan_frac_other. cbn. congruence.
Qed.

Lemma scan_exp_prefix : prefix_scanner scan_exp.
Proof.
  intros l t l' H. destruct l as [|c l].
  - cbn in H. simplify_eq/=. split; [done|]. intros [|c rest] Hr; [done|]. cbn [app scan_exp] in *.
    apply delimiter_spec in Hr as (_ & _ & _ & _ & He & HE & _). by rewrite He, HE.
  - cbn in H |- *. destruct (Ascii.eqb c "e" || Ascii.eqb c "E") eqn:Ec; [|by simplify_eq].
    destruct l as [|s l]; [done|].
    destruct (Ascii.eqb s "+" || Ascii.eqb s "-") eqn:Es.
    + destruct (scan_digits l) as [[t0 l0]|] eqn:E; [|done]. cbn in H. simplify_eq.
      apply scan_digits_prefix in E as [-> Hs]. split; [done|]. intros rest Hr. cbn. by rewrite Es, Hs.
    + destruct (scan_digits (s :: l)) as [[t0 l0]|] eqn:E; [|done]. cbn in H. simplify_eq.
      apply scan_digits_prefix in E as [Heq Hs]. split; [cbn; by f_equal|]. intros rest Hr. cbn.
      rewrite Es. change (s :: l ++ rest) with ((s :: l) ++ rest). by rewrite Hs.
Qed.

Lemma bind_prefix f g :
  prefix_scanner f → prefix_scanner g →
  prefix_scanner (λ l, '(t, l) ← f l; '(u, l) ← g l; Some (t ++ u, l)).
Proof.
  intros Hf Hg l t l' H. destruct (f l) as [[t0 l0]|] eqn:E; [|done]. cbn in H.
  destruct (g l0) as [[u l1]|] eqn:E'; [|done]. cbn in H. simplify_eq.
  apply Hf in E as [-> Ef]. apply Hg in E' as [-> Eg]. split; [by rewrite app_assoc|].
  intros rest Hr. rewrite Ef by done. cbn. by rewrite Eg.
Qed.

Definition scan_unsigned (l : list ascii) : option (list ascii * list ascii) :=
  '(int, l) ← scan_int l; '(t, l) ← ('(frac, l) ← scan_frac l; '(exp, l) ← scan_exp l; Some (frac ++ exp, l));
  Some (int ++ t, l).

Lemma scan_number_unsigned sign l :
  ('(int, l) ← scan_int l; '(frac, l) ← scan_frac l; '(exp, l) ← scan_exp l; Some (sign ++ int ++ frac ++ exp, l))
  = ('(t, l) ← scan_unsigned l; Some (sign ++ t, l)).
Proof.
  unfold scan_unsigned. destruct (scan_int l) as [[t l1]|]; [|done]. cbn.
  destruct (scan_frac l1) as [[u l2]|]; [|done]. cbn. by destruct (scan_exp l2) as [[w l3]|].
Qed.

Lemma scan_unsigned_prefix : prefix_scanner scan_unsigned.
Proof.
  apply bind_prefix; [apply scan_int_prefix|]. apply bind_prefix; [apply scan_frac_prefix|apply scan_exp_prefix].
Qed.

Lemma scan_number_other c l :
  c ≠ "-"%char → scan_number (c :: l) = ('(t, l) ← scan_unsigned (c :: l); Some (t, l)).
Proof. intros Hc. rewrite <- (scan_number_unsigned []). destruct c as [[] [] [] [] [] [] [] []]; done. Qed.

Lemma scan_number_prefix : prefix_scanner scan_number.
Proof.
  intros [|c l] t l' H; [done|]. destruct (decide (c = "-"%char)) as [->|Hc].
  - change (scan_number ("-"%char :: l)) with
      ('(int, l) ← scan_int l; '(frac, l) ← scan_frac l; '(exp, l) ← scan_exp l;
       Some (["-"%char] ++ int ++ frac ++ exp, l)) in H.
    rewrite scan_number_unsigned in H. destruct (scan_unsigned l) as [[t0 l0]|] eqn:E; [|done]. cbn in H. simplify_eq.
    apply scan_unsigned_prefix in E as [-> Hs]. split; [done|]. intros rest Hr.
    change (scan_number (("-"%char :: t0 ++ l') ++ rest)) with
      ('(int, l) ← scan_int ((t0 ++ l') ++ rest); '(frac, l) ← scan_frac l; '(exp, l) ← scan_exp l;
       Some (["-"%char] ++ int ++ frac ++ exp, l)).
    by rewrite scan_number_unsigned, Hs.
  - rewrite scan_number_other in H by done. destruct (scan_unsigned (c :: l)) as [[t0 l0]|] eqn:E; [|done]. cbn in H.
    simplify_eq. apply scan_unsigned_prefix in E as [Heq Hs]. split; [done|]. intros rest Hr.
    change ((c :: l) ++ rest) with (c :: (l ++ rest)). rewrite scan_number_other by done.
    change (c :: l ++ rest) with ((c :: l) ++ rest). by rewrite Hs.
Qed.

Lemma valid_number_scan text rest :
  isValidNumber text = true → delimited rest →
  scan_number (String.list_ascii_of_string text ++ rest) = Some (String.list_ascii_of_string text, rest).
Proof.
  unfold isValidNumber. destruct (scan_number _) as [[t [|c l]]|] eqn:E; try done. intros _ Hr.
  apply scan_number_prefix in E as [Heq Hs]. rewrite Hs by done. by rewrite Heq, app_nil_r.
Qed.

(** The first byte of a number selects the number branch of the reader. *)
Definition plain_head (c : ascii) : Prop :=
  is_space c = false ∧ Ascii.eqb c dquote = false ∧ Ascii.eqb c "n" = false ∧ Ascii.eqb c "t" = false ∧
  Ascii.eqb c "f" = false ∧ Ascii.eqb c "[" = false ∧ Ascii.eqb c "{" = false.

Lemma number_head c l t : scan_number (c :: l) = Some t → plain_head c.
Proof.
  destruct (decide (c = "-"%char)) as [->|Hc]; [done|].
  rewrite scan_number_other by done. unfold scan_unsigned, scan_int.
  intros H. assert (c = "0"%char ∨ byte_le 49 c 57 = true) as [->|Hb]; [|done|].
  - destruct c as [[] [] [] [] [] [] [] []]; try (by left); try (by right); discriminate H.
  - destruct c as [[] [] [] [] [] [] [] []]; done.
Qed.

(** ** The text of a value, as bytes *)

Section with_std.
Context `{GoStd}.

Definition text (v : value) : string := deref "" (Marshal v).
Definition text_bytes (v : value) : list ascii := String.list_ascii_of_string (text v).

Definition pair_text (kv : string * value) : string * string := (kv.1, text kv.2).

Lemma text_spec v t : Marshal v = Some t → Marshal v = Some (text v).
Proof. unfold text. by intros ->. Qed.

Lemma mapM_Marshal items :
  Forall (λ v, Marshal v = Some (text v)) items → mapM Marshal items = Some (text <$> items).
Proof. induction 1 as [|v items Hv _ IH]; [done|]. cbn. by rewrite Hv, IH. Qed.

Lemma mapM_pairs fields :
  Forall (λ kv, Marshal kv.2 = Some (text kv.2)) fields →
  mapM (λ kv, option_map (pair kv.1) (Marshal kv.2)) fields = Some (pair_text <$> fields).
Proof. induction 1 as [|[k v] fields Hv _ IH]; [done|]. cbn in *. by rewrite Hv, IH. Qed.

Lemma wire_Marshal v : wire v → Marshal v = Some (text v).
Proof.
  induction v as [| | t| | |items IH|fields IH] using value_induction; intros Hw; try done.
  - cbn in Hw. apply (text_spec _ t). cbn [Marshal]. rewrite Hw. destruct (String.eqb_spec t "") as [->|]; [done|done].
  - apply (foldr_and_Forall wire) in Hw. eapply text_spec. cbn [Marshal]. rewrite mapM_Marshal; [done|].
    eapply Forall_impl; [exact (proj2 (Forall_and _ _) (conj IH Hw))|]. naive_solver.
  - destruct Hw as [_ Hw]. apply (foldr_and_Forall (λ kv, valid_utf8 kv.1 = true ∧ wire kv.2)) in Hw.
    eapply text_spec. cbn [Marshal]. rewrite mapM_pairs; [done|].
    eapply Forall_impl; [exact (proj2 (Forall_and _ _) (conj IH Hw))|]. naive_solver.
Qed.

(** ** Reading *)

(** [l] is the text of [v] for the reader. *)
Definition reads (l : list ascii) (n : N) (v : value) : Prop :=
  (∃ c l', l = c :: l' ∧ is_space c = false ∧ c ≠ "]"%char) ∧
  ∀ fuel depth rest, (length l ≤ fuel)%nat → (depth + n ≤ max_depth)%N → delimited rest →
    read_value fuel depth (l ++ rest) = Some (v, rest).

Lemma join_bytes x y l :
  String.list_ascii_of_string (Join (x :: y :: l) ",") =
  String.list_ascii_of_string x ++ ","%char :: String.list_ascii_of_string (Join (y :: l) ",").
Proof. by rewrite Join_cons, !bytes_app. Qed.

Lemma skip_space_stays c l : is_space c = false → skip_space (c :: l) = c :: l.
Proof. cbn. by intros ->. Qed.

Lemma read_items_texts (n : N) (items : list (string * value)) fuel depth rest :
  items ≠ [] → Forall (λ tv, reads (String.list_ascii_of_string tv.1) n tv.2) items →
  (length (String.list_ascii_of_string (Join (fst <$> items) ",")) < fuel)%nat → (depth + n ≤ max_depth)%N →
  read_items fuel depth (String.list_ascii_of_string (Join (fst <$> items) ",") ++ "]"%char :: rest)
    = Some (snd <$> items, rest).
Proof.
  intros Hne Hall. revert fuel. induction Hall as [|[t v] items [_ Hv] Hall IH]; intros fuel Hf Hd; [done|].
  destruct fuel as [|fuel]; [lia|]. cbn [fst snd] in Hv. destruct items as [|[t' v'] items].
  - cbn [fmap list_fmap fst] in *. unfold Join in *. cbn [String.concat read_items] in *.
    rewrite Hv by (done || lia). done.
  - cbn [fmap list_fmap fst snd] in *. rewrite join_bytes in *. rewrite length_app in Hf. cbn [length] in Hf.
    rewrite <- app_assoc. cbn [read_items]. rewrite Hv by (done || lia). cbn [mbind option_bind].
    change ((","%char :: ?a) ++ ?b) with (","%char :: (a ++ b)).
    cbn [app]. rewrite skip_space_stays by done. cbv iota beta.
    rewrite IH by (done || lia). done.
Qed.

Definition field_text (kt : string * string) : string := json_quote kt.1 +:+ ":" +:+ kt.2.

Lemma field_bytes k t :
  String.list_ascii_of_string (field_text (k, t)) = quoted_bytes k ++ ":"%char :: String.list_ascii_of_string t.
Proof. unfold field_text. cbn [fst snd]. by rewrite !bytes_app, json_quote_bytes. Qed.

Lemma read_field fuel depth k t (v : value) n rest :
  valid_utf8 k = true → reads (String.list_ascii_of_string t) n v →
  (length (String.list_ascii_of_string (field_text (k, t))) ≤ fuel)%nat → (depth + n ≤ max_depth)%N → delimited rest →
  ('(k, l) ← read_string (skip_space (String.list_ascii_of_string (field_text (k, t)) ++ rest));
   match skip_space l with
   | ":"%char :: l => '(v, l) ← read_value fuel depth l; Some (k, v, l)
   | _ => None
   end) = Some (k, v, rest).
Proof.
  intros Hk [_ Hv] Hf Hd Hr. rewrite field_bytes in *. rewrite length_app in Hf. cbn [length] in Hf.
  rewrite <- app_assoc, skip_space_quoted, read_json_quote by done. cbn [mbind option_bind app].
  rewrite skip_space_stays by done. cbv iota beta. rewrite Hv by (done || lia). done.
Qed.

(** [read_fields], one field at a time. *)
Lemma read_fields_step fuel depth l :
  read_fields (S fuel) depth l =
  ('(k, v, l) ← ('(k, l) ← read_string (skip_space l);
                 match skip_space l with
                 | ":"%char :: l => '(v, l) ← read_value fuel depth l; Some (k, v, l)
                 | _ => None
                 end);
   match skip_space l with
   | ","%char :: l => '(vs, l) ← read_fields fuel depth l; Some ((k, v) :: vs, l)
   | "}"%char :: l => Some ([(k, v)], l)
   | _ => None
   end).
Proof.
  cbn [read_fields]. destruct (read_string (skip_space l)) as [[k l1]|]; [|done]. cbn [mbind option_bind].
  destruct (skip_space l1) as [|c l2]; [done|].
  destruct (decide (c = ":"%char)) as [->|Hc]; [by destruct (read_value fuel depth l2) as [[v l3]|]|].
  destruct c as [[] [] [] [] [] [] [] []]; done.
Qed.

Lemma read_fields_texts (n : N) (fields : list (string * (string * value))) fuel depth rest :
  let texts := (λ ktv, field_text (ktv.1, ktv.2.1)) <$> fields in
  fields ≠ [] →
  Forall (λ ktv, valid_utf8 ktv.1 = true ∧ reads (String.list_ascii_of_string ktv.2.1) n ktv.2.2) fields →
  (length (String.list_ascii_of_string (Join texts ",")) < fuel)%nat → (depth + n ≤ max_depth)%N →
  read_fields fuel depth (String.list_ascii_of_string (Join texts ",") ++ "}"%char :: rest)
    = Some ((λ ktv, (ktv.1, ktv.2.2)) <$> fields, rest).
Proof.
  cbv zeta. intros Hne Hall. revert fuel. induction Hall as [|[k [t v]] fields [Hk Hv] Hall IH]; intros fuel Hf Hd; [done|].
  destruct fuel as [|fuel]; [lia|]. cbn [fst snd] in Hk, Hv. rewrite read_fields_step.
  destruct fields as [|[k' [t' v']] fields].
  - cbn [fmap list_fmap fst snd] in *. unfold Join in *. cbn [String.concat] in *.
    rewrite (read_field fuel depth k t v n) by (done || lia). cbn [mbind option_bind].
    rewrite skip_space_stays by done. done.
  - cbn [fmap list_fmap fst snd] in *. rewrite join_bytes in *. rewrite length_app in Hf. cbn [length] in Hf.
    rewrite <- app_assoc. cbn [app]. rewrite (read_field fuel depth k t v n) by (done || lia).
    cbn [mbind option_bind]. rewrite skip_space_stays by done. cbv iota beta.
    rewrite IH by (done || lia). done.
Qed.

Lemma reads_weaken l n m v : (n ≤ m)%N → reads l n v → reads l m v.
Proof. intros Hnm [Hhead Hr]. split; [done|]. intros. apply Hr; [done|lia|done]. Qed.

(** ** The round trip *)

Lemma reads_array (n : N) items :
  Forall (λ tv, reads (String.list_ascii_of_string tv.1) n tv.2) items →
  reads (String.list_ascii_of_string (json_array (fst <$> items))) (1 + n) (VList (snd <$> items)).
Proof.
  intros Hall. unfold json_array. rewrite !bytes_app. split; [by do 2 eexists|].
  intros fuel depth rest Hf Hd Hr. rewrite !length_app in Hf. cbn [String.list_ascii_of_string length app] in *.
  destruct fuel as [|fuel]; [lia|]. cbn [read_value]. rewrite skip_space_stays by done. cbv iota.
  change (Ascii.eqb "[" dquote) with false. change (Ascii.eqb "[" "n") with false. change (Ascii.eqb "[" "t") with false.
  change (Ascii.eqb "[" "f") with false. change (Ascii.eqb "[" "[") with true. cbv iota.
  destruct (N.leb_spec max_depth depth); [lia|].
  destruct items as [|[t v] items]; [done|].
  rewrite <- app_assoc. cbn [app].
  pose proof (read_items_texts n ((t, v) :: items) fuel (depth + 1) rest) as Hread.
  assert (∃ c l', String.list_ascii_of_string (Join (fst <$> (t, v) :: items) ",") = c :: l'
                  ∧ is_space c = false ∧ c ≠ "]"%char) as (c & l' & E & Hc & Hc').
  { apply Forall_cons in Hall as [[(c & l' & E & ? & ?) _] _]. cbn in E.
    destruct items as [|[t' v'] items]; cbn [fmap list_fmap fst]; [by exists c, l'|].
    rewrite join_bytes, E. by do 2 eexists. }
  rewrite E in *. cbn [app] in *. rewrite skip_space_stays by done. cbv iota beta.
  destruct (Ascii.eqb_spec c "]"); [done|]. rewrite Hread by (done || lia). done.
Qed.

Lemma reads_object (n : N) (fields : list (string * (string * value))) :
  Forall (λ ktv, valid_utf8 ktv.1 = true ∧ reads (String.list_ascii_of_string ktv.2.1) n ktv.2.2) fields →
  reads (String.list_ascii_of_string (json_object ((λ ktv, (ktv.1, ktv.2.1)) <$> fields))) (1 + n)
    (VMap ((λ ktv, (ktv.1, ktv.2.2)) <$> fields)).
Proof.
  intros Hall. unfold json_object. rewrite <- list_fmap_compose.
  change ((λ kv : string * string, json_quote kv.1 +:+ ":" +:+ kv.2) ∘ λ ktv : string * (string * value), (ktv.1, ktv.2.1))
    with (λ ktv : string * (string * value), field_text (ktv.1, ktv.2.1)).
  rewrite !bytes_app. split; [by do 2 eexists|].
  intros fuel depth rest Hf Hd Hr. rewrite !length_app in Hf. cbn [String.list_ascii_of_string length app] in *.
  destruct fuel as [|fuel]; [lia|]. cbn [read_value]. rewrite skip_space_stays by done. cbv iota.
  change (Ascii.eqb "{" dquote) with false. change (Ascii.eqb "{" "n") with false. change (Ascii.eqb "{" "t") with false.
  change (Ascii.eqb "{" "f") with false. change (Ascii.eqb "{" "[") with false. change (Ascii.eqb "{" "{") with true.
  cbv iota. destruct (N.leb_spec max_depth depth); [lia|].
  destruct fields as [|[k [t v]] fields]; [done|].
  rewrite <- app_assoc. cbn [app].
  pose proof (read_fields_texts n ((k, (t, v)) :: fields) fuel (depth + 1) rest) as Hread. cbv zeta in Hread.
  assert (∃ l', String.list_ascii_of_string
                  (Join ((λ ktv, field_text (ktv.1, ktv.2.1)) <$> (k, (t, v)) :: fields) ",") = dquote :: l') as (l' & E).
  { destruct fields as [|[k' [t' v']] fields]; cbn [fmap list_fmap fst snd];
      [unfold Join; cbn [String.concat]|rewrite join_bytes]; rewrite field_bytes; by eexists. }
  rewrite E in *. cbn [app] in *. rewrite skip_space_stays by done. cbv iota beta.
  change (Ascii.eqb dquote "}") with false. cbv iota. rewrite Hread by (done || lia). done.
Qed.
Lemma text_list items :
  Forall (λ v, Marshal v = Some (text v)) items → text (VList items) = json_array (text <$> items).
Proof. intros Hall. unfold text at 1. cbn [Marshal]. by rewrite mapM_Marshal. Qed.

Lemma text_map fields :
  Forall (λ kv, Marshal kv.2 = Some (text kv.2)) fields →
  text (VMap fields) = json_object (sort_by fst (pair_text <$> fields)).
Proof. intros Hall. unfold text at 1. cbn [Marshal]. by rewrite mapM_pairs. Qed.

Lemma reads_scalar c l v :
  is_space c = false → c ≠ "]"%char →
  (∀ fuel depth rest, delimited rest → read_value (S fuel) depth (c :: l ++ rest) = Some (v, rest)) →
  reads (c :: l) 0 v.
Proof.
  intros Hc Hc' Hr. split; [by exists c, l|]. intros [|fuel] depth rest Hf _ Hrest; [cbn in Hf; lia|]. by apply Hr.
Qed.

Lemma wire_reads v : wire v → reads (text_bytes v) (nesting v) (in_key_order v).
Proof.
  induction v as [|b|t| |s|items IH|fields IH] using value_induction; intros Hw.
  - by apply reads_scalar.
  - destruct b; by apply reads_scalar.
  - assert (text (VNumber t) = t) as Ht.
    { unfold text. cbn [Marshal]. cbn in Hw. rewrite Hw. by destruct (String.eqb_spec t "") as [->|]. }
    unfold text_bytes. rewrite Ht. cbn in Hw. pose proof (λ rest, valid_number_scan t rest Hw) as Hscan.
    destruct (String.list_ascii_of_string t) as [|c l] eqn:E; [by specialize (Hscan [] I)|].
    destruct (number_head c l (c :: l, [])) as (Hs & H1 & H2 & H3 & H4 & H5 & H6);
      [by rewrite <- (Hscan [] I), app_nil_r|].
    apply reads_scalar; [done|by intros ->; specialize (Hscan [] I)|].
    intros fuel depth rest Hr. cbn [read_value]. rewrite skip_space_stays by done.
    rewrite H1, H2, H3, H4, H5, H6. specialize (Hscan rest Hr). cbn [app] in Hscan. rewrite Hscan.
    cbn [mbind option_bind]. rewrite <- E, String.string_of_list_ascii_of_string. done.
  - done.
  - unfold text_bytes, text. cbn [Marshal deref]. rewrite json_quote_bytes. apply reads_scalar; [done..|].
    intros fuel depth rest _. apply (read_value_quoted (S fuel)); [done|lia].
  - apply (foldr_and_Forall wire) in Hw.
    assert (Forall (λ v, wire v ∧ reads (text_bytes v) (nesting v) (in_key_order v)) items) as Hall
      by (eapply Forall_impl; [exact (proj2 (Forall_and _ _) (conj IH Hw))|]; naive_solver).
    unfold text_bytes. rewrite text_list by (eapply Forall_impl; [exact Hw|]; intros; by apply wire_Marshal).
    set (n := foldr (λ v n, N.max (nesting v) n) 0%N items).
    pose proof (reads_array n ((λ v, (text v, in_key_order v)) <$> items)) as Hr.
    rewrite <- !list_fmap_compose in Hr. apply Hr. apply Forall_fmap.
    assert (Forall (λ v, (nesting v ≤ n)%N) items) as Hn by by apply foldr_max_Forall.
    eapply Forall_impl; [exact (proj2 (Forall_and _ _) (conj Hall Hn))|]. intros v [[_ Hv] ?]. by eapply reads_weaken.
  - destruct Hw as [Hnd Hw]. apply (foldr_and_Forall (λ kv, valid_utf8 kv.1 = true ∧ wire kv.2)) in Hw.
    assert (Forall (λ kv, valid_utf8 kv.1 = true ∧ reads (text_bytes kv.2) (nesting kv.2) (in_key_order kv.2)) fields) as Hall
      by (eapply Forall_impl; [exact (proj2 (Forall_and _ _) (conj IH Hw))|]; naive_solver).
    unfold text_bytes. rewrite text_map by (eapply Forall_impl; [exact Hw|]; intros kv [_ ?]; by apply wire_Marshal).
    set (n := foldr (λ kv n, N.max (nesting kv.2) n) 0%N fields).
    cbn [in_key_order]. rewrite !(sort_by_fmap fst fst) by done.
    pose proof (reads_object n ((λ kv, (kv.1, (text kv.2, in_key_order kv.2))) <$> sort_by fst fields)) as Hr.
    rewrite <- !list_fmap_compose in Hr. apply Hr. apply Forall_fmap.
    assert (Forall (λ kv, (nesting kv.2 ≤ n)%N) fields) as Hn by by apply foldr_max_Forall.
    rewrite sort_by_perm.
    eapply Forall_impl; [exact (proj2 (Forall_and _ _) (conj Hall Hn))|]. intros kv [[? Hv] ?].
    split; [done|]. by eapply reads_weaken.
Qed.

Lemma parse_text v : wire v → (nesting v ≤ max_depth)%N → parse_json (text v) = Some (in_key_order v).
Proof.
  intros Hw Hn. unfold parse_json. destruct (wire_reads v Hw) as [_ Hr].
  specialize (Hr (S (2 * length (text_bytes v))) 0%N []). rewrite app_nil_r in Hr. fold (text_bytes v).
  rewrite Hr by (done || lia). done.
Qed.

End with_std.

(** * Typing of decoded JSON

    Whatever [json.Decoder] accepts is a well-formed value: its strings and
    keys are valid UTF-8 (malformed bytes and lone surrogates are replaced),
    its numbers are JSON numbers, no map has a key twice and nothing nests
    deeper than the decoder's limit.  Such a value always has a text, so a
    configuration read from etcd can always be written back. *)

(** ** Runes *)

Definition rune_bytes (l : list ascii) : Prop := ∃ chs, l = mjoin chs ∧ Forall good_rune chs.

Lemma rune_bytes_one ch : good_rune ch → rune_bytes ch.
Proof. intros. exists [ch]. split; [cbn; by rewrite app_nil_r|by constructor]. Qed.

Lemma rune_bytes_app l k : rune_bytes l → rune_bytes k → rune_bytes (l ++ k).
Proof.
  intros (chs & -> & ?) (chs' & -> & ?). exists (chs ++ chs'). split; [|by apply Forall_app].
  induction chs as [|ch chs IH]; [done|]. cbn. rewrite <- app_assoc. f_equal. apply IH. by inversion H.
Qed.

Lemma runes_mjoin fuel chs :
  Forall good_rune chs → (length (mjoin chs) ≤ fuel)%nat → runes fuel (mjoin chs) = Some <$> chs.
Proof.
  intros Hall. revert fuel. induction Hall as [|ch chs Hg Hall IH]; intros fuel Hf; [by destruct fuel|].
  change (mjoin (ch :: chs)) with (ch ++ mjoin chs) in *. pose proof (utf8_len_app ch (mjoin chs) Hg) as Hlen.
  destruct Hg as [Hne Hself]. rewrite length_app in Hf.
  destruct ch as [|a ch]; [done|]. cbn [length app] in *. destruct fuel as [|fuel]; [lia|].
  cbn [runes]. rewrite Hlen.
  change (a :: ch ++ mjoin chs) with ((a :: ch) ++ mjoin chs).
  rewrite (take_app_length' (a :: ch)), (drop_app_length' (a :: ch)) by done.
  rewrite IH by lia. done.
Qed.

Lemma rune_bytes_valid l : rune_bytes l → valid_utf8 (String.string_of_list_ascii l) = true.
Proof.
  intros (chs & -> & Hall). unfold valid_utf8, string_runes. rewrite String.list_ascii_of_string_of_list_ascii.
  rewrite runes_mjoin by done. by induction Hall.
Qed.

(** ** Encoded runes *)

Lemma byte_le_N lo hi n :
  (n < 256)%N → byte_le lo (ascii_of_N n) hi = ((N.of_nat lo <=? n) && (n <=? N.of_nat hi))%N.
Proof.
  intros Hn. unfold byte_le, nat_of_ascii. rewrite N_ascii_embedding by done.
  f_equal; apply eq_bool_prop_intro; rewrite !Is_true_true, Nat.leb_le, N.leb_le; lia.
Qed.

Lemma eqb_byte_N n m : (n < 256)%N → (m < 256)%nat → Ascii.eqb (ascii_of_N n) (byte m) = (n =? N.of_nat m)%N.
Proof.
  intros Hn Hm. destruct (Ascii.eqb_spec (ascii_of_N n) (byte m)) as [E|E]; symmetry;
    [apply N.eqb_eq|apply N.eqb_neq; intros ->; apply E].
  - apply (f_equal N_of_ascii) in E. rewrite N_ascii_embedding in E by done. rewrite E. unfold byte, ascii_of_nat.
    rewrite N_ascii_embedding; lia.
  - done.
Qed.

Definition scalar (r : N) : Prop := (r < 55296 ∨ 57344 ≤ r < 1114112)%N.

(** Decide the byte tests of [utf8_len] on bytes given as numbers. *)
Ltac decide_bytes :=
  repeat first [rewrite byte_le_N by lia | rewrite eqb_byte_N by lia];
  repeat match goal with |- context [N.of_nat ?k] =>
    let v := eval vm_compute in (N.of_nat k) in change (N.of_nat k) with v end;
  repeat match goal with
  | |- context [N.leb ?a ?b] => destruct (N.leb_spec a b); try (exfalso; lia)
  | |- context [N.eqb ?a ?b] => destruct (N.eqb_spec a b); try (exfalso; lia)
  end; cbn; try done; try lia.

(** Quotient and remainder as numbers of their own. *)
Ltac split_division a b :=
  pose proof (N.Div0.div_mod a b); pose proof (N.mod_lt a b ltac:(done));
  let q := fresh "q" in let m := fresh "m" in
  set (q := (a / b)%N) in *; set (m := (a mod b)%N) in *; clearbody q m.

Lemma tail_bits r : (r mod 64 < 64)%N.
Proof. by apply N.mod_lt. Qed.

Lemma two_byte_bits r : (128 ≤ r)%N → (r < 2048)%N → (2 ≤ r / 64 < 32)%N.
Proof. intros. split_division r 64%N. lia. Qed.

Lemma three_byte_bits r :
  (2048 ≤ r)%N → (r < 65536)%N → scalar r →
  let x := (r / 4096)%N in let y := (r / 64 mod 64)%N in
  (x < 16 ∧ y < 64 ∧ (x = 0 → 32 ≤ y) ∧ (x = 13 → y < 32))%N.
Proof.
  cbv zeta. unfold scalar. intros. assert (r / 4096 = r / 64 / 64)%N as -> by (by rewrite N.Div0.div_div).
  split_division r 64%N. split_division q 64%N. lia.
Qed.

Lemma four_byte_bits r :
  (65536 ≤ r)%N → scalar r →
  let x := (r / 262144)%N in let y := (r / 4096 mod 64)%N in
  (x < 5 ∧ y < 64 ∧ (x = 0 → 16 ≤ y) ∧ (x = 4 → y < 16))%N.
Proof.
  cbv zeta. unfold scalar. intros. assert (r / 262144 = r / 4096 / 64)%N as -> by (by rewrite N.Div0.div_div).
  split_division r 4096%N. split_division q 64%N. lia.
Qed.

Lemma encode_rune_good r : scalar r → good_rune (encode_rune r).
Proof.
  intros Hr. unfold encode_rune. cbv zeta. pose proof (tail_bits r) as Ht.
  destruct (N.ltb_spec r 128); [split; [done|]; cbn [utf8_len length]; decide_bytes|].
  destruct (N.ltb_spec r 2048).
  { pose proof (two_byte_bits r ltac:(done) ltac:(done)) as Hx. revert Ht Hx.
    generalize (r / 64)%N (r mod 64)%N. intros x y ??. split; [done|]. unfold utf8_len, cont. decide_bytes. }
  destruct (N.ltb_spec r 65536).
  { pose proof (three_byte_bits r ltac:(done) ltac:(done) Hr) as Hx. cbv zeta in Hx. revert Ht Hx.
    generalize (r / 4096)%N (r / 64 mod 64)%N (r mod 64)%N. intros x y z ? (? & ? & ? & ?).
    split; [done|]. unfold utf8_len, three_lead, cont. decide_bytes. }
  pose proof (four_byte_bits r ltac:(done) Hr) as Hx. cbv zeta in Hx. revert Ht Hx. pose proof (tail_bits (r / 64)) as Hz.
  revert Hz. generalize (r / 262144)%N (r / 4096 mod 64)%N (r / 64 mod 64)%N (r mod 64)%N.
  intros x y z w ?? (? & ? & ? & ?).
  split; [done|]. unfold utf8_len, three_lead, four_lead, cont. decide_bytes.
Qed.

(** ** Strings *)

Lemma hex_nibble_bound c n : hex_nibble c = Some n → (n < 16)%N.
Proof.
  unfold hex_nibble, digit_value. destruct c as [[] [] [] [] [] [] [] []]; vm_compute; first [discriminate|intros [= <-]; done].
Qed.

Lemma read_u4_bound l n l' : read_u4 l = Some (n, l') → (n < 65536)%N.
Proof.
  destruct l as [|a [|b [|c [|d l]]]]; try done. cbn.
  destruct (hex_nibble a) as [x|] eqn:Ea; [|done]. destruct (hex_nibble b) as [y|] eqn:Eb; [|done].
  destruct (hex_nibble c) as [z|] eqn:Ec; [|done]. destruct (hex_nibble d) as [w|] eqn:Ed; [|done]. cbn.
  intros [= <- <-]. apply hex_nibble_bound in Ea, Eb, Ec, Ed. lia.
Qed.

Lemma replacement_good : good_rune replacement.
Proof. done. Qed.

Lemma read_unicode_good l ch l' : read_unicode l = Some (ch, l') → good_rune ch.
Proof.
  unfold read_unicode. destruct (read_u4 l) as [[r l1]|] eqn:E; [|done]. cbn. apply read_u4_bound in E.
  destruct (high_surrogate r) eqn:Eh.
  - destruct l1 as [|x [|y l2]]; [intros [= <- <-]; apply replacement_good..|].
    destruct (Ascii.eqb x backslash && Ascii.eqb y "u"); [|intros [= <- <-]; apply replacement_good].
    destruct (read_u4 l2) as [[r2 l3]|]; [|intros [= <- <-]; apply replacement_good].
    destruct (low_surrogate r2) eqn:El; [|intros [= <- <-]; apply replacement_good].
    intros [= <- <-]. apply encode_rune_good. unfold high_surrogate, low_surrogate, scalar in *.
    apply andb_true_iff in Eh as [?%N.leb_le ?%N.ltb_lt], El as [?%N.leb_le ?%N.ltb_lt]. lia.
  - destruct (low_surrogate r) eqn:El; intros [= <- <-]; [apply replacement_good|].
    apply encode_rune_good. unfold high_surrogate, low_surrogate, scalar in *.
    apply andb_false_iff in Eh as [?%N.leb_gt|?%N.ltb_ge], El as [?%N.leb_gt|?%N.ltb_ge]; lia.
Qed.

Lemma read_escape_good l ch l' : read_escape l = Some (ch, l') → good_rune ch.
Proof.
  destruct l as [|c l]; [done|]. cbn [read_escape].
  destruct (Ascii.eqb c dquote || Ascii.eqb c backslash || Ascii.eqb c "/") eqn:E.
  { intros [= <- <-]. repeat (apply orb_true_iff in E as [E|E]); apply Ascii.eqb_eq in E as ->; done. }
  clear E. repeat (destruct (Ascii.eqb c _); [first [apply read_unicode_good|by intros [= <- <-]]|]). done.
Qed.

Lemma read_char_good l ch l' : read_char l = Some (ch, l') → good_rune ch.
Proof.
  destruct l as [|c l]; [done|]. cbn [read_char].
  destruct (Ascii.eqb c backslash); [apply read_escape_good|]. destruct (byte_le 0 c 31); [done|].
  destruct (utf8_len (c :: l)) as [|n] eqn:E; intros [= <- <-]; [apply replacement_good|].
  split; [done|]. change (c :: take n l) with (take (S n) (c :: l)). rewrite utf8_len_take by done.
  rewrite length_take. pose proof (utf8_len_bound (c :: l)). lia.
Qed.

Lemma read_chars_runes fuel l s l' : read_chars fuel l = Some (s, l') → rune_bytes s.
Proof.
  revert l s l'. induction fuel as [|fuel IH]; intros l s l'; [by destruct l|]. destruct l as [|c l]; [done|].
  cbn [read_chars]. destruct (Ascii.eqb c dquote); [intros [= <- <-]; by exists []|].
  destruct (read_char (c :: l)) as [[ch l1]|] eqn:Ec; [|done]. cbn.
  destruct (read_chars fuel l1) as [[t l2]|] eqn:Et; [|done]. cbn. intros [= <- <-].
  apply rune_bytes_app; [by eapply rune_bytes_one, read_char_good|by eapply IH].
Qed.

Lemma read_string_valid l s l' : read_string l = Some (s, l') → valid_utf8 s = true.
Proof.
  destruct l as [|c l]; [done|]. cbn [read_string]. destruct (Ascii.eqb c dquote); [|done].
  destruct (read_chars (length l) l) as [[t l1]|] eqn:E; [|done]. cbn. intros [= <- <-].
  by eapply rune_bytes_valid, read_chars_runes.
Qed.

(** ** Numbers *)

(** What a scanner read, it reads again from its own text, whatever part of
    the rest follows. *)
Definition cut_scanner (scan : list ascii → option (list ascii * list ascii)) : Prop :=
  ∀ l t l', scan l = Some (t, l') → ∀ k, k `prefix_of` l' → scan (t ++ k) = Some (t, k).

Lemma take_while_cut p l t l' k :
  take_while p l = (t, l') → k `prefix_of` l' → take_while p (t ++ k) = (t, k).
Proof.
  revert t l'. induction l as [|c l IH]; cbn; intros t l'.
  - intros [= <- <-] ->%prefix_nil_inv. done.
  - destruct (p c) eqn:Ep.
    + destruct (take_while p l) as [t0 l0]. intros [= <- <-] Hk. cbn. rewrite Ep. by rewrite (IH _ _ eq_refl).
    + intros [= <- <-] Hk. destruct k as [|d k]; [done|]. apply prefix_cons_inv_1 in Hk as ->. cbn. by rewrite Ep.
Qed.

Lemma scan_digits_cut : cut_scanner scan_digits.
Proof.
  intros l t l' H k Hk. unfold scan_digits in *. destruct (take_while is_digit l) as [t0 l0] eqn:E.
  assert (t0 = t ∧ l0 = l') as [-> ->] by (destruct t0; [discriminate H|by injection H as -> ->]).
  rewrite (take_while_cut _ _ _ _ _ E Hk). by destruct t.
Qed.

Lemma scan_int_other c l :
  c ≠ "0"%char → scan_int (c :: l) = if byte_le 49 c 57 then Some (take_while is_digit (c :: l)) else None.
Proof. intros Hc. destruct c as [[] [] [] [] [] [] [] []]; done. Qed.

Lemma scan_int_nonempty l t l' : scan_int l = Some (t, l') → t ≠ [].
Proof.
  destruct l as [|c l]; [done|]. destruct (decide (c = "0"%char)) as [->|Hc]; [by intros [= <- <-]|].
  rewrite scan_int_other by done. destruct (byte_le 49 c 57) eqn:Hb; [|done]. cbn.
  destruct (is_digit c) eqn:Hd; [by destruct (take_while is_digit l); intros [= <- <-]|].
  destruct c as [[] [] [] [] [] [] [] []]; done.
Qed.

Lemma scan_int_cut : cut_scanner scan_int.
Proof.
  intros [|c l] t l' H k Hk; [done|]. destruct (decide (c = "0"%char)) as [->|Hc].
  { injection H as <- <-. done. }
  rewrite scan_int_other in H by done. destruct (byte_le 49 c 57) eqn:Hb; [|done]. injection H as H.
  pose proof (take_while_split is_digit (c :: l) t l' H) as Hsplit.
  destruct t as [|d t]; [by destruct (scan_int_nonempty (c :: l) [] l'); [rewrite scan_int_other by done; rewrite Hb; f_equal|]|].
  injection Hsplit as <- _. cbn [app]. rewrite scan_int_other, Hb by done. f_equal.
  exact (take_while_cut is_digit (c :: l) (c :: t) l' k H Hk).
Qed.

Lemma scan_frac_cut : cut_scanner scan_frac.
Proof.
  intros l t l' H k Hk. destruct l as [|c l].
  { injection H as <- <-. by apply prefix_nil_inv in Hk as ->. }
  destruct (decide (c = "."%char)) as [->|Hc].
  - cbn in H. destruct (scan_digits l) as [[t0 l0]|] eqn:E; [|done]. cbn in H. injection H as <- <-. cbn.
    by rewrite (scan_digits_cut _ _ _ E k Hk).
  - rewrite scan_frac_other in H by congruence. injection H as <- <-. apply scan_frac_other. intros r ->.
    apply prefix_cons_inv_1 in Hk. congruence.
Qed.

Lemma scan_exp_cut : cut_scanner scan_exp.
Proof.
  intros l t l' H k Hk. destruct l as [|c l].
  { injection H as <- <-. by apply prefix_nil_inv in Hk as ->. }
  cbn in H. destruct (Ascii.eqb c "e" || Ascii.eqb c "E") eqn:Ec.
  - destruct l as [|s l]; [done|]. destruct (Ascii.eqb s "+" || Ascii.eqb s "-") eqn:Es.
    + destruct (scan_digits l) as [[t0 l0]|] eqn:E; [|done]. cbn in H. injection H as <- <-. cbn.
      by rewrite Ec, Es, (scan_digits_cut _ _ _ E k Hk).
    + destruct (scan_digits (s :: l)) as [[t0 l0]|] eqn:E; [|done]. cbn in H. injection H as <- <-.
      pose proof (scan_digits_cut _ _ _ E k Hk) as Hcut. destruct t0 as [|d t0].
      { unfold scan_digits in E. destruct (take_while is_digit (s :: l)) as [[|] ?]; done. }
      apply scan_digits_prefix in E as [Heq _]. injection Heq as <- _. cbn [app scan_exp] in *. rewrite Ec, Es, Hcut. done.
  - injection H as <- <-. destruct k as [|d k]; [done|]. apply prefix_cons_inv_1 in Hk as ->. cbn. by rewrite Ec.
Qed.

Lemma bind_cut f g :
  prefix_scanner g → cut_scanner f → cut_scanner g →
  cut_scanner (λ l, '(t, l) ← f l; '(u, l) ← g l; Some (t ++ u, l)).
Proof.
  intros Hpg Hf Hg l t l' H k Hk. destruct (f l) as [[t0 l0]|] eqn:E; [|done]. cbn in H.
  destruct (g l0) as [[u l1]|] eqn:E'; [|done]. cbn in H. injection H as <- <-.
  pose proof (Hpg _ _ _ E') as [-> _]. rewrite <- app_assoc, (Hf _ _ _ E) by by apply prefix_app. cbn.
  by rewrite (Hg _ _ _ E').
Qed.

Lemma scan_unsigned_cut : cut_scanner scan_unsigned.
Proof.
  apply bind_cut; [apply bind_prefix; [apply scan_frac_prefix|apply scan_exp_prefix]|apply scan_int_cut|].
  apply bind_cut; [apply scan_exp_prefix|apply scan_frac_cut|apply scan_exp_cut].
Qed.

Lemma scan_unsigned_nonempty l t l' : scan_unsigned l = Some (t, l') → t ≠ [].
Proof.
  unfold scan_unsigned. destruct (scan_int l) as [[t0 l0]|] eqn:E; [|done]. cbn.
  destruct (scan_frac l0) as [[u l1]|]; [|done]. cbn. destruct (scan_exp l1) as [[w l2]|]; [|done]. cbn.
  intros [= <- _] Hnil. by apply scan_int_nonempty in E; destruct t0.
Qed.

Lemma scan_number_minus l : scan_number ("-"%char :: l) = ('(t, l) ← scan_unsigned l; Some ("-"%char :: t, l)).
Proof. exact (scan_number_unsigned ["-"%char] l). Qed.

Lemma scan_number_cut : cut_scanner scan_number.
Proof.
  intros [|c l] t l' H k Hk; [done|]. destruct (decide (c = "-"%char)) as [->|Hc].
  - rewrite scan_number_minus in H. destruct (scan_unsigned l) as [[t0 l0]|] eqn:E; [|done]. cbn in H.
    injection H as <- <-. cbn [app]. by rewrite scan_number_minus, (scan_unsigned_cut _ _ _ E k Hk).
  - rewrite scan_number_other in H by done. destruct (scan_unsigned (c :: l)) as [[t0 l0]|] eqn:E; [|done]. cbn in H.
    injection H as <- <-. pose proof (scan_unsigned_cut _ _ _ E k Hk) as Hcut.
    pose proof E as E0. apply scan_unsigned_prefix in E as [Heq _]. destruct t0 as [|d t0].
    { by destruct (scan_unsigned_nonempty _ _ _ E0). }
    injection Heq as <- _. cbn [app] in *. by rewrite scan_number_other, Hcut.
Qed.

Lemma read_number_valid l t l' : scan_number l = Some (t, l') → isValidNumber (String.string_of_list_ascii t) = true.
Proof.
  intros H. unfold isValidNumber. rewrite String.list_ascii_of_string_of_list_ascii.
  pose proof (scan_number_cut _ _ _ H [] ltac:(apply prefix_nil)) as Hc. rewrite app_nil_r in Hc. by rewrite Hc.
Qed.

(** ** Values *)

(** What the reader returns: like [wire], the pairs of an object as they were
    written. *)
Fixpoint wire_pairs (v : value) : Prop :=
  match v with
  | VNull | VBool _ => True
  | VNumber text => isValidNumber text = true
  | VFloat _ => False
  | VString s => valid_utf8 s = true
  | VList items => foldr (λ v P, wire_pairs v ∧ P) True items
  | VMap fields => foldr (λ kv P, (valid_utf8 kv.1 = true ∧ wire_pairs kv.2) ∧ P) True fields
  end.

Definition nested_below (depth : N) (n : N) : Prop := (depth + n ≤ max_depth)%N.

Definition typed (depth : N) (v : value) : Prop := wire_pairs v ∧ nested_below depth (nesting v).

Definition field_typed (depth : N) (kv : string * value) : Prop := valid_utf8 kv.1 = true ∧ typed depth kv.2.

Definition values_typed (fuel : nat) : Prop := ∀ depth l v l',
  (depth ≤ max_depth)%N → read_value fuel depth l = Some (v, l') → typed depth v.
Definition items_typed (fuel : nat) : Prop := ∀ depth l items l',
  (depth ≤ max_depth)%N → read_items fuel depth l = Some (items, l') → Forall (typed depth) items.
Definition fields_typed (fuel : nat) : Prop := ∀ depth l fields l',
  (depth ≤ max_depth)%N → read_fields fuel depth l = Some (fields, l') → Forall (field_typed depth) fields.

Lemma nested_max {A} (f : A → N) d (l : list A) :
  (d ≤ max_depth)%N → Forall (λ x, nested_below d (f x)) l →
  nested_below d (foldr (λ x n, N.max (f x) n) 0%N l).
Proof. unfold nested_below. intros Hd Hall. induction Hall; cbn; lia. Qed.

Lemma typed_list depth items :
  (depth < max_depth)%N → Forall (typed (depth + 1)) items → typed depth (VList items).
Proof.
  intros Hd Hall. apply Forall_and in Hall as [Hw Hn]. split; [by apply foldr_and_Forall|].
  pose proof (nested_max nesting (depth + 1) items ltac:(lia) Hn). unfold nested_below in *. cbn [nesting]. lia.
Qed.

Lemma typed_map depth fields :
  (depth < max_depth)%N → Forall (field_typed (depth + 1)) fields → typed depth (VMap fields).
Proof.
  intros Hd Hall. split.
  - apply (foldr_and_Forall (λ kv, valid_utf8 kv.1 = true ∧ wire_pairs kv.2)).
    eapply Forall_impl; [exact Hall|]. by intros kv (? & ? & _).
  - assert (Forall (λ kv, nested_below (depth + 1) (nesting kv.2)) fields) as Hn
      by (eapply Forall_impl; [exact Hall|]; by intros kv (_ & _ & ?)).
    pose proof (nested_max (λ kv : string * value, nesting kv.2) (depth + 1) fields ltac:(lia) Hn).
    unfold nested_below in *. cbn [nesting]. lia.
Qed.

Lemma read_value_typed fuel : items_typed fuel → fields_typed fuel → values_typed (S fuel).
Proof.
  intros IHi IHf depth l v l' Hd. cbn [read_value]. destruct (skip_space l) as [|c rest]; [done|].
  assert (∀ w, wire_pairs w → nesting w = 0%N → typed depth w) as Hscalar
    by (unfold typed, nested_below; intros w ? ->; split; [done|lia]).
  assert (∀ text w, expect text w (c :: rest) = Some (v, l') → v = w) as Hexpect
    by (unfold expect; intros; by case_bool_decide; simplify_eq).
  destruct (Ascii.eqb c dquote).
  { destruct (read_string (c :: rest)) as [[s l1]|] eqn:E; [|done]. cbn. intros [= <- <-].
    apply Hscalar; [by eapply read_string_valid|done]. }
  do 3 (destruct (Ascii.eqb c _); [intros ->%Hexpect; by apply Hscalar|]).
  destruct (Ascii.eqb c "[").
  { destruct (N.leb_spec max_depth depth); [done|]. destruct (skip_space rest) as [|x l1]; [done|].
    destruct (Ascii.eqb x "]"); [intros [= <- <-]; by apply typed_list|].
    destruct (read_items fuel (depth + 1)%N (x :: l1)) as [[items l2]|] eqn:E; [|done]. cbn. intros [= <- <-].
    apply typed_list; [done|]. by apply IHi in E; [|lia]. }
  destruct (Ascii.eqb c "{").
  { destruct (N.leb_spec max_depth depth); [done|]. destruct (skip_space rest) as [|x l1]; [done|].
    destruct (Ascii.eqb x "}"); [intros [= <- <-]; by apply typed_map|].
    destruct (read_fields fuel (depth + 1)%N (x :: l1)) as [[fields l2]|] eqn:E; [|done]. cbn. intros [= <- <-].
    apply typed_map; [done|]. by apply IHf in E; [|lia]. }
  destruct (scan_number (c :: rest)) as [[t l1]|] eqn:E; [|done]. cbn. intros [= <- <-].
  apply Hscalar; [by eapply read_number_valid|done].
Qed.

Lemma read_items_typed fuel : values_typed fuel → items_typed fuel → items_typed (S fuel).
Proof.
  intros IHv IHi depth l items l' Hd. cbn [read_items].
  destruct (read_value fuel depth l) as [[v l1]|] eqn:Ev; [|done]. cbn [mbind option_bind].
  apply IHv in Ev; [|done]. destruct (skip_space l1) as [|c l2]; [done|].
  destruct (decide (c = ","%char)) as [->|]; [|destruct (decide (c = "]"%char)) as [->|]].
  - destruct (read_items fuel depth l2) as [[vs l3]|] eqn:Ei; [|done]. cbn. intros [= <- <-].
    constructor; [done|]. by eapply IHi.
  - intros [= <- <-]. by apply Forall_singleton.
  - intros H. exfalso. destruct c as [[] [] [] [] [] [] [] []]; done.
Qed.

Lemma read_fields_typed fuel : values_typed fuel → fields_typed fuel → fields_typed (S fuel).
Proof.
  intros IHv IHf depth l fields l' Hd. rewrite read_fields_step.
  destruct (read_string (skip_space l)) as [[k l1]|] eqn:Ek; [|done]. cbn [mbind option_bind].
  destruct (skip_space l1) as [|c l2]; [done|].
  destruct (decide (c = ":"%char)) as [->|]; [|intros H; exfalso; destruct c as [[] [] [] [] [] [] [] []]; done].
  destruct (read_value fuel depth l2) as [[v l3]|] eqn:Ev; [|done]. cbn [mbind option_bind].
  apply IHv in Ev; [|done]. apply read_string_valid in Ek. destruct (skip_space l3) as [|c l4]; [done|].
  destruct (decide (c = ","%char)) as [->|]; [|destruct (decide (c = "}"%char)) as [->|]].
  - destruct (read_fields fuel depth l4) as [[vs l5]|] eqn:Ef; [|done]. cbn. intros [= <- <-].
    constructor; [done|]. by eapply IHf.
  - intros [= <- <-]. by apply Forall_singleton.
  - intros H. exfalso. destruct c as [[] [] [] [] [] [] [] []]; done.
Qed.

Lemma read_typed fuel : values_typed fuel ∧ items_typed fuel ∧ fields_typed fuel.
Proof.
  induction fuel as [|fuel (IHv & IHi & IHf)]; [by repeat split|].
  split; [by apply read_value_typed|]. split; [by apply read_items_typed|by apply read_fields_typed].
Qed.

(** ** Maps: a repeated key keeps its last value *)

Section map_set.
Context {A : Type}.

Lemma map_set_elem (m : list (string * A)) k v kv : kv ∈ map_set m k v → kv ∈ m ∨ kv = (k, v).
Proof using Type.
  induction m as [|[k' v'] m IH]; cbn; [rewrite list_elem_of_singleton; by right|].
  destruct (k' ==s k) eqn:E; go_bool; subst; rewrite !elem_of_cons; naive_solver.
Qed.

Lemma map_set_NoDup (m : list (string * A)) k v : NoDup (fst <$> m) → NoDup (fst <$> map_set m k v).
Proof using Type.
  induction m as [|[k' v'] m IH]; cbn; [intros _; by apply NoDup_singleton|].
  intros [Hin Hnd]%NoDup_cons. destruct (k' ==s k) eqn:E; go_bool; cbn; apply NoDup_cons; [by subst|].
  split; [|by apply IH]. intros (kv & -> & [Hkv| ->]%map_set_elem)%list_elem_of_fmap; [|done].
  apply Hin. by apply list_elem_of_fmap_2.
Qed.

Lemma foldl_map_set_NoDup (m pairs : list (string * A)) :
  NoDup (fst <$> m) → NoDup (fst <$> foldl (λ m kv, map_set m kv.1 kv.2) m pairs).
Proof using Type. revert m. induction pairs as [|kv pairs IH]; intros m Hm; [done|]. cbn. by apply IH, map_set_NoDup. Qed.

Lemma foldl_map_set_Forall (P : string → A → Prop) (m pairs : list (string * A)) :
  Forall (λ kv, P kv.1 kv.2) m → Forall (λ kv, P kv.1 kv.2) pairs →
  Forall (λ kv, P kv.1 kv.2) (foldl (λ m kv, map_set m kv.1 kv.2) m pairs).
Proof using Type.
  intros Hm Hp. revert m Hm. induction Hp as [|kv pairs Hkv _ IH]; intros m Hm; [done|]. cbn. apply IH.
  apply Forall_forall. intros x [Hx| ->]%map_set_elem; [by eapply Forall_forall in Hm|done].
Qed.

(** Distinct keys are kept as they come. *)
Lemma foldl_map_set_id (m pairs : list (string * A)) :
  NoDup (fst <$> (m ++ pairs)) → foldl (λ m kv, map_set m kv.1 kv.2) m pairs = m ++ pairs.
Proof using Type.
  revert m. induction pairs as [|[k v] pairs IH]; intros m Hnd; [by rewrite app_nil_r|]. cbn.
  assert (map_set m k v = m ++ [(k, v)]) as ->.
  { rewrite fmap_app in Hnd. apply NoDup_app in Hnd as (_ & Hk & _).
    assert (k ∉ fst <$> m) as Hnin by (intros Hin; destruct (Hk k Hin); cbn; apply elem_of_cons; by left). clear Hk.
    induction m as [|[k' v'] m IHm]; [done|]. cbn in *. apply not_elem_of_cons in Hnin as [Hne Hnin].
    destruct (String.eqb_spec k' k); [done|]. by rewrite IHm. }
  rewrite IH by (by rewrite <- app_assoc). by rewrite <- app_assoc.
Qed.
End map_set.

Lemma wire_pairs_as_any v : wire_pairs v → wire (as_any v) ∧ (nesting (as_any v) ≤ nesting v)%N.
Proof.
  induction v as [|b|t| |s|items IH|fields IH] using value_induction; intros Hw; try done.
  - apply (foldr_and_Forall wire_pairs) in Hw. cbn [as_any nesting].
    assert (Forall (λ v, wire (as_any v) ∧ (nesting (as_any v) ≤ nesting v)%N) items) as Hall
      by (eapply Forall_impl; [exact (proj2 (Forall_and _ _) (conj IH Hw))|]; naive_solver).
    split; [apply foldr_and_Forall, Forall_fmap; by apply Forall_and in Hall as [? _]|].
    clear -Hall. induction Hall as [|v items [_ ?] _ IH]; cbn in *; lia.
  - apply (foldr_and_Forall (λ kv, valid_utf8 kv.1 = true ∧ wire_pairs kv.2)) in Hw. cbn [as_any nesting].
    set (n := foldr (λ kv n, N.max (nesting kv.2) n) 0%N fields).
    assert (Forall (λ kv, (nesting kv.2 ≤ n)%N) fields) as Hn by (by apply foldr_max_Forall).
    pose proof (foldl_map_set_Forall (λ k v, (valid_utf8 k = true ∧ wire v) ∧ (nesting v ≤ n)%N) []
                  ((λ kv, (kv.1, as_any kv.2)) <$> fields) ltac:(constructor)) as Hall.
    apply Forall_and in Hall as [Hwire Hnest].
    + split; [split; [apply foldl_map_set_NoDup; constructor|]|].
      * by apply (foldr_and_Forall (λ kv, valid_utf8 kv.1 = true ∧ wire kv.2)).
      * revert Hnest. generalize (foldl (λ m kv, map_set m kv.1 kv.2) [] ((λ kv, (kv.1, as_any kv.2)) <$> fields)).
        intros m Hm. induction Hm; cbn in *; lia.
    + apply Forall_fmap. eapply Forall_impl; [exact (proj2 (Forall_and _ _) (conj IH (proj2 (Forall_and _ _) (conj Hw Hn))))|].
      cbn. intros kv (Hkv & [? Hp] & ?). destruct (Hkv Hp). split; [done|lia].
Qed.

(** A map with distinct keys is already what the decoder keeps. *)
Lemma as_any_wire v : wire v → as_any v = v.
Proof.
  induction v as [|b|t| |s|items IH|fields IH] using value_induction; intros Hw; try done; cbn [as_any]; f_equal.
  - apply (foldr_and_Forall wire) in Hw. induction IH as [|v items Hv _ IHi]; [done|].
    apply Forall_cons in Hw as [? ?]. cbn. f_equal; auto.
  - destruct Hw as [Hnd Hw]. apply (foldr_and_Forall (λ kv, valid_utf8 kv.1 = true ∧ wire kv.2)) in Hw.
    assert ((λ kv, (kv.1, as_any kv.2)) <$> fields = fields) as ->.
    { clear Hnd. induction IH as [|[k v] fields Hv _ IHf]; [done|]. apply Forall_cons in Hw as [[_ ?] ?]. cbn.
      f_equal; [cbn in Hv; by rewrite Hv|auto]. }
    by rewrite foldl_map_set_id.
Qed.

Lemma parse_typed s v : parse_json s = Some v → wire (as_any v) ∧ (nesting (as_any v) ≤ max_depth)%N.
Proof.
  unfold parse_json. destruct (read_value _ _ _) as [[w rest]|] eqn:E; [|done]. cbn [mbind option_bind].
  destruct (skip_space rest); [|done]. intros [= <-].
  apply read_typed in E as [Hw Hn]; [|done]. apply wire_pairs_as_any in Hw as [? ?]. unfold nested_below in Hn.
  split; [done|lia].
Qed.
