(* ===== verification/Dcs.v ===== *)
(** * The DCS contract: [dcs/types.go], [dcs/path.go]

    What a snapshot of a Patroni cluster holds, how its keys are named and
    classified, and which root each cluster owns. *)

From S2P Require Import Prelude GoStrings GoErrors Target Values.

(** ** Keys *)

Inductive KeyKind :=
| KeyUnknown | KeyInitialize | KeyConfig | KeyMember | KeyLeader | KeyFailover | KeyHistory
| KeyStatus | KeyLeaderOptime | KeySync | KeyFailsafe.

#[export] Instance KeyKind_eq_dec : EqDecision KeyKind.
Proof. solve_decision. Defined.

Record Entry := mkEntry {
  enKey : string;
  enRelativePath : string;
  enKind : KeyKind;
  enCreateRevision : Z;
  enModRevision : Z;
  enVersion : Z;
  enLease : Z;
  enValue : string
}.

Definition ClassifyRelativePath (relative : string) : KeyKind :=
  let relative := Trim slash relative in
  if relative ==s "initialize" then KeyInitialize
  else if relative ==s "config" then KeyConfig
  else if relative ==s "leader" then KeyLeader
  else if relative ==s "failover" then KeyFailover
  else if relative ==s "history" then KeyHistory
  else if relative ==s "status" then KeyStatus
  else if relative ==s "optime/leader" then KeyLeaderOptime
  else if relative ==s "sync" then KeySync
  else if relative ==s "failsafe" then KeyFailsafe
  else if HasPrefix relative "members/" && (CountByte "/" relative =? 1)%nat
          && (TrimPrefix relative "members/" !=s "") then KeyMember
  else KeyUnknown.

(** [SortEntries]; etcd keys are distinct, so stability does not matter. *)
Definition SortEntries (entries : list Entry) : list Entry := sort_by enKey entries.

(** ** Cluster state *)

(** A [json.RawMessage]: nothing, a text that is not JSON, or a JSON value
    (the fields of an object in the order they were written). *)
Inductive RawMessage :=
| RawEmpty
| RawInvalid
| RawJSON (v : value).

Record MemberData := mkMemberData {
  mdAPIURL : string;
  mdConnURL : string;
  mdState : string;
  mdRole : string;
  mdReplicationState : string;
  mdTimeline : option Z;
  mdPendingRestart : option bool;
  mdPendingRestartReason : config;
  mdScheduledRestart : RawMessage;
  mdTags : config;
  mdPatroniVersion : string;
  mdPause : option bool;
  mdXLogLocation : option Z;
  mdReceiveLSN : option Z;
  mdReplayLSN : option Z;
  mdSlots : list (string * string)
}.

#[export] Instance zero_MemberData : Zero MemberData :=
  mkMemberData "" "" "" "" "" None None [] RawEmpty [] "" None None None None [].

Record Member := mkMember {
  mbName : string;
  mbModRevision : Z;
  mbLease : Z;
  mbData : MemberData
}.

#[export] Instance zero_Member : Zero Member := mkMember "" 0 0 zero.

Record Leader := mkLeader { ldName : string; ldModRevision : Z; ldLease : Z }.

Record Failover := mkFailover {
  foModRevision : Z;
  foLeader : string;
  foCandidate : string;
  foScheduledAt : string
}.

Record SyncState := mkSyncState {
  syModRevision : Z;
  syLeader : string;
  syStandbys : list string;
  syQuorum : Z
}.

Record Status := mkStatus {
  stSource : KeyKind;
  stLastLSN : Z;
  stSlots : list (string * Z);
  stRetainSlots : list string
}.

Record ClusterState := mkClusterState {
  csInitialize : string;
  csConfig : config;
  csLeader : option Leader;
  csMembers : list Member;
  csFailover : option Failover;
  csHistory : list RawMessage;
  csStatus : Status;
  csSync : SyncState;
  csFailsafe : list (string * string)
}.

#[export] Instance zero_ClusterState : Zero ClusterState :=
  mkClusterState "" [] None [] None [] (mkStatus KeyUnknown 0 [] []) (mkSyncState 0 "" [] 0) [].

Record DecodeIssue := mkIssue { diRelativePath : string; diField : string; diReason : string }.

Record Snapshot := mkSnapshot {
  snTarget : Target;
  snPrefix : string;
  snRevision : Z;
  snEntries : list Entry;
  snCluster : ClusterState;
  snIssues : list DecodeIssue
}.

#[export] Instance zero_Snapshot : Zero Snapshot := mkSnapshot zero "" 0 [] zero [].

Definition Snapshot_Entry (snapshot : Snapshot) (relativePath : string) : option Entry :=
  find_first (λ entry, enRelativePath entry ==s relativePath) (snEntries snapshot).

Record DiscoveredCluster := mkDiscoveredCluster {
  dcTarget : Target;
  dcRevision : Z;
  dcEvidenceKeys : list string;
  dcSnapshot : option Snapshot
}.

Record WriteResult := mkWriteResult {
  wrApplied : bool;
  wrRevision : Z;
  wrPrevious : option Entry;
  wrCurrent : option Entry
}.

#[export] Instance zero_WriteResult : Zero WriteResult := mkWriteResult false 0 None None.

Record RemoveResult := mkRemoveResult { rrDeleted : Z; rrRevision : Z }.

#[export] Instance zero_RemoveResult : Zero RemoveResult := mkRemoveResult 0 0.

(** ** Paths *)

Definition NamespacePrefix (namespace : string) : string :=
  "/" +:+ Trim slash (NormalizeNamespace namespace) +:+ "/".

Definition cluster_components (t : Target) : list string :=
  ["" ; Trim slash (tNamespace t); tScope t] ++
  match tGroup t with Some g => [FormatInt g] | None => [] end.

Definition ClusterPrefix (target : Target) : goerror + string :=
  let target := Normalize target in
  match Target_Validate target true with
  | Some err => inl (EWrap "dcs cluster path" err)
  | None => inr (Join (cluster_components target) "/")
  end.

Definition KeyPath (target : Target) (relative : string) : goerror + string :=
  match ClusterPrefix target with
  | inl err => inl err
  | inr prefix =>
      let relative := Trim slash relative in
      if relative ==s "" then inr (prefix +:+ "/") else inr (prefix +:+ "/" +:+ relative)
  end.
