(* ===== verification/Effects.v ===== *)
(** * Effects: the calls a control operation makes

    A control operation is a program over the calls it can make to the DCS
    ([dcs.SnapshotReader], [dcs.Discoverer], [dcs.FailoverCAS],
    [dcs.ConfigCAS], [dcs.ClusterRemover]), to the Patroni
    REST client ([PatroniControlClient]), to its context and to the functions
    injected through [ServiceOptions].  A program is a tree that branches on
    every possible reply, so a theorem about all its runs is a theorem about
    every behaviour of those collaborators.

    [runs p tr a]: with the history of calls and replies [tr], [p] returns [a].
    [wp p Q]: every run of [p] ends with a history and a value in [Q].
    [run oracle p]: the run in which [oracle] answers, with its history. *)

From S2P Require Import Prelude GoStrings GoErrors PgTypes GoTime Target Values Dcs.

(** ** Wire types of the Patroni REST client, [types.go] *)

Record RESTResponse := mkResponse { rsStatusCode : Z; rsData : string }.

Definition no_response : RESTResponse := mkResponse 0 "".

(** [patroni.Response[patroni.Status]], the fields the control package reads. *)
Record StatusResponse := mkStatusResponse {
  ssStatusCode : Z;
  ssState : string;
  ssPatroniVersion : string;      (* Data.Patroni.Version *)
  ssServerVersion : option Z
}.

(** [patroni.FailoverRequest] *)
Record FailoverPayload := mkFailoverPayload {
  fpLeader : string;
  fpCandidate : string;
  fpScheduledAt : string
}.

(** [patroni.RestartRequest], the fields the control package sets *)
Record RestartPayload := mkRestartPayload {
  rpRestartPending : option bool;
  rpSchedule : string;
  rpPostgresVersion : string;
  rpTimeout : string
}.

(** ** Calls and replies *)

Inductive call :=
| CSnapshot (target : Target)
| CDiscover (context namespace : string)
| CPostFailover (url : string) (payload : FailoverPayload)
| CPostSwitchover (url : string) (payload : FailoverPayload)
| CDeleteSwitchover (url : string)
| CPatchConfig (url : string) (payload : config)
| CPostReload (url : string)
| CPostRestart (url : string) (payload : RestartPayload)
| CDeleteRestart (url : string)
| CPostReinitialize (url : string) (force fromLeader : bool)
| CGetPatroni (url : string)
| CWriteFailover (target : Target) (payload : list (string * string)) (expected : option Z)
| CDeleteFailover (target : Target) (expected : option Z)
| CCompareAndSwapConfig (target : Target) (payload : string) (expected : option Z)
| CDeleteCluster (target : Target)
| CQueryChecked (connection : ConnectionOptions) (expectation : RecoveryExpectation) (request : pg.QueryRequest)
| CCtxErr                                    (* ctx.Err() *)
| CWait                                      (* service.wait(ctx, interval) *)
| CRandomIndex (length : Z)                  (* service.randomIndex *)
| CNewOperationID                            (* service.newOperationID *)
| CRandomBytes.                              (* the hex text randomOperationID draws *)

Definition reply (c : call) : Type :=
  match c with
  | CSnapshot _ => (goerror + Snapshot)%type
  | CDiscover _ _ => (goerror + list DiscoveredCluster)%type
  | CPostFailover _ _ | CPostSwitchover _ _ | CDeleteSwitchover _ | CPatchConfig _ _ | CPostReload _
  | CPostRestart _ _ | CDeleteRestart _ | CPostReinitialize _ _ _ =>
      (RESTResponse * option goerror)%type
  | CGetPatroni _ => (StatusResponse * option goerror)%type
  | CQueryChecked _ _ _ => (QueryResult * option goerror)%type
  | CWriteFailover _ _ _ | CDeleteFailover _ _ | CCompareAndSwapConfig _ _ _ =>
      (WriteResult * option goerror)%type
  | CDeleteCluster _ => (RemoveResult * option goerror)%type
  | CCtxErr | CWait => option goerror
  | CRandomIndex _ => (Z * option goerror)%type
  | CNewOperationID | CRandomBytes => string
  end.

(** The calls that ask the cluster to change; a query runs the caller's SQL,
    which may. *)
Definition is_write (c : call) : bool :=
  match c with
  | CPostFailover _ _ | CPostSwitchover _ _ | CDeleteSwitchover _ | CPatchConfig _ _ | CPostReload _
  | CPostRestart _ _ | CDeleteRestart _ | CPostReinitialize _ _ _ | CWriteFailover _ _ _
  | CDeleteFailover _ _ | CCompareAndSwapConfig _ _ _ | CDeleteCluster _ | CQueryChecked _ _ _ => true
  | _ => false
  end.

(** ** Programs *)

Inductive prog (A : Type) : Type :=
| Ret (a : A)
| Vis (c : call) (k : reply c → prog A).

#[global] Arguments Ret {A} _.
#[global] Arguments Vis {A} _ _.

Fixpoint prog_bind {A B} (f : A → prog B) (p : prog A) : prog B :=
  match p with
  | Ret a => f a
  | Vis c k => Vis c (λ r, prog_bind f (k r))
  end.

#[export] Instance prog_ret : MRet prog := @Ret.
#[export] Instance prog_mbind : MBind prog := @prog_bind.

Definition do_call (c : call) : prog (reply c) := Vis c Ret.

(** [if attempt > 0 { if err := service.wait(...) }], at the head of every
    readback loop. *)
Definition waitUnless (first : bool) : prog (option goerror) := if first then mret None else do_call CWait.

(** ** Runs *)

Record event := Ev { ev_call : call; ev_reply : reply ev_call }.

Inductive runs {A} : prog A → list event → A → Prop :=
| runs_ret a : runs (Ret a) [] a
| runs_vis c k (r : reply c) tr a : runs (k r) tr a → runs (Vis c k) (Ev c r :: tr) a.

Fixpoint wp {A} (p : prog A) (Q : list event → A → Prop) : Prop :=
  match p with
  | Ret a => Q [] a
  | Vis c k => ∀ r, wp (k r) (λ tr a, Q (Ev c r :: tr) a)
  end.

Definition read_only (e : event) : Prop := is_write (ev_call e) = false.

(** A postcondition on the result alone. *)
Definition returns {A} (p : prog A) (Q : A → Prop) : Prop := wp p (λ _, Q).

(** A postcondition whose history satisfies [P] event by event. *)
Definition wp_all {A} (P : event → Prop) (p : prog A) (Q : A → Prop) : Prop :=
  wp p (λ tr a, Forall P tr ∧ Q a).

Fixpoint run {A} (oracle : list event → ∀ c, reply c) (tr : list event) (p : prog A) : list event * A :=
  match p with
  | Ret a => (tr, a)
  | Vis c k => let r := oracle tr c in run oracle (tr ++ [Ev c r]) (k r)
  end.

(** ** Lemmas *)

Lemma wp_mono {A} (p : prog A) (Q R : list event → A → Prop) :
  (∀ tr a, Q tr a → R tr a) → wp p Q → wp p R.
Proof.
  revert Q R. induction p as [a|c k IH]; intros Q R HQR; cbn; [apply HQR|].
  intros Hp r. eapply IH; [|apply Hp]. cbn. eauto.
Qed.

Lemma wp_bind {A B} (p : prog A) (f : A → prog B) (Q : list event → B → Prop) :
  wp p (λ tr a, wp (f a) (λ tr' b, Q (tr ++ tr') b)) → wp (p ≫= f) Q.
Proof.
  revert Q. induction p as [a|c k IH]; intros Q; cbn.
  - intros H. eapply wp_mono; [|exact H]. done.
  - intros H r. apply IH. exact (H r).
Qed.

Lemma wp_runs {A} (p : prog A) Q : wp p Q ↔ ∀ tr a, runs p tr a → Q tr a.
Proof.
  split.
  - intros Hp tr a Hr. revert Q Hp. induction Hr as [a|c k r tr a Hr IH]; intros Q; cbn; [done|].
    intros H. exact (IH _ (H r)).
  - revert Q. induction p as [a|c k IH]; intros Q H; cbn; [apply H; constructor|].
    intros r. apply IH. intros tr a Hr. apply H. by constructor.
Qed.

(** Every program returns, whatever the replies. *)
Lemma runs_exists {A} (p : prog A) (oracle : ∀ c, reply c) : ∃ tr a, runs p tr a.
Proof.
  induction p as [a|c k IH]; [exists [], a; constructor|].
  destruct (IH (oracle c)) as (tr & a & Hr). exists (Ev c (oracle c) :: tr), a. by constructor.
Qed.

Lemma run_runs {A} oracle tr (p : prog A) :
  ∃ tr', (run oracle tr p).1 = tr ++ tr' ∧ runs p tr' (run oracle tr p).2.
Proof.
  revert tr. induction p as [a|c k IH]; intros tr; cbn.
  - exists []. rewrite app_nil_r. split; [done|constructor].
  - destruct (IH (oracle tr c) (tr ++ [Ev c (oracle tr c)])) as (tr' & Heq & Hr).
    exists (Ev c (oracle tr c) :: tr'). rewrite Heq, <- app_assoc. split; [done|by constructor].
Qed.

(** A postcondition of every run is one of the run an oracle answers. *)
Lemma wp_run {A} (p : prog A) Q oracle : wp p Q → Q (run oracle [] p).1 (run oracle [] p).2.
Proof.
  intros Hp. destruct (run_runs oracle [] p) as (tr & -> & Hr). exact (proj1 (wp_runs _ _) Hp _ _ Hr).
Qed.

Section returns.
Context {A B : Type}.

Lemma returns_bind (p : prog A) (f : A → prog B) (P : A → Prop) (Q : B → Prop) :
  returns p P → (∀ a, P a → returns (f a) Q) → returns (p ≫= f) Q.
Proof. intros Hp Hf. apply wp_bind. eapply wp_mono; [|exact Hp]. cbn. intros _ a Ha. exact (Hf a Ha). Qed.

Lemma returns_mono (p : prog A) (P Q : A → Prop) : (∀ a, P a → Q a) → returns p P → returns p Q.
Proof. intros HPQ. apply wp_mono. eauto. Qed.

Lemma returns_run (p : prog A) (P : A → Prop) oracle : returns p P → P (run oracle [] p).2.
Proof. intros Hp. destruct (run_runs oracle [] p) as (tr & _ & Hr). exact (proj1 (wp_runs _ _) Hp _ _ Hr). Qed.

Lemma wp_all_bind (E : event → Prop) (p : prog A) (f : A → prog B) (P : A → Prop) (Q : B → Prop) :
  wp_all E p P → (∀ a, P a → wp_all E (f a) Q) → wp_all E (p ≫= f) Q.
Proof.
  intros Hp Hf. apply wp_bind. eapply wp_mono; [|exact Hp]. cbn. intros tr a [Htr Ha].
  eapply wp_mono; [|exact (Hf a Ha)]. cbn. intros tr' b [Htr' Hb]. split; [by apply Forall_app|done].
Qed.

Lemma wp_all_mono (E : event → Prop) (p : prog A) (P Q : A → Prop) :
  (∀ a, P a → Q a) → wp_all E p P → wp_all E p Q.
Proof. intros HPQ. apply wp_mono. cbn. intros tr a [? ?]. eauto. Qed.

Lemma wp_and (p : prog A) (Q R : list event → A → Prop) :
  wp p Q → wp p R → wp p (λ tr a, Q tr a ∧ R tr a).
Proof.
  rewrite !wp_runs. eauto.
Qed.
End returns.

(** ** Postconditions that ignore reads made before

    Most handlers read first and write later; a postcondition closed under a
    read-only prefix is proved once for the part that writes. *)
Class ReadClosed {A} (Q : list event → A → Prop) : Prop :=
  read_closed pre tr a : Forall read_only pre → Q tr a → Q (pre ++ tr) a.

Lemma wp_bind_read {A B} (Q : list event → B → Prop) `{!ReadClosed Q} (p : prog A) (f : A → prog B) (P : A → Prop) :
  wp_all read_only p P → (∀ a, P a → wp (f a) Q) → wp (p ≫= f) Q.
Proof.
  intros Hp Hf. apply wp_bind. eapply wp_mono; [|exact Hp]. cbn. intros tr a [Htr Ha].
  eapply wp_mono; [|exact (Hf a Ha)]. cbn. intros tr' b. by apply read_closed.
Qed.

Lemma wp_call_read {A} (Q : list event → A → Prop) `{!ReadClosed Q} c (f : reply c → prog A) :
  is_write c = false → (∀ r, wp (f r) Q) → wp (do_call c ≫= f) Q.
Proof.
  intros Hc Hf r. eapply wp_mono; [|exact (Hf r)]. cbn. intros tr b.
  apply (read_closed [Ev c r]). by repeat constructor.
Qed.

(** ** Stepping through a program *)

Lemma wp_all_ret {A} (E : event → Prop) (a : A) (Q : A → Prop) : Q a → wp_all E (mret a) Q.
Proof. intros. split; [constructor|done]. Qed.

Lemma wp_all_call {A} (E : event → Prop) c (f : reply c → prog A) (Q : A → Prop) :
  (∀ r, E (Ev c r) ∧ wp_all E (f r) Q) → wp_all E (do_call c ≫= f) Q.
Proof.
  intros H r. destruct (H r) as [He Hw]. eapply wp_mono; [|exact Hw]. cbn. intros tr a [? ?]. split; [by constructor|done].
Qed.

Lemma waitUnless_spec first : wp_all read_only (waitUnless first) (λ _, True).
Proof. destruct first; [by apply wp_all_ret|]. intros r. cbn. by repeat constructor. Qed.

Lemma wp_all_wait {A} first (f : option goerror → prog A) (Q : A → Prop) :
  (∀ r, wp_all read_only (f r) Q) → wp_all read_only (waitUnless first ≫= f) Q.
Proof. intros Hf. eapply wp_all_bind; [apply waitUnless_spec|]. by intros r _. Qed.

Lemma wp_all_returns {A} (E : event → Prop) (p : prog A) (Q : A → Prop) : wp_all E p Q → returns p Q.
Proof. apply wp_mono. by intros tr a [_ ?]. Qed.

Lemma wp_all_runs {A} (E : event → Prop) (p : prog A) (Q : A → Prop) tr a :
  wp_all E p Q → runs p tr a → Forall E tr ∧ Q a.
Proof. intros Hp Hr. exact (proj1 (wp_runs _ _) Hp _ _ Hr). Qed.

Lemma returns_ret {A} (a : A) (Q : A → Prop) : Q a → returns (mret a) Q.
Proof. done. Qed.

Lemma returns_call {A} c (f : reply c → prog A) (Q : A → Prop) :
  (∀ r, returns (f r) Q) → returns (do_call c ≫= f) Q.
Proof. intros H r. apply (H r). Qed.

Lemma wp_call {A} c (f : reply c → prog A) Q :
  (∀ r, wp (f r) (λ tr a, Q (Ev c r :: tr) a)) → wp (do_call c ≫= f) Q.
Proof. intros H r. apply (H r). Qed.

(** [go_wp] walks the reads, the branches and the returns of a program,
    leaving calls to other operations and the final postconditions. *)
Ltac go_wp_step :=
  match goal with
  | |- wp_all _ (mret _) _ => apply wp_all_ret
  | |- wp_all _ (do_call _ ≫= _) _ => apply wp_all_call; intros ?; split; [try reflexivity|]; cbv beta zeta
  | |- wp_all _ (match ?x with _ => _ end) _ => destruct x eqn:?
  | |- returns (mret _) _ => apply returns_ret
  | |- returns (do_call _ ≫= _) _ => apply returns_call; intros ?; cbv beta zeta
  | |- returns (match ?x with _ => _ end) _ => destruct x eqn:?
  end.

Ltac go_wp := repeat (cbv beta zeta; go_wp_step).
