(* ===== verification/Contract.v ===== *)
(** * The operation contract: [control/result.go], [errors.go], [plan.go],
    [service.go], [version_gate.go], [write_types.go] and the classifiers of
    [control/read.go] and [control/reload.go]

    Every operation of the control package takes a request and a plan and
    returns a [Result].  This file holds those types, their validation, the
    classification of errors, and the small constructors all handlers share. *)

From S2P Require Import Prelude GoStrings GoErrors GoTime Target Version Values Dcs.
From S2P Require Import Effects.

(** ** Enumerations

    A Go enumeration is a string type; [_Raw] stands for any text that is not
    one of the constants, and [_Raw ""] is the zero value. *)

Inductive Outcome := Succeeded | Failed | Unknown | OutcomeRaw (text : string).
Inductive SendState := SendNotSent | SendMaybeSent | SendAccepted | SendRaw (text : string).
Inductive Verification := Unverified | VerifiedSucceeded | VerifiedFailed | VerificationRaw (text : string).
Inductive EvidenceSource :=
| EvidenceLocal | EvidenceDCS | EvidencePatroni | EvidencePostgres | EvidenceControl
| EvidenceRaw (text : string).
Inductive Path := PathLocal | PathDCS | PathREST | PathPostgres | PathRESTToDCS | PathRaw (text : string).
Inductive Category :=
| CategoryUsage | CategoryConfig | CategoryUnsupported | CategoryAuth | CategoryTLS | CategoryNotFound
| CategoryConflict | CategoryUnreachable | CategoryFailed | CategoryUnknown | CategoryInternal
| CategoryRaw (text : string).
Inductive Risk :=
| RiskRead | RiskAdminWrite | RiskConfiguration | RiskAvailability | RiskDestructive | RiskSQL
| RiskRaw (text : string).
Inductive RetrySafety := ReadOnly | SafeBeforeSend | UnsafeAfterSend | RetrySafetyRaw (text : string).
Inductive Role :=
| RoleLeader | RolePrimary | RoleStandbyLeader | RoleReplica | RoleStandby | RoleAny
| RoleRaw (text : string).
Inductive FlushEvent := FlushRestart | FlushSwitchover | FlushEventRaw (text : string).

#[export] Instance Outcome_eq_dec : EqDecision Outcome. Proof. solve_decision. Defined.
#[export] Instance SendState_eq_dec : EqDecision SendState. Proof. solve_decision. Defined.
#[export] Instance Verification_eq_dec : EqDecision Verification. Proof. solve_decision. Defined.
#[export] Instance EvidenceSource_eq_dec : EqDecision EvidenceSource. Proof. solve_decision. Defined.
#[export] Instance Path_eq_dec : EqDecision Path. Proof. solve_decision. Defined.
#[export] Instance Category_eq_dec : EqDecision Category. Proof. solve_decision. Defined.
#[export] Instance Risk_eq_dec : EqDecision Risk. Proof. solve_decision. Defined.
#[export] Instance RetrySafety_eq_dec : EqDecision RetrySafety. Proof. solve_decision. Defined.
#[export] Instance Role_eq_dec : EqDecision Role. Proof. solve_decision. Defined.
#[export] Instance FlushEvent_eq_dec : EqDecision FlushEvent. Proof. solve_decision. Defined.

(** [string(path)], [string(role)], [string(event)]. *)
Definition Path_text (p : Path) : string :=
  match p with
  | PathLocal => "local" | PathDCS => "dcs" | PathREST => "rest" | PathPostgres => "postgres"
  | PathRESTToDCS => "rest->dcs" | PathRaw s => s
  end.

Definition Role_text (r : Role) : string :=
  match r with
  | RoleLeader => "leader" | RolePrimary => "primary" | RoleStandbyLeader => "standby-leader"
  | RoleReplica => "replica" | RoleStandby => "standby" | RoleAny => "any" | RoleRaw s => s
  end.

Definition FlushEvent_text (e : FlushEvent) : string :=
  match e with FlushRestart => "restart" | FlushSwitchover => "switchover" | FlushEventRaw s => s end.

(** ** Validity of each enumeration *)

Definition EvidenceSource_valid (s : EvidenceSource) : bool :=
  match s with EvidenceRaw _ => false | _ => true end.

Definition SendState_validOrEmpty (s : SendState) : bool :=
  match s with SendRaw t => t ==s "" | _ => true end.

Definition SendState_empty (s : SendState) : bool := match s with SendRaw t => t ==s "" | _ => false end.

Definition Path_valid (p : Path) : bool := match p with PathRaw _ => false | _ => true end.
Definition Risk_valid (r : Risk) : bool := match r with RiskRaw _ => false | _ => true end.
Definition RetrySafety_valid (r : RetrySafety) : bool := match r with RetrySafetyRaw _ => false | _ => true end.

Definition Role_empty (r : Role) : bool := match r with RoleRaw s => s ==s "" | _ => false end.
Definition Role_validOrEmpty (r : Role) : bool := match r with RoleRaw s => s ==s "" | _ => true end.
Definition FlushEvent_valid (e : FlushEvent) : bool := match e with FlushEventRaw _ => false | _ => true end.
Definition Verification_valid (v : Verification) : bool := match v with VerificationRaw _ => false | _ => true end.
Definition validCategories (c : Category) : bool := match c with CategoryRaw _ => false | _ => true end.

(** ** Evidence *)

Record Evidence := mkEvidence {
  evSource : EvidenceSource;
  evObservedAt : Time;
  evSummary : string;
  evRevision : string;
  evPath : string;
  evSendState : SendState
}.

Definition Evidence_Validate (e : Evidence) : option goerror :=
  if negb (EvidenceSource_valid (evSource e)) then Some (EText "evidence source is invalid")
  else if IsZero (evObservedAt e) then Some (EText "evidence observed time is required")
  else if evSummary e ==s "" then Some (EText "evidence summary is required")
  else if negb (SendState_validOrEmpty (evSendState e)) then Some (EText "evidence send state is invalid")
  else None.

(** The first error of a validation loop. *)
Definition first_error {A} (validate : A → option goerror) (l : list A) : option goerror :=
  head (omap validate l).

(** ** Errors *)

Record Error := mkError {
  errCategory : Category;
  errOperation : string;
  errTarget : Target;
  errRetryable : bool;
  errMessage : string;
  errEvidence : list Evidence;
  errCause : option goerror
}.

Definition NewError (category : Category) (operation : string) (target : Target) (retryable : bool)
    (message : string) (cause : option goerror) (evidence : list Evidence) : Error :=
  mkError category operation (Normalize target) retryable message evidence cause.

Definition Error_Validate (e : Error) : option goerror :=
  if negb (validCategories (errCategory e)) then Some (EText "invalid control error category")
  else if errOperation e ==s "" then Some (EText "control error operation is required")
  else if errMessage e ==s "" then Some (EText "control error safe message is required")
  else option_map (EWrap "control error evidence") (first_error Evidence_Validate (errEvidence e)).

(** A [*Error] used as an [error]: never nil as an interface, so a nil pointer
    is an error with an empty message. *)
Definition as_error (e : option Error) : option goerror :=
  Some match e with
       | None => EText ""
       | Some err => match errCause err with
                     | None => EText (errMessage err)
                     | Some cause => EWrap (errMessage err) cause
                     end
       end.

Definition ExitCode (c : Category) : Z :=
  match c with
  | CategoryFailed => 1
  | CategoryUsage | CategoryConfig => 2
  | CategoryUnsupported => 3
  | CategoryAuth | CategoryTLS => 4
  | CategoryNotFound => 5
  | CategoryConflict => 6
  | CategoryUnreachable => 7
  | CategoryUnknown => 8
  | CategoryInternal => 9
  | CategoryRaw _ => 9
  end.

(** ** Results *)

Record Result (T : Type) := mkResult {
  rOperationID : string;
  rOutcome : Outcome;
  rTarget : Target;
  rPath : Path;
  rData : T;
  rEvidence : list Evidence;
  rError : option Error
}.

#[global] Arguments mkResult {T} _ _ _ _ _ _ _.
#[global] Arguments rOperationID {T} _.
#[global] Arguments rOutcome {T} _.
#[global] Arguments rTarget {T} _.
#[global] Arguments rPath {T} _.
#[global] Arguments rData {T} _.
#[global] Arguments rEvidence {T} _.
#[global] Arguments rError {T} _.

(** The outcome switch of [Result.Validate]. *)
Definition outcome_error (o : Outcome) (e : option Error) : option goerror :=
  match o with
  | Succeeded => if is_nil e then None else Some (EText "succeeded result must not contain an error")
  | Failed =>
      match e with
      | None => Some (EText "failed result requires an error")
      | Some err => if bool_decide (errCategory err = CategoryUnknown)
                    then Some (EText "failed result cannot contain UNKNOWN error category") else None
      end
  | Unknown =>
      match e with
      | Some err => if bool_decide (errCategory err = CategoryUnknown) then None
                    else Some (EText "unknown result requires UNKNOWN error category")
      | None => Some (EText "unknown result requires UNKNOWN error category")
      end
  | OutcomeRaw _ => Some (EText "result outcome is invalid")
  end.

Definition Result_Validate {T} (r : Result T) : option goerror :=
  if rOperationID r ==s "" then Some (EText "result operation ID is required")
  else match Target_Validate (rTarget r) (tScope (rTarget r) !=s "") with
  | Some err => Some (EWrap "result target" err)
  | None =>
      if negb (Path_valid (rPath r)) then Some (EText "result path is invalid")
      else if is_nil (head (rEvidence r)) then Some (EText "result requires authoritative evidence")
      else match first_error Evidence_Validate (rEvidence r) with
      | Some err => Some (EWrap "result evidence" err)
      | None =>
          match outcome_error (rOutcome r) (rError r) with
          | Some err => Some err
          | None => match rError r with
                    | Some e => option_map (EWrap "result error") (Error_Validate e)
                    | None => None
                    end
          end
      end
  end.

(** [ClassifyWrite]: the no-false-failure rule. *)
Definition ClassifyWrite (send : SendState) (verification : Verification) (operationError : option Error) : Outcome :=
  match verification with
  | VerifiedSucceeded => Succeeded
  | VerifiedFailed => Failed
  | _ =>
      match send with
      | SendMaybeSent | SendAccepted => Unknown
      | SendNotSent => if is_nil operationError then Unknown else Failed
      | SendRaw _ => Unknown
      end
  end.

(** ** Plans *)

Record Precondition := mkPrecondition { pcField : string; pcExpected : string; pcSource : EvidenceSource }.

Record Plan := mkPlan {
  pOperationID : string;
  pOperation : string;
  pTarget : Target;
  pTargets : list Target;
  pPath : Path;
  pRisk : Risk;
  pRetrySafety : RetrySafety;
  pSummary : string;
  pPreconditions : list Precondition
}.

#[export] Instance zero_Plan : Zero Plan :=
  mkPlan "" "" zero [] (PathRaw "") (RiskRaw "") (RetrySafetyRaw "") "" [].

Definition crossGroupOperation (operation : string) : bool :=
  (operation ==s "reload") || (operation ==s "restart") || (operation ==s "reinit") ||
  (operation ==s "flush") || (operation ==s "demote-cluster") || (operation ==s "promote-cluster").

Definition crossGroupBatch (operation : string) (planTarget target : Target) : bool :=
  crossGroupOperation operation && is_nil (tGroup planTarget) && negb (is_nil (tGroup target)) &&
  (tContext target ==s tContext planTarget) && (tNamespace target ==s tNamespace planTarget) &&
  (tScope target ==s tScope planTarget).

Definition plan_target_error (operation : string) (planTarget target : Target) : option goerror :=
  match Target_Validate target true with
  | Some err => Some (EWrap "plan member target" err)
  | None =>
      if tMember target ==s "" then Some (EText "plan member target requires a member")
      else if (ClusterID target !=s ClusterID planTarget) && negb (crossGroupBatch operation planTarget target)
      then Some (EText "plan member target belongs to another cluster")
      else None
  end.

(** The target loop; [seen] holds the identities met so far. *)
Fixpoint plan_targets_error (operation : string) (planTarget : Target) (seen : list string)
    (targets : list Target) : option goerror :=
  match targets with
  | [] => None
  | target :: rest =>
      let target := Normalize target in
      match plan_target_error operation planTarget target with
      | Some err => Some err
      | None =>
          if bool_decide (MemberID target ∈ seen)
          then Some (EText "plan member targets contain a duplicate")
          else plan_targets_error operation planTarget (MemberID target :: seen) rest
      end
  end.

Definition precondition_error (p : Precondition) : option goerror :=
  if (pcField p ==s "") || bool_decide (pcSource p = EvidenceRaw "")
  then Some (EText "plan precondition field and source are required") else None.

Definition Plan_Validate (p : Plan) : option goerror :=
  if (pOperationID p ==s "") || (pOperation p ==s "") || (pSummary p ==s "")
  then Some (EText "plan operation ID, operation, and summary are required")
  else if negb (Path_valid (pPath p)) then Some (EText "plan path is invalid")
  else if negb (Risk_valid (pRisk p)) then Some (EText "plan risk is invalid")
  else if negb (RetrySafety_valid (pRetrySafety p)) then Some (EText "plan retry safety is invalid")
  else match Target_Validate (pTarget p) true with
  | Some err => Some (EWrap "plan target" err)
  | None =>
      if ((pOperation p ==s "restart") || (pOperation p ==s "reload")) && (tMember (pTarget p) ==s "")
         && is_nil (head (pTargets p))
      then Some (EText "plan operation requires a member target")
      else match plan_targets_error (pOperation p) (Normalize (pTarget p)) [] (pTargets p) with
           | Some err => Some err
           | None => first_error precondition_error (pPreconditions p)
           end
  end.

(** [expectedPrecondition] *)
Definition expectedPrecondition (p : Plan) (field : string) : option string :=
  option_map pcExpected (find_first (λ c, pcField c ==s field) (pPreconditions p)).

(** The value alone, [value, _ := expectedPrecondition(...)]. *)
Definition plannedValue (p : Plan) (field : string) : string := deref "" (expectedPrecondition p field).

(** The loop over a table of expected fields.  Go ranges over a map in random
    order; only the text of the error depends on it. *)
Definition fields_match (p : Plan) (expected : list (string * string)) : bool :=
  forallb (λ fv, bool_decide (expectedPrecondition p fv.1 = Some fv.2)) expected.

(** The loop of the request-precondition validators: [citus.groups] only has
    to be present. *)
Definition preconditions_match (p : Plan) (expected : list Precondition) : bool :=
  forallb (λ c, match expectedPrecondition p (pcField c) with
                | None => false
                | Some v => (pcField c ==s "citus.groups") || (v ==s pcExpected c)
                end) expected.

(** ** The service

    The injected collaborators are calls; the service record keeps whether each
    optional one is present, the clock reading the operation stamps its
    evidence with, and the immutable policy. *)

Record Service := mkService {
  svcPatroni : bool;                 (* service.patroni != nil *)
  svcDiscovery : bool;
  svcConfigDCS : bool;
  svcFailoverDCS : bool;
  svcRemoverDCS : bool;
  svcPlanKey : string;               (* 32 random bytes *)
  svcNow : Time;                     (* service.now() *)
  svcVerificationAttempts : nat;
  svcStandbyVerificationAttempts : nat;
  svcSupportedPatroniRange : VersionRange;
  svcPostgres : bool;
  svcProductVersion : string
}.

(** [service.operationID] and [randomOperationID]. *)
Definition randomOperationID : prog string :=
  value ← do_call CRandomBytes; mret ("patroni-operation-" +:+ value).

Definition operationID : prog string :=
  value ← do_call CNewOperationID;
  if TrimSpace value !=s "" then mret (TrimSpace value) else randomOperationID.

(** [operationID := strings.TrimSpace(plan.OperationID)], or a new one. *)
Definition planOperationID (plan : Plan) : prog string :=
  if TrimSpace (pOperationID plan) ==s "" then operationID else mret (TrimSpace (pOperationID plan)).

(** The numeric policy of [ServiceOptions] and [NewService]. *)
Record ServiceOptions := mkServiceOptions {
  optVerificationAttempts : Z;
  optStandbyVerificationAttempts : Z;
  optSupportedPatroniRange : option VersionRange;
  optProductVersion : string
}.

Record Collaborators := mkCollaborators {
  hasSnapshots : bool;
  hasPatroni : bool;
  hasDiscovery : bool;
  hasConfig : bool;
  hasFailover : bool;
  hasRemover : bool;
  hasPostgres : bool
}.

(** [planKey] is what [rand.Read] gave, [None] when it failed; [buildVersion]
    is the version the binary was linked with. *)
Definition NewService (buildVersion : string) (have : Collaborators) (planKey : option string) (now : Time)
    (options : ServiceOptions)
    : goerror + Service :=
  if negb (hasSnapshots have) then inl (EText "control service requires a DCS snapshot reader")
  else match planKey with
  | None => inl (EText "control service could not initialize plan binding")
  | Some key =>
      let attempts := if (optVerificationAttempts options <=? 0)%Z then 3%Z
                      else optVerificationAttempts options in
      let standby := if (optStandbyVerificationAttempts options <=? 0)%Z
                     then if (0 <? optVerificationAttempts options)%Z then attempts else 31%Z
                     else optStandbyVerificationAttempts options in
      let service r := mkService (hasPatroni have) (hasDiscovery have) (hasConfig have) (hasFailover have)
                         (hasRemover have) key now (Z.to_nat attempts) (Z.to_nat standby) r (hasPostgres have)
                         (if TrimSpace (optProductVersion options) ==s "" then buildVersion
                          else TrimSpace (optProductVersion options)) in
      match optSupportedPatroniRange options with
      | None => inr (service AuditedPatroniRange)
      | Some r =>
          match VersionRange_Validate r with
          | Some err => inl (EWrap "control service Patroni version range" err)
          | None => inr (service r)
          end
      end
  end.

(** [service.planToken]: the domain and the JSON text of the material, under
    the service's key. *)
Definition token_prefix (domain : string) : string :=
  "go-patroni/control/" +:+ domain +:+ String (byte 0) "".

Definition planToken `{GoStd} (service : Service) (domain : string) (encoded : option string) : option string :=
  option_map (λ text, hmac_sha256 (svcPlanKey service) (token_prefix domain +:+ text)) encoded.

(** [sha256.Size*2] *)
Definition token_length (token : string) : bool := (String.length token =? 64)%nat.

Definition reflectStringSlices (left right : list string) : bool := bool_decide (left = right).

(** [errors.Join] *)
Definition errors_Join (errs : list (option goerror)) : option goerror :=
  match omap id errs with [] => None | errs => Some (EJoin errs) end.

(** [cause := err; if ctx.Err() != nil { cause = errors.Join(err, ctx.Err()) }] *)
Definition cause_with_context (err : option goerror) : prog (option goerror) :=
  cancelled ← do_call CCtxErr;
  if is_nil cancelled then mret err
  else again ← do_call CCtxErr; mret (errors_Join [err; again]).

(** ** The version gate, [control/version_gate.go] *)

Definition patroniVersionRange (service : Service) : VersionRange :=
  if (vMajor (rangeMax (svcSupportedPatroniRange service)) =? 0)%Z then AuditedPatroniRange
  else svcSupportedPatroniRange service.

Definition supportedPatroniRangeText (service : Service) : string :=
  VersionRange_String (patroniVersionRange service).

Definition checkPatroniVersion (service : Service) (version : string) : option goerror :=
  match ParseVersion (TrimSpace version) with
  | inl _ => Some (EWrap "invalid Patroni version" EUnsupportedPatroniVersion)
  | inr parsed =>
      if VersionRange_Contains (patroniVersionRange service) parsed then None
      else Some (EWrap (Version_String parsed +:+ " is outside " +:+ supportedPatroniRangeText service)
                       EUnsupportedPatroniVersion)
  end.

Definition member_version (member : Member) : string := TrimSpace (mdPatroniVersion (mbData member)).

Definition checkMemberVersion (service : Service) (member : Member) : option goerror :=
  if member_version member ==s ""
  then Some (EWrap ("member " +:+ mbName member +:+ " has no version") EUnsupportedPatroniVersion)
  else option_map (EWrap ("member " +:+ mbName member +:+ " reports " +:+ member_version member))
                  (checkPatroniVersion service (member_version member)).

Definition checkSnapshotPatroniVersion (service : Service) (snapshot : Snapshot) (allow : bool) : option goerror :=
  if allow then None else first_error (checkMemberVersion service) (csMembers (snCluster snapshot)).

Definition checkSnapshotKnownPatroniVersion (service : Service) (snapshot : Snapshot) (allow : bool) : option goerror :=
  if allow then None
  else first_error (λ member, if member_version member ==s "" then None else checkMemberVersion service member)
                   (csMembers (snCluster snapshot)).

Definition checkMemberFeature (feature : Feature) (member : Member) : option goerror :=
  if member_version member ==s ""
  then Some (EWrap ("member " +:+ mbName member +:+ " has no version") EUnsupportedPatroniVersion)
  else match SupportsFeature (member_version member) feature with
       | inl err => Some (EWrap ("member " +:+ mbName member) err)
       | inr true => None
       | inr false => Some (EWrap ("member " +:+ mbName member +:+ " lacks the feature") EUnsupportedPatroniVersion)
       end.

Definition checkSnapshotsFeature (snapshots : list Snapshot) (feature : Feature) : option goerror :=
  first_error (λ snapshot, first_error (checkMemberFeature feature) (csMembers (snCluster snapshot))) snapshots.

(** ** Classification of errors and statuses *)

Definition classifyReadError (err : option goerror) : Category * bool :=
  if errors_Is err is_canceled then (CategoryFailed, false)
  else if errors_Is err is_deadline then (CategoryUnreachable, true)
  else match as_dcs err with
  | Some (kind, _) =>
      match kind with
      | dcsE.ErrorConfiguration => (CategoryConfig, false)
      | dcsE.ErrorAuthentication => (CategoryAuth, false)
      | dcsE.ErrorConflict => (CategoryConflict, false)
      | dcsE.ErrorCanceled => (CategoryFailed, false)
      | dcsE.ErrorDeadline | dcsE.ErrorTransport => (CategoryUnreachable, true)
      | _ => (CategoryFailed, false)
      end
  | None =>
      match as_patroni err with
      | Some (kind, _) =>
          match kind with
          | patroniE.ErrorAuthentication => (CategoryAuth, false)
          | patroniE.ErrorRequest => (CategoryConfig, false)
          | patroniE.ErrorTransport => (CategoryUnreachable, true)
          | _ => (CategoryFailed, false)
          end
      | None => (CategoryUnreachable, true)
      end
  end.

Definition classifyHTTPStatus (status : Z) : Category * bool :=
  if (status =? 401)%Z || (status =? 403)%Z then (CategoryAuth, false)
  else if (status =? 404)%Z then (CategoryNotFound, false)
  else if (status =? 409)%Z || (status =? 412)%Z then (CategoryConflict, false)
  else if (500 <=? status)%Z then (CategoryUnreachable, true)
  else (CategoryFailed, false).

(** [patroniSendState] *)
Definition patroniSendState (err : option goerror) (status : Z) : SendState :=
  if negb (status =? 0)%Z then SendAccepted
  else match as_patroni err with
       | Some (_, patroniE.DeliveryNotSent) => SendNotSent
       | Some (_, patroniE.DeliveryMaybeSent) => SendMaybeSent
       | Some (_, patroniE.DeliveryResponseReceived) => SendAccepted
       | _ => SendMaybeSent
       end.

(** [dcsSendState] *)
Definition dcsSendState (err : option goerror) (applied : bool) : SendState :=
  if is_nil err && applied then SendAccepted
  else match as_dcs err with
       | Some (_, dcsE.DeliveryNotSent) => SendNotSent
       | Some (_, dcsE.DeliveryMaybeSent) => SendMaybeSent
       | Some (_, dcsE.DeliveryResponseReceived) => SendAccepted
       | _ => if has_conflict err then SendNotSent else SendMaybeSent
       end.

(** ** Constructors of results and evidence *)

Definition snapshotEvidence (service : Service) (snapshot : Snapshot) (summary : string) : Evidence :=
  mkEvidence EvidenceDCS (svcNow service) summary (FormatInt (snRevision snapshot)) (snPrefix snapshot) (SendRaw "").

Definition evidenceSourceForPath (path : Path) : EvidenceSource :=
  match path with
  | PathREST => EvidencePatroni
  | PathPostgres => EvidencePostgres
  | PathLocal => EvidenceLocal
  | _ => EvidenceDCS
  end.

Definition failedReadWithEvidence {T} `{Zero T} (service : Service) (operationID operation : string)
    (target : Target) (path : Path) (category : Category) (retryable : bool) (message : string)
    (cause : option goerror) (evidence : list Evidence) : Result T :=
  let evidence := match evidence with
                  | [] => [mkEvidence (evidenceSourceForPath path) (svcNow service) message ""
                                      (Path_text path) (SendRaw "")]
                  | _ => evidence
                  end in
  mkResult operationID Failed (Normalize target) path zero evidence
           (Some (NewError category operation target retryable message cause evidence)).

(** [failedRead] is the variadic form of [failedReadWithEvidence]. *)
Definition failedRead {T} `{Zero T} (service : Service) (operationID operation : string)
    (target : Target) (path : Path) (category : Category) (retryable : bool) (message : string)
    (cause : option goerror) (evidence : list Evidence) : Result T :=
  failedReadWithEvidence service operationID operation target path category retryable message cause evidence.

Definition unsupportedVersionResult {T} `{Zero T} (service : Service) (operationID operation : string)
    (target : Target) (path : Path) (snapshot : Snapshot) (cause : option goerror) : Result T :=
  failedRead service operationID operation target path CategoryUnsupported false
    (operation +:+ " requires Patroni " +:+ supportedPatroniRangeText service) cause
    [snapshotEvidence service snapshot "Patroni compatibility range checked before operation"].

(** ** Member results *)

Record MemberWriteResult := mkMemberWriteResult {
  mwTarget : Target;
  mwOutcome : Outcome;
  mwSendState : SendState;
  mwVerification : Verification;
  mwHTTPStatus : Z;
  mwSummary : string;
  mwEvidence : list Evidence;
  mwError : option Error
}.

Definition MemberWriteResult_Validate (r : MemberWriteResult) : option goerror :=
  match Target_Validate (mwTarget r) true with
  | Some err => Some (EWrap "member write target" err)
  | None =>
      if tMember (mwTarget r) ==s "" then Some (EText "member write target requires a member")
      else if negb (SendState_validOrEmpty (mwSendState r)) || SendState_empty (mwSendState r)
      then Some (EText "member write send state is invalid")
      else if negb (Verification_valid (mwVerification r)) then Some (EText "member write verification is invalid")
      else if (mwSummary r ==s "") || is_nil (head (mwEvidence r))
      then Some (EText "member write summary and evidence are required")
      else match first_error Evidence_Validate (mwEvidence r) with
      | Some err => Some err
      | None =>
          match mwOutcome r with
          | Succeeded =>
              if negb (is_nil (mwError r)) || negb (bool_decide (mwVerification r = VerifiedSucceeded))
              then Some (EText "successful member write requires verified success without error") else None
          | Failed =>
              match mwError r with
              | None => Some (EText "failed member write requires a definite error")
              | Some e => if bool_decide (errCategory e = CategoryUnknown)
                             || negb (bool_decide (mwVerification r = VerifiedFailed))
                          then Some (EText "failed member write requires a definite error") else None
              end
          | Unknown =>
              match mwError r with
              | Some e => if bool_decide (errCategory e = CategoryUnknown) then None
                          else Some (EText "unknown member write requires an UNKNOWN error")
              | None => Some (EText "unknown member write requires an UNKNOWN error")
              end
          | OutcomeRaw _ => Some (EText "member write outcome is invalid")
          end
      end
  end.

(** A member write that was definitely not sent. *)
Definition memberFailed (target : Target) (send : SendState) (status : Z) (summary : string)
    (evidence : Evidence) (e : Error) : MemberWriteResult :=
  mkMemberWriteResult target Failed send VerifiedFailed status summary [evidence] (Some e).

(** [normalizeMemberNames] *)
Definition normalizeMemberNames (input : list string) : list string :=
  sort_strings (remove_dups (filter (λ n, n ≠ "") (TrimSpace <$> input))).

(** [normalizedWriteRole] *)
Definition normalizedWriteRole (role : Role) : Role := if Role_empty role then RoleAny else role.

Record BatchWriteData := mkBatchWriteData { bwMembers : list MemberWriteResult }.

#[export] Instance zero_BatchWriteData : Zero BatchWriteData := mkBatchWriteData [].

(** ** Predicates of the theorems *)

Definition good_evidence (e : Evidence) : Prop := Evidence_Validate e = None.

(** Evidence a result may carry: some, all of it valid. *)
Definition good_log (l : list Evidence) : Prop := l ≠ [] ∧ Forall good_evidence l.

(** A category that states a definite failure. *)
Definition definite (c : Category) : Prop := validCategories c = true ∧ c ≠ CategoryUnknown.

Definition definite_class (class : Category * bool) : Prop := definite class.1.

(** A clock that has been read. *)
Definition clock_set (service : Service) : Prop := IsZero (svcNow service) = false.

(** ** What a call may have done

    The statuses by which an endpoint reports that it accepted a write. *)
Definition accepting_status (c : call) (status : Z) : bool :=
  match c with
  | CPatchConfig _ _ | CDeleteSwitchover _ => (status =? 200)%Z
  | CDeleteRestart _ | CPostReinitialize _ _ _ => (0 <? status)%Z && (status <? 400)%Z
  | _ => (status =? 200)%Z || (status =? 202)%Z
  end.

(** A REST write without a status may have been applied unless the transport
    states that it was not sent; with a status, the endpoint decides. *)
Definition rest_may_apply (c : call) (r : RESTResponse * option goerror) : bool :=
  if (rsStatusCode r.1 =? 0)%Z
  then match as_patroni r.2 with Some (_, patroniE.DeliveryNotSent) => false | _ => true end
  else accepting_status c (rsStatusCode r.1).

(** A DCS write may have been applied unless it was not sent or its comparison
    failed. *)
Definition dcs_may_apply (r : WriteResult * option goerror) : bool :=
  match r.2 with
  | None => true
  | err => negb (has_conflict err || match as_dcs err with Some (_, dcsE.DeliveryNotSent) => true | _ => false end)
  end.

(** So does the deletion of a cluster, which compares nothing. *)
Definition remove_may_apply (r : RemoveResult * option goerror) : bool :=
  match as_dcs r.2 with Some (_, dcsE.DeliveryNotSent) => false | _ => true end.

Definition may_have_applied (e : event) : bool :=
  match e with
  | Ev c r =>
      match c return reply c → bool with
      | CPostFailover _ _ as c | CPostSwitchover _ _ as c | CDeleteSwitchover _ as c | CPatchConfig _ _ as c
      | CPostReload _ as c | CPostRestart _ _ as c | CDeleteRestart _ as c | CPostReinitialize _ _ _ as c =>
          λ r, rest_may_apply c r
      | CWriteFailover _ _ _ | CDeleteFailover _ _ | CCompareAndSwapConfig _ _ _ => λ r, dcs_may_apply r
      | CDeleteCluster _ => λ r, remove_may_apply r
      | CQueryChecked _ _ _ => λ _, true
      | _ => λ _, false
      end r
  end.

(** Nothing in the history may have changed the cluster. *)
Definition quiet (e : event) : Prop := may_have_applied e = false.

(** ** Lemmas: texts *)

Lemma app_not_empty_l s t : s ≠ "" → s +:+ t ≠ "".
Proof. by destruct s. Qed.

Lemma app_not_empty_r s t : t ≠ "" → s +:+ t ≠ "".
Proof. by destruct s. Qed.

#[export] Hint Extern 1 (_ +:+ _ ≠ "") => apply app_not_empty_r; discriminate : go.
#[export] Hint Extern 2 (_ +:+ _ ≠ "") => apply app_not_empty_l; discriminate : go.
#[export] Hint Extern 1 (String _ _ ≠ "") => discriminate : go.
#[export] Hint Extern 3 (_ +:+ _ ≠ "") => progress repeat apply app_not_empty_r : go.

(** ** Lemmas: validation loops *)

Lemma first_error_None {A} (validate : A → option goerror) l :
  first_error validate l = None ↔ Forall (λ x, validate x = None) l.
Proof.
  unfold first_error. induction l as [|x l IH]; cbn; [split; by constructor|].
  rewrite Forall_cons. destruct (validate x) eqn:E; cbn; [|tauto].
  split; [done|]. by intros [? _].
Qed.

Lemma good_evidence_iff e :
  good_evidence e ↔ EvidenceSource_valid (evSource e) = true ∧ IsZero (evObservedAt e) = false ∧
                    evSummary e ≠ "" ∧ SendState_validOrEmpty (evSendState e) = true.
Proof.
  unfold good_evidence, Evidence_Validate.
  destruct (EvidenceSource_valid _), (IsZero _), (String.eqb_spec (evSummary e) ""), (SendState_validOrEmpty _);
    cbn; intuition congruence.
Qed.

Lemma good_mkEvidence service source summary revision path send :
  clock_set service → EvidenceSource_valid source = true → summary ≠ "" → SendState_validOrEmpty send = true →
  good_evidence (mkEvidence source (svcNow service) summary revision path send).
Proof. intros. by apply good_evidence_iff. Qed.

Lemma good_snapshotEvidence service snapshot summary :
  clock_set service → summary ≠ "" → good_evidence (snapshotEvidence service snapshot summary).
Proof. intros. by apply good_mkEvidence. Qed.

#[export] Hint Resolve good_mkEvidence good_snapshotEvidence : go.

Lemma good_log_app l k : good_log l → Forall good_evidence k → good_log (l ++ k).
Proof. intros [? ?] ?. split; [by destruct l|by apply Forall_app]. Qed.

Lemma good_log_singleton e : good_evidence e → good_log [e].
Proof. intros. split; [done|]. by repeat constructor. Qed.

Lemma good_log_Forall l : good_log l → Forall good_evidence l.
Proof. by intros [_ ?]. Qed.

#[export] Hint Resolve good_log_app good_log_singleton good_log_Forall : go.
#[export] Hint Resolve Forall_nil_2 Forall_cons_2 Forall_app_2 : go.

(** ** Lemmas: classifiers *)

Lemma patroniSendState_valid err status : SendState_validOrEmpty (patroniSendState err status) = true.
Proof. unfold patroniSendState. repeat case_match; done. Qed.

Lemma dcsSendState_valid err applied : SendState_validOrEmpty (dcsSendState err applied) = true.
Proof. unfold dcsSendState. repeat case_match; done. Qed.

Lemma patroniSendState_not_empty err status : SendState_empty (patroniSendState err status) = false.
Proof. unfold patroniSendState. repeat case_match; done. Qed.

#[export] Hint Resolve patroniSendState_valid dcsSendState_valid patroniSendState_not_empty : go.

Lemma classifyReadError_definite err : definite_class (classifyReadError err).
Proof. unfold classifyReadError, definite_class, definite. repeat case_match; done. Qed.

Lemma classifyHTTPStatus_definite status : definite_class (classifyHTTPStatus status).
Proof. unfold classifyHTTPStatus, definite_class, definite. repeat case_match; done. Qed.

#[export] Hint Resolve classifyReadError_definite classifyHTTPStatus_definite : go.

(** An HTTP status settles the send state. *)
Lemma patroniSendState_status err status : status ≠ 0%Z → patroniSendState err status = SendAccepted.
Proof. intros H. unfold patroniSendState. by apply Z.eqb_neq in H as ->. Qed.

Lemma read_only_quiet e : read_only e → quiet e.
Proof. destruct e as [[] r]; done. Qed.

#[export] Hint Resolve read_only_quiet : go.

Lemma Forall_read_only_quiet tr : Forall read_only tr → Forall quiet tr.
Proof. intros H. eapply Forall_impl; [exact H|apply read_only_quiet]. Qed.

(** A send state of [NOT_SENT] is only reported for a write that was not sent. *)
Lemma patroniSendState_NotSent err status c response :
  patroniSendState err status = SendNotSent → rsStatusCode response = status →
  rest_may_apply c (response, err) = false.
Proof.
  unfold patroniSendState, rest_may_apply. cbn. intros H ->.
  destruct (status =? 0)%Z eqn:E; cbn in H; [|done]. repeat case_match; done.
Qed.

Lemma dcsSendState_NotSent err applied w :
  err ≠ None → dcsSendState err applied = SendNotSent → dcs_may_apply (w, err) = false.
Proof.
  unfold dcsSendState, dcs_may_apply. destruct err as [e|]; [|done]. intros _.
  cbn [is_nil andb snd]. destruct (as_dcs (Some e)) as [[? []]|], (has_conflict (Some e)); done.
Qed.

Lemma conflict_not_applied err w : has_conflict err = true → dcs_may_apply (w, err) = false.
Proof. unfold dcs_may_apply. cbn [snd]. intros H. destruct err; [by rewrite H|done]. Qed.

(** ** Lemmas: results *)

Lemma Error_Validate_NewError category operation target retryable message cause evidence :
  validCategories category = true → operation ≠ "" → message ≠ "" → Forall good_evidence evidence →
  Error_Validate (NewError category operation target retryable message cause evidence) = None.
Proof.
  intros Hc Ho Hm He. unfold Error_Validate, NewError. cbn.
  apply String.eqb_neq in Ho, Hm. rewrite Hc, Ho, Hm. cbn.
  by rewrite (proj2 (first_error_None _ _) He).
Qed.

Lemma Result_Validate_intro {T} (r : Result T) :
  rOperationID r ≠ "" → Target_Validate (rTarget r) true = None → Path_valid (rPath r) = true →
  good_log (rEvidence r) → outcome_error (rOutcome r) (rError r) = None →
  (∀ e, rError r = Some e → Error_Validate e = None) → Result_Validate r = None.
Proof.
  intros Hid Ht Hp [Hne He] Ho Her. unfold Result_Validate.
  apply String.eqb_neq in Hid. rewrite Hid, (Target_Validate_weaken _ _ Ht), Hp. cbn.
  rewrite (proj2 (first_error_None _ _) He), Ho. destruct (rEvidence r); [done|]. cbn.
  destruct (rError r) as [err|]; [|done]. by rewrite (Her err).
Qed.

Section results.
Context {T : Type} (operationID : string) (target : Target) (path : Path) (data : T) (evidence : list Evidence).
Context (Hid : operationID ≠ "") (Ht : Target_Validate target true = None) (Hp : Path_valid path = true)
  (He : good_log evidence).

Lemma valid_success : Result_Validate (mkResult operationID Succeeded target path data evidence None) = None.
Proof using All. by apply Result_Validate_intro. Qed.

Lemma valid_failed category operation retryable message cause :
  definite category → operation ≠ "" → message ≠ "" →
  Result_Validate (mkResult operationID Failed target path data evidence
    (Some (NewError category operation target retryable message cause evidence))) = None.
Proof using All.
  intros [Hc Hn] Ho Hm. apply Result_Validate_intro; try done.
  - cbn. by rewrite (bool_decide_eq_false_2 _ Hn).
  - intros e [= <-]. apply Error_Validate_NewError; [done..|apply He].
Qed.

Lemma valid_unknown operation retryable message cause :
  operation ≠ "" → message ≠ "" →
  Result_Validate (mkResult operationID Unknown target path data evidence
    (Some (NewError CategoryUnknown operation target retryable message cause evidence))) = None.
Proof using All.
  intros Ho Hm. apply Result_Validate_intro; try done.
  intros e [= <-]. apply Error_Validate_NewError; [done..|apply He].
Qed.
End results.

Lemma valid_failedRead {T} `{Zero T} service operationID operation target path category retryable message cause evidence :
  clock_set service → operationID ≠ "" → Target_Validate target true = None → Path_valid path = true →
  definite category → operation ≠ "" → message ≠ "" → Forall good_evidence evidence →
  Result_Validate (failedReadWithEvidence (T := T) service operationID operation target path category retryable
                     message cause evidence) = None.
Proof.
  intros Hs Hid Ht Hp [Hc Hn] Ho Hm He. unfold failedReadWithEvidence.
  set (log := match evidence with [] => _ | _ => _ end).
  assert (good_log log) as Hlog.
  { subst log. destruct evidence; [|by split]. apply good_log_singleton, good_mkEvidence; try done.
    by destruct path. }
  apply Result_Validate_intro; cbn; try done.
  - by rewrite Target_Validate_Normalize.
  - by rewrite (bool_decide_eq_false_2 _ Hn).
  - intros e [= <-]. apply Error_Validate_NewError; [done..|apply Hlog].
Qed.

Lemma valid_unsupported {T} `{Zero T} service operationID operation target path snapshot cause :
  clock_set service → operationID ≠ "" → Target_Validate target true = None → Path_valid path = true →
  operation ≠ "" →
  Result_Validate (unsupportedVersionResult (T := T) service operationID operation target path snapshot cause) = None.
Proof.
  intros. apply valid_failedRead; try done; [by apply app_not_empty_l|].
  apply Forall_singleton. by apply good_snapshotEvidence.
Qed.

(** ** Lemmas: operation identifiers *)

Lemma randomOperationID_spec : wp_all read_only randomOperationID (λ id, id ≠ "").
Proof. unfold randomOperationID. go_wp. by apply app_not_empty_l. Qed.

Lemma operationID_spec : wp_all read_only operationID (λ id, id ≠ "").
Proof.
  unfold operationID. apply wp_all_call. intros value. split; [done|].
  destruct (String.eqb_spec (TrimSpace value) ""); cbn [negb]; [|by apply wp_all_ret].
  apply randomOperationID_spec.
Qed.

Lemma planOperationID_spec plan : wp_all read_only (planOperationID plan) (λ id, id ≠ "").
Proof.
  unfold planOperationID. destruct (String.eqb_spec (TrimSpace (pOperationID plan)) ""); [|by apply wp_all_ret].
  apply operationID_spec.
Qed.

Lemma cause_with_context_spec err : wp_all read_only (cause_with_context err) (λ _, True).
Proof. unfold cause_with_context. go_wp; done. Qed.
