(* ===== verification/Readback.v ===== *)
(** * Readback: the verification loops of the control package

    Every write whose answer does not settle it is read back from the DCS:
    [service.verificationAttempts] snapshots at most, a wait before each but
    the first, until one shows the requested state.  The loops of
    [verifyTransitionFallback], [verifyScheduledRestart], [verifyRestartFlush],
    [verifySwitchoverFlush], [verifyPauseState], [verifyRemove] and
    [verifyEditConfig] differ in the texts, in what they look for in a snapshot
    and in what they remember of the last one. *)

From S2P Require Import Prelude GoStrings GoErrors GoTime Target Version Values Json Dcs.
From S2P Require Import Effects Contract.

(** What a loop looks for; [rdInspect] gives what it remembers of the snapshot
    and whether the snapshot settles it. *)
Record Reading (A : Type) := mkReading {
  rdCanceled : string;
  rdFailed : string;
  rdInspect : Snapshot → A * bool;
  rdSummary : bool → string
}.

#[global] Arguments mkReading {A} _ _ _ _.
#[global] Arguments rdCanceled {A} _.
#[global] Arguments rdFailed {A} _.
#[global] Arguments rdInspect {A} _ _.
#[global] Arguments rdSummary {A} _ _.

(** Verified, what was remembered, evidence. *)
Definition verdict (A : Type) : Type := (bool * A * list Evidence)%type.

Fixpoint readback_loop {A} (service : Service) (target : Target) (reading : Reading A) (attempts : nat)
    (first : bool) (state : A) (evidence : list Evidence) : prog (verdict A) :=
  match attempts with
  | O => mret (false, state, evidence)
  | S attempts =>
      let note source summary := mkEvidence source (svcNow service) summary "" (Path_text PathDCS) (SendRaw "") in
      waited ← waitUnless first;
      match waited with
      | Some _ => mret (false, state, evidence ++ [note EvidenceControl (rdCanceled reading)])
      | None =>
          r ← do_call (CSnapshot target);
          match r with
          | inl _ =>
              readback_loop service target reading attempts false state
                (evidence ++ [note EvidenceDCS (rdFailed reading)])
          | inr snapshot =>
              let '(state, matched) := rdInspect reading snapshot in
              let evidence := evidence ++ [snapshotEvidence service snapshot (rdSummary reading matched)] in
              if (matched : bool) then mret (true, state, evidence)
              else readback_loop service target reading attempts false state evidence
          end
      end
  end.

Definition readback {A} (service : Service) (target : Target) (reading : Reading A) (state : A)
    : prog (verdict A) :=
  readback_loop service target reading (svcVerificationAttempts service) true state [].

(** ** What a readback shows *)

(** A snapshot of [target] with [P] was read. *)
Definition observed (target : Target) (P : Snapshot → bool) (tr : list event) : Prop :=
  ∃ snapshot, Ev (CSnapshot target) (inr snapshot) ∈ tr ∧ P snapshot = true.

Definition good_texts {A} (reading : Reading A) : Prop :=
  rdCanceled reading ≠ "" ∧ rdFailed reading ≠ "" ∧ ∀ matched, rdSummary reading matched ≠ "".

Definition readback_post {A} (service : Service) (target : Target) (reading : Reading A) (tr : list event)
    (v : verdict A) : Prop :=
  Forall read_only tr ∧ (clock_set service → good_texts reading → Forall good_evidence v.2) ∧
  (v.1.1 = true → observed target (λ s, (rdInspect reading s).2) tr).

Lemma observed_app target P pre tr : observed target P tr → observed target P (pre ++ tr).
Proof. intros (s & Hin & Hs). exists s. split; [|done]. apply elem_of_app. by right. Qed.

Lemma observed_existsb target P f tr :
  observed target P tr → (∀ s, P s = true → f (Ev (CSnapshot target) (inr s)) = true) → existsb f tr = true.
Proof.
  intros (s & Hin & Hs) Hf. apply List.existsb_exists. eexists. split; [by apply list_elem_of_In|auto].
Qed.

Section lemmas.
Context {A : Type} (service : Service) (target : Target) (reading : Reading A).

Lemma readback_loop_spec attempts first state evidence :
  (clock_set service → good_texts reading → Forall good_evidence evidence) →
  wp (readback_loop service target reading attempts first state evidence) (readback_post service target reading).
Proof using Type.
  revert first state evidence. induction attempts as [|n IH]; intros first state evidence He; cbn [readback_loop];
    [by split; [constructor|]|]. cbv zeta.
  apply wp_bind. eapply wp_mono; [|apply waitUnless_spec]. cbn. intros pre waited [Hpre _].
  assert (∀ e, (clock_set service → good_texts reading → good_evidence e) →
            clock_set service → good_texts reading → Forall good_evidence (evidence ++ [e])) as Hadd
    by (intros; apply Forall_app; split; [auto|apply Forall_singleton; auto]).
  destruct waited as [err|].
  { split; [by rewrite app_nil_r|]. split; [|done]. apply Hadd. intros ? (? & ? & ?). by apply good_mkEvidence. }
  assert (∀ r state evidence, (clock_set service → good_texts reading → Forall good_evidence evidence) →
    wp (readback_loop service target reading n false state evidence)
       (λ tr, readback_post service target reading (pre ++ Ev (CSnapshot target) r :: tr))) as Hnext.
  { intros. eapply wp_mono; [|by apply IH]. cbn. intros tr v (Htr & Hev & Hv). split; [|split; [done|]].
    - apply Forall_app. split; [done|]. by constructor.
    - intros Hm. apply observed_app, (observed_app _ _ [_]). auto. }
  apply wp_call. intros [err|s].
  { apply Hnext, Hadd. intros ? (? & ? & ?). by apply good_mkEvidence. }
  destruct (rdInspect reading s) as [state' matched] eqn:Ei.
  assert (clock_set service → good_texts reading →
    Forall good_evidence (evidence ++ [snapshotEvidence service s (rdSummary reading matched)])) as Hev
    by (apply Hadd; intros ? (? & ? & ?); by apply good_snapshotEvidence).
  destruct matched; [|by apply Hnext].
  split; [apply Forall_app; split; [done|by repeat constructor]|]. split; [done|]. intros _.
  exists s. split; [apply elem_of_app; right; apply list_elem_of_here|]. by rewrite Ei.
Qed.

Lemma readback_spec state : wp (readback service target reading state) (readback_post service target reading).
Proof using Type. by apply readback_loop_spec. Qed.

(** The readback alone, when only its evidence matters. *)
Lemma readback_read state :
  clock_set service → good_texts reading →
  wp_all read_only (readback service target reading state) (λ v, Forall good_evidence v.2).
Proof using Type.
  intros. eapply wp_mono; [|apply readback_spec]. intros tr v (Htr & Hev & _). auto.
Qed.
End lemmas.

(** ** What a readback finds

    Liveness: the loop is bounded, so it finds the requested state when the
    cluster shows it early enough and nobody cancels it. *)

Definition uncancelled (e : event) : Prop :=
  match e with
  | Ev c r =>
      match c return reply c → Prop with
      | CCtxErr | CWait => λ r, r = None
      | _ => λ _, True
      end r
  end.

(** The snapshots read since the last write. *)
Definition reads_step (acc : list (goerror + Snapshot)) (e : event) : list (goerror + Snapshot) :=
  match e with
  | Ev c r =>
      match c return reply c → list (goerror + Snapshot) with
      | CSnapshot _ => λ r, acc ++ [r]
      | c => λ _, if is_write c then [] else acc
      end r
  end.

Definition reads_after (tr : list event) : list (goerror + Snapshot) := foldl reads_step [] tr.

(** The [k]-th of [l], if so many were read, is a snapshot with [P]. *)
Definition shown_at (k : nat) (P : Snapshot → bool) (l : list (goerror + Snapshot)) : Prop :=
  ∀ r, l !! k = Some r → ∃ s, r = inr s ∧ P s = true.

Lemma reads_after_app tr tr' : reads_after (tr ++ tr') = foldl reads_step (reads_after tr) tr'.
Proof. apply foldl_app. Qed.

Lemma reads_step_write acc e : is_write (ev_call e) = true → reads_step acc e = [].
Proof. destruct e as [c r]. by destruct c. Qed.

Lemma foldl_reads_read_only acc tr : Forall read_only tr → foldl reads_step acc tr = acc ++ reads_after tr.
Proof.
  unfold reads_after. intros Htr. revert acc.
  assert (∀ acc, foldl reads_step acc tr = acc ++ foldl reads_step [] tr) as H; [|done].
  induction Htr as [|[c r] tr Hc _ IH]; intros acc; cbn [foldl]; [by rewrite app_nil_r|].
  rewrite IH, (IH (reads_step [] _)), app_assoc. f_equal.
  destruct c; cbn in *; try discriminate Hc; by rewrite ?app_nil_r.
Qed.

Lemma shown_at_app k P l l' : shown_at k P (l ++ l') → shown_at k P l.
Proof. intros H r Hr. apply H. by apply lookup_app_l_Some. Qed.

Section finding.
Context {A : Type} (service : Service) (target : Target) (reading : Reading A).

(** The snapshots of [tr] show by the [k]-th what is looked for, so [v] says it
    was found. *)
Definition finds (k : nat) (tr : list event) (v : verdict A) : Prop :=
  Forall read_only tr ∧
  (Forall uncancelled tr → shown_at k (λ s, (rdInspect reading s).2) (reads_after tr) → v.1.1 = true).

Lemma finds_snapshot k r tr v :
  (∀ s, r = inr s → (rdInspect reading s).2 = false) → finds k tr v →
  finds (S k) (Ev (CSnapshot target) r :: tr) v.
Proof using Type.
  intros Hr [Htr Hv]. split; [by constructor|]. intros [_ Hu]%Forall_cons Hs. apply Hv; [done|].
  intros x Hx. apply Hs. unfold reads_after. cbn [foldl]. rewrite (foldl_reads_read_only _ tr) by done. exact Hx.
Qed.

Lemma finds_first r tr v : Forall read_only tr →
  (∀ s, r = inr s → (rdInspect reading s).2 = false) → finds 0 (Ev (CSnapshot target) r :: tr) v.
Proof using Type.
  intros Htr Hr. split; [by constructor|]. intros _ Hs. exfalso. destruct (Hs r) as (s & -> & E).
  - unfold reads_after. cbn [foldl]. by rewrite (foldl_reads_read_only _ tr).
  - by rewrite (Hr s) in E.
Qed.

Lemma readback_loop_finds attempts first state evidence k :
  wp (readback_loop service target reading attempts first state evidence)
     (λ tr v, Forall read_only tr ∧ ((k < attempts)%nat → finds k tr v)).
Proof using Type.
  revert first state evidence k. induction attempts as [|n IH]; intros first state evidence k;
    [by split; [constructor|lia]|].
  cbn [readback_loop]. cbv zeta.
  set (Q := λ tr v, Forall read_only tr ∧ ((k < S n)%nat → finds k tr v)).
  assert (∀ r state evidence, (∀ s, r = inr s → (rdInspect reading s).2 = false) →
    wp (readback_loop service target reading n false state evidence) (λ tr, Q (Ev (CSnapshot target) r :: tr))) as Hnext.
  { intros r state' evidence' Hr. destruct k as [|k].
    - eapply wp_mono; [|by apply (IH false state' evidence' 0%nat)]. intros tr v [Htr _].
      split; [by constructor|]. intros _. by apply finds_first.
    - eapply wp_mono; [|by apply (IH false state' evidence' k)]. intros tr v [Htr Hf].
      split; [by constructor|]. intros Hk. apply finds_snapshot; [done|]. apply Hf. lia. }
  match goal with |- wp (_ ≫= ?f) _ => assert (wp (f None) Q) as Hread end.
  { apply wp_call. intros [err|s]; [by apply Hnext|].
    destruct (rdInspect reading s) as [state' matched] eqn:Ei. destruct matched.
    - assert (Forall read_only [Ev (CSnapshot target) (inr s)]) as Hs by by repeat constructor.
      split; [exact Hs|]. by split; [exact Hs|].
    - apply Hnext. intros ? [= <-]. by rewrite Ei. }
  destruct first; [exact Hread|]. intros [err|].
  - assert (∀ e, Forall read_only [Ev CWait e]) as Hw by (intros e; by repeat constructor).
    split; [apply Hw|]. split; [apply Hw|].
    intros Hu. inversion Hu as [|? ? Hn _]. discriminate Hn.
  - eapply wp_mono; [|exact Hread]. intros tr v [Htr Hv]. split; [by constructor|]. intros Hk.
    destruct (Hv Hk) as [_ Hf]. split; [by constructor|]. intros [_ Hu]%Forall_cons Hs. exact (Hf Hu Hs).
Qed.

(** A readback that is not cancelled finds what the cluster shows within its
    attempts. *)
Lemma readback_finds state k :
  (k < svcVerificationAttempts service)%nat → wp (readback service target reading state) (finds k).
Proof using Type. intros Hk. eapply wp_mono; [|apply readback_loop_finds]. intros tr v [_ Hf]. exact (Hf Hk). Qed.
End finding.
