(* ===== verification/Samples.v ===== *)
(** * A small cluster for the concrete instances of the theorems

    Two members, [n1] leading, on a service that read its clock, with a
    collaborator oracle that answers every call.  The [GoStd] instance accepts
    plain [http] addresses only; no theorem depends on it. *)

From S2P Require Import Prelude GoStrings GoErrors PgTypes GoTime Target Version Values Dcs.
From S2P Require Import Effects Contract.

(** ** The standard library *)

Definition sample_parse (raw : string) : option URL :=
  if HasPrefix raw "http://" then Some (mkURL "http" false (TrimPrefix raw "http://") "" "" "" "") else None.

#[export] Instance sample_std : GoStd := {|
  url_Parse := sample_parse;
  URL_String := λ u, urlScheme u +:+ "://" +:+ urlHost u;
  URL_Hostname := urlHost;
  URL_Port := λ _, "";
  ParseFloat := λ _, None;
  ParseDuration := λ _, None;
  Sprint_float := λ _, "";
  url_CutQuery := λ s, Some (s, "");
  Query_Get := λ _ _, "";
  json_float := λ _, None;
  hmac_sha256 := λ _ _, "00112233445566778899aabbccddeeff00112233445566778899aabbccddeeff";
  Sprint_composite := λ _, ""
|}.

(** ** The cluster *)

Definition sample_target : Target := mkTarget "prod" "/service" "pg" None "".

Definition sample_data (role url : string) (scheduled : RawMessage) : MemberData :=
  mkMemberData url "" "running" role "" None None [] scheduled [] "4.0.2" None None None None [].

Definition sample_member (name role url : string) : Member :=
  mkMember name 5 0 (sample_data role url RawEmpty).

Definition sample_members : list Member :=
  [sample_member "n1" "primary" "http://n1:8008"; sample_member "n2" "replica" "http://n2:8008"].

Definition sample_cluster (leader : string) (configuration : config) (failover : option Failover) : ClusterState :=
  mkClusterState "id" configuration (Some (mkLeader leader 3 0)) sample_members failover []
    (mkStatus KeyUnknown 0 [] []) (mkSyncState 0 "" [] 0) [].

Definition sample_snapshot (cluster : ClusterState) : Snapshot :=
  mkSnapshot sample_target "/service/pg" 7 [] cluster [].

Definition steady : Snapshot := sample_snapshot (sample_cluster "n1" [] None).

(** ** The service *)

Definition sample_service : Service :=
  mkService true true true true true "key" (mkTime 63700000000 0 0) 2 2 AuditedPatroniRange true "0.1.0".

(** ** Collaborators *)

(** Every REST request is answered [rest], every DCS write [write], and a
    snapshot is [later] once something was written. *)
Definition answers (now later : Snapshot) (rest : RESTResponse * option goerror)
    (write : WriteResult * option goerror) (tr : list event) (c : call) : reply c :=
  match c return reply c with
  | CSnapshot _ => inr (if existsb (λ e, is_write (ev_call e)) tr then later else now)
  | CDiscover _ _ => inr []
  | CPostFailover _ _ | CPostSwitchover _ _ | CDeleteSwitchover _ | CPatchConfig _ _ | CPostReload _
  | CPostRestart _ _ | CDeleteRestart _ | CPostReinitialize _ _ _ => rest
  | CGetPatroni _ => (mkStatusResponse (rsStatusCode rest.1) (rsData rest.1) "4.0.2" (Some 170005%Z), rest.2)
  | CQueryChecked _ _ _ => (zero, None)
  | CWriteFailover _ _ _ | CDeleteFailover _ _ | CCompareAndSwapConfig _ _ _ => write
  | CDeleteCluster _ => (mkRemoveResult 1 8, None)
  | CCtxErr | CWait => None
  | CRandomIndex _ => (0%Z, None)
  | CNewOperationID => "op-1"
  | CRandomBytes => "00"
  end.

Definition applied : WriteResult * option goerror := (mkWriteResult true 8 None None, None).
Definition status (code : Z) : RESTResponse * option goerror := (mkResponse code "", None).

(** No HTTP answer, and no statement about delivery. *)
Definition silence : RESTResponse * option goerror := (no_response, Some (EText "timeout")).

(** The plan a preparation returns on [now]. *)
Definition prepared_plan (now : Snapshot) (p : prog (Result Plan)) : Plan :=
  rData (run (answers now now silence applied) [] p).2.
