(* ===== verification/Select.v ===== *)
(** * Member selection: the pure selectors of [control/read.go], [reload.go],
    [flush.go], [restart.go] and [citus.go] *)

From S2P Require Import Prelude GoStrings GoErrors GoTime Target Version Values Json Dcs.
From S2P Require Import Effects Contract.

Definition leader_name (cluster : ClusterState) : string :=
  match csLeader cluster with Some l => ldName l | None => "" end.

(** [strings.ReplaceAll(strings.ToLower(role), "-", "_")] *)
Definition wireRole (member : Member) : string := ReplaceByte "-" "_" (ToLower (mdRole (mbData member))).

(** [memberMatchesRole], also the switch of [selectMember]. *)
Definition memberMatchesRole (cluster : ClusterState) (member : Member) (role : Role) : bool :=
  let isLeader := mbName member ==s leader_name cluster in
  match role with
  | RoleAny => true
  | RoleLeader => isLeader
  | RolePrimary => isLeader && (wireRole member !=s "standby_leader")
  | RoleStandbyLeader => isLeader && (wireRole member !=s "primary") && (wireRole member !=s "master")
  | RoleReplica | RoleStandby => negb isLeader
  | RoleRaw _ => false
  end.

(** [selectMember] *)
Definition selectMember (cluster : ClusterState) (role : Role) (memberName : string) : option Member :=
  if memberName !=s "" then find_first (λ m, mbName m ==s memberName) (csMembers cluster)
  else let role := if Role_empty role then RoleLeader else role in
       find_first (λ m, memberMatchesRole cluster m role) (csMembers cluster).

(** [stringSet], as the list of its elements. *)
Definition stringSet (values : list string) : list string := filter (λ v, v ≠ "") (TrimSpace <$> values).

(** [selectMembers] *)
Definition selectMembers (cluster : ClusterState) (role : Role) (requested : list string)
    (selectAllWhenEmpty : bool) : list Member :=
  let requestedSet := stringSet requested in
  let keep m :=
    memberMatchesRole cluster m role &&
    match requestedSet with
    | [] => selectAllWhenEmpty
    | _ => bool_decide (mbName m ∈ requestedSet)
    end in
  sort_by mbName (List.filter keep (csMembers cluster)).

(** [leaderFirstRESTMembers] *)
Definition has_rest_address (m : Member) : bool := TrimSpace (mdAPIURL (mbData m)) !=s "".

Definition leaderFirstRESTMembers (cluster : ClusterState) : list Member :=
  let leader := leader_name cluster in
  (if leader !=s ""
   then option_list (find_first (λ m, (mbName m ==s leader) && has_rest_address m) (csMembers cluster))
   else []) ++
  List.filter (λ m, (mbName m !=s leader) && has_rest_address m) (csMembers cluster).

(** [memberTargets], [memberNamesFromTargets], [memberIDsFromTargets] *)
Definition memberTargets (target : Target) (members : list Member) : list Target :=
  (λ m, with_member target (mbName m)) <$> members.

Definition memberNamesFromTargets (targets : list Target) : list string := tMember <$> targets.
Definition memberIDsFromTargets (targets : list Target) : list string := (λ t, MemberID (Normalize t)) <$> targets.

(** [memberMap]: the last member of a name; a missing name reads as the zero
    [dcs.Member]. *)
Definition memberMap (members : list Member) : gmap string Member := map_of_list mbName members.
Definition memberMap_index (members : list Member) (name : string) : Member :=
  deref zero (memberMap members !! name).

(** [pendingRestartMembers] *)
Definition pending_restart (m : Member) : bool := deref false (mdPendingRestart (mbData m)).
Definition pendingRestartMembers (input : list Member) : list Member := List.filter pending_restart input.

(** ** Scheduled restarts *)

Record ScheduledRestart := mkScheduledRestart { srSchedule : string; srPostgresVersion : string }.

(** [decodeScheduledRestart] *)
Definition decodeScheduledRestart (raw : RawMessage) : option ScheduledRestart :=
  match raw with
  | RawJSON (VMap fields) =>
      match unmarshal_field read_string_field "schedule" "" fields,
            unmarshal_field read_string_field "postgres_version" "" fields with
      | Some schedule, Some version =>
          if schedule ==s "" then None else Some (mkScheduledRestart schedule version)
      | _, _ => None
      end
  | _ => None
  end.

Definition hasScheduledRestart (m : Member) : bool :=
  negb (is_nil (decodeScheduledRestart (mdScheduledRestart (mbData m)))).

(** [scheduledRestartMatches] *)
Definition scheduledRestartMatches (raw : RawMessage) (expected : Time) : bool :=
  match raw with
  | RawJSON (VMap fields) =>
      match unmarshal_field read_string_field "schedule" "" fields with
      | Some schedule =>
          if schedule ==s "" then false
          else match ParseRFC3339Nano schedule with
               | None => (schedule ==s FormatRFC3339Nano expected) || (schedule ==s FormatRFC3339 expected)
               | Some observed => Time_Equal observed expected
               end
      | None => false
      end
  | _ => false
  end.

(** [scheduledRestartPreconditionField] *)
Definition scheduledRestartPreconditionField (target : Target) : string :=
  let target := Normalize target in
  match tGroup target with
  | None => "member." +:+ tMember target +:+ ".scheduledRestart"
  | Some _ => "member." +:+ MemberID target +:+ ".scheduledRestart"
  end.

(** ** Groups, [control/citus.go] *)

Definition snapshotGroupIDs (snapshots : list Snapshot) : string :=
  Join (FormatInt <$> omap (λ s, tGroup (snTarget s)) snapshots) ",".

Record resolvedPlannedMember := mkResolved { rmTarget : Target; rmMember : Member; rmSnapshot : Snapshot }.

(** [selectMemberAcrossSnapshots] *)
Fixpoint selectMemberAcrossSnapshots (snapshots : list Snapshot) (role : Role) (name : string)
    : option (Snapshot * Member) :=
  match snapshots with
  | [] => None
  | s :: rest => match selectMember (snCluster s) role name with
                 | Some m => Some (s, m)
                 | None => selectMemberAcrossSnapshots rest role name
                 end
  end.

Definition byCluster (snapshots : list Snapshot) : gmap string Snapshot :=
  map_of_list (λ s, ClusterID (Normalize (snTarget s))) snapshots.

Definition membershipConflict (service : Service) (operation : string) (target : Target)
    (snapshot : option Snapshot) : MemberWriteResult :=
  let evidence :=
    mkEvidence EvidenceDCS (svcNow service)
      "confirmed member or Citus group is absent or no longer matches its role"
      match snapshot with Some s => FormatInt (snRevision s) | None => "" end
      match snapshot with Some s => snPrefix s | None => Path_text PathDCS end
      SendNotSent in
  let e := NewError CategoryConflict operation target false
             (operation +:+ " was not sent because cluster membership changed") None [evidence] in
  memberFailed target SendNotSent 0 (errMessage e) evidence e.

(** One planned target: the member it names now, or the conflict to report. *)
Definition resolvePlannedMember (service : Service) (operation : string) (clusters : gmap string Snapshot)
    (role : Role) (rawTarget : Target) : resolvedPlannedMember + MemberWriteResult :=
  let target := Normalize rawTarget in
  match clusters !! ClusterID target with
  | None => inr (membershipConflict service operation target None)
  | Some snapshot =>
      match find_first (λ m, mbName m ==s tMember target) (csMembers (snCluster snapshot)) with
      | Some member =>
          if memberMatchesRole (snCluster snapshot) member role
          then inl (mkResolved target member snapshot)
          else inr (membershipConflict service operation target (Some snapshot))
      | None => inr (membershipConflict service operation target (Some snapshot))
      end
  end.

Definition lefts {A B} (l : list (A + B)) : list A := omap (λ x, match x with inl a => Some a | _ => None end) l.
Definition rights {A B} (l : list (A + B)) : list B := omap (λ x, match x with inr b => Some b | _ => None end) l.

(** [resolvePlannedMembersAcrossSnapshots] *)
Definition resolvePlannedMembersAcrossSnapshots (service : Service) (operation : string)
    (snapshots : list Snapshot) (targets : list Target) (role : Role)
    : list resolvedPlannedMember * list MemberWriteResult :=
  let outcomes := resolvePlannedMember service operation (byCluster snapshots) role <$> targets in
  (lefts outcomes, rights outcomes).

(** [targetLess] *)
Definition group_or_minus_one (t : Target) : Z := deref (-1)%Z (tGroup t).

Definition targetLess (left right : Target) : bool :=
  let left := Normalize left in
  let right := Normalize right in
  if tScope left !=s tScope right then String.ltb (tScope left) (tScope right)
  else (group_or_minus_one left <? group_or_minus_one right)%Z.

(** [sort.SliceStable(items, targetLess)]: a stable insertion sort. *)
Fixpoint insert_by {A} (less : A → A → bool) (x : A) (l : list A) : list A :=
  match l with
  | [] => [x]
  | y :: l' => if less x y then x :: l else y :: insert_by less x l'
  end.

Definition sort_stable {A} (less : A → A → bool) (l : list A) : list A := foldl (λ acc x, insert_by less x acc) [] l.

(** ** Predicates of the theorems *)

(** A conflict names its target and says that nothing was sent. *)
Definition refused (target : Target) (r : MemberWriteResult) : Prop :=
  mwTarget r = target ∧ mwOutcome r = Failed ∧ mwSendState r = SendNotSent ∧ mwVerification r = VerifiedFailed.

(** ** Lemmas *)

Lemma normalizeMemberNames_elem x input :
  x ∈ normalizeMemberNames input ↔ x ≠ "" ∧ ∃ y, y ∈ input ∧ x = TrimSpace y.
Proof.
  unfold normalizeMemberNames. rewrite (sort_strings_perm _), elem_of_remove_dups, list_elem_of_filter, list_elem_of_fmap.
  naive_solver.
Qed.

Lemma normalizeMemberNames_NoDup input : NoDup (normalizeMemberNames input).
Proof. unfold normalizeMemberNames. rewrite (sort_strings_perm _). apply NoDup_remove_dups. Qed.

Lemma NoDup_same_elements {A} (l k : list A) : NoDup l → NoDup k → (∀ x, x ∈ l ↔ x ∈ k) → l ≡ₚ k.
Proof. intros Hl Hk H. by apply NoDup_Permutation. Qed.

Lemma selectMembers_elem cluster role requested all m :
  m ∈ selectMembers cluster role requested all → m ∈ csMembers cluster ∧ memberMatchesRole cluster m role = true.
Proof.
  unfold selectMembers. cbv zeta. rewrite sort_by_elem, list_elem_of_In, List.filter_In, <- list_elem_of_In.
  intros [? [? _]%andb_true_iff]. done.
Qed.

Lemma lefts_rights_nil {A B} (l : list (A + B)) : rights l = [] → l = inl <$> lefts l.
Proof.
  induction l as [|[a|b] l IH]; cbn; [done| |done]. intros H. f_equal. by apply IH.
Qed.

(** What a resolved member stands for. *)
Lemma resolvePlannedMember_inl service operation snapshots role raw m :
  resolvePlannedMember service operation (byCluster snapshots) role raw = inl m →
  rmTarget m = Normalize raw ∧ rmSnapshot m ∈ snapshots ∧
  ClusterID (snTarget (rmSnapshot m)) = ClusterID raw ∧
  rmMember m ∈ csMembers (snCluster (rmSnapshot m)) ∧ mbName (rmMember m) = tMember (Normalize raw) ∧
  memberMatchesRole (snCluster (rmSnapshot m)) (rmMember m) role = true.
Proof.
  unfold resolvePlannedMember, byCluster. cbv zeta.
  destruct (_ !! _) as [s|] eqn:Es; [|done]. destruct (find_first _ _) as [x|] eqn:Ex; [|done].
  destruct (memberMatchesRole _ _ _) eqn:Er; [|done]. intros [= <-]. cbn.
  apply map_of_list_lookup_Some in Es as [Hs Hid]. apply find_first_Some in Ex as [Hx Hn]. go_bool.
  rewrite !ClusterID_Normalize in Hid. done.
Qed.

Lemma resolvePlannedMember_inr service operation clusters role raw r :
  resolvePlannedMember service operation clusters role raw = inr r → refused (Normalize raw) r.
Proof.
  unfold resolvePlannedMember. cbv zeta. repeat case_match; try done; by intros [= <-].
Qed.

Lemma leaderFirst_elem cluster m :
  m ∈ leaderFirstRESTMembers cluster → m ∈ csMembers cluster ∧ has_rest_address m = true.
Proof.
  unfold leaderFirstRESTMembers. cbv zeta. rewrite elem_of_app. intros [Hm|Hm].
  - destruct (_ !=s ""); [|by apply not_elem_of_nil in Hm].
    destruct (find_first _ _) as [x|] eqn:E; cbn in Hm; [|by apply not_elem_of_nil in Hm].
    apply list_elem_of_singleton in Hm as ->. apply find_first_Some in E as [? H]. go_bool. done.
  - apply list_elem_of_In, List.filter_In in Hm as [Hm H]. rewrite <- list_elem_of_In in Hm. go_bool. done.
Qed.

(** Exactly the addressable members, each once, when names are distinct. *)
Lemma leaderFirst_perm cluster :
  NoDup (mbName <$> csMembers cluster) →
  (∀ m, m ∈ csMembers cluster → mbName m ≠ "") →
  leaderFirstRESTMembers cluster ≡ₚ List.filter has_rest_address (csMembers cluster).
Proof.
  intros Hnd Hne. unfold leaderFirstRESTMembers. cbv zeta. set (leader := leader_name cluster).
  destruct (String.eqb_spec leader "") as [->|Hl]; cbn [negb app].
  - erewrite List.filter_ext_in; [done|]. intros m Hm. cbn.
    rewrite (proj2 (String.eqb_neq _ _)); [done|]. apply Hne. by apply list_elem_of_In.
  - clear Hne. revert Hnd. induction (csMembers cluster) as [|x l IH]; [done|].
    intros [Hx Hnd]%NoDup_cons. specialize (IH Hnd). cbn.
    destruct (String.eqb_spec (mbName x) leader) as [Hxl|Hxl]; cbn [negb andb].
    + assert (Hrest : find_first (λ m, (mbName m ==s leader) && has_rest_address m) l = None).
      { destruct (find_first _ l) as [y|] eqn:E; [|done]. apply find_first_Some in E as [Hy H]. go_bool.
        exfalso. apply Hx. rewrite Hxl, <- H. by apply list_elem_of_fmap_2. }
      unfold find_first in *. cbn in IH. rewrite Hrest in IH. cbn in IH.
      destruct (has_rest_address x); cbn; [by rewrite IH|]. rewrite Hrest. done.
    + destruct (has_rest_address x); cbn; [|done]. rewrite <- IH. symmetry. apply Permutation_middle.
Qed.
