(* ===== verification/Snapshots.v ===== *)
(** * Fresh snapshots for an operation: [control/citus.go], [control/discover.go]

    An operation reads one cluster, or every group of a Citus scope through one
    namespace discovery, and refuses clusters outside the supported version
    range before anything is written. *)

From S2P Require Import Prelude GoStrings GoErrors GoTime Target Version Values Dcs.
From S2P Require Import Effects Contract Select.

Record discoveryFailure := mkDiscoveryFailure {
  dfCategory : Category;
  dfRetryable : bool;
  dfMessage : string;
  dfCause : option goerror
}.

(** A failure with the evidence gathered so far, or the snapshots with theirs. *)
Definition snapshots_result : Type :=
  (discoveryFailure * list Evidence + list Snapshot * list Evidence)%type.

Definition snapshotVersionCheck := Snapshot → bool → option goerror.

Definition read_failure (message : string) (err : goerror) (evidence : list Evidence) : snapshots_result :=
  let '(category, retryable) := classifyReadError (Some err) in
  inl (mkDiscoveryFailure category retryable message (Some err), evidence).

Definition unsupported_failure (service : Service) (operation : string) (err : goerror)
    (evidence : list Evidence) : snapshots_result :=
  inl (mkDiscoveryFailure CategoryUnsupported false
         (operation +:+ " requires Patroni " +:+ supportedPatroniRangeText service) (Some err), evidence).

Definition plain_failure (category : Category) (message : string) (cause : option goerror)
    (evidence : list Evidence) : snapshots_result :=
  inl (mkDiscoveryFailure category false message cause, evidence).

Definition discoveryTarget (context namespace : string) : Target :=
  Normalize (mkTarget context namespace "" None "").

Definition max_revision (clusters : list DiscoveredCluster) : Z :=
  foldl (λ acc c, if (acc <? dcRevision c)%Z then dcRevision c else acc) 0%Z clusters.

Definition discoveryEvidence (service : Service) (target : Target) (clusters : list DiscoveredCluster) : Evidence :=
  mkEvidence EvidenceDCS (svcNow service)
    ("bounded namespace discovery returned " +:+ FormatInt (Z.of_nat (length clusters)) +:+ " cluster(s)")
    (if (0 <? max_revision clusters)%Z then FormatInt (max_revision clusters) else "")
    (NamespacePrefix (tNamespace target)) (SendRaw "").

Definition compatibility_evidence (service : Service) (operation : string) (snapshot : Snapshot) : Evidence :=
  snapshotEvidence service snapshot ("Patroni compatibility range checked during " +:+ operation).

(** The items of a discovery that belong to the scope of [target]. *)
Definition in_citus_scope (target itemTarget : Target) : bool :=
  (tContext itemTarget ==s tContext target) && (tNamespace itemTarget ==s tNamespace target) &&
  (tScope itemTarget ==s tScope target) && negb (is_nil (tGroup itemTarget)).

(** [if err := itemTarget.Validate(true); err != nil || itemTarget.Member != ""] *)
Definition item_target_error (t : Target) : option goerror :=
  match Target_Validate t true with
  | Some err => Some err
  | None => if tMember t !=s "" then Some (EText "discovered Citus target contains a member selector") else None
  end.

(** The loop over discovered groups. *)
Fixpoint citusGroups (service : Service) (operation : string) (target : Target) (allow : bool)
    (versionCheck : snapshotVersionCheck) (items : list DiscoveredCluster)
    (snapshots : list Snapshot) (evidence : list Evidence) : prog snapshots_result :=
  match items with
  | [] =>
      mret match snapshots with
           | [] => plain_failure CategoryNotFound "Citus scope has no discovered groups" None evidence
           | _ => inr (snapshots, evidence)
           end
  | item :: rest =>
      let itemTarget := Normalize (dcTarget item) in
      if negb (in_citus_scope target itemTarget)
      then citusGroups service operation target allow versionCheck rest snapshots evidence
      else match item_target_error itemTarget with
      | Some err =>
          mret (plain_failure CategoryFailed "DCS discoverer returned an invalid Citus group target" (Some err) evidence)
      | None =>
          let continue snapshot evidence :=
            match versionCheck snapshot allow with
            | Some err =>
                mret (unsupported_failure service operation err
                        (evidence ++ [compatibility_evidence service operation snapshot]))
            | None => citusGroups service operation target allow versionCheck rest
                        (snapshots ++ [snapshot]) evidence
            end in
          match dcSnapshot item with
          | Some snapshot =>
              if ClusterID (Normalize (snTarget snapshot)) !=s ClusterID itemTarget
              then mret (plain_failure CategoryFailed "DCS discoverer returned a mismatched Citus group snapshot"
                           (Some (EText "snapshot target does not match discovered target")) evidence)
              else continue snapshot evidence
          | None =>
              r ← do_call (CSnapshot itemTarget);
              match r with
              | inl err => mret (read_failure "Citus group snapshot failed" err evidence)
              | inr snapshot =>
                  continue snapshot
                    (evidence ++ [snapshotEvidence service snapshot "legacy discoverer Citus group snapshot read"])
              end
          end
      end
  end.

(** [citusGroupSnapshotsWithVersionCheck] *)
Definition citusGroupSnapshotsWithVersionCheck (service : Service) (operation : string) (target : Target)
    (allow : bool) (versionCheck : snapshotVersionCheck) : prog snapshots_result :=
  let target := Normalize target in
  if negb (is_nil (tGroup target)) then
    r ← do_call (CSnapshot target);
    mret match r with
         | inl err => read_failure "cluster snapshot failed" err []
         | inr snapshot =>
             match versionCheck snapshot allow with
             | Some err => unsupported_failure service operation err
                             [compatibility_evidence service operation snapshot]
             | None => inr ([snapshot], [snapshotEvidence service snapshot "cluster snapshot read"])
             end
         end
  else if negb (svcDiscovery service) then
    mret (plain_failure CategoryConfig (operation +:+ " across Citus groups requires a DCS discoverer") None [])
  else
    r ← do_call (CDiscover (tContext target) (tNamespace target));
    match r with
    | inl err => mret (read_failure "Citus group discovery failed" err [])
    | inr items =>
        let items := sort_stable (λ a b, targetLess (dcTarget a) (dcTarget b)) items in
        citusGroups service operation target allow versionCheck items []
          [discoveryEvidence service (discoveryTarget (tContext target) (tNamespace target)) items]
    end.

(** [operationSnapshotsWithVersionCheck] *)
Definition operationSnapshotsWithVersionCheck (service : Service) (operation : string) (target : Target)
    (citus allow : bool) (versionCheck : snapshotVersionCheck) : prog snapshots_result :=
  if citus then citusGroupSnapshotsWithVersionCheck service operation target allow versionCheck
  else
    r ← do_call (CSnapshot target);
    mret match r with
         | inl err => read_failure (operation +:+ " cluster snapshot failed") err []
         | inr snapshot =>
             match versionCheck snapshot allow with
             | Some err => unsupported_failure service operation err
                             [compatibility_evidence service operation snapshot]
             | None => inr ([snapshot], [snapshotEvidence service snapshot (operation +:+ " cluster snapshot read")])
             end
         end.

Definition operationSnapshots (service : Service) (operation : string) (target : Target) (citus allow : bool)
    : prog snapshots_result :=
  operationSnapshotsWithVersionCheck service operation target citus allow (checkSnapshotPatroniVersion service).

Definition versionSnapshots (service : Service) (operation : string) (target : Target) (citus allow : bool)
    : prog snapshots_result :=
  operationSnapshotsWithVersionCheck service operation target citus allow (checkSnapshotKnownPatroniVersion service).

Definition citusGroupSnapshots (service : Service) (operation : string) (target : Target) (allow : bool)
    : prog snapshots_result :=
  citusGroupSnapshotsWithVersionCheck service operation target allow (checkSnapshotPatroniVersion service).

Definition is_coordinator (snapshot : Snapshot) : bool :=
  match tGroup (snTarget snapshot) with Some g => (g =? 0)%Z | None => false end.

(** [citusCoordinatorSnapshot] *)
Definition citusCoordinatorSnapshot (service : Service) (operation : string) (target : Target) (allow : bool)
    : prog snapshots_result :=
  let target := Normalize target in
  if negb (is_nil (tGroup target)) then operationSnapshots service operation target true allow
  else
    r ← citusGroupSnapshotsWithVersionCheck service operation target allow
          (λ snapshot allow, if is_coordinator snapshot then checkSnapshotPatroniVersion service snapshot allow
                             else None);
    mret match r with
         | inl failure => inl failure
         | inr (snapshots, evidence) =>
             match find_first is_coordinator snapshots with
             | Some snapshot => inr ([snapshot], evidence)
             | None => plain_failure CategoryNotFound "Citus scope has no coordinator group 0" None evidence
             end
         end.

(** [snapshots[0]]: Go would panic on an empty slice; a successful read is
    never empty. *)
Definition first_snapshot (snapshots : list Snapshot) : Snapshot := deref zero (head snapshots).

(** The result a handler returns for a failed read. *)
Definition failureResult {T} `{Zero T} (service : Service) (operationID operation : string) (target : Target)
    (path : Path) (failure : discoveryFailure * list Evidence) : Result T :=
  failedReadWithEvidence service operationID operation target path (dfCategory failure.1)
    (dfRetryable failure.1) (dfMessage failure.1) (dfCause failure.1) failure.2.

(** ** Predicates of the theorems *)

(** The snapshots an operation may act on: at least one, each past the version
    check, with valid evidence.  A failed read states a definite category. *)
Definition good_snapshots (gated : Snapshot → Prop) (r : snapshots_result) : Prop :=
  match r with
  | inl (failure, evidence) =>
      definite (dfCategory failure) ∧ dfMessage failure ≠ "" ∧ Forall good_evidence evidence
  | inr (snapshots, evidence) => snapshots ≠ [] ∧ Forall gated snapshots ∧ good_log evidence
  end.

Definition version_gated (service : Service) (snapshot : Snapshot) : Prop :=
  checkSnapshotPatroniVersion service snapshot false = None.

(** A reply of the history shows the snapshot. *)
Definition shows (snapshot : Snapshot) (e : event) : Prop :=
  match e with
  | Ev c r =>
      match c return reply c → Prop with
      | CSnapshot _ => λ r, r = inr snapshot
      | CDiscover _ _ => λ r, ∃ items item, r = inr items ∧ item ∈ items ∧ dcSnapshot item = Some snapshot
      | _ => λ _, False
      end r
  end.

Definition seen (tr : list event) (snapshot : Snapshot) : Prop := Exists (shows snapshot) tr.

Definition all_seen (tr : list event) (r : snapshots_result) : Prop :=
  match r with inr (snapshots, _) => Forall (seen tr) snapshots | inl _ => True end.

(** ** Lemmas *)

Section lemmas.
Context (service : Service) (Hclock : clock_set service).

Lemma good_compatibility operation snapshot : good_evidence (compatibility_evidence service operation snapshot).
Proof using Hclock. by apply good_snapshotEvidence; [|apply app_not_empty_l]. Qed.

Lemma good_read_failure gated message err evidence :
  message ≠ "" → Forall good_evidence evidence → good_snapshots gated (read_failure message err evidence).
Proof.
  intros. unfold read_failure. pose proof (classifyReadError_definite (Some err)) as Hd.
  destruct (classifyReadError (Some err)) as [c b]. done.
Qed.

Lemma good_unsupported gated operation err evidence :
  operation ≠ "" → Forall good_evidence evidence →
  good_snapshots gated (unsupported_failure service operation err evidence).
Proof. intros. refine (conj _ (conj _ _)); [done|by apply app_not_empty_l|done]. Qed.

Lemma good_plain gated category message cause evidence :
  definite category → message ≠ "" → Forall good_evidence evidence →
  good_snapshots gated (plain_failure category message cause evidence).
Proof. done. Qed.

Lemma good_discoveryEvidence target items : good_evidence (discoveryEvidence service target items).
Proof using Hclock. by apply good_mkEvidence. Qed.

Lemma citusGroups_spec gated operation target allow check items snapshots evidence :
  operation ≠ "" → (∀ s, check s allow = None → gated s) →
  Forall gated snapshots → good_log evidence →
  wp_all read_only (citusGroups service operation target allow check items snapshots evidence)
    (good_snapshots gated).
Proof using Hclock.
  intros Hop Hcheck. revert snapshots evidence.
  induction items as [|item items IH]; intros snapshots evidence Hs He; cbn [citusGroups].
  { apply wp_all_ret. destruct snapshots; [|by split]. apply good_plain; [done..|apply He]. }
  assert (∀ s ev, good_log ev →
    wp_all read_only
      (match check s allow with
       | Some err => mret (unsupported_failure service operation err
                             (ev ++ [compatibility_evidence service operation s]))
       | None => citusGroups service operation target allow check items (snapshots ++ [s]) ev
       end) (good_snapshots gated)) as Hcont.
  { intros s ev Hev. destruct (check s allow) eqn:E.
    - apply wp_all_ret, good_unsupported; [done|].
      apply Forall_app; split; [apply Hev|apply Forall_singleton, good_compatibility].
    - apply IH; [|done]. apply Forall_app; split; [done|]. apply Forall_singleton. by apply Hcheck. }
  cbv zeta. destruct (negb (in_citus_scope _ _)); [by apply IH|].
  destruct (item_target_error _); [apply wp_all_ret, good_plain; [done..|apply He]|].
  destruct (dcSnapshot item) as [s|].
  - destruct (_ !=s _); [apply wp_all_ret, good_plain; [done..|apply He]|]. by apply Hcont.
  - apply wp_all_call; intros [err|s]; (split; [done|]).
    + apply wp_all_ret, good_read_failure; [done|apply He].
    + apply Hcont. apply good_log_app; [done|]. apply Forall_singleton. by apply good_snapshotEvidence.
Qed.

Lemma one_snapshot_spec gated operation target allow (check : snapshotVersionCheck) message summary :
  operation ≠ "" → message ≠ "" → summary ≠ "" → (∀ s, check s allow = None → gated s) →
  wp_all read_only
    (r ← do_call (CSnapshot target);
     mret match r with
          | inl err => read_failure message err []
          | inr snapshot =>
              match check snapshot allow with
              | Some err => unsupported_failure service operation err
                              [compatibility_evidence service operation snapshot]
              | None => inr ([snapshot], [snapshotEvidence service snapshot summary])
              end
          end) (good_snapshots gated).
Proof using Hclock.
  intros Hop Hm Hsum Hcheck. apply wp_all_call; intros [err|s]; (split; [done|]); apply wp_all_ret.
  - by apply good_read_failure.
  - destruct (check s allow) eqn:E.
    + apply good_unsupported; [done|]. apply Forall_singleton, good_compatibility.
    + split_and!; [done|by apply Forall_singleton, Hcheck|]. by apply good_log_singleton, good_snapshotEvidence.
Qed.

Lemma citusGroupSnapshots_spec gated operation target allow check :
  operation ≠ "" → (∀ s, check s allow = None → gated s) →
  wp_all read_only (citusGroupSnapshotsWithVersionCheck service operation target allow check) (good_snapshots gated).
Proof using Hclock.
  intros Hop Hcheck. unfold citusGroupSnapshotsWithVersionCheck. cbv zeta.
  destruct (negb (is_nil _)); [by apply one_snapshot_spec|].
  destruct (negb (svcDiscovery service)).
  { apply wp_all_ret, good_plain; [done|by apply app_not_empty_l|done]. }
  apply wp_all_call; intros [err|items]; (split; [done|]); [by apply wp_all_ret, good_read_failure|].
  apply citusGroups_spec; [done..|]. apply good_log_singleton, good_discoveryEvidence.
Qed.

Lemma operationSnapshotsWith_spec gated operation target citus allow check :
  operation ≠ "" → (∀ s, check s allow = None → gated s) →
  wp_all read_only (operationSnapshotsWithVersionCheck service operation target citus allow check)
    (good_snapshots gated).
Proof using Hclock.
  intros Hop Hcheck. unfold operationSnapshotsWithVersionCheck. destruct citus; [by apply citusGroupSnapshots_spec|].
  apply one_snapshot_spec; [done|by apply app_not_empty_l|by apply app_not_empty_l|done].
Qed.

Lemma operationSnapshots_spec operation target citus :
  operation ≠ "" →
  wp_all read_only (operationSnapshots service operation target citus false) (good_snapshots (version_gated service)).
Proof using Hclock. intros Hop. by apply operationSnapshotsWith_spec. Qed.

Lemma citusCoordinator_spec operation target :
  operation ≠ "" →
  wp_all read_only (citusCoordinatorSnapshot service operation target false)
    (good_snapshots (version_gated service)).
Proof using Hclock.
  intros Hop. unfold citusCoordinatorSnapshot. cbv zeta.
  destruct (negb (is_nil _)); [by apply operationSnapshots_spec|].
  eapply wp_all_bind.
  { apply (citusGroupSnapshots_spec (λ s, is_coordinator s = true → version_gated service s)); [done|].
    intros s Hs Hc. by rewrite Hc in Hs. }
  intros [[failure ev]|[ss ev]] Hr; apply wp_all_ret; [done|]. destruct Hr as (Hne & Hs & He).
  destruct (find_first is_coordinator ss) as [s|] eqn:E.
  - apply find_first_Some in E as [Hin Hc]. split_and!; [done| |apply He..].
    apply Forall_singleton. by apply (proj1 (Forall_forall _ _) Hs s Hin).
  - apply good_plain; [done..|apply He].
Qed.

Lemma valid_failureResult {T} `{Zero T} operationID operation target path gated failure :
  operationID ≠ "" → Target_Validate target true = None → Path_valid path = true → operation ≠ "" →
  good_snapshots gated (inl failure) →
  Result_Validate (failureResult (T := T) service operationID operation target path failure) = None.
Proof using Hclock.
  intros. destruct failure as [f ev]. destruct H4 as (? & ? & ?). by apply valid_failedRead.
Qed.
End lemmas.

(** ** Lemmas: where the snapshots come from *)

Lemma seen_app pre tr s : seen pre s ∨ seen tr s → seen (pre ++ tr) s.
Proof. intros H. by apply Exists_app. Qed.

Lemma read_failure_seen tr message err evidence : all_seen tr (read_failure message err evidence).
Proof. unfold read_failure. by destruct (classifyReadError _). Qed.

Lemma sort_stable_elem {A} (less : A → A → bool) l x : x ∈ sort_stable less l → x ∈ l.
Proof.
  assert (∀ y k, x ∈ insert_by less y k → x = y ∨ x ∈ k) as Hins.
  { intros y k. induction k as [|z k IH]; cbn; [rewrite list_elem_of_singleton; tauto|].
    destruct (less _ _); rewrite !elem_of_cons; [tauto|]. intros [->|?%IH]; tauto. }
  unfold sort_stable. assert (∀ acc, x ∈ foldl (λ acc x, insert_by less x acc) acc l → x ∈ acc ∨ x ∈ l) as H.
  { induction l as [|y l IH]; intros acc; cbn; [tauto|]. rewrite elem_of_cons.
    intros [[->|?]%Hins|?]%IH; tauto. }
  intros [?%not_elem_of_nil|?]%H; done.
Qed.

Section seen.
Context (service : Service).

Lemma citusGroups_seen operation target allow check items snapshots evidence pre :
  Forall (seen pre) snapshots → (∀ item s, item ∈ items → dcSnapshot item = Some s → seen pre s) →
  wp (citusGroups service operation target allow check items snapshots evidence) (λ tr, all_seen (pre ++ tr)).
Proof using Type.
  revert snapshots evidence pre. induction items as [|item items IH]; intros snapshots evidence pre Hs Hi; cbn [citusGroups].
  { cbn. rewrite app_nil_r. by destruct snapshots. }
  assert (∀ item s, item ∈ items → dcSnapshot item = Some s → seen pre s) as Hi'
    by (intros; eapply Hi; [by apply list_elem_of_further|done]).
  cbv zeta. destruct (negb (in_citus_scope _ _)); [by apply IH|]. destruct (item_target_error _); [done|].
  destruct (dcSnapshot item) as [s|] eqn:Es.
  - destruct (_ !=s _); [done|]. destruct (check s allow); [done|]. apply IH; [|done].
    apply Forall_app; split; [done|]. apply Forall_singleton. eapply Hi; [apply list_elem_of_here|done].
  - apply wp_call. intros [err|s]; [apply read_failure_seen|]. destruct (check s allow); [done|].
    eapply wp_mono; [|apply (IH _ _ (pre ++ [Ev (CSnapshot (Normalize (dcTarget item))) (inr s)]))].
    + intros tr r. cbv beta. by rewrite <- app_assoc.
    + apply Forall_app; split; [|apply Forall_singleton, seen_app; right; by left].
      eapply Forall_impl; [exact Hs|]. intros. apply seen_app. by left.
    + intros. apply seen_app. left. by eapply Hi'.
Qed.

Lemma citusGroupSnapshots_seen operation target allow check :
  wp (citusGroupSnapshotsWithVersionCheck service operation target allow check) all_seen.
Proof using Type.
  unfold citusGroupSnapshotsWithVersionCheck. cbv zeta. destruct (negb (is_nil _)).
  { apply wp_call. intros [err|s]; [apply read_failure_seen|].
    destruct (check s allow); [done|]. apply Forall_singleton. by left. }
  destruct (negb (svcDiscovery service)); [done|]. apply wp_call.
  intros [err|items]; [apply read_failure_seen|].
  apply (citusGroups_seen _ _ _ _ _ _ _ [Ev (CDiscover (tContext (Normalize target)) (tNamespace (Normalize target))) (inr items)]); [constructor|].
  intros item s Hin%sort_stable_elem Hs. left. by exists items, item.
Qed.

Lemma operationSnapshotsWith_seen operation target citus allow check :
  wp (operationSnapshotsWithVersionCheck service operation target citus allow check) all_seen.
Proof using Type.
  unfold operationSnapshotsWithVersionCheck. destruct citus; [apply citusGroupSnapshots_seen|].
  apply wp_call. intros [err|s]; [apply read_failure_seen|]. destruct (check s allow); [done|]. apply Forall_singleton. by left.
Qed.

Lemma operationSnapshots_seen operation target citus :
  wp (operationSnapshots service operation target citus false) all_seen.
Proof using Type. apply operationSnapshotsWith_seen. Qed.

Lemma citusCoordinator_seen operation target :
  wp (citusCoordinatorSnapshot service operation target false) all_seen.
Proof using Type.
  unfold citusCoordinatorSnapshot. cbv zeta. destruct (negb (is_nil _)); [apply operationSnapshots_seen|].
  apply wp_bind. eapply wp_mono; [|apply citusGroupSnapshots_seen]. intros tr [[failure ev]|[ss ev]] Hs; [done|].
  cbn. rewrite app_nil_r. destruct (find_first is_coordinator ss) as [s|] eqn:E; [|done].
  apply find_first_Some in E as [Hin _]. apply Forall_singleton. by apply (proj1 (Forall_forall _ _) Hs s Hin).
Qed.
End seen.
