(* ===== verification/Batch.v ===== *)
(** * Member-by-member writes: what reload, restart, reinitialize, flush and
    pause share

    Each member write ends in a [MemberWriteResult]; the batch result is the
    worst of them ([finalizeBatchWrite]).  A batch whose confirmed targets
    changed is not sent at all ([abortBatchForTargetChange]). *)

From S2P Require Import Prelude GoStrings GoErrors GoTime Target Version Values Dcs Effects Contract Select.
From S2P Require Import Snapshots.

(** ** One HTTP response *)

(** The texts of one classifier. *)
Record ResponseTexts := mkResponseTexts {
  txAccepted : string;
  txRejected : string;         (* the evidence summary *)
  txRejectedMessage : string;  (* the error message *)
  txNoResponse : string;
  txMaybeSent : string;
  txNotSent : string
}.

(** The body shared by [classifyReloadResponse], [classifyRestartResponse],
    [classifyReinitializeResponse], [classifyPauseResponse],
    [classifyRestartFlushResponse] and [classifySwitchoverFlushResponse]. *)
Definition classifyResponse (service : Service) (operation path : string) (accepted : Z → bool)
    (texts : ResponseTexts) (target : Target) (response : RESTResponse) (callError : option goerror)
    : MemberWriteResult :=
  let status := rsStatusCode response in
  let send := patroniSendState callError status in
  let evidence summary := mkEvidence EvidencePatroni (svcNow service) summary "" path send in
  if accepted status then
    mkMemberWriteResult target Succeeded send VerifiedSucceeded status (txAccepted texts)
      [evidence (txAccepted texts)] None
  else if negb (status =? 0)%Z then
    let ev := evidence (txRejected texts) in
    let '(category, retryable) := classifyHTTPStatus status in
    let e := NewError category operation target retryable (txRejectedMessage texts) callError [ev] in
    mkMemberWriteResult target Failed send VerifiedFailed status (errMessage e) [ev] (Some e)
  else
    let ev := evidence (txNoResponse texts) in
    match send with
    | SendMaybeSent | SendAccepted =>
        let e := NewError CategoryUnknown operation target false (txMaybeSent texts) callError [ev] in
        mkMemberWriteResult target Unknown send Unverified 0 (errMessage e) [ev] (Some e)
    | _ =>
        let '(category, retryable) := classifyReadError callError in
        let e := NewError category operation target retryable (txNotSent texts) callError [ev] in
        mkMemberWriteResult target Failed SendNotSent VerifiedFailed 0 (errMessage e) [ev] (Some e)
    end.

Definition ok_or_accepted (status : Z) : bool := (status =? 200)%Z || (status =? 202)%Z.
Definition ok_only (status : Z) : bool := (status =? 200)%Z.
Definition below_400 (status : Z) : bool := (0 <? status)%Z && (status <? 400)%Z.

Definition classifyReloadResponse (service : Service) (target : Target) (response : RESTResponse)
    (callError : option goerror) : MemberWriteResult :=
  classifyResponse service "reload" "/reload" ok_or_accepted
    (mkResponseTexts "Patroni accepted reload request" "Patroni rejected reload request"
       "Patroni rejected reload request" "reload transport ended without an HTTP response"
       "reload may have been sent; verify the member before retrying" "reload was not sent")
    target response callError.

Definition classifyRestartResponse (service : Service) (target : Target) (response : RESTResponse)
    (callError : option goerror) : MemberWriteResult :=
  classifyResponse service "restart" "/restart" ok_or_accepted
    (mkResponseTexts "Patroni accepted restart request" "Patroni rejected restart request"
       "Patroni rejected restart request" "restart transport ended without an HTTP response"
       "restart may have been sent; verify before retrying" "restart was not sent")
    target response callError.

Definition classifyReinitializeResponse (service : Service) (target : Target) (response : RESTResponse)
    (callError : option goerror) : MemberWriteResult :=
  classifyResponse service "reinit" "/reinitialize" below_400
    (mkResponseTexts "Patroni accepted reinitialize request" "Patroni rejected reinitialize request"
       "Patroni rejected reinitialize request" "reinitialize transport ended without an HTTP response"
       "reinitialize may have been sent; verify before retrying" "reinitialize was not sent")
    target response callError.

Definition classifyRestartFlushResponse (service : Service) (target : Target) (response : RESTResponse)
    (callError : option goerror) : MemberWriteResult :=
  classifyResponse service "flush" "/restart" below_400
    (mkResponseTexts "Patroni removed the scheduled restart" "Patroni rejected scheduled restart flush"
       "Patroni rejected scheduled restart flush"
       "scheduled restart flush transport ended without an HTTP response"
       "scheduled restart flush may have been sent; DCS verification is required"
       "scheduled restart flush was not sent")
    target response callError.

Definition classifySwitchoverFlushResponse (service : Service) (target : Target) (response : RESTResponse)
    (callError : option goerror) : MemberWriteResult :=
  classifyResponse service "flush" "/switchover" ok_only
    (mkResponseTexts "Patroni removed the scheduled switchover"
       "Patroni did not remove the scheduled switchover" "Patroni did not remove the scheduled switchover"
       "scheduled switchover flush transport ended without an HTTP response"
       "scheduled switchover flush may have been sent" "scheduled switchover flush was not sent")
    target response callError.

Definition classifyPauseResponse (service : Service) (operation : string) (target : Target)
    (response : RESTResponse) (callError : option goerror) : MemberWriteResult :=
  classifyResponse service operation "/config" ok_only
    (mkResponseTexts ("Patroni accepted " +:+ operation +:+ " configuration")
       ("Patroni rejected " +:+ operation +:+ " configuration")
       ("Patroni rejected " +:+ operation +:+ " configuration")
       (operation +:+ " transport ended without an HTTP response")
       (operation +:+ " may have been sent") (operation +:+ " was not sent"))
    target response callError.

(** [classifyForcedRestartFlush]: the result, and whether the restart goes on. *)
Definition classifyForcedRestartFlush (service : Service) (target : Target) (response : RESTResponse)
    (callError : option goerror) : MemberWriteResult * bool :=
  let status := rsStatusCode response in
  let send := patroniSendState callError status in
  let summary := "scheduled restart replacement flush completed" in
  let ev := mkEvidence EvidencePatroni (svcNow service) summary "" "/restart" send in
  if negb (status =? 0)%Z then
    if (400 <=? status)%Z then
      let '(category, retryable) := classifyHTTPStatus status in
      let e := NewError category "restart" target retryable "Patroni rejected scheduled restart flush" callError [ev] in
      (mkMemberWriteResult target Failed send VerifiedFailed status summary [ev] (Some e), true)
    else (mkMemberWriteResult target Succeeded send VerifiedSucceeded status summary [ev] None, true)
  else
    match send with
    | SendMaybeSent | SendAccepted =>
        let e := NewError CategoryUnknown "restart" target false
                   "scheduled restart flush may have been sent; verify before retrying" callError [ev] in
        (mkMemberWriteResult target Unknown send Unverified 0 (errMessage e) [ev] (Some e), false)
    | _ =>
        let '(category, retryable) := classifyReadError callError in
        let e := NewError category "restart" target retryable "scheduled restart flush was not sent" callError [ev] in
        (mkMemberWriteResult target Failed SendNotSent VerifiedFailed 0 (errMessage e) [ev] (Some e), false)
    end.

(** ** Members that are not written *)

Definition not_sent_result (service : Service) (operation : string) (target : Target) (category : Category)
    (retryable : bool) (message : string) (cause : option goerror) (evidence : Evidence) : MemberWriteResult :=
  let e := NewError category operation target retryable message cause [evidence] in
  memberFailed target SendNotSent 0 (errMessage e) evidence e.

Definition skippedWriteAfterCancellation (service : Service) (operation : string) (target : Target)
    (cause : option goerror) : MemberWriteResult :=
  not_sent_result service operation target CategoryFailed false
    (operation +:+ " was not sent because the operation was canceled") cause
    (mkEvidence EvidenceControl (svcNow service) (operation +:+ " skipped after cancellation") ""
       ("/" +:+ operation) SendNotSent).

Definition invalidRESTAddressWrite (service : Service) (operation : string) (target : Target)
    (snapshot : Snapshot) : MemberWriteResult :=
  not_sent_result service operation target CategoryConfig false
    (operation +:+ " was not sent because the member REST address is invalid")
    (Some (EText "invalid Patroni API URL"))
    (mkEvidence EvidenceDCS (svcNow service) "member has no usable Patroni REST address"
       (FormatInt (snRevision snapshot)) (snPrefix snapshot) SendNotSent).

(** [flushMemberNotSent], [pauseMemberNotSent] *)
Definition memberNotSent (service : Service) (operation : string) (target : Target) (category : Category)
    (retryable : bool) (message : string) (cause : option goerror) : MemberWriteResult :=
  not_sent_result service operation target category retryable message cause
    (mkEvidence EvidenceControl (svcNow service) message "" (Path_text PathREST) SendNotSent).

Definition targetChangeSkipped (service : Service) (operation : string) (target : Target) : MemberWriteResult :=
  not_sent_result service operation target CategoryConflict false
    (operation +:+ " was not sent because the confirmed target set changed") None
    (mkEvidence EvidenceControl (svcNow service)
       (operation +:+ " skipped because the confirmed target set changed") "" (Path_text PathREST) SendNotSent).

(** [abortBatchForTargetChange]; [ExecuteReload] writes the same loop out. *)
Definition conflictByMember (conflicts : list MemberWriteResult) : gmap string MemberWriteResult :=
  map_of_list (λ r, MemberID (Normalize (mwTarget r))) conflicts.

Definition abortBatchForTargetChange (service : Service) (operation : string) (targets : list Target)
    (conflicts : list MemberWriteResult) : BatchWriteData :=
  let byMember := conflictByMember conflicts in
  mkBatchWriteData
    ((λ target, match byMember !! MemberID (Normalize target) with
                | Some result => result
                | None => targetChangeSkipped service operation target
                end) <$> targets).

(** ** Aggregation *)

Definition worst_outcome (acc : Outcome) (member : MemberWriteResult) : Outcome :=
  match mwOutcome member with
  | Unknown => Unknown
  | Failed => match acc with Unknown => Unknown | _ => Failed end
  | _ => acc
  end.

Definition batchOutcome (members : list MemberWriteResult) : Outcome := foldl worst_outcome Succeeded members.

Definition membersEvidence (members : list MemberWriteResult) : list Evidence := members ≫= mwEvidence.

(** [appendFlushEvidence] *)
Definition appendFlushEvidence (base : list Evidence) (results : list MemberWriteResult) : list Evidence :=
  base ++ membersEvidence results.

(** [finalizeBatchWrite] *)
Definition finalizeBatchWrite (service : Service) (operationID operation : string) (target : Target)
    (path : Path) (data : BatchWriteData) (base : list Evidence) : Result BatchWriteData :=
  let evidence := appendFlushEvidence base (bwMembers data) in
  let outcome := batchOutcome (bwMembers data) in
  mkResult operationID outcome target path data evidence
    match outcome with
    | Failed => Some (NewError CategoryFailed operation target false
                        (operation +:+ " failed for one or more members") None evidence)
    | Unknown => Some (NewError CategoryUnknown operation target false
                         (operation +:+ " outcome is unknown for one or more members; verify before retrying")
                         None evidence)
    | _ => None
    end.

(** [aggregateRESTSendState] *)
Fixpoint aggregateREST (state : SendState) (results : list MemberWriteResult) : SendState :=
  match results with
  | [] => state
  | r :: rest =>
      match mwSendState r with
      | SendMaybeSent => SendMaybeSent
      | SendAccepted => aggregateREST SendAccepted rest
      | _ => aggregateREST state rest
      end
  end.

Definition aggregateRESTSendState (results : list MemberWriteResult) : SendState := aggregateREST SendNotSent results.

(** [flushHasAmbiguousREST] *)
Definition flushHasAmbiguousREST (results : list MemberWriteResult) : bool :=
  existsb (λ r, bool_decide (mwOutcome r = Unknown)) results.

(** A result whose outcome, verification, summary and error are replaced, as
    the readback of restart, reinitialize and flush does. *)
Definition with_verdict (r : MemberWriteResult) (outcome : Outcome) (verification : Verification)
    (summary : string) (e : option Error) (evidence : list Evidence) : MemberWriteResult :=
  mkMemberWriteResult (mwTarget r) outcome (mwSendState r) verification (mwHTTPStatus r) summary evidence e.

(** ** Plan and request pieces shared by the batch operations *)

(** The member selector of a request: [Target.Member] and [Members] must agree. *)
Definition mergeMembers (target : Target) (members : list string) : goerror + (Target * list string) :=
  if tMember target !=s "" then
    if negb (bool_decide (members = [])) && negb (bool_decide (members = [tMember target]))
    then inl (EText "target member and member list conflict")
    else inr (with_member target "", [tMember target])
  else inr (target, members).

(** A normalized request: the cluster, the member names, and the error that
    makes it invalid. *)
Definition normalized_request : Type := (Target * list string * option goerror)%type.

Definition normalizeMemberRequest (target : Target) (members : list string)
    (checks : option goerror) : normalized_request :=
  let target := Normalize target in
  let members := normalizeMemberNames members in
  match mergeMembers target members with
  | inl err => (target, members, Some err)
  | inr (target, members) =>
      match Target_Validate target true with
      | Some err => (target, members, Some err)
      | None => (target, members, checks)
      end
  end.

Definition role_error (role : Role) : option goerror :=
  if Role_validOrEmpty role then None else Some (EText "invalid role").

(** Targets of the members a selector picks in every snapshot. *)
Definition selectedMembers (pick : ClusterState → list Member) (snapshots : list Snapshot)
    : list resolvedPlannedMember :=
  snapshots ≫= λ s, (λ m, mkResolved (with_member (Normalize (snTarget s)) (mbName m)) m s) <$> pick (snCluster s).

(** The plan contract: operation, path, risk and retry safety. *)
Definition plan_contract (plan : Plan) (operation : string) (path : Path) (risk : Risk) : bool :=
  (pOperation plan ==s operation) && bool_decide (pPath plan = path) && bool_decide (pRisk plan = risk)
  && bool_decide (pRetrySafety plan = UnsafeAfterSend).

Definition same_cluster (plan : Plan) (target : Target) : bool :=
  ClusterID (Normalize (pTarget plan)) ==s ClusterID (Normalize target).

(** The validators of reload, restart, reinitialize and flush start alike. *)
Definition validatePlanContract (plan : Plan) (operation : string) (path : Path) (risk : Risk) (target : Target)
    (rest : option goerror) : option goerror :=
  match Plan_Validate plan with
  | Some err => Some err
  | None =>
      if negb (plan_contract plan operation path risk) then Some (EText "plan operation contract differs")
      else if negb (same_cluster plan target) then Some (EText "plan cluster differs from request")
      else rest
  end.

(** The result of a successful preparation. *)
Definition planResult (operationID : string) (target : Target) (path : Path) (plan : Plan)
    (evidence : list Evidence) : Result Plan :=
  mkResult operationID Succeeded target path plan evidence None.

Definition selected_summary (verb : string) (targets : list Target) : string :=
  verb +:+ " " +:+ FormatInt (Z.of_nat (length targets)) +:+ " selected member(s): " +:+
  Join (memberNamesFromTargets targets) ", ".

(** ** Running a batch *)

(** The write loop of a batch: members one after another, in plan order. *)
Fixpoint forMembers {A B} (body : A → prog B) (l : list A) : prog (list B) :=
  match l with
  | [] => mret []
  | x :: l => y ← body x; ys ← forMembers body l; mret (y :: ys)
  end.

(** What reload, restart and reinitialize do between validation and the write
    loop: the REST client is needed, the snapshots are read again, the
    feature gate of the request holds, and the
    Citus groups must be those of the plan. *)
Definition batchSnapshots (service : Service) (operationID operation label : string) (target : Target)
    (citus : bool) (plan : Plan) (gate : list Snapshot → option (string * goerror))
    (body : list Snapshot → list Evidence → prog (Result BatchWriteData)) : prog (Result BatchWriteData) :=
  if negb (svcPatroni service) then
    mret (failedRead service operationID operation target PathREST CategoryConfig false
            (label +:+ " requires a Patroni REST client") None [])
  else
    r ← operationSnapshots service operation target citus false;
    match r with
    | inl failure => mret (failureResult service operationID operation target PathREST failure)
    | inr (snapshots, evidence) =>
        match gate snapshots with
        | Some (message, err) =>
            mret (failedReadWithEvidence service operationID operation target PathREST CategoryUnsupported false
                    message (Some err) evidence)
        | None =>
        if snapshotGroupIDs snapshots !=s plannedValue plan "citus.groups" then
          mret (failedReadWithEvidence service operationID operation target PathREST CategoryConflict false
                  (label +:+ " was not sent because the Citus group inventory changed") None evidence)
        else body snapshots evidence
        end
    end.

(** ** Predicates of the theorems *)

(** A member result that states its verdict consistently: evidence, summary and
    send state present, and the error and verification its outcome calls for. *)
Definition good_verdict (r : MemberWriteResult) : Prop :=
  match mwOutcome r, mwError r with
  | Succeeded, None => mwVerification r = VerifiedSucceeded
  | Failed, Some e => definite (errCategory e) ∧ mwVerification r = VerifiedFailed
  | Unknown, Some e => errCategory e = CategoryUnknown ∧ mwVerification r = Unverified
  | _, _ => False
  end.

Definition good_member (r : MemberWriteResult) : Prop :=
  good_log (mwEvidence r) ∧ mwSummary r ≠ "" ∧
  SendState_validOrEmpty (mwSendState r) = true ∧ SendState_empty (mwSendState r) = false ∧ good_verdict r.

(** The writes of a history. *)
Definition writes (tr : list event) : nat := length (List.filter (λ e, is_write (ev_call e)) tr).

(** A result that claims failure, or that nothing was sent, has a quiet history;
    and a member is written at most [budget] times. *)
Definition honest (silent : event → Prop) (budget : nat) (tr : list event) (r : MemberWriteResult) : Prop :=
  ((mwOutcome r = Failed ∨ mwSendState r = SendNotSent) → Forall silent tr) ∧ (writes tr ≤ budget)%nat.

(** What a member program guarantees about [m]. *)
Definition member_post (silent : event → Prop) (budget : nat) (m : resolvedPlannedMember) (tr : list event)
    (r : MemberWriteResult) : Prop :=
  good_member r ∧ mwTarget r = rmTarget m ∧ honest silent budget tr r.

Definition member_ids (results : list MemberWriteResult) : list string := (λ r, MemberID (mwTarget r)) <$> results.
Definition target_ids (targets : list Target) : list string := MemberID <$> targets.

(** A history that is read-only up to the writes of its members, one chunk per
    member, each member being honest about its own. *)
Definition chunked (silent : event → Prop) (budget : nat) (tr : list event) (members : list MemberWriteResult) : Prop :=
  ∃ pre chunks, tr = pre ++ concat chunks ∧ Forall read_only pre ∧
                Forall2 (honest silent budget) chunks members ∧ Forall good_member members.

(** What a batch guarantees: a valid result; members that are honest about
    their chunk of the history; and, unless the batch was refused as a whole,
    one member result per planned target, in order, with the worst outcome. *)
Definition batch_post (silent : event → Prop) (budget : nat) (targets : list Target) (tr : list event)
    (r : Result BatchWriteData) : Prop :=
  let members := bwMembers (rData r) in
  Result_Validate r = None ∧ chunked silent budget tr members ∧
  (members = [] ∧ rOutcome r = Failed ∨
   member_ids members = target_ids targets ∧ rOutcome r = batchOutcome members).

(** The five parts of [good_member], the trivial ones solved. *)
Ltac split_member := refine (conj _ (conj _ (conj _ (conj _ _)))); try done.

(** ** Lemmas: one member *)

Lemma good_member_valid r :
  good_member r → Target_Validate (mwTarget r) true = None → tMember (mwTarget r) ≠ "" →
  MemberWriteResult_Validate r = None.
Proof.
  intros ([Hne He] & Hs & Hv & Hn & Hg) Ht Hm. unfold MemberWriteResult_Validate.
  apply String.eqb_neq in Hm, Hs. rewrite Ht, Hm, Hv, Hn, Hs. cbn. unfold good_verdict in Hg.
  destruct (mwEvidence r) eqn:Ee; [done|]. cbn [is_nil head orb].
  rewrite (proj2 (first_error_None _ _) He).
  destruct (mwOutcome r), (mwError r) as [err|]; try done.
  - rewrite Hg. done.
  - destruct Hg as [[_ Hu] Hg]. rewrite Hg, (bool_decide_eq_false_2 _ Hu). done.
  - destruct Hg as [Hu Hg]. rewrite Hg, Hu. done.
Qed.

Lemma good_with_verdict_same r evidence :
  good_member r → good_log evidence →
  good_member (with_verdict r (mwOutcome r) (mwVerification r) (mwSummary r) (mwError r) evidence).
Proof. intros (_ & Hs & Hv & Hn & Hg) He. by split_member. Qed.

Lemma good_with_verdict_success r summary evidence :
  good_member r → summary ≠ "" → good_log evidence →
  good_member (with_verdict r Succeeded VerifiedSucceeded summary None evidence).
Proof. intros (_ & _ & Hv & Hn & _) Hs He. by split_member. Qed.

Lemma good_with_verdict_unknown r summary operation target retryable message cause evidence :
  good_member r → summary ≠ "" → good_log evidence →
  good_member (with_verdict r Unknown Unverified summary
    (Some (NewError CategoryUnknown operation target retryable message cause evidence)) evidence).
Proof. intros (_ & _ & Hv & Hn & _) Hs He. by split_member. Qed.

Lemma classifyResponse_target service operation path accepted texts target response err :
  mwTarget (classifyResponse service operation path accepted texts target response err) = target.
Proof. unfold classifyResponse. cbv zeta. repeat case_match; done. Qed.

Section members.
Context (service : Service) (Hclock : clock_set service).

Lemma good_not_sent operation target category retryable message cause evidence :
  definite category → message ≠ "" → good_evidence evidence →
  good_member (not_sent_result service operation target category retryable message cause evidence).
Proof. intros. split_member. by apply good_log_singleton. Qed.

Lemma good_classifyResponse operation path accepted texts target response err :
  accepted 0%Z = false → txAccepted texts ≠ "" → txRejected texts ≠ "" → txRejectedMessage texts ≠ "" →
  txNoResponse texts ≠ "" → txMaybeSent texts ≠ "" → txNotSent texts ≠ "" →
  good_member (classifyResponse service operation path accepted texts target response err).
Proof using Hclock.
  intros Ha H1 H2 H3 H4 H5 H6. unfold classifyResponse. cbv zeta.
  assert (∀ s, s ≠ "" → good_log [mkEvidence EvidencePatroni (svcNow service) s "" path
                                    (patroniSendState err (rsStatusCode response))]) as Hlog.
  { intros s Hs. apply good_log_singleton. by apply good_mkEvidence; auto with go. }
  pose proof (patroniSendState_valid err (rsStatusCode response)).
  pose proof (patroniSendState_not_empty err (rsStatusCode response)).
  destruct (accepted (rsStatusCode response)) eqn:Es; [by split_member; apply Hlog|].
  destruct (negb (rsStatusCode response =? 0)%Z).
  - pose proof (classifyHTTPStatus_definite (rsStatusCode response)) as Hd.
    destruct (classifyHTTPStatus _) as [c b]. split_member; by apply Hlog.
  - pose proof (classifyReadError_definite err) as Hd. destruct (classifyReadError err) as [c b].
    destruct (patroniSendState err _) eqn:E; rewrite ?E in *;
      split_member; by apply Hlog.
Qed.

(** The verdict of a response against what the call may have done. *)
Lemma honest_classifyResponse c operation path accepted texts target response err :
  (∀ s, accepting_status c s = true → accepted s = true) →
  let r := classifyResponse service operation path accepted texts target response err in
  mwOutcome r = Failed ∨ mwSendState r = SendNotSent → rest_may_apply c (response, err) = false.
Proof.
  intros Hacc. unfold classifyResponse. cbv zeta. unfold rest_may_apply. cbn [fst snd].
  destruct (Z.eqb_spec (rsStatusCode response) 0) as [Hz|Hz].
  - cbn [negb]. rewrite Hz. unfold patroniSendState. cbn [negb Z.eqb].
    destruct (accepted 0%Z); cbn; [|destruct (classifyReadError err)];
      destruct (as_patroni err) as [[? []]|]; cbn; try done; by intros [].
  - rewrite (patroniSendState_status _ _ Hz).
    destruct (accepting_status c (rsStatusCode response)) eqn:E; [|done].
    rewrite (Hacc _ E). cbn. by intros [].
Qed.

Lemma good_classifyReload target response err : good_member (classifyReloadResponse service target response err).
Proof using Hclock. by apply good_classifyResponse. Qed.

Lemma good_classifyRestart target response err : good_member (classifyRestartResponse service target response err).
Proof using Hclock. by apply good_classifyResponse. Qed.

Lemma good_classifyReinitialize target response err :
  good_member (classifyReinitializeResponse service target response err).
Proof using Hclock. by apply good_classifyResponse. Qed.

Lemma good_classifyRestartFlush target response err :
  good_member (classifyRestartFlushResponse service target response err).
Proof using Hclock. by apply good_classifyResponse. Qed.

Lemma good_classifySwitchoverFlush target response err :
  good_member (classifySwitchoverFlushResponse service target response err).
Proof using Hclock. by apply good_classifyResponse. Qed.

Lemma good_classifyPause operation target response err :
  good_member (classifyPauseResponse service operation target response err).
Proof using Hclock. apply good_classifyResponse; try done; cbn; by apply app_not_empty_r. Qed.

Lemma good_skipped operation target cause : good_member (skippedWriteAfterCancellation service operation target cause).
Proof using Hclock.
  apply good_not_sent; [done|by apply app_not_empty_r|]. apply good_mkEvidence; try done. by apply app_not_empty_r.
Qed.

Lemma good_invalidAddress operation target snapshot : good_member (invalidRESTAddressWrite service operation target snapshot).
Proof using Hclock. apply good_not_sent; [done|by apply app_not_empty_r|]. by apply good_mkEvidence. Qed.

Lemma good_memberNotSent operation target category retryable message cause :
  definite category → message ≠ "" → good_member (memberNotSent service operation target category retryable message cause).
Proof using Hclock. intros. apply good_not_sent; [done..|]. by apply good_mkEvidence. Qed.

Lemma good_targetChange operation target : good_member (targetChangeSkipped service operation target).
Proof using Hclock.
  apply good_not_sent; [done|by apply app_not_empty_r|]. apply good_mkEvidence; try done. by apply app_not_empty_r.
Qed.

Lemma good_membershipConflict operation target snapshot :
  good_member (membershipConflict service operation target snapshot).
Proof using Hclock.
  split_member; [|by apply app_not_empty_r]. apply good_log_singleton. by apply good_mkEvidence.
Qed.
End members.

#[export] Hint Resolve good_classifyReload good_classifyRestart good_classifyReinitialize good_classifyRestartFlush
  good_classifySwitchoverFlush good_classifyPause good_skipped good_invalidAddress good_memberNotSent
  good_targetChange good_membershipConflict : go.

(** ** Lemmas: batches *)

Lemma forMembers_spec {A B} (body : A → prog B) (P : A → list event → B → Prop) l :
  (∀ x, x ∈ l → wp (body x) (P x)) →
  wp (forMembers body l) (λ tr ys, ∃ trs, tr = concat trs ∧ Forall3 P l trs ys).
Proof.
  induction l as [|x l IH]; intros Hbody; cbn [forMembers].
  { exists []. split; [done|constructor]. }
  apply wp_bind. eapply wp_mono; [|apply Hbody; set_solver]. cbn. intros tr y Hy.
  apply wp_bind. eapply wp_mono; [|apply IH; intros; apply Hbody; set_solver]. cbn. intros tr' ys (trs & -> & Hys).
  exists (tr :: trs). rewrite app_nil_r. split; [done|by constructor].
Qed.

Lemma worst_Unknown rs : foldl worst_outcome Unknown rs = Unknown.
Proof. induction rs as [|r rs IH]; [done|]. cbn. unfold worst_outcome. by destruct (mwOutcome r). Qed.

Lemma worst_Failed rs :
  foldl worst_outcome Failed rs = if flushHasAmbiguousREST rs then Unknown else Failed.
Proof.
  induction rs as [|r rs IH]; [done|]. cbn. unfold worst_outcome.
  destruct (mwOutcome r); cbn; try apply IH. apply worst_Unknown.
Qed.

(** The worst member decides. *)
Lemma batchOutcome_cases rs :
  batchOutcome rs =
  if flushHasAmbiguousREST rs then Unknown
  else if existsb (λ r, bool_decide (mwOutcome r = Failed)) rs then Failed else Succeeded.
Proof.
  unfold batchOutcome. induction rs as [|r rs IH]; [done|]. cbn. unfold worst_outcome at 2.
  destruct (mwOutcome r); cbn; try apply IH; [apply worst_Failed|apply worst_Unknown].
Qed.

Lemma good_membersEvidence rs : Forall good_member rs → Forall good_evidence (membersEvidence rs).
Proof.
  induction 1 as [|r rs Hr _ IH]; [constructor|]. unfold membersEvidence in *. cbn.
  apply Forall_app. split; [apply Hr|done].
Qed.

Lemma chunked_read silent budget pre tr members :
  Forall read_only pre → chunked silent budget tr members → chunked silent budget (pre ++ tr) members.
Proof.
  intros Hpre (pre' & chunks & -> & Hp & H). exists (pre ++ pre'), chunks. rewrite <- app_assoc.
  split; [done|]. split; [by apply Forall_app|done].
Qed.

Lemma chunked_good silent budget tr members : chunked silent budget tr members → Forall good_member members.
Proof. by intros (? & ? & _ & _ & _ & ?). Qed.

Lemma chunked_nil silent budget : chunked silent budget [] [].
Proof. exists [], []. repeat split; constructor. Qed.

Lemma forMembers_chunked silent budget body resolved :
  (∀ m, m ∈ resolved → wp (body m) (member_post silent budget m)) →
  wp (forMembers body resolved) (λ tr results,
    chunked silent budget tr results ∧ member_ids results = MemberID <$> (rmTarget <$> resolved)).
Proof.
  intros Hbody. eapply wp_mono; [|by apply forMembers_spec]. cbn. intros tr results (chunks & -> & Hall).
  cut (Forall2 (honest silent budget) chunks results ∧ Forall good_member results ∧
       member_ids results = MemberID <$> (rmTarget <$> resolved)).
  { intros (? & ? & ?). split; [|done]. by exists [], chunks. }
  clear Hbody. induction Hall as [|m tr r resolved trs rs (Hg & Ht & Hh) _ (IH1 & IH2 & IH3)]; [done|].
  split; [by constructor|]. split; [by constructor|]. unfold member_ids in *. cbn. by rewrite Ht, IH3.
Qed.

Lemma abort_chunked service operation silent budget targets conflicts :
  clock_set service → Forall good_member conflicts →
  let members := bwMembers (abortBatchForTargetChange service operation targets conflicts) in
  chunked silent budget [] members ∧ member_ids members = target_ids targets.
Proof.
  intros Hclock Hc. unfold abortBatchForTargetChange. cbv zeta. cbn [bwMembers]. set (f := λ t : Target, _). split.
  - exists [], ((λ _, []) <$> targets). split; [by induction targets|]. split; [done|]. split.
    + induction targets as [|t ts IH]; [constructor|]. cbn. constructor; [|done]. split; [by intros _|cbn; lia].
    + apply Forall_fmap, Forall_forall. intros t _. cbn. subst f. cbn.
      destruct (conflictByMember conflicts !! _) as [r|] eqn:E; [|auto with go].
      apply map_of_list_lookup_Some in E as [Hr _]. by apply (proj1 (Forall_forall _ _) Hc).
  - unfold member_ids, target_ids. rewrite <- list_fmap_compose. apply list_fmap_ext. intros i t _. cbn.
    subst f. cbn. destruct (conflictByMember conflicts !! _) as [r|] eqn:E; [|done].
    apply map_of_list_lookup_Some in E as [_ Hr]. by rewrite !MemberID_Normalize in Hr.
Qed.

Section batches.
Context (service : Service) (Hclock : clock_set service).
Context (operationID operation : string) (target : Target).
Context (Hid : operationID ≠ "") (Hop : operation ≠ "") (Ht : Target_Validate target true = None).

Lemma valid_finalizeBatchWrite members base :
  good_log base → Forall good_member members →
  Result_Validate (finalizeBatchWrite service operationID operation target PathREST
                     (mkBatchWriteData members) base) = None.
Proof using Hid Hop Ht.
  intros Hb Hm. unfold finalizeBatchWrite. cbn [bwMembers].
  assert (good_log (appendFlushEvidence base members)) as He
    by by apply good_log_app, good_membersEvidence.
  destruct (batchOutcome members) eqn:E.
  - by apply valid_success.
  - apply valid_failed; try done. by apply app_not_empty_r.
  - apply valid_unknown; try done. by apply app_not_empty_r.
  - rewrite batchOutcome_cases in E. by repeat case_match.
Qed.

Lemma finalize_post silent budget targets tr base members :
  chunked silent budget tr members → good_log base → member_ids members = target_ids targets →
  batch_post silent budget targets tr
    (finalizeBatchWrite service operationID operation target PathREST (mkBatchWriteData members) base).
Proof using Hid Hop Ht.
  intros Hc Hb Hids. split; [apply valid_finalizeBatchWrite; [done|by eapply chunked_good]|]. split; [done|by right].
Qed.

Lemma run_batch_post silent budget targets body resolved base :
  (∀ m, m ∈ resolved → wp (body m) (member_post silent budget m)) →
  good_log base → MemberID <$> (rmTarget <$> resolved) = target_ids targets →
  wp (results ← forMembers body resolved;
      mret (finalizeBatchWrite service operationID operation target PathREST (mkBatchWriteData results) base))
     (batch_post silent budget targets).
Proof using Hid Hop Ht.
  intros Hbody Hb Hids. apply wp_bind. eapply wp_mono; [|by apply forMembers_chunked].
  cbn. intros tr results [Hc Hr]. rewrite app_nil_r. apply finalize_post; [done..|]. by rewrite Hr.
Qed.

(** A changed target set: every planned target is reported, none is written. *)
Lemma abort_post silent budget targets conflicts base :
  good_log base → Forall good_member conflicts → 
  wp (mret (finalizeBatchWrite service operationID operation target PathREST
              (abortBatchForTargetChange service operation targets conflicts) base))
     (batch_post silent budget targets).
Proof using Hclock Hid Hop Ht.
  intros Hb Hc. pose proof (abort_chunked service operation silent budget targets conflicts Hclock Hc) as [H1 H2].
  by apply finalize_post.
Qed.

Lemma failed_post silent budget targets path category retryable message cause evidence :
  Path_valid path = true → definite category → message ≠ "" → Forall good_evidence evidence →
  wp (mret (failedReadWithEvidence service operationID operation target path category retryable message cause evidence))
     (batch_post silent budget targets).
Proof using Hclock Hid Hop Ht.
  intros. split; [by apply valid_failedRead|]. split; [apply chunked_nil|by left].
Qed.
End batches.

#[export] Instance batch_post_read silent budget targets : ReadClosed (batch_post silent budget targets).
Proof.
  intros pre tr r Hpre (Hv & Hc & Hm). split; [done|]. split; [by apply chunked_read|done].
Qed.

Lemma resolved_targets service operation snapshots targets role resolved :
  resolvePlannedMembersAcrossSnapshots service operation snapshots targets role = (resolved, []) →
  MemberID <$> (rmTarget <$> resolved) = target_ids targets.
Proof.
  unfold resolvePlannedMembersAcrossSnapshots. cbv zeta. intros [= <- Hr].
  revert Hr. induction targets as [|t targets IH]; [done|]. cbn.
  destruct (resolvePlannedMember _ _ _ _ t) as [m|r] eqn:E; cbn; [|done].
  intros Hr. apply resolvePlannedMember_inl in E as [-> _]. rewrite MemberID_Normalize. f_equal. by apply IH.
Qed.

Lemma resolved_conflicts service operation snapshots targets role :
  clock_set service →
  Forall good_member (resolvePlannedMembersAcrossSnapshots service operation snapshots targets role).2.
Proof.
  intros Hc. cbn. induction targets as [|t targets IH]; [constructor|]. cbn.
  destruct (resolvePlannedMember _ _ _ _ t) as [m|r] eqn:E; cbn; [done|]. constructor; [|done].
  revert E. unfold resolvePlannedMember. cbv zeta. repeat case_match; try done; intros [= <-]; auto with go.
Qed.

Section running.
Context (service : Service) (Hclock : clock_set service).

Lemma batchSnapshots_post silent budget targets operationID operation label target citus plan gate body :
  operationID ≠ "" → operation ≠ "" → Target_Validate target true = None → 
  (∀ ss message err, gate ss = Some (message, err) → message ≠ "") →
  (∀ snapshots evidence, Forall (version_gated service) snapshots → good_log evidence →
     wp (body snapshots evidence) (batch_post silent budget targets)) →
  wp (batchSnapshots service operationID operation label target citus plan gate body) (batch_post silent budget targets).
Proof using Hclock.
  intros Hid Hop Ht Hgate Hbody. unfold batchSnapshots.
  destruct (negb (svcPatroni service)); [apply failed_post; try done; by apply app_not_empty_r|].
  eapply wp_bind_read; [apply _|by apply operationSnapshots_spec|].
  intros [failure|[snapshots evidence]] Hr.
  - destruct failure as [f ev]. destruct Hr as (? & ? & ?). by apply failed_post.
  - destruct Hr as (_ & Hg & He). destruct (gate snapshots) as [[message err]|] eqn:E.
    + apply failed_post; try done; [by eapply Hgate|apply He].
    + destruct (_ !=s _); [|by apply Hbody].
      apply failed_post; try done; [by apply app_not_empty_r|apply He].
Qed.
End running.


(** A valid cluster target survives the member selector of the request. *)
Lemma normalizeMemberRequest_valid target members checks :
  Target_Validate target true = None →
  Target_Validate (normalizeMemberRequest target members checks).1.1 true = None.
Proof.
  intros Ht. unfold normalizeMemberRequest, mergeMembers. cbv zeta.
  pose proof (Target_Validate_drop_member (Normalize target) true) as Hd. rewrite Target_Validate_Normalize in Hd.
  pose proof (Target_Validate_Normalize target true) as Hn. rewrite Ht in Hn.
  repeat case_match; simplify_eq/=; eauto.
Qed.

(** The history of one REST write. *)
Lemma honest_one_write c r result :
  is_write c = true →
  (mwOutcome result = Failed ∨ mwSendState result = SendNotSent → may_have_applied (Ev c r) = false) →
  honest quiet 1 [Ev CCtxErr None; Ev c r] result.
Proof.
  intros Hc Hq. split.
  - intros Hr. constructor; [done|]. constructor; [by apply Hq|constructor].
  - unfold writes. cbn. by rewrite Hc.
Qed.

Lemma writes_app tr tr' : writes (tr ++ tr') = (writes tr + writes tr')%nat.
Proof. unfold writes. by rewrite List.filter_app, length_app. Qed.

Lemma writes_read_only tr : Forall read_only tr → writes tr = 0%nat.
Proof. induction 1 as [|e tr He _ IH]; [done|]. unfold writes in *. cbn. by rewrite He. Qed.

Lemma member_post_quiet m tr result silent budget :
  good_member result → mwTarget result = rmTarget m → Forall silent tr → Forall read_only tr →
  member_post silent budget m tr result.
Proof.
  intros Hg Ht Hs Hr. split; [done|]. split; [done|]. split; [done|]. rewrite writes_read_only by done. lia.
Qed.

(** * Members asked one after another until one answers: what pause and the
    switchover flush share

    The write goes to the members leader first; an answer that settles the
    request ends the loop, and silence moves on to the next member.  The loop
    may fail only when none of its requests can have been applied, which the
    accumulated member results have to tell. *)

(** ** Predicates of the theorems *)

(** A write that got an HTTP answer. *)
Definition http_answered (e : event) : bool :=
  match e with
  | Ev c r =>
      match c return reply c → bool with
      | CPatchConfig _ _ | CDeleteSwitchover _ => λ r, negb (rsStatusCode r.1 =? 0)%Z
      | _ => λ _, false
      end r
  end.

(** Nothing is written after a write that was answered. *)
Fixpoint answer_ends (tr : list event) : Prop :=
  match tr with
  | [] => True
  | e :: tr => (http_answered e = true → Forall read_only tr) ∧ answer_ends tr
  end.

(** The write loop after the calls [pre]: what its accumulated results say. *)
Record loop_state (pre : list event) (results : list MemberWriteResult) : Prop := {
  ls_good : Forall good_member results;
  ls_quiet : flushHasAmbiguousREST results = false → Forall quiet pre
}.

(** A member of the loop: its calls and its result; [shown] recognises the
    answer that grants the request. *)
Definition attempt_post (shown : event → bool) (tr : list event) (r : MemberWriteResult) : Prop :=
  good_member r ∧ ((mwOutcome r = Failed ∨ mwSendState r = SendNotSent) → Forall quiet tr) ∧
  (mwOutcome r = Succeeded → mwHTTPStatus r = 200%Z) ∧
  (mwHTTPStatus r = 200%Z → mwOutcome r = Succeeded ∧ existsb shown tr = true) ∧
  (mwHTTPStatus r = 0%Z → Forall (λ e, http_answered e = false) tr) ∧ answer_ends tr.

(** ** Lemmas: histories *)

Lemma answer_ends_app pre tr :
  Forall (λ e, http_answered e = false) pre → answer_ends tr → answer_ends (pre ++ tr).
Proof. induction 1 as [|e pre He _ IH]; [done|]. cbn. rewrite He. by split; [|apply IH]. Qed.

Lemma read_only_unanswered tr : Forall read_only tr → Forall (λ e, http_answered e = false) tr.
Proof. intros H. eapply Forall_impl; [done|]. intros e He. by destruct e as [[] r]. Qed.

Lemma answer_ends_read tr : Forall read_only tr → answer_ends tr.
Proof.
  intros H. rewrite <- (app_nil_r tr). apply answer_ends_app; [by apply read_only_unanswered|done].
Qed.

Lemma answer_ends_then_read pre tr : answer_ends pre → Forall read_only tr → answer_ends (pre ++ tr).
Proof.
  intros Hp Hr. induction pre as [|e pre IH]; [by apply answer_ends_read|]. destruct Hp as [He Hp]. split; [|by apply IH].
  intros Ha. apply Forall_app. split; [by apply He|done].
Qed.

(** ** Lemmas: one member *)

(** A member that is not called. *)
Lemma attempt_not_sent shown r :
  good_member r → mwOutcome r = Failed → mwHTTPStatus r = 0%Z → attempt_post shown [] r.
Proof.
  intros Hg Ho Hs. split; [done|]. split; [done|]. split; [by rewrite Ho|]. split; [by rewrite Hs|]. split; [constructor|done].
Qed.

(** The status of a classified response is the answer's. *)
Lemma classifyResponse_status service operation path accepted texts target response err :
  mwHTTPStatus (classifyResponse service operation path accepted texts target response err) = rsStatusCode response.
Proof.
  unfold classifyResponse. cbv zeta. destruct (accepted _); [done|]. destruct (Z.eqb_spec (rsStatusCode response) 0) as [->|]; cbn;
    repeat case_match; done.
Qed.

Lemma classifyResponse_succeeded service operation path accepted texts target response err :
  mwOutcome (classifyResponse service operation path accepted texts target response err) = Succeeded ↔
  accepted (rsStatusCode response) = true.
Proof. unfold classifyResponse. cbv zeta. destruct (accepted _); repeat case_match; done. Qed.

(** ** Lemmas: the loop *)

Lemma loop_state_nil pre : Forall quiet pre → loop_state pre [].
Proof. by split. Qed.

Lemma loop_state_quiet pre tr results : loop_state pre results → Forall quiet tr → loop_state (pre ++ tr) results.
Proof. intros [Hg Hq] Htr. split; [done|]. intros Ha. apply Forall_app. split; [by apply Hq|done]. Qed.

(** A refused or silent member, when no member is ambiguous, was not written. *)
Lemma attempt_failed shown tr r :
  attempt_post shown tr r → mwHTTPStatus r ≠ 200%Z → mwOutcome r ≠ Unknown → Forall quiet tr.
Proof.
  intros (Hr & Hf & Hs & _) H200 Hu. apply Hf. left. destruct Hr as (_ & _ & _ & _ & Hv). unfold good_verdict in Hv.
  destruct (mwOutcome r); try done. by specialize (Hs eq_refl).
Qed.

(** The loop keeps its state over a member that did not grant the request. *)
Lemma loop_state_snoc pre results tr r shown :
  loop_state pre results → attempt_post shown tr r → mwHTTPStatus r ≠ 200%Z → loop_state (pre ++ tr) (results ++ [r]).
Proof.
  intros [Hg Hq] Hr H200. split; [apply Forall_app; split; [done|by apply Forall_singleton, Hr]|].
  unfold flushHasAmbiguousREST. rewrite existsb_app. intros [Ha Hb]%orb_false_iff. cbn in Hb.
  rewrite orb_false_r in Hb. apply bool_decide_eq_false in Hb. apply Forall_app. split; [by apply Hq|].
  by eapply attempt_failed.
Qed.

Lemma loop_evidence results evidence :
  good_log evidence → Forall good_member results → good_log (appendFlushEvidence evidence results).
Proof. intros. by apply good_log_app, good_membersEvidence. Qed.

Lemma answer_ends_unanswered tr : Forall (λ e, http_answered e = false) tr → answer_ends tr.
Proof. intros. rewrite <- (app_nil_r tr). by apply answer_ends_app. Qed.
