(* ===== verification/Reload.v ===== *)
(** * Reload: [control/reload.go] *)

From S2P Require Import Prelude GoStrings GoErrors GoTime Target Version Values Dcs.
From S2P Require Import Effects Contract Select Snapshots Batch Samples.

Record ReloadRequest := mkReloadRequest {
  rlTarget : Target;
  rlMembers : list string;
  rlRole : Role;
  rlCitus : bool
}.

Definition normalizeReloadRequest (request : ReloadRequest) : normalized_request :=
  normalizeMemberRequest (rlTarget request) (rlMembers request) (role_error (rlRole request)).

Section with_std.
  Context `{GoStd}.

Definition reloadPlan (operationID : string) (request : ReloadRequest) (target : Target)
    (members : list string) (snapshots : list Snapshot) (targets : list Target) : Plan :=
  let first := first_snapshot snapshots in
  mkPlan operationID "reload" target targets PathREST RiskAdminWrite UnsafeAfterSend
    (selected_summary "reload" targets)
    [mkPrecondition "dcs.revision" (FormatInt (snRevision first)) EvidenceDCS;
     mkPrecondition "selector.role" (Role_text (normalizedWriteRole (rlRole request))) EvidenceControl;
     mkPrecondition "selector.members" (Join members ",") EvidenceControl;
     mkPrecondition "selector.citus" (FormatBool (rlCitus request)) EvidenceControl;
     mkPrecondition "citus.groups" (snapshotGroupIDs snapshots) EvidenceDCS;
     mkPrecondition "cluster.loopWait" (FormatInt (clusterLoopWait (csConfig (snCluster first)))) EvidenceDCS].

Definition PrepareReload (service : Service) (ctx : bool) (request : ReloadRequest) : prog (Result Plan) :=
  operationID ← operationID;
  let '(target, requestedMembers, validationError) := normalizeReloadRequest request in
  let fail category message cause evidence :=
    mret (failedReadWithEvidence service operationID "reload" target PathREST category false message cause evidence) in
  if negb ctx then fail CategoryUsage "reload requires a context" None []
  else if negb (is_nil validationError) then fail CategoryUsage "reload request is invalid" validationError []
  else
    r ← operationSnapshots service "reload" target (rlCitus request) false;
    match r with
    | inl failure => mret (failureResult service operationID "reload" target PathREST failure)
    | inr (snapshots, evidence) =>
        let targets := rmTarget <$>
          selectedMembers (λ c, selectMembers c (normalizedWriteRole (rlRole request)) requestedMembers true) snapshots in
        if is_nil (head targets) then fail CategoryNotFound "reload found no matching members" None evidence
        else
          let plan := reloadPlan operationID request target requestedMembers snapshots targets in
          match Plan_Validate plan with
          | Some err => fail CategoryInternal "reload plan construction failed" (Some err) evidence
          | None => mret (planResult operationID target PathREST plan evidence)
          end
    end.

Definition validateReloadPlan (plan : Plan) (target : Target) (role : Role) (members : list string)
    (citus : bool) : option goerror :=
  validatePlanContract plan "reload" PathREST RiskAdminWrite target
    (if fields_match plan [("selector.role", Role_text role); ("selector.members", Join members ",");
                           ("selector.citus", FormatBool citus)]
        && negb (is_nil (expectedPrecondition plan "citus.groups"))
     then None else Some (EText "plan selectors differ from request")).

(** One resolved member. *)
Definition reloadMember (service : Service) (m : resolvedPlannedMember) : prog MemberWriteResult :=
  cancelled ← do_call CCtxErr;
  match cancelled with
  | Some err => mret (skippedWriteAfterCancellation service "reload" (rmTarget m) (Some err))
  | None =>
      match patroniBaseURL (mdAPIURL (mbData (rmMember m))) with
      | None => mret (invalidRESTAddressWrite service "reload" (rmTarget m) (rmSnapshot m))
      | Some baseURL =>
          r ← do_call (CPostReload baseURL);
          mret (classifyReloadResponse service (rmTarget m) r.1 r.2)
      end
  end.

Definition ExecuteReload (service : Service) (ctx : bool) (request : ReloadRequest) (plan : Plan)
    : prog (Result BatchWriteData) :=
  operationID ← planOperationID plan;
  let '(target, requestedMembers, requestError) := normalizeReloadRequest request in
  let role := normalizedWriteRole (rlRole request) in
  let fail message cause :=
    mret (failedRead service operationID "reload" target PathREST CategoryUsage false message cause []) in
  if negb ctx then fail "reload requires a context" None
  else if negb (is_nil requestError) then fail "reload request is invalid" requestError
  else match validateReloadPlan plan target role requestedMembers (rlCitus request) with
  | Some err => fail "reload plan does not match the request" (Some err)
  | None =>
      batchSnapshots service operationID "reload" "reload" target (rlCitus request) plan (λ _, None) (λ snapshots evidence,
        let '(resolved, conflicts) :=
          resolvePlannedMembersAcrossSnapshots service "reload" snapshots (pTargets plan) role in
        if negb (is_nil (head conflicts)) then
          mret (finalizeBatchWrite service operationID "reload" target PathREST
                  (abortBatchForTargetChange service "reload" (pTargets plan) conflicts) evidence)
        else
          results ← forMembers (reloadMember service) resolved;
          mret (finalizeBatchWrite service operationID "reload" target PathREST (mkBatchWriteData results) evidence))
  end.

End with_std.

(** ** Lemmas *)

Section lemmas.
Context `{GoStd} (service : Service) (Hclock : clock_set service).

Lemma reloadMember_post m : wp (reloadMember service m) (member_post quiet 1 m).
Proof using Hclock.
  apply wp_call. intros [err|]; cbn.
  { apply member_post_quiet; [auto with go|done|by repeat constructor|by repeat constructor]. }
  destruct (patroniBaseURL _) as [url|]; cbn.
  - intros r. split; [auto with go|]. split.
    { unfold classifyReloadResponse, classifyResponse. cbv zeta. repeat case_match; done. }
    apply honest_one_write; [done|]. destruct r as [response err].
    by apply (honest_classifyResponse service (CPostReload url)).
  - apply member_post_quiet; [auto with go|done|by repeat constructor|by repeat constructor].
Qed.
End lemmas.

(** ** Properties *)

(** Whatever the DCS and Patroni answer, [ExecuteReload] on a valid cluster
    target returns a valid result; it writes nothing unless every planned
    member resolved in a fresh, version-checked snapshot; each planned member
    is reloaded at most once, in plan order; a member reported as failed or
    not sent was not reloaded; and the batch outcome is the worst member's. *)
Theorem ExecuteReload_batch `{GoStd} service ctx request plan :
  clock_set service → Target_Validate (rlTarget request) true = None →
  wp (ExecuteReload service ctx request plan) (batch_post quiet 1 (pTargets plan)).
Proof.
  intros Hclock Ht. unfold ExecuteReload.
  eapply wp_bind_read; [apply _|apply planOperationID_spec|]. intros id Hid.
  pose proof (normalizeMemberRequest_valid _ (rlMembers request) (role_error (rlRole request)) Ht) as Hn.
  unfold normalizeReloadRequest. destruct (normalizeMemberRequest _ _ _) as [[target members] err]. cbn in Hn.
  destruct (negb ctx); [by apply failed_post|]. destruct (negb (is_nil err)); [by apply failed_post|].
  destruct (validateReloadPlan _ _ _ _ _); [by apply failed_post|].
  apply batchSnapshots_post; try done. intros snapshots evidence _ He.
  destruct (resolvePlannedMembersAcrossSnapshots _ _ _ _ _) as [resolved conflicts] eqn:Er.
  pose proof (resolved_conflicts service "reload" snapshots (pTargets plan) (normalizedWriteRole (rlRole request)) Hclock) as Hc.
  rewrite Er in Hc. destruct conflicts as [|c conflicts]; cbn [head is_nil negb]; [|by apply abort_post].
  apply run_batch_post; try done; [intros; by apply reloadMember_post|by eapply resolved_targets].
Qed.

Lemma ExecuteReload_batch_witness :
  let request := mkReloadRequest sample_target [] RoleAny false in
  let plan := prepared_plan steady (PrepareReload sample_service true request) in
  let r := run (answers steady steady (status 202) applied) [] (ExecuteReload sample_service true request plan) in
  rOutcome r.2 = Succeeded ∧ batch_post quiet 1 (pTargets plan) r.1 r.2.
Proof. split; [vm_compute; reflexivity|]. apply wp_run, ExecuteReload_batch; vm_compute; reflexivity. Defined.
