(* ===== verification/Restart.v ===== *)
(** * Restart: [control/restart.go] *)

From S2P Require Import Prelude GoStrings GoErrors GoTime Target Version Values Dcs.
From S2P Require Import Effects Contract Readback Select Snapshots Batch Samples.

Record RestartRequest := mkRestartRequest {
  rtTarget : Target;
  rtMembers : list string;
  rtRole : Role;
  rtAny : bool;
  rtScheduledAt : option Time;
  rtPostgresVersion : string;
  rtPending : bool;
  rtTimeout : string;
  rtForce : bool;
  rtCitus : bool
}.

(** [validatePostgresVersion]: X.Y.Z, or X.Y from PostgreSQL 10. *)
Definition nonnegative_component (part : string) : option Z :=
  match ParseInt part with Some c => if (c <? 0)%Z then None else Some c | None => None end.

Definition validatePostgresVersion (v : string) : option goerror :=
  let parts := Split "." v in
  if ((length parts <? 2) || (3 <? length parts))%nat
  then Some (EText "postgresql version must use X.Y or X.Y.Z")
  else match mapM nonnegative_component parts with
       | None => Some (EText "postgresql version contains a non-numeric component")
       | Some [major; _] => if (major <? 10)%Z then Some (EText "pre-10 PostgreSQL versions require X.Y.Z") else None
       | Some _ => None
       end.

Section with_std.
  Context `{GoStd}.

Definition restart_checks (request : RestartRequest) : option goerror :=
  match role_error (rtRole request) with
  | Some err => Some err
  | None =>
      if match rtScheduledAt request with Some t => IsZero t | None => false end
      then Some (EText "scheduled restart time is zero")
      else match (if rtPostgresVersion request !=s "" then validatePostgresVersion (rtPostgresVersion request) else None) with
      | Some err => Some err
      | None => if (rtTimeout request !=s "") && negb (validateRestartTimeout (rtTimeout request))
                then Some (EText "restart timeout must be a positive duration") else None
      end
  end.

Definition normalizeRestartRequest (request : RestartRequest) : normalized_request :=
  normalizeMemberRequest (rtTarget request) (rtMembers request) (restart_checks request).

Definition restartPreconditions (revision : Z) (request : RestartRequest) (members : list string)
    (groups : string) : list Precondition :=
  [mkPrecondition "dcs.revision" (FormatInt revision) EvidenceDCS;
   mkPrecondition "selector.role" (Role_text (normalizedWriteRole (rtRole request))) EvidenceControl;
   mkPrecondition "selector.members" (Join members ",") EvidenceControl;
   mkPrecondition "selector.citus" (FormatBool (rtCitus request)) EvidenceControl;
   mkPrecondition "citus.groups" groups EvidenceDCS;
   mkPrecondition "restart.any" (FormatBool (rtAny request)) EvidenceControl;
   mkPrecondition "restart.schedule"
     match rtScheduledAt request with Some t => FormatRFC3339Nano t | None => "" end EvidenceControl;
   mkPrecondition "restart.postgresVersion" (rtPostgresVersion request) EvidenceControl;
   mkPrecondition "restart.pending" (FormatBool (rtPending request)) EvidenceControl;
   mkPrecondition "restart.timeout" (rtTimeout request) EvidenceControl;
   mkPrecondition "restart.force" (FormatBool (rtForce request)) EvidenceControl].

Definition validateRestartPlan (plan : Plan) (target : Target) (request : RestartRequest) (members : list string)
    : option goerror :=
  validatePlanContract plan "restart" PathREST RiskAvailability target
    (if preconditions_match plan (tail (restartPreconditions 0 request members ""))
     then None else Some (EText "plan differs from request")).

Definition cluster_paused (snapshot : Snapshot) : bool :=
  boolConfig (map_index (csConfig (snCluster snapshot)) "pause").

Definition immediate_pending (request : RestartRequest) : bool :=
  rtPending request && is_nil (rtScheduledAt request).

Definition restartPick (request : RestartRequest) (requestedMembers : list string) (cluster : ClusterState)
    : list Member :=
  let members := selectMembers cluster (normalizedWriteRole (rtRole request)) requestedMembers true in
  if immediate_pending request then pendingRestartMembers members else members.

(** [if request.Any && len(selected) > 0]: one member drawn at random. *)
Definition pickAny (request : RestartRequest) (selected : list resolvedPlannedMember)
    : prog (option goerror + list resolvedPlannedMember) :=
  if rtAny request && negb (is_nil (head selected)) then
    r ← do_call (CRandomIndex (Z.of_nat (length selected)));
    let '(index, randomError) := r in
    mret (if negb (is_nil randomError) || (index <? 0)%Z || (Z.of_nat (length selected) <=? index)%Z
          then inl randomError
          else inr (option_list (selected !! Z.to_nat index)))
  else mret (inr selected).

Definition PrepareRestart (service : Service) (ctx : bool) (request : RestartRequest) : prog (Result Plan) :=
  operationID ← operationID;
  let '(target, requestedMembers, requestError) := normalizeRestartRequest request in
  let fail category message cause evidence :=
    mret (failedReadWithEvidence service operationID "restart" target PathREST category false message cause evidence) in
  if negb ctx then fail CategoryUsage "restart requires a context" None []
  else if negb (is_nil requestError) then fail CategoryUsage "restart request is invalid" requestError []
  else
    r ← operationSnapshots service "restart" target (rtCitus request) false;
    match r with
    | inl failure => mret (failureResult service operationID "restart" target PathREST failure)
    | inr (snapshots, evidence) =>
        match (if is_nil (rtScheduledAt request) then None else find_first cluster_paused snapshots) with
        | Some paused =>
            fail CategoryConflict "cannot schedule restart while the cluster is paused" None
              (evidence ++ [snapshotEvidence service paused "paused cluster state observed"])
        | None =>
            chosen ← pickAny request (selectedMembers (restartPick request requestedMembers) snapshots);
            match chosen with
            | inl randomError =>
                fail CategoryInternal "restart random member selection failed" randomError evidence
            | inr selected =>
                if is_nil (head selected)
                then fail CategoryNotFound "restart found no matching members" None evidence
                else
                  let targets := rmTarget <$> selected in
                  let plan := mkPlan operationID "restart" target targets PathREST RiskAvailability UnsafeAfterSend
                                (selected_summary "restart" targets)
                                (restartPreconditions (snRevision (first_snapshot snapshots)) request
                                   requestedMembers (snapshotGroupIDs snapshots)) in
                  match Plan_Validate plan with
                  | Some err => fail CategoryInternal "restart plan construction failed" (Some err) evidence
                  | None => mret (planResult operationID target PathREST plan evidence)
                  end
            end
        end
    end.

(** ** Execution *)

(** [requirePendingRestart] *)
Definition pendingConflict (service : Service) (m : resolvedPlannedMember) : MemberWriteResult :=
  not_sent_result service "restart" (rmTarget m) CategoryConflict false
    "restart was not sent because pending-restart state changed" None
    (mkEvidence EvidenceDCS (svcNow service) "confirmed member no longer has pending restart"
       (FormatInt (snRevision (rmSnapshot m))) (snPrefix (rmSnapshot m)) SendNotSent).

Definition requirePendingRestart (service : Service) (resolved : list resolvedPlannedMember)
    (conflicts : list MemberWriteResult) : list resolvedPlannedMember * list MemberWriteResult :=
  (List.filter (λ m, pending_restart (rmMember m)) resolved,
   conflicts ++ (pendingConflict service <$> List.filter (λ m, negb (pending_restart (rmMember m))) resolved)).

Definition scheduledRestartReading (memberName : string) (scheduledAt : Time) : Reading unit :=
  mkReading "scheduled restart verification canceled" "scheduled restart verification snapshot failed"
    (λ snapshot, (tt, existsb (λ m, (mbName m ==s memberName) &&
                        scheduledRestartMatches (mdScheduledRestart (mbData m)) scheduledAt)
                      (csMembers (snCluster snapshot))))
    (λ matched, if matched then "scheduled restart observed in DCS" else "scheduled restart not yet observed in DCS").

Definition verifyScheduledRestart (service : Service) (target : Target) (memberName : string) (scheduledAt : Time)
    : prog (verdict unit) :=
  readback service (with_member target "") (scheduledRestartReading memberName scheduledAt) tt.

Definition restartPayload (request : RestartRequest) : RestartPayload :=
  mkRestartPayload (if rtPending request then Some true else None)
    match rtScheduledAt request with Some t => formatPatroniTimestamp t | None => "" end
    (rtPostgresVersion request) (rtTimeout request).

(** The readback of a scheduled restart and the verdict it gives. *)
Definition settleScheduledRestart (service : Service) (request : RestartRequest) (m : resolvedPlannedMember)
    (status : Z) (callError : option goerror) (result : MemberWriteResult) : prog MemberWriteResult :=
  match rtScheduledAt request with
  | None => mret result
  | Some scheduledAt =>
      if (status =? 202)%Z || bool_decide (mwSendState result = SendMaybeSent)
         || (bool_decide (mwSendState result = SendAccepted) && (status =? 0)%Z) then
        v ← verifyScheduledRestart service (rmTarget m) (mbName (rmMember m)) scheduledAt;
        let evidence := mwEvidence result ++ v.2 in
        mret (if (v.1.1 : bool) then
                with_verdict result Succeeded VerifiedSucceeded "scheduled restart verified in DCS" None evidence
              else if bool_decide (mwOutcome result = Failed) then
                with_verdict result (mwOutcome result) (mwVerification result) (mwSummary result)
                  (mwError result) evidence
              else
                with_verdict result Unknown Unverified "scheduled restart was not verified in DCS"
                  (Some (NewError CategoryUnknown "restart" (rmTarget m) false
                           "scheduled restart outcome is unknown; verify before retrying" callError evidence))
                  evidence)
      else mret result
  end.

(** [POST /restart] for one member, after any replacement flush. *)
Definition sendRestart (service : Service) (request : RestartRequest) (m : resolvedPlannedMember)
    (baseURL : string) (prefixEvidence : list Evidence) : prog MemberWriteResult :=
  r ← do_call (CPostRestart baseURL (restartPayload request));
  let result := classifyRestartResponse service (rmTarget m) r.1 r.2 in
  settleScheduledRestart service request m (rsStatusCode r.1) r.2
    (with_verdict result (mwOutcome result) (mwVerification result) (mwSummary result) (mwError result)
       (prefixEvidence ++ mwEvidence result)).

Definition restartMember (service : Service) (request : RestartRequest) (m : resolvedPlannedMember)
    : prog MemberWriteResult :=
  cancelled ← do_call CCtxErr;
  match cancelled with
  | Some err => mret (skippedWriteAfterCancellation service "restart" (rmTarget m) (Some err))
  | None =>
      match patroniBaseURL (mdAPIURL (mbData (rmMember m))) with
      | None => mret (invalidRESTAddressWrite service "restart" (rmTarget m) (rmSnapshot m))
      | Some baseURL =>
          if negb (is_nil (rtScheduledAt request)) && rtForce request && hasScheduledRestart (rmMember m) then
            f ← do_call (CDeleteRestart baseURL);
            let '(flushResult, continueRestart) := classifyForcedRestartFlush service (rmTarget m) f.1 f.2 in
            if negb continueRestart then mret flushResult
            else sendRestart service request m baseURL (mwEvidence flushResult)
          else sendRestart service request m baseURL []
      end
  end.

Definition ExecuteRestart (service : Service) (ctx : bool) (request : RestartRequest) (plan : Plan)
    : prog (Result BatchWriteData) :=
  operationID ← planOperationID plan;
  let '(target, requestedMembers, requestError) := normalizeRestartRequest request in
  let fail message cause :=
    mret (failedRead service operationID "restart" target PathREST CategoryUsage false message cause []) in
  if negb ctx then fail "restart requires a context" None
  else if negb (is_nil requestError) then fail "restart request is invalid" requestError
  else match validateRestartPlan plan target request requestedMembers with
  | Some err => fail "restart plan does not match the request" (Some err)
  | None =>
      batchSnapshots service operationID "restart" "restart" target (rtCitus request) plan (λ _, None)
        (λ snapshots evidence,
        let '(resolved, conflicts) :=
          resolvePlannedMembersAcrossSnapshots service "restart" snapshots (pTargets plan)
            (normalizedWriteRole (rtRole request)) in
        let '(resolved, conflicts) :=
          if immediate_pending request then requirePendingRestart service resolved conflicts
          else (resolved, conflicts) in
        if negb (is_nil (head conflicts)) then
          mret (finalizeBatchWrite service operationID "restart" target PathREST
                  (abortBatchForTargetChange service "restart" (pTargets plan) conflicts) evidence)
        else
          results ← forMembers (restartMember service request) resolved;
          mret (finalizeBatchWrite service operationID "restart" target PathREST (mkBatchWriteData results) evidence))
  end.

End with_std.

(** ** Predicates of the theorems *)

(** No restart may have been applied.  A forced scheduled restart first deletes
    the schedule it replaces; that deletion is not the restart. *)
Definition restart_quiet (e : event) : Prop :=
  quiet e ∨ match ev_call e with CDeleteRestart _ => True | _ => False end.

(** ** Lemmas *)

Lemma quiet_restart_quiet e : quiet e → restart_quiet e.
Proof. by left. Qed.

Lemma read_only_restart_quiet tr : Forall read_only tr → Forall restart_quiet tr.
Proof. intros H. eapply Forall_impl; [exact H|]. intros e He. left. by apply read_only_quiet. Qed.

Section lemmas.
Context `{GoStd} (service : Service) (Hclock : clock_set service).

Lemma verifyScheduledRestart_spec target name at_ :
  wp_all read_only (verifyScheduledRestart service target name at_) (λ v, Forall good_evidence v.2).
Proof using Hclock. apply readback_read; [done|]. split; [done|]. split; [done|]. by intros []. Qed.

(** The readback keeps a definite failure and never turns a result into one. *)
Lemma settle_spec request m status err result :
  good_member result →
  wp_all read_only (settleScheduledRestart service request m status err result)
    (λ r, good_member r ∧ mwTarget r = mwTarget result ∧ mwSendState r = mwSendState result ∧
          (mwOutcome r = Failed → mwOutcome result = Failed)).
Proof using Hclock.
  intros Hg. unfold settleScheduledRestart. destruct (rtScheduledAt request) as [t|]; [|by apply wp_all_ret].
  destruct (_ || _); [|by apply wp_all_ret].
  eapply wp_all_bind; [by apply verifyScheduledRestart_spec|]. intros [[verified u] evidence] He. apply wp_all_ret.
  cbn in He. assert (good_log (mwEvidence result ++ evidence)) as Hlog by (apply good_log_app; [apply Hg|done]).
  cbn [fst snd]. destruct verified; [|destruct (bool_decide_reflect (mwOutcome result = Failed))].
  - split; [by apply good_with_verdict_success|done].
  - split; [by apply good_with_verdict_same|done].
  - split; [by apply good_with_verdict_unknown|done].
Qed.

Lemma sendRestart_spec request m url evidence :
  Forall good_evidence evidence →
  wp (sendRestart service request m url evidence) (λ tr r,
    good_member r ∧ mwTarget r = rmTarget m ∧
    ((mwOutcome r = Failed ∨ mwSendState r = SendNotSent) → Forall quiet tr) ∧ writes tr = 1%nat).
Proof using Hclock.
  intros He. apply wp_call. intros [response err]. cbv zeta. cbn [fst snd].
  set (result := classifyRestartResponse service (rmTarget m) response err).
  assert (good_member result) as Hg by (subst result; auto with go).
  assert (mwTarget result = rmTarget m) as Ht.
  { unfold result, classifyRestartResponse, classifyResponse. cbv zeta. repeat case_match; done. }
  eapply wp_mono; [|apply settle_spec].
  - cbn. intros tr r [Htr (Hr & Hrt & Hs & Ho)]. cbn in Hrt, Hs, Ho. split; [done|]. split; [congruence|]. split.
    + intros Hf. constructor; [|by apply Forall_read_only_quiet].
      assert (mwOutcome result = Failed ∨ mwSendState result = SendNotSent) as Hres
        by (destruct Hf as [Hf|Hf]; [left; by apply Ho|right; congruence]).
      revert Hres. by apply (honest_classifyResponse service (CPostRestart url (restartPayload request))).
    + change (writes ([Ev (CPostRestart url (restartPayload request)) (response, err)] ++ tr) = 1%nat).
      rewrite writes_app, (writes_read_only tr) by done. done.
  - apply good_with_verdict_same; [done|]. destruct (proj1 Hg) as [Hne Hge]. split; [by destruct evidence|].
    by apply Forall_app.
Qed.

Lemma restartMember_post request m : wp (restartMember service request m) (member_post restart_quiet 2 m).
Proof using Hclock.
  assert (∀ tr r, Forall read_only tr → good_member r → mwTarget r = rmTarget m →
            member_post restart_quiet 2 m tr r) as Hquiet.
  { intros. apply member_post_quiet; try done. by apply read_only_restart_quiet. }
  apply wp_call. intros [err|]; cbn; [apply Hquiet; [by repeat constructor|auto with go|done]|].
  destruct (patroniBaseURL _) as [url|]; [|cbn; apply Hquiet; [by repeat constructor|auto with go|done]].
  assert (∀ pre evidence, Forall restart_quiet pre → (writes pre ≤ 1)%nat → Forall good_evidence evidence →
    wp (sendRestart service request m url evidence)
       (λ tr r, member_post restart_quiet 2 m (pre ++ tr) r)) as Hsend.
  { intros pre evidence Hpre Hw He. eapply wp_mono; [|by apply sendRestart_spec].
    cbn. intros tr r (Hg & Ht & Hq & Hn). split; [done|]. split; [done|]. split.
    - intros Hf. apply Forall_app. split; [done|]. eapply Forall_impl; [by apply Hq|apply quiet_restart_quiet].
    - rewrite writes_app, Hn. lia. }
  destruct (_ && _).
  - apply wp_call. intros [response err]. cbn [fst snd]. unfold classifyForcedRestartFlush. cbv zeta.
    set (ev := mkEvidence _ _ _ _ _ _).
    assert (good_evidence ev) as Hev by (subst ev; apply good_mkEvidence; auto with go).
    assert (∀ r, Forall restart_quiet [Ev CCtxErr None; Ev (CDeleteRestart url) r]) as Hpre.
    { intros r. constructor; [by left|]. constructor; [by right|constructor]. }
    assert (∀ r, good_member r → mwTarget r = rmTarget m →
              member_post restart_quiet 2 m [Ev CCtxErr None; Ev (CDeleteRestart url) (response, err)] r) as Hstop.
    { intros r Hg Ht. split; [done|]. split; [done|]. split; [intros _; apply Hpre|]. cbn. lia. }
    assert (∀ evidence, Forall good_evidence evidence →
      wp (sendRestart service request m url evidence) (λ tr r,
        member_post restart_quiet 2 m (Ev CCtxErr None :: Ev (CDeleteRestart url) (response, err) :: tr) r)) as Hgo.
    { intros evidence He. apply (Hsend [_; _] evidence (Hpre _)); [cbn; lia|done]. }
    pose proof (good_log_singleton ev Hev) as Hlog.
    pose proof (classifyReadError_definite err) as Hd. destruct (classifyReadError err) as [c b].
    destruct (rsStatusCode response =? 0)%Z eqn:Ez; cbn [negb].
    + destruct (patroniSendState err (rsStatusCode response)) eqn:Es; cbn;
        apply Hstop; try done; by split_member.
    + destruct (classifyHTTPStatus _). destruct (400 <=? _)%Z; cbn; apply (Hgo [ev]), Hlog.
  - apply (Hsend [Ev CCtxErr None] []); [by repeat constructor; left|cbn; lia|done].
Qed.
End lemmas.

(** With no conflict left, the pending filter kept every member. *)
Lemma requirePending_nil service (b : bool) resolved conflicts resolved' :
  (if b then requirePendingRestart service resolved conflicts else (resolved, conflicts)) = (resolved', []) →
  resolved' = resolved ∧ conflicts = [].
Proof.
  destruct b; [|by intros [= -> ->]]. unfold requirePendingRestart. intros [= <- [-> Hf]%app_eq_nil]. split; [|done].
  apply fmap_nil_inv in Hf. induction resolved as [|m l IH]; [done|]. cbn in Hf |- *.
  destruct (pending_restart (rmMember m)); cbn in Hf; [|done]. f_equal. by apply IH.
Qed.

Lemma requirePending_good service (b : bool) resolved conflicts resolved' conflicts' :
  clock_set service → Forall good_member conflicts →
  (if b then requirePendingRestart service resolved conflicts else (resolved, conflicts)) = (resolved', conflicts') →
  Forall good_member conflicts'.
Proof.
  intros Hclock Hc. destruct b; [|by intros [= -> ->]]. unfold requirePendingRestart. intros [= _ <-].
  apply Forall_app. split; [done|]. apply Forall_fmap, Forall_forall. intros m _. cbn.
  apply good_not_sent; [done..|]. by apply good_mkEvidence.
Qed.

(** ** Properties *)

(** Whatever the DCS and Patroni answer, [ExecuteRestart] on a valid cluster
    target returns a valid result; nothing is written unless every planned
    member resolved, and is still pending when the request asks for pending
    restarts; a member gets at most a schedule deletion and one restart; and a
    member reported as failed or not sent was not restarted, also after the
    readback of a scheduled restart. *)
Theorem ExecuteRestart_batch `{GoStd} service ctx request plan :
  clock_set service → Target_Validate (rtTarget request) true = None →
  wp (ExecuteRestart service ctx request plan) (batch_post restart_quiet 2 (pTargets plan)).
Proof.
  intros Hclock Ht. unfold ExecuteRestart.
  eapply wp_bind_read; [apply _|apply planOperationID_spec|]. intros id Hid.
  pose proof (normalizeMemberRequest_valid _ (rtMembers request) (restart_checks request) Ht) as Hn.
  unfold normalizeRestartRequest. destruct (normalizeMemberRequest _ _ _) as [[target members] err]. cbn in Hn.
  destruct (negb ctx); [by apply failed_post|]. destruct (negb (is_nil err)); [by apply failed_post|].
  destruct (validateRestartPlan _ _ _ _); [by apply failed_post|].
  apply batchSnapshots_post; try done. intros snapshots evidence _ He.
  destruct (resolvePlannedMembersAcrossSnapshots _ _ _ _ _) as [resolved conflicts] eqn:Er.
  pose proof (resolved_conflicts service "restart" snapshots (pTargets plan) (normalizedWriteRole (rtRole request)) Hclock) as Hc.
  rewrite Er in Hc. cbn in Hc.
  destruct (if immediate_pending request then _ else _) as [resolved' conflicts'] eqn:Ep.
  destruct conflicts' as [|c conflicts']; cbn [head is_nil negb].
  - destruct (requirePending_nil _ _ _ _ _ Ep) as [-> ->].
    apply run_batch_post; try done; [intros; by apply restartMember_post|by eapply resolved_targets].
  - apply abort_post; try done. by eapply requirePending_good.
Qed.

Lemma ExecuteRestart_batch_witness :
  let request := mkRestartRequest sample_target ["n2"] RoleAny false None "" false "" true false in
  let plan := prepared_plan steady (PrepareRestart sample_service true request) in
  let r := run (answers steady steady silence applied) [] (ExecuteRestart sample_service true request plan) in
  rOutcome r.2 = Unknown ∧ batch_post restart_quiet 2 (pTargets plan) r.1 r.2.
Proof. split; [vm_compute; reflexivity|]. apply wp_run, ExecuteRestart_batch; vm_compute; reflexivity. Defined.
