(* ===== verification/Reinitialize.v ===== *)
(** * Reinitialize: [control/reinitialize.go] *)

From S2P Require Import Prelude GoStrings GoErrors GoTime Target Version Values Dcs.
From S2P Require Import Effects Contract Select Snapshots Batch Samples.

Record ReinitializeRequest := mkReinitializeRequest {
  riTarget : Target;
  riMembers : list string;
  riForce : bool;
  riFromLeader : bool;
  riWait : bool;
  riCitus : bool
}.

Definition normalizeReinitializeRequest (request : ReinitializeRequest) : normalized_request :=
  normalizeMemberRequest (riTarget request) (riMembers request) None.

Definition reinitializePreconditions (revision : Z) (request : ReinitializeRequest) (members : list string)
    (groups : string) : list Precondition :=
  [mkPrecondition "dcs.revision" (FormatInt revision) EvidenceDCS;
   mkPrecondition "selector.members" (Join members ",") EvidenceControl;
   mkPrecondition "selector.citus" (FormatBool (riCitus request)) EvidenceControl;
   mkPrecondition "citus.groups" groups EvidenceDCS;
   mkPrecondition "reinit.force" (FormatBool (riForce request)) EvidenceControl;
   mkPrecondition "reinit.fromLeader" (FormatBool (riFromLeader request)) EvidenceControl;
   mkPrecondition "reinit.wait" (FormatBool (riWait request)) EvidenceControl].

Definition validateReinitializePlan (plan : Plan) (target : Target) (request : ReinitializeRequest)
    (members : list string) : option goerror :=
  validatePlanContract plan "reinit" PathREST RiskDestructive target
    (if preconditions_match plan (tail (reinitializePreconditions 0 request members ""))
     then None else Some (EText "plan differs from request")).

(** The 4.1 gate of [FromLeader]. *)
Definition fromLeaderGate (request : ReinitializeRequest) (snapshots : list Snapshot) : option (string * goerror) :=
  if riFromLeader request
  then option_map (pair "reinitialize from-leader requires Patroni 4.1 or newer")
         (checkSnapshotsFeature snapshots FeatureReinitializeFromLeader)
  else None.

Definition replicas (members : list string) (all : bool) (cluster : ClusterState) : list Member :=
  selectMembers cluster RoleReplica members all.

Definition reinitSummary (targets : list Target) : string :=
  match targets with
  | [] => "reinitialize no members (forced patronictl-compatible no-op)"
  | _ => "reinitialize " +:+ FormatInt (Z.of_nat (length targets)) +:+ " selected replica member(s): " +:+
         Join (memberNamesFromTargets targets) ", "
  end.

Definition PrepareReinitialize (service : Service) (ctx : bool) (request : ReinitializeRequest)
    : prog (Result Plan) :=
  operationID ← operationID;
  let '(target, members, requestError) := normalizeReinitializeRequest request in
  let fail category message cause evidence :=
    mret (failedReadWithEvidence service operationID "reinit" target PathREST category false message cause evidence) in
  if negb ctx then fail CategoryUsage "reinitialize requires a context" None []
  else if negb (is_nil requestError) then fail CategoryUsage "reinitialize request is invalid" requestError []
  else if is_nil (head members) && negb (riForce request)
  then fail CategoryUsage "reinitialize requires an explicitly selected member before confirmation" None []
  else
    r ← operationSnapshots service "reinit" target (riCitus request) false;
    match r with
    | inl failure => mret (failureResult service operationID "reinit" target PathREST failure)
    | inr (snapshots, evidence) =>
        match fromLeaderGate request snapshots with
        | Some (message, err) => fail CategoryUnsupported message (Some err) evidence
        | None =>
            let targets := rmTarget <$> selectedMembers (replicas members false) snapshots in
            if is_nil (head (selectedMembers (replicas [] true) snapshots))
            then fail CategoryNotFound "reinitialize found no replica members in the cluster" None evidence
            else if negb (is_nil (head members)) && is_nil (head targets)
            then fail CategoryNotFound "reinitialize found no replica among the selected members" None evidence
            else
              let plan := mkPlan operationID "reinit" target targets PathREST RiskDestructive UnsafeAfterSend
                            (reinitSummary targets)
                            (reinitializePreconditions (snRevision (first_snapshot snapshots)) request members
                               (snapshotGroupIDs snapshots)) in
              match Plan_Validate plan with
              | Some err => fail CategoryInternal "reinitialize plan construction failed" (Some err) evidence
              | None => mret (planResult operationID target PathREST plan evidence)
              end
        end
    end.

(** ** Execution *)

Definition success_status (status : Z) : bool := (200 <=? status)%Z && (status <? 300)%Z.

(** [verifyReinitialize]: done when the member leaves [creating replica],
    after having been seen there when the request was not known accepted. *)
Fixpoint verifyReinitialize (service : Service) (baseURL : string) (accepted : bool)
    (attempts : nat) (first seenCreating : bool) (evidence : list Evidence) : prog (bool * list Evidence) :=
  match attempts with
  | O => mret (false, evidence)
  | S attempts =>
      let note source summary := mkEvidence source (svcNow service) summary "" "/patroni" (SendRaw "") in
      waited ← waitUnless first;
      match waited with
      | Some _ => mret (false, evidence ++ [note EvidenceControl "reinitialize verification canceled"])
      | None =>
          r ← do_call (CGetPatroni baseURL);
          if negb (is_nil r.2) || negb (success_status (ssStatusCode r.1)) then
            verifyReinitialize service baseURL accepted attempts false seenCreating
              (evidence ++ [note EvidencePatroni "reinitialize status verification failed"])
          else if ssState r.1 ==s "creating replica" then
            verifyReinitialize service baseURL accepted attempts false true
              (evidence ++ [note EvidencePatroni "reinitialize is still creating replica"])
          else
            let evidence := evidence ++ [note EvidencePatroni "member left creating-replica state"] in
            if accepted || seenCreating then mret (true, evidence)
            else verifyReinitialize service baseURL accepted attempts false seenCreating evidence
      end
  end.

Definition settleReinitialize (service : Service) (request : ReinitializeRequest) (target : Target)
    (baseURL : string) (status : Z) (callError : option goerror) (result : MemberWriteResult)
    : prog MemberWriteResult :=
  if riWait request && (below_400 status || bool_decide (mwSendState result = SendMaybeSent)) then
    v ← verifyReinitialize service baseURL (below_400 status) (svcVerificationAttempts service) true false [];
    let evidence := mwEvidence result ++ v.2 in
    mret (if (v.1 : bool) then
            with_verdict result Succeeded VerifiedSucceeded "reinitialize completion verified by Patroni" None evidence
          else if bool_decide (mwOutcome result = Failed) then
            with_verdict result (mwOutcome result) (mwVerification result) (mwSummary result) (mwError result) evidence
          else
            with_verdict result Unknown Unverified "reinitialize completion was not verified"
              (Some (NewError CategoryUnknown "reinit" target false
                       "reinitialize outcome is unknown; verify the member before retrying" callError evidence))
              evidence)
  else mret result.

Section with_std.
  Context `{GoStd}.

Definition reinitMember (service : Service) (request : ReinitializeRequest) (m : resolvedPlannedMember)
    : prog MemberWriteResult :=
  cancelled ← do_call CCtxErr;
  match cancelled with
  | Some err => mret (skippedWriteAfterCancellation service "reinit" (rmTarget m) (Some err))
  | None =>
      match patroniBaseURL (mdAPIURL (mbData (rmMember m))) with
      | None => mret (invalidRESTAddressWrite service "reinit" (rmTarget m) (rmSnapshot m))
      | Some baseURL =>
          r ← do_call (CPostReinitialize baseURL (riForce request) (riFromLeader request));
          settleReinitialize service request (rmTarget m) baseURL (rsStatusCode r.1) r.2
            (classifyReinitializeResponse service (rmTarget m) r.1 r.2)
      end
  end.

Definition ExecuteReinitialize (service : Service) (ctx : bool) (request : ReinitializeRequest) (plan : Plan)
    : prog (Result BatchWriteData) :=
  operationID ← planOperationID plan;
  let '(target, members, requestError) := normalizeReinitializeRequest request in
  let fail message cause :=
    mret (failedRead service operationID "reinit" target PathREST CategoryUsage false message cause []) in
  if negb ctx then fail "reinitialize requires a context" None
  else if negb (is_nil requestError) then fail "reinitialize request is invalid" requestError
  else match validateReinitializePlan plan target request members with
  | Some err => fail "reinitialize plan does not match the request" (Some err)
  | None =>
      batchSnapshots service operationID "reinit" "reinitialize" target (riCitus request) plan
        (fromLeaderGate request) (λ snapshots evidence,
        if is_nil (head (pTargets plan)) then
          mret (finalizeBatchWrite service operationID "reinit" target PathREST (mkBatchWriteData []) evidence)
        else
          let '(resolved, conflicts) :=
            resolvePlannedMembersAcrossSnapshots service "reinit" snapshots (pTargets plan) RoleReplica in
          if negb (is_nil (head conflicts)) then
            mret (finalizeBatchWrite service operationID "reinit" target PathREST
                    (abortBatchForTargetChange service "reinit" (pTargets plan) conflicts) evidence)
          else
            results ← forMembers (reinitMember service request) resolved;
            mret (finalizeBatchWrite service operationID "reinit" target PathREST (mkBatchWriteData results) evidence))
  end.

End with_std.

(** ** Lemmas *)

Section lemmas.
Context `{GoStd} (service : Service) (Hclock : clock_set service).

Lemma verifyReinitialize_spec url accepted attempts first seen evidence :
  Forall good_evidence evidence →
  wp_all read_only (verifyReinitialize service url accepted attempts first seen evidence)
    (λ v, Forall good_evidence v.2).
Proof using Hclock.
  revert first seen evidence. induction attempts as [|n IH]; intros first seen evidence He; cbn [verifyReinitialize].
  { by apply wp_all_ret. }
  cbv zeta.
  assert (∀ source summary, EvidenceSource_valid source = true → summary ≠ "" → Forall good_evidence
            (evidence ++ [mkEvidence source (svcNow service) summary "" "/patroni" (SendRaw "")])) as Hadd.
  { intros. apply Forall_app; split; [done|]. apply Forall_singleton. by apply good_mkEvidence. }
  apply wp_all_wait. intros [err|]; [by apply wp_all_ret, Hadd|].
  apply wp_all_call. intros r. split; [done|].
  destruct (_ || _); [by apply IH, Hadd|]. destruct (_ ==s _); [by apply IH, Hadd|].
  destruct (_ || _); [by apply wp_all_ret, Hadd|by apply IH, Hadd].
Qed.

(** The readback keeps a definite failure and never turns a result into one. *)
Lemma settleReinitialize_spec request target url status err result :
  good_member result →
  wp_all read_only (settleReinitialize service request target url status err result)
    (λ r, good_member r ∧ mwTarget r = mwTarget result ∧ mwSendState r = mwSendState result ∧
          (mwOutcome r = Failed → mwOutcome result = Failed)).
Proof using Hclock.
  intros Hg. unfold settleReinitialize. destruct (_ && _); [|by apply wp_all_ret].
  eapply wp_all_bind; [by apply verifyReinitialize_spec|]. intros [verified evidence] He. cbv zeta. apply wp_all_ret.
  cbn in He. assert (good_log (mwEvidence result ++ evidence)) as Hlog by (apply good_log_app; [apply Hg|done]).
  cbn [fst snd]. destruct verified; [|destruct (bool_decide_reflect (mwOutcome result = Failed))].
  - split; [by apply good_with_verdict_success|done].
  - split; [by apply good_with_verdict_same|done].
  - split; [by apply good_with_verdict_unknown|done].
Qed.

Lemma reinitMember_post request m : wp (reinitMember service request m) (member_post quiet 1 m).
Proof using Hclock.
  assert (∀ tr r, Forall read_only tr → good_member r → mwTarget r = rmTarget m →
            member_post quiet 1 m tr r) as Hquiet.
  { intros. apply member_post_quiet; try done. by apply Forall_read_only_quiet. }
  apply wp_call. intros [err|]; cbn [reinitMember]; [apply Hquiet; [by repeat constructor|auto with go|done]|].
  destruct (patroniBaseURL _) as [url|]; [|apply Hquiet; [by repeat constructor|auto with go|done]].
  apply wp_call. intros [response err]. cbn [fst snd].
  set (c := CPostReinitialize url _ _). set (result := classifyReinitializeResponse service (rmTarget m) response err).
  assert (good_member result) as Hg by (subst result; auto with go).
  eapply wp_mono; [|by apply settleReinitialize_spec].
  cbn. intros tr r [Htr (Hr & Hrt & Hs & Ho)]. split; [done|]. split; [rewrite Hrt; apply classifyResponse_target|].
  assert (honest quiet 1 [Ev CCtxErr None; Ev c (response, err)] result) as [Hq Hw].
  { apply honest_one_write; [done|]. by apply (honest_classifyResponse service c). }
  change (honest quiet 1 ([Ev CCtxErr None; Ev c (response, err)] ++ tr) r). split.
  - intros Hf. apply Forall_app. split; [|by apply Forall_read_only_quiet].
    apply Hq. destruct Hf as [Hf|Hf]; [left; by apply Ho|right; congruence].
  - rewrite writes_app, (writes_read_only tr) by done. lia.
Qed.
End lemmas.

(** ** Properties *)

(** Whatever the DCS and Patroni answer, [ExecuteReinitialize] on a valid
    cluster target returns a valid result; it writes nothing unless every
    planned member is still a replica in a fresh, version-checked snapshot; each
    planned member gets at most one reinitialize request; and a member reported
    as failed or not sent was not reinitialized, also after the bounded
    completion readback. *)
Theorem ExecuteReinitialize_batch `{GoStd} service ctx request plan :
  clock_set service → Target_Validate (riTarget request) true = None →
  wp (ExecuteReinitialize service ctx request plan) (batch_post quiet 1 (pTargets plan)).
Proof.
  intros Hclock Ht. unfold ExecuteReinitialize.
  eapply wp_bind_read; [apply _|apply planOperationID_spec|]. intros id Hid.
  pose proof (normalizeMemberRequest_valid _ (riMembers request) None Ht) as Hn.
  unfold normalizeReinitializeRequest. destruct (normalizeMemberRequest _ _ _) as [[target members] err]. cbn in Hn.
  destruct (negb ctx); [by apply failed_post|]. destruct (negb (is_nil err)); [by apply failed_post|].
  destruct (validateReinitializePlan _ _ _ _); [by apply failed_post|].
  apply batchSnapshots_post; try done.
  { unfold fromLeaderGate. intros ss message cause. destruct (riFromLeader request); [|done].
    destruct (checkSnapshotsFeature _ _); [|done]. by intros [= <- <-]. }
  intros snapshots evidence _ He.
  destruct (pTargets plan) as [|t ts] eqn:Ep; cbn [head is_nil].
  { apply (finalize_post service id "reinit" target Hid ltac:(done) Hn); [apply chunked_nil|done..]. }
  rewrite <- Ep.
  destruct (resolvePlannedMembersAcrossSnapshots _ _ _ _ _) as [resolved conflicts] eqn:Er.
  pose proof (resolved_conflicts service "reinit" snapshots (pTargets plan) RoleReplica Hclock) as Hc.
  rewrite Er in Hc. destruct conflicts as [|c conflicts]; cbn [head is_nil negb]; [|by apply abort_post].
  apply run_batch_post; try done; [intros; by apply reinitMember_post|by eapply resolved_targets].
Qed.

Lemma ExecuteReinitialize_batch_witness :
  let request := mkReinitializeRequest sample_target ["n2"] false false false false in
  let plan := prepared_plan steady (PrepareReinitialize sample_service true request) in
  let r := run (answers steady steady (status 503) applied) [] (ExecuteReinitialize sample_service true request plan) in
  rOutcome r.2 = Failed ∧ batch_post quiet 1 (pTargets plan) r.1 r.2.
Proof. split; [vm_compute; reflexivity|]. apply wp_run, ExecuteReinitialize_batch; vm_compute; reflexivity. Defined.
