(* ===== verification/Transition.v ===== *)
(** * Failover and switchover: [control/failover.go]

    A transition is planned from a snapshot, revalidated against a fresh one,
    sent to Patroni once, and, when Patroni gave no HTTP answer, handed over to
    one compare-and-swap on the DCS failover key. *)

From S2P Require Import Prelude GoStrings GoErrors GoTime Target Version Values Dcs.
From S2P Require Import Effects Contract Readback Select Snapshots Batch.

(** ** Requests *)

Record FailoverRequest := mkFailoverRequest {
  frTarget : Target;
  frCandidate : string;
  frForce : bool;
  frCitus : bool
}.

Record SwitchoverRequest := mkSwitchoverRequest {
  swTarget : Target;
  swLeader : string;
  swCandidate : string;
  swScheduledAt : option Time;
  swForce : bool;
  swCitus : bool
}.

Record transitionIntent := mkIntent {
  tiOperation : string;
  tiTarget : Target;
  tiLeader : string;
  tiCandidate : string;
  tiScheduledAt : option Time;
  tiForce : bool;
  tiCitus : bool
}.

Record transitionSelection := mkSelection {
  tsLeader : string;
  tsCandidate : string;
  tsCandidateNames : list string;
  tsCandidateMember : option Member;
  tsRestMember : option Member;
  tsSyncEligible : bool;
  tsPaused : bool;
  tsFailoverVersion : Z
}.

Record ClusterWriteData := mkClusterWriteData {
  cwLeader : string;
  cwCandidate : string;
  cwScheduledAt : string;
  cwRESTSendState : SendState;
  cwDCSSendState : SendState;
  cwVerification : Verification;
  cwHTTPStatus : Z;
  cwDCSRevision : Z;
  cwLegacyEndpoint : bool
}.

#[export] Instance zero_ClusterWriteData : Zero ClusterWriteData :=
  mkClusterWriteData "" "" "" (SendRaw "") (SendRaw "") (VerificationRaw "") 0 0 false.

Definition ClusterWriteData_Validate (d : ClusterWriteData) : option goerror :=
  if negb (SendState_validOrEmpty (cwRESTSendState d)) || SendState_empty (cwRESTSendState d)
  then Some (EText "cluster write REST send state is invalid")
  else if negb (SendState_validOrEmpty (cwDCSSendState d)) then Some (EText "cluster write DCS send state is invalid")
  else if negb (Verification_valid (cwVerification d)) then Some (EText "cluster write verification is invalid")
  else if (cwHTTPStatus d <? 0)%Z || (cwDCSRevision d <? 0)%Z
  then Some (EText "cluster write status and revision must be non-negative")
  else None.

(** Field assignments of [data]. *)
Definition with_verification (v : Verification) (d : ClusterWriteData) : ClusterWriteData :=
  mkClusterWriteData (cwLeader d) (cwCandidate d) (cwScheduledAt d) (cwRESTSendState d) (cwDCSSendState d) v
    (cwHTTPStatus d) (cwDCSRevision d) (cwLegacyEndpoint d).

Definition with_rest (send : SendState) (status : Z) (legacy : bool) (d : ClusterWriteData) : ClusterWriteData :=
  mkClusterWriteData (cwLeader d) (cwCandidate d) (cwScheduledAt d) send (cwDCSSendState d) (cwVerification d)
    status (cwDCSRevision d) legacy.

Definition with_dcs (send : SendState) (d : ClusterWriteData) : ClusterWriteData :=
  mkClusterWriteData (cwLeader d) (cwCandidate d) (cwScheduledAt d) (cwRESTSendState d) send (cwVerification d)
    (cwHTTPStatus d) (cwDCSRevision d) (cwLegacyEndpoint d).

Definition with_revision (revision : Z) (d : ClusterWriteData) : ClusterWriteData :=
  mkClusterWriteData (cwLeader d) (cwCandidate d) (cwScheduledAt d) (cwRESTSendState d) (cwDCSSendState d)
    (cwVerification d) (cwHTTPStatus d) revision (cwLegacyEndpoint d).

(** [validateTransitionTarget] *)
Definition validateTransitionTarget (target : Target) (names : list string) : option goerror :=
  if tMember target !=s "" then Some (EText "cluster transition target must not contain a member")
  else match Target_Validate target true with
  | Some err => Some err
  | None => first_error (λ name, if name ==s "" then None else Target_Validate (with_member target name) true) names
  end.

Definition citus_group_error (operation : string) (citus : bool) (target : Target) : option goerror :=
  if citus && is_nil (tGroup target) then Some (EText ("citus " +:+ operation +:+ " requires an explicit group"))
  else None.

Definition normalizeFailoverRequest (request : FailoverRequest) : transitionIntent * option goerror :=
  let intent := mkIntent "failover" (Normalize (frTarget request)) "" (TrimSpace (frCandidate request)) None
                  (frForce request) (frCitus request) in
  (intent,
   match validateTransitionTarget (tiTarget intent) [tiCandidate intent] with
   | Some err => Some err
   | None => citus_group_error "failover" (tiCitus intent) (tiTarget intent)
   end).

Definition normalizeSwitchoverRequest (request : SwitchoverRequest) : transitionIntent * option goerror :=
  let intent := mkIntent "switchover" (Normalize (swTarget request)) (TrimSpace (swLeader request))
                  (TrimSpace (swCandidate request)) (swScheduledAt request) (swForce request) (swCitus request) in
  (intent,
   match validateTransitionTarget (tiTarget intent) [tiLeader intent; tiCandidate intent] with
   | Some err => Some err
   | None =>
       if match tiScheduledAt intent with Some t => IsZero t | None => false end
       then Some (EText "scheduled switchover time is zero")
       else citus_group_error "switchover" (tiCitus intent) (tiTarget intent)
   end).

Definition is_switchover (intent : transitionIntent) : bool := tiOperation intent ==s "switchover".
Definition is_failover (intent : transitionIntent) : bool := tiOperation intent ==s "failover".
Definition scheduled (intent : transitionIntent) : bool := negb (is_nil (tiScheduledAt intent)).

Definition transitionSchedule (intent : transitionIntent) : string :=
  match tiScheduledAt intent with None => "" | Some t => formatPatroniTimestamp t end.

(** ** Selection *)

Definition nofailover (m : Member) : bool := boolConfig (map_index (mdTags (mbData m)) "nofailover").

(** Eligible candidates, by name. *)
Definition transitionCandidates (cluster : ClusterState) (leader : string) : list Member :=
  sort_by mbName (List.filter (λ m, negb ((mbName m ==s leader) || nofailover m)) (csMembers cluster)).

Definition paused_cluster (cluster : ClusterState) : bool := boolConfig (map_index (csConfig cluster) "pause").

Definition failover_revision (cluster : ClusterState) : Z :=
  match csFailover cluster with Some f => foModRevision f | None => 0%Z end.

(** The current-leader checks of a switchover. *)
Definition leader_error (intent : transitionIntent) (leader : string) : option (Category * goerror) :=
  if negb (is_switchover intent) then None
  else if leader ==s "" then Some (CategoryNotFound, EText "switchover requires a current leader")
  else if tiLeader intent ==s "" then
    if tiForce intent then None
    else Some (CategoryUsage, EText "switchover requires an explicitly selected leader before confirmation")
  else if tiLeader intent !=s leader
  then Some (CategoryConflict, EText ("member " +:+ tiLeader intent +:+ " is not the current leader"))
  else None.

(** The candidate checks. *)
Definition candidate_error (intent : transitionIntent) (leader : string) (candidates : list Member)
    : option (Category * goerror) :=
  if is_nil (head candidates)
  then Some (CategoryNotFound, EText ("no candidates found to " +:+ tiOperation intent +:+ " to"))
  else if tiCandidate intent ==s "" then
    if is_failover intent then Some (CategoryUsage, EText "failover requires a specific candidate")
    else if tiForce intent then None
    else Some (CategoryUsage, EText "switchover requires an explicitly selected candidate before confirmation")
  else if tiCandidate intent ==s leader
  then Some (CategoryConflict, EText ("member " +:+ tiCandidate intent +:+ " is already the leader"))
  else if is_nil (find_first (λ m, mbName m ==s tiCandidate intent) candidates)
  then Some (CategoryNotFound, EText ("member " +:+ tiCandidate intent +:+ " does not exist or is tagged nofailover"))
  else None.

Section with_std.
  Context `{GoStd}.

Definition syncCandidateEligible (cluster : ClusterState) (candidate : string) : bool :=
  if (candidate ==s "") || negb (synchronousMode (csConfig cluster)) || (syLeader (csSync cluster) ==s "")
  then true
  else EqualFold (syLeader (csSync cluster)) candidate
       || existsb (λ standby, EqualFold standby candidate) (syStandbys (csSync cluster)).

Definition resolveTransition (snapshot : Snapshot) (intent : transitionIntent)
    : (Category * goerror) + transitionSelection :=
  let cluster := snCluster snapshot in
  let leader := leader_name cluster in
  let candidates := transitionCandidates cluster leader in
  match leader_error intent leader with
  | Some failure => inl failure
  | None =>
      match candidate_error intent leader candidates with
      | Some failure => inl failure
      | None =>
          if is_switchover intent && scheduled intent && paused_cluster cluster
          then inl (CategoryConflict, EText "cannot schedule switchover while the cluster is paused")
          else
            let memberName := if leader ==s "" then tiCandidate intent else leader in
            inr (mkSelection leader (tiCandidate intent) (mbName <$> candidates)
                   (if tiCandidate intent ==s "" then None
                    else find_first (λ m, mbName m ==s tiCandidate intent) candidates)
                   (find_first (λ m, mbName m ==s memberName) (csMembers cluster))
                   (syncCandidateEligible cluster (tiCandidate intent)) (paused_cluster cluster)
                   (failover_revision cluster))
      end
  end.

End with_std.

(** ** Plans *)

Definition transitionSummary (intent : transitionIntent) (selection : transitionSelection) : string :=
  let leader := if is_failover intent then "" else tsLeader selection in
  tiOperation intent +:+ " cluster" +:+
  (if leader !=s "" then " from " +:+ leader else "") +:+
  (if tiCandidate intent !=s "" then " to " +:+ tiCandidate intent else " to a Patroni-selected eligible candidate") +:+
  match tiScheduledAt intent with Some t => " at " +:+ FormatRFC3339Nano t | None => "" end.

Definition transitionPreconditions (revision : Z) (intent : transitionIntent) (selection : transitionSelection)
    : list Precondition :=
  [mkPrecondition "dcs.revision" (FormatInt revision) EvidenceDCS;
   mkPrecondition "leader.name" (tsLeader selection) EvidenceDCS;
   mkPrecondition "candidate.name" (tiCandidate intent) EvidenceControl;
   mkPrecondition "candidate.options" (Join (tsCandidateNames selection) ",") EvidenceDCS;
   mkPrecondition "candidate.syncEligible" (FormatBool (tsSyncEligible selection)) EvidenceDCS;
   mkPrecondition "cluster.paused" (FormatBool (tsPaused selection)) EvidenceDCS;
   mkPrecondition "failover.modRevision" (FormatInt (tsFailoverVersion selection)) EvidenceDCS;
   mkPrecondition "request.leader" (tiLeader intent) EvidenceControl;
   mkPrecondition "request.schedule" (transitionSchedule intent) EvidenceControl;
   mkPrecondition "request.force" (FormatBool (tiForce intent)) EvidenceControl;
   mkPrecondition "request.citus" (FormatBool (tiCitus intent)) EvidenceControl;
   mkPrecondition "fallback.path" (Path_text PathRESTToDCS) EvidenceControl].

Definition transitionPlan (operationID : string) (snapshot : Snapshot) (intent : transitionIntent)
    (selection : transitionSelection) : Plan :=
  mkPlan operationID (tiOperation intent) (tiTarget intent) [] PathREST RiskAvailability UnsafeAfterSend
    (transitionSummary intent selection)
    (transitionPreconditions (snRevision snapshot) intent selection).

Definition validateTransitionPlan (plan : Plan) (intent : transitionIntent) : option goerror :=
  validatePlanContract plan (tiOperation intent) PathREST RiskAvailability (tiTarget intent)
    (if fields_match plan
          [("candidate.name", tiCandidate intent); ("request.leader", tiLeader intent);
           ("request.schedule", transitionSchedule intent); ("request.force", FormatBool (tiForce intent));
           ("request.citus", FormatBool (tiCitus intent)); ("fallback.path", Path_text PathRESTToDCS)]
     then None else Some (EText "plan differs from request")).

Definition revalidateTransitionPlan (plan : Plan) (selection : transitionSelection) : option goerror :=
  if fields_match plan
       [("leader.name", tsLeader selection);
        ("candidate.options", Join (tsCandidateNames selection) ",");
        ("candidate.syncEligible", FormatBool (tsSyncEligible selection));
        ("cluster.paused", FormatBool (tsPaused selection));
        ("failover.modRevision", FormatInt (tsFailoverVersion selection))]
  then None else Some (EText "confirmed precondition changed").

(** ** Results *)

Definition transitionData (intent : transitionIntent) (selection : transitionSelection) : ClusterWriteData :=
  mkClusterWriteData (if is_switchover intent then tsLeader selection else "") (tiCandidate intent)
    (transitionSchedule intent) SendNotSent (SendRaw "") Unverified 0 0 false.

Definition transitionSuccess (operationID : string) (intent : transitionIntent) (path : Path)
    (data : ClusterWriteData) (evidence : list Evidence) : Result ClusterWriteData :=
  mkResult operationID Succeeded (tiTarget intent) path data evidence None.

Definition transitionFailureWithRetry (operationID : string) (intent : transitionIntent) (path : Path)
    (data : ClusterWriteData) (class : Category * bool) (message : string) (cause : option goerror)
    (evidence : list Evidence) : Result ClusterWriteData :=
  mkResult operationID Failed (tiTarget intent) path data evidence
    (Some (NewError class.1 (tiOperation intent) (tiTarget intent) class.2 message cause evidence)).

Definition transitionFailure (operationID : string) (intent : transitionIntent) (path : Path)
    (data : ClusterWriteData) (category : Category) (message : string) (cause : option goerror)
    (evidence : list Evidence) : Result ClusterWriteData :=
  transitionFailureWithRetry operationID intent path data (category, false) message cause evidence.

Definition transitionUnknown (operationID : string) (intent : transitionIntent) (path : Path)
    (data : ClusterWriteData) (message : string) (cause : option goerror) (evidence : list Evidence)
    : Result ClusterWriteData :=
  mkResult operationID Unknown (tiTarget intent) path (with_verification Unverified data) evidence
    (Some (NewError CategoryUnknown (tiOperation intent) (tiTarget intent) false message cause evidence)).

(** [data.RESTSendState == SendMaybeSent || data.RESTSendState == SendAccepted] *)
Definition maybe_sent (s : SendState) : bool := match s with SendMaybeSent | SendAccepted => true | _ => false end.

(** ** Prepare *)

Section handlers.
  Context `{GoStd}.

Definition prepareTransition (service : Service) (ctx : bool) (intent : transitionIntent)
    (requestError : option goerror) : prog (Result Plan) :=
  operationID ← operationID;
  let operation := tiOperation intent in
  let fail category retryable message cause evidence :=
    mret (failedRead service operationID operation (tiTarget intent) PathREST category retryable message cause evidence) in
  if negb ctx then fail CategoryUsage false (operation +:+ " requires a context") None []
  else if negb (is_nil requestError)
  then fail CategoryUsage false (operation +:+ " request is invalid") requestError []
  else
    r ← do_call (CSnapshot (tiTarget intent));
    match r with
    | inl err =>
        let '(category, retryable) := classifyReadError (Some err) in
        fail category retryable (operation +:+ " cluster discovery failed") (Some err) []
    | inr snapshot =>
        match checkSnapshotPatroniVersion service snapshot false with
        | Some err =>
            mret (unsupportedVersionResult service operationID operation (tiTarget intent) PathREST snapshot (Some err))
        | None =>
            let selected := [snapshotEvidence service snapshot (operation +:+ " target selection completed")] in
            match resolveTransition snapshot intent with
            | inl (category, err) =>
                fail category false (operation +:+ " target selection failed") (Some err) selected
            | inr selection =>
                let plan := transitionPlan operationID snapshot intent selection in
                match Plan_Validate plan with
                | Some err => fail CategoryInternal false (operation +:+ " plan construction failed") (Some err) selected
                | None =>
                    mret (planResult operationID (tiTarget intent) PathREST plan
                            [snapshotEvidence service snapshot (operation +:+ " plan built from fresh cluster snapshot")])
                end
            end
        end
    end.

(** ** The REST call *)

Definition transitionRESTPayload (intent : transitionIntent) (selection : transitionSelection) : FailoverPayload :=
  mkFailoverPayload (if is_switchover intent then tsLeader selection else "") (tiCandidate intent)
    (transitionSchedule intent).

Definition transitionRESTEvidence (service : Service) (operation path : string) (response : RESTResponse)
    (err : option goerror) : Evidence :=
  let status := rsStatusCode response in
  mkEvidence EvidencePatroni (svcNow service)
    (if ok_or_accepted status then "Patroni accepted " +:+ operation
     else if negb (status =? 0)%Z then "Patroni rejected " +:+ operation
     else "Patroni " +:+ operation +:+ " transport ended without an HTTP response")
    "" path (patroniSendState err status).

Definition legacySwitchoverResponse : string := "Server does not support this operation".

(** The five results of [callTransitionREST]. *)
Record RESTCall := mkRESTCall {
  rcResponse : RESTResponse;
  rcSend : SendState;
  rcLegacy : bool;
  rcEvidence : list Evidence;
  rcError : option goerror
}.

Definition rest_unavailable (service : Service) (operation summary cause : string) : RESTCall :=
  mkRESTCall no_response SendNotSent false
    [mkEvidence EvidencePatroni (svcNow service) (operation +:+ summary) "" ("/" +:+ operation) SendNotSent]
    (Some (EText cause)).

Definition legacy_needed (intent : transitionIntent) (response : RESTResponse) : bool :=
  is_switchover intent && (rsStatusCode response =? 501)%Z && Contains (rsData response) legacySwitchoverResponse.

Definition callTransitionREST (service : Service) (intent : transitionIntent) (selection : transitionSelection)
    (payload : FailoverPayload) : prog RESTCall :=
  let operation := tiOperation intent in
  if negb (svcPatroni service) then
    mret (rest_unavailable service operation " REST client is unavailable; command fallback is required"
            "patroni REST client is unavailable")
  else match tsRestMember selection with
  | None =>
      mret (rest_unavailable service operation " REST target is unavailable; command fallback is required"
              "rest target member is absent from DCS")
  | Some member =>
      match patroniBaseURL (mdAPIURL (mbData member)) with
      | None =>
          mret (rest_unavailable service operation " REST target has no usable address; command fallback is required"
                  "invalid Patroni API URL")
      | Some baseURL =>
          r ← (if is_failover intent then do_call (CPostFailover baseURL payload)
               else do_call (CPostSwitchover baseURL payload));
          let '(response, err) := (r : RESTResponse * option goerror) in
          let evidence := [transitionRESTEvidence service operation ("/" +:+ operation) response err] in
          let send := patroniSendState err (rsStatusCode response) in
          if legacy_needed intent response then
            cancelled ← do_call CCtxErr;
            match cancelled with
            | Some ctxErr => mret (mkRESTCall response send false evidence (Some ctxErr))
            | None =>
                r ← do_call (CPostFailover baseURL payload);
                let '(legacyResponse, legacyError) := r in
                mret (mkRESTCall legacyResponse
                        (patroniSendState legacyError (rsStatusCode legacyResponse)) true
                        (evidence ++
                         [mkEvidence EvidenceControl (svcNow service)
                            "Patroni 501 selected the source-compatible legacy /failover endpoint" ""
                            "/switchover->/failover" SendNotSent;
                          transitionRESTEvidence service operation "/failover" legacyResponse legacyError])
                        legacyError)
            end
          else mret (mkRESTCall response send false evidence err)
      end
  end.

(** ** Verification *)

Definition transitionLeaderCompleted (cluster : ClusterState) (intent : transitionIntent) (plannedLeader : string)
    : bool :=
  let leader := leader_name cluster in
  negb (scheduled intent) &&
  (((tiCandidate intent !=s "") && (leader ==s tiCandidate intent)) ||
   (is_switchover intent && (tiCandidate intent ==s "") && (leader !=s "") && (leader !=s plannedLeader))).

Definition same_schedule (expected observed : string) : bool :=
  if expected ==s "" then observed ==s ""
  else (observed ==s expected) ||
       match ParseRFC3339Nano expected, ParseRFC3339Nano observed with
       | Some e, Some o => Time_Equal e o
       | _, _ => false
       end.

Definition transitionCompleted (cluster : ClusterState) (intent : transitionIntent) (plannedLeader : string) : bool :=
  transitionLeaderCompleted cluster intent plannedLeader ||
  match csFailover cluster with
  | None => false
  | Some failover =>
      (foLeader failover ==s (if is_switchover intent then plannedLeader else "")) &&
      (foCandidate failover ==s tiCandidate intent) &&
      same_schedule (transitionSchedule intent) (foScheduledAt failover)
  end.

Definition transitionReading (intent : transitionIntent) (plannedLeader : string) : Reading Z :=
  mkReading (tiOperation intent +:+ " fallback verification canceled") (tiOperation intent +:+ " fallback readback failed")
    (λ snapshot, (snRevision snapshot, transitionCompleted (snCluster snapshot) intent plannedLeader))
    (λ matched, tiOperation intent +:+ (if matched then " fallback state matches the request"
                                        else " fallback state does not yet match the request")).

(** Verified, last revision seen, evidence. *)
Definition verifyTransitionFallback (service : Service) (intent : transitionIntent) (plannedLeader : string)
    : prog (verdict Z) :=
  readback service (tiTarget intent) (transitionReading intent plannedLeader) 0%Z.

(** ** The DCS fallback *)

Definition validateFallbackTransition (cluster : ClusterState) (intent : transitionIntent)
    (planned : transitionSelection) : option goerror :=
  let leader := leader_name cluster in
  if leader !=s tsLeader planned
  then Some (EText ("leader changed from " +:+ tsLeader planned +:+ " to " +:+ leader))
  else if scheduled intent && paused_cluster cluster
  then Some (EText "cluster became paused before scheduled switchover fallback")
  else if tiCandidate intent !=s "" then
    if existsb (λ m, (mbName m ==s tiCandidate intent) && (mbName m !=s leader) && negb (nofailover m))
         (csMembers cluster)
    then None
    else Some (EText ("candidate " +:+ tiCandidate intent +:+ " disappeared or became ineligible"))
  else
    let current := sort_strings (mbName <$> List.filter (λ m, (mbName m !=s leader) && negb (nofailover m))
                                              (csMembers cluster)) in
    if Join current "," !=s Join (tsCandidateNames planned) ","
    then Some (EText "eligible candidate set changed") else None.

(** [transitionDCSPayload]: the JSON object, as its fields. *)
Definition transitionDCSPayload (intent : transitionIntent) (planned : transitionSelection)
    : list (string * string) :=
  (if is_switchover intent && (tsLeader planned !=s "") then [("leader", tsLeader planned)] else []) ++
  (if tiCandidate intent !=s "" then [("member", tiCandidate intent)] else []) ++
  (if transitionSchedule intent !=s "" then [("scheduled_at", transitionSchedule intent)] else []).

Definition transitionDCSWriteSummary (result : WriteResult) (err : option goerror) : string :=
  if is_nil err && wrApplied result then "DCS failover fallback CAS was applied"
  else if has_conflict err then "DCS failover fallback CAS conflicted"
  else "DCS failover fallback ended without a verified apply".

(** What the compare-and-swap and its readback amount to. *)
Definition settleFallback (operationID : string) (intent : transitionIntent) (data : ClusterWriteData)
    (restError writeError : option goerror) (verification : bool * Z * list Evidence)
    (evidence : list Evidence) : Result ClusterWriteData :=
  let '(verified, revision, verificationEvidence) := verification in
  let evidence := evidence ++ verificationEvidence in
  let data := if (cwDCSRevision data <? revision)%Z then with_revision revision data else data in
  let operation := tiOperation intent in
  if (verified : bool) then
    transitionSuccess operationID intent PathRESTToDCS (with_verification VerifiedSucceeded data) evidence
  else
    let data := with_verification Unverified data in
    if has_conflict writeError then
      if maybe_sent (cwRESTSendState data) then
        transitionUnknown operationID intent PathRESTToDCS data
          (operation +:+ " REST may have been sent and DCS fallback conflicted") writeError evidence
      else
        transitionFailure operationID intent PathRESTToDCS (with_verification VerifiedFailed data) CategoryConflict
          (operation +:+ " DCS fallback lost a compare-and-swap race") writeError evidence
    else if negb (is_nil writeError) && bool_decide (cwDCSSendState data = SendNotSent)
            && bool_decide (cwRESTSendState data = SendNotSent) then
      transitionFailureWithRetry operationID intent PathRESTToDCS (with_verification VerifiedFailed data)
        (classifyReadError writeError) (operation +:+ " was not sent through REST or DCS") writeError evidence
    else
      transitionUnknown operationID intent PathRESTToDCS data
        (operation +:+ " fallback was not verified; inspect DCS before retrying")
        (if is_nil writeError then restError else writeError) evidence.

Definition executeTransitionFallback (service : Service) (operationID : string) (intent : transitionIntent)
    (planned : transitionSelection) (data : ClusterWriteData) (restError : option goerror)
    (evidence : list Evidence) : prog (Result ClusterWriteData) :=
  let operation := tiOperation intent in
  (* An abandoned fallback is UNKNOWN after an ambiguous REST send, FAILED otherwise. *)
  let abandon unknownMessage class failedMessage err evidence :=
    mret (if maybe_sent (cwRESTSendState data)
          then transitionUnknown operationID intent PathRESTToDCS data unknownMessage err evidence
          else transitionFailureWithRetry operationID intent PathRESTToDCS
                 (with_verification VerifiedFailed data) class failedMessage err evidence) in
  r ← do_call (CSnapshot (tiTarget intent));
  match r with
  | inl err =>
      abandon (operation +:+ " REST outcome is ambiguous and DCS fallback could not be verified")
        (classifyReadError (Some err)) (operation +:+ " fallback could not read DCS") (Some err)
        (evidence ++ [mkEvidence EvidenceDCS (svcNow service)
           (operation +:+ " fallback could not obtain a fresh DCS snapshot") "" (Path_text PathDCS) SendNotSent])
  | inr fresh =>
      let evidence := evidence ++
        [snapshotEvidence service fresh (operation +:+ " fallback obtained a fresh DCS snapshot")] in
      if transitionLeaderCompleted (snCluster fresh) intent (tsLeader planned) then
        mret (transitionSuccess operationID intent PathRESTToDCS
                (with_revision (snRevision fresh) (with_verification VerifiedSucceeded data)) evidence)
      else match validateFallbackTransition (snCluster fresh) intent planned with
      | Some err =>
          abandon (operation +:+ " may have been sent but fallback preconditions changed")
            (CategoryConflict, false) (operation +:+ " fallback aborted because cluster topology changed")
            (Some err) evidence
      | None =>
          if negb (svcFailoverDCS service) then
            abandon (operation +:+ " may have been sent and DCS fallback is unavailable")
              (CategoryConfig, false) (operation +:+ " fallback requires a DCS failover capability")
              (Some (EText "dcs failover capability is unavailable")) evidence
          else
            cancelled ← do_call CCtxErr;
            match cancelled with
            | Some err =>
                abandon (operation +:+ " may have been sent; cancellation prevented fallback")
                  (CategoryFailed, false) (operation +:+ " fallback was canceled before DCS write")
                  (Some err) evidence
            | None =>
                w ← do_call (CWriteFailover (tiTarget intent) (transitionDCSPayload intent planned)
                               (Some (failover_revision (snCluster fresh))));
                let '(writeResult, writeError) := w in
                let send := dcsSendState writeError (wrApplied writeResult) in
                let data := with_revision (wrRevision writeResult) (with_dcs send data) in
                let evidence := evidence ++
                  [mkEvidence EvidenceDCS (svcNow service) (transitionDCSWriteSummary writeResult writeError)
                     (FormatInt (wrRevision writeResult)) (Path_text PathDCS) send] in
                v ← verifyTransitionFallback service intent (tsLeader planned);
                mret (settleFallback operationID intent data restError writeError v evidence)
            end
      end
  end.

(** ** Execute *)

(** From a revalidated selection to the result: the REST call and what its
    answer means. *)
Definition sendTransition (service : Service) (operationID : string) (intent : transitionIntent)
    (selection : transitionSelection) (baseEvidence : list Evidence) : prog (Result ClusterWriteData) :=
  let operation := tiOperation intent in
  c ← callTransitionREST service intent selection (transitionRESTPayload intent selection);
  let status := rsStatusCode (rcResponse c) in
  let evidence := baseEvidence ++ rcEvidence c in
  let data := with_rest (rcSend c) status (rcLegacy c) (transitionData intent selection) in
  let success data evidence :=
    mret (transitionSuccess operationID intent PathREST (with_verification VerifiedSucceeded data) evidence) in
  if ok_or_accepted status then
    if (status =? 202)%Z && scheduled intent then
      v ← verifyTransitionFallback service intent (tsLeader selection);
      let '(verified, revision, verificationEvidence) := v in
      let evidence := evidence ++ verificationEvidence in
      let data := with_revision revision data in
      if (verified : bool) then success data evidence
      else mret (transitionUnknown operationID intent PathREST data
                   "Patroni accepted the scheduled switchover but DCS readback did not verify it"
                   (rcError c) evidence)
    else success data evidence
  else if negb (status =? 0)%Z then
    mret (transitionFailureWithRetry operationID intent PathREST (with_verification VerifiedFailed data)
            (classifyHTTPStatus status) ("Patroni rejected " +:+ operation) (rcError c) evidence)
  else
    cancelled ← do_call CCtxErr;
    match cancelled with
    | Some err =>
        mret (if maybe_sent (cwRESTSendState data)
              then transitionUnknown operationID intent PathREST (with_verification Unverified data)
                     (operation +:+ " may have been sent before cancellation; verify before retrying")
                     (Some err) evidence
              else transitionFailure operationID intent PathREST (with_verification VerifiedFailed data)
                     CategoryFailed (operation +:+ " was canceled before fallback") (Some err) evidence)
    | None => executeTransitionFallback service operationID intent selection data (rcError c) evidence
    end.

Definition executeTransition (service : Service) (ctx : bool) (intent : transitionIntent)
    (requestError : option goerror) (plan : Plan) : prog (Result ClusterWriteData) :=
  operationID ← planOperationID plan;
  let operation := tiOperation intent in
  let target := tiTarget intent in
  let fail category retryable message cause :=
    mret (failedRead service operationID operation target PathREST category retryable message cause []) in
  if negb ctx then fail CategoryUsage false (operation +:+ " requires a context") None
  else if negb (is_nil requestError) then fail CategoryUsage false (operation +:+ " request is invalid") requestError
  else match validateTransitionPlan plan intent with
  | Some err => fail CategoryUsage false (operation +:+ " plan does not match the request") (Some err)
  | None =>
      r ← do_call (CSnapshot target);
      match r with
      | inl err =>
          let '(category, retryable) := classifyReadError (Some err) in
          fail category retryable (operation +:+ " execution snapshot failed") (Some err)
      | inr snapshot =>
          match checkSnapshotPatroniVersion service snapshot false with
          | Some err =>
              mret (unsupportedVersionResult service operationID operation target PathREST snapshot (Some err))
          | None =>
              let baseEvidence :=
                [snapshotEvidence service snapshot (operation +:+ " target revalidated before execution")] in
              match resolveTransition snapshot intent with
              | inl (_, err) =>
                  mret (transitionFailure operationID intent PathREST
                          (with_verification VerifiedFailed (mkClusterWriteData "" "" "" SendNotSent (SendRaw "")
                                                               Unverified 0 0 false))
                          CategoryConflict (operation +:+ " was not sent because cluster topology changed")
                          (Some err) baseEvidence)
              | inr selection =>
                  let data := transitionData intent selection in
                  match revalidateTransitionPlan plan selection with
                  | Some err =>
                      mret (transitionFailure operationID intent PathREST data CategoryConflict
                              (operation +:+ " was not sent because confirmed preconditions changed")
                              (Some err) baseEvidence)
                  | None =>
                      cancelled ← do_call CCtxErr;
                      match cancelled with
                      | Some err =>
                          mret (transitionFailure operationID intent PathREST (with_verification VerifiedFailed data)
                                  CategoryFailed (operation +:+ " was canceled before it was sent") (Some err)
                                  (baseEvidence ++
                                   [mkEvidence EvidenceControl (svcNow service)
                                      (operation +:+ " canceled before REST write") "" (Path_text PathREST)
                                      SendNotSent]))
                      | None => sendTransition service operationID intent selection baseEvidence
                      end
                  end
              end
          end
      end
  end.

Definition PrepareFailover (service : Service) (ctx : bool) (request : FailoverRequest) : prog (Result Plan) :=
  let '(intent, err) := normalizeFailoverRequest request in prepareTransition service ctx intent err.

Definition ExecuteFailover (service : Service) (ctx : bool) (request : FailoverRequest) (plan : Plan)
    : prog (Result ClusterWriteData) :=
  let '(intent, err) := normalizeFailoverRequest request in executeTransition service ctx intent err plan.

Definition PrepareSwitchover (service : Service) (ctx : bool) (request : SwitchoverRequest) : prog (Result Plan) :=
  let '(intent, err) := normalizeSwitchoverRequest request in prepareTransition service ctx intent err.

Definition ExecuteSwitchover (service : Service) (ctx : bool) (request : SwitchoverRequest) (plan : Plan)
    : prog (Result ClusterWriteData) :=
  let '(intent, err) := normalizeSwitchoverRequest request in executeTransition service ctx intent err plan.

End handlers.
