(* ===== verification/TransitionHonest.v ===== *)
(** * Transitions never report a false failure

    The REST step, the DCS fallback and its readback are followed call by call:
    a result that says FAILED has a history in which nothing can have been
    applied.  Preparation is read-only and builds plans its own validators
    accept. *)

From S2P Require Import Prelude GoStrings GoErrors GoTime Target Version Values Dcs.
From S2P Require Import Effects Contract Readback Select Snapshots Batch Transition Samples.

(** ** Predicates of the theorems *)

(** What every transition result guarantees: it is valid, and a failure means
    that nothing that was sent can have been applied. *)
Definition transition_post (tr : list event) (r : Result ClusterWriteData) : Prop :=
  Result_Validate r = None ∧ (rOutcome r = Failed → Forall quiet tr).

(** The REST call is known not to have changed anything. *)
Definition rest_refused (c : RESTCall) : Prop :=
  rcSend c = SendNotSent ∨
  (rsStatusCode (rcResponse c) =? 0)%Z = false ∧ ok_or_accepted (rsStatusCode (rcResponse c)) = false.

#[export] Instance transition_post_read : ReadClosed transition_post.
Proof.
  intros pre tr r Hpre [Hv Hq]. split; [done|]. intros Hf. apply Forall_app.
  split; [by apply Forall_read_only_quiet|by apply Hq].
Qed.

(** ** Lemmas: results of one operation *)

Section results.
Context (operationID : string) (intent : transitionIntent).
Context (Hid : operationID ≠ "") (Hop : tiOperation intent ≠ "") (Ht : Target_Validate (tiTarget intent) true = None).

Lemma success_post path data evidence tr :
  Path_valid path = true → good_log evidence →
  transition_post tr (transitionSuccess operationID intent path data evidence).
Proof using Hid Ht. intros. split; [by apply valid_success|done]. Qed.

Lemma failure_post path data class message cause evidence tr :
  Path_valid path = true → good_log evidence → definite_class class → message ≠ "" → Forall quiet tr →
  transition_post tr (transitionFailureWithRetry operationID intent path data class message cause evidence).
Proof using Hid Hop Ht. intros. split; [by apply valid_failed|done]. Qed.

Lemma unknown_post path data message cause evidence tr :
  Path_valid path = true → good_log evidence → message ≠ "" →
  transition_post tr (transitionUnknown operationID intent path data message cause evidence).
Proof using Hid Hop Ht. intros. split; [by apply valid_unknown|done]. Qed.
End results.

Lemma transitionREST_evidence service operation path response err :
  clock_set service → good_evidence (transitionRESTEvidence service operation path response err).
Proof.
  intros Hc. apply good_mkEvidence; [done..| |auto with go].
  destruct (ok_or_accepted _); [by apply app_not_empty_l|]. destruct (negb _); by apply app_not_empty_l.
Qed.

Section lemmas.
Context `{GoStd} (service : Service) (Hclock : clock_set service).
Context (intent : transitionIntent).

(** The event of one REST request, by endpoint. *)
Definition post_event (failover : bool) (url : string) (payload : FailoverPayload)
    (r : RESTResponse * option goerror) : event :=
  if failover then Ev (CPostFailover url payload) r else Ev (CPostSwitchover url payload) r.

(** What the transition learns from the calls [tr] made by its REST step. *)
Definition rest_post (tr : list event) (c : RESTCall) : Prop :=
  Forall good_evidence (rcEvidence c) ∧ (rest_refused c → Forall quiet tr) ∧
  (maybe_sent (rcSend c) = false → rcSend c = SendNotSent).

Lemma post_event_quiet failover url payload response err :
  patroniSendState err (rsStatusCode response) = SendNotSent ∨
  (rsStatusCode response =? 0)%Z = false ∧ ok_or_accepted (rsStatusCode response) = false →
  quiet (post_event failover url payload (response, err)).
Proof.
  intros [Hs|[Hz Ha]].
  - destruct failover; by apply (patroniSendState_NotSent _ _ _ _ Hs).
  - unfold quiet, post_event. destruct failover; cbn; unfold rest_may_apply; cbn; by rewrite Hz.
Qed.

Lemma patroniSendState_maybe err status :
  maybe_sent (patroniSendState err status) = false → patroniSendState err status = SendNotSent.
Proof. unfold patroniSendState. repeat case_match; done. Qed.

Lemma callTransitionREST_spec selection payload :
  wp (callTransitionREST service intent selection payload) rest_post.
Proof using Hclock.
  assert (∀ summary cause, summary ≠ "" → rest_post [] (rest_unavailable service (tiOperation intent) summary cause)) as Hna.
  { intros. split; [|done]. apply Forall_singleton, good_mkEvidence; try done. by apply app_not_empty_r. }
  unfold callTransitionREST. destruct (negb (svcPatroni service)); [by apply Hna|].
  destruct (tsRestMember selection) as [m|]; [|by apply Hna].
  destruct (patroniBaseURL _) as [url|]; [|by apply Hna].
  set (finish := λ r : RESTResponse * option goerror, let '(response, err) := r in _).
  assert (∀ r, wp (finish r) (λ tr, rest_post (post_event (is_failover intent) url payload r :: tr))) as Hfinish.
  { clear Hna. intros [response err]. unfold finish. cbv zeta.
    pose proof (λ path r e, transitionREST_evidence service (tiOperation intent) path r e Hclock) as Hev.
    destruct (legacy_needed intent response) eqn:El.
    - assert (quiet (post_event (is_failover intent) url payload (response, err))) as Hquiet.
      { apply post_event_quiet. right. unfold legacy_needed in El. go_bool.
        assert (rsStatusCode response = 501%Z) as -> by done. done. }
      apply wp_call. intros [e|]; cbn.
      + split; [by apply Forall_singleton|]. split; [by repeat constructor|apply patroniSendState_maybe].
      + intros [response' err']. split.
        { constructor; [apply Hev|]. constructor; [by apply good_mkEvidence|]. by apply Forall_singleton. }
        split; [|apply patroniSendState_maybe].
        intros Hr. constructor; [done|]. constructor; [done|]. constructor; [|done].
        by apply (post_event_quiet true url payload).
    - split; [by apply Forall_singleton|]. split; [|apply patroniSendState_maybe].
      intros Hr. constructor; [by apply post_event_quiet|done]. }
  clearbody finish. apply wp_bind. unfold post_event in Hfinish. by destruct (is_failover intent).
Qed.

Lemma good_transitionReading planned : tiOperation intent ≠ "" → good_texts (transitionReading intent planned).
Proof using Type. intros. repeat split; intros; by apply app_not_empty_l. Qed.

Lemma verifyTransitionFallback_spec planned :
  tiOperation intent ≠ "" →
  wp_all read_only (verifyTransitionFallback service intent planned) (λ v, Forall good_evidence v.2).
Proof using Hclock. intros. by apply readback_read, good_transitionReading. Qed.

Section running.
Context (operationID : string) (Hid : operationID ≠ "").
Context (Hop : tiOperation intent ≠ "") (Ht : Target_Validate (tiTarget intent) true = None).

(** [data] as the REST step left it, after the calls [pre]. *)
Definition rest_state (pre : list event) (data : ClusterWriteData) : Prop :=
  (maybe_sent (cwRESTSendState data) = false → Forall quiet pre) ∧
  (maybe_sent (cwRESTSendState data) = false → cwRESTSendState data = SendNotSent).

Lemma settleFallback_post pre data restError w err verification evidence target payload expected tr :
  rest_state pre data → good_log evidence → Forall good_evidence verification.2 →
  cwDCSSendState data = dcsSendState err (wrApplied w) → Forall read_only tr →
  transition_post (pre ++ Ev (CWriteFailover target payload expected) (w, err) :: tr)
    (settleFallback operationID intent data restError err verification evidence).
Proof using Hid Hop Ht.
  intros [Hpre Hns] He Hv Hd Htr. unfold settleFallback. destruct verification as [[verified revision] ev].
  cbn in Hv. assert (good_log (evidence ++ ev)) as Hlog by by apply good_log_app. cbv zeta.
  set (data' := if (_ <? _)%Z then _ else _).
  assert (cwRESTSendState data' = cwRESTSendState data ∧ cwDCSSendState data' = cwDCSSendState data) as [Hr Hc]
    by (subst data'; by destruct (_ <? _)%Z).
  destruct verified; [by apply success_post|].
  cbn [with_verification cwRESTSendState cwDCSSendState]. rewrite Hr, Hc, Hd.
  assert (maybe_sent (cwRESTSendState data) = false → dcs_may_apply (w, err) = false →
          Forall quiet (pre ++ Ev (CWriteFailover target payload expected) (w, err) :: tr)) as Hquiet.
  { intros Hm Hw. apply Forall_app. split; [by apply Hpre|]. constructor; [done|by apply Forall_read_only_quiet]. }
  destruct (has_conflict err) eqn:Ec.
  { destruct (maybe_sent _) eqn:Em; [apply unknown_post|apply failure_post]; try done; try by apply app_not_empty_r.
    by apply Hquiet, conflict_not_applied. }
  destruct (_ && _) eqn:E; [|by apply unknown_post; try done; apply app_not_empty_r].
  apply andb_true_iff in E as [[Ee Es%bool_decide_eq_true]%andb_true_iff Er%bool_decide_eq_true].
  apply failure_post; try done; [apply classifyReadError_definite|by apply app_not_empty_r|].
  apply Hquiet; [by rewrite Er|]. apply (dcsSendState_NotSent _ (wrApplied w)); [by destruct err|done].
Qed.

Lemma executeTransitionFallback_spec planned data restError evidence pre :
  rest_state pre data → good_log evidence →
  wp (executeTransitionFallback service operationID intent planned data restError evidence)
     (λ tr, transition_post (pre ++ tr)).
Proof using Hclock Hid Hop Ht.
  intros Hs He. unfold executeTransitionFallback. cbv zeta.
  assert (∀ u class f err ev tr, good_log ev → definite_class class → u ≠ "" → f ≠ "" → Forall read_only tr →
    transition_post (pre ++ tr)
      (if maybe_sent (cwRESTSendState data)
       then transitionUnknown operationID intent PathRESTToDCS data u err ev
       else transitionFailureWithRetry operationID intent PathRESTToDCS (with_verification VerifiedFailed data)
              class f err ev)) as Habandon.
  { intros. destruct (maybe_sent _) eqn:E; [by apply unknown_post|]. apply failure_post; try done.
    apply Forall_app. split; [by apply Hs|by apply Forall_read_only_quiet]. }
  apply wp_call. intros [err|fresh].
  { apply Habandon; [|apply classifyReadError_definite|by apply app_not_empty_r..|by repeat constructor].
    apply good_log_app; [done|]. apply Forall_singleton, good_mkEvidence; try done. by apply app_not_empty_r. }
  set (ev := evidence ++ [snapshotEvidence _ _ _]).
  assert (good_log ev) as Hev.
  { apply good_log_app; [done|]. apply Forall_singleton, good_snapshotEvidence; [done|]. by apply app_not_empty_r. }
  destruct (transitionLeaderCompleted _ _ _); [by apply success_post|].
  destruct (validateFallbackTransition _ _ _) as [err|].
  { apply Habandon; try done; try by apply app_not_empty_r. by repeat constructor. }
  destruct (negb (svcFailoverDCS service)).
  { apply Habandon; try done; try by apply app_not_empty_r. by repeat constructor. }
  apply wp_call. intros [err|].
  { apply Habandon; try done; try by apply app_not_empty_r. by repeat constructor. }
  apply wp_call. intros [w err]. apply wp_bind.
  eapply wp_mono; [|by apply verifyTransitionFallback_spec]. cbn. intros tr v [Htr Hv].
  set (e1 := Ev (CSnapshot _) _). set (e2 := Ev CCtxErr _).
  set (e3 := Ev (CWriteFailover _ _ _) _).
  replace (pre ++ e1 :: e2 :: e3 :: tr ++ []) with ((pre ++ [e1; e2]) ++ e3 :: tr)
    by (by rewrite <- app_assoc, app_nil_r).
  apply settleFallback_post; try done.
  - split; [|apply Hs]. intros Hm. apply Forall_app. split; [by apply Hs|by repeat constructor].
  - apply good_log_app; [done|]. apply Forall_singleton, good_mkEvidence; auto with go.
    unfold transitionDCSWriteSummary. by repeat case_match.
Qed.

Lemma sendTransition_spec selection base :
  good_log base → wp (sendTransition service operationID intent selection base) transition_post.
Proof using Hclock Hid Hop Ht.
  intros Hb. unfold sendTransition. cbv zeta. apply wp_bind.
  eapply wp_mono; [|apply callTransitionREST_spec]. cbn. intros pre c (He & Hquiet & Hns).
  assert (good_log (base ++ rcEvidence c)) as Hlog by by apply good_log_app.
  set (data := with_rest _ _ _ _).
  destruct (ok_or_accepted (rsStatusCode (rcResponse c))) eqn:Ea.
  { destruct (_ && _); [|by apply success_post].
    apply wp_bind. eapply wp_mono; [|by apply verifyTransitionFallback_spec]. cbn.
    intros tr [[verified revision] ev] [Htr Hev]. cbn in Hev.
    assert (good_log ((base ++ rcEvidence c) ++ ev)) by by apply good_log_app.
    destruct verified; [by apply success_post|by apply unknown_post]. }
  destruct (rsStatusCode (rcResponse c) =? 0)%Z eqn:Ez; cbn [negb].
  - assert (rest_state pre data) as Hstate.
    { split; [|done]. intros Hm. apply Hquiet. left. by apply Hns. }
    apply wp_call. intros [err|].
    + cbn. destruct (maybe_sent _) eqn:Em; [apply unknown_post|apply failure_post]; try done;
        try by apply app_not_empty_r.
      apply Forall_app. split; [by apply Hstate|by repeat constructor].
    + refine (wp_mono _ _ _ _ (executeTransitionFallback_spec _ _ _ _ (pre ++ [Ev CCtxErr None]) _ Hlog)).
      * intros tr a. by rewrite <- app_assoc.
      * split; [|apply Hstate]. intros Hm. apply Forall_app. split; [by apply Hstate|by repeat constructor].
  - apply failure_post; try done; [apply classifyHTTPStatus_definite|]. rewrite app_nil_r. apply Hquiet. by right.
Qed.
End running.

Lemma failedRead_post operationID operation target path category retryable message cause evidence :
  operationID ≠ "" → operation ≠ "" → Target_Validate target true = None → Path_valid path = true →
  definite category → message ≠ "" → Forall good_evidence evidence →
  wp (mret (failedReadWithEvidence service operationID operation target path category retryable message cause evidence))
    transition_post.
Proof using Hclock. intros. split; [by apply valid_failedRead|by intros]. Qed.

Lemma executeTransition_spec ctx requestError plan :
  tiOperation intent ≠ "" → Target_Validate (tiTarget intent) true = None →
  wp (executeTransition service ctx intent requestError plan) transition_post.
Proof using Hclock.
  intros Hop Ht. unfold executeTransition. cbv zeta.
  eapply wp_bind_read; [apply _|apply planOperationID_spec|]. intros id Hid.
  destruct (negb ctx); [by apply failedRead_post; try done; apply app_not_empty_r|].
  destruct (negb (is_nil requestError)); [by apply failedRead_post; try done; apply app_not_empty_r|].
  destruct (validateTransitionPlan plan intent); [by apply failedRead_post; try done; apply app_not_empty_r|].
  apply wp_call_read; [apply _|done|]. intros [err|snapshot].
  { pose proof (classifyReadError_definite (Some err)) as Hd. destruct (classifyReadError (Some err)).
    apply failedRead_post; try done. by apply app_not_empty_r. }
  destruct (checkSnapshotPatroniVersion _ _ _) as [err|].
  { split; [by apply valid_unsupported|by intros]. }
  set (base := [snapshotEvidence _ _ _]).
  assert (good_log base) as Hb by (apply good_log_singleton, good_snapshotEvidence; [done|by apply app_not_empty_r]).
  destruct (resolveTransition snapshot intent) as [[? err]|selection].
  { apply failure_post; try done. by apply app_not_empty_r. }
  destruct (revalidateTransitionPlan plan selection) as [err|].
  { apply failure_post; try done. by apply app_not_empty_r. }
  apply wp_call_read; [apply _|done|]. intros [err|]; [|by apply sendTransition_spec].
  apply failure_post; try done; [|by apply app_not_empty_r].
  apply good_log_app; [done|]. apply Forall_singleton, good_mkEvidence; try done. by apply app_not_empty_r.
Qed.
End lemmas.

(** ** Lemmas: preparation *)

Section preparation.
Context `{GoStd} (service : Service) (Hclock : clock_set service).

(** A plan built from a selection passes both validators for it. *)
Lemma transitionPlan_accepted operationID snapshot intent selection :
  Plan_Validate (transitionPlan operationID snapshot intent selection) = None →
  validateTransitionPlan (transitionPlan operationID snapshot intent selection) intent = None ∧
  revalidateTransitionPlan (transitionPlan operationID snapshot intent selection) selection = None.
Proof using Type.
  intros Hv. split.
  - unfold validateTransitionPlan, validatePlanContract. rewrite Hv. unfold plan_contract, same_cluster. cbn.
    rewrite !String.eqb_refl. cbn. unfold fields_match. cbn. by rewrite !bool_decide_eq_true_2.
  - unfold revalidateTransitionPlan, fields_match. cbn. by rewrite !bool_decide_eq_true_2.
Qed.

Definition prepared (intent : transitionIntent) (tr : list event) (r : Result Plan) : Prop :=
  Forall read_only tr ∧ Result_Validate r = None ∧
  (rOutcome r = Succeeded → ∃ snapshot selection,
     Ev (CSnapshot (tiTarget intent)) (inr snapshot) ∈ tr ∧ version_gated service snapshot ∧
     resolveTransition snapshot intent = inr selection ∧ Plan_Validate (rData r) = None ∧
     validateTransitionPlan (rData r) intent = None ∧ revalidateTransitionPlan (rData r) selection = None).

Lemma prepared_failed intent tr id category retryable message cause evidence :
  id ≠ "" → tiOperation intent ≠ "" → Target_Validate (tiTarget intent) true = None →
  Forall read_only tr → definite category → message ≠ "" → Forall good_evidence evidence →
  prepared intent tr (failedReadWithEvidence service id (tiOperation intent) (tiTarget intent) PathREST
                        category retryable message cause evidence).
Proof using Hclock. intros. split; [done|]. split; [by apply valid_failedRead|done]. Qed.

Lemma prepareTransition_spec ctx intent requestError :
  tiOperation intent ≠ "" → Target_Validate (tiTarget intent) true = None →
  wp (prepareTransition service ctx intent requestError) (prepared intent).
Proof using Hclock.
  intros Hop Ht. unfold prepareTransition. cbv zeta. apply wp_bind.
  eapply wp_mono; [|apply operationID_spec]. intros pre id [Hpre Hid]. cbv beta.
  assert (∀ tr, Forall read_only tr → Forall read_only (pre ++ tr)) as Hro by (intros; by apply Forall_app).
  destruct (negb ctx).
  { apply prepared_failed; try done; [by apply Hro|by apply app_not_empty_r]. }
  destruct (negb (is_nil requestError)).
  { apply prepared_failed; try done; [by apply Hro|by apply app_not_empty_r]. }
  apply wp_call. intros [err|snapshot].
  { pose proof (classifyReadError_definite (Some err)). destruct (classifyReadError (Some err)).
    apply prepared_failed; try done; [by apply Hro, Forall_singleton|by apply app_not_empty_r]. }
  assert (Forall read_only (pre ++ [Ev (CSnapshot (tiTarget intent)) (inr snapshot)])) as Hr
    by by apply Hro, Forall_singleton.
  destruct (checkSnapshotPatroniVersion service snapshot false) as [err|] eqn:Eversion.
  { by refine (conj Hr (conj (valid_unsupported _ _ _ _ _ _ _ _ _ _ _ _) _)). }
  assert (∀ text, text ≠ "" → Forall good_evidence [snapshotEvidence service snapshot (tiOperation intent +:+ text)]) as Hev.
  { intros. apply Forall_singleton, good_snapshotEvidence; [done|]. by apply app_not_empty_r. }
  destruct (resolveTransition snapshot intent) as [[category err]|selection] eqn:Er.
  { apply prepared_failed; try done; [|by apply app_not_empty_r|by apply Hev].
    unfold resolveTransition, leader_error, candidate_error in Er. by repeat case_match; simplify_eq. }
  destruct (Plan_Validate _) as [err|] eqn:Ep.
  { apply prepared_failed; try done; [by apply app_not_empty_r|by apply Hev]. }
  destruct (transitionPlan_accepted _ _ _ _ Ep) as [Hp1 Hp2].
  refine (conj Hr (conj (valid_success _ _ _ _ _ Hid Ht _ _) _)); [done|by apply good_log_singleton, (Forall_singleton good_evidence), Hev|].
  intros _. exists snapshot, selection. split; [|done]. apply elem_of_app. right. by apply list_elem_of_singleton.
Qed.
End preparation.

(** ** Properties *)



(** The same for [ExecuteFailover]: a valid result, and no false failure. *)
Theorem ExecuteFailover_no_false_failure `{GoStd} service ctx request plan :
  clock_set service → Target_Validate (frTarget request) true = None →
  wp (ExecuteFailover service ctx request plan) (λ tr r,
    Result_Validate r = None ∧ (rOutcome r = Failed → Forall quiet tr)).
Proof.
  intros Hclock Ht. unfold ExecuteFailover, normalizeFailoverRequest. cbv zeta.
  apply executeTransition_spec; [done..|]. cbn [tiTarget]. by rewrite Target_Validate_Normalize.
Qed.

Lemma ExecuteFailover_no_false_failure_witness :
  let request := mkFailoverRequest sample_target "n2" true false in
  let plan := prepared_plan steady (PrepareFailover sample_service true request) in
  let r := run (answers steady steady silence applied) [] (ExecuteFailover sample_service true request plan) in
  rOutcome r.2 = Unknown ∧ Result_Validate r.2 = None ∧ (rOutcome r.2 = Failed → Forall quiet r.1).
Proof.
  split; [vm_compute; reflexivity|]. apply wp_run, ExecuteFailover_no_false_failure; vm_compute; reflexivity.
Defined.

(** [prepareTransition] only reads, returns a valid result, and a plan it
    returns passes the plan validator for the same request and revalidates
    against the selection of the snapshot it was built from: an unchanged
    cluster never refuses a confirmed plan. *)
Theorem prepareTransition_executable `{GoStd} service ctx intent requestError :
  clock_set service → tiOperation intent ≠ "" → Target_Validate (tiTarget intent) true = None →
  wp (prepareTransition service ctx intent requestError) (prepared service intent).
Proof. intros. by apply prepareTransition_spec. Qed.

Lemma prepareTransition_executable_witness :
  let intent := (normalizeSwitchoverRequest (mkSwitchoverRequest sample_target "n1" "n2" None true false)).1 in
  let r := run (answers steady steady silence applied) [] (prepareTransition sample_service true intent None) in
  rOutcome r.2 = Succeeded ∧ prepared sample_service intent r.1 r.2.
Proof. split; [vm_compute; reflexivity|]. apply wp_run, prepareTransition_executable; vm_compute; congruence. Defined.
