(* ===== verification/TransitionProtocol.v ===== *)
(** * The protocol of a transition

    A step relation that says which call may follow which, and the proof that
    every run of [executeTransition] is one of its traces; the bounds on writes
    follow by induction on the trace. *)

From S2P Require Import Prelude GoStrings GoErrors GoTime Target Version Values Dcs.
From S2P Require Import Effects Contract Readback Select Snapshots Batch Transition.
From S2P Require Import TransitionHonest Samples.

(** ** The protocol of a transition

    What may be called when, stated apart from the handler: nothing is written
    before a fresh snapshot confirmed the plan; one REST request follows, and a
    second one only for a server without /switchover; the failover key is
    compared-and-swapped once, only when REST gave no HTTP answer, against the
    revision of a snapshot that still allows the transition. *)
Section protocol.
Context `{GoStd} (service : Service) (intent : transitionIntent) (plan : Plan).

Inductive phase :=
| Planning
| Confirmed (selection : transitionSelection)
| Posted (selection : transitionSelection) (legacy : bool) (answer : RESTResponse)
| Fallback (selection : transitionSelection) (fresh : ClusterState)
| Swapped (selection : transitionSelection).

(** Where the REST request goes, when it can be made. *)
Definition rest_address (selection : transitionSelection) : option string :=
  if svcPatroni service then tsRestMember selection ≫= (λ m, patroniBaseURL (mdAPIURL (mbData m))) else None.

Definition fallback_allowed (selection : transitionSelection) (fresh : ClusterState) : Prop :=
  transitionLeaderCompleted fresh intent (tsLeader selection) = false ∧
  validateFallbackTransition fresh intent selection = None.

Inductive step : phase → event → phase → Prop :=
| step_read ph e : read_only e → step ph e ph
| step_confirm snapshot selection :
    version_gated service snapshot → resolveTransition snapshot intent = inr selection →
    revalidateTransitionPlan plan selection = None →
    step Planning (Ev (CSnapshot (tiTarget intent)) (inr snapshot)) (Confirmed selection)
| step_post selection url r :
    rest_address selection = Some url →
    step (Confirmed selection) (post_event (is_failover intent) url (transitionRESTPayload intent selection) r)
         (Posted selection false r.1)
| step_legacy selection url answer (r : RESTResponse * option goerror) :
    rest_address selection = Some url → legacy_needed intent answer = true →
    step (Posted selection false answer) (Ev (CPostFailover url (transitionRESTPayload intent selection)) r)
         (Posted selection true r.1)
| step_unsent selection fresh :
    rest_address selection = None → fallback_allowed selection (snCluster fresh) →
    step (Confirmed selection) (Ev (CSnapshot (tiTarget intent)) (inr fresh)) (Fallback selection (snCluster fresh))
| step_unanswered selection legacy answer fresh :
    rsStatusCode answer = 0%Z → fallback_allowed selection (snCluster fresh) →
    step (Posted selection legacy answer) (Ev (CSnapshot (tiTarget intent)) (inr fresh))
         (Fallback selection (snCluster fresh))
| step_swap selection fresh (r : WriteResult * option goerror) :
    step (Fallback selection fresh)
         (Ev (CWriteFailover (tiTarget intent) (transitionDCSPayload intent selection)
                (Some (failover_revision fresh))) r)
         (Swapped selection).

Inductive trace : phase → list event → phase → Prop :=
| trace_nil ph : trace ph [] ph
| trace_cons ph e ph' tr ph'' : step ph e ph' → trace ph' tr ph'' → trace ph (e :: tr) ph''.

Lemma trace_app ph tr ph' tr' ph'' : trace ph tr ph' → trace ph' tr' ph'' → trace ph (tr ++ tr') ph''.
Proof using Type. induction 1 as [|ph e ph1 tr ph2 Hs _ IH]; [done|]. cbn. intros. econstructor; [done|]. by apply IH. Qed.

Lemma trace_read ph tr : Forall read_only tr → trace ph tr ph.
Proof using Type. induction 1; econstructor; [by constructor|done]. Qed.

(** The evidence a success must rest on. *)
Definition planned_leader : string := plannedValue plan "leader.name".

Definition confirms (e : event) : bool :=
  match e with
  | Ev c r =>
      match c return reply c → bool with
      | CPostFailover _ _ | CPostSwitchover _ _ =>
          λ r, let status := rsStatusCode r.1 in (status =? 200)%Z || ((status =? 202)%Z && negb (scheduled intent))
      | CSnapshot _ =>
          λ r, match r with
               | inr s => transitionCompleted (snCluster s) intent planned_leader
               | inl _ => false
               end
      | _ => λ _, false
      end r
  end.

(** From a phase: a protocol trace, and confirmation of a success. *)
Definition protocol_post (ph : phase) (pre tr : list event) (r : Result ClusterWriteData) : Prop :=
  (∃ ph', trace ph tr ph') ∧ (rOutcome r = Succeeded → existsb confirms (pre ++ tr) = true).

#[local] Instance protocol_post_read : ReadClosed (protocol_post Planning []).
Proof.
  intros pre tr r Hpre [[ph Htr] Hs]. split.
  - exists ph. eapply trace_app; [by apply trace_read|done].
  - intros Hr. rewrite app_nil_l, existsb_app. cbn in Hs. by rewrite Hs, orb_true_r.
Qed.

Lemma confirms_answer url payload (r : RESTResponse * option goerror) :
  ok_or_accepted (rsStatusCode r.1) = true → (rsStatusCode r.1 =? 202)%Z && scheduled intent = false →
  confirms (post_event (is_failover intent) url payload r) = true ∧ confirms (Ev (CPostFailover url payload) r) = true.
Proof using Type.
  unfold post_event, ok_or_accepted. destruct (is_failover intent); cbn;
    destruct (rsStatusCode r.1 =? 200)%Z, (rsStatusCode r.1 =? 202)%Z, (scheduled intent); done.
Qed.

(** Where the REST step leaves the protocol. *)
Definition answered (selection : transitionSelection) (tr : list event) (c : RESTCall) : Prop :=
  (rest_address selection = None ∧ rcResponse c = no_response ∧ trace (Confirmed selection) tr (Confirmed selection)) ∨
  (∃ legacy, trace (Confirmed selection) tr (Posted selection legacy (rcResponse c)) ∧
     (ok_or_accepted (rsStatusCode (rcResponse c)) = true →
      (rsStatusCode (rcResponse c) =? 202)%Z && scheduled intent = false → existsb confirms tr = true)).

Lemma callTransitionREST_protocol selection :
  wp (callTransitionREST service intent selection (transitionRESTPayload intent selection)) (answered selection).
Proof using Type.
  set (payload := transitionRESTPayload intent selection).
  assert (∀ summary cause, rest_address selection = None →
            answered selection [] (rest_unavailable service (tiOperation intent) summary cause)) as Hna.
  { intros. left. repeat split; try done. constructor. }
  unfold callTransitionREST. destruct (svcPatroni service) eqn:Ep; cbn [negb];
    [|apply Hna; unfold rest_address; by rewrite Ep].
  destruct (tsRestMember selection) as [m|] eqn:Em; [|apply Hna; unfold rest_address; by rewrite Ep, Em].
  destruct (patroniBaseURL _) as [url|] eqn:Eu; [|apply Hna; unfold rest_address; by rewrite Ep, Em].
  assert (rest_address selection = Some url) as Haddr by (unfold rest_address; rewrite Ep, Em; done).
  set (finish := λ r : RESTResponse * option goerror, let '(response, err) := r in _).
  assert (∀ r, wp (finish r) (λ tr, answered selection (post_event (is_failover intent) url payload r :: tr))) as Hfinish.
  { clear Hna. intros [response err]. unfold finish. cbv zeta.
    pose proof (step_post selection url (response, err) Haddr) as Hpost. fold payload in Hpost. cbn [fst] in Hpost.
    destruct (legacy_needed intent response) eqn:El.
    - apply wp_call. intros [e|]; cbn [rcResponse].
      + right. exists false. split.
        * econstructor; [done|]. by apply trace_read, Forall_singleton.
        * unfold legacy_needed in El. go_bool. intros Ha. assert (rsStatusCode response = 501%Z) as Hx by done. cbn in Ha. rewrite Hx in Ha. done.
      + intros [response' err']. right. exists true. split.
        * econstructor; [done|]. econstructor; [by apply step_read|]. econstructor; [by eapply (step_legacy _ url)|]. constructor.
        * intros Ha Hb. cbn [existsb]. rewrite (proj2 (confirms_answer url payload (response', err') Ha Hb)).
          by rewrite !orb_true_r.
    - right. exists false. split.
      + econstructor; [done|]. constructor.
      + intros Ha Hb. cbn [existsb]. by rewrite (proj1 (confirms_answer url payload (response, err) Ha Hb)). }
  clearbody finish. apply wp_bind. unfold post_event in Hfinish. by destruct (is_failover intent).
Qed.

Lemma verifyTransition_protocol planned :
  planned = planned_leader →
  wp (verifyTransitionFallback service intent planned)
     (λ tr v, Forall read_only tr ∧ (v.1.1 = true → existsb confirms tr = true)).
Proof using Type.
  intros ->. eapply wp_mono; [|apply readback_spec]. intros tr v (Htr & _ & Hv). split; [done|].
  intros Hm%Hv. by apply (observed_existsb _ _ _ _ Hm).
Qed.

Lemma revalidated_leader selection :
  revalidateTransitionPlan plan selection = None → tsLeader selection = planned_leader.
Proof using Type.
  unfold revalidateTransitionPlan, planned_leader, plannedValue. destruct (fields_match _ _) eqn:E; [|done]. intros _.
  unfold fields_match in E. cbn in E. go_bool. by rewrite H0.
Qed.

(** The phases from which the fallback starts, with no HTTP answer. *)
Definition unanswered (selection : transitionSelection) (ph : phase) : Prop :=
  (ph = Confirmed selection ∧ rest_address selection = None) ∨
  (∃ legacy answer, ph = Posted selection legacy answer ∧ rsStatusCode answer = 0%Z).

Lemma protocol_read_post ph pre tr r :
  Forall read_only tr → rOutcome r ≠ Succeeded → protocol_post ph pre tr r.
Proof using Type. intros Htr Hr. split; [exists ph; by apply trace_read|done]. Qed.

Lemma settleFallback_outcome operationID data restError err verification evidence :
  rOutcome (settleFallback operationID intent data restError err verification evidence) = Succeeded →
  verification.1.1 = true.
Proof using Type. unfold settleFallback. destruct verification as [[[] revision] ev]; [done|]. repeat case_match; done. Qed.

Lemma executeTransitionFallback_protocol operationID selection data restError evidence ph pre :
  tsLeader selection = planned_leader → unanswered selection ph →
  wp (executeTransitionFallback service operationID intent selection data restError evidence) (protocol_post ph pre).
Proof using Type.
  intros Hl Hph. unfold executeTransitionFallback. cbv zeta.
  assert (∀ (b : bool) u class f err ev d tr, Forall read_only tr → protocol_post ph pre tr
            (if b then transitionUnknown operationID intent PathRESTToDCS data u err ev
             else transitionFailureWithRetry operationID intent PathRESTToDCS d class f err ev)) as Habandon
    by (intros; by apply protocol_read_post; [|destruct b]).
  apply wp_call. intros [err|fresh]; [apply Habandon; by repeat constructor|].
  destruct (transitionLeaderCompleted _ _ _) eqn:Ec.
  { split; [exists ph; apply trace_read; by repeat constructor|]. intros _. rewrite existsb_app. cbn.
    unfold transitionCompleted. rewrite <- Hl, Ec. by rewrite orb_true_r. }
  destruct (validateFallbackTransition _ _ _) eqn:Ev; [apply Habandon; by repeat constructor|].
  destruct (negb (svcFailoverDCS service)); [apply Habandon; by repeat constructor|].
  apply wp_call. intros [err|]; [apply Habandon; by repeat constructor|].
  apply wp_call. intros [w err]. apply wp_bind.
  eapply wp_mono; [|by apply verifyTransition_protocol]. cbn. intros tr v [Htr Hv]. rewrite app_nil_r. split.
  - exists (Swapped selection). econstructor.
    { destruct Hph as [[-> Hna]|(legacy & answer & -> & Hz)]; [by apply step_unsent|by apply step_unanswered]. }
    econstructor; [by apply step_read|]. econstructor; [apply step_swap|]. by apply trace_read.
  - intros Hs%settleFallback_outcome%Hv. rewrite existsb_app. cbn [existsb]. rewrite Hs. by rewrite !orb_true_r.
Qed.

Lemma protocol_post_prefix ph pre ph' base tr r :
  trace ph base ph' → protocol_post ph' (pre ++ base) tr r → protocol_post ph pre (base ++ tr) r.
Proof using Type.
  intros Hb [[ph'' Htr] Hs]. split; [exists ph''; by eapply trace_app|]. by rewrite app_assoc.
Qed.

Lemma sendTransition_protocol operationID selection base :
  tsLeader selection = planned_leader →
  wp (sendTransition service operationID intent selection base) (protocol_post (Confirmed selection) []).
Proof using Type.
  intros Hl. unfold sendTransition. cbv zeta. apply wp_bind.
  eapply wp_mono; [|apply callTransitionREST_protocol]. cbn. intros pre c Hc.
  assert (∃ ph, trace (Confirmed selection) pre ph ∧
            (rsStatusCode (rcResponse c) = 0%Z → unanswered selection ph) ∧
            (ok_or_accepted (rsStatusCode (rcResponse c)) = true →
             (rsStatusCode (rcResponse c) =? 202)%Z && scheduled intent = false → existsb confirms pre = true))
    as (ph & Htr & Hun & Hok).
  { destruct Hc as [(Ha & Hr & Htr)|(legacy & Htr & Hok)].
    - exists (Confirmed selection). split; [done|]. split; [by left|by rewrite Hr].
    - exists (Posted selection legacy (rcResponse c)). split; [done|]. split; [|done]. right. eauto. }
  destruct (ok_or_accepted (rsStatusCode (rcResponse c))) eqn:Ea.
  { destruct ((rsStatusCode (rcResponse c) =? 202)%Z && scheduled intent) eqn:Es.
    - apply wp_bind. eapply wp_mono; [|by apply verifyTransition_protocol]. cbn. intros tr [[v rev] ev] [Hr Hv].
      cbn in Hv. destruct v; apply (protocol_post_prefix _ _ ph); try done; rewrite app_nil_r; [|by apply protocol_read_post].
      split; [exists ph; by apply trace_read|]. intros _. by rewrite existsb_app, Hv, orb_true_r.
    - split; [exists ph; by rewrite app_nil_r|]. intros _. cbn. rewrite app_nil_r. by apply Hok. }
  destruct (rsStatusCode (rcResponse c) =? 0)%Z eqn:Ez; cbn [negb].
  - apply Z.eqb_eq in Ez. apply wp_call. intros [err|].
    + apply (protocol_post_prefix _ _ ph); [done|]. apply protocol_read_post; [by repeat constructor|].
      by destruct (maybe_sent _).
    + refine (wp_mono _ _ _ _ (executeTransitionFallback_protocol _ _ _ _ _ ph (([] ++ pre) ++ [Ev CCtxErr None]) Hl (Hun Ez))).
      intros tr r Hp. apply (protocol_post_prefix _ _ ph); [done|].
      apply (protocol_post_prefix ph _ ph [Ev CCtxErr None]); [|done]. by apply trace_read, Forall_singleton.
  - apply (protocol_post_prefix _ _ ph); [done|]. by apply protocol_read_post.
Qed.

Lemma executeTransition_protocol ctx requestError :
  wp (executeTransition service ctx intent requestError plan) (protocol_post Planning []).
Proof using Type.
  assert (∀ tr r, Forall read_only tr → rOutcome r = Failed → protocol_post Planning [] tr r) as Hstop.
  { intros ? r ? Hr. apply protocol_read_post; [done|]. by rewrite Hr. }
  unfold executeTransition. cbv zeta.
  eapply wp_bind_read; [apply _|apply planOperationID_spec|]. intros id _.
  destruct (negb ctx); [by apply Hstop|]. destruct (negb (is_nil requestError)); [by apply Hstop|].
  destruct (validateTransitionPlan plan intent); [by apply Hstop|].
  apply wp_call. intros [err|snapshot].
  { destruct (classifyReadError (Some err)). apply Hstop; [by repeat constructor|done]. }
  destruct (checkSnapshotPatroniVersion _ _ _) as [err|] eqn:Ev; [apply Hstop; [by repeat constructor|done]|].
  destruct (resolveTransition snapshot intent) as [[? err]|selection] eqn:Er; [apply Hstop; [by repeat constructor|done]|].
  destruct (revalidateTransitionPlan plan selection) as [err|] eqn:El; [apply Hstop; [by repeat constructor|done]|].
  apply wp_call. intros [err|]; [apply Hstop; [by repeat constructor|done]|].
  refine (wp_mono _ _ _ _ (sendTransition_protocol _ _ _ (revalidated_leader _ El))).
  intros tr r [[ph Htr] Hs]. split.
  - exists ph. econstructor; [by apply step_confirm|]. econstructor; [by apply step_read|done].
  - intros Hr. cbn in *. rewrite (Hs Hr). by rewrite orb_true_r.
Qed.
End protocol.

(** ** Lemmas: what the protocol allows *)

(** A REST request that Patroni accepted. *)
Definition rest_accepted (e : event) : bool :=
  match e with
  | Ev c r =>
      match c return reply c → bool with
      | CPostFailover _ _ | CPostSwitchover _ _ => λ r, ok_or_accepted (rsStatusCode r.1)
      | _ => λ _, false
      end r
  end.

(** The compare-and-swaps of the failover key in a history. *)
Definition is_swap (e : event) : bool := match ev_call e with CWriteFailover _ _ _ => true | _ => false end.
Definition swaps (tr : list event) : nat := length (List.filter is_swap tr).

Section safety.
Context `{GoStd} (service : Service) (intent : transitionIntent) (plan : Plan).

(** The writes a phase has behind it, at most. *)
Definition spent (ph : phase) : nat :=
  match ph with
  | Planning | Confirmed _ => 0
  | Posted _ legacy _ => if legacy then 2 else 1
  | Fallback _ _ => 2
  | Swapped _ => 3
  end.

Definition swapped (ph : phase) : nat := match ph with Swapped _ => 1 | _ => 0 end.

(** An accepted request is the last one made. *)
Definition acceptance (ph : phase) (accepted : bool) : Prop :=
  match ph with
  | Posted _ _ answer => accepted = true → ok_or_accepted (rsStatusCode answer) = true
  | _ => accepted = false
  end.

Lemma step_spent ph e ph' : step service intent plan ph e ph' → (writes [e] + spent ph ≤ spent ph')%nat.
Proof using Type.
  destruct 1 as [ph e Hr| | |selection url answer r Hu Hl|?|selection legacy answer fresh Hz|?].
  - rewrite writes_read_only by by apply Forall_singleton. lia.
  - cbn. lia.
  - unfold post_event. destruct (is_failover intent); cbn; lia.
  - cbn. lia.
  - cbn. lia.
  - cbn. destruct legacy; lia.
  - cbn. lia.
Qed.

Lemma step_swapped ph e ph' : step service intent plan ph e ph' → (swaps [e] + swapped ph ≤ swapped ph')%nat.
Proof using Type.
  destruct 1 as [ph e Hr| | | | | |]; cbn; try lia; try (unfold post_event; destruct (is_failover intent); cbn; lia).
  destruct e as [[] r]; try done; cbn; lia.
Qed.

Lemma step_acceptance ph e ph' accepted :
  step service intent plan ph e ph' → acceptance ph accepted → acceptance ph' (accepted || rest_accepted e).
Proof using Type.
  destruct 1 as [ph e Hr| |selection url r Hu|selection url answer r Hu Hl|selection fresh Hu|selection legacy answer fresh Hz|];
    cbn; try (by intros ->).
  - replace (rest_accepted e) with false by (by destruct e as [[] r]). by rewrite orb_false_r.
  - intros ->. cbn. unfold post_event. by destruct (is_failover intent).
  - intros Ha. destruct accepted; [|done]. specialize (Ha eq_refl). unfold legacy_needed in Hl. go_bool.
    assert (rsStatusCode answer = 501%Z) as Hx by done. rewrite Hx in Ha. done.
  - rewrite orb_false_r, Hz. destruct accepted; [|done]. intros Ha. by specialize (Ha eq_refl).
Qed.

Lemma trace_safety ph tr ph' accepted :
  trace service intent plan ph tr ph' → acceptance ph accepted →
  (writes tr + spent ph ≤ spent ph')%nat ∧ (swaps tr + swapped ph ≤ swapped ph')%nat ∧
  acceptance ph' (accepted || existsb rest_accepted tr).
Proof using Type.
  intros Htr. revert accepted. induction Htr as [ph|ph e ph1 tr ph2 Hs _ IH]; intros accepted Ha.
  { split; [cbn; lia|]. split; [cbn; lia|]. cbn. by rewrite orb_false_r. }
  destruct (IH _ (step_acceptance _ _ _ _ Hs Ha)) as (Hw & Hc & Hacc). cbn [existsb]. rewrite orb_assoc.
  pose proof (step_spent _ _ _ Hs) as H1. pose proof (step_swapped _ _ _ Hs) as H2.
  change (e :: tr) with ([e] ++ tr). rewrite writes_app. unfold swaps in *. rewrite List.filter_app, length_app.
  split; [lia|]. split; [lia|]. done.
Qed.
End safety.

(** ** Properties *)

(** C1: [executeTransition] refines the transition protocol: in every run a
    fresh, version-checked snapshot that resolves and revalidates against the
    plan comes before the first write; the one REST request (two for a server
    that lacks /switchover) carries the confirmed leader, candidate and
    schedule to the confirmed member; and the failover key is swapped only
    without an HTTP answer, at the revision of a snapshot that still allows
    the transition. *)
Theorem executeTransition_refines_protocol `{GoStd} service ctx intent requestError plan :
  wp (executeTransition service ctx intent requestError plan) (λ tr r,
    ∃ ph, trace service intent plan Planning tr ph).
Proof. eapply wp_mono; [|apply executeTransition_protocol]. by intros tr r [? _]. Qed.

(** A SUCCEEDED transition was observed: Patroni answered 200, or 202 to an
    immediate request, or a snapshot showed the requested leader or the
    requested failover key against the planned leader. *)
Theorem executeTransition_success_observed `{GoStd} service ctx intent requestError plan :
  wp (executeTransition service ctx intent requestError plan) (λ tr r,
    rOutcome r = Succeeded → existsb (confirms intent plan) tr = true).
Proof. eapply wp_mono; [|apply executeTransition_protocol]. by intros tr r [_ ?]. Qed.

(** A transition writes at most three times and swaps the failover key at
    most once, and a run that swaps it has no REST request that Patroni
    accepted: the two paths are never both taken. *)
Theorem executeTransition_single_path `{GoStd} service ctx intent requestError plan :
  wp (executeTransition service ctx intent requestError plan) (λ tr r,
    (writes tr ≤ 3)%nat ∧ (swaps tr ≤ 1)%nat ∧ (swaps tr = 1%nat → existsb rest_accepted tr = false)).
Proof.
  eapply wp_mono; [|apply executeTransition_protocol]. intros tr r [[ph Htr] _].
  destruct (trace_safety _ _ _ _ _ _ false Htr eq_refl) as (Hw & Hs & Ha). cbn in Hw, Hs, Ha.
  destruct ph; cbn in *; try lia; repeat split; try lia; try done. by destruct legacy; lia.
Qed.
