(* ===== verification/Pause.v ===== *)
(** * Pause and resume: [control/pause.go]

    The [pause] key is patched through the members one by one, leader first;
    the first HTTP answer ends the attempt.  Convergence is read back from the
    DCS when the request waits or when an earlier send was ambiguous. *)

From S2P Require Import Prelude GoStrings GoErrors GoTime Target Version Values Dcs.
From S2P Require Import Effects Contract Readback Select Snapshots Batch Samples.

Record PauseRequest := mkPauseRequest { prTarget : Target; prWait : bool; prCitus : bool }.

Record pauseIntent := mkPauseIntent {
  piOperation : string;
  piTarget : Target;
  piDesired : bool;
  piWait : bool;
  piCitus : bool
}.

Record PauseData := mkPauseData {
  pdPaused : bool;
  pdWait : bool;
  pdResults : list MemberWriteResult;
  pdRESTSendState : SendState;
  pdVerification : Verification;
  pdDCSRevision : Z;
  pdPendingMembers : list string;
  pdNoop : bool
}.

#[export] Instance zero_PauseData : Zero PauseData :=
  mkPauseData false false [] (SendRaw "") (VerificationRaw "") 0 [] false.

Definition PauseData_Validate (d : PauseData) : option goerror :=
  if negb (SendState_validOrEmpty (pdRESTSendState d)) || SendState_empty (pdRESTSendState d)
  then Some (EText "pause REST send state is invalid")
  else if negb (Verification_valid (pdVerification d)) then Some (EText "pause verification is invalid")
  else if (pdDCSRevision d <? 0)%Z then Some (EText "pause DCS revision must be non-negative")
  else if pdNoop d && negb (bool_decide (pdVerification d = VerifiedSucceeded))
  then Some (EText "pause no-op requires verified success")
  else match first_error MemberWriteResult_Validate (pdResults d) with
  | Some err => Some (EWrap "pause REST result" err)
  | None => if StringsAreSorted (pdPendingMembers d) then None
            else Some (EText "pause pending members must be deterministic")
  end.

(** Field assignments of [data]. *)
Definition pause_verified (v : Verification) (d : PauseData) : PauseData :=
  mkPauseData (pdPaused d) (pdWait d) (pdResults d) (pdRESTSendState d) v (pdDCSRevision d) (pdPendingMembers d)
    (pdNoop d).

Definition pause_observed (pending : list string) (revision : Z) (d : PauseData) : PauseData :=
  mkPauseData (pdPaused d) (pdWait d) (pdResults d) (pdRESTSendState d) (pdVerification d) revision pending
    (pdNoop d).

Definition pause_noop (d : PauseData) : PauseData :=
  mkPauseData (pdPaused d) (pdWait d) (pdResults d) (pdRESTSendState d) (pdVerification d) (pdDCSRevision d)
    (pdPendingMembers d) true.

Definition pause_appended (r : MemberWriteResult) (d : PauseData) : PauseData :=
  let results := pdResults d ++ [r] in
  mkPauseData (pdPaused d) (pdWait d) results (aggregateRESTSendState results) (pdVerification d)
    (pdDCSRevision d) (pdPendingMembers d) (pdNoop d).

Definition normalizePauseRequest (operation : string) (desired : bool) (request : PauseRequest)
    : pauseIntent * option goerror :=
  let intent := mkPauseIntent operation (Normalize (prTarget request)) desired (prWait request) (prCitus request) in
  (intent,
   if tMember (piTarget intent) !=s "" then Some (EText "pause/resume target must be a cluster")
   else Target_Validate (piTarget intent) true).

Definition config_paused (snapshot : Snapshot) : bool :=
  boolConfig (map_index (csConfig (snCluster snapshot)) "pause").

(** ** Plans *)

Definition pausePlan (operationID : string) (intent : pauseIntent) (snapshot : Snapshot) (targets : list Target)
    : Plan :=
  mkPlan operationID (piOperation intent) (piTarget intent) targets PathREST RiskAvailability UnsafeAfterSend
    (piOperation intent +:+ " cluster management through leader-first members: " +:+
     Join (memberNamesFromTargets targets) ", ")
    [mkPrecondition "dcs.revision" (FormatInt (snRevision snapshot)) EvidenceDCS;
     mkPrecondition "pause.current" (FormatBool (config_paused snapshot)) EvidenceDCS;
     mkPrecondition "pause.desired" (FormatBool (piDesired intent)) EvidenceControl;
     mkPrecondition "request.wait" (FormatBool (piWait intent)) EvidenceControl;
     mkPrecondition "request.citus" (FormatBool (piCitus intent)) EvidenceControl;
     mkPrecondition "rest.members" (Join (memberNamesFromTargets targets) ",") EvidenceDCS].

Definition preparePause (service : Service) (ctx : bool) (intent : pauseIntent) (requestError : option goerror)
    : prog (Result Plan) :=
  operationID ← operationID;
  let operation := piOperation intent in
  let fail category retryable message cause evidence :=
    mret (failedRead service operationID operation (piTarget intent) PathREST category retryable message cause evidence) in
  if negb ctx then fail CategoryUsage false (operation +:+ " requires a context") None []
  else if negb (is_nil requestError) then fail CategoryUsage false (operation +:+ " request is invalid") requestError []
  else
    r ← do_call (CSnapshot (piTarget intent));
    match r with
    | inl err =>
        let '(category, retryable) := classifyReadError (Some err) in
        fail category retryable (operation +:+ " cluster discovery failed") (Some err) []
    | inr snapshot =>
        match checkSnapshotPatroniVersion service snapshot false with
        | Some err =>
            mret (unsupportedVersionResult service operationID operation (piTarget intent) PathREST snapshot (Some err))
        | None =>
            let selection := [snapshotEvidence service snapshot (operation +:+ " member selection completed")] in
            if Bool.eqb (config_paused snapshot) (piDesired intent) then
              fail CategoryConflict false
                (if piDesired intent then "cluster is already paused" else "cluster is not paused") None
                [snapshotEvidence service snapshot (operation +:+ " observed current cluster state")]
            else
              let members := leaderFirstRESTMembers (snCluster snapshot) in
              if is_nil (head members)
              then fail CategoryNotFound false "cannot find an accessible cluster member" None selection
              else
                let plan := pausePlan operationID intent snapshot (memberTargets (piTarget intent) members) in
                match Plan_Validate plan with
                | Some err => fail CategoryInternal false (operation +:+ " plan construction failed") (Some err) selection
                | None =>
                    mret (planResult operationID (piTarget intent) PathREST plan
                            [snapshotEvidence service snapshot (operation +:+ " plan built from fresh cluster snapshot")])
                end
        end
    end.

Definition validatePausePlan (plan : Plan) (intent : pauseIntent) : option goerror :=
  validatePlanContract plan (piOperation intent) PathREST RiskAvailability (piTarget intent)
    (if fields_match plan
          [("pause.desired", FormatBool (piDesired intent)); ("request.wait", FormatBool (piWait intent));
           ("request.citus", FormatBool (piCitus intent));
           ("rest.members", Join (memberNamesFromTargets (pTargets plan)) ",")]
     then if is_nil (head (pTargets plan)) then Some (EText "pause/resume plan requires REST member targets") else None
     else Some (EText "plan differs from request")).

(** ** Results *)

Definition pauseSuccess (operationID : string) (intent : pauseIntent) (data : PauseData) (evidence : list Evidence)
    : Result PauseData :=
  mkResult operationID Succeeded (piTarget intent) PathREST data evidence None.

Definition pauseFailure (operationID : string) (intent : pauseIntent) (data : PauseData) (category : Category)
    (retryable : bool) (message : string) (cause : option goerror) (evidence : list Evidence) : Result PauseData :=
  mkResult operationID Failed (piTarget intent) PathREST (pause_verified VerifiedFailed data) evidence
    (Some (NewError category (piOperation intent) (piTarget intent) retryable message cause evidence)).

Definition pauseUnknown (operationID : string) (intent : pauseIntent) (data : PauseData) (message : string)
    (cause : option goerror) (evidence : list Evidence) : Result PauseData :=
  mkResult operationID Unknown (piTarget intent) PathREST (pause_verified Unverified data) evidence
    (Some (NewError CategoryUnknown (piOperation intent) (piTarget intent) false message cause evidence)).

Definition last_error (results : list MemberWriteResult) : option Error := last (omap mwError results).

(** [terminalPauseFailure] *)
Definition terminalPauseFailure (results : list MemberWriteResult) : Category * bool * option goerror :=
  match last_error results with
  | Some e => (errCategory e, errRetryable e, as_error (Some e))
  | None => (CategoryUnreachable, true, None)
  end.

(** [lastPauseError] *)
Definition lastPauseError (results : list MemberWriteResult) : option goerror :=
  match last_error results with Some e => as_error (Some e) | None => None end.

(** ** Verification *)

Definition pausePendingMembers (cluster : ClusterState) (planned : list string) (desired : bool) : list string :=
  let byName := memberMap (csMembers cluster) in
  sort_strings (List.filter (λ name, match byName !! name with
                                     | Some m => negb (Bool.eqb (deref false (mdPause (mbData m))) desired)
                                     | None => true
                                     end) planned).

(** What is remembered: pending members, none once verified, and revision. *)
Definition pauseReading (intent : pauseIntent) (plannedMembers : list string) : Reading (list string * Z) :=
  mkReading (piOperation intent +:+ " convergence verification canceled")
    (piOperation intent +:+ " convergence readback failed")
    (λ snapshot,
       let pending := pausePendingMembers (snCluster snapshot) plannedMembers (piDesired intent) in
       let matched := Bool.eqb (config_paused snapshot) (piDesired intent)
                      && (negb (piWait intent) || is_nil (head pending)) in
       ((if matched then [] else pending, snRevision snapshot), matched))
    (λ matched, piOperation intent +:+ (if matched then " state is authoritative"
                                        else " state is not yet authoritative")).

Definition verifyPauseState (service : Service) (intent : pauseIntent) (plannedMembers : list string)
    : prog (verdict (list string * Z)) :=
  readback service (piTarget intent) (pauseReading intent plannedMembers) ([], 0%Z).

(** Success when the readback verified the state, UNKNOWN otherwise. *)
Definition settlePause (operationID : string) (intent : pauseIntent) (data : PauseData) (message : string)
    (cause : option goerror) (evidence : list Evidence) (v : verdict (list string * Z)) : Result PauseData :=
  let '(verified, (pending, revision), verificationEvidence) := v in
  let evidence := evidence ++ verificationEvidence in
  let data := pause_observed pending revision data in
  if (verified : bool) then pauseSuccess operationID intent (pause_verified VerifiedSucceeded data) evidence
  else pauseUnknown operationID intent data message cause evidence.

Definition verifyAndSettle (service : Service) (operationID : string) (intent : pauseIntent) (data : PauseData)
    (members : list string) (message : string) (cause : option goerror) (evidence : list Evidence)
    : prog (Result PauseData) :=
  v ← verifyPauseState service intent members;
  mret (settlePause operationID intent data message cause evidence v).

(** ** Execution *)

Definition finishCanceledPause (operationID : string) (intent : pauseIntent) (data : PauseData)
    (cause : option goerror) (evidence : list Evidence) : Result PauseData :=
  let evidence := appendFlushEvidence evidence (pdResults data) in
  if flushHasAmbiguousREST (pdResults data) then
    pauseUnknown operationID intent data
      (piOperation intent +:+ " may have been sent before cancellation; verify DCS") cause evidence
  else pauseFailure operationID intent data CategoryFailed false
         (piOperation intent +:+ " was canceled before completion") cause evidence.

Definition finishPauseHTTPResponse (service : Service) (operationID : string) (intent : pauseIntent)
    (data : PauseData) (terminal : MemberWriteResult) (members : list string) (baseEvidence : list Evidence)
    : prog (Result PauseData) :=
  let evidence := appendFlushEvidence baseEvidence (pdResults data) in
  if (mwHTTPStatus terminal =? 200)%Z then
    if negb (piWait intent)
    then mret (pauseSuccess operationID intent (pause_verified VerifiedSucceeded data) evidence)
    else verifyAndSettle service operationID intent data members
           (piOperation intent +:+ " was accepted but member convergence was not verified")
           (as_error (mwError terminal)) evidence
  else if flushHasAmbiguousREST (pdResults data) then
    verifyAndSettle service operationID intent data members
      (piOperation intent +:+ " had an earlier ambiguous send and was not verified")
      (as_error (mwError terminal)) evidence
  else
    let '(category, retryable) := classifyHTTPStatus (mwHTTPStatus terminal) in
    mret (pauseFailure operationID intent data category retryable ("Patroni rejected " +:+ piOperation intent)
            (as_error (mwError terminal)) evidence).

(** [payload := {"pause": true}], or [null] to resume. *)
Definition pausePayload (desired : bool) : config := [("pause", if desired then VBool true else VNull)].

Section with_std.
  Context `{GoStd}.

(** One member of the write loop. *)
Definition pauseMember (service : Service) (intent : pauseIntent) (snapshot : Snapshot)
    (members : list Member) (target : Target) : prog MemberWriteResult :=
  if negb (svcPatroni service) then
    mret (memberNotSent service (piOperation intent) target CategoryConfig false
            "Patroni REST client is unavailable" None)
  else match patroniBaseURL (mdAPIURL (mbData (memberMap_index members (tMember target)))) with
  | None => mret (invalidRESTAddressWrite service (piOperation intent) target snapshot)
  | Some baseURL =>
      r ← do_call (CPatchConfig baseURL (pausePayload (piDesired intent)));
      mret (classifyPauseResponse service (piOperation intent) target r.1 r.2)
  end.

(** After the last member: nobody answered. *)
Definition finishPauseSilence (service : Service) (operationID : string) (intent : pauseIntent)
    (data : PauseData) (memberNames : list string) (evidence : list Evidence) : prog (Result PauseData) :=
  let evidence := appendFlushEvidence evidence (pdResults data) in
  if flushHasAmbiguousREST (pdResults data) then
    verifyAndSettle service operationID intent data memberNames
      (piOperation intent +:+ " may have been sent but authoritative state did not verify it")
      (lastPauseError (pdResults data)) evidence
  else
    let '(category, retryable, cause) := terminalPauseFailure (pdResults data) in
    mret (pauseFailure operationID intent data category retryable "cannot find an accessible cluster member"
            cause evidence).

Fixpoint pauseLoop (service : Service) (operationID : string) (intent : pauseIntent) (snapshot : Snapshot)
    (memberNames : list string) (data : PauseData) (evidence : list Evidence) (targets : list Target)
    : prog (Result PauseData) :=
  match targets with
  | [] => finishPauseSilence service operationID intent data memberNames evidence
  | target :: rest =>
      cancelled ← do_call CCtxErr;
      match cancelled with
      | Some err => mret (finishCanceledPause operationID intent data (Some err) evidence)
      | None =>
          result ← pauseMember service intent snapshot (csMembers (snCluster snapshot)) target;
          let data := pause_appended result data in
          if negb (mwHTTPStatus result =? 0)%Z
          then finishPauseHTTPResponse service operationID intent data result memberNames evidence
          else pauseLoop service operationID intent snapshot memberNames data evidence rest
      end
  end.

Definition executePause (service : Service) (ctx : bool) (intent : pauseIntent) (requestError : option goerror)
    (plan : Plan) : prog (Result PauseData) :=
  operationID ← planOperationID plan;
  let operation := piOperation intent in
  let target := piTarget intent in
  let fail category retryable message cause :=
    mret (failedRead service operationID operation target PathREST category retryable message cause []) in
  if negb ctx then fail CategoryUsage false (operation +:+ " requires a context") None
  else if negb (is_nil requestError) then fail CategoryUsage false (operation +:+ " request is invalid") requestError
  else match validatePausePlan plan intent with
  | Some err => fail CategoryUsage false (operation +:+ " plan does not match the request") (Some err)
  | None =>
      r ← do_call (CSnapshot target);
      match r with
      | inl err =>
          let '(category, retryable) := classifyReadError (Some err) in
          fail category retryable (operation +:+ " execution snapshot failed") (Some err)
      | inr snapshot =>
          match checkSnapshotPatroniVersion service snapshot false with
          | Some err =>
              mret (unsupportedVersionResult service operationID operation target PathREST snapshot (Some err))
          | None =>
              let evidence := [snapshotEvidence service snapshot (operation +:+ " targets revalidated before execution")] in
              let data := mkPauseData (piDesired intent) (piWait intent) [] SendNotSent Unverified 0 [] false in
              let memberNames := memberNamesFromTargets (pTargets plan) in
              if Bool.eqb (config_paused snapshot) (piDesired intent) then
                if negb (piWait intent) then
                  mret (pauseSuccess operationID intent
                          (pause_verified VerifiedSucceeded (pause_observed [] (snRevision snapshot) (pause_noop data)))
                          evidence)
                else verifyAndSettle service operationID intent (pause_noop data) memberNames
                       (operation +:+ " state is set but member convergence is unverified") None evidence
              else
                let current := memberTargets target (leaderFirstRESTMembers (snCluster snapshot)) in
                if Join (memberNamesFromTargets current) "," !=s Join memberNames "," then
                  mret (pauseFailure operationID intent data CategoryConflict false
                          (operation +:+ " was not sent because the confirmed REST member set changed") None evidence)
                else pauseLoop service operationID intent snapshot memberNames data evidence (pTargets plan)
          end
      end
  end.

Definition PreparePause (service : Service) (ctx : bool) (request : PauseRequest) : prog (Result Plan) :=
  let '(intent, err) := normalizePauseRequest "pause" true request in preparePause service ctx intent err.

Definition ExecutePause (service : Service) (ctx : bool) (request : PauseRequest) (plan : Plan)
    : prog (Result PauseData) :=
  let '(intent, err) := normalizePauseRequest "pause" true request in executePause service ctx intent err plan.

Definition PrepareResume (service : Service) (ctx : bool) (request : PauseRequest) : prog (Result Plan) :=
  let '(intent, err) := normalizePauseRequest "resume" false request in preparePause service ctx intent err.

Definition ExecuteResume (service : Service) (ctx : bool) (request : PauseRequest) (plan : Plan)
    : prog (Result PauseData) :=
  let '(intent, err) := normalizePauseRequest "resume" false request in executePause service ctx intent err plan.

End with_std.

(** ** Predicates of the theorems *)

(** The patch that pauses, or resumes. *)
Definition asks_pause (desired : bool) (payload : config) : bool :=
  match payload with
  | [(key, VBool b)] => (key ==s "pause") && b && desired
  | [(key, VNull)] => (key ==s "pause") && negb desired
  | _ => false
  end.

(** An event that shows the cluster paused, or resumed, as requested. *)
Definition pause_shown (desired : bool) (e : event) : bool :=
  match e with
  | Ev c r =>
      match c return reply c → bool with
      | CPatchConfig _ payload => λ r, asks_pause desired payload && (rsStatusCode r.1 =? 200)%Z
      | CSnapshot _ => λ r, match r with inr s => Bool.eqb (config_paused s) desired | inl _ => false end
      | _ => λ _, false
      end r
  end.

(** What a pause or a resume guarantees about its history and its result. *)
Definition pause_post (intent : pauseIntent) (tr : list event) (r : Result PauseData) : Prop :=
  Result_Validate r = None ∧ (rOutcome r = Failed → Forall quiet tr) ∧ answer_ends tr ∧
  (rOutcome r = Succeeded → existsb (pause_shown (piDesired intent)) tr = true).

#[export] Instance pause_post_read intent : ReadClosed (pause_post intent).
Proof.
  intros pre tr r Hpre (Hv & Hq & Ha & Hs). split; [done|]. split; [|split].
  - intros Hf. apply Forall_app. split; [by apply Forall_read_only_quiet|by apply Hq].
  - by apply answer_ends_app; [apply read_only_unanswered|].
  - intros Hr. rewrite existsb_app, (Hs Hr). by rewrite orb_true_r.
Qed.

(** ** Lemmas: results *)

Section results.
Context (operationID : string) (intent : pauseIntent).
Context (Hid : operationID ≠ "") (Hop : piOperation intent ≠ "") (Ht : Target_Validate (piTarget intent) true = None).

Lemma pauseSuccess_post data evidence tr :
  good_log evidence → answer_ends tr → existsb (pause_shown (piDesired intent)) tr = true →
  pause_post intent tr (pauseSuccess operationID intent data evidence).
Proof using Hid Ht. intros. split; [by apply valid_success|done]. Qed.

Lemma pauseFailure_post data category retryable message cause evidence tr :
  good_log evidence → definite category → message ≠ "" → Forall quiet tr → answer_ends tr →
  pause_post intent tr (pauseFailure operationID intent data category retryable message cause evidence).
Proof using Hid Hop Ht. intros. split; [by apply valid_failed|done]. Qed.

Lemma pauseUnknown_post data message cause evidence tr :
  good_log evidence → message ≠ "" → answer_ends tr →
  pause_post intent tr (pauseUnknown operationID intent data message cause evidence).
Proof using Hid Hop Ht. intros. split; [by apply valid_unknown|done]. Qed.
End results.

(** A batch with no ambiguous member ends on a definite error. *)
Lemma terminalPauseFailure_definite results :
  Forall good_member results → flushHasAmbiguousREST results = false →
  definite (terminalPauseFailure results).1.1.
Proof.
  intros Hg Ha. unfold terminalPauseFailure, last_error. destruct (last (omap mwError results)) as [e|] eqn:E; [|done].
  apply last_Some_elem_of, list_elem_of_omap in E as (r & Hr & He). cbn.
  assert (mwOutcome r ≠ Unknown) as Hu.
  { intros Hu. assert (flushHasAmbiguousREST results = true); [|congruence].
    apply existsb_exists. exists r. split; [by apply list_elem_of_In|]. by apply bool_decide_eq_true. }
  pose proof (proj1 (Forall_forall _ _) Hg r Hr) as (_ & _ & _ & _ & Hv). unfold good_verdict in Hv. rewrite He in Hv.
  destruct (mwOutcome r); try done. apply Hv.
Qed.

Section lemmas.
Context `{GoStd} (service : Service) (Hclock : clock_set service) (intent : pauseIntent).

Lemma pauseMember_post snapshot members target :
  wp (pauseMember service intent snapshot members target) (attempt_post (pause_shown (piDesired intent))).
Proof using Hclock.
  unfold pauseMember. destruct (negb (svcPatroni service)).
  { apply attempt_not_sent; [by apply good_memberNotSent|done..]. }
  destruct (patroniBaseURL _) as [url|]; [|apply attempt_not_sent; [by apply good_invalidAddress|done..]].
  apply wp_call. intros [response err]. set (c := CPatchConfig url _). set (r := classifyPauseResponse _ _ _ _ _).
  assert (mwHTTPStatus r = rsStatusCode response) as Hstatus by apply classifyResponse_status.
  split; [by apply good_classifyPause|]. split.
  { intros Hf. constructor; [|done]. revert Hf. by apply (honest_classifyResponse service c). }
  rewrite Hstatus. split; [intros Hs%classifyResponse_succeeded; by apply Z.eqb_eq in Hs|]. split.
  { intros Hs. split; [apply classifyResponse_succeeded; unfold ok_only; cbn; by rewrite Hs|].
    cbn. rewrite Hs. by destruct (piDesired intent). }
  split; [|done]. intros Hs. constructor; [|done]. cbn. by rewrite Hs.
Qed.

Lemma verifyPauseState_post members :
  piOperation intent ≠ "" →
  wp (verifyPauseState service intent members)
    (λ tr v, Forall read_only tr ∧ Forall good_evidence v.2 ∧
             (v.1.1 = true → existsb (pause_shown (piDesired intent)) tr = true)).
Proof using Hclock.
  intros Hop. eapply wp_mono; [|apply readback_spec]. intros tr v (Htr & He & Hv). split; [done|]. split.
  - apply He; [done|]. repeat split; intros; by apply app_not_empty_l.
  - intros Hm%Hv. apply (observed_existsb _ _ _ _ Hm). cbn. by intros s [? _]%andb_true_iff.
Qed.

Section running.
Context (operationID : string) (Hid : operationID ≠ "").
Context (Hop : piOperation intent ≠ "") (Ht : Target_Validate (piTarget intent) true = None).

Lemma verifyAndSettle_post data members message cause evidence pre :
  answer_ends pre → good_log evidence → message ≠ "" →
  wp (verifyAndSettle service operationID intent data members message cause evidence)
     (λ tr, pause_post intent (pre ++ tr)).
Proof using Hclock Hid Hop Ht.
  intros Ha He Hm. apply wp_bind. eapply wp_mono; [|by apply verifyPauseState_post].
  cbn. intros tr [[verified [pending revision]] ev] (Htr & Hev & Hv). cbn in Hev, Hv. rewrite app_nil_r.
  assert (good_log (evidence ++ ev)) as Hlog by by apply good_log_app.
  assert (answer_ends (pre ++ tr)) as Hends by by apply answer_ends_then_read.
  unfold settlePause. destruct verified; [|by apply pauseUnknown_post].
  apply pauseSuccess_post; try done. rewrite existsb_app, Hv by done. by rewrite orb_true_r.
Qed.

Lemma finishPauseSilence_post data names evidence pre :
  loop_state pre (pdResults data) → Forall (λ e, http_answered e = false) pre → good_log evidence →
  wp (finishPauseSilence service operationID intent data names evidence) (λ tr, pause_post intent (pre ++ tr)).
Proof using Hclock Hid Hop Ht.
  intros [Hg Hq] Hu He. unfold finishPauseSilence.
  assert (good_log (appendFlushEvidence evidence (pdResults data))) as Hlog by by apply loop_evidence.
  pose proof (answer_ends_unanswered _ Hu) as Ha.
  destruct (flushHasAmbiguousREST _) eqn:Ef; [by apply verifyAndSettle_post; try done; apply app_not_empty_r|].
  pose proof (terminalPauseFailure_definite _ Hg Ef) as Hd. destruct (terminalPauseFailure _) as [[category retryable] cause].
  cbn. rewrite app_nil_r. apply pauseFailure_post; try done. by apply Hq.
Qed.

Lemma finishPauseHTTP_post data r names evidence pre tr :
  loop_state pre (pdResults data) → Forall (λ e, http_answered e = false) pre →
  attempt_post (pause_shown (piDesired intent)) tr r → mwHTTPStatus r ≠ 0%Z →
  good_log evidence →
  wp (finishPauseHTTPResponse service operationID intent (pause_appended r data) r names evidence)
     (λ tr', pause_post intent (pre ++ tr ++ tr')).
Proof using Hclock Hid Hop Ht.
  intros Hstate Hu Hattempt Hz He. pose proof Hattempt as (Hr & _ & _ & Hok & _ & Hends). unfold finishPauseHTTPResponse.
  assert (Forall good_member (pdResults (pause_appended r data))) as Hall
    by (apply Forall_app; split; [apply Hstate|by apply Forall_singleton]).
  assert (good_log (appendFlushEvidence evidence (pdResults (pause_appended r data)))) as Hlog
    by by apply loop_evidence.
  assert (answer_ends (pre ++ tr)) as Ha by by apply answer_ends_app.
  assert (∀ message, message ≠ "" →
    wp (verifyAndSettle service operationID intent (pause_appended r data) names message
          (as_error (mwError r)) (appendFlushEvidence evidence (pdResults (pause_appended r data))))
       (λ tr', pause_post intent (pre ++ tr ++ tr'))) as Hsettle.
  { intros. eapply wp_mono; [|by apply (verifyAndSettle_post _ _ _ _ _ (pre ++ tr))]. intros tr' a. by rewrite app_assoc. }
  destruct (Z.eqb_spec (mwHTTPStatus r) 200) as [H200|H200].
  { destruct (negb _); [|apply Hsettle; by apply app_not_empty_r].
    cbn. rewrite app_nil_r. apply pauseSuccess_post; try done. rewrite existsb_app.
    rewrite (proj2 (Hok H200)). by rewrite orb_true_r. }
  destruct (flushHasAmbiguousREST (pdResults (pause_appended r data))) eqn:Ef; [apply Hsettle; by apply app_not_empty_r|].
  pose proof (classifyHTTPStatus_definite (mwHTTPStatus r)). destruct (classifyHTTPStatus _) as [category retryable].
  cbn. rewrite app_nil_r. apply pauseFailure_post; try done.
  by apply (loop_state_snoc _ _ _ _ _ Hstate Hattempt H200).
Qed.

Lemma pauseLoop_post snapshot names data evidence targets pre :
  loop_state pre (pdResults data) → Forall (λ e, http_answered e = false) pre → good_log evidence →
  wp (pauseLoop service operationID intent snapshot names data evidence targets) (λ tr, pause_post intent (pre ++ tr)).
Proof using Hclock Hid Hop Ht.
  revert data pre. induction targets as [|t ts IH]; intros data pre Hs Hu He; cbn [pauseLoop];
    [by apply finishPauseSilence_post|].
  assert (loop_state (pre ++ [Ev CCtxErr None]) (pdResults data) ∧
          Forall (λ e, http_answered e = false) (pre ++ [Ev CCtxErr None])) as [Hs' Hu'].
  { split; [apply loop_state_quiet; [done|by repeat constructor]|]. apply Forall_app. by repeat constructor. }
  apply wp_call. intros [err|].
  - destruct Hs as [Hg Hq]. unfold finishCanceledPause.
    assert (good_log (appendFlushEvidence evidence (pdResults data))) by by apply loop_evidence.
    assert (answer_ends (pre ++ [Ev CCtxErr (Some err)])) as Ha by (apply answer_ends_app; [done|by repeat constructor]).
    cbn. destruct (flushHasAmbiguousREST _) eqn:Ef; [apply pauseUnknown_post|apply pauseFailure_post]; try done;
      try by apply app_not_empty_r.
    apply Forall_app. split; [by apply Hq|by repeat constructor].
  - apply wp_bind. eapply wp_mono; [|apply pauseMember_post]. cbn. intros tr r Hr.
    apply (wp_mono _ (λ tr', pause_post intent ((pre ++ [Ev CCtxErr None]) ++ tr ++ tr')));
      [intros tr' b; by rewrite <- app_assoc|].
    destruct (Z.eqb_spec (mwHTTPStatus r) 0) as [Hz|Hz]; cbn [negb]; [|by apply finishPauseHTTP_post].
    eapply wp_mono; [|apply (IH _ ((pre ++ [Ev CCtxErr None]) ++ tr)); [| |done]].
    + intros tr' b. by rewrite <- !app_assoc.
    + eapply loop_state_snoc; [done..|]. by rewrite Hz.
    + apply Forall_app. split; [done|by apply Hr].
Qed.
End running.

Lemma failedRead_pause_post operationID target category retryable message cause evidence :
  operationID ≠ "" → piOperation intent ≠ "" → Target_Validate target true = None → definite category →
  message ≠ "" → Forall good_evidence evidence →
  wp (mret (failedReadWithEvidence service operationID (piOperation intent) target PathREST category retryable
              message cause evidence)) (pause_post intent).
Proof using Hclock. intros. split; [by apply valid_failedRead|]. by split; [intros|]. Qed.

Lemma executePause_post ctx requestError plan :
  piOperation intent ≠ "" → Target_Validate (piTarget intent) true = None →
  wp (executePause service ctx intent requestError plan) (pause_post intent).
Proof using Hclock.
  intros Hop Ht. unfold executePause. cbv zeta.
  eapply wp_bind_read; [apply _|apply planOperationID_spec|]. intros id Hid.
  destruct (negb ctx); [by apply failedRead_pause_post; try done; apply app_not_empty_r|].
  destruct (negb (is_nil requestError)); [by apply failedRead_pause_post; try done; apply app_not_empty_r|].
  destruct (validatePausePlan plan intent); [by apply failedRead_pause_post; try done; apply app_not_empty_r|].
  apply wp_call. intros [err|snapshot].
  { apply (wp_mono _ (pause_post intent)).
    { intros tr r. by apply (pause_post_read _ [Ev (CSnapshot (piTarget intent)) (inl err)]); repeat constructor. }
    pose proof (classifyReadError_definite (Some err)) as Hd. destruct (classifyReadError (Some err)).
    apply failedRead_pause_post; try done. by apply app_not_empty_r. }
  set (read := Ev _ _). assert (answer_ends [read]) as Hread by (apply answer_ends_read; by repeat constructor).
  destruct (checkSnapshotPatroniVersion _ _ _) as [err|].
  { split; [by apply valid_unsupported|]. by split; [repeat constructor|split]. }
  set (evidence := [snapshotEvidence _ _ _]).
  assert (good_log evidence) as He by (apply good_log_singleton, good_snapshotEvidence; [done|by apply app_not_empty_l]).
  destruct (Bool.eqb _ _) eqn:Ep.
  - destruct (negb (piWait intent)).
    + apply pauseSuccess_post; try done. cbn. by rewrite Ep.
    + apply (verifyAndSettle_post id Hid Hop Ht _ _ _ _ _ [read]); [done..|]. by apply app_not_empty_r.
  - destruct (_ !=s _).
    + apply pauseFailure_post; try done; [by apply app_not_empty_r|by repeat constructor].
    + apply (pauseLoop_post id Hid Hop Ht _ _ _ _ _ [read]); [apply loop_state_nil| |done]; by repeat constructor.
Qed.
End lemmas.

(** ** Lemmas: convergence *)

(** A snapshot that settles a pause: the key is set, and every planned member
    follows it if the request waits for them. *)
Definition pause_settled (intent : pauseIntent) (members : list string) (snapshot : Snapshot) : bool :=
  Bool.eqb (config_paused snapshot) (piDesired intent)
  && (negb (piWait intent) || is_nil (head (pausePendingMembers (snCluster snapshot) members (piDesired intent)))).

(** If a request may have been applied, nobody cancels and the [k]-th snapshot
    after the last request shows the state, the result is SUCCEEDED. *)
Definition pause_live (intent : pauseIntent) (members : list string) (k : nat) (tr : list event)
    (r : Result PauseData) : Prop :=
  Forall uncancelled tr → ¬ Forall quiet tr → shown_at k (pause_settled intent members) (reads_after tr) →
  rOutcome r = Succeeded.

Lemma pause_live_quiet intent members k tr r : Forall quiet tr → pause_live intent members k tr r.
Proof. by intros Hq _ Hn. Qed.

Section converging.
Context `{GoStd} (service : Service) (Hclock : clock_set service) (intent : pauseIntent) (k : nat).
Context (Hk : (k < svcVerificationAttempts service)%nat) (members : list string).

(** Nothing was read since the last request, or nothing can have been applied. *)
Definition unread (pre : list event) : Prop := Forall quiet pre ∨ reads_after pre = [].

Lemma unread_quiet pre e : is_write (ev_call e) = false → reads_step [] e = [] → unread pre → unread (pre ++ [e]).
Proof using Type.
  intros Hw He [Hq|Hr]; [left; apply Forall_app; split; [done|apply Forall_singleton; by apply read_only_quiet]|right].
  by rewrite reads_after_app, Hr.
Qed.

Lemma unread_write pre e : is_write (ev_call e) = true → unread (pre ++ [e]).
Proof using Type. intros Hw. right. rewrite reads_after_app. by apply reads_step_write. Qed.

Lemma verifyAndSettle_live operationID data message cause evidence pre :
  unread pre →
  wp (verifyAndSettle service operationID intent data members message cause evidence)
     (λ tr, pause_live intent members k (pre ++ tr)).
Proof using Hk.
  intros Hpre. apply wp_bind. eapply wp_mono; [|apply (readback_finds service _ _ _ k Hk)].
  cbn. intros tr [[verified [pending revision]] ev] [Htr Hv]. rewrite app_nil_r. intros Hu Hn Hs.
  apply Forall_app in Hu as [_ Hu]. destruct Hpre as [Hq|Hr].
  { exfalso. apply Hn, Forall_app. split; [done|by apply Forall_read_only_quiet]. }
  rewrite reads_after_app, Hr in Hs. unfold settlePause. assert (verified = true) as ->; [|done]. by apply Hv.
Qed.

Lemma pauseMember_unread snapshot current target pre :
  unread pre → wp (pauseMember service intent snapshot current target) (λ tr r, unread (pre ++ tr)).
Proof using Type.
  intros Hpre. unfold pauseMember. destruct (negb (svcPatroni service)); [by cbn; rewrite app_nil_r|].
  destruct (patroniBaseURL _) as [url|]; [|by cbn; rewrite app_nil_r].
  apply wp_call. intros r. cbn. by apply unread_write.
Qed.

Lemma finishPauseHTTP_live operationID data r evidence pre tr :
  loop_state pre (pdResults data) → attempt_post (pause_shown (piDesired intent)) tr r → unread (pre ++ tr) →
  wp (finishPauseHTTPResponse service operationID intent (pause_appended r data) r members evidence)
     (λ tr', pause_live intent members k (pre ++ tr ++ tr')).
Proof using Hk.
  intros Hstate Hattempt Hu. unfold finishPauseHTTPResponse. rewrite app_assoc in Hu || idtac.
  assert (∀ message cause evidence,
    wp (verifyAndSettle service operationID intent (pause_appended r data) members message cause evidence)
       (λ tr', pause_live intent members k (pre ++ tr ++ tr'))) as Hsettle.
  { intros. eapply wp_mono; [|by apply (verifyAndSettle_live _ _ _ _ _ (pre ++ tr))]. intros tr' a. by rewrite app_assoc. }
  destruct (Z.eqb_spec (mwHTTPStatus r) 200) as [H200|H200]; [by destruct (negb _)|].
  destruct (flushHasAmbiguousREST (pdResults (pause_appended r data))) eqn:Ef; [done|].
  destruct (classifyHTTPStatus _). cbn. rewrite app_nil_r. apply pause_live_quiet.
  by apply (loop_state_snoc _ _ _ _ _ Hstate Hattempt H200).
Qed.

Lemma finishPauseSilence_live operationID data evidence pre :
  loop_state pre (pdResults data) → unread pre →
  wp (finishPauseSilence service operationID intent data members evidence) (λ tr, pause_live intent members k (pre ++ tr)).
Proof using Hk.
  intros [_ Hq] Hu. unfold finishPauseSilence. destruct (flushHasAmbiguousREST _) eqn:Ef; [by apply verifyAndSettle_live|].
  destruct (terminalPauseFailure _) as [[category retryable] cause]. cbn. rewrite app_nil_r. by apply pause_live_quiet, Hq.
Qed.

Lemma pauseLoop_live operationID snapshot data evidence targets pre :
  loop_state pre (pdResults data) → unread pre →
  wp (pauseLoop service operationID intent snapshot members data evidence targets)
     (λ tr, pause_live intent members k (pre ++ tr)).
Proof using Hclock Hk.
  revert data pre. induction targets as [|t ts IH]; intros data pre Hs Hu; cbn [pauseLoop];
    [by apply finishPauseSilence_live|].
  apply wp_call. intros [err|].
  { cbn. intros Hc. apply Forall_app in Hc as [_ Hc]. inversion Hc as [|? ? Hn _]. discriminate Hn. }
  assert (loop_state (pre ++ [Ev CCtxErr None]) (pdResults data)) as Hs'
    by (apply loop_state_quiet; [done|by repeat constructor]).
  apply (unread_quiet _ (Ev CCtxErr None)) in Hu; [|done..].
  apply wp_bind. eapply wp_mono; [|apply (wp_and _ _ _ (pauseMember_post service Hclock intent _ _ _) (pauseMember_unread _ _ _ _ Hu))].
  cbn. intros tr r [Hr Hur].
  apply (wp_mono _ (λ tr', pause_live intent members k ((pre ++ [Ev CCtxErr None]) ++ tr ++ tr')));
    [intros tr' b; by rewrite <- app_assoc|].
  destruct (Z.eqb_spec (mwHTTPStatus r) 0) as [Hz|Hz]; cbn [negb]; [|by apply finishPauseHTTP_live].
  eapply wp_mono; [|apply (IH _ ((pre ++ [Ev CCtxErr None]) ++ tr)); [|done]].
  - intros tr' b. by rewrite <- !app_assoc.
  - eapply loop_state_snoc; [done..|]. by rewrite Hz.
Qed.
End converging.

Lemma executePause_live `{GoStd} service intent k ctx requestError plan :
  clock_set service → (k < svcVerificationAttempts service)%nat →
  wp (executePause service ctx intent requestError plan)
     (pause_live intent (memberNamesFromTargets (pTargets plan)) k).
Proof.
  intros Hclock Hk. unfold executePause. cbv zeta. apply wp_bind. eapply wp_mono; [|apply planOperationID_spec].
  cbv beta. intros pre id [Hpre _]. assert (Forall quiet pre) as Hq by by apply Forall_read_only_quiet.
  assert (∀ r : Result PauseData, pause_live intent (memberNamesFromTargets (pTargets plan)) k (pre ++ []) r) as Hread
    by (intros; apply pause_live_quiet; by rewrite app_nil_r).
  destruct (negb ctx); [apply Hread|]. destruct (negb (is_nil requestError)); [apply Hread|].
  destruct (validatePausePlan plan intent); [apply Hread|].
  apply wp_call. intros r.
  set (read := Ev (CSnapshot (piTarget intent)) r). assert (Forall quiet (pre ++ [read])) as Hqr
    by (apply Forall_app; split; [done|by repeat constructor]).
  assert (∀ a : Result PauseData, pause_live intent (memberNamesFromTargets (pTargets plan)) k (pre ++ [read]) a) as Hreads
    by (intros; by apply pause_live_quiet).
  destruct r as [err|snapshot]; cbv beta iota zeta; [destruct (classifyReadError _); apply Hreads|].
  destruct (checkSnapshotPatroniVersion _ _ _); [apply Hreads|].
  assert (∀ p : prog (Result PauseData),
    wp p (λ tr, pause_live intent (memberNamesFromTargets (pTargets plan)) k ((pre ++ [read]) ++ tr)) →
    wp p (λ tr, pause_live intent (memberNamesFromTargets (pTargets plan)) k (pre ++ read :: tr))) as Hassoc
    by (intros p; apply wp_mono; intros tr a; by rewrite <- app_assoc).
  assert (unread (pre ++ [read])) as Hu by by left.
  destruct (Bool.eqb _ _).
  - destruct (negb (piWait intent)); [apply Hreads|]. by apply Hassoc, verifyAndSettle_live.
  - destruct (_ !=s _); [apply Hreads|]. apply Hassoc, pauseLoop_live; [done|done|by apply loop_state_nil|done].
Qed.

(** ** Properties *)

(** C9: whatever the DCS and Patroni answer, [ExecutePause] on a valid cluster
    target returns a valid result; a FAILED pause left nothing that can have
    been applied; nothing is written after the first HTTP answer; and a
    SUCCEEDED pause was answered with 200 to the pause patch, or a snapshot
    showed the cluster paused. *)
Theorem ExecutePause_sound `{GoStd} service ctx request plan :
  clock_set service → Target_Validate (prTarget request) true = None →
  wp (ExecutePause service ctx request plan) (pause_post (normalizePauseRequest "pause" true request).1).
Proof.
  intros Hclock Ht. unfold ExecutePause, normalizePauseRequest. cbv zeta. cbn [fst].
  apply executePause_post; [done..|]. cbn [piTarget]. by rewrite Target_Validate_Normalize.
Qed.

Lemma ExecutePause_sound_witness :
  let now := sample_snapshot (sample_cluster "n1" [] None) in
  let request := mkPauseRequest sample_target false false in
  let plan := prepared_plan now (PreparePause sample_service true request) in
  let r := run (answers now steady (status 200) applied) [] (ExecutePause sample_service true request plan) in
  rOutcome r.2 = Succeeded ∧ pause_post (normalizePauseRequest "pause" true request).1 r.1 r.2.
Proof. split; [vm_compute; reflexivity|]. apply wp_run, ExecutePause_sound; vm_compute; reflexivity. Defined.

(** C10: a pause is reported SUCCEEDED once the cluster follows it: when a request
    may have been applied, nobody cancels, and one of the bounded readbacks - by
    the [k]-th snapshot after the last request - shows the cluster paused (and,
    if the request waits, every planned member with it), [ExecutePause] succeeds
    whatever the members answered and the other snapshots showed. *)
Theorem ExecutePause_converges `{GoStd} service ctx request plan k tr r :
  let intent := (normalizePauseRequest "pause" true request).1 in
  clock_set service → (k < svcVerificationAttempts service)%nat →
  runs (ExecutePause service ctx request plan) tr r →
  Forall uncancelled tr → Exists (λ e, may_have_applied e = true) tr →
  shown_at k (pause_settled intent (memberNamesFromTargets (pTargets plan))) (reads_after tr) →
  rOutcome r = Succeeded.
Proof.
  intros intent Hclock Hk Hr Hu Hex Hs.
  refine (proj1 (wp_runs _ _) (executePause_live service intent k ctx _ plan Hclock Hk) tr r Hr Hu _ Hs).
  intros Hq. apply Exists_exists in Hex as (e & He & Hm). unfold quiet in Hq. rewrite Forall_forall in Hq.
  by rewrite Hq in Hm.
Qed.

(** The members are silent, and the second readback shows both paused. *)
Definition late_pause (tr : list event) (c : call) : reply c :=
  let paused := sample_snapshot (sample_cluster "n1" [("pause", VBool true)] None) in
  answers steady (if (1 <=? length (reads_after tr))%nat then paused else steady) silence applied tr c.

Lemma ExecutePause_converges_witness :
  let request := mkPauseRequest sample_target false false in
  let plan := prepared_plan steady (PreparePause sample_service true request) in
  let r := run late_pause [] (ExecutePause sample_service true request plan) in
  runs (ExecutePause sample_service true request plan) r.1 r.2 ∧ rOutcome r.2 = Succeeded.
Proof.
  intros request plan r. assert (runs (ExecutePause sample_service true request plan) r.1 r.2) as Hr.
  { destruct (run_runs late_pause [] (ExecutePause sample_service true request plan)) as (tr & E & Hr).
    unfold r. by rewrite E. }
  split; [exact Hr|].
  apply (ExecutePause_converges sample_service true request plan 1 r.1 r.2); [done|cbn; lia|exact Hr|..].
  - vm_compute. repeat constructor.
  - apply (bool_decide_unpack _). vm_compute. exact I.
  - intros x Hx. vm_compute in Hx. injection Hx as <-. eexists. split; [done|]. by vm_compute.
Defined.

(** The same for [ExecuteResume], whose patch removes the pause key. *)
Theorem ExecuteResume_sound `{GoStd} service ctx request plan :
  clock_set service → Target_Validate (prTarget request) true = None →
  wp (ExecuteResume service ctx request plan) (pause_post (normalizePauseRequest "resume" false request).1).
Proof.
  intros Hclock Ht. unfold ExecuteResume, normalizePauseRequest. cbv zeta. cbn [fst].
  apply executePause_post; [done..|]. cbn [piTarget]. by rewrite Target_Validate_Normalize.
Qed.

Lemma ExecuteResume_sound_witness :
  let now := sample_snapshot (sample_cluster "n1" [("pause", VBool true)] None) in
  let request := mkPauseRequest sample_target true false in
  let plan := prepared_plan now (PrepareResume sample_service true request) in
  let r := run (answers now steady (status 200) applied) [] (ExecuteResume sample_service true request plan) in
  rOutcome r.2 = Succeeded ∧ pause_post (normalizePauseRequest "resume" false request).1 r.1 r.2.
Proof. split; [vm_compute; reflexivity|]. apply wp_run, ExecuteResume_sound; vm_compute; reflexivity. Defined.

(** A pause that waits on a cluster already paused, whose member never
    converges, returns data its own validator rejects: a no-op that is not
    verified. *)
Theorem ExecutePause_unverified_noop :
  let request := mkPauseRequest sample_target true false in
  let plan := prepared_plan steady (PreparePause sample_service true request) in
  let paused := sample_snapshot (sample_cluster "n1" [("pause", VBool true)] None) in
  let r := run (answers paused paused silence applied) [] (ExecutePause sample_service true request plan) in
  rOutcome r.2 = Unknown ∧ Result_Validate r.2 = None ∧
  PauseData_Validate (rData r.2) = Some (EText "pause no-op requires verified success").
Proof. vm_compute. repeat split; reflexivity. Qed.
