(* ===== verification/Flush.v ===== *)
(** * Flush: [control/flush.go]

    A restart flush deletes the scheduled restart of each planned member; a
    switchover flush asks the members leader first and falls back to one
    compare-and-swap delete of the failover key. *)

From S2P Require Import Prelude GoStrings GoErrors GoTime Target Version Values Dcs.
From S2P Require Import Effects Contract Readback Select Snapshots Batch.

Record FlushRequest := mkFlushRequest {
  flTarget : Target;
  flEvent : FlushEvent;
  flMembers : list string;
  flRole : Role;
  flForce : bool;
  flCitus : bool
}.

Record flushIntent := mkFlushIntent {
  fiTarget : Target;
  fiEvent : FlushEvent;
  fiMembers : list string;
  fiRole : Role;
  fiForce : bool;
  fiCitus : bool
}.

Record FlushData := mkFlushData {
  fdEvent : FlushEvent;
  fdResults : list MemberWriteResult;
  fdRESTSendState : SendState;
  fdDCSSendState : SendState;
  fdVerification : Verification;
  fdDCSRevision : Z;
  fdNoop : bool
}.

#[export] Instance zero_FlushData : Zero FlushData :=
  mkFlushData (FlushEventRaw "") [] (SendRaw "") (SendRaw "") (VerificationRaw "") 0 false.

Definition FlushData_Validate (d : FlushData) : option goerror :=
  if negb (FlushEvent_valid (fdEvent d)) then Some (EText "flush event is invalid")
  else if negb (SendState_validOrEmpty (fdRESTSendState d)) || SendState_empty (fdRESTSendState d)
  then Some (EText "flush REST send state is invalid")
  else if negb (SendState_validOrEmpty (fdDCSSendState d)) then Some (EText "flush DCS send state is invalid")
  else if negb (Verification_valid (fdVerification d)) then Some (EText "flush verification is invalid")
  else if (fdDCSRevision d <? 0)%Z then Some (EText "flush DCS revision must be non-negative")
  else if fdNoop d && negb (bool_decide (fdVerification d = VerifiedSucceeded))
  then Some (EText "flush no-op requires verified success")
  else option_map (EWrap "flush REST result") (first_error MemberWriteResult_Validate (fdResults d)).

(** Field assignments of [data]. *)
Definition flush_verified (v : Verification) (d : FlushData) : FlushData :=
  mkFlushData (fdEvent d) (fdResults d) (fdRESTSendState d) (fdDCSSendState d) v (fdDCSRevision d) (fdNoop d).
Definition flush_revision (revision : Z) (d : FlushData) : FlushData :=
  mkFlushData (fdEvent d) (fdResults d) (fdRESTSendState d) (fdDCSSendState d) (fdVerification d) revision (fdNoop d).
Definition flush_dcs (send : SendState) (d : FlushData) : FlushData :=
  mkFlushData (fdEvent d) (fdResults d) (fdRESTSendState d) send (fdVerification d) (fdDCSRevision d) (fdNoop d).
Definition flush_noop (d : FlushData) : FlushData :=
  mkFlushData (fdEvent d) (fdResults d) (fdRESTSendState d) (fdDCSSendState d) (fdVerification d) (fdDCSRevision d) true.
Definition flush_appended (r : MemberWriteResult) (d : FlushData) : FlushData :=
  let results := fdResults d ++ [r] in
  mkFlushData (fdEvent d) results (aggregateRESTSendState results) (fdDCSSendState d) (fdVerification d)
    (fdDCSRevision d) (fdNoop d).

Definition normalizeFlushRequest (request : FlushRequest) : flushIntent * option goerror :=
  let checks := if negb (FlushEvent_valid (flEvent request))
                then Some (EText "flush event must be restart or switchover")
                else role_error (flRole request) in
  let '(target, members, err) := normalizeMemberRequest (flTarget request) (flMembers request) checks in
  (mkFlushIntent target (flEvent request) members (normalizedWriteRole (flRole request)) (flForce request)
     (flCitus request), err).

Definition flushPath (event : FlushEvent) : Path :=
  match event with FlushSwitchover => PathRESTToDCS | _ => PathREST end.

Definition flushOperationSnapshots (service : Service) (intent : flushIntent) : prog snapshots_result :=
  if negb (bool_decide (fiEvent intent = FlushSwitchover)) || negb (fiCitus intent)
     || negb (is_nil (tGroup (fiTarget intent)))
  then operationSnapshots service "flush" (fiTarget intent) (fiCitus intent) false
  else citusCoordinatorSnapshot service "flush" (fiTarget intent) false.

(** ** Plans *)

Definition flushRequestPreconditions (revision : Z) (intent : flushIntent) (groups : string) : list Precondition :=
  [mkPrecondition "dcs.revision" (FormatInt revision) EvidenceDCS;
   mkPrecondition "flush.event" (FlushEvent_text (fiEvent intent)) EvidenceControl;
   mkPrecondition "selector.role" (Role_text (fiRole intent)) EvidenceControl;
   mkPrecondition "selector.members" (Join (fiMembers intent) ",") EvidenceControl;
   mkPrecondition "request.force" (FormatBool (fiForce intent)) EvidenceControl;
   mkPrecondition "request.citus" (FormatBool (fiCitus intent)) EvidenceControl;
   mkPrecondition "citus.groups" groups EvidenceDCS].

(** The failover key and the REST members a switchover flush is bound to. *)
Definition failoverFields (failover : Failover) (targets : list Target) : list (string * string) :=
  [("failover.modRevision", FormatInt (foModRevision failover));
   ("failover.leader", foLeader failover);
   ("failover.candidate", foCandidate failover);
   ("failover.scheduledAt", foScheduledAt failover);
   ("rest.members", Join (memberNamesFromTargets targets) ",");
   ("rest.targets", Join (memberIDsFromTargets targets) ",")].

Definition dcs_precondition (fv : string * string) : Precondition := mkPrecondition fv.1 fv.2 EvidenceDCS.

Definition failoverFlushPreconditions (failover : Failover) (targets : list Target) : list Precondition :=
  dcs_precondition <$> failoverFields failover targets.

Definition emptyFailoverFlushPreconditions : list Precondition :=
  dcs_precondition <$>
    [("failover.modRevision", "0"); ("failover.leader", ""); ("failover.candidate", "");
     ("failover.scheduledAt", ""); ("rest.members", ""); ("rest.targets", "")].

Definition scheduledRestartPrecondition (m : resolvedPlannedMember) : Precondition :=
  mkPrecondition (scheduledRestartPreconditionField (rmTarget m))
    (FormatBool (hasScheduledRestart (rmMember m))) EvidenceDCS.

Definition restartFlushPreconditions (selected : list resolvedPlannedMember) : list Precondition :=
  let targets := rmTarget <$> selected in
  [mkPrecondition "rest.members" (Join (memberNamesFromTargets targets) ",") EvidenceDCS;
   mkPrecondition "rest.targets" (Join (memberIDsFromTargets targets) ",") EvidenceDCS] ++
  (scheduledRestartPrecondition <$> selected).

(** The pending switchover, [failover != nil && failover.ScheduledAt != ""]. *)
Definition scheduled_failover (cluster : ClusterState) : option Failover :=
  match csFailover cluster with
  | Some f => if foScheduledAt f ==s "" then None else Some f
  | None => None
  end.

Definition buildFlushPlan (operationID : string) (intent : flushIntent) (snapshots : list Snapshot)
    : goerror + Plan :=
  let first := first_snapshot snapshots in
  let base := flushRequestPreconditions (snRevision first) intent (snapshotGroupIDs snapshots) in
  let plan targets summary preconditions :=
    mkPlan operationID "flush" (fiTarget intent) targets (flushPath (fiEvent intent)) RiskAdminWrite
      UnsafeAfterSend summary (base ++ preconditions) in
  if is_nil (head snapshots) then inl (EText "flush requires at least one cluster snapshot")
  else if bool_decide (fiEvent intent = FlushRestart) then
    let selected := selectedMembers (λ c, selectMembers c (fiRole intent) (fiMembers intent) true) snapshots in
    if is_nil (head selected) then inl (EText "flush found no matching members")
    else inr (plan (rmTarget <$> selected)
                (selected_summary "flush scheduled restart for" (rmTarget <$> selected))
                (restartFlushPreconditions selected))
  else
    match scheduled_failover (snCluster first) with
    | Some failover =>
        let targets := memberTargets (snTarget first) (leaderFirstRESTMembers (snCluster first)) in
        inr (plan targets ("flush scheduled switchover at " +:+ foScheduledAt failover)
               (failoverFlushPreconditions failover targets))
    | None => inr (plan [] "flush scheduled switchover (no pending event observed)" emptyFailoverFlushPreconditions)
    end.

Definition PrepareFlush (service : Service) (ctx : bool) (request : FlushRequest) : prog (Result Plan) :=
  operationID ← operationID;
  let '(intent, requestError) := normalizeFlushRequest request in
  let path := flushPath (fiEvent intent) in
  let fail category message cause evidence :=
    mret (failedReadWithEvidence service operationID "flush" (fiTarget intent) path category false message cause evidence) in
  if negb ctx then fail CategoryUsage "flush requires a context" None []
  else if negb (is_nil requestError) then fail CategoryUsage "flush request is invalid" requestError []
  else
    r ← flushOperationSnapshots service intent;
    match r with
    | inl failure => mret (failureResult service operationID "flush" (fiTarget intent) path failure)
    | inr (snapshots, evidence) =>
        match buildFlushPlan operationID intent snapshots with
        | inl err => fail CategoryNotFound "flush target selection failed" (Some err) evidence
        | inr plan =>
            match Plan_Validate plan with
            | Some err => fail CategoryInternal "flush plan construction failed" (Some err) evidence
            | None => mret (planResult operationID (fiTarget intent) path plan evidence)
            end
        end
    end.

Definition validateFlushPlan (plan : Plan) (intent : flushIntent) : option goerror :=
  validatePlanContract plan "flush" (flushPath (fiEvent intent)) RiskAdminWrite (fiTarget intent)
    (if negb (preconditions_match plan (tail (flushRequestPreconditions 0 intent "")))
     then Some (EText "plan differs from request")
     else if negb (fields_match plan [("rest.members", Join (memberNamesFromTargets (pTargets plan)) ",")])
     then Some (EText "plan REST target set is incomplete or changed")
     else if negb (fields_match plan [("rest.targets", Join (memberIDsFromTargets (pTargets plan)) ",")])
     then Some (EText "plan REST target identities are incomplete or changed")
     else if bool_decide (fiEvent intent = FlushRestart) && is_nil (head (pTargets plan))
     then Some (EText "restart flush plan requires member targets")
     else None).

Definition revalidateSwitchoverFlushPlan (plan : Plan) (failover : Failover) (members : list Member)
    (clusterTarget : Target) : option goerror :=
  if fields_match plan (failoverFields failover (memberTargets clusterTarget members))
  then None else Some (EText "confirmed precondition changed").

(** ** Results *)

Definition flushSuccess (operationID : string) (intent : flushIntent) (path : Path) (data : FlushData)
    (evidence : list Evidence) : Result FlushData :=
  mkResult operationID Succeeded (fiTarget intent) path data evidence None.

Definition flushFailureWithRetry (operationID : string) (intent : flushIntent) (path : Path) (data : FlushData)
    (class : Category * bool) (message : string) (cause : option goerror) (evidence : list Evidence)
    : Result FlushData :=
  mkResult operationID Failed (fiTarget intent) path (flush_verified VerifiedFailed data) evidence
    (Some (NewError class.1 "flush" (fiTarget intent) class.2 message cause evidence)).

Definition flushFailure (operationID : string) (intent : flushIntent) (path : Path) (data : FlushData)
    (category : Category) (message : string) (cause : option goerror) (evidence : list Evidence)
    : Result FlushData :=
  flushFailureWithRetry operationID intent path data (category, false) message cause evidence.

Definition flushUnknown (operationID : string) (intent : flushIntent) (path : Path) (data : FlushData)
    (message : string) (cause : option goerror) (evidence : list Evidence) : Result FlushData :=
  mkResult operationID Unknown (fiTarget intent) path (flush_verified Unverified data) evidence
    (Some (NewError CategoryUnknown "flush" (fiTarget intent) false message cause evidence)).

(** The accumulator of [finalizeFlushResults]: outcome, category and cause. *)
Definition flush_worst (acc : Outcome * Category * option goerror) (r : MemberWriteResult)
    : Outcome * Category * option goerror :=
  let '(outcome, category, cause) := acc in
  match mwOutcome r with
  | Unknown => (Unknown, category, as_error (mwError r))
  | Failed =>
      match outcome with
      | Unknown => acc
      | _ => (Failed, match mwError r with Some e => errCategory e | None => category end, as_error (mwError r))
      end
  | _ => acc
  end.

Definition all_noop (results : list MemberWriteResult) : bool :=
  negb (is_nil (head results)) &&
  forallb (λ r, bool_decide (mwSendState r = SendNotSent) && bool_decide (mwOutcome r = Succeeded)) results.

Definition finalizeFlushResults (operationID : string) (intent : flushIntent) (path : Path)
    (results : list MemberWriteResult) (base : list Evidence) : Result FlushData :=
  let data := mkFlushData (fiEvent intent) results (aggregateRESTSendState results) (SendRaw "")
                (VerificationRaw "") 0 (all_noop results) in
  let evidence := appendFlushEvidence base results in
  let '(outcome, category, cause) := foldl flush_worst (Succeeded, CategoryFailed, None) results in
  match outcome with
  | Succeeded => flushSuccess operationID intent path (flush_verified VerifiedSucceeded data) evidence
  | Failed => flushFailure operationID intent path data category "flush failed for one or more members" cause evidence
  | _ => flushUnknown operationID intent path data
           "flush outcome is unknown for one or more members; verify before retrying" cause evidence
  end.

(** ** Restart flush *)

Definition flushMemberNoop (service : Service) (target : Target) (snapshot : Snapshot) (summary : string)
    : MemberWriteResult :=
  mkMemberWriteResult target Succeeded SendNotSent VerifiedSucceeded 0 summary
    [mkEvidence EvidenceDCS (svcNow service) summary (FormatInt (snRevision snapshot)) (snPrefix snapshot) SendNotSent]
    None.

(** A restart scheduled after the plan was confirmed. *)
Definition newRestartConflict (service : Service) (m : resolvedPlannedMember) : MemberWriteResult :=
  not_sent_result service "flush" (rmTarget m) CategoryConflict false
    "new scheduled restart was not deleted because it was absent from the confirmed plan" None
    (mkEvidence EvidenceDCS (svcNow service) "scheduled restart appeared after confirmation"
       (FormatInt (snRevision (rmSnapshot m))) (snPrefix (rmSnapshot m)) SendNotSent).

Definition planned_restart (plan : Plan) (m : resolvedPlannedMember) : option string :=
  expectedPrecondition plan (scheduledRestartPreconditionField (rmTarget m)).

(** The state-conflict loop; [None] when a member has no event precondition. *)
Definition stateConflicts (service : Service) (plan : Plan) (resolved : list resolvedPlannedMember)
    : option (list MemberWriteResult) :=
  if existsb (λ m, is_nil (planned_restart plan m)) resolved then None
  else Some (newRestartConflict service <$>
               List.filter (λ m, bool_decide (planned_restart plan m = Some "false") && hasScheduledRestart (rmMember m))
                 resolved).

Definition restartFlushReading (memberName : string) : Reading unit :=
  mkReading "scheduled restart flush verification canceled" "scheduled restart flush readback failed"
    (λ snapshot,
       (tt, negb match find_first (λ m, mbName m ==s memberName) (csMembers (snCluster snapshot)) with
                 | Some m => hasScheduledRestart m
                 | None => false
                 end))
    (λ absent, if absent then "scheduled restart is absent from DCS" else "scheduled restart remains present in DCS").

Definition verifyRestartFlush (service : Service) (target : Target) (memberName : string) : prog (verdict unit) :=
  readback service (with_member target "") (restartFlushReading memberName) tt.

Definition settleRestartFlush (service : Service) (m : resolvedPlannedMember) (result : MemberWriteResult)
    : prog MemberWriteResult :=
  if bool_decide (mwOutcome result = Unknown) then
    v ← verifyRestartFlush service (rmTarget m) (mbName (rmMember m));
    let evidence := mwEvidence result ++ v.2 in
    mret (if (v.1.1 : bool)
          then with_verdict result Succeeded VerifiedSucceeded "scheduled restart absence verified in DCS" None evidence
          else with_verdict result (mwOutcome result) (mwVerification result) (mwSummary result) (mwError result) evidence)
  else mret result.

Section with_std.
  Context `{GoStd}.

Definition flushRestartMember (service : Service) (m : resolvedPlannedMember) : prog MemberWriteResult :=
  if negb (hasScheduledRestart (rmMember m)) then
    mret (flushMemberNoop service (rmTarget m) (rmSnapshot m) "member has no scheduled restart")
  else
    cancelled ← do_call CCtxErr;
    match cancelled with
    | Some err => mret (skippedWriteAfterCancellation service "flush" (rmTarget m) (Some err))
    | None =>
        if negb (svcPatroni service) then
          mret (memberNotSent service "flush" (rmTarget m) CategoryConfig false
                  "scheduled restart flush requires a Patroni REST client" None)
        else match patroniBaseURL (mdAPIURL (mbData (rmMember m))) with
        | None => mret (invalidRESTAddressWrite service "flush" (rmTarget m) (rmSnapshot m))
        | Some baseURL =>
            r ← do_call (CDeleteRestart baseURL);
            settleRestartFlush service m (classifyRestartFlushResponse service (rmTarget m) r.1 r.2)
        end
    end.

Definition executeRestartFlush (service : Service) (operationID : string) (intent : flushIntent) (plan : Plan)
    (snapshots : list Snapshot) (evidence : list Evidence) : prog (Result FlushData) :=
  let abort conflicts :=
    mret (finalizeFlushResults operationID intent PathREST
            (bwMembers (abortBatchForTargetChange service "flush" (pTargets plan) conflicts)) evidence) in
  let '(resolved, conflicts) :=
    resolvePlannedMembersAcrossSnapshots service "flush" snapshots (pTargets plan) (fiRole intent) in
  if negb (is_nil (head conflicts)) then abort conflicts
  else match stateConflicts service plan resolved with
  | None =>
      mret (flushFailure operationID intent PathREST
              (mkFlushData (fiEvent intent) [] SendNotSent (SendRaw "") VerifiedFailed 0 false)
              CategoryUsage "flush plan is missing a member event precondition" None evidence)
  | Some changed =>
      if negb (is_nil (head changed)) then abort changed
      else
        results ← forMembers (flushRestartMember service) resolved;
        mret (finalizeFlushResults operationID intent PathREST results evidence)
  end.

End with_std.

(** ** Switchover flush *)

Definition switchoverFlushDCSDeleteSummary (result : WriteResult) (err : option goerror) : string :=
  if is_nil err && wrApplied result then "DCS scheduled switchover delete CAS was applied"
  else if has_conflict err then "DCS scheduled switchover delete CAS conflicted"
  else "DCS scheduled switchover delete ended without a verified apply".

Definition switchoverFlushReading : Reading Z :=
  mkReading "scheduled switchover flush verification canceled" "scheduled switchover flush readback failed"
    (λ snapshot, (snRevision snapshot, is_nil (scheduled_failover (snCluster snapshot))))
    (λ absent, if absent then "scheduled switchover is absent from DCS"
               else "scheduled switchover remains present in DCS").

(** Verified, revision, evidence. *)
Definition verifySwitchoverFlush (service : Service) (target : Target) : prog (verdict Z) :=
  readback service target switchoverFlushReading 0%Z.

Definition finishCanceledSwitchoverFlush (operationID : string) (intent : flushIntent) (data : FlushData)
    (cause : option goerror) (evidence : list Evidence) : Result FlushData :=
  let evidence := appendFlushEvidence evidence (fdResults data) in
  if flushHasAmbiguousREST (fdResults data) then
    flushUnknown operationID intent PathRESTToDCS data
      "scheduled switchover may have been flushed before cancellation; verify DCS" cause evidence
  else flushFailure operationID intent PathRESTToDCS data CategoryFailed
         "scheduled switchover flush was canceled before completion" cause evidence.

Definition settleFlushFallback (operationID : string) (intent : flushIntent) (data : FlushData)
    (writeError : option goerror) (verification : bool * Z * list Evidence) (evidence : list Evidence)
    : Result FlushData :=
  let '(verified, revision, verificationEvidence) := verification in
  let evidence := evidence ++ verificationEvidence in
  let data := if (fdDCSRevision data <? revision)%Z then flush_revision revision data else data in
  let ambiguous := flushHasAmbiguousREST (fdResults data) in
  if (verified : bool) then
    flushSuccess operationID intent PathRESTToDCS (flush_verified VerifiedSucceeded data) evidence
  else if has_conflict writeError then
    if ambiguous || bool_decide (fdDCSSendState data = SendMaybeSent) then
      flushUnknown operationID intent PathRESTToDCS data
        "scheduled switchover REST/DCS deletion conflicted and was not verified" writeError evidence
    else flushFailure operationID intent PathRESTToDCS data CategoryConflict
           "scheduled switchover DCS delete lost a compare-and-swap race" writeError evidence
  else if negb (is_nil writeError) && bool_decide (fdDCSSendState data = SendNotSent) && negb ambiguous then
    flushFailureWithRetry operationID intent PathRESTToDCS data (classifyReadError writeError)
      "scheduled switchover was not deleted through REST or DCS" writeError evidence
  else flushUnknown operationID intent PathRESTToDCS data
         "scheduled switchover deletion was not verified; inspect DCS before retrying" writeError evidence.

Definition executeSwitchoverFlushFallback (service : Service) (operationID : string) (intent : flushIntent)
    (plan : Plan) (effectiveTarget : Target) (data : FlushData) (baseEvidence : list Evidence)
    : prog (Result FlushData) :=
  let effectiveTarget := with_member effectiveTarget "" in
  let evidence := appendFlushEvidence baseEvidence (fdResults data) in
  (* UNKNOWN after an ambiguous REST send, FAILED otherwise. *)
  let abandon unknownMessage class failedMessage err evidence :=
    mret (if flushHasAmbiguousREST (fdResults data)
          then flushUnknown operationID intent PathRESTToDCS data unknownMessage err evidence
          else flushFailureWithRetry operationID intent PathRESTToDCS data class failedMessage err evidence) in
  r ← do_call (CSnapshot effectiveTarget);
  match r with
  | inl err =>
      abandon "scheduled switchover REST outcome is ambiguous and DCS could not be verified"
        (classifyReadError (Some err)) "scheduled switchover fallback could not read DCS" (Some err)
        (evidence ++ [mkEvidence EvidenceDCS (svcNow service)
           "scheduled switchover fallback could not read DCS" "" (Path_text PathDCS) SendNotSent])
  | inr fresh =>
      let evidence := evidence ++
        [snapshotEvidence service fresh "scheduled switchover fallback obtained a fresh DCS snapshot"] in
      match scheduled_failover (snCluster fresh) with
      | None =>
          mret (flushSuccess operationID intent PathRESTToDCS
                  (flush_revision (snRevision fresh) (flush_verified VerifiedSucceeded data)) evidence)
      | Some failover =>
          match revalidateSwitchoverFlushPlan plan failover (leaderFirstRESTMembers (snCluster fresh)) (snTarget fresh) with
          | Some err =>
              abandon "scheduled switchover may have been flushed but fallback preconditions changed"
                (CategoryConflict, false) "scheduled switchover fallback lost its confirmed preconditions"
                (Some err) evidence
          | None =>
              if negb (svcFailoverDCS service) then
                abandon "scheduled switchover may have been flushed and DCS fallback is unavailable"
                  (CategoryConfig, false) "scheduled switchover fallback requires DCS delete capability"
                  (Some (EText "dcs failover capability is unavailable")) evidence
              else
                cancelled ← do_call CCtxErr;
                match cancelled with
                | Some err =>
                    abandon "scheduled switchover may have been flushed; cancellation prevented DCS fallback"
                      (CategoryFailed, false) "scheduled switchover fallback was canceled before DCS delete"
                      (Some err) evidence
                | None =>
                    w ← do_call (CDeleteFailover effectiveTarget (Some (foModRevision failover)));
                    let '(writeResult, writeError) := w in
                    let send := dcsSendState writeError (wrApplied writeResult) in
                    let data := flush_revision (wrRevision writeResult) (flush_dcs send data) in
                    let evidence := evidence ++
                      [mkEvidence EvidenceDCS (svcNow service)
                         (switchoverFlushDCSDeleteSummary writeResult writeError)
                         (FormatInt (wrRevision writeResult)) (Path_text PathDCS) send] in
                    v ← verifySwitchoverFlush service effectiveTarget;
                    mret (settleFlushFallback operationID intent data writeError v evidence)
                end
          end
      end
  end.

Section switchover.
  Context `{GoStd}.

Definition flushSwitchoverMember (service : Service) (snapshot : Snapshot) (target : Target)
    : prog MemberWriteResult :=
  if negb (svcPatroni service) then
    mret (memberNotSent service "flush" target CategoryConfig false
            "scheduled switchover flush REST client is unavailable" None)
  else match patroniBaseURL (mdAPIURL (mbData (memberMap_index (csMembers (snCluster snapshot)) (tMember target)))) with
  | None => mret (invalidRESTAddressWrite service "flush" target snapshot)
  | Some baseURL =>
      r ← do_call (CDeleteSwitchover baseURL);
      mret (classifySwitchoverFlushResponse service target r.1 r.2)
  end.

Fixpoint switchoverFlushLoop (service : Service) (operationID : string) (intent : flushIntent) (plan : Plan)
    (snapshot : Snapshot) (data : FlushData) (evidence : list Evidence) (targets : list Target)
    : prog (Result FlushData) :=
  match targets with
  | [] => executeSwitchoverFlushFallback service operationID intent plan (snTarget snapshot) data evidence
  | target :: rest =>
      cancelled ← do_call CCtxErr;
      match cancelled with
      | Some err => mret (finishCanceledSwitchoverFlush operationID intent data (Some err) evidence)
      | None =>
          result ← flushSwitchoverMember service snapshot target;
          let data := flush_appended result data in
          if (mwHTTPStatus result =? 200)%Z then
            mret (flushSuccess operationID intent PathRESTToDCS (flush_verified VerifiedSucceeded data)
                    (appendFlushEvidence evidence (fdResults data)))
          else if (mwHTTPStatus result =? 404)%Z then
            mret (flushFailure operationID intent PathRESTToDCS data CategoryNotFound
                    "Patroni reported that no scheduled switchover could be flushed" (as_error (mwError result))
                    (appendFlushEvidence evidence (fdResults data)))
          else switchoverFlushLoop service operationID intent plan snapshot data evidence rest
      end
  end.

Definition executeSwitchoverFlush (service : Service) (operationID : string) (intent : flushIntent) (plan : Plan)
    (snapshot : Snapshot) (evidence : list Evidence) : prog (Result FlushData) :=
  let data := mkFlushData (fiEvent intent) [] SendNotSent (SendRaw "") Unverified 0 false in
  let noop := mret (flushSuccess operationID intent PathRESTToDCS (flush_verified VerifiedSucceeded (flush_noop data)) evidence) in
  match scheduled_failover (snCluster snapshot) with
  | None => noop
  | Some current =>
      if plannedValue plan "failover.scheduledAt" ==s "" then
        mret (flushFailure operationID intent PathRESTToDCS data CategoryConflict
                "a scheduled switchover appeared after confirmation and was not deleted" None evidence)
      else match revalidateSwitchoverFlushPlan plan current (leaderFirstRESTMembers (snCluster snapshot)) (snTarget snapshot) with
      | Some err =>
          mret (flushFailure operationID intent PathRESTToDCS data CategoryConflict
                  "scheduled switchover changed after confirmation" (Some err) evidence)
      | None => switchoverFlushLoop service operationID intent plan snapshot data evidence (pTargets plan)
      end
  end.

Definition ExecuteFlush (service : Service) (ctx : bool) (request : FlushRequest) (plan : Plan)
    : prog (Result FlushData) :=
  operationID ← planOperationID plan;
  let '(intent, requestError) := normalizeFlushRequest request in
  let path := flushPath (fiEvent intent) in
  let fail category message cause evidence :=
    mret (failedReadWithEvidence service operationID "flush" (fiTarget intent) path category false message cause evidence) in
  if negb ctx then fail CategoryUsage "flush requires a context" None []
  else if negb (is_nil requestError) then fail CategoryUsage "flush request is invalid" requestError []
  else match validateFlushPlan plan intent with
  | Some err => fail CategoryUsage "flush plan does not match the request" (Some err) []
  | None =>
      r ← flushOperationSnapshots service intent;
      match r with
      | inl failure => mret (failureResult service operationID "flush" (fiTarget intent) path failure)
      | inr (snapshots, evidence) =>
          if snapshotGroupIDs snapshots !=s plannedValue plan "citus.groups" then
            fail CategoryConflict "flush was not sent because the Citus group inventory changed" None evidence
          else if bool_decide (fiEvent intent = FlushRestart)
          then executeRestartFlush service operationID intent plan snapshots evidence
          else executeSwitchoverFlush service operationID intent plan (first_snapshot snapshots) evidence
      end
  end.

End switchover.
