(* ===== verification/FlushSafety.v ===== *)
(** * Flush: what its results mean

    A restart flush is a batch of honest members; a switchover flush is a loop
    over members with a compare-and-swap fallback, whose failures are followed
    call by call. *)

From S2P Require Import Prelude GoStrings GoErrors GoTime Target Version Values Dcs.
From S2P Require Import Effects Contract Readback Select Snapshots Batch Flush.
From S2P Require Import Samples.

(** ** Predicates of the theorems *)

(** A flush result: valid, with honest members, and the worst member's outcome
    unless the flush was refused as a whole. *)
Definition restart_flush_post (targets : list Target) (tr : list event) (r : Result FlushData) : Prop :=
  let members := fdResults (rData r) in
  Result_Validate r = None ∧ chunked quiet 1 tr members ∧
  (members = [] ∧ rOutcome r = Failed ∨
   member_ids members = target_ids targets ∧ rOutcome r = batchOutcome members).

#[export] Instance restart_flush_post_read targets : ReadClosed (restart_flush_post targets).
Proof. intros pre tr r Hpre (Hv & Hc & Hm). split; [done|]. split; [by apply chunked_read|done]. Qed.

(** A REST deletion answered 404, on which the loop gives up. *)
Definition answered_404 (e : event) : bool :=
  match e with
  | Ev c r =>
      match c return reply c → bool with
      | CDeleteSwitchover _ => λ r, (rsStatusCode r.1 =? 404)%Z
      | _ => λ _, false
      end r
  end.

(** A deletion of the failover key names the confirmed revision. *)
Definition delete_confirmed (plan : Plan) (e : event) : Prop :=
  match ev_call e with
  | CDeleteFailover _ expected =>
      option_map FormatInt expected = expectedPrecondition plan "failover.modRevision"
  | _ => True
  end.

(** An event that shows the switchover gone. *)
Definition flush_shown (e : event) : bool :=
  match e with
  | Ev c r =>
      match c return reply c → bool with
      | CDeleteSwitchover _ => λ r, (rsStatusCode r.1 =? 200)%Z
      | CSnapshot _ => λ r, match r with inr s => is_nil (scheduled_failover (snCluster s)) | inl _ => false end
      | _ => λ _, false
      end r
  end.

(** What a switchover flush guarantees. *)
Definition switchover_flush_post (plan : Plan) (tr : list event) (r : Result FlushData) : Prop :=
  Result_Validate r = None ∧ (rOutcome r = Failed → Forall quiet tr ∨ existsb answered_404 tr = true) ∧
  Forall (delete_confirmed plan) tr ∧ (rOutcome r = Succeeded → existsb flush_shown tr = true).

(** ** Lemmas: aggregation *)

Definition flush_class_ok (acc : Outcome * Category * option goerror) : Prop :=
  definite acc.1.2 ∧ match acc.1.1 with OutcomeRaw _ => False | _ => True end.

Lemma flush_worst_ok acc r : good_member r → flush_class_ok acc → flush_class_ok (flush_worst acc r).
Proof.
  destruct acc as [[outcome category] cause]. intros (_ & _ & _ & _ & Hv) [Hd Ho]. unfold good_verdict in Hv. unfold flush_worst.
  destruct (mwOutcome r), (mwError r); try done; destruct outcome; try done; split; try done; cbn; apply Hv.
Qed.

Lemma foldl_flush_worst rs acc :
  Forall good_member rs → flush_class_ok acc →
  flush_class_ok (foldl flush_worst acc rs) ∧ (foldl flush_worst acc rs).1.1 = foldl worst_outcome acc.1.1 rs.
Proof.
  intros Hg. revert acc. induction Hg as [|r rs Hr _ IH]; intros acc Hacc; [done|]. cbn.
  destruct (IH (flush_worst acc r) (flush_worst_ok _ _ Hr Hacc)) as [? Hrest]. split; [done|]. rewrite Hrest. f_equal.
  destruct acc as [[outcome category] cause]. unfold flush_worst, worst_outcome. by destruct (mwOutcome r), outcome.
Qed.

Section results.
Context (operationID : string) (intent : flushIntent) (path : Path).
Context (Hid : operationID ≠ "") (Ht : Target_Validate (fiTarget intent) true = None) (Hp : Path_valid path = true).

Lemma finalizeFlushResults_spec results base :
  good_log base → Forall good_member results →
  let r := finalizeFlushResults operationID intent path results base in
  Result_Validate r = None ∧ fdResults (rData r) = results ∧ rOutcome r = batchOutcome results.
Proof using Hid Ht Hp.
  intros Hb Hg. cbv zeta. unfold finalizeFlushResults.
  pose proof (loop_evidence _ _ Hb Hg) as He.
  destruct (foldl_flush_worst results (Succeeded, CategoryFailed, None) Hg ltac:(done)) as [[Hd Ho] Hw].
  destruct (foldl flush_worst _ results) as [[outcome category] cause]. cbn in Hd, Ho, Hw. unfold batchOutcome.
  rewrite <- Hw. destruct outcome; try done.
  - split; [by apply valid_success|done].
  - split; [by apply valid_failed|done].
  - split; [by apply valid_unknown|done].
Qed.
End results.

(** ** Lemmas: restart flush *)

Section lemmas.
Context `{GoStd} (service : Service) (Hclock : clock_set service).

Lemma verifyRestartFlush_spec target name :
  wp_all read_only (verifyRestartFlush service target name) (λ v, Forall good_evidence v.2).
Proof using Hclock. apply readback_read; [done|]. split; [done|]. split; [done|]. by intros []. Qed.

(** The readback settles an ambiguous deletion as done, or leaves it. *)
Lemma settleRestartFlush_spec m result :
  good_member result →
  wp_all read_only (settleRestartFlush service m result)
    (λ r, good_member r ∧ mwTarget r = mwTarget result ∧ mwSendState r = mwSendState result ∧
          (mwOutcome r = Failed → mwOutcome result = Failed)).
Proof using Hclock.
  intros Hg. unfold settleRestartFlush. destruct (bool_decide _); [|by apply wp_all_ret].
  eapply wp_all_bind; [by apply verifyRestartFlush_spec|]. intros [[verified u] evidence] He. cbv zeta. apply wp_all_ret.
  cbn in He. assert (good_log (mwEvidence result ++ evidence)) as Hlog by (apply good_log_app; [apply Hg|done]).
  cbn [fst snd]. destruct verified.
  - split; [by apply good_with_verdict_success|done].
  - split; [by apply good_with_verdict_same|done].
Qed.

Lemma good_flushMemberNoop target snapshot summary : summary ≠ "" → good_member (flushMemberNoop service target snapshot summary).
Proof using Hclock. intros. split_member. by apply good_log_singleton, good_mkEvidence. Qed.

Lemma flushRestartMember_post m : wp (flushRestartMember service m) (member_post quiet 1 m).
Proof using Hclock.
  assert (∀ tr r, Forall read_only tr → good_member r → mwTarget r = rmTarget m →
            member_post quiet 1 m tr r) as Hquiet.
  { intros. apply member_post_quiet; try done. by apply Forall_read_only_quiet. }
  unfold flushRestartMember. destruct (negb _); [by apply Hquiet; try done; apply good_flushMemberNoop|].
  apply wp_call. intros [err|]; [apply Hquiet; [by repeat constructor|auto with go|done]|].
  destruct (negb (svcPatroni service)); [apply Hquiet; [by repeat constructor|by apply good_memberNotSent|done]|].
  destruct (patroniBaseURL _) as [url|]; [|apply Hquiet; [by repeat constructor|auto with go|done]].
  apply wp_call. intros [response err]. cbn [fst snd].
  set (c := CDeleteRestart url). set (result := classifyRestartFlushResponse service (rmTarget m) response err).
  assert (good_member result) as Hg by (subst result; auto with go).
  eapply wp_mono; [|by apply settleRestartFlush_spec].
  cbn. intros tr r [Htr (Hr & Hrt & Hs & Ho)]. split; [done|]. split; [rewrite Hrt; apply classifyResponse_target|].
  assert (honest quiet 1 [Ev CCtxErr None; Ev c (response, err)] result) as [Hq Hw].
  { apply honest_one_write; [done|]. by apply (honest_classifyResponse service c). }
  change (honest quiet 1 ([Ev CCtxErr None; Ev c (response, err)] ++ tr) r). split.
  - intros Hf. apply Forall_app. split; [|by apply Forall_read_only_quiet].
    apply Hq. destruct Hf as [Hf|Hf]; [left; by apply Ho|right; congruence].
  - rewrite writes_app, (writes_read_only tr) by done. lia.
Qed.

Section running.
Context (operationID : string) (intent : flushIntent).
Context (Hid : operationID ≠ "") (Ht : Target_Validate (fiTarget intent) true = None).

Lemma finalizeFlush_post targets tr results base :
  chunked quiet 1 tr results → good_log base → member_ids results = target_ids targets →
  restart_flush_post targets tr (finalizeFlushResults operationID intent PathREST results base).
Proof using Hid Ht.
  intros Hc Hb Hids.
  destruct (finalizeFlushResults_spec operationID intent PathREST Hid Ht ltac:(done) results base Hb) as (Hv & Hr & Ho);
    [by eapply chunked_good|].
  unfold restart_flush_post. rewrite Hr. split; [done|]. split; [done|by right].
Qed.

Lemma failed_flush_post targets path category retryable message cause evidence :
  Path_valid path = true → definite category → message ≠ "" → Forall good_evidence evidence →
  wp (mret (failedReadWithEvidence service operationID "flush" (fiTarget intent) path category retryable message cause evidence))
     (restart_flush_post targets).
Proof using Hclock Hid Ht.
  intros. split; [by apply valid_failedRead|]. split; [apply chunked_nil|by left].
Qed.

Lemma stateConflicts_good plan resolved changed :
  stateConflicts service plan resolved = Some changed → Forall good_member changed.
Proof using Hclock.
  unfold stateConflicts. destruct (existsb _ _); [done|]. intros [= <-]. apply Forall_fmap, Forall_forall. intros m _. cbn.
  apply good_not_sent; [done..|]. by apply good_mkEvidence.
Qed.

Lemma executeRestartFlush_post plan snapshots evidence :
  good_log evidence →
  wp (executeRestartFlush service operationID intent plan snapshots evidence) (restart_flush_post (pTargets plan)).
Proof using Hclock Hid Ht.
  intros He. unfold executeRestartFlush. cbv zeta.
  assert (∀ conflicts, Forall good_member conflicts →
    restart_flush_post (pTargets plan) []
      (finalizeFlushResults operationID intent PathREST
         (bwMembers (abortBatchForTargetChange service "flush" (pTargets plan) conflicts)) evidence)) as Habort.
  { intros conflicts Hc. pose proof (abort_chunked service "flush" quiet 1 (pTargets plan) conflicts Hclock Hc) as [? ?].
    by apply finalizeFlush_post. }
  destruct (resolvePlannedMembersAcrossSnapshots _ _ _ _ _) as [resolved conflicts] eqn:Er.
  pose proof (resolved_conflicts service "flush" snapshots (pTargets plan) (fiRole intent) Hclock) as Hc.
  rewrite Er in Hc. destruct conflicts as [|c conflicts]; cbn [head is_nil negb]; [|by apply Habort].
  destruct (stateConflicts service plan resolved) as [changed|] eqn:Es.
  - apply stateConflicts_good in Es. destruct changed as [|c changed]; cbn [head is_nil negb]; [|by apply Habort].
    apply wp_bind. eapply wp_mono; [|apply forMembers_chunked; intros; by apply flushRestartMember_post].
    intros tr results [Hch Hids]. cbn. rewrite app_nil_r. apply finalizeFlush_post; [done..|].
    rewrite Hids. by eapply resolved_targets.
  - split; [by apply valid_failed|]. split; [apply chunked_nil|by left].
Qed.
End running.
End lemmas.

(** ** Lemmas: switchover flush *)

Lemma read_only_confirmed plan tr : Forall read_only tr → Forall (delete_confirmed plan) tr.
Proof. intros H. eapply Forall_impl; [done|]. intros e He. by destruct e as [[] r]. Qed.

#[export] Instance switchover_flush_post_read plan : ReadClosed (switchover_flush_post plan).
Proof.
  intros pre tr r Hpre (Hv & Hf & Hd & Hs). split; [done|]. split; [|split].
  - intros [Hq|H404]%Hf; [left; apply Forall_app; split; [by apply Forall_read_only_quiet|done]|].
    right. by rewrite existsb_app, H404, orb_true_r.
  - apply Forall_app. split; [by apply read_only_confirmed|done].
  - intros Hr. by rewrite existsb_app, (Hs Hr), orb_true_r.
Qed.

Lemma revalidated_revision plan failover members target :
  revalidateSwitchoverFlushPlan plan failover members target = None →
  expectedPrecondition plan "failover.modRevision" = Some (FormatInt (foModRevision failover)).
Proof.
  unfold revalidateSwitchoverFlushPlan. destruct (fields_match _ _) eqn:E; [|done]. intros _.
  unfold fields_match in E. cbn in E. by go_bool.
Qed.

Section switchover_lemmas.
Context `{GoStd} (service : Service) (Hclock : clock_set service) (plan : Plan).

Lemma flushSwitchoverMember_post snapshot target :
  wp (flushSwitchoverMember service snapshot target) (λ tr r,
    attempt_post flush_shown tr r ∧ Forall (delete_confirmed plan) tr ∧
    (mwHTTPStatus r = 404%Z → existsb answered_404 tr = true)).
Proof using Hclock.
  assert (∀ r, good_member r → mwOutcome r = Failed → mwHTTPStatus r = 0%Z →
    attempt_post flush_shown [] r ∧ Forall (delete_confirmed plan) [] ∧
    (mwHTTPStatus r = 404%Z → existsb answered_404 [] = true)) as Hnone.
  { intros r Hg Ho Hz. split; [by apply attempt_not_sent|]. split; [done|]. by rewrite Hz. }
  unfold flushSwitchoverMember. destruct (negb (svcPatroni service)); [by apply Hnone; try done; apply good_memberNotSent|].
  destruct (patroniBaseURL _) as [url|]; [|by apply Hnone; try done; apply good_invalidAddress].
  apply wp_call. intros [response err]. set (c := CDeleteSwitchover url). set (r := classifySwitchoverFlushResponse _ _ _ _).
  assert (mwHTTPStatus r = rsStatusCode response) as Hstatus by apply classifyResponse_status.
  split; [|split; [by repeat constructor|by rewrite Hstatus; intros Hs; cbn; rewrite Hs]].
  split; [by apply good_classifySwitchoverFlush|]. split.
  { intros Hf. constructor; [|done]. revert Hf. by apply (honest_classifyResponse service c). }
  rewrite Hstatus. split; [intros Hs%classifyResponse_succeeded; by apply Z.eqb_eq in Hs|]. split.
  { intros Hs. split; [apply classifyResponse_succeeded; unfold ok_only; cbn; by rewrite Hs|]. cbn. by rewrite Hs. }
  split; [|done]. intros Hs. constructor; [|done]. cbn. by rewrite Hs.
Qed.

Lemma verifySwitchoverFlush_post target :
  wp (verifySwitchoverFlush service target)
    (λ tr v, Forall read_only tr ∧ Forall good_evidence v.2 ∧ (v.1.1 = true → existsb flush_shown tr = true)).
Proof using Hclock.
  eapply wp_mono; [|apply readback_spec]. intros tr v (Htr & He & Hv). split; [done|]. split.
  - apply He; [done|]. split; [done|]. split; [done|]. by intros [].
  - intros Hm%Hv. by apply (observed_existsb _ _ _ _ Hm).
Qed.

Section running.
Context (operationID : string) (intent : flushIntent).
Context (Hid : operationID ≠ "") (Ht : Target_Validate (fiTarget intent) true = None).

Lemma flushSuccess_post data evidence tr :
  good_log evidence → Forall (delete_confirmed plan) tr → existsb flush_shown tr = true →
  switchover_flush_post plan tr (flushSuccess operationID intent PathRESTToDCS data evidence).
Proof using Hid Ht. intros. split; [by apply valid_success|done]. Qed.

Lemma flushFailure_post data class message cause evidence tr :
  good_log evidence → definite_class class → message ≠ "" → Forall (delete_confirmed plan) tr →
  (Forall quiet tr ∨ existsb answered_404 tr = true) →
  switchover_flush_post plan tr (flushFailureWithRetry operationID intent PathRESTToDCS data class message cause evidence).
Proof using Hid Ht. intros. split; [by apply valid_failed|done]. Qed.

Lemma flushUnknown_post data message cause evidence tr :
  good_log evidence → message ≠ "" → Forall (delete_confirmed plan) tr →
  switchover_flush_post plan tr (flushUnknown operationID intent PathRESTToDCS data message cause evidence).
Proof using Hid Ht. intros. split; [by apply valid_unknown|done]. Qed.

(** The state of the loop, with its deletions. *)
Definition flush_state (pre : list event) (data : FlushData) : Prop :=
  loop_state pre (fdResults data) ∧ Forall (delete_confirmed plan) pre.

Lemma flush_state_quiet pre tr data :
  flush_state pre data → Forall quiet tr → Forall (delete_confirmed plan) tr → flush_state (pre ++ tr) data.
Proof using Type.
  intros [Hs Hd] Hq Htr. split; [by apply loop_state_quiet|]. by apply Forall_app.
Qed.

Lemma flush_state_read pre tr data : flush_state pre data → Forall read_only tr → flush_state (pre ++ tr) data.
Proof using Type.
  intros. apply flush_state_quiet; [done|by apply Forall_read_only_quiet|by apply read_only_confirmed].
Qed.

(** An abandoned flush is UNKNOWN when a member is ambiguous, FAILED otherwise. *)
Lemma abandon_post pre data unknownMessage class failedMessage err evidence :
  flush_state pre data → good_log evidence → definite_class class → unknownMessage ≠ "" → failedMessage ≠ "" →
  switchover_flush_post plan pre
    (if flushHasAmbiguousREST (fdResults data)
     then flushUnknown operationID intent PathRESTToDCS data unknownMessage err evidence
     else flushFailureWithRetry operationID intent PathRESTToDCS data class failedMessage err evidence).
Proof using Hid Ht.
  intros [[Hg Hq] Hd]. intros. destruct (flushHasAmbiguousREST _) eqn:E; [by apply flushUnknown_post|].
  apply flushFailure_post; try done. left. by apply Hq.
Qed.

Lemma settleFlushFallback_post pre data w err verification evidence target expected tr :
  flush_state pre data → good_log evidence → Forall good_evidence verification.2 →
  fdDCSSendState data = dcsSendState err (wrApplied w) → Forall read_only tr →
  option_map FormatInt expected = expectedPrecondition plan "failover.modRevision" →
  (verification.1.1 = true → existsb flush_shown tr = true) →
  switchover_flush_post plan (pre ++ Ev (CDeleteFailover target expected) (w, err) :: tr)
    (settleFlushFallback operationID intent data err verification evidence).
Proof using Hid Ht.
  intros [[Hg Hq] Hd] He Hv Hsend Htr Hexp Hshown. unfold settleFlushFallback.
  destruct verification as [[verified revision] ev]. cbn in Hv, Hshown.
  assert (good_log (evidence ++ ev)) as Hlog by by apply good_log_app. cbv zeta.
  set (all := pre ++ _ :: tr).
  assert (Forall (delete_confirmed plan) all) as Hall.
  { apply Forall_app. split; [done|]. constructor; [done|by apply read_only_confirmed]. }
  set (data' := if (_ <? _)%Z then _ else _).
  assert (fdResults data' = fdResults data ∧ fdDCSSendState data' = fdDCSSendState data) as [Hr Hc]
    by (subst data'; by destruct (_ <? _)%Z).
  destruct verified.
  { apply flushSuccess_post; try done. unfold all. rewrite existsb_app. cbn [existsb]. rewrite Hshown by done.
    by rewrite !orb_true_r. }
  rewrite Hr, Hc, Hsend.
  assert (flushHasAmbiguousREST (fdResults data) = false → dcs_may_apply (w, err) = false → Forall quiet all) as Hquiet.
  { intros Ha Hw. apply Forall_app. split; [by apply Hq|]. constructor; [done|by apply Forall_read_only_quiet]. }
  destruct (has_conflict err) eqn:Ec.
  { destruct (flushHasAmbiguousREST _) eqn:Ea; cbn [orb]; [by apply flushUnknown_post|].
    destruct (bool_decide _); [by apply flushUnknown_post|]. apply flushFailure_post; try done.
    left. by apply Hquiet, conflict_not_applied. }
  destruct (_ && _) eqn:E; [|by apply flushUnknown_post].
  apply andb_true_iff in E as [[Ee Es%bool_decide_eq_true]%andb_true_iff Er%negb_true_iff].
  apply flushFailure_post; try done; [apply classifyReadError_definite|].
  left. apply Hquiet; [done|]. apply (dcsSendState_NotSent _ (wrApplied w)); [by destruct err|done].
Qed.

Lemma executeSwitchoverFlushFallback_post target data evidence pre :
  flush_state pre data → good_log evidence →
  wp (executeSwitchoverFlushFallback service operationID intent plan target data evidence)
     (λ tr, switchover_flush_post plan (pre ++ tr)).
Proof using Hclock Hid Ht.
  intros Hs Hb. unfold executeSwitchoverFlushFallback. cbv zeta.
  pose proof (loop_evidence (fdResults data) evidence Hb (ls_good _ _ (proj1 Hs))) as He.
  apply wp_call. intros [err|fresh].
  { apply abandon_post; try done; [by apply flush_state_read; [|repeat constructor]| |apply classifyReadError_definite].
    apply good_log_app; [done|]. by apply Forall_singleton, good_mkEvidence. }
  set (read := Ev (CSnapshot _) _). set (ev := appendFlushEvidence _ _ ++ _).
  assert (good_log ev) as Hev by (apply good_log_app; [done|]; by apply Forall_singleton, good_snapshotEvidence).
  assert (flush_state (pre ++ [read]) data) as Hread by (apply flush_state_read; [done|by repeat constructor]).
  destruct (scheduled_failover (snCluster fresh)) as [failover|] eqn:Ef.
  2: { apply flushSuccess_post; [done|apply Hread|]. rewrite existsb_app. cbn. rewrite Ef. by rewrite orb_true_r. }
  destruct (revalidateSwitchoverFlushPlan _ _ _ _) as [err|] eqn:Er; [by apply abandon_post|].
  destruct (negb (svcFailoverDCS service)); [by apply abandon_post|].
  apply wp_call. intros [err|].
  { apply abandon_post; try done. apply flush_state_read; [done|by repeat constructor]. }
  apply wp_call. intros [w err]. apply wp_bind.
  eapply wp_mono; [|by apply verifySwitchoverFlush_post]. cbn. intros tr v (Htr & Hv & Hshown).
  set (live := Ev CCtxErr _). set (delete := Ev (CDeleteFailover _ _) _).
  replace (pre ++ read :: live :: delete :: tr ++ []) with ((pre ++ [read; live]) ++ delete :: tr)
    by (by rewrite <- app_assoc, app_nil_r).
  apply settleFlushFallback_post; try done.
  - apply flush_state_read; [done|by repeat constructor].
  - apply good_log_app; [done|]. apply Forall_singleton, good_mkEvidence; auto with go.
    unfold switchoverFlushDCSDeleteSummary. by repeat case_match.
  - symmetry. by eapply revalidated_revision.
Qed.

Lemma switchoverFlushLoop_post snapshot data evidence targets pre :
  flush_state pre data → good_log evidence →
  wp (switchoverFlushLoop service operationID intent plan snapshot data evidence targets)
     (λ tr, switchover_flush_post plan (pre ++ tr)).
Proof using Hclock Hid Ht.
  revert data pre. induction targets as [|t ts IH]; intros data pre Hs He; cbn [switchoverFlushLoop];
    [by apply executeSwitchoverFlushFallback_post|].
  apply wp_call. intros [err|].
  { pose proof (loop_evidence (fdResults data) evidence He (ls_good _ _ (proj1 Hs))) as Hlog.
    unfold finishCanceledSwitchoverFlush. apply (abandon_post _ data _ (CategoryFailed, false)); try done.
    apply flush_state_read; [done|by repeat constructor]. }
  apply wp_bind. eapply wp_mono; [|apply flushSwitchoverMember_post]. cbn. intros tr r (Hr & Hd & H404).
  assert (flush_state (pre ++ [Ev CCtxErr None]) data) as Hs' by (apply flush_state_read; [done|by repeat constructor]).
  assert (good_log (appendFlushEvidence evidence (fdResults (flush_appended r data)))) as Hlog.
  { apply loop_evidence; [done|]. apply Forall_app. split; [apply Hs|by apply Forall_singleton, Hr]. }
  apply (wp_mono _ (λ tr', switchover_flush_post plan ((pre ++ [Ev CCtxErr None]) ++ tr ++ tr')));
    [intros tr' b; by rewrite <- app_assoc|].
  assert (Forall (delete_confirmed plan) ((pre ++ [Ev CCtxErr None]) ++ tr)) as Hall
    by (apply Forall_app; split; [apply Hs'|done]).
  destruct (Z.eqb_spec (mwHTTPStatus r) 200) as [H200|H200].
  { cbn. rewrite app_nil_r. apply flushSuccess_post; try done. rewrite existsb_app.
    destruct Hr as (_ & _ & _ & Hok & _). rewrite (proj2 (Hok H200)). by rewrite orb_true_r. }
  destruct (Z.eqb_spec (mwHTTPStatus r) 404) as [Hz|Hz].
  { cbn. rewrite app_nil_r. apply flushFailure_post; try done. right. rewrite existsb_app, H404 by done.
    by rewrite orb_true_r. }
  eapply wp_mono; [|apply (IH _ ((pre ++ [Ev CCtxErr None]) ++ tr)); [|done]].
  - intros tr' b. by rewrite <- !app_assoc.
  - split; [|done]. eapply loop_state_snoc; [apply Hs'|done..].
Qed.

Lemma executeSwitchoverFlush_post snapshot evidence :
  good_log evidence →
  wp (executeSwitchoverFlush service operationID intent plan snapshot evidence) (λ tr r,
    Result_Validate r = None ∧ (rOutcome r = Failed → Forall quiet tr ∨ existsb answered_404 tr = true) ∧
    Forall (delete_confirmed plan) tr ∧
    (rOutcome r = Succeeded → scheduled_failover (snCluster snapshot) = None ∨ existsb flush_shown tr = true)).
Proof using Hclock Hid Ht.
  intros He. unfold executeSwitchoverFlush. cbv zeta. set (data := mkFlushData _ _ _ _ _ _ _).
  destruct (scheduled_failover (snCluster snapshot)) as [current|].
  2: { split; [by apply valid_success|]. split; [done|]. split; [done|]. by left. }
  assert (∀ category message cause, definite category → message ≠ "" →
    switchover_flush_post plan [] (flushFailure operationID intent PathRESTToDCS data category message cause evidence))
    as Hfail by (intros; apply flushFailure_post; try done; by left).
  assert (∀ tr r, switchover_flush_post plan tr r →
    Result_Validate r = None ∧ (rOutcome r = Failed → Forall quiet tr ∨ existsb answered_404 tr = true) ∧
    Forall (delete_confirmed plan) tr ∧
    (rOutcome r = Succeeded → Some current = None ∨ existsb flush_shown tr = true)) as Hweak.
  { intros tr r (? & ? & ? & Hs). split_and!; try done. intros Hr. right. by apply Hs. }
  destruct (_ ==s _); [by apply Hweak, Hfail|].
  destruct (revalidateSwitchoverFlushPlan _ _ _ _); [by apply Hweak, Hfail|].
  eapply wp_mono; [exact Hweak|]. by apply (switchoverFlushLoop_post _ _ _ _ []); [split; [apply loop_state_nil|]|].
Qed.
End running.
End switchover_lemmas.

(** ** Lemmas: the whole flush *)

Section whole.
Context `{GoStd} (service : Service) (Hclock : clock_set service).

Lemma flushOperationSnapshots_spec intent :
  wp_all read_only (flushOperationSnapshots service intent) (good_snapshots (version_gated service)).
Proof using Hclock.
  unfold flushOperationSnapshots. destruct (_ || _); [by apply operationSnapshots_spec|by apply citusCoordinator_spec].
Qed.

Lemma normalizeFlush_valid request :
  Target_Validate (flTarget request) true = None →
  Target_Validate (fiTarget (normalizeFlushRequest request).1) true = None ∧
  fiEvent (normalizeFlushRequest request).1 = flEvent request.
Proof using Type.
  intros Ht. unfold normalizeFlushRequest. cbv zeta. set (checks := if negb (FlushEvent_valid _) then _ else _).
  pose proof (normalizeMemberRequest_valid _ (flMembers request) checks Ht) as Hn.
  destruct (normalizeMemberRequest _ _ _) as [[target members] err]. done.
Qed.

(** [ExecuteFlush] up to its event, for a postcondition that failures meet. *)
Lemma ExecuteFlush_spec (Q : list event → Result FlushData → Prop) `{!ReadClosed Q} ctx request plan :
  Target_Validate (flTarget request) true = None →
  (∀ r, Result_Validate r = None → rOutcome r = Failed → fdResults (rData r) = [] → Q [] r) →
  (∀ id intent snapshots evidence, id ≠ "" → Target_Validate (fiTarget intent) true = None →
     fiEvent intent = flEvent request → good_log evidence →
     wp (if bool_decide (flEvent request = FlushRestart)
         then executeRestartFlush service id intent plan snapshots evidence
         else executeSwitchoverFlush service id intent plan (first_snapshot snapshots) evidence) Q) →
  wp (ExecuteFlush service ctx request plan) Q.
Proof using Hclock.
  intros Ht Hfail Hrun. unfold ExecuteFlush.
  eapply wp_bind_read; [done|apply planOperationID_spec|]. intros id Hid.
  destruct (normalizeFlush_valid request Ht) as [Hn Hev].
  destruct (normalizeFlushRequest request) as [intent err]. cbn [fst] in Hn, Hev. cbv zeta.
  assert (Path_valid (flushPath (fiEvent intent)) = true) as Hp by by destruct (fiEvent intent).
  assert (∀ category retryable message cause evidence, definite category → message ≠ "" → Forall good_evidence evidence →
    Q [] (failedReadWithEvidence service id "flush" (fiTarget intent) (flushPath (fiEvent intent)) category retryable message cause evidence))
    as Hstop by (intros; apply Hfail; [by apply valid_failedRead|done..]).
  destruct (negb ctx); [by apply Hstop|]. destruct (negb (is_nil err)); [by apply Hstop|].
  destruct (validateFlushPlan plan intent); [by apply Hstop|].
  eapply wp_bind_read; [done|apply flushOperationSnapshots_spec|]. intros [[failure ev]|[snapshots evidence]].
  { intros (? & ? & ?). by apply Hstop. }
  intros (_ & _ & He). destruct (_ !=s _); [apply Hstop; [done..|apply He]|].
  rewrite Hev. by apply Hrun.
Qed.
End whole.

(** ** Samples *)

(** A switchover from [n1] to [n2] is scheduled. *)
Definition pending : Snapshot :=
  sample_snapshot (sample_cluster "n1" [] (Some (mkFailover 6 "n1" "n2" "2030-01-01T00:00:00Z"))).

Definition flush_request (event : FlushEvent) : FlushRequest := mkFlushRequest sample_target event [] (RoleRaw "") true false.

(** The first member times out after the request was sent, the second answers 404. *)
Definition timeout_then_404 (tr : list event) (c : call) : reply c :=
  answers pending pending
    (if existsb (λ e, is_write (ev_call e)) tr then status 404
     else (no_response, Some (EPatroni patroniE.ErrorTransport "DELETE" "/switchover" patroniE.DeliveryMaybeSent 0 None)))
    applied tr c.

(** ** Properties *)



(** C7: a switchover [ExecuteFlush] on a valid cluster target returns a valid
    result; a FAILED one left nothing that can have been applied, unless a
    member answered 404; and the failover key is only deleted at the revision
    that was confirmed. *)
Theorem ExecuteFlush_switchover `{GoStd} service ctx request plan :
  clock_set service → Target_Validate (flTarget request) true = None → flEvent request ≠ FlushRestart →
  wp (ExecuteFlush service ctx request plan) (λ tr r,
    Result_Validate r = None ∧ (rOutcome r = Failed → Forall quiet tr ∨ existsb answered_404 tr = true) ∧
    Forall (delete_confirmed plan) tr).
Proof.
  intros Hclock Ht Hev. apply ExecuteFlush_spec; [done..| |done| |].
  - intros pre tr r Hpre (Hv & Hf & Hd). split; [done|]. split; [|apply Forall_app; split; [by apply read_only_confirmed|done]].
    intros [Hq|H404]%Hf; [left; apply Forall_app; split; [by apply Forall_read_only_quiet|done]|].
    right. by rewrite existsb_app, H404, orb_true_r.
  - intros r Hv Hr Hm. split; [done|]. split; [by left|done].
  - intros id intent snapshots evidence Hid Hn _ He. rewrite bool_decide_eq_false_2 by done.
    eapply wp_mono; [|by apply executeSwitchoverFlush_post]. by intros tr r (? & ? & ? & _).
Qed.

Lemma ExecuteFlush_switchover_witness :
  let request := flush_request FlushSwitchover in
  let plan := prepared_plan pending (PrepareFlush sample_service true request) in
  let r := run (answers pending steady silence applied) [] (ExecuteFlush sample_service true request plan) in
  rOutcome r.2 = Succeeded ∧
  Result_Validate r.2 = None ∧ (rOutcome r.2 = Failed → Forall quiet r.1 ∨ existsb answered_404 r.1 = true) ∧
  Forall (delete_confirmed plan) r.1.
Proof.
  split; [vm_compute; reflexivity|]. apply wp_run, ExecuteFlush_switchover; vm_compute; [reflexivity|reflexivity|discriminate].
Defined.

(** A SUCCEEDED switchover flush was observed: the snapshot it started from
    had no scheduled switchover, Patroni answered a deletion with 200, or a
    later snapshot shows none. *)
Theorem executeSwitchoverFlush_observed `{GoStd} service operationID intent plan snapshot evidence :
  clock_set service → operationID ≠ "" → Target_Validate (fiTarget intent) true = None → good_log evidence →
  wp (executeSwitchoverFlush service operationID intent plan snapshot evidence) (λ tr r,
    rOutcome r = Succeeded → scheduled_failover (snCluster snapshot) = None ∨ existsb flush_shown tr = true).
Proof.
  intros. eapply wp_mono; [|by apply executeSwitchoverFlush_post]. by intros tr r (_ & _ & _ & ?).
Qed.

Lemma executeSwitchoverFlush_observed_witness :
  let request := flush_request FlushSwitchover in
  let plan := prepared_plan pending (PrepareFlush sample_service true request) in
  let r := run (answers pending steady silence applied) []
             (executeSwitchoverFlush sample_service "op-1" (normalizeFlushRequest request).1 plan pending
                [snapshotEvidence sample_service pending "read"]) in
  rOutcome r.2 = Succeeded ∧
  (rOutcome r.2 = Succeeded → scheduled_failover (snCluster pending) = None ∨ existsb flush_shown r.1 = true).
Proof.
  split; [vm_compute; reflexivity|].
  apply wp_run, executeSwitchoverFlush_observed; [reflexivity|discriminate|reflexivity|].
  split; [discriminate|]. by apply Forall_singleton.
Defined.

(** The exception for 404 is needed: when one member's deletion timed out
    after it was sent and the next member answers 404, [ExecuteFlush] reports
    FAILED although the first deletion may have been applied. *)
Theorem ExecuteFlush_switchover_false_failure :
  let request := flush_request FlushSwitchover in
  let plan := prepared_plan pending (PrepareFlush sample_service true request) in
  let r := run timeout_then_404 [] (ExecuteFlush sample_service true request plan) in
  rOutcome r.2 = Failed ∧ flushHasAmbiguousREST (fdResults (rData r.2)) = true ∧
  existsb may_have_applied r.1 = true.
Proof. vm_compute. repeat split; reflexivity. Qed.
