(* ===== verification/Remove.v ===== *)
(** * Remove: [control/remove.go]

    The most destructive operation: every key under one cluster root is
    deleted, after three confirmation values and a key inventory bound to the
    plan by a keyed token.  The deletion is read back; only an empty root
    counts as success. *)

From S2P Require Import Prelude GoStrings GoErrors GoTime Target Version Values Json Dcs.
From S2P Require Import Effects Contract Readback Samples Select Snapshots Batch.

(** ** Requests and data *)

Definition RemoveAcknowledgement : string := "Yes I am aware".

Record RemoveRequest := mkRemoveRequest { rqTarget : Target; rqCitus : bool }.

Record RemoveConfirmation := mkRemoveConfirmation {
  rcfClusterName : string;
  rcfAcknowledgement : string;
  rcfLeader : string
}.

Record RemoveData := mkRemoveData {
  rmdExpectedKeys : Z;
  rmdDeleted : Z;
  rmdRemainingKeys : list string;
  rmdDCSSendState : SendState;
  rmdVerification : Verification;
  rmdDCSRevision : Z;
  rmdNoop : bool
}.

#[export] Instance zero_RemoveData : Zero RemoveData :=
  mkRemoveData 0 0 [] (SendRaw "") (VerificationRaw "") 0 false.

Definition RemoveData_Validate (d : RemoveData) : option goerror :=
  if (rmdExpectedKeys d <? 0)%Z || (rmdDeleted d <? 0)%Z || (rmdDCSRevision d <? 0)%Z
  then Some (EText "remove counts and revision must be non-negative")
  else if negb (SendState_validOrEmpty (rmdDCSSendState d)) || SendState_empty (rmdDCSSendState d)
  then Some (EText "remove DCS send state is invalid")
  else if negb (Verification_valid (rmdVerification d)) then Some (EText "remove verification is invalid")
  else if negb (StringsAreSorted (rmdRemainingKeys d)) then Some (EText "remove remaining keys must be deterministic")
  else if rmdNoop d && (negb (bool_decide (rmdDCSSendState d = SendNotSent))
                        || negb (bool_decide (rmdVerification d = VerifiedSucceeded)))
  then Some (EText "remove no-op requires verified NOT_SENT success")
  else None.

(** Field assignments of [data]. *)
Definition remove_verified (v : Verification) (d : RemoveData) : RemoveData :=
  mkRemoveData (rmdExpectedKeys d) (rmdDeleted d) (rmdRemainingKeys d) (rmdDCSSendState d) v (rmdDCSRevision d)
    (rmdNoop d).
Definition remove_remaining (keys : list string) (d : RemoveData) : RemoveData :=
  mkRemoveData (rmdExpectedKeys d) (rmdDeleted d) keys (rmdDCSSendState d) (rmdVerification d) (rmdDCSRevision d)
    (rmdNoop d).
Definition remove_revision (revision : Z) (d : RemoveData) : RemoveData :=
  mkRemoveData (rmdExpectedKeys d) (rmdDeleted d) (rmdRemainingKeys d) (rmdDCSSendState d) (rmdVerification d)
    revision (rmdNoop d).
Definition remove_noop (d : RemoveData) : RemoveData :=
  mkRemoveData (rmdExpectedKeys d) (rmdDeleted d) (rmdRemainingKeys d) (rmdDCSSendState d) (rmdVerification d)
    (rmdDCSRevision d) true.
Definition remove_sent (result : RemoveResult) (send : SendState) (d : RemoveData) : RemoveData :=
  mkRemoveData (rmdExpectedKeys d) (rrDeleted result) (rmdRemainingKeys d) send (rmdVerification d)
    (rrRevision result) (rmdNoop d).

Definition normalizeRemoveRequest (request : RemoveRequest) : RemoveRequest * option goerror :=
  let request := mkRemoveRequest (Normalize (rqTarget request)) (rqCitus request) in
  (request,
   if tMember (rqTarget request) !=s "" then Some (EText "remove target must be a cluster")
   else match Target_Validate (rqTarget request) true with
   | Some err => Some err
   | None => if rqCitus request && is_nil (tGroup (rqTarget request))
             then Some (EText "citus remove requires an explicit group") else None
   end).

(** ** Inventory *)

Definition removeInventory (snapshot : Snapshot) : list string :=
  sort_strings (enRelativePath <$> snEntries snapshot).

Definition removeLeader (cluster : ClusterState) : string :=
  match csLeader cluster with Some l => ldName l | None => "" end.

(** ** Plans *)

Definition removeMaterial (request : RemoveRequest) (revision : Z) (leader keys : string) : list (string * value) :=
  [("target", VString (ClusterID (rqTarget request))); ("revision", VNumber (FormatInt revision));
   ("clusterName", VString (tScope (rqTarget request))); ("acknowledgement", VString RemoveAcknowledgement);
   ("leader", VString leader); ("keys", VString keys); ("citus", VBool (rqCitus request))].

Definition removePlanBinding `{GoStd} (service : Service) (request : RemoveRequest) (revision : Z)
    (leader keys : string) : option string :=
  planToken service "remove/plan" (Marshal_struct (removeMaterial request revision leader keys)).

Definition removePreconditions (request : RemoveRequest) (revision : Z) (leader keys binding : string)
    : list Precondition :=
  [mkPrecondition "dcs.revision" (FormatInt revision) EvidenceDCS;
   mkPrecondition "remove.clusterName" (tScope (rqTarget request)) EvidenceControl;
   mkPrecondition "remove.acknowledgement" RemoveAcknowledgement EvidenceControl;
   mkPrecondition "remove.leader" leader EvidenceDCS;
   mkPrecondition "remove.keys" keys EvidenceDCS;
   mkPrecondition "request.citus" (FormatBool (rqCitus request)) EvidenceControl;
   mkPrecondition "remove.binding" binding EvidenceControl].

Definition removePlan (operationID : string) (request : RemoveRequest) (snapshot : Snapshot) (binding : string)
    : Plan :=
  let keys := removeInventory snapshot in
  mkPlan operationID "remove" (rqTarget request) [] PathDCS RiskDestructive UnsafeAfterSend
    ("delete " +:+ FormatInt (Z.of_nat (length keys)) +:+ " keys under exact cluster DCS root " +:+
     ClusterID (rqTarget request))
    (removePreconditions request (snRevision snapshot) (removeLeader (snCluster snapshot)) (Marshal_strings keys)
       binding).

Definition PrepareRemove `{GoStd} (service : Service) (ctx : bool) (request : RemoveRequest) : prog (Result Plan) :=
  operationID ← operationID;
  let '(request, requestError) := normalizeRemoveRequest request in
  let target := rqTarget request in
  let fail category retryable message cause evidence :=
    mret (failedRead service operationID "remove" target PathDCS category retryable message cause evidence) in
  if negb ctx then fail CategoryUsage false "remove requires a context" None []
  else if negb (is_nil requestError) then fail CategoryUsage false "remove request is invalid" requestError []
  else
    r ← do_call (CSnapshot target);
    match r with
    | inl err =>
        let '(category, retryable) := classifyReadError (Some err) in
        fail category retryable "remove cluster snapshot failed" (Some err) []
    | inr snapshot =>
        match checkSnapshotPatroniVersion service snapshot false with
        | Some err =>
            mret (unsupportedVersionResult service operationID "remove" target PathDCS snapshot (Some err))
        | None =>
            let keys := removeInventory snapshot in
            if is_nil (head keys) then
              fail CategoryNotFound false "cluster DCS state does not exist" None
                [snapshotEvidence service snapshot "remove target lookup completed"]
            else match removePlanBinding service request (snRevision snapshot) (removeLeader (snCluster snapshot))
                         (Marshal_strings keys) with
            | None => fail CategoryInternal false "remove Plan binding failed" (Some (EText "json")) []
            | Some binding =>
                let plan := removePlan operationID request snapshot binding in
                match Plan_Validate plan with
                | Some err =>
                    fail CategoryInternal false "remove Plan construction failed" (Some err)
                      [snapshotEvidence service snapshot "remove inventory completed"]
                | None =>
                    mret (planResult operationID target PathDCS plan
                            [snapshotEvidence service snapshot "remove Plan built from exact DCS key inventory"])
                end
            end
        end
    end.

(** The loop that refuses blank and repeated keys. *)
Fixpoint keys_refused (previous : option string) (keys : list string) : bool :=
  match keys with
  | [] => false
  | key :: keys =>
      (TrimSpace key ==s "") || bool_decide (previous = Some key) || keys_refused (Some key) keys
  end.

Definition removePlanKeys (plan : Plan) : option (list string) :=
  match expectedPrecondition plan "remove.keys" with
  | None => None
  | Some value =>
      match Unmarshal_strings value with
      | None => None
      | Some keys => if negb (StringsAreSorted keys) || keys_refused None keys then None else Some keys
      end
  end.

(** [keys, _ := removePlanKeys(plan)] *)
Definition planned_keys (plan : Plan) : list string := deref [] (removePlanKeys plan).

Definition removeConfirmed (plan : Plan) (request : RemoveRequest) : bool :=
  fields_match plan [("remove.clusterName", tScope (rqTarget request));
                     ("remove.acknowledgement", RemoveAcknowledgement);
                     ("request.citus", FormatBool (rqCitus request))]
  && negb (is_nil (expectedPrecondition plan "remove.leader")).

Definition planRevision (plan : Plan) : option Z :=
  match expectedPrecondition plan "dcs.revision" ≫= ParseInt with
  | Some revision => if (0 <? revision)%Z then Some revision else None
  | None => None
  end.

Definition validateRemovePlan `{GoStd} (service : Service) (plan : Plan) (request : RemoveRequest)
    : option goerror :=
  match Plan_Validate plan with
  | Some err => Some err
  | None =>
      if negb (plan_contract plan "remove" PathDCS RiskDestructive)
      then Some (EText "plan operation contract differs from remove")
      else if ClusterID (Normalize (pTarget plan)) !=s ClusterID (rqTarget request)
      then Some (EText "plan cluster differs from request")
      else if negb (removeConfirmed plan request)
      then Some (EText "plan confirmation contract differs from remove request")
      else match removePlanKeys plan with
      | None | Some [] => Some (EText "plan remove key inventory is invalid")
      | Some keys =>
          match planRevision plan with
          | None => Some (EText "plan DCS revision is invalid")
          | Some revision =>
              match removePlanBinding service request revision (plannedValue plan "remove.leader")
                      (Marshal_strings keys) with
              | None => Some (EText "json")
              | Some binding =>
                  match expectedPrecondition plan "remove.binding" with
                  | Some planned => if token_length planned && (planned ==s binding) then None
                                    else Some (EText "plan remove binding is invalid")
                  | None => Some (EText "plan remove binding is invalid")
                  end
              end
          end
      end
  end.

Definition validateRemoveConfirmation (plan : Plan) (confirmation : RemoveConfirmation) : option goerror :=
  if rcfClusterName confirmation !=s plannedValue plan "remove.clusterName"
  then Some (EText "cluster names specified do not match")
  else if rcfAcknowledgement confirmation !=s plannedValue plan "remove.acknowledgement"
  then Some (EText "confirmation must exactly equal the acknowledgement")
  else if rcfLeader confirmation !=s plannedValue plan "remove.leader"
  then Some (EText "confirmation does not specify the current leader")
  else None.

(** ** Results *)

Definition removeSendState (err : option goerror) : SendState :=
  match err with
  | None => SendAccepted
  | Some _ =>
      match as_dcs err with
      | Some (_, dcsE.DeliveryNotSent) => SendNotSent
      | Some (_, dcsE.DeliveryMaybeSent) => SendMaybeSent
      | Some (_, dcsE.DeliveryResponseReceived) => SendAccepted
      | _ => SendMaybeSent
      end
  end.

Definition removeDeleteSummary (result : RemoveResult) (err : option goerror) : string :=
  if is_nil err then "DCS exact-root delete received a response for " +:+ FormatInt (rrDeleted result) +:+ " keys"
  else if bool_decide (removeSendState err = SendNotSent) then "DCS exact-root delete was not sent"
  else "DCS exact-root delete ended without a verified response".

Definition remove_evidence (service : Service) (message : string) (data : RemoveData) (evidence : list Evidence)
    : list Evidence :=
  match evidence with
  | [] => [mkEvidence EvidenceDCS (svcNow service) message "" (Path_text PathDCS) (rmdDCSSendState data)]
  | _ => evidence
  end.

Definition removeSuccess (operationID : string) (target : Target) (data : RemoveData) (evidence : list Evidence)
    : Result RemoveData :=
  mkResult operationID Succeeded target PathDCS data evidence None.

Definition removeFailure (service : Service) (operationID : string) (target : Target) (data : RemoveData)
    (class : Category * bool) (message : string) (cause : option goerror) (evidence : list Evidence)
    : Result RemoveData :=
  let data := remove_verified VerifiedFailed data in
  let evidence := remove_evidence service message data evidence in
  mkResult operationID Failed target PathDCS data evidence
    (Some (NewError class.1 "remove" target class.2 message cause evidence)).

Definition removeUnknown (service : Service) (operationID : string) (target : Target) (data : RemoveData)
    (message : string) (cause : option goerror) (evidence : list Evidence) : Result RemoveData :=
  let data := remove_verified Unverified data in
  let evidence := remove_evidence service message data evidence in
  mkResult operationID Unknown target PathDCS data evidence
    (Some (NewError CategoryUnknown "remove" target false message cause evidence)).

(** ** Verification *)

(** What is remembered: remaining keys and revision. *)
Definition removeReading : Reading (list string * Z) :=
  mkReading "remove readback canceled" "remove readback failed"
    (λ snapshot, let remaining := removeInventory snapshot in
                 ((remaining, snRevision snapshot), is_nil (head remaining)))
    (λ empty, if empty then "cluster DCS root is empty" else "cluster DCS root still contains keys").

Definition verifyRemove (service : Service) (target : Target) : prog (verdict (list string * Z)) :=
  readback service target removeReading ([], 0%Z).

(** ** Execution *)

(** What the deletion and its readback amount to. *)
Definition settleRemove (service : Service) (operationID : string) (target : Target) (data : RemoveData)
    (deleteError : option goerror) (v : verdict (list string * Z)) (evidence : list Evidence) : prog (Result RemoveData) :=
  let '(verified, (remaining, revision), verificationEvidence) := v in
  let evidence := evidence ++ verificationEvidence in
  let data := remove_remaining remaining data in
  let data := if (rmdDCSRevision data <? revision)%Z then remove_revision revision data else data in
  if (verified : bool) then
    let data := remove_verified VerifiedSucceeded data in
    mret (removeSuccess operationID target
            (if bool_decide (rmdDCSSendState data = SendNotSent) then remove_noop data else data) evidence)
  else if bool_decide (rmdDCSSendState data = SendNotSent) then
    mret (removeFailure service operationID target data (classifyReadError deleteError)
            "cluster DCS delete was definitely not sent" deleteError evidence)
  else
    cause ← cause_with_context deleteError;
    mret (removeUnknown service operationID target data
            "cluster DCS deletion was not verified; inspect the exact root before retrying" cause evidence).

(** From a fresh snapshot that passed the version gate. *)
Definition removeConfirmedRoot (service : Service) (operationID : string) (target : Target) (plan : Plan)
    (snapshot : Snapshot) : prog (Result RemoveData) :=
  let plannedKeys := planned_keys plan in
  let data := mkRemoveData (Z.of_nat (length plannedKeys)) 0 [] SendNotSent Unverified 0 false in
  let evidence := [snapshotEvidence service snapshot "remove key inventory revalidated before delete"] in
  let currentKeys := removeInventory snapshot in
  let refuse category message cause :=
    mret (removeFailure service operationID target (remove_verified VerifiedFailed (remove_remaining currentKeys data))
            (category, false) message cause evidence) in
  if is_nil (head currentKeys) then
    mret (removeSuccess operationID target
            (remove_revision (snRevision snapshot) (remove_verified VerifiedSucceeded (remove_noop data)))
            (evidence ++ [mkEvidence EvidenceDCS (svcNow service) "cluster DCS root is already absent"
                            (FormatInt (snRevision snapshot)) (snPrefix snapshot) SendNotSent]))
  else if negb (reflectStringSlices currentKeys plannedKeys)
          || (removeLeader (snCluster snapshot) !=s plannedValue plan "remove.leader") then
    refuse CategoryConflict "remove was not sent because the confirmed cluster state changed" None
  else
    cancelled ← do_call CCtxErr;
    match cancelled with
    | Some err => refuse CategoryFailed "remove was canceled before DCS delete" (Some err)
    | None =>
        if negb (svcRemoverDCS service) then
          refuse CategoryConfig "remove requires a DCS cluster remover capability" None
        else
          d ← do_call (CDeleteCluster target);
          let '(deleteResult, deleteError) := d in
          let send := removeSendState deleteError in
          let data := remove_sent deleteResult send data in
          let evidence := evidence ++
            [mkEvidence EvidenceDCS (svcNow service) (removeDeleteSummary deleteResult deleteError)
               (FormatInt (rrRevision deleteResult)) (Path_text PathDCS) send] in
          v ← verifyRemove service target;
          settleRemove service operationID target data deleteError v evidence
    end.

Definition ExecuteRemove `{GoStd} (service : Service) (ctx : bool) (request : RemoveRequest)
    (confirmation : RemoveConfirmation) (plan : Plan) : prog (Result RemoveData) :=
  operationID ← planOperationID plan;
  let '(request, requestError) := normalizeRemoveRequest request in
  let target := rqTarget request in
  let fail category message cause :=
    mret (failedRead service operationID "remove" target PathDCS category false message cause []) in
  if negb ctx then fail CategoryUsage "remove requires a context" None
  else if negb (is_nil requestError) then fail CategoryUsage "remove request is invalid" requestError
  else match validateRemovePlan service plan request with
  | Some err => fail CategoryUsage "remove Plan does not match the request" (Some err)
  | None =>
      match validateRemoveConfirmation plan confirmation with
      | Some err => fail CategoryUsage "remove confirmation does not match the Plan" (Some err)
      | None =>
          r ← do_call (CSnapshot target);
          match r with
          | inl err =>
              mret (removeFailure service operationID target
                      (mkRemoveData (Z.of_nat (length (planned_keys plan))) 0 [] SendNotSent VerifiedFailed 0 false)
                      (classifyReadError (Some err)) "remove execution snapshot failed" (Some err) [])
          | inr snapshot =>
              match checkSnapshotPatroniVersion service snapshot false with
              | Some err =>
                  mret (unsupportedVersionResult service operationID "remove" target PathDCS snapshot (Some err))
              | None => removeConfirmedRoot service operationID target plan snapshot
              end
          end
      end
  end.

(** ** Predicates of the theorems *)

(** A snapshot that shows no key under the root. *)
Definition root_empty (e : event) : bool :=
  match e with
  | Ev c r =>
      match c return reply c → bool with
      | CSnapshot _ => λ r, match r with inr s => is_nil (head (removeInventory s)) | inl _ => false end
      | _ => λ _, false
      end r
  end.

(** What has to be true before a cluster is deleted: the operator typed the
    cluster name, the acknowledgement and the leader, and a fresh,
    version-checked snapshot has that leader and exactly the planned keys. *)
Definition deletion_confirmed (service : Service) (target : Target) (confirmation : RemoveConfirmation)
    (plan : Plan) (tr : list event) : Prop :=
  ∃ snapshot, Ev (CSnapshot target) (inr snapshot) ∈ tr ∧ version_gated service snapshot ∧
    removeInventory snapshot = planned_keys plan ∧
    confirmation = mkRemoveConfirmation (tScope target) RemoveAcknowledgement (removeLeader (snCluster snapshot)).

(** The only change asked for is the deletion of the root of [target]. *)
Definition only_deletes (target : Target) (e : event) : Prop :=
  is_write (ev_call e) = true → ev_call e = CDeleteCluster target.

Lemma read_only_deletes target tr : Forall read_only tr → Forall (only_deletes target) tr.
Proof. intros Htr. eapply Forall_impl; [exact Htr|]. unfold read_only, only_deletes. congruence. Qed.

Definition remove_post (service : Service) (target : Target) (confirmation : RemoveConfirmation) (plan : Plan)
    (tr : list event) (r : Result RemoveData) : Prop :=
  Result_Validate r = None ∧ (rOutcome r = Failed → Forall quiet tr) ∧
  (rOutcome r = Succeeded → existsb root_empty tr = true) ∧
  (writes tr ≤ 1)%nat ∧ Forall (only_deletes target) tr ∧
  (writes tr ≠ 0%nat → deletion_confirmed service target confirmation plan tr).

#[export] Instance remove_post_read service target confirmation plan :
  ReadClosed (remove_post service target confirmation plan).
Proof.
  intros pre tr r Hpre (Hv & Hf & Hs & Hw & Ho & Hc). split; [done|]. split; [|split; [|split; [|split]]].
  - intros Hr. apply Forall_app. split; [by apply Forall_read_only_quiet|by apply Hf].
  - intros Hr. rewrite existsb_app, (Hs Hr). by rewrite orb_true_r.
  - rewrite writes_app, writes_read_only by done. lia.
  - apply Forall_app. split; [by apply read_only_deletes|done].
  - rewrite writes_app, writes_read_only by done. intros (snapshot & Hin & Hrest)%Hc.
    exists snapshot. split; [|done]. apply elem_of_app. by right.
Qed.

(** An inventory whose text reads back. *)
Definition good_inventory (snapshot : Snapshot) : Prop :=
  (0 < snRevision snapshot ≤ max_int64)%Z ∧ NoDup (enRelativePath <$> snEntries snapshot) ∧
  Forall (λ key, valid_utf8 key = true ∧ TrimSpace key ≠ "") (enRelativePath <$> snEntries snapshot).

(** ** Lemmas: results *)

Section lemmas.
Context (service : Service) (Hclock : clock_set service).

Section running.
Context (operationID : string) (target : Target) (Hid : operationID ≠ "") (Ht : Target_Validate target true = None).
Context (confirmation : RemoveConfirmation) (plan : Plan).

Lemma remove_evidence_good message data evidence :
  message ≠ "" → SendState_validOrEmpty (rmdDCSSendState data) = true → Forall good_evidence evidence →
  good_log (remove_evidence service message data evidence).
Proof using Hclock.
  intros Hm Hs He. destruct evidence; [|by split]. by apply good_log_singleton, good_mkEvidence.
Qed.

Lemma valid_removeFailure data class message cause evidence :
  definite_class class → message ≠ "" → SendState_validOrEmpty (rmdDCSSendState data) = true →
  Forall good_evidence evidence →
  Result_Validate (removeFailure service operationID target data class message cause evidence) = None.
Proof using Hclock Hid Ht. intros. apply valid_failed; try done. by apply remove_evidence_good. Qed.

Lemma valid_removeUnknown data message cause evidence :
  message ≠ "" → SendState_validOrEmpty (rmdDCSSendState data) = true → Forall good_evidence evidence →
  Result_Validate (removeUnknown service operationID target data message cause evidence) = None.
Proof using Hclock Hid Ht. intros. apply valid_unknown; try done. by apply remove_evidence_good. Qed.

Lemma removeSendState_valid err : SendState_validOrEmpty (removeSendState err) = true.
Proof using Type. unfold removeSendState. by repeat case_match. Qed.

Lemma removeSendState_NotSent err w : removeSendState err = SendNotSent → remove_may_apply (w, err) = false.
Proof using Type. unfold removeSendState, remove_may_apply. destruct err; [|done]. cbn [snd]. by repeat case_match. Qed.

(** ** Lemmas: the readback *)

Lemma verifyRemove_post :
  wp (verifyRemove service target)
    (λ tr v, Forall read_only tr ∧ Forall good_evidence v.2 ∧ (v.1.1 = true → existsb root_empty tr = true)).
Proof using Hclock.
  eapply wp_mono; [|apply readback_spec]. intros tr v (Htr & He & Hv). split; [done|]. split.
  - apply He; [done|]. split; [done|]. split; [done|]. by intros [].
  - intros Hm%Hv. by apply (observed_existsb _ _ _ _ Hm).
Qed.

(** A deletion sent after [pre], followed by its readback. *)
Lemma settleRemove_post pre w err data v evidence tr :
  Forall read_only pre → deletion_confirmed service target confirmation plan pre → Forall read_only tr →
  rmdDCSSendState data = removeSendState err → good_log evidence → Forall good_evidence v.2 →
  (v.1.1 = true → existsb root_empty tr = true) →
  wp (settleRemove service operationID target data err v evidence)
    (λ tr', remove_post service target confirmation plan (pre ++ Ev (CDeleteCluster target) (w, err) :: tr ++ tr')).
Proof using Hclock Hid Ht.
  intros Hpre Hc Htr Hsend He Hv Hverified. destruct v as [[verified [remaining revision]] ev].
  cbn in Hv, Hverified. assert (good_log (evidence ++ ev)) as Hlog by by apply good_log_app.
  assert (∀ r tr', Forall read_only tr' → Result_Validate r = None →
    (rOutcome r = Failed → remove_may_apply (w, err) = false) →
    (rOutcome r = Succeeded → verified = true) →
    remove_post service target confirmation plan (pre ++ Ev (CDeleteCluster target) (w, err) :: tr ++ tr') r) as Hpost.
  { intros r tr' Htr' Hr Hf Hs. split; [done|]. split; [|split; [|split; [|split]]].
    - intros Hq%Hf. apply Forall_app. split; [by apply Forall_read_only_quiet|]. constructor; [done|].
      by apply Forall_read_only_quiet, Forall_app.
    - intros Hq%Hs. rewrite existsb_app. cbn. rewrite existsb_app, Hverified by done. by rewrite !orb_true_r.
    - rewrite writes_app, (writes_read_only pre) by done. unfold writes. cbn.
      fold (writes (tr ++ tr')). rewrite writes_read_only by (by apply Forall_app). lia.
    - apply Forall_app. split; [by apply read_only_deletes|]. constructor; [done|]. by apply read_only_deletes, Forall_app.
    - intros _. destruct Hc as (s & Hin & Hrest). exists s. split; [|done]. apply elem_of_app. by left. }
  unfold settleRemove. cbv zeta. set (data' := if (_ <? _)%Z then _ else _).
  assert (rmdDCSSendState data' = removeSendState err) as Hd by (rewrite <- Hsend; subst data'; by destruct (_ <? _)%Z).
  assert (SendState_validOrEmpty (rmdDCSSendState data') = true) as Hvalid by (rewrite Hd; apply removeSendState_valid).
  destruct verified.
  - apply Hpost; try done. by apply valid_success.
  - rewrite Hd. destruct (bool_decide _) eqn:E; go_bool.
    + apply Hpost; try done; [|by intros; apply removeSendState_NotSent].
      apply valid_removeFailure; try done; [apply classifyReadError_definite|apply Hlog].
    + apply wp_bind. eapply wp_mono; [|apply cause_with_context_spec]. intros tr' cause [Htr' _]. cbn.
      rewrite app_nil_r. apply Hpost; try done. apply valid_removeUnknown; try done. apply Hlog.
Qed.

(** ** Lemmas: execution *)

(** A result of the reads [pre] alone. *)
Lemma remove_post_quiet tr r :
  Forall read_only tr → Result_Validate r = None → rOutcome r ≠ Succeeded →
  remove_post service target confirmation plan tr r.
Proof using Type.
  intros Htr Hr Hs. split; [done|]. split; [|split; [done|]]; [by intros; apply Forall_read_only_quiet|].
  rewrite writes_read_only by done. split; [lia|]. split; [by apply read_only_deletes|done].
Qed.

Lemma removeConfirmedRoot_post snapshot :
  version_gated service snapshot →
  plannedValue plan "remove.clusterName" = tScope target →
  plannedValue plan "remove.acknowledgement" = RemoveAcknowledgement →
  validateRemoveConfirmation plan confirmation = None →
  wp (removeConfirmedRoot service operationID target plan snapshot)
    (λ tr, remove_post service target confirmation plan (Ev (CSnapshot target) (inr snapshot) :: tr)).
Proof using Hclock Hid Ht.
  intros Hg Hname Hack Hconf. unfold removeConfirmedRoot. cbv zeta.
  set (read := Ev (CSnapshot target) _). set (evidence := [snapshotEvidence _ _ _]).
  assert (good_log evidence) as He by (by apply good_log_singleton, good_snapshotEvidence).
  destruct (is_nil (head (removeInventory snapshot))) eqn:Eempty.
  { split; [|split; [done|split; [|split; [cbn; lia|split; [by repeat constructor|done]]]]]; [|by cbn; rewrite Eempty].
    apply valid_success; try done. apply good_log_app; [done|]. by apply Forall_singleton, good_mkEvidence. }
  destruct (negb _ || _) eqn:E.
  { apply remove_post_quiet; [by repeat constructor| |done]. apply valid_removeFailure; try done. apply He. }
  unfold reflectStringSlices in E. apply orb_false_iff in E as [Ekeys Eleader]. go_bool.
  apply wp_call. intros [err|].
  { apply remove_post_quiet; [by repeat constructor| |done]. apply valid_removeFailure; try done. apply He. }
  destruct (negb (svcRemoverDCS service)).
  { apply remove_post_quiet; [by repeat constructor| |done]. apply valid_removeFailure; try done. apply He. }
  apply wp_call. intros [w err]. apply wp_bind.
  eapply wp_mono; [|by apply verifyRemove_post]. cbn. intros tr v (Htr & Hev & Hv).
  eapply wp_mono; [|eapply (settleRemove_post [read; Ev CCtxErr None] w err _ _ _ tr);
    [| |exact Htr| | |exact Hev|exact Hv]]; [done|..]; cbn; try done.
  - by repeat constructor.
  - exists snapshot. split; [apply list_elem_of_here|]. split; [done|]. split; [done|].
    unfold validateRemoveConfirmation in Hconf. rewrite Hname, Hack in Hconf.
    destruct confirmation as [name ack leader]. cbn in *. repeat case_match; go_bool; try done. by rewrite Eleader; congruence.
  - apply (good_log_app evidence); [done|]. apply Forall_singleton, good_mkEvidence; try done; [|apply removeSendState_valid].
    unfold removeDeleteSummary. by repeat case_match.
Qed.
End running.

(** A plan that passes its validator names the cluster and the acknowledgement. *)
Lemma validateRemovePlan_names `{GoStd} plan request :
  validateRemovePlan service plan request = None →
  plannedValue plan "remove.clusterName" = tScope (rqTarget request) ∧
  plannedValue plan "remove.acknowledgement" = RemoveAcknowledgement.
Proof using Type.
  unfold validateRemovePlan. destruct (Plan_Validate plan); [done|].
  destruct (negb (plan_contract _ _ _ _)); [done|]. destruct (_ !=s _); [done|].
  destruct (removeConfirmed plan request) eqn:E; [|done]. intros _.
  unfold removeConfirmed, fields_match in E. cbn in E. go_bool. unfold plannedValue.
  repeat match goal with H : expectedPrecondition _ _ = Some _ |- _ => rewrite H; clear H end. done.
Qed.

Lemma ExecuteRemove_post `{GoStd} ctx request confirmation plan :
  Target_Validate (rqTarget request) true = None →
  wp (ExecuteRemove service ctx request confirmation plan)
    (remove_post service (Normalize (rqTarget request)) confirmation plan).
Proof using Hclock.
  intros Ht. unfold ExecuteRemove. eapply wp_bind_read; [apply _|apply planOperationID_spec|]. intros id Hid.
  unfold normalizeRemoveRequest. cbv zeta. cbn [rqTarget].
  assert (Target_Validate (Normalize (rqTarget request)) true = None) as Hn by by rewrite Target_Validate_Normalize.
  set (target := Normalize (rqTarget request)) in *.
  assert (∀ message cause, message ≠ "" → wp (mret (failedRead service id "remove" target PathDCS CategoryUsage false message cause []))
            (remove_post service target confirmation plan)) as Hfail.
  { intros. apply remove_post_quiet; [by constructor| |done]. by apply valid_failedRead. }
  destruct (negb ctx); [by apply Hfail|]. destruct (negb (is_nil _)); [by apply Hfail|].
  destruct (validateRemovePlan _ _ _) eqn:Ep; [by apply Hfail|].
  destruct (validateRemoveConfirmation _ _) eqn:Ec; [by apply Hfail|].
  apply validateRemovePlan_names in Ep as [Hname Hack]. cbn [rqTarget] in Hname.
  apply wp_call. intros [err|snapshot].
  { apply remove_post_quiet; [by repeat constructor| |done].
    apply valid_removeFailure; try done. apply classifyReadError_definite. }
  destruct (checkSnapshotPatroniVersion _ _ _) eqn:Ev; [|by apply removeConfirmedRoot_post].
  apply remove_post_quiet; [by repeat constructor| |done]. by apply valid_unsupported.
Qed.

(** ** Lemmas: preparation *)

Lemma keys_refused_sorted previous keys :
  StronglySorted String.le keys → NoDup keys → Forall (λ key, TrimSpace key ≠ "") keys →
  (∀ p, previous = Some p → p ∉ keys) → keys_refused previous keys = false.
Proof using Type.
  intros _. revert previous. induction keys as [|key keys IH]; intros previous Hnd Hk Hp; [done|]. cbn.
  apply NoDup_cons in Hnd as [Hin Hnd]. apply Forall_cons in Hk as [Hkey Hk]. apply String.eqb_neq in Hkey. rewrite Hkey.
  rewrite bool_decide_eq_false_2; [|intros ->; by eapply Hp; [|apply list_elem_of_here]]. cbn.
  apply IH; [done..|]. by intros p [= <-].
Qed.

Lemma good_inventory_keys plan snapshot :
  good_inventory snapshot → expectedPrecondition plan "remove.keys" = Some (Marshal_strings (removeInventory snapshot)) →
  removePlanKeys plan = Some (removeInventory snapshot).
Proof using Type.
  intros (_ & Hnd & Hk) Hp. unfold removePlanKeys. rewrite Hp.
  assert (removeInventory snapshot ≡ₚ enRelativePath <$> snEntries snapshot) as Hperm by apply sort_strings_perm.
  rewrite Unmarshal_Marshal_strings.
  - unfold removeInventory at 1. rewrite sort_strings_sorted. cbn.
    rewrite keys_refused_sorted; [done|apply sort_strings_StronglySorted|by rewrite Hperm| |done].
    rewrite Hperm. eapply Forall_impl; [exact Hk|]. by intros key [_ ?].
  - rewrite Hperm. eapply Forall_impl; [exact Hk|]. by intros key [? _].
Qed.

Definition full_confirmation (target : Target) (snapshot : Snapshot) : RemoveConfirmation :=
  mkRemoveConfirmation (tScope target) RemoveAcknowledgement (removeLeader (snCluster snapshot)).

Lemma removePlan_accepted `{GoStd} operationID request snapshot binding :
  (∀ key message, String.length (hmac_sha256 key message) = 64%nat) →
  good_inventory snapshot → removeInventory snapshot ≠ [] →
  rqTarget request = Normalize (rqTarget request) →
  removePlanBinding service request (snRevision snapshot) (removeLeader (snCluster snapshot))
    (Marshal_strings (removeInventory snapshot)) = Some binding →
  Plan_Validate (removePlan operationID request snapshot binding) = None →
  validateRemovePlan service (removePlan operationID request snapshot binding) request = None ∧
  validateRemoveConfirmation (removePlan operationID request snapshot binding)
    (full_confirmation (rqTarget request) snapshot) = None.
Proof using Type.
  intros Hlen Hgood Hne Hnorm Hb Hv. set (plan := removePlan _ _ _ _) in *.
  assert (removePlanKeys plan = Some (removeInventory snapshot)) as Hkeys by by apply good_inventory_keys.
  assert (planRevision plan = Some (snRevision snapshot)) as Hrev.
  { destruct Hgood as [Hr _]. unfold planRevision. cbn. rewrite ParseInt_FormatInt by (unfold int64, min_int64; lia).
    by rewrite (proj2 (Z.ltb_lt _ _)) by lia. }
  split.
  - unfold validateRemovePlan. rewrite Hv. change (plan_contract plan "remove" PathDCS RiskDestructive) with true.
    change (pTarget plan) with (rqTarget request). rewrite <- Hnorm, String.eqb_refl. cbn [negb].
    assert (removeConfirmed plan request = true) as ->.
    { unfold removeConfirmed, fields_match. cbn. by rewrite !bool_decide_eq_true_2. }
    cbn [negb]. rewrite Hkeys, Hrev. destruct (removeInventory snapshot) as [|key keys] eqn:E; [done|].
    change (plannedValue plan "remove.leader") with (removeLeader (snCluster snapshot)). rewrite Hb.
    change (expectedPrecondition plan "remove.binding") with (Some binding).
    unfold removePlanBinding, planToken in Hb. destruct (Marshal_struct _); simplify_eq/=.
    unfold token_length. by rewrite Hlen, String.eqb_refl.
  - unfold validateRemoveConfirmation. cbn. by rewrite !String.eqb_refl.
Qed.

(** What a removal plan promises. *)
Definition remove_prepared `{GoStd} (request : RemoveRequest) (tr : list event) (r : Result Plan) : Prop :=
  Forall read_only tr ∧ Result_Validate r = None ∧
  (rOutcome r = Succeeded → ∃ snapshot,
     Ev (CSnapshot (rqTarget request)) (inr snapshot) ∈ tr ∧ version_gated service snapshot ∧
     removeInventory snapshot ≠ [] ∧
     (good_inventory snapshot →
      validateRemovePlan service (rData r) request = None ∧
      validateRemoveConfirmation (rData r) (full_confirmation (rqTarget request) snapshot) = None)).

Lemma PrepareRemove_post `{GoStd} ctx request :
  (∀ key message, String.length (hmac_sha256 key message) = 64%nat) →
  Target_Validate (rqTarget request) true = None →
  wp (PrepareRemove service ctx request) (remove_prepared (normalizeRemoveRequest request).1).
Proof using Hclock.
  intros Hlen Ht. unfold PrepareRemove. apply wp_bind.
  eapply wp_mono; [|apply operationID_spec]. intros pre id [Hpre Hid]. cbv beta.
  unfold normalizeRemoveRequest. cbv zeta. cbn [rqTarget fst].
  assert (Target_Validate (Normalize (rqTarget request)) true = None) as Hn by by rewrite Target_Validate_Normalize.
  assert (Normalize (Normalize (rqTarget request)) = Normalize (rqTarget request)) as Hidem by apply Normalize_idem.
  set (target := Normalize (rqTarget request)) in *. set (request' := mkRemoveRequest target (rqCitus request)).
  assert (∀ tr category retryable message cause evidence,
    Forall read_only tr → definite category → message ≠ "" → Forall good_evidence evidence →
    remove_prepared request' (pre ++ tr)
      (failedRead service id "remove" target PathDCS category retryable message cause evidence)) as Hfail.
  { intros. split; [by apply Forall_app|]. split; [by apply valid_failedRead|done]. }
  destruct (negb ctx); [by apply (Hfail [])|]. destruct (negb (is_nil _)); [by apply (Hfail [])|].
  apply wp_call. intros [err|snapshot].
  { pose proof (classifyReadError_definite (Some err)). destruct (classifyReadError (Some err)).
    apply Hfail; try done. by repeat constructor. }
  assert (∀ text, text ≠ "" → Forall good_evidence [snapshotEvidence service snapshot text]) as Hev
    by (intros; by apply Forall_singleton, good_snapshotEvidence).
  destruct (checkSnapshotPatroniVersion _ _ _) as [err|] eqn:Ever.
  { split; [apply Forall_app; by repeat constructor|]. split; [by apply valid_unsupported|done]. }
  destruct (is_nil (head (removeInventory snapshot))) eqn:Ek; [by apply Hfail; try done; [by repeat constructor|by apply Hev]|].
  fold request'. destruct (removePlanBinding _ _ _ _ _) as [binding|] eqn:Eb; [|by apply Hfail; repeat constructor].
  destruct (Plan_Validate _) as [err|] eqn:Ep; [by apply Hfail; try done; [by repeat constructor|by apply Hev]|].
  assert (removeInventory snapshot ≠ []) as Hne by (intros E; by rewrite E in Ek).
  split; [apply Forall_app; by repeat constructor|]. split.
  { apply valid_success; try done. split; [done|by apply Hev]. }
  intros _. exists snapshot. split; [apply elem_of_app; right; by apply list_elem_of_singleton|].
  split; [done|]. split; [done|]. intros Hgood. by apply removePlan_accepted.
Qed.
End lemmas.

(** ** Properties *)

(** C11: whatever the DCS answers, [ExecuteRemove] on a valid cluster target
    returns a valid result; it asks for at most one change, the deletion of the
    target's root, and only when the operator typed the cluster name, the acknowledgement and the current leader, and a
    fresh, version-checked snapshot holds exactly the planned keys; SUCCEEDED
    means a snapshot showed the root empty, and FAILED that nothing was
    deleted. *)
Theorem ExecuteRemove_confirmed `{GoStd} service ctx request confirmation plan :
  clock_set service → Target_Validate (rqTarget request) true = None →
  wp (ExecuteRemove service ctx request confirmation plan)
    (remove_post service (Normalize (rqTarget request)) confirmation plan).
Proof. intros. by apply ExecuteRemove_post. Qed.

(** A cluster with three keys, and nothing left after a deletion. *)
Definition stored : Snapshot :=
  mkSnapshot sample_target "/service/pg" 7
    (sort_by enKey ((λ k, mkEntry ("/service/pg/" +:+ k) k (ClassifyRelativePath k) 1 2 1 0 "") <$>
      ["leader"; "config"; "members/n1"]))
    (sample_cluster "n1" [] None) [].

Definition removed : Snapshot := mkSnapshot sample_target "/service/pg" 8 [] zero [].

Lemma ExecuteRemove_confirmed_witness :
  let request := mkRemoveRequest sample_target false in
  let plan := prepared_plan stored (PrepareRemove sample_service true request) in
  let confirmation := mkRemoveConfirmation "pg" "Yes I am aware" "n1" in
  let r := run (answers stored removed silence applied) []
             (ExecuteRemove sample_service true request confirmation plan) in
  (rOutcome r.2 = Succeeded ∧ writes r.1 = 1%nat) ∧
  remove_post sample_service (Normalize sample_target) confirmation plan r.1 r.2.
Proof.
  split; [vm_compute; split; reflexivity|]. apply wp_run, ExecuteRemove_confirmed; vm_compute; reflexivity.
Defined.

(** [PrepareRemove] only reads and returns a valid result, and a plan it
    returns passes the validator of [ExecuteRemove] for the same request on the
    same service, with the confirmation it asks for, when the inventory is one
    that JSON text keeps (distinct, non-blank keys of valid UTF-8) and tokens
    have the length of a SHA-256 in hex. *)
Theorem PrepareRemove_executable `{GoStd} service ctx request :
  clock_set service → (∀ key message, String.length (hmac_sha256 key message) = 64%nat) →
  Target_Validate (rqTarget request) true = None →
  wp (PrepareRemove service ctx request) (remove_prepared service (normalizeRemoveRequest request).1).
Proof. intros. by apply PrepareRemove_post. Qed.

Lemma PrepareRemove_executable_witness :
  let request := mkRemoveRequest sample_target false in
  let r := run (answers stored removed silence applied) [] (PrepareRemove sample_service true request) in
  rOutcome r.2 = Succeeded ∧ remove_prepared sample_service (normalizeRemoveRequest request).1 r.1 r.2.
Proof.
  split; [vm_compute; reflexivity|].
  apply wp_run, PrepareRemove_executable; [vm_compute; reflexivity|intros; reflexivity|vm_compute; reflexivity].
Defined.
