(* ===== verification/ConfigPatch.v ===== *)
(** * Dynamic configuration edits: the pure part of [control/edit_config.go]

    [PreviewEditConfig] applies a replacement, a recursive patch and a list of
    dotted-path settings to the current configuration, and lists the paths
    that changed.

    Go ranges over a map in random order; a patch is an association list here
    and [applyPatroniConfigPatch_order] shows that its order does not matter.  Every model value
    is of a kind [cloneConfigValue] copies as it is, so copying is the
    identity. *)

From S2P Require Import Prelude GoStrings GoErrors Values Json JsonLaws Samples.

(** ** Maps *)

(** [delete(configuration, key)] *)
Definition map_delete (m : config) (key : string) : config := List.filter (λ kv, kv.1 !=s key) m.

Definition map_assign (m : config) (key : string) (v : option value) : config :=
  match v with Some v => map_set m key v | None => map_delete m key end.

(** Every map has one entry per key, as a Go map does. *)
Fixpoint distinct_keys (v : value) : Prop :=
  match v with
  | VList items => foldr (λ v P, distinct_keys v ∧ P) True items
  | VMap fields => NoDup (fst <$> fields) ∧ foldr (λ kv P, distinct_keys kv.2 ∧ P) True fields
  | _ => True
  end.

(** ** Comparison *)

Section with_std.
  Context `{GoStd}.

Definition canonicalConfigEqual (left right : value) : bool :=
  match Marshal left, Marshal right with Some l, Some r => l ==s r | _, _ => false end.

Definition isConfigComposite (v : value) : bool := match v with VList _ | VMap _ => true | _ => false end.

Definition is_map (v : value) : bool := match v with VMap _ => true | _ => false end.

Definition patroniScalarString (v : value) : string :=
  match v with
  | VBool b => if b then "True" else "False"
  | VNull => "None"
  | _ => Sprint v
  end.

Definition patroniConfigValuesEquivalent (left right : value) : bool :=
  if is_map left then canonicalConfigEqual left right
  else if is_map right then false
  else if isConfigComposite left || isConfigComposite right then canonicalConfigEqual left right
  else patroniScalarString left ==s patroniScalarString right.

(** ** The recursive patch *)

(** What a key holds after its patch value is applied; [None] is absence. *)
Fixpoint patch_value (v : value) (current : option value) : option value :=
  match v with
  | VNull => None
  | VMap fields =>
      match current with
      | Some (VMap m) =>
          Some (VMap (foldl (λ m kv, map_assign m kv.1 (patch_value kv.2 (map_get m kv.1))) m fields))
      | _ => Some (VMap fields)
      end
  | v =>
      match current with
      | Some c => if patroniConfigValuesEquivalent c v then Some c else Some v
      | None => Some v
      end
  end.

Definition patch_step (m : config) (kv : string * value) : config :=
  map_assign m kv.1 (patch_value kv.2 (map_get m kv.1)).

Definition applyPatroniConfigPatch (configuration patch : config) : config :=
  foldl patch_step configuration patch.

(** ** Dotted paths *)

(** [len(prefix) == 2 && prefix[0] == "postgresql" && prefix[1] == "parameters"] *)
Definition at_parameters (prefix : list string) : bool := bool_decide (prefix = ["postgresql"; "parameters"]).

Definition child_map (m : config) (key : string) : config :=
  match map_get m key with Some (VMap child) => child | _ => [] end.

Definition set_leaf (m : config) (key : string) (v : value) : config :=
  match v with VNull => map_delete m key | _ => map_set m key v end.

Definition set_child (m : config) (key : string) (child : config) : config :=
  match child with [] => map_delete m key | _ => map_set m key (VMap child) end.

Fixpoint setPatroniConfigPath (m : config) (path : list string) (v : value) (prefix : list string) : config :=
  match path with
  | [] => m
  | key :: rest =>
      if at_parameters prefix then set_leaf m (Join path ".") v
      else match rest with
           | [] => set_leaf m key v
           | _ => set_child m key (setPatroniConfigPath (child_map m key) rest v (prefix ++ [key]))
           end
  end.

Record ConfigSetting := mkSetting { settingPath : string; settingValue : value }.

Definition applyPatroniConfigSetting (m : config) (setting : ConfigSetting) : config :=
  setPatroniConfigPath m (Split "." (TrimSpace (settingPath setting))) (settingValue setting) [].

(** ** Changed paths *)

(** The nesting of maps: enough recursion for [collectChangedConfigPaths]. *)
Fixpoint depth (v : value) : nat :=
  match v with
  | VMap fields => S (foldr (λ kv n, Nat.max (depth kv.2) n) O fields)
  | _ => O
  end.

Definition ordered_keys (before after : config) : list string :=
  sort_strings (remove_dups ((fst <$> before) ++ (fst <$> after))).

Definition sub_path (prefix key : string) : string := if prefix ==s "" then key else prefix +:+ "." +:+ key.

Definition same_presence {A B} (l : option A) (r : option B) : bool := Bool.eqb (is_nil l) (is_nil r).

Fixpoint collectChangedConfigPaths (fuel : nat) (before after : config) (prefix : string) : list string :=
  match fuel with
  | O => []
  | S fuel =>
      mjoin ((λ key,
        let path := sub_path prefix key in
        match map_get before key, map_get after key with
        | Some (VMap l), Some (VMap r) => collectChangedConfigPaths fuel l r path
        | l, r =>
            if same_presence l r && canonicalConfigEqual (deref VNull l) (deref VNull r) then []
            else match l, r with
            | None, Some (VMap ((_ :: _) as r)) => collectChangedConfigPaths fuel [] r path
            | Some (VMap ((_ :: _) as l)), None => collectChangedConfigPaths fuel l [] path
            | _, _ => [path]
            end
        end) <$> ordered_keys before after)
  end.

Definition changedConfigPaths (before after : config) : list string :=
  sort_strings (collectChangedConfigPaths (Nat.max (depth (VMap before)) (depth (VMap after))) before after "").

(** ** Preview *)

Record ConfigEdit := mkConfigEdit {
  ceReplacement : option config;
  ceApply : option config;
  ceSettings : list ConfigSetting
}.

Record ConfigEditPreview := mkPreview {
  pvBefore : config;
  pvAfter : config;
  pvChangedPaths : list string;
  pvNoop : bool
}.

Definition edit_requested (edit : ConfigEdit) : bool :=
  negb (is_nil (ceReplacement edit)) || negb (is_nil (ceApply edit)) || negb (is_nil (head (ceSettings edit))).

Definition edited (current : config) (edit : ConfigEdit) : config :=
  let after := deref current (ceReplacement edit) in
  let after := match ceApply edit with Some patch => applyPatroniConfigPatch after patch | None => after end in
  foldl applyPatroniConfigSetting after (ceSettings edit).

Definition PreviewEditConfig (current : config) (edit : ConfigEdit) : goerror + ConfigEditPreview :=
  if negb (edit_requested edit)
  then inl (EText "edit-config requires replacement, apply patch, or settings")
  else
    let after := edited current edit in
    let changed := changedConfigPaths current after in
    inr (mkPreview current after changed (is_nil (head changed))).

End with_std.

(** ** Maps up to the order of their entries *)

Definition same_map (m m' : config) : Prop := ∀ key, map_get m key = map_get m' key.

#[export] Instance same_map_equivalence : Equivalence same_map.
Proof. split; [done|by intros m m' H key|intros m1 m2 m3 H12 H23 key; by rewrite H12]. Qed.

#[export] Instance map_get_proper : Proper (same_map ==> eq ==> eq) map_get.
Proof. intros m m' H key _ <-. apply H. Qed.

Lemma map_get_cons k v m key : map_get ((k, v) :: m) key = if k ==s key then Some v else map_get m key.
Proof. unfold map_get, find_first. cbn. by destruct (k ==s key). Qed.

Lemma map_get_set m k v key : map_get (map_set m k v) key = if k ==s key then Some v else map_get m key.
Proof.
  induction m as [|[k' v'] m IH]; cbn [map_set]; [by rewrite map_get_cons|].
  destruct (String.eqb_spec k' k) as [->|Hne]; rewrite !map_get_cons; [by destruct (k ==s key)|].
  rewrite IH. destruct (String.eqb_spec k' key) as [->|], (String.eqb_spec k key) as [->|]; done.
Qed.

Lemma map_delete_cons k' v m k :
  map_delete ((k', v) :: m) k = if k' ==s k then map_delete m k else (k', v) :: map_delete m k.
Proof. unfold map_delete. cbn. by destruct (k' ==s k). Qed.

Lemma map_get_delete m k key : map_get (map_delete m k) key = if k ==s key then None else map_get m key.
Proof.
  induction m as [|[k' v'] m IH]; [by cbn; destruct (k ==s key)|]. rewrite map_delete_cons, map_get_cons.
  destruct (String.eqb_spec k' k) as [->|Hne]; rewrite ?map_get_cons, IH.
  - by destruct (k ==s key).
  - destruct (String.eqb_spec k' key) as [->|], (String.eqb_spec k key) as [->|]; done.
Qed.

Lemma map_get_assign m k o key : map_get (map_assign m k o) key = if k ==s key then o else map_get m key.
Proof. destruct o; [apply map_get_set|apply map_get_delete]. Qed.

#[export] Hint Rewrite map_get_cons map_get_set map_get_delete map_get_assign : go.

#[export] Instance map_set_proper : Proper (same_map ==> eq ==> eq ==> same_map) map_set.
Proof. intros m m' H k _ <- v _ <- key. by rewrite !map_get_set, H. Qed.

#[export] Instance map_delete_proper : Proper (same_map ==> eq ==> same_map) map_delete.
Proof. intros m m' H k _ <- key. by rewrite !map_get_delete, H. Qed.

#[export] Instance map_assign_proper : Proper (same_map ==> eq ==> eq ==> same_map) map_assign.
Proof. intros m m' H k _ <- o _ <- key. by rewrite !map_get_assign, H. Qed.

Lemma map_get_None m key : map_get m key = None ↔ key ∉ fst <$> m.
Proof.
  induction m as [|[k v] m IH]; [split; [intros _; by apply not_elem_of_nil|done]|].
  rewrite map_get_cons. cbn. rewrite not_elem_of_cons, <- IH.
  destruct (String.eqb_spec k key) as [->|]; naive_solver.
Qed.

Lemma map_get_elem m key v : NoDup (fst <$> m) → map_get m key = Some v ↔ (key, v) ∈ m.
Proof.
  induction m as [|[k w] m IH]; cbn; [split; [done|by intros ?%not_elem_of_nil]|]. intros [Hin Hnd]%NoDup_cons.
  rewrite map_get_cons, elem_of_cons, <- (IH Hnd). destruct (String.eqb_spec k key) as [->|]; [|naive_solver].
  apply map_get_None in Hin. split; [intros [= ->]; by left|].
  intros [[= ->]|Hm]; [done|]. congruence.
Qed.

Lemma same_map_perm m m' : NoDup (fst <$> m) → m ≡ₚ m' → same_map m m'.
Proof.
  intros Hnd Hp key. assert (NoDup (fst <$> m')) as Hnd' by by rewrite <- Hp.
  apply option_eq. intros v. by rewrite !map_get_elem, Hp.
Qed.

Lemma map_delete_keys m k : NoDup (fst <$> m) → NoDup (fst <$> map_delete m k).
Proof.
  induction m as [|[k' w] m IH]; [done|]. rewrite map_delete_cons. cbn [fmap list_fmap fst]. intros [Hin Hnd]%NoDup_cons.
  destruct (String.eqb_spec k' k) as [->|Hne]; cbn; [by apply IH|]. apply NoDup_cons. split; [|by apply IH].
  apply map_get_None. apply map_get_None in Hin. rewrite map_get_delete. by destruct (k ==s k').
Qed.

Lemma map_assign_keys m k o : NoDup (fst <$> m) → NoDup (fst <$> map_assign m k o).
Proof. destruct o; [apply map_set_NoDup|apply map_delete_keys]. Qed.

(** ** Lemmas: the patch *)

Section lemmas.
Context `{GoStd}.

(** One level of a patch, key by key. *)
Lemma patch_get m patch key :
  NoDup (fst <$> patch) →
  map_get (applyPatroniConfigPatch m patch) key
    = match map_get patch key with Some v => patch_value v (map_get m key) | None => map_get m key end.
Proof.
  unfold applyPatroniConfigPatch. revert m. induction patch as [|[k v] patch IH]; intros m Hnd; [done|].
  cbn in Hnd. apply NoDup_cons in Hnd as [Hin Hnd]. cbn [foldl]. rewrite IH by done. unfold patch_step. cbn [fst snd].
  rewrite map_get_cons, map_get_assign. destruct (String.eqb_spec k key) as [->|]; [|done].
  by apply map_get_None in Hin as ->.
Qed.

#[local] Instance patch_proper : Proper (same_map ==> eq ==> same_map) applyPatroniConfigPatch.
Proof.
  intros m m' Hm patch _ <-. unfold applyPatroniConfigPatch. revert m m' Hm.
  induction patch as [|[k v] patch IH]; intros m m' Hm; [done|]. cbn. apply IH. unfold patch_step. cbn.
  by rewrite Hm.
Qed.

Lemma patch_keys m patch : NoDup (fst <$> m) → NoDup (fst <$> applyPatroniConfigPatch m patch).
Proof.
  unfold applyPatroniConfigPatch. revert m. induction patch as [|kv patch IH]; intros m Hm; [done|].
  cbn. by apply IH, map_assign_keys.
Qed.

(** ** Lemmas: dotted paths *)

(** What a path reads, with the rule for [postgresql.parameters]. *)
Fixpoint get_path (m : config) (path prefix : list string) : option value :=
  match path with
  | [] => None
  | key :: rest =>
      if at_parameters prefix then map_get m (Join path ".")
      else match rest with
           | [] => map_get m key
           | _ => get_path (child_map m key) rest (prefix ++ [key])
           end
  end.

(** Neither path leads through the other. *)
Fixpoint diverging (path path' prefix : list string) : bool :=
  match path, path' with
  | key :: rest, key' :: rest' =>
      if at_parameters prefix then Join path "." !=s Join path' "."
      else if key ==s key' then
        match rest, rest' with
        | _ :: _, _ :: _ => diverging rest rest' (prefix ++ [key])
        | _, _ => false
        end
      else true
  | _, _ => false
  end.

Definition present (v : value) : option value := match v with VNull => None | _ => Some v end.

Lemma get_set_leaf m k v key : map_get (set_leaf m k v) key = if k ==s key then present v else map_get m key.
Proof using Type. destruct v; cbn [set_leaf present]; autorewrite with go; done. Qed.

Lemma get_set_child m k child key :
  map_get (set_child m k child) key
    = if k ==s key then match child with [] => None | _ => Some (VMap child) end else map_get m key.
Proof using Type. destruct child; cbn [set_child]; autorewrite with go; done. Qed.

Lemma child_set_child m k child key :
  child_map (set_child m k child) key = if k ==s key then child else child_map m key.
Proof using Type. unfold child_map. rewrite get_set_child. by destruct (k ==s key), child. Qed.

Lemma get_set_path m path v prefix :
  path ≠ [] → get_path (setPatroniConfigPath m path v prefix) path prefix = present v.
Proof using Type.
  revert m prefix. induction path as [|key rest IH]; intros m prefix Hne; [done|].
  cbn [setPatroniConfigPath get_path]. destruct (at_parameters prefix) eqn:Ep.
  { by rewrite get_set_leaf, String.eqb_refl. }
  destruct rest as [|key' rest]; [by rewrite get_set_leaf, String.eqb_refl|].
  rewrite child_set_child, String.eqb_refl. by apply IH.
Qed.

Lemma get_set_path_other m path path' v prefix :
  diverging path path' prefix = true →
  get_path (setPatroniConfigPath m path v prefix) path' prefix = get_path m path' prefix.
Proof using Type.
  revert m path' prefix. induction path as [|key rest IH]; intros m [|key' rest'] prefix; try done.
  cbn [diverging setPatroniConfigPath get_path]. destruct (at_parameters prefix) eqn:Ep.
  { intros Hne. go_bool. rewrite get_set_leaf. by apply String.eqb_neq in Hne as ->. }
  destruct (String.eqb_spec key key') as [<-|Hne].
  - destruct rest as [|k rest], rest' as [|k' rest']; try done. intros Hd.
    rewrite child_set_child, String.eqb_refl. by apply IH.
  - intros _. apply String.eqb_neq in Hne. destruct rest as [|k rest].
    + rewrite get_set_leaf, Hne. destruct rest'; [done|]. unfold child_map. by rewrite get_set_leaf, Hne.
    + rewrite get_set_child, Hne. destruct rest'; [done|]. by rewrite child_set_child, Hne.
Qed.

Lemma set_path_keys m path v prefix : NoDup (fst <$> m) → NoDup (fst <$> setPatroniConfigPath m path v prefix).
Proof using Type.
  intros Hm. assert (∀ k w, NoDup (fst <$> set_leaf m k w)) as Hleaf.
  { intros k w. destruct w; cbn; by (apply map_delete_keys || apply map_set_NoDup). }
  destruct path as [|key rest]; [done|]. cbn [setPatroniConfigPath].
  destruct (at_parameters prefix); [done|]. destruct rest; [done|].
  unfold set_child. destruct (setPatroniConfigPath _ _ _ _); by (apply map_delete_keys || apply map_set_NoDup).
Qed.

(** ** Lemmas: JSON text of equal maps *)

(** Both values have the same JSON text. *)
Definition same_text (v v' : value) : Prop := ∃ text, Marshal v = Some text ∧ Marshal v' = Some text.

Lemma canonicalConfigEqual_text v v' : canonicalConfigEqual v v' = true ↔ same_text v v'.
Proof.
  unfold canonicalConfigEqual, same_text. destruct (Marshal v) as [t|], (Marshal v') as [t'|]; try naive_solver.
  rewrite String.eqb_eq. naive_solver.
Qed.

(** Key by key, both absent or the same text. *)
Definition same_texts (m m' : config) : Prop :=
  ∀ key, match map_get m key, map_get m' key with
         | Some v, Some v' => same_text v v'
         | None, None => True
         | _, _ => False
         end.

Definition text_of (kv : string * value) : string * string := (kv.1, deref "" (Marshal kv.2)).

Lemma marshal_pairs m :
  Forall (λ kv, is_nil (Marshal kv.2) = false) m →
  mapM (λ kv, option_map (pair kv.1) (Marshal kv.2)) m = Some (text_of <$> m).
Proof.
  induction 1 as [|[k v] m Hv _ IH]; [done|]. cbn. rewrite IH. unfold text_of. cbn in *.
  by destruct (Marshal v).
Qed.

Lemma same_texts_text m m' :
  NoDup (fst <$> m) → NoDup (fst <$> m') → same_texts m m' → same_text (VMap m) (VMap m').
Proof.
  intros Hm Hm' Hs.
  assert (∀ m m', NoDup (fst <$> m) → NoDup (fst <$> m') → same_texts m m' → ∀ kv, kv ∈ m →
            is_nil (Marshal kv.2) = false ∧ text_of kv ∈ text_of <$> m') as Hin.
  { clear. intros m m' Hm Hm' Hs [k v] Hkv. specialize (Hs k). cbn.
    apply map_get_elem in Hkv; [|done]. rewrite Hkv in Hs. destruct (map_get m' k) as [v'|] eqn:E; [|done].
    destruct Hs as (t & Ht & Ht'). rewrite Ht. split; [done|]. apply map_get_elem in E; [|done].
    apply list_elem_of_fmap. exists (k, v'). split; [|done]. unfold text_of. cbn. by rewrite Ht, Ht'. }
  assert (same_texts m' m) as Hs'.
  { intros key. specialize (Hs key). destruct (map_get m key), (map_get m' key); try done.
    destruct Hs as (t & ? & ?). by exists t. }
  assert (∀ m, NoDup (fst <$> m) → NoDup (fst <$> (text_of <$> m))) as Hkeys
    by (intros; by rewrite <- list_fmap_compose).
  assert (text_of <$> m ≡ₚ text_of <$> m') as Hp.
  { apply NoDup_Permutation; [by eapply NoDup_fmap_1, Hkeys..|]. intros x. split; intros (kv & -> & Hkv)%list_elem_of_fmap.
    - by apply (Hin m m').
    - by apply (Hin m' m). }
  assert (∀ m m', NoDup (fst <$> m) → NoDup (fst <$> m') → same_texts m m' →
    Forall (λ kv, is_nil (Marshal kv.2) = false) m) as Hall
    by (intros m1 m2 ? ? ?; apply Forall_forall; intros kv Hkv; exact (proj1 (Hin m1 m2 ltac:(done) ltac:(done) ltac:(done) kv Hkv))).
  eexists. cbn [Marshal]. rewrite (marshal_pairs m (Hall m m' Hm Hm' Hs)), (marshal_pairs m' (Hall m' m Hm' Hm Hs')). cbn.
  split; [done|]. by rewrite (sort_by_unique fst _ _ (Hkeys m Hm) Hp).
Qed.

(** ** Lemmas: changed paths *)

Lemma distinct_keys_get m key v : distinct_keys (VMap m) → map_get m key = Some v → distinct_keys v.
Proof using Type.
  cbn. intros [_ Hf]. induction m as [|[k w] m IH]; [done|]. rewrite map_get_cons. cbn in Hf. destruct Hf as [Hw Hf].
  destruct (k ==s key); [by intros [= <-]|by apply IH].
Qed.

Lemma distinct_keys_top m : distinct_keys (VMap m) → NoDup (fst <$> m).
Proof using Type. by intros [? _]. Qed.

Lemma depth_get m key v : map_get m key = Some v → (depth v < depth (VMap m))%nat.
Proof using Type.
  cbn. induction m as [|[k w] m IH]; [done|]. rewrite map_get_cons. cbn.
  destruct (k ==s key); [intros [= <-]; lia|]. intros ?%IH. lia.
Qed.

Lemma ordered_keys_elem before after key :
  key ∈ ordered_keys before after ↔ map_get before key ≠ None ∨ map_get after key ≠ None.
Proof using Type.
  unfold ordered_keys. rewrite sort_strings_perm, elem_of_remove_dups, elem_of_app, !map_get_None.
  split; intros [?|?]; [left; tauto|right; tauto|left|right]; by apply dec_stable.
Qed.

Lemma mjoin_nil {A} (ls : list (list A)) l : mjoin ls = [] → l ∈ ls → l = [].
Proof using Type.
  induction ls as [|l' ls IH]; [by intros _ ?%not_elem_of_nil|]. cbn. intros [-> Hj]%app_eq_nil.
  intros [->|Hl]%elem_of_cons; [done|by apply IH].
Qed.

Lemma collect_nil fuel m m' prefix :
  distinct_keys (VMap m) → distinct_keys (VMap m') → (Nat.max (depth (VMap m)) (depth (VMap m')) ≤ fuel)%nat →
  collectChangedConfigPaths fuel m m' prefix = [] → same_texts m m'.
Proof.
  revert m m' prefix. induction fuel as [|fuel IH]; intros m m' prefix Hm Hm' Hd Hc key.
  { destruct m; cbn in Hd; lia. }
  destruct (decide (key ∈ ordered_keys m m')) as [Hin|Hout].
  2:{ rewrite ordered_keys_elem in Hout. destruct (map_get m key), (map_get m' key); naive_solver. }
  cbn [collectChangedConfigPaths] in Hc.
  pose proof (mjoin_nil _ _ Hc (list_elem_of_fmap_2 _ _ _ Hin)) as Hk. cbv beta zeta in Hk. clear Hc.
  set (path := sub_path prefix key) in Hk.
  assert (∀ m0 k v, map_get m0 k = Some v → (depth (VMap m0) ≤ S fuel)%nat → (depth v ≤ fuel)%nat) as Hdepth.
  { intros m0 k v Hv. pose proof (depth_get _ _ _ Hv). lia. }
  assert (∀ r, distinct_keys (VMap r) → (depth (VMap r) ≤ fuel)%nat → same_texts [] r ∨ same_texts r [] → r = []) as Hempty.
  { intros [|[k v] r] _ _ Hr; [done|]. destruct Hr as [Hr|Hr]; specialize (Hr k);
      by rewrite map_get_cons, String.eqb_refl in Hr. }
  assert (depth (VMap []) ≤ fuel ∨ fuel = 0)%nat as Hnil by (cbn; lia).
  destruct (map_get m key) as [v|] eqn:E, (map_get m' key) as [v'|] eqn:E'; [..|done].
  - assert ((∃ l r, v = VMap l ∧ v' = VMap r) ∨ canonicalConfigEqual v v' = true) as [(l & r & -> & ->)|He].
    { destruct v as [| | | | | |[|]], v' as [| | | | | |[|]]; try (left; eexists _, _; split; reflexivity);
        right; cbn [same_presence is_nil Bool.eqb andb deref] in Hk; by destruct (canonicalConfigEqual _ _). }
    + pose proof (distinct_keys_get _ _ _ Hm E) as Hl. pose proof (distinct_keys_get _ _ _ Hm' E') as Hr.
      apply same_texts_text; [by apply distinct_keys_top..|].
      eapply IH; [done..| |exact Hk].
      pose proof (Hdepth _ _ _ E ltac:(lia)). pose proof (Hdepth _ _ _ E' ltac:(lia)). lia.
    + by apply canonicalConfigEqual_text.
  - cbn [same_presence is_nil Bool.eqb andb] in Hk.
    assert (∃ l, v = VMap l ∧ l ≠ [] ∧ collectChangedConfigPaths fuel l [] path = []) as (l & -> & Hl & Hc)
      by (destruct v as [| | | | | |[|]]; naive_solver).
    pose proof (distinct_keys_get _ _ _ Hm E). pose proof (Hdepth _ _ _ E ltac:(lia)).
    apply Hl, Hempty; [done..|]. right. eapply IH; [done| |cbn in *; lia|done]. by repeat constructor.
  - cbn [same_presence is_nil Bool.eqb andb] in Hk.
    assert (∃ l, v' = VMap l ∧ l ≠ [] ∧ collectChangedConfigPaths fuel [] l path = []) as (l & -> & Hl & Hc)
      by (destruct v' as [| | | | | |[|]]; naive_solver).
    pose proof (distinct_keys_get _ _ _ Hm' E'). pose proof (Hdepth _ _ _ E' ltac:(lia)).
    apply Hl, Hempty; [done..|]. left. eapply IH; [|done|cbn in *; lia|done]. by repeat constructor.
Qed.

Lemma changedConfigPaths_nil before after :
  distinct_keys (VMap before) → distinct_keys (VMap after) → changedConfigPaths before after = [] →
  same_text (VMap before) (VMap after).
Proof.
  intros Hb Ha Hc. apply same_texts_text; [apply Hb|apply Ha|]. eapply collect_nil; [done..|].
  unfold changedConfigPaths in Hc. eapply Permutation_nil_r. by rewrite <- Hc, sort_strings_perm.
Qed.

(** ** Lemmas: edits keep one entry per key *)

Lemma distinct_keys_map m :
  distinct_keys (VMap m) ↔ NoDup (fst <$> m) ∧ ∀ kv, kv ∈ m → distinct_keys kv.2.
Proof using Type.
  cbn. apply and_iff_compat_l. induction m as [|kv m IH]; cbn.
  - split; [by intros _ kv ?%not_elem_of_nil|done].
  - rewrite IH. split; [by intros [H1 H2] kv' [->|?]%elem_of_cons; auto|].
    intros Hm. split; [apply Hm, list_elem_of_here|]. intros kv' Hin. by apply Hm, list_elem_of_further.
Qed.

(** A value that survives a round trip has one entry per key. *)
Lemma wire_distinct v : wire v → distinct_keys v.
Proof using Type.
  induction v as [| | | | |items IH|fields IH] using value_induction; try done.
  - intros Hw. apply (foldr_and_Forall wire) in Hw. apply (foldr_and_Forall distinct_keys).
    induction IH; inversion Hw; constructor; auto.
  - intros [Hnd Hw]. apply (foldr_and_Forall (λ kv, valid_utf8 kv.1 = true ∧ wire kv.2)) in Hw.
    apply distinct_keys_map. split; [done|]. apply Forall_forall. clear Hnd. induction IH; inversion Hw; subst; constructor; intuition auto.
Qed.

Lemma distinct_keys_values m :
  NoDup (fst <$> m) → (∀ key v, map_get m key = Some v → distinct_keys v) → distinct_keys (VMap m).
Proof using Type.
  intros Hnd Hv. apply distinct_keys_map. split; [done|]. intros [k v] Hin. apply (Hv k).
  by apply map_get_elem.
Qed.

Lemma distinct_assign m k o :
  distinct_keys (VMap m) → (∀ v, o = Some v → distinct_keys v) → distinct_keys (VMap (map_assign m k o)).
Proof using Type.
  intros Hm Ho. apply distinct_keys_values; [by apply map_assign_keys, distinct_keys_top|].
  intros key v. rewrite map_get_assign. destruct (k ==s key); [apply Ho|by apply distinct_keys_get].
Qed.

Lemma patch_fold_distinct m patch :
  distinct_keys (VMap m) →
  (∀ kv cur r, kv ∈ patch → (∀ c, cur = Some c → distinct_keys c) → patch_value kv.2 cur = Some r → distinct_keys r) →
  distinct_keys (VMap (foldl patch_step m patch)).
Proof.
  revert m. induction patch as [|kv patch IH]; intros m Hm Hp; [done|]. cbn [foldl]. apply IH.
  - unfold patch_step. apply distinct_assign; [done|]. intros v Hv. eapply Hp; [apply list_elem_of_here| |done].
    intros c. by apply distinct_keys_get.
  - intros kv' cur r Hin. apply Hp. by apply list_elem_of_further.
Qed.

Lemma depth_elem m kv : kv ∈ m → (depth kv.2 < depth (VMap m))%nat.
Proof using Type.
  induction m as [|kv' m IH]; [by intros ?%not_elem_of_nil|]. cbn in *. intros [->|?%IH]%elem_of_cons; lia.
Qed.

Lemma patch_value_distinct v cur r :
  distinct_keys v → (∀ c, cur = Some c → distinct_keys c) → patch_value v cur = Some r → distinct_keys r.
Proof.
  remember (depth v) as n eqn:Hn. revert v Hn cur r. induction n as [n IH] using lt_wf_ind.
  intros v -> cur r Hv Hcur Hr.
  destruct v as [| | | | | |fields]; cbn [patch_value] in Hr; [done|..|].
  1-5: destruct cur as [c|]; [destruct (patroniConfigValuesEquivalent _ _)|]; simplify_eq; (done || by apply Hcur).
  destruct cur as [[| | | | | |m]|]; simplify_eq; try done.
  apply (patch_fold_distinct m fields); [by apply Hcur|]. intros kv cur r Hin. apply (IH (depth kv.2)); [|done|].
  - by apply depth_elem.
  - by apply (proj1 (distinct_keys_map fields)).
Qed.

Lemma patch_distinct m patch :
  distinct_keys (VMap m) → distinct_keys (VMap patch) → distinct_keys (VMap (applyPatroniConfigPatch m patch)).
Proof.
  intros Hm Hp. apply patch_fold_distinct; [done|]. intros kv cur r Hin. apply patch_value_distinct.
  by apply (proj1 (distinct_keys_map patch)).
Qed.

Lemma set_leaf_assign m k v : set_leaf m k v = map_assign m k (present v).
Proof using Type. by destruct v. Qed.

Lemma set_path_distinct m path v prefix :
  distinct_keys (VMap m) → distinct_keys v → distinct_keys (VMap (setPatroniConfigPath m path v prefix)).
Proof using Type.
  intros Hm Hv. revert m prefix Hm. induction path as [|key rest IH]; intros m prefix Hm; [done|].
  assert (∀ k, distinct_keys (VMap (set_leaf m k v))) as Hleaf.
  { intros k. rewrite set_leaf_assign. apply distinct_assign; [done|]. unfold present. by destruct v; intros ? [= <-]. }
  cbn [setPatroniConfigPath]. destruct (at_parameters prefix); [done|]. destruct rest as [|key' rest]; [done|].
  set (child := setPatroniConfigPath _ _ _ _).
  assert (distinct_keys (VMap child)) as Hc.
  { apply IH. unfold child_map. destruct (map_get m key) as [[| | | | | |c]|] eqn:E; try by repeat constructor.
    by eapply distinct_keys_get. }
  unfold set_child. destruct child; [apply (distinct_assign m key None)|apply (distinct_assign m key (Some _))]; try done.
  by intros ? [= <-].
Qed.

(** An edit whose maps have one entry per key. *)
Definition well_formed_edit (edit : ConfigEdit) : Prop :=
  (∀ m, ceReplacement edit = Some m → distinct_keys (VMap m)) ∧
  (∀ m, ceApply edit = Some m → distinct_keys (VMap m)) ∧
  Forall (λ s, distinct_keys (settingValue s)) (ceSettings edit).

Lemma settings_distinct m settings :
  distinct_keys (VMap m) → Forall (λ s, distinct_keys (settingValue s)) settings →
  distinct_keys (VMap (foldl applyPatroniConfigSetting m settings)).
Proof using Type.
  intros Hm Hs. revert m Hm. induction Hs as [|s l Hv _ IH]; intros m Hm; [exact Hm|].
  cbn [foldl]. by apply IH, set_path_distinct.
Qed.

Lemma edited_distinct current edit :
  distinct_keys (VMap current) → well_formed_edit edit → distinct_keys (VMap (edited current edit)).
Proof.
  intros Hc (Hr & Ha & Hs). unfold edited. apply settings_distinct; [|done].
  assert (distinct_keys (VMap (deref current (ceReplacement edit)))) as Hm
    by (destruct (ceReplacement edit) as [c|]; [exact (Hr c eq_refl)|exact Hc]).
  destruct (ceApply edit) as [c|]; [exact (patch_distinct _ _ Hm (Ha c eq_refl))|exact Hm].
Qed.
Lemma preview_same_text current edit preview :
  distinct_keys (VMap current) → well_formed_edit edit → PreviewEditConfig current edit = inr preview →
  pvNoop preview = true → same_text (VMap current) (VMap (pvAfter preview)).
Proof.
  intros Hc Hw Hp Hn. unfold PreviewEditConfig in Hp. destruct (negb (edit_requested edit)); simplify_eq/=.
  apply changedConfigPaths_nil; [done|by apply edited_distinct|]. by destruct (changedConfigPaths _ _).
Qed.
End lemmas.

(** ** Properties *)

(** A preview that reports no change is one: the configuration an edit
    would write has the JSON text of the current one. *)
Theorem PreviewEditConfig_noop `{GoStd} current edit preview :
  distinct_keys (VMap current) → well_formed_edit edit → PreviewEditConfig current edit = inr preview →
  pvNoop preview = true → same_text (VMap current) (VMap (pvAfter preview)).
Proof. apply preview_same_text. Qed.

(** A configuration, and an edit that restates it in other types. *)
Definition sample_config : config :=
  [("ttl", VNumber "30"); ("postgresql", VMap [("parameters", VMap [("work_mem", VString "4MB")])])].

Definition restating : ConfigEdit :=
  mkConfigEdit None (Some [("ttl", VString "30")]) [mkSetting "postgresql.parameters.work_mem" (VString "4MB")].

Lemma PreviewEditConfig_noop_witness :
  ∃ preview, PreviewEditConfig sample_config restating = inr preview ∧ pvNoop preview = true ∧
    same_text (VMap sample_config) (VMap (pvAfter preview)).
Proof.
  eexists. split; [vm_compute; reflexivity|]. split; [reflexivity|].
  apply (PreviewEditConfig_noop sample_config restating); [| |vm_compute; reflexivity|reflexivity].
  - cbn. repeat split; apply (bool_decide_unpack _); vm_compute; exact I.
  - split; [by intros m|split]; [intros m [= <-]|]; cbn; repeat split; try (repeat constructor; fail);
      apply (bool_decide_unpack _); vm_compute; exact I.
Defined.

(** A recursive patch decides each key from the patch's and the current
    value of that key alone, so the random order in which Go ranges over the
    patch never shows. *)
Theorem applyPatroniConfigPatch_order `{GoStd} m patch patch' :
  NoDup (fst <$> patch) → patch ≡ₚ patch' →
  same_map (applyPatroniConfigPatch m patch) (applyPatroniConfigPatch m patch') ∧
  ∀ key, map_get (applyPatroniConfigPatch m patch) key
           = match map_get patch key with Some v => patch_value v (map_get m key) | None => map_get m key end.
Proof.
  intros Hnd Hp. assert (NoDup (fst <$> patch')) as Hnd' by by rewrite <- Hp.
  split; [|intros; by apply patch_get]. intros key. rewrite !patch_get by done.
  by rewrite (same_map_perm _ _ Hnd Hp).
Qed.

Lemma applyPatroniConfigPatch_order_witness :
  let patch := [("ttl", VNull); ("postgresql", VMap [("use_slots", VBool true)])] in
  map_get (applyPatroniConfigPatch sample_config patch) "ttl" = None ∧
  same_map (applyPatroniConfigPatch sample_config patch) (applyPatroniConfigPatch sample_config (reverse patch)).
Proof.
  cbv zeta. split; [vm_compute; reflexivity|]. refine (proj1 (applyPatroniConfigPatch_order _ _ _ _ _)).
  - apply (bool_decide_unpack _). vm_compute. exact I.
  - symmetry. apply reverse_Permutation.
Defined.

(** A setting behaves like a lens: reading its path gives the value that
    was set (nothing, for [null]), reading a path that diverges from it gives
    what it gave before, also below [postgresql.parameters], where the rest of
    the path is one key. *)
Theorem applyPatroniConfigSetting_lens m setting :
  let path := Split "." (TrimSpace (settingPath setting)) in
  get_path (applyPatroniConfigSetting m setting) path [] = present (settingValue setting) ∧
  ∀ path', diverging path path' [] = true → get_path (applyPatroniConfigSetting m setting) path' [] = get_path m path' [].
Proof.
  cbv zeta. split; [apply get_set_path, Split_not_nil|]. intros path'. apply get_set_path_other.
Qed.
