(* ===== verification/EditConfig.v ===== *)
(** * Dynamic configuration edits: the handlers of [control/edit_config.go]

    [PrepareEditConfig] previews the edit on a snapshot and binds the request,
    the desired configuration and the revision of the config key to the plan by
    keyed tokens; [ExecuteEditConfig] repeats the preview on a fresh snapshot
    and writes it with a compare-and-swap on that revision. *)

From S2P Require Import Prelude GoStrings GoErrors GoTime Target Version Values Json Dcs.
From S2P Require Import Effects Contract Readback Samples Select Snapshots Batch ConfigPatch.

(** ** Requests and data *)

Record EditConfigRequest := mkEditConfigRequest { ecTarget : Target; ecEdit : ConfigEdit; ecCitus : bool }.

Record ConfigEditData := mkConfigEditData {
  cedChangedPaths : list string;
  cedBeforeRevision : Z;
  cedDCSRevision : Z;
  cedDCSSendState : SendState;
  cedVerification : Verification;
  cedNoop : bool
}.

#[export] Instance zero_ConfigEditData : Zero ConfigEditData :=
  mkConfigEditData [] 0 0 (SendRaw "") (VerificationRaw "") false.

Definition ConfigEditData_Validate (d : ConfigEditData) : option goerror :=
  if negb (SendState_validOrEmpty (cedDCSSendState d)) || SendState_empty (cedDCSSendState d)
  then Some (EText "edit-config DCS send state is invalid")
  else if negb (Verification_valid (cedVerification d)) then Some (EText "edit-config verification is invalid")
  else if (cedBeforeRevision d <? 0)%Z || (cedDCSRevision d <? 0)%Z
  then Some (EText "edit-config revisions must be non-negative")
  else if negb (StringsAreSorted (cedChangedPaths d))
  then Some (EText "edit-config changed paths must be deterministic")
  else if cedNoop d && (negb (bool_decide (cedDCSSendState d = SendNotSent))
                        || negb (bool_decide (cedVerification d = VerifiedSucceeded)))
  then Some (EText "edit-config no-op requires verified NOT_SENT success")
  else None.

(** Field assignments of [data]. *)
Definition edit_verified (v : Verification) (d : ConfigEditData) : ConfigEditData :=
  mkConfigEditData (cedChangedPaths d) (cedBeforeRevision d) (cedDCSRevision d) (cedDCSSendState d) v (cedNoop d).
Definition edit_revision (revision : Z) (d : ConfigEditData) : ConfigEditData :=
  mkConfigEditData (cedChangedPaths d) (cedBeforeRevision d) revision (cedDCSSendState d) (cedVerification d)
    (cedNoop d).
Definition edit_noop (d : ConfigEditData) : ConfigEditData :=
  mkConfigEditData (cedChangedPaths d) (cedBeforeRevision d) (cedDCSRevision d) (cedDCSSendState d)
    (cedVerification d) true.
Definition edit_sent (send : SendState) (d : ConfigEditData) : ConfigEditData :=
  mkConfigEditData (cedChangedPaths d) (cedBeforeRevision d) (cedDCSRevision d) send (cedVerification d) (cedNoop d).

Definition normalizeEditConfigRequest (request : EditConfigRequest) : EditConfigRequest * option goerror :=
  let request := mkEditConfigRequest (Normalize (ecTarget request)) (ecEdit request) (ecCitus request) in
  (request,
   if tMember (ecTarget request) !=s "" then Some (EText "edit-config target must be a cluster")
   else match Target_Validate (ecTarget request) true with
   | Some err => Some err
   | None => if negb (edit_requested (ecEdit request))
             then Some (EText "edit-config requires replacement, apply patch, or settings") else None
   end).

(** The config key, or the text of the error. *)
Definition configEntryForEdit (snapshot : Snapshot) : string + Entry :=
  match Snapshot_Entry snapshot "config" with
  | None => inl "dynamic config key does not exist"
  | Some entry =>
      if existsb (λ issue, diRelativePath issue ==s "config") (snIssues snapshot)
      then inl "dynamic config key is not a JSON object" else inr entry
  end.

Definition configEntryCategory (message : string) : Category :=
  if Contains message "does not exist" then CategoryNotFound else CategoryConfig.

(** ** Tokens *)

Definition optional_map (m : option config) : value := match m with Some m => VMap m | None => VNull end.

Definition setting_material (setting : ConfigSetting) : value :=
  VMap [("path", VString (TrimSpace (settingPath setting))); ("value", settingValue setting)].

Definition configRequestMaterial (request : EditConfigRequest) : list (string * value) :=
  let edit := ecEdit request in
  [("hasReplacement", VBool (negb (is_nil (ceReplacement edit)))); ("replacement", optional_map (ceReplacement edit));
   ("hasApply", VBool (negb (is_nil (ceApply edit)))); ("apply", optional_map (ceApply edit));
   ("settings", VList (setting_material <$> ceSettings edit)); ("citus", VBool (ecCitus request))].

Section with_std.
Context `{GoStd} (service : Service).

Definition configRequestToken (request : EditConfigRequest) : option string :=
  planToken service "edit-config/request" (Marshal_struct (configRequestMaterial request)).

Definition configValueToken (m : config) : option string :=
  planToken service "edit-config/desired" (Marshal (VMap m)).

Definition configPlanBinding (target : Target) (revision : Z) (requestToken desiredToken changedPaths noop citus : string)
    : option string :=
  planToken service "edit-config/plan" (Marshal_struct
    [("target", VString (ClusterID (Normalize target))); ("revision", VNumber (FormatInt revision));
     ("request", VString requestToken); ("desired", VString desiredToken);
     ("changedPaths", VString changedPaths); ("noop", VString noop); ("citus", VString citus)]).

(** ** Plans *)

Definition editConfigSummary (paths : list string) : string :=
  match paths with
  | [] => "edit dynamic configuration: no changes"
  | _ => "edit dynamic configuration paths: " +:+ Join paths ", "
  end.

Definition editConfigPlan (operationID : string) (request : EditConfigRequest) (snapshot : Snapshot) (entry : Entry)
    (preview : ConfigEditPreview) (requestToken desiredToken binding : string) : Plan :=
  mkPlan operationID "edit-config" (ecTarget request) [] PathDCS RiskConfiguration UnsafeAfterSend
    (editConfigSummary (pvChangedPaths preview))
    [mkPrecondition "dcs.revision" (FormatInt (snRevision snapshot)) EvidenceDCS;
     mkPrecondition "config.modRevision" (FormatInt (enModRevision entry)) EvidenceDCS;
     mkPrecondition "config.request" requestToken EvidenceControl;
     mkPrecondition "config.desired" desiredToken EvidenceControl;
     mkPrecondition "config.changedPaths" (Marshal_strings (pvChangedPaths preview)) EvidenceControl;
     mkPrecondition "config.noop" (FormatBool (pvNoop preview)) EvidenceControl;
     mkPrecondition "request.citus" (FormatBool (ecCitus request)) EvidenceControl;
     mkPrecondition "config.binding" binding EvidenceControl].

Definition PrepareEditConfig (ctx : bool) (request : EditConfigRequest) : prog (Result Plan) :=
  operationID ← operationID;
  let '(request, requestError) := normalizeEditConfigRequest request in
  let target := ecTarget request in
  let fail category retryable message cause evidence :=
    mret (failedRead service operationID "edit-config" target PathDCS category retryable message cause evidence) in
  if negb ctx then fail CategoryUsage false "edit-config requires a context" None []
  else if negb (is_nil requestError) then fail CategoryUsage false "edit-config request is invalid" requestError []
  else
    r ← do_call (CSnapshot target);
    match r with
    | inl err =>
        let '(category, retryable) := classifyReadError (Some err) in
        fail category retryable "edit-config cluster snapshot failed" (Some err) []
    | inr snapshot =>
        match checkSnapshotPatroniVersion service snapshot false with
        | Some err =>
            mret (unsupportedVersionResult service operationID "edit-config" target PathDCS snapshot (Some err))
        | None =>
            match configEntryForEdit snapshot with
            | inl message =>
                fail (configEntryCategory message) false message (Some (EText message))
                  [snapshotEvidence service snapshot "dynamic configuration lookup completed"]
            | inr entry =>
                match PreviewEditConfig (csConfig (snCluster snapshot)) (ecEdit request) with
                | inl err =>
                    fail CategoryUsage false "edit-config mutation is invalid" (Some err)
                      [snapshotEvidence service snapshot "dynamic configuration read for preview"]
                | inr preview =>
                    match configRequestToken request, configValueToken (pvAfter preview) with
                    | None, _ => fail CategoryUsage false "edit-config request is not JSON-compatible" (Some (EText "json")) []
                    | _, None =>
                        fail CategoryUsage false "edit-config desired configuration is not JSON-compatible"
                          (Some (EText "json")) []
                    | Some requestToken, Some desiredToken =>
                        match configPlanBinding target (enModRevision entry) requestToken desiredToken
                                (Marshal_strings (pvChangedPaths preview)) (FormatBool (pvNoop preview))
                                (FormatBool (ecCitus request)) with
                        | None => fail CategoryInternal false "edit-config plan binding failed" (Some (EText "json")) []
                        | Some binding =>
                            let plan := editConfigPlan operationID request snapshot entry preview requestToken
                                          desiredToken binding in
                            match Plan_Validate plan with
                            | Some err =>
                                fail CategoryInternal false "edit-config plan construction failed" (Some err)
                                  [snapshotEvidence service snapshot "dynamic configuration preview completed"]
                            | None =>
                                mret (planResult operationID target PathDCS plan
                                        [snapshotEvidence service snapshot
                                           "edit-config plan built from revisioned dynamic configuration"])
                            end
                        end
                    end
                end
            end
        end
    end.

Definition editConfigPlanRevision (plan : Plan) : goerror + Z :=
  match expectedPrecondition plan "config.modRevision" with
  | None => inl (EText "plan config revision is missing")
  | Some value =>
      match ParseInt value with
      | Some revision => if (revision <=? 0)%Z then inl (EText "plan config revision is invalid") else inr revision
      | None => inl (EText "plan config revision is invalid")
      end
  end.

Definition editConfigPlanPaths (plan : Plan) : goerror + list string :=
  match expectedPrecondition plan "config.changedPaths" with
  | None => inl (EText "plan changed paths are missing")
  | Some value =>
      match Unmarshal_strings value with
      | Some paths => if StringsAreSorted paths then inr paths else inl (EText "plan changed paths are invalid")
      | None => inl (EText "plan changed paths are invalid")
      end
  end.

(** [expectedRevision, _ := ...], [plannedPaths, _ := ...] *)
Definition planned_revision (plan : Plan) : Z := match editConfigPlanRevision plan with inr r => r | inl _ => 0%Z end.
Definition planned_paths (plan : Plan) : list string := match editConfigPlanPaths plan with inr p => p | inl _ => [] end.

(** [json.Marshal(paths)] of what was unmarshalled; [null] gave a nil slice. *)
Definition paths_json (plan : Plan) (paths : list string) : string :=
  match expectedPrecondition plan "config.changedPaths" ≫= parse_json with
  | Some VNull => "null"
  | _ => Marshal_strings paths
  end.

Definition validateEditConfigPlan (plan : Plan) (request : EditConfigRequest) : option goerror :=
  match Plan_Validate plan with
  | Some err => Some err
  | None =>
  if negb (plan_contract plan "edit-config" PathDCS RiskConfiguration)
  then Some (EText "plan operation contract differs from edit-config")
  else if ClusterID (Normalize (pTarget plan)) !=s ClusterID (ecTarget request)
  then Some (EText "plan cluster differs from request")
  else match configRequestToken request with
  | None => Some (EText "json")
  | Some requestToken =>
  if negb (bool_decide (expectedPrecondition plan "config.request" = Some requestToken))
  then Some (EText "plan configuration request differs from request")
  else if negb (bool_decide (expectedPrecondition plan "request.citus" = Some (FormatBool (ecCitus request))))
  then Some (EText "plan Citus selector differs from request")
  else match editConfigPlanRevision plan with
  | inl err => Some err
  | inr revision =>
  match expectedPrecondition plan "config.desired" with
  | None => Some (EText "plan desired configuration token is invalid")
  | Some desired =>
  if negb (token_length desired) then Some (EText "plan desired configuration token is invalid")
  else match editConfigPlanPaths plan with
  | inl err => Some err
  | inr paths =>
  match expectedPrecondition plan "config.noop" with
  | None => Some (EText "plan no-op precondition is invalid")
  | Some noop =>
  if (noop !=s "true") && (noop !=s "false") then Some (EText "plan no-op precondition is invalid")
  else match expectedPrecondition plan "config.binding" with
  | None => Some (EText "plan binding is invalid")
  | Some planned =>
  if negb (token_length planned) then Some (EText "plan binding is invalid")
  else if bool_decide (configPlanBinding (ecTarget request) revision requestToken desired (paths_json plan paths) noop
                         (FormatBool (ecCitus request)) = Some planned)
  then None else Some (EText "plan configuration binding is invalid")
  end end end end end end end.

(** ** Results *)

Definition editConfigWriteSummary (result : WriteResult) (err : option goerror) : string :=
  if is_nil err && wrApplied result then "DCS dynamic configuration CAS was applied"
  else if has_conflict err then "DCS dynamic configuration CAS conflicted"
  else "DCS dynamic configuration CAS ended without a verified apply".

Definition edit_evidence (message : string) (data : ConfigEditData) (evidence : list Evidence) : list Evidence :=
  match evidence with
  | [] => [mkEvidence EvidenceDCS (svcNow service) message "" (Path_text PathDCS) (cedDCSSendState data)]
  | _ => evidence
  end.

Definition editConfigSuccess (operationID : string) (target : Target) (data : ConfigEditData) (evidence : list Evidence)
    : Result ConfigEditData :=
  mkResult operationID Succeeded target PathDCS data evidence None.

Definition editConfigFailure (operationID : string) (target : Target) (data : ConfigEditData)
    (class : Category * bool) (message : string) (cause : option goerror) (evidence : list Evidence)
    : Result ConfigEditData :=
  let data := edit_verified VerifiedFailed data in
  let evidence := edit_evidence message data evidence in
  mkResult operationID Failed target PathDCS data evidence
    (Some (NewError class.1 "edit-config" target class.2 message cause evidence)).

Definition editConfigUnknown (operationID : string) (target : Target) (data : ConfigEditData)
    (message : string) (cause : option goerror) (evidence : list Evidence) : Result ConfigEditData :=
  let data := edit_verified Unverified data in
  let evidence := edit_evidence message data evidence in
  mkResult operationID Unknown target PathDCS data evidence
    (Some (NewError CategoryUnknown "edit-config" target false message cause evidence)).

(** ** Verification *)

(** The snapshot's configuration has the planned token. *)
Definition config_matches (desiredToken : string) (snapshot : Snapshot) : bool :=
  match configEntryForEdit snapshot with
  | inl _ => false
  | inr _ => bool_decide (configValueToken (csConfig (snCluster snapshot)) = Some desiredToken)
  end.

Definition editConfigReading (desiredToken : string) : Reading Z :=
  mkReading "edit-config readback canceled" "edit-config readback failed"
    (λ snapshot, (snRevision snapshot, config_matches desiredToken snapshot))
    (λ matched, if matched then "dynamic configuration matches the confirmed desired state"
                else "dynamic configuration does not match the confirmed desired state").

Definition verifyEditConfig (target : Target) (desiredToken : string) : prog (verdict Z) :=
  readback service target (editConfigReading desiredToken) 0%Z.

(** ** Execution *)

(** What the write and its readback amount to. *)
Definition settleEditConfig (operationID : string) (target : Target) (data : ConfigEditData)
    (writeError : option goerror) (v : verdict Z) (evidence : list Evidence) : prog (Result ConfigEditData) :=
  let '(verified, revision, verificationEvidence) := v in
  let evidence := evidence ++ verificationEvidence in
  let data := if (cedDCSRevision data <? revision)%Z then edit_revision revision data else data in
  if (verified : bool) then
    let data := edit_verified VerifiedSucceeded data in
    mret (editConfigSuccess operationID target
            (if bool_decide (cedDCSSendState data = SendNotSent) then edit_noop data else data) evidence)
  else if has_conflict writeError then
    mret (editConfigFailure operationID target data (CategoryConflict, false)
            "edit-config CAS lost a concurrent modification" writeError evidence)
  else if bool_decide (cedDCSSendState data = SendNotSent) then
    mret (editConfigFailure operationID target data (classifyReadError writeError)
            "edit-config was definitely not sent" writeError evidence)
  else
    cause ← cause_with_context writeError;
    mret (editConfigUnknown operationID target data "edit-config was not verified; inspect DCS before retrying" cause
            evidence).

(** From a preview that agrees with the plan. *)
Definition writeEditConfig (operationID : string) (target : Target) (plan : Plan) (data : ConfigEditData)
    (preview : ConfigEditPreview) (evidence : list Evidence) : prog (Result ConfigEditData) :=
  let refuse category message cause :=
    mret (editConfigFailure operationID target data (category, false) message cause evidence) in
  cancelled ← do_call CCtxErr;
  match cancelled with
  | Some err => refuse CategoryFailed "edit-config was canceled before DCS CAS" (Some err)
  | None =>
      if negb (svcConfigDCS service) then
        refuse CategoryConfig "edit-config requires a DCS config CAS capability" None
      else match Marshal (VMap (pvAfter preview)) with
      | None => refuse CategoryUsage "edit-config payload is not JSON-compatible" (Some (EText "json"))
      | Some payload =>
          w ← do_call (CCompareAndSwapConfig target payload (Some (planned_revision plan)));
          let '(writeResult, writeError) := w in
          let send := dcsSendState writeError (wrApplied writeResult) in
          let data := edit_revision (wrRevision writeResult) (edit_sent send data) in
          let evidence := evidence ++
            [mkEvidence EvidenceDCS (svcNow service) (editConfigWriteSummary writeResult writeError)
               (FormatInt (wrRevision writeResult)) (Path_text PathDCS) send] in
          v ← verifyEditConfig target (plannedValue plan "config.desired");
          settleEditConfig operationID target data writeError v evidence
      end
  end.

(** From a fresh snapshot that passed the version gate. *)
Definition editConfigFrom (operationID : string) (request : EditConfigRequest) (plan : Plan)
    (data : ConfigEditData) (snapshot : Snapshot) : prog (Result ConfigEditData) :=
  let target := ecTarget request in
  let desired := plannedValue plan "config.desired" in
  let evidence := [snapshotEvidence service snapshot "edit-config CAS preconditions revalidated"] in
  let refuse category message cause :=
    mret (editConfigFailure operationID target data (category, false) message cause evidence) in
  let already summary :=
    mret (editConfigSuccess operationID target
            (edit_verified VerifiedSucceeded (edit_noop (edit_revision (snRevision snapshot) data)))
            (evidence ++ [mkEvidence EvidenceDCS (svcNow service) summary (FormatInt (snRevision snapshot))
                            (snPrefix snapshot) SendNotSent])) in
  match configEntryForEdit snapshot with
  | inl message => refuse CategoryConflict "edit-config was not sent because the config key changed" (Some (EText message))
  | inr entry =>
      match configValueToken (csConfig (snCluster snapshot)) with
      | None => refuse CategoryConfig "current dynamic configuration is not JSON-compatible" (Some (EText "json"))
      | Some currentToken =>
          if negb (enModRevision entry =? planned_revision plan)%Z then
            if currentToken ==s desired then already "concurrent writer already established the confirmed configuration"
            else
              mret (editConfigFailure operationID target (edit_revision (snRevision snapshot) data)
                      (CategoryConflict, false) "edit-config was not sent because the config revision changed" None
                      evidence)
          else match PreviewEditConfig (csConfig (snCluster snapshot)) (ecEdit request) with
          | inl err => refuse CategoryUsage "edit-config mutation is invalid" (Some err)
          | inr preview =>
              if negb (bool_decide (configValueToken (pvAfter preview) = Some desired))
                 || negb (reflectStringSlices (pvChangedPaths preview) (planned_paths plan)) then
                refuse CategoryUsage "edit-config desired state differs from the confirmed plan"
                  (match configValueToken (pvAfter preview) with None => Some (EText "json") | Some _ => None end)
              else if plannedValue plan "config.noop" !=s FormatBool (pvNoop preview) then
                refuse CategoryUsage "edit-config no-op state differs from the confirmed plan" None
              else if pvNoop preview then already "dynamic configuration already matches the request"
              else writeEditConfig operationID target plan data preview evidence
          end
      end
  end.

Definition ExecuteEditConfig (ctx : bool) (request : EditConfigRequest) (plan : Plan) : prog (Result ConfigEditData) :=
  operationID ← planOperationID plan;
  let '(request, requestError) := normalizeEditConfigRequest request in
  let target := ecTarget request in
  let fail message cause :=
    mret (failedRead service operationID "edit-config" target PathDCS CategoryUsage false message cause []) in
  if negb ctx then fail "edit-config requires a context" None
  else if negb (is_nil requestError) then fail "edit-config request is invalid" requestError
  else match validateEditConfigPlan plan request with
  | Some err => fail "edit-config plan does not match the request" (Some err)
  | None =>
      let data := mkConfigEditData (planned_paths plan) (planned_revision plan) 0 SendNotSent Unverified false in
      r ← do_call (CSnapshot target);
      match r with
      | inl err =>
          mret (editConfigFailure operationID target data (classifyReadError (Some err))
                  "edit-config execution snapshot failed" (Some err) [])
      | inr snapshot =>
          match checkSnapshotPatroniVersion service snapshot false with
          | Some err =>
              mret (unsupportedVersionResult service operationID "edit-config" target PathDCS snapshot (Some err))
          | None => editConfigFrom operationID request plan data snapshot
          end
      end
  end.
End with_std.

(** ** Predicates of the theorems *)

Section predicates.
Context `{GoStd} (service : Service) (request : EditConfigRequest) (plan : Plan).

(** Every write is this compare-and-swap. *)
Definition only_swap (payload : string) (tr : list event) : Prop :=
  Forall (λ e, is_write (ev_call e) = true →
    ev_call e = CCompareAndSwapConfig (ecTarget request) payload (Some (planned_revision plan))) tr.

(** What is written: the preview of the edit on a fresh, version-checked
    snapshot whose config key has the planned revision, with the paths and the
    content token of the plan. *)
Definition swap_confirmed (tr : list event) : Prop :=
  ∃ snapshot entry preview payload,
    Ev (CSnapshot (ecTarget request)) (inr snapshot) ∈ tr ∧ version_gated service snapshot ∧
    configEntryForEdit snapshot = inr entry ∧ enModRevision entry = planned_revision plan ∧
    PreviewEditConfig (csConfig (snCluster snapshot)) (ecEdit request) = inr preview ∧ pvNoop preview = false ∧
    pvChangedPaths preview = planned_paths plan ∧
    configValueToken service (pvAfter preview) = Some (plannedValue plan "config.desired") ∧
    Marshal (VMap (pvAfter preview)) = Some payload ∧ only_swap payload tr.

(** A snapshot with the planned configuration was read. *)
Definition config_confirmed (tr : list event) : Prop :=
  ∃ snapshot, Ev (CSnapshot (ecTarget request)) (inr snapshot) ∈ tr ∧
    (distinct_keys (VMap (csConfig (snCluster snapshot))) → well_formed_edit (ecEdit request) →
     config_matches service (plannedValue plan "config.desired") snapshot = true).

Definition edit_post (tr : list event) (r : Result ConfigEditData) : Prop :=
  Result_Validate r = None ∧ (rOutcome r = Failed → Forall quiet tr) ∧ (rOutcome r = Succeeded → config_confirmed tr) ∧
  (writes tr ≤ 1)%nat ∧ (writes tr ≠ 0%nat → swap_confirmed tr).

#[export] Instance edit_post_read : ReadClosed edit_post.
Proof using Type.
  intros pre tr r Hpre (Hv & Hf & Hs & Hw & Hc). split; [done|]. split; [|split; [|split]].
  - intros Hr. apply Forall_app. split; [by apply Forall_read_only_quiet|by apply Hf].
  - intros (snapshot & Hin & Hrest)%Hs. exists snapshot. split; [|done]. apply elem_of_app. by right.
  - rewrite writes_app, writes_read_only by done. lia.
  - rewrite writes_app, writes_read_only by done.
    intros (snapshot & entry & preview & payload & Hin & Hg & He & Hr & Hp & Hn & Hc' & Ht & Hm & Ho)%Hc.
    exists snapshot, entry, preview, payload.
    split; [apply elem_of_app; by right|]. do 8 (split; [done|]). apply Forall_app. split; [|done].
    eapply Forall_impl; [exact Hpre|]. unfold read_only. intros e ->. done.
Qed.
End predicates.

(** ** Lemmas *)

Section lemmas.
Context `{GoStd} (service : Service) (Hclock : clock_set service).

Section running.
Context (operationID : string) (request : EditConfigRequest) (plan : Plan).
Context (Hid : operationID ≠ "") (Ht : Target_Validate (ecTarget request) true = None).
#[local] Abbreviation target := (ecTarget request).
#[local] Abbreviation post := (edit_post service request plan).

Lemma edit_evidence_good message data evidence :
  message ≠ "" → SendState_validOrEmpty (cedDCSSendState data) = true → Forall good_evidence evidence →
  good_log (edit_evidence service message data evidence).
Proof using Hclock.
  intros Hm Hs He. destruct evidence; [|by split]. by apply good_log_singleton, good_mkEvidence.
Qed.

Lemma valid_editConfigFailure data class message cause evidence :
  definite_class class → message ≠ "" → SendState_validOrEmpty (cedDCSSendState data) = true →
  Forall good_evidence evidence →
  Result_Validate (editConfigFailure service operationID target data class message cause evidence) = None.
Proof using Hclock Hid Ht. intros. apply valid_failed; try done. by apply edit_evidence_good. Qed.

Lemma valid_editConfigUnknown data message cause evidence :
  message ≠ "" → SendState_validOrEmpty (cedDCSSendState data) = true → Forall good_evidence evidence →
  Result_Validate (editConfigUnknown service operationID target data message cause evidence) = None.
Proof using Hclock Hid Ht. intros. apply valid_unknown; try done. by apply edit_evidence_good. Qed.

(** A result of reads alone that does not claim success. *)
Lemma edit_post_quiet tr r :
  Forall read_only tr → Result_Validate r = None → rOutcome r ≠ Succeeded → post tr r.
Proof using Type.
  intros Htr Hr Hs. split; [done|]. split; [by intros; apply Forall_read_only_quiet|]. split; [done|].
  rewrite writes_read_only by done. split; [lia|done].
Qed.

Lemma verifyEditConfig_post desired :
  wp (verifyEditConfig service target desired)
    (λ tr v, Forall read_only tr ∧ Forall good_evidence v.2 ∧
             (v.1.1 = true → observed target (config_matches service desired) tr)).
Proof using Hclock.
  eapply wp_mono; [|apply readback_spec]. intros tr v (Htr & He & Hv). split; [done|]. split; [|done].
  apply He; [done|]. split; [done|]. split; [done|]. by intros [].
Qed.

(** Before the swap: what [swap_confirmed] says of the reads [pre]. *)
Definition swap_ready (payload : string) (pre : list event) : Prop :=
  Forall read_only pre ∧ ∀ tr, only_swap request plan payload tr → swap_confirmed service request plan (pre ++ tr).

Lemma settleEditConfig_post pre payload w err data v evidence tr :
  swap_ready payload pre → Forall read_only tr → cedDCSSendState data = dcsSendState err (wrApplied w) →
  good_log evidence → Forall good_evidence v.2 →
  (v.1.1 = true → observed target (config_matches service (plannedValue plan "config.desired")) tr) →
  wp (settleEditConfig service operationID target data err v evidence)
    (λ tr', post (pre ++ Ev (CCompareAndSwapConfig target payload (Some (planned_revision plan))) (w, err) :: tr ++ tr')).
Proof using Hclock Hid Ht.
  intros [Hpre Hready] Htr Hsend He Hev Hverified. destruct v as [[verified revision] ev]. cbn in Hev, Hverified.
  set (swap := Ev (CCompareAndSwapConfig _ _ _) _).
  assert (good_log (evidence ++ ev)) as Hlog by by apply good_log_app.
  assert (∀ r tr', Forall read_only tr' → Result_Validate r = None →
    (rOutcome r = Failed → dcs_may_apply (w, err) = false) → (rOutcome r = Succeeded → verified = true) →
    post (pre ++ swap :: tr ++ tr') r) as Hpost.
  { intros r tr' Htr' Hr Hf Hs. assert (Forall read_only (tr ++ tr')) as Hafter by by apply Forall_app.
    split; [done|]. split; [|split; [|split]].
    - intros Hq%Hf. apply Forall_app. split; [by apply Forall_read_only_quiet|]. constructor; [done|].
      by apply Forall_read_only_quiet.
    - intros (s & Hin & Hm)%Hs%Hverified. exists s. split; [|done]. apply elem_of_app. right.
      apply list_elem_of_further, elem_of_app. by left.
    - rewrite writes_app, (writes_read_only pre) by done. unfold writes. cbn.
      fold (writes (tr ++ tr')). rewrite writes_read_only by done. lia.
    - intros _. apply Hready. constructor; [done|]. eapply Forall_impl; [exact Hafter|].
      unfold read_only. intros e ->. done. }
  unfold settleEditConfig. cbv zeta. set (data' := if (_ <? _)%Z then _ else _).
  assert (cedDCSSendState data' = dcsSendState err (wrApplied w)) as Hd
    by (rewrite <- Hsend; subst data'; by destruct (_ <? _)%Z).
  assert (SendState_validOrEmpty (cedDCSSendState data') = true) as Hvalid by (rewrite Hd; apply dcsSendState_valid).
  destruct verified; [apply Hpost; try done; by apply valid_success|].
  destruct (has_conflict err) eqn:Ec.
  { apply Hpost; try done; [by apply valid_editConfigFailure; try done; apply Hlog|].
    intros _. by apply conflict_not_applied. }
  rewrite Hd. destruct (bool_decide _) eqn:E; go_bool.
  - apply Hpost; try done.
    + apply valid_editConfigFailure; try done; [apply classifyReadError_definite|apply Hlog].
    + intros _. eapply dcsSendState_NotSent; [|exact E]. intros ->. cbn in E. by destruct (wrApplied w).
  - apply wp_bind. eapply wp_mono; [|apply cause_with_context_spec]. intros tr' cause [Htr' _]. cbn.
    rewrite app_nil_r. apply Hpost; try done. apply valid_editConfigUnknown; try done. apply Hlog.
Qed.

(** ** Lemmas: execution *)

Lemma writeEditConfig_post snapshot entry data preview evidence :
  version_gated service snapshot → configEntryForEdit snapshot = inr entry →
  enModRevision entry = planned_revision plan →
  PreviewEditConfig (csConfig (snCluster snapshot)) (ecEdit request) = inr preview → pvNoop preview = false →
  pvChangedPaths preview = planned_paths plan →
  configValueToken service (pvAfter preview) = Some (plannedValue plan "config.desired") →
  SendState_validOrEmpty (cedDCSSendState data) = true → good_log evidence →
  wp (writeEditConfig service operationID target plan data preview evidence)
    (λ tr, post (Ev (CSnapshot target) (inr snapshot) :: tr)).
Proof using Hclock Hid Ht.
  intros Hg He Hr Hp Hn Hpaths Htok Hd Hlog. unfold writeEditConfig. cbv zeta.
  set (read := Ev (CSnapshot target) _).
  assert (∀ tr category message cause, Forall read_only tr → definite category → message ≠ "" →
    post (read :: tr) (editConfigFailure service operationID target data (category, false) message cause evidence)) as Hfail.
  { intros. apply edit_post_quiet; [by constructor| |done]. apply valid_editConfigFailure; try done. apply Hlog. }
  apply wp_call. intros [err|]; [by apply Hfail; [repeat constructor|..]|].
  destruct (negb (svcConfigDCS service)); [by apply Hfail; [repeat constructor|..]|].
  destruct (Marshal (VMap (pvAfter preview))) as [payload|] eqn:Em; [|by apply Hfail; [repeat constructor|..]].
  apply wp_call. intros [w err]. apply wp_bind. eapply wp_mono; [|apply verifyEditConfig_post]. cbn.
  intros tr v (Htr & Hev & Hv).
  eapply wp_mono; [|eapply (settleEditConfig_post [read; Ev CCtxErr None] payload w err _ v _ tr);
    [|exact Htr| | |exact Hev|exact Hv]]; [done|..]; cbn; try done.
  - split; [by repeat constructor|]. intros tr' Ho. exists snapshot, entry, preview, payload.
    split; [apply list_elem_of_here|]. do 8 (split; [done|]). by do 2 (constructor; [done|]).
  - apply (good_log_app evidence); [done|]. apply Forall_singleton, good_mkEvidence; try done; [|apply dcsSendState_valid].
    unfold editConfigWriteSummary. by repeat case_match.
Qed.

(** A preview without changes leaves the planned configuration in place. *)
Lemma noop_confirmed snapshot entry preview :
  configEntryForEdit snapshot = inr entry →
  PreviewEditConfig (csConfig (snCluster snapshot)) (ecEdit request) = inr preview → pvNoop preview = true →
  configValueToken service (pvAfter preview) = Some (plannedValue plan "config.desired") →
  config_confirmed service request plan [Ev (CSnapshot target) (inr snapshot)].
Proof using Type.
  intros He Hp Hn Ht'. exists snapshot. split; [apply list_elem_of_here|]. intros Hd Hw. unfold config_matches. rewrite He.
  apply bool_decide_eq_true. destruct (preview_same_text _ _ _ Hd Hw Hp Hn) as (text & Hb & Ha).
  unfold configValueToken in *. by rewrite Hb, <- Ha.
Qed.

Lemma token_confirmed snapshot entry :
  configEntryForEdit snapshot = inr entry →
  configValueToken service (csConfig (snCluster snapshot)) = Some (plannedValue plan "config.desired") →
  config_confirmed service request plan [Ev (CSnapshot target) (inr snapshot)].
Proof using Type.
  intros He Ht'. exists snapshot. split; [apply list_elem_of_here|]. intros _ _. unfold config_matches. rewrite He.
  by apply bool_decide_eq_true.
Qed.

Lemma editConfigFrom_post data snapshot :
  version_gated service snapshot → SendState_validOrEmpty (cedDCSSendState data) = true →
  wp (editConfigFrom service operationID request plan data snapshot)
    (λ tr, post (Ev (CSnapshot target) (inr snapshot) :: tr)).
Proof using Hclock Hid Ht.
  intros Hg Hd. unfold editConfigFrom. cbv zeta. set (read := Ev (CSnapshot target) _).
  set (evidence := [snapshotEvidence _ _ _]).
  assert (good_log evidence) as Hlog by by apply good_log_singleton, good_snapshotEvidence.
  assert (∀ data category message cause, SendState_validOrEmpty (cedDCSSendState data) = true → definite category →
    message ≠ "" →
    post [read] (editConfigFailure service operationID target data (category, false) message cause evidence)) as Hfail.
  { intros. apply edit_post_quiet; [by repeat constructor| |done]. apply valid_editConfigFailure; try done. apply Hlog. }
  assert (∀ summary data, summary ≠ "" → config_confirmed service request plan [read] →
    post [read] (editConfigSuccess operationID target data
      (evidence ++ [mkEvidence EvidenceDCS (svcNow service) summary (FormatInt (snRevision snapshot))
                      (snPrefix snapshot) SendNotSent]))) as Hsuccess.
  { intros summary d Hs Hc. split; [|split; [done|split; [done|split; [cbn; lia|done]]]].
    apply valid_success; try done. apply good_log_app; [done|]. by apply Forall_singleton, good_mkEvidence. }
  destruct (configEntryForEdit snapshot) as [message|entry] eqn:Ee; [by apply Hfail|].
  destruct (configValueToken service (csConfig (snCluster snapshot))) as [token|] eqn:Etoken; [|by apply Hfail].
  destruct (negb _) eqn:Erev; go_bool.
  { destruct (token ==s plannedValue plan "config.desired") eqn:Edesired; go_bool; [|by apply Hfail].
    apply Hsuccess; [done|]. eapply token_confirmed; [done|]. congruence. }
  destruct (PreviewEditConfig _ _) as [err|preview] eqn:Ep; [by apply Hfail|].
  destruct (negb _ || _) eqn:Eplan; [by apply Hfail|]. apply orb_false_iff in Eplan as [Edesired Epaths].
  unfold reflectStringSlices in Epaths. go_bool. destruct (_ !=s _); [by apply Hfail|].
  destruct (pvNoop preview) eqn:En; [apply Hsuccess; [done|by eapply noop_confirmed]|].
  by eapply writeEditConfig_post.
Qed.
End running.

Lemma ExecuteEditConfig_post ctx request plan :
  Target_Validate (ecTarget request) true = None →
  wp (ExecuteEditConfig service ctx request plan) (edit_post service (normalizeEditConfigRequest request).1 plan).
Proof using Hclock.
  intros Ht. unfold ExecuteEditConfig. eapply wp_bind_read; [apply _|apply planOperationID_spec|]. intros id Hid.
  unfold normalizeEditConfigRequest. cbv zeta. cbn [ecTarget fst].
  assert (Target_Validate (Normalize (ecTarget request)) true = None) as Hn by by rewrite Target_Validate_Normalize.
  pose (request' := mkEditConfigRequest (Normalize (ecTarget request)) (ecEdit request) (ecCitus request)).
  change (mkEditConfigRequest _ _ _) with request'. change (Normalize (ecTarget request)) with (ecTarget request').
  change (Target_Validate (ecTarget request') true = None) in Hn.
  assert (∀ message cause, message ≠ "" →
    wp (mret (failedRead service id "edit-config" (ecTarget request') PathDCS CategoryUsage false message cause []))
       (edit_post service request' plan)) as Hfail.
  { intros. apply edit_post_quiet; [by constructor| |done]. by apply valid_failedRead. }
  destruct (negb ctx); [by apply Hfail|]. destruct (negb (is_nil _)); [by apply Hfail|].
  destruct (validateEditConfigPlan _ _ _); [by apply Hfail|].
  apply wp_call. intros [err|snapshot].
  { apply edit_post_quiet; [by repeat constructor| |done].
    apply valid_editConfigFailure; try done. apply classifyReadError_definite. }
  destruct (checkSnapshotPatroniVersion _ _ _) eqn:Ev; [|by apply editConfigFrom_post].
  apply edit_post_quiet; [by repeat constructor| |done]. by apply valid_unsupported.
Qed.

(** ** Lemmas: preparation *)

(** A preview the plan's texts keep. *)
Definition good_preview (entry : Entry) (preview : ConfigEditPreview) : Prop :=
  (0 < enModRevision entry ≤ max_int64)%Z ∧ Forall (λ path, valid_utf8 path = true) (pvChangedPaths preview).

Lemma preview_sorted current edit preview :
  PreviewEditConfig current edit = inr preview → StringsAreSorted (pvChangedPaths preview) = true.
Proof using Type.
  unfold PreviewEditConfig. destruct (negb (edit_requested edit)); [done|]. intros [= <-].
  apply sort_strings_sorted.
Qed.

Section planned.
Context (operationID : string) (request : EditConfigRequest) (snapshot : Snapshot) (entry : Entry)
  (preview : ConfigEditPreview) (requestToken desiredToken binding : string).
#[local] Abbreviation plan :=
  (editConfigPlan operationID request snapshot entry preview requestToken desiredToken binding).
Context (Hgood : good_preview entry preview) (Hsorted : StringsAreSorted (pvChangedPaths preview) = true).

Lemma planned_revision_entry : editConfigPlanRevision plan = inr (enModRevision entry).
Proof using Hgood.
  destruct Hgood as [Hr _]. unfold editConfigPlanRevision. cbn.
  rewrite ParseInt_FormatInt by (unfold int64, min_int64; lia).
  assert ((enModRevision entry <=? 0)%Z = false) as -> by lia. done.
Qed.

Lemma planned_paths_preview : editConfigPlanPaths plan = inr (pvChangedPaths preview).
Proof using Hgood Hsorted.
  unfold editConfigPlanPaths.
  change (expectedPrecondition plan "config.changedPaths") with (Some (Marshal_strings (pvChangedPaths preview))).
  cbv iota. rewrite Unmarshal_Marshal_strings by apply Hgood. by rewrite Hsorted.
Qed.

Lemma paths_json_preview : paths_json plan (pvChangedPaths preview) = Marshal_strings (pvChangedPaths preview).
Proof using Hgood Hsorted.
  unfold paths_json.
  change (expectedPrecondition plan "config.changedPaths") with (Some (Marshal_strings (pvChangedPaths preview))).
  cbn [mbind option_bind].
  pose proof (Unmarshal_Marshal_strings _ (proj2 Hgood)) as Hu. unfold Unmarshal_strings in Hu.
  destruct (pvChangedPaths preview) as [|path paths]; [done|].
  destruct (parse_json _) as [v|]; [|done]. by destruct v.
Qed.

Lemma editConfigPlan_accepted :
  (∀ key message, String.length (hmac_sha256 key message) = 64%nat) →
  ecTarget request = Normalize (ecTarget request) → configRequestToken service request = Some requestToken →
  configValueToken service (pvAfter preview) = Some desiredToken →
  configPlanBinding service (ecTarget request) (enModRevision entry) requestToken desiredToken
    (Marshal_strings (pvChangedPaths preview)) (FormatBool (pvNoop preview)) (FormatBool (ecCitus request)) = Some binding →
  Plan_Validate plan = None → validateEditConfigPlan service plan request = None.
Proof using Hgood Hsorted.
  intros Hlen Hnorm Hreq Hdes Hbind Hv. unfold validateEditConfigPlan. rewrite Hv.
  change (plan_contract plan "edit-config" PathDCS RiskConfiguration) with true.
  change (pTarget plan) with (ecTarget request). rewrite <- Hnorm, String.eqb_refl. cbn [negb].
  rewrite Hreq, planned_revision_entry, planned_paths_preview, paths_json_preview.
  change (expectedPrecondition plan "config.request") with (Some requestToken).
  change (expectedPrecondition plan "request.citus") with (Some (FormatBool (ecCitus request))).
  change (expectedPrecondition plan "config.desired") with (Some desiredToken).
  change (expectedPrecondition plan "config.noop") with (Some (FormatBool (pvNoop preview))).
  change (expectedPrecondition plan "config.binding") with (Some binding). cbv iota.
  assert (∀ domain text token, planToken service domain text = Some token → token_length token = true) as Htok.
  { intros domain [text|] token [= <-]. unfold token_length. by rewrite Hlen. }
  rewrite !bool_decide_eq_true_2 by done. cbn [negb].
  rewrite (Htok _ _ _ Hdes), (Htok _ _ _ Hbind). by destruct (pvNoop preview).
Qed.

(** On the snapshot the plan was made from, execution goes on to the swap. *)
Lemma editConfigFrom_planned id data current :
  configEntryForEdit snapshot = inr entry →
  PreviewEditConfig (csConfig (snCluster snapshot)) (ecEdit request) = inr preview → pvNoop preview = false →
  configValueToken service (csConfig (snCluster snapshot)) = Some current →
  configValueToken service (pvAfter preview) = Some desiredToken →
  editConfigFrom service id request plan data snapshot
    = writeEditConfig service id (ecTarget request) plan data preview
        [snapshotEvidence service snapshot "edit-config CAS preconditions revalidated"].
Proof using Hgood Hsorted.
  intros He Hp Hn Hc Hdes. unfold editConfigFrom. cbv zeta. rewrite He, Hc, Hp, Hdes.
  unfold planned_revision, planned_paths. rewrite planned_revision_entry, planned_paths_preview, Z.eqb_refl. cbn [negb].
  change (plannedValue plan "config.desired") with desiredToken.
  change (plannedValue plan "config.noop") with (FormatBool (pvNoop preview)).
  unfold reflectStringSlices. rewrite !bool_decide_eq_true_2, Hn by done. done.
Qed.
End planned.

(** What a plan promises. *)
Definition edit_prepared (request : EditConfigRequest) (tr : list event) (r : Result Plan) : Prop :=
  Forall read_only tr ∧ Result_Validate r = None ∧
  (rOutcome r = Succeeded → ∃ snapshot entry preview,
     Ev (CSnapshot (ecTarget request)) (inr snapshot) ∈ tr ∧ version_gated service snapshot ∧
     configEntryForEdit snapshot = inr entry ∧
     PreviewEditConfig (csConfig (snCluster snapshot)) (ecEdit request) = inr preview ∧
     (good_preview entry preview →
      validateEditConfigPlan service (rData r) request = None ∧
      (pvNoop preview = false → is_nil (configValueToken service (csConfig (snCluster snapshot))) = false →
       ∀ id data, editConfigFrom service id request (rData r) data snapshot
         = writeEditConfig service id (ecTarget request) (rData r) data preview
             [snapshotEvidence service snapshot "edit-config CAS preconditions revalidated"]))).

Lemma PrepareEditConfig_post ctx request :
  (∀ key message, String.length (hmac_sha256 key message) = 64%nat) →
  Target_Validate (ecTarget request) true = None →
  wp (PrepareEditConfig service ctx request) (edit_prepared (normalizeEditConfigRequest request).1).
Proof using Hclock.
  intros Hlen Ht. unfold PrepareEditConfig. apply wp_bind.
  eapply wp_mono; [|apply operationID_spec]. intros pre id [Hpre Hid]. cbv beta.
  unfold normalizeEditConfigRequest. cbv zeta. cbn [ecTarget fst].
  assert (Target_Validate (Normalize (ecTarget request)) true = None) as Hn by by rewrite Target_Validate_Normalize.
  assert (Normalize (Normalize (ecTarget request)) = Normalize (ecTarget request)) as Hidem by apply Normalize_idem.
  pose (request' := mkEditConfigRequest (Normalize (ecTarget request)) (ecEdit request) (ecCitus request)).
  change (mkEditConfigRequest _ _ _) with request'. change (Normalize (ecTarget request)) with (ecTarget request').
  change (Target_Validate (ecTarget request') true = None) in Hn.
  assert (∀ tr category retryable message cause evidence,
    Forall read_only tr → definite category → message ≠ "" → Forall good_evidence evidence →
    edit_prepared request' (pre ++ tr)
      (failedRead service id "edit-config" (ecTarget request') PathDCS category retryable message cause evidence)) as Hfail.
  { intros. split; [by apply Forall_app|]. split; [by apply valid_failedRead|done]. }
  destruct (negb ctx); [by apply (Hfail [])|]. destruct (negb (is_nil _)); [by apply (Hfail [])|].
  apply wp_call. intros [err|snapshot].
  { pose proof (classifyReadError_definite (Some err)). destruct (classifyReadError (Some err)).
    apply Hfail; try done. by repeat constructor. }
  assert (∀ text, text ≠ "" → Forall good_evidence [snapshotEvidence service snapshot text]) as Hev
    by (intros; by apply Forall_singleton, good_snapshotEvidence).
  assert (Forall read_only [Ev (CSnapshot (ecTarget request')) (inr snapshot)]) as Hread by by repeat constructor.
  destruct (checkSnapshotPatroniVersion _ _ _) as [err|] eqn:Ever.
  { split; [by apply Forall_app|]. split; [by apply valid_unsupported|done]. }
  destruct (configEntryForEdit snapshot) as [message|entry] eqn:Ee.
  { apply Hfail; [done|unfold configEntryCategory; by case_match| |by apply Hev].
    unfold configEntryForEdit in Ee. by repeat case_match; simplify_eq. }
  destruct (PreviewEditConfig _ _) as [err|preview] eqn:Ep; [by apply Hfail; try done; apply Hev|].
  destruct (configRequestToken _ _) as [requestToken|] eqn:Er; [|by apply Hfail].
  destruct (configValueToken service (pvAfter preview)) as [desiredToken|] eqn:Ed; [|by apply Hfail].
  destruct (configPlanBinding _ _ _ _ _ _ _ _) as [binding|] eqn:Eb; [|by apply Hfail].
  destruct (Plan_Validate _) as [err|] eqn:Epv; [by apply Hfail; try done; apply Hev|].
  pose proof (preview_sorted _ _ _ Ep) as Hs.
  split; [by apply Forall_app|]. split.
  { apply valid_success; try done. split; [done|by apply Hev]. }
  intros _. exists snapshot, entry, preview. split; [apply elem_of_app; right; by apply list_elem_of_singleton|].
  do 3 (split; [done|]). intros Hgood. split; [by apply editConfigPlan_accepted|].
  intros Hnoop Hc id' data. destruct (configValueToken service (csConfig _)) as [current|] eqn:Ec; [|done].
  by apply (editConfigFrom_planned _ _ _ _ _ _ _ _ Hgood Hs _ _ current).
Qed.
End lemmas.

(** ** Properties *)

(** Whatever the DCS answers, [ExecuteEditConfig] on a valid cluster
    target returns a valid result and writes at most once: a compare-and-swap
    on the planned revision, whose payload is the JSON text of the edit applied
    to a fresh, version-checked snapshot with that revision, and whose changed
    paths and content token are the planned ones.  SUCCEEDED means a snapshot
    held the planned configuration, FAILED that nothing was written. *)
Theorem ExecuteEditConfig_swaps `{GoStd} service ctx request plan :
  clock_set service → Target_Validate (ecTarget request) true = None →
  wp (ExecuteEditConfig service ctx request plan) (edit_post service (normalizeEditConfigRequest request).1 plan).
Proof. intros. by apply ExecuteEditConfig_post. Qed.

(** A cluster whose config key was last changed at revision 5. *)
Definition with_config (modRevision : Z) (configuration : config) : Snapshot :=
  mkSnapshot sample_target "/service/pg" 7 [mkEntry "/service/pg/config" "config" KeyConfig 1 modRevision 1 0 ""]
    (sample_cluster "n1" configuration None) [].

Definition sample_edit : EditConfigRequest :=
  mkEditConfigRequest sample_target (mkConfigEdit None (Some [("ttl", VNumber "20"); ("retry_timeout", VNumber "5")]) [])
    false.

Definition before_edit : Snapshot := with_config 5 [("ttl", VNumber "30")].
Definition after_edit : Snapshot := with_config 8 [("ttl", VNumber "20"); ("retry_timeout", VNumber "5")].

Lemma ExecuteEditConfig_swaps_witness :
  let plan := prepared_plan before_edit (PrepareEditConfig sample_service true sample_edit) in
  let r := run (answers before_edit after_edit silence applied) [] (ExecuteEditConfig sample_service true sample_edit plan) in
  (rOutcome r.2 = Succeeded ∧ writes r.1 = 1%nat ∧ cedChangedPaths (rData r.2) = ["retry_timeout"; "ttl"]) ∧
  edit_post sample_service (normalizeEditConfigRequest sample_edit).1 plan r.1 r.2.
Proof.
  split; [vm_compute; repeat split; reflexivity|]. apply wp_run, ExecuteEditConfig_swaps; vm_compute; reflexivity.
Defined.

(** [PrepareEditConfig] only reads and returns a valid result; a plan it
    returns passes the validator of [ExecuteEditConfig] for the same request on
    the same service, and on the snapshot it was made from execution reaches
    the compare-and-swap, when the revision of the config key is positive, the
    changed paths are valid UTF-8 and tokens have the length of a SHA-256 in
    hex. *)
Theorem PrepareEditConfig_executable `{GoStd} service ctx request :
  clock_set service → (∀ key message, String.length (hmac_sha256 key message) = 64%nat) →
  Target_Validate (ecTarget request) true = None →
  wp (PrepareEditConfig service ctx request) (edit_prepared service (normalizeEditConfigRequest request).1).
Proof. intros. by apply PrepareEditConfig_post. Qed.

Lemma PrepareEditConfig_executable_witness :
  let r := run (answers before_edit after_edit silence applied) [] (PrepareEditConfig sample_service true sample_edit) in
  rOutcome r.2 = Succeeded ∧ edit_prepared sample_service (normalizeEditConfigRequest sample_edit).1 r.1 r.2.
Proof.
  split; [vm_compute; reflexivity|].
  apply wp_run, PrepareEditConfig_executable; [vm_compute; reflexivity|intros; reflexivity|vm_compute; reflexivity].
Defined.
