(* ===== verification/Standby.v ===== *)
(** * Standby clusters: [control/standby_cluster.go]

    [demote-cluster] turns a cluster into a standby cluster and
    [promote-cluster] ends that, by one patch of [standby_cluster] through the
    leader.  The plan binds the request, the leader's state and its endpoint by
    keyed tokens; the role change is awaited in the DCS. *)

From S2P Require Import Prelude GoStrings GoErrors GoTime Target Version Values Json Dcs.
From S2P Require Import Effects Contract Readback Samples Select Snapshots Batch.

Definition primaryClusterRole : string := "primary".
Definition standbyLeaderRole : string := "standby_leader".

(** ** Requests and data *)

Record StandbyConfig := mkStandbyConfig {
  scHost : string;
  scPort : Z;
  scRestoreCommand : string;
  scPrimarySlotName : string
}.

Record DemoteClusterRequest := mkDemoteClusterRequest {
  dcqTarget : Target;
  dcqStandby : StandbyConfig;
  dcqForce : bool;
  dcqCitus : bool
}.

Record PromoteClusterRequest := mkPromoteClusterRequest { pcqTarget : Target; pcqForce : bool; pcqCitus : bool }.

Record ClusterRoleData := mkClusterRoleData {
  crPreviousLeader : string;
  crLeader : string;
  crDesiredRole : string;
  crRESTSendState : SendState;
  crVerification : Verification;
  crHTTPStatus : Z;
  crDCSRevision : Z;
  crPendingConditions : list string;
  crNoop : bool
}.

#[export] Instance zero_ClusterRoleData : Zero ClusterRoleData :=
  mkClusterRoleData "" "" "" (SendRaw "") (VerificationRaw "") 0 0 [] false.

Definition ClusterRoleData_Validate (d : ClusterRoleData) : option goerror :=
  if (crDesiredRole d !=s primaryClusterRole) && (crDesiredRole d !=s standbyLeaderRole)
  then Some (EText "standby-cluster desired role is invalid")
  else if negb (SendState_validOrEmpty (crRESTSendState d)) || SendState_empty (crRESTSendState d)
  then Some (EText "standby-cluster REST send state is invalid")
  else if negb (Verification_valid (crVerification d)) then Some (EText "standby-cluster verification is invalid")
  else if (crHTTPStatus d <? 0)%Z || (crDCSRevision d <? 0)%Z
  then Some (EText "standby-cluster status and revision must be non-negative")
  else if negb (StringsAreSorted (crPendingConditions d))
  then Some (EText "standby-cluster pending conditions must be deterministic")
  else if crNoop d && (negb (bool_decide (crRESTSendState d = SendNotSent))
                       || negb (bool_decide (crVerification d = VerifiedSucceeded)))
  then Some (EText "standby-cluster no-op requires verified NOT_SENT success")
  else None.

(** Field assignments of [data]. *)
Definition role_verified (v : Verification) (d : ClusterRoleData) : ClusterRoleData :=
  mkClusterRoleData (crPreviousLeader d) (crLeader d) (crDesiredRole d) (crRESTSendState d) v (crHTTPStatus d)
    (crDCSRevision d) (crPendingConditions d) (crNoop d).
Definition role_observed (leader : string) (revision : Z) (pending : list string) (d : ClusterRoleData) : ClusterRoleData :=
  mkClusterRoleData (crPreviousLeader d) leader (crDesiredRole d) (crRESTSendState d) (crVerification d)
    (crHTTPStatus d) revision pending (crNoop d).
Definition role_sent (send : SendState) (status : Z) (d : ClusterRoleData) : ClusterRoleData :=
  mkClusterRoleData (crPreviousLeader d) (crLeader d) (crDesiredRole d) send (crVerification d) status
    (crDCSRevision d) (crPendingConditions d) (crNoop d).
Definition role_noop (d : ClusterRoleData) : ClusterRoleData :=
  mkClusterRoleData (crPreviousLeader d) (crLeader d) (crDesiredRole d) (crRESTSendState d) (crVerification d)
    (crHTTPStatus d) (crDCSRevision d) (crPendingConditions d) true.

Record standbyClusterIntent := mkStandbyClusterIntent {
  siOperation : string;
  siTarget : Target;
  siStandby : option StandbyConfig;
  siForce : bool;
  siCitus : bool;
  siDesired : string
}.

Definition validateStandbyClusterTarget (target : Target) : option goerror :=
  if tMember target !=s "" then Some (EText "standby-cluster transition target must be a cluster")
  else Target_Validate target true.

Definition citus_group_given (citus : bool) (target : Target) : bool := citus && negb (is_nil (tGroup target)).

Definition normalizeDemoteClusterRequest (request : DemoteClusterRequest) : standbyClusterIntent * option goerror :=
  let configuration := dcqStandby request in
  let intent := mkStandbyClusterIntent "demote-cluster" (Normalize (dcqTarget request)) (Some configuration)
                  (dcqForce request) (dcqCitus request) standbyLeaderRole in
  (intent,
   match validateStandbyClusterTarget (siTarget intent) with
   | Some err => Some err
   | None =>
       if citus_group_given (dcqCitus request) (siTarget intent)
       then Some (EText "demote-cluster does not accept a Citus group; coordinator group 0 is selected")
       else if (scHost configuration ==s "") && (scPort configuration =? 0)%Z && (scRestoreCommand configuration ==s "")
       then Some (EText "at least host, port, or restore command is required") else None
   end).

Definition normalizePromoteClusterRequest (request : PromoteClusterRequest) : standbyClusterIntent * option goerror :=
  let intent := mkStandbyClusterIntent "promote-cluster" (Normalize (pcqTarget request)) None
                  (pcqForce request) (pcqCitus request) primaryClusterRole in
  (intent,
   match validateStandbyClusterTarget (siTarget intent) with
   | Some err => Some err
   | None =>
       if citus_group_given (pcqCitus request) (siTarget intent)
       then Some (EText "promote-cluster does not accept a Citus group; coordinator group 0 is selected") else None
   end).

(** ** Selection *)

Record standbyClusterSelection := mkStandbySelection { ssLeader : Member; ssBaseURL : string }.

Definition set_text (key value : string) (fields : config) : config :=
  if value !=s "" then map_set fields key (VString value) else fields.

Definition standbyClusterPayload (intent : standbyClusterIntent) : config :=
  match siStandby intent with
  | None => [("standby_cluster", VNull)]
  | Some c =>
      let fields := set_text "host" (scHost c) [] in
      let fields := if negb (scPort c =? 0)%Z then map_set fields "port" (VNumber (FormatInt (scPort c))) else fields in
      let fields := set_text "primary_slot_name" (scPrimarySlotName c) fields in
      let fields := set_text "restore_command" (scRestoreCommand c) fields in
      [("standby_cluster", VMap fields)]
  end.

(** What keeps the cluster from the desired role. *)
Definition standbyClusterPending (cluster : ClusterState) (intent : standbyClusterIntent) (previousLeader : string)
    : list string :=
  if leader_name cluster ==s "" then ["leader"]
  else let members := memberMap (csMembers cluster) in
  match members !! leader_name cluster with
  | None => ["leader.member"]
  | Some leader =>
      sort_strings (
        (if mdRole (mbData leader) !=s siDesired intent then ["leader.role"] else []) ++
        (if mdState (mbData leader) !=s "running" then ["leader.state"] else []) ++
        (if (siOperation intent ==s "demote-cluster")
            && match members !! previousLeader with
               | None => true
               | Some old => mdState (mbData old) !=s "running"
               end
         then ["previous-leader.state"] else []))
  end.

Section with_std.
Context `{GoStd} (service : Service).

(** The leader's member and address; the leader alone when only the address is
    wrong. *)
Definition resolveStandbyClusterSelection (snapshot : Snapshot) : standbyClusterSelection * option (Category * goerror) :=
  let cluster := snCluster snapshot in
  if TrimSpace (leader_name cluster) ==s ""
  then (mkStandbySelection zero "", Some (CategoryNotFound, EText "cluster has no leader"))
  else match find_first (λ m, mbName m ==s leader_name cluster) (csMembers cluster) with
  | None => (mkStandbySelection zero "", Some (CategoryNotFound, EText "current leader member is absent"))
  | Some member =>
      match patroniBaseURL (mdAPIURL (mbData member)) with
      | None => (mkStandbySelection member "",
                 Some (CategoryConfig, EText "current leader has no usable Patroni API URL"))
      | Some baseURL => (mkStandbySelection member baseURL, None)
      end
  end.

(** ** Tokens *)

Definition standbyClusterRequestBinding (intent : standbyClusterIntent) : option string :=
  planToken service "standby-cluster/request" (Marshal_struct
    [("operation", VString (siOperation intent)); ("target", VString (ClusterID (siTarget intent)));
     ("force", VBool (siForce intent)); ("citus", VBool (siCitus intent));
     ("payload", VMap (standbyClusterPayload intent))]).

Definition standbyClusterStateBinding (intent : standbyClusterIntent) (leader role state : string) : option string :=
  planToken service "standby-cluster/state" (Marshal_struct
    [("operation", VString (siOperation intent)); ("target", VString (ClusterID (siTarget intent)));
     ("leader", VString leader); ("role", VString role); ("state", VString state)]).

Definition member_state_binding (intent : standbyClusterIntent) (m : Member) : option string :=
  standbyClusterStateBinding intent (mbName m) (mdRole (mbData m)) (mdState (mbData m)).

Definition standbyClusterEndpointBinding (baseURL : string) : option string :=
  planToken service "standby-cluster/endpoint" (Marshal_struct [("baseUrl", VString baseURL)]).

Definition standbyClusterPlanBinding (intent : standbyClusterIntent) (revision : Z)
    (leader role state requestBinding stateBinding endpointBinding : string) : option string :=
  planToken service "standby-cluster/plan" (Marshal_struct
    [("operation", VString (siOperation intent)); ("target", VString (ClusterID (siTarget intent)));
     ("revision", VNumber (FormatInt revision)); ("leader", VString leader); ("role", VString role);
     ("state", VString state); ("requestBinding", VString requestBinding); ("stateBinding", VString stateBinding);
     ("endpointBinding", VString endpointBinding)]).

(** ** Plans *)

Definition standbyClusterPlan (operationID : string) (intent : standbyClusterIntent) (snapshots : list Snapshot)
    (snapshot : Snapshot) (leader : Member) (requestBinding stateBinding endpointBinding planBinding : string) : Plan :=
  mkPlan operationID (siOperation intent) (siTarget intent)
    [Normalize (with_member (Normalize (snTarget snapshot)) (mbName leader))] PathREST RiskAvailability UnsafeAfterSend
    (siOperation intent +:+ " cluster through current leader " +:+ mbName leader +:+ " and wait for " +:+
     siDesired intent +:+ "/running convergence")
    [mkPrecondition "dcs.revision" (FormatInt (snRevision snapshot)) EvidenceDCS;
     mkPrecondition "cluster.leader" (mbName leader) EvidenceDCS;
     mkPrecondition "leader.role" (mdRole (mbData leader)) EvidenceDCS;
     mkPrecondition "leader.state" (mdState (mbData leader)) EvidenceDCS;
     mkPrecondition "desired.role" (siDesired intent) EvidenceControl;
     mkPrecondition "request.force" (FormatBool (siForce intent)) EvidenceControl;
     mkPrecondition "selector.citus" (FormatBool (siCitus intent)) EvidenceControl;
     mkPrecondition "citus.groups" (snapshotGroupIDs snapshots) EvidenceDCS;
     mkPrecondition "request.binding" requestBinding EvidenceControl;
     mkPrecondition "state.binding" stateBinding EvidenceControl;
     mkPrecondition "endpoint.binding" endpointBinding EvidenceControl;
     mkPrecondition "plan.binding" planBinding EvidenceControl].

Definition standbyClusterSnapshots (intent : standbyClusterIntent) : prog snapshots_result :=
  if siCitus intent then citusCoordinatorSnapshot service (siOperation intent) (siTarget intent) false
  else operationSnapshots service (siOperation intent) (siTarget intent) false false.

(** [snapshots[0]] passed the gates: select the leader and bind the plan. *)
Definition planStandbyCluster (operationID : string) (intent : standbyClusterIntent) (snapshots : list Snapshot)
    (evidence : list Evidence) : Result Plan :=
  let operation := siOperation intent in
  let fail category message cause evidence :=
    failedReadWithEvidence service operationID operation (siTarget intent) PathREST category false
      (operation +:+ message) cause evidence in
  let snapshot := first_snapshot snapshots in
  match resolveStandbyClusterSelection snapshot with
  | (_, Some (category, err)) =>
      fail category " leader selection failed" (Some err)
        (evidence ++ [snapshotEvidence service snapshot (operation +:+ " leader selection completed")])
  | (selection, None) =>
      let leader := ssLeader selection in
      if mdRole (mbData leader) ==s siDesired intent then
        failedReadWithEvidence service operationID operation (siTarget intent) PathREST CategoryConflict false
          "cluster is already in the required state" None
          (evidence ++ [snapshotEvidence service snapshot (operation +:+ " observed current cluster role")])
      else match standbyClusterRequestBinding intent with
      | None => fail CategoryInternal " request binding failed" (Some (EText "json")) []
      | Some requestBinding =>
          match member_state_binding intent leader with
          | None => fail CategoryInternal " state binding failed" (Some (EText "json")) []
          | Some stateBinding =>
              match standbyClusterEndpointBinding (ssBaseURL selection) with
              | None => fail CategoryInternal " endpoint binding failed" (Some (EText "json")) []
              | Some endpointBinding =>
                  match standbyClusterPlanBinding intent (snRevision snapshot) (mbName leader) (mdRole (mbData leader))
                          (mdState (mbData leader)) requestBinding stateBinding endpointBinding with
                  | None => fail CategoryInternal " Plan binding failed" (Some (EText "json")) []
                  | Some planBinding =>
                      let plan := standbyClusterPlan operationID intent snapshots snapshot leader requestBinding
                                    stateBinding endpointBinding planBinding in
                      match Plan_Validate plan with
                      | Some err =>
                          fail CategoryInternal " Plan construction failed" (Some err)
                            [snapshotEvidence service snapshot (operation +:+ " leader selection completed")]
                      | None => planResult operationID (siTarget intent) PathREST plan evidence
                      end
                  end
              end
          end
      end
  end.

Definition prepareStandbyCluster (ctx : bool) (intent : standbyClusterIntent) (requestError : option goerror)
    : prog (Result Plan) :=
  operationID ← operationID;
  let operation := siOperation intent in
  let usage message cause :=
    mret (failedRead service operationID operation (siTarget intent) PathREST CategoryUsage false
            (operation +:+ message) cause []) in
  if negb ctx then usage " requires a context" None
  else if negb (is_nil requestError) then usage " request is invalid" requestError
  else
    r ← standbyClusterSnapshots intent;
    match r with
    | inl failure => mret (failureResult service operationID operation (siTarget intent) PathREST failure)
    | inr (snapshots, evidence) =>
        match checkSnapshotsFeature snapshots FeatureStandbyClusterCLI with
        | Some err =>
            mret (failedReadWithEvidence service operationID operation (siTarget intent) PathREST CategoryUnsupported
                    false (operation +:+ " requires Patroni 4.1 or newer") (Some err) evidence)
        | None => mret (planStandbyCluster operationID intent snapshots evidence)
        end
    end.

Definition standbyFields : list string :=
  ["dcs.revision"; "cluster.leader"; "leader.role"; "leader.state"; "desired.role"; "request.force"; "selector.citus";
   "citus.groups"; "request.binding"; "state.binding"; "endpoint.binding"; "plan.binding"].

(** The counting loop over the preconditions. *)
Definition required_once (plan : Plan) (field : string) : bool :=
  (length (List.filter (λ c, pcField c ==s field) (pPreconditions plan)) =? 1)%nat.

Definition nonempty_field (plan : Plan) (field : string) : bool :=
  negb (is_nil (expectedPrecondition plan field)) && (plannedValue plan field !=s "").

Definition standby_preconditions (plan : Plan) (intent : standbyClusterIntent) : bool :=
  forallb (nonempty_field plan) ["cluster.leader"; "request.binding"; "state.binding"; "endpoint.binding"; "plan.binding"] &&
  forallb (λ field, negb (is_nil (expectedPrecondition plan field))) ["leader.role"; "leader.state"; "citus.groups"] &&
  match expectedPrecondition plan "dcs.revision" ≫= ParseInt with Some r => negb (r <? 0)%Z | None => false end &&
  fields_match plan [("desired.role", siDesired intent); ("request.force", FormatBool (siForce intent));
                     ("selector.citus", FormatBool (siCitus intent))] &&
  (tMember (deref zero (head (pTargets plan))) ==s plannedValue plan "cluster.leader").

Definition planned_dcs_revision (plan : Plan) : Z := deref 0%Z (expectedPrecondition plan "dcs.revision" ≫= ParseInt).

Definition validateStandbyClusterPlan (plan : Plan) (intent : standbyClusterIntent) : option goerror :=
  let planned := plannedValue plan in
  match Plan_Validate plan with
  | Some err => Some err
  | None =>
      if negb (plan_contract plan (siOperation intent) PathREST RiskAvailability)
      then Some (EText "plan operation contract differs from standby-cluster transition")
      else if (ClusterID (Normalize (pTarget plan)) !=s ClusterID (siTarget intent))
              || negb (length (pTargets plan) =? 1)%nat
      then Some (EText "plan cluster or leader target differs from request")
      else if negb (forallb (required_once plan) standbyFields)
      then Some (EText "plan requires exactly one precondition per field")
      else if negb (standby_preconditions plan intent)
      then Some (EText "plan standby-cluster preconditions are incomplete")
      else match standbyClusterRequestBinding intent with
      | None => Some (EText "json")
      | Some requestBinding =>
          if planned "request.binding" !=s requestBinding
          then Some (EText "plan request binding differs from request")
          else if negb (bool_decide (standbyClusterStateBinding intent (planned "cluster.leader") (planned "leader.role")
                                       (planned "leader.state") = Some (planned "state.binding")))
          then Some (EText "plan leader-state binding is invalid")
          else if negb (bool_decide (standbyClusterPlanBinding intent (planned_dcs_revision plan)
                                       (planned "cluster.leader") (planned "leader.role") (planned "leader.state")
                                       (planned "request.binding") (planned "state.binding")
                                       (planned "endpoint.binding") = Some (planned "plan.binding")))
          then Some (EText "plan binding is invalid") else None
      end
  end.

(** ** Results *)

Definition standby_evidence (message : string) (data : ClusterRoleData) (evidence : list Evidence) : list Evidence :=
  match evidence with
  | [] => [mkEvidence EvidenceControl (svcNow service) message "" (Path_text PathREST) (crRESTSendState data)]
  | _ => evidence
  end.

Definition standbyClusterSuccess (operationID : string) (intent : standbyClusterIntent) (data : ClusterRoleData)
    (evidence : list Evidence) : Result ClusterRoleData :=
  mkResult operationID Succeeded (siTarget intent) PathREST data evidence None.

Definition standbyClusterFailure (operationID : string) (intent : standbyClusterIntent) (data : ClusterRoleData)
    (class : Category * bool) (message : string) (cause : option goerror) (evidence : list Evidence)
    : Result ClusterRoleData :=
  let data := role_verified VerifiedFailed data in
  let evidence := standby_evidence message data evidence in
  mkResult operationID Failed (siTarget intent) PathREST data evidence
    (Some (NewError class.1 (siOperation intent) (siTarget intent) class.2 message cause evidence)).

Definition standbyClusterUnknown (operationID : string) (intent : standbyClusterIntent) (data : ClusterRoleData)
    (message : string) (cause : option goerror) (evidence : list Evidence) : Result ClusterRoleData :=
  mkResult operationID Unknown (siTarget intent) PathREST (role_verified Unverified data) evidence
    (Some (NewError CategoryUnknown (siOperation intent) (siTarget intent) false message cause evidence)).

(** ** Verification *)

(** Leader, pending conditions and revision of the last snapshot. *)
Definition roleReading (intent : standbyClusterIntent) (previousLeader : string) : Reading (string * list string * Z) :=
  mkReading (siOperation intent +:+ " convergence verification canceled")
    (siOperation intent +:+ " convergence readback failed")
    (λ snapshot, let pending := standbyClusterPending (snCluster snapshot) intent previousLeader in
                 ((leader_name (snCluster snapshot), pending, snRevision snapshot), is_nil (head pending)))
    (λ converged, siOperation intent +:+ (if converged then " cluster role is authoritative"
                                          else " cluster role is not yet authoritative")).

(** Unlike the other readbacks, this one asks the context before each attempt. *)
Fixpoint convergence_loop {A} (target : Target) (reading : Reading A) (attempts : nat) (first : bool) (state : A)
    (evidence : list Evidence) : prog (verdict A) :=
  match attempts with
  | O => mret (false, state, evidence)
  | S attempts =>
      let note source summary := mkEvidence source (svcNow service) summary "" (Path_text PathDCS) (SendRaw "") in
      let canceled := mret (false, state, evidence ++ [note EvidenceControl (rdCanceled reading)]) in
      cancelled ← do_call CCtxErr;
      match cancelled with
      | Some _ => canceled
      | None =>
          waited ← waitUnless first;
          match waited with
          | Some _ => canceled
          | None =>
              r ← do_call (CSnapshot target);
              match r with
              | inl _ =>
                  convergence_loop target reading attempts false state
                    (evidence ++ [note EvidenceDCS (rdFailed reading)])
              | inr snapshot =>
                  let '(state, matched) := rdInspect reading snapshot in
                  let evidence := evidence ++ [snapshotEvidence service snapshot (rdSummary reading matched)] in
                  if (matched : bool) then mret (true, state, evidence)
                  else convergence_loop target reading attempts false state evidence
              end
          end
      end
  end.

Definition verifyStandbyCluster (intent : standbyClusterIntent) (effectiveTarget : Target) (previousLeader : string)
    : prog (verdict (string * list string * Z)) :=
  convergence_loop (with_member effectiveTarget "") (roleReading intent previousLeader)
    (svcStandbyVerificationAttempts service) true ("", [], 0%Z) [].

(** ** Execution *)

Definition restSummary (intent : standbyClusterIntent) (status : Z) : string :=
  if (status =? 200)%Z then "Patroni accepted " +:+ siOperation intent +:+ " configuration"
  else if negb (status =? 0)%Z then "Patroni rejected " +:+ siOperation intent +:+ " configuration"
  else siOperation intent +:+ " transport ended without an HTTP response".

(** Sent, or possibly sent: wait for the role. *)
Definition awaitStandbyCluster (operationID : string) (intent : standbyClusterIntent) (plan : Plan)
    (effectiveTarget : Target) (data : ClusterRoleData) (callError : option goerror) (evidence : list Evidence)
    : prog (Result ClusterRoleData) :=
  v ← verifyStandbyCluster intent effectiveTarget (plannedValue plan "cluster.leader");
  let '(verified, (leader, pending, revision), verificationEvidence) := v in
  let evidence := evidence ++ verificationEvidence in
  let data := role_observed leader revision pending data in
  if (verified : bool) then
    mret (standbyClusterSuccess operationID intent (role_verified VerifiedSucceeded data) evidence)
  else
    cause ← cause_with_context callError;
    mret (standbyClusterUnknown operationID intent data
            (siOperation intent +:+ " was sent or may have been sent but DCS convergence was not verified") cause evidence).

(** The leader is the planned one: patch its configuration. *)
Definition sendStandbyCluster (operationID : string) (intent : standbyClusterIntent) (plan : Plan)
    (effectiveTarget : Target) (baseURL : string) (data : ClusterRoleData) (evidence : list Evidence)
    : prog (Result ClusterRoleData) :=
  let operation := siOperation intent in
  let refuse category message cause :=
    mret (standbyClusterFailure operationID intent data (category, false) (operation +:+ message) cause evidence) in
  cancelled ← do_call CCtxErr;
  match cancelled with
  | Some err => refuse CategoryFailed " was canceled before REST write" (Some err)
  | None =>
      if negb (svcPatroni service) then refuse CategoryConfig " requires a Patroni REST client" None
      else
        r ← do_call (CPatchConfig baseURL (standbyClusterPayload intent));
        let '(response, callError) := r in
        let status := rsStatusCode response in
        let send := patroniSendState callError status in
        let data := role_sent send status data in
        let evidence := evidence ++
          [mkEvidence EvidencePatroni (svcNow service) (restSummary intent status) "" "/config" send] in
        if negb (status =? 0)%Z && negb (status =? 200)%Z then
          mret (standbyClusterFailure operationID intent data (classifyHTTPStatus status)
                  ("Patroni rejected " +:+ operation) callError evidence)
        else if (status =? 0)%Z && bool_decide (send = SendNotSent) then
          mret (standbyClusterFailure operationID intent data (classifyReadError callError)
                  (operation +:+ " was definitely not sent") callError evidence)
        else awaitStandbyCluster operationID intent plan effectiveTarget data callError evidence
  end.

(** From the first of the fresh, gated snapshots. *)
Definition standbyClusterFrom (operationID : string) (intent : standbyClusterIntent) (plan : Plan)
    (data : ClusterRoleData) (snapshots : list Snapshot) (evidence : list Evidence) : prog (Result ClusterRoleData) :=
  let operation := siOperation intent in
  let snapshot := first_snapshot snapshots in
  let previousLeader := plannedValue plan "cluster.leader" in
  if (snapshotGroupIDs snapshots !=s plannedValue plan "citus.groups")
     || (ClusterID (Normalize (deref zero (head (pTargets plan)))) !=s ClusterID (Normalize (snTarget snapshot))) then
    mret (standbyClusterFailure operationID intent data (CategoryConflict, false)
            (operation +:+ " was not sent because the coordinator group changed") None evidence)
  else
    let evidence := evidence ++
      [snapshotEvidence service snapshot (operation +:+ " leader state revalidated before execution")] in
    let refuse data message cause :=
      mret (standbyClusterFailure operationID intent data (CategoryConflict, false) (operation +:+ message) cause evidence) in
    let '(selection, selectionError) := resolveStandbyClusterSelection snapshot in
    let leader := ssLeader selection in
    if (mbName leader !=s "") && (mdRole (mbData leader) ==s siDesired intent) then
      let pending := standbyClusterPending (snCluster snapshot) intent previousLeader in
      let data := role_observed (mbName leader) (snRevision snapshot) pending data in
      if is_nil (head pending) then
        mret (standbyClusterSuccess operationID intent (role_verified VerifiedSucceeded (role_noop data))
                (evidence ++ [mkEvidence EvidenceDCS (svcNow service) (operation +:+ " desired role already converged")
                                (FormatInt (snRevision snapshot)) (snPrefix snapshot) SendNotSent]))
      else refuse data " was not sent because another role transition is incomplete" None
    else match selectionError with
    | Some (_, err) => refuse data " was not sent because the confirmed leader changed" (Some err)
    | None =>
        let state := member_state_binding intent leader in
        let endpoint := standbyClusterEndpointBinding (ssBaseURL selection) in
        if bool_decide (state = Some (plannedValue plan "state.binding"))
           && bool_decide (endpoint = Some (plannedValue plan "endpoint.binding"))
        then sendStandbyCluster operationID intent plan (snTarget snapshot) (ssBaseURL selection) data evidence
        else refuse data " was not sent because confirmed leader state changed"
               (errors_Join [if is_nil state then Some (EText "json") else None;
                             if is_nil endpoint then Some (EText "json") else None])
    end.

Definition executeStandbyCluster (ctx : bool) (intent : standbyClusterIntent) (requestError : option goerror)
    (plan : Plan) : prog (Result ClusterRoleData) :=
  operationID ← planOperationID plan;
  let operation := siOperation intent in
  let usage message cause :=
    mret (failedRead service operationID operation (siTarget intent) PathREST CategoryUsage false
            (operation +:+ message) cause []) in
  if negb ctx then usage " requires a context" None
  else if negb (is_nil requestError) then usage " request is invalid" requestError
  else match validateStandbyClusterPlan plan intent with
  | Some err => usage " Plan does not match the request" (Some err)
  | None =>
      let data := mkClusterRoleData (plannedValue plan "cluster.leader") "" (siDesired intent) SendNotSent Unverified
                    0 0 [] false in
      r ← standbyClusterSnapshots intent;
      match r with
      | inl (failure, evidence) =>
          mret (standbyClusterFailure operationID intent data (dfCategory failure, dfRetryable failure)
                  (dfMessage failure) (dfCause failure) evidence)
      | inr (snapshots, evidence) =>
          match checkSnapshotsFeature snapshots FeatureStandbyClusterCLI with
          | Some err =>
              mret (standbyClusterFailure operationID intent data (CategoryUnsupported, false)
                      (operation +:+ " requires Patroni 4.1 or newer") (Some err) evidence)
          | None => standbyClusterFrom operationID intent plan data snapshots evidence
          end
      end
  end.

Definition PrepareDemoteCluster (ctx : bool) (request : DemoteClusterRequest) : prog (Result Plan) :=
  let '(intent, err) := normalizeDemoteClusterRequest request in prepareStandbyCluster ctx intent err.
Definition ExecuteDemoteCluster (ctx : bool) (request : DemoteClusterRequest) (plan : Plan) : prog (Result ClusterRoleData) :=
  let '(intent, err) := normalizeDemoteClusterRequest request in executeStandbyCluster ctx intent err plan.
Definition PreparePromoteCluster (ctx : bool) (request : PromoteClusterRequest) : prog (Result Plan) :=
  let '(intent, err) := normalizePromoteClusterRequest request in prepareStandbyCluster ctx intent err.
Definition ExecutePromoteCluster (ctx : bool) (request : PromoteClusterRequest) (plan : Plan) : prog (Result ClusterRoleData) :=
  let '(intent, err) := normalizePromoteClusterRequest request in executeStandbyCluster ctx intent err plan.
End with_std.

(** ** Predicates of the theorems *)

Definition role_converged (intent : standbyClusterIntent) (plan : Plan) (snapshot : Snapshot) : bool :=
  is_nil (head (standbyClusterPending (snCluster snapshot) intent (plannedValue plan "cluster.leader"))).

Definition feature_gated (feature : Feature) (snapshot : Snapshot) : Prop :=
  first_error (checkMemberFeature feature) (csMembers (snCluster snapshot)) = None.

Section predicates.
Context `{GoStd} (service : Service) (intent : standbyClusterIntent) (plan : Plan).

(** The leader of a fresh, gated snapshot, in the planned state, at the planned
    address, not yet in the desired role. *)
Definition leader_confirmed (snapshot : Snapshot) (url : string) : Prop :=
  ∃ leader,
    find_first (λ m, mbName m ==s leader_name (snCluster snapshot)) (csMembers (snCluster snapshot)) = Some leader ∧
    patroniBaseURL (mdAPIURL (mbData leader)) = Some url ∧ mdRole (mbData leader) ≠ siDesired intent ∧
    member_state_binding service intent leader
      = standbyClusterStateBinding service intent (plannedValue plan "cluster.leader") (plannedValue plan "leader.role")
          (plannedValue plan "leader.state") ∧
    standbyClusterEndpointBinding service url = Some (plannedValue plan "endpoint.binding").

(** The patch of this request, sent to the address [url], and no other write. *)
Definition only_patch (url : string) (tr : list event) : Prop :=
  Forall (λ e, is_write (ev_call e) = true → ev_call e = CPatchConfig url (standbyClusterPayload intent)) tr.

Definition patch_confirmed (tr : list event) : Prop :=
  ∃ snapshot url, seen tr snapshot ∧ version_gated service snapshot ∧
    feature_gated FeatureStandbyClusterCLI snapshot ∧ leader_confirmed snapshot url ∧ only_patch url tr.

Definition standby_post (tr : list event) (r : Result ClusterRoleData) : Prop :=
  Result_Validate r = None ∧ (rOutcome r = Failed → Forall quiet tr) ∧
  (rOutcome r = Succeeded → ∃ snapshot, seen tr snapshot ∧ role_converged intent plan snapshot = true) ∧
  (writes tr ≤ 1)%nat ∧ (writes tr ≠ 0%nat → patch_confirmed tr).

#[export] Instance standby_post_read : ReadClosed standby_post.
Proof using Type.
  intros pre tr r Hpre (Hv & Hf & Hs & Hw & Hc). split; [done|]. split; [|split; [|split]].
  - intros Hr. apply Forall_app. split; [by apply Forall_read_only_quiet|by apply Hf].
  - intros (snapshot & Hin & Hrest)%Hs. exists snapshot. split; [|done]. apply seen_app. by right.
  - rewrite writes_app, writes_read_only by done. lia.
  - rewrite writes_app, writes_read_only by done. intros (snapshot & url & Hin & Hg & Hfe & Hl & Ho)%Hc.
    exists snapshot, url. split; [apply seen_app; by right|]. do 3 (split; [done|]). apply Forall_app. split; [|done].
    eapply Forall_impl; [exact Hpre|]. unfold read_only. intros e ->. done.
Qed.
End predicates.

(** ** Lemmas: the readback *)

Section lemmas.
Context `{GoStd} (service : Service) (Hclock : clock_set service).

Lemma convergence_loop_spec {A} target (reading : Reading A) attempts first state evidence :
  (clock_set service → good_texts reading → Forall good_evidence evidence) →
  wp (convergence_loop service target reading attempts first state evidence) (readback_post service target reading).
Proof using Type.
  revert first state evidence. induction attempts as [|n IH]; intros first state evidence He; cbn [convergence_loop];
    [by split; [constructor|]|]. cbv zeta.
  assert (∀ e, (clock_set service → good_texts reading → good_evidence e) →
            clock_set service → good_texts reading → Forall good_evidence (evidence ++ [e])) as Hadd
    by (intros; apply Forall_app; split; [auto|apply Forall_singleton; auto]).
  assert (∀ tr, Forall read_only tr → readback_post service target reading tr
    (false, state, evidence ++ [mkEvidence EvidenceControl (svcNow service) (rdCanceled reading) "" (Path_text PathDCS)
       (SendRaw "")])) as Hcancel.
  { intros. split; [done|]. split; [|done]. apply Hadd. intros ? (? & ? & ?). by apply good_mkEvidence. }
  apply wp_call. intros [cancelled|]; [by apply Hcancel; repeat constructor|].
  apply wp_bind. eapply wp_mono; [|apply waitUnless_spec]. cbn. intros pre waited [Hpre _].
  assert (Forall read_only (Ev CCtxErr None :: pre)) as Hpre' by by constructor.
  destruct waited as [err|]; [cbn; rewrite app_nil_r; by apply Hcancel|].
  assert (∀ r state evidence, (clock_set service → good_texts reading → Forall good_evidence evidence) →
    wp (convergence_loop service target reading n false state evidence)
       (λ tr, readback_post service target reading (Ev CCtxErr None :: pre ++ Ev (CSnapshot target) r :: tr))) as Hnext.
  { intros. eapply wp_mono; [|by apply IH]. cbn. intros tr v (Htr & Hev & Hv). split; [|split; [done|]].
    - apply (Forall_app_2 _ (_ :: pre)); [done|]. by constructor.
    - intros Hm. apply (observed_app _ _ (_ :: pre)), (observed_app _ _ [_]). auto. }
  apply wp_call. intros [err|s].
  { apply Hnext, Hadd. intros ? (? & ? & ?). by apply good_mkEvidence. }
  destruct (rdInspect reading s) as [state' matched] eqn:Ei.
  assert (clock_set service → good_texts reading →
    Forall good_evidence (evidence ++ [snapshotEvidence service s (rdSummary reading matched)])) as Hev
    by (apply Hadd; intros ? (? & ? & ?); by apply good_snapshotEvidence).
  destruct matched; [|by apply Hnext].
  split; [apply (Forall_app_2 _ (_ :: pre)); [done|by repeat constructor]|]. split; [done|]. intros _.
  exists s. split; [|by rewrite Ei]. apply (elem_of_app (_ :: pre)). right. apply list_elem_of_here.
Qed.

Section running.
Context (operationID : string) (intent : standbyClusterIntent) (plan : Plan).
Context (Hid : operationID ≠ "") (Ht : Target_Validate (siTarget intent) true = None) (Hop : siOperation intent ≠ "").

#[local] Abbreviation target := (siTarget intent).
#[local] Abbreviation post := (standby_post service intent plan).

Lemma standby_evidence_good message data evidence :
  message ≠ "" → SendState_validOrEmpty (crRESTSendState data) = true → Forall good_evidence evidence →
  good_log (standby_evidence service message data evidence).
Proof using Hclock.
  intros Hm Hs He. destruct evidence; [|by split]. by apply good_log_singleton, good_mkEvidence.
Qed.

Lemma valid_standbyClusterFailure data class message cause evidence :
  definite_class class → message ≠ "" → SendState_validOrEmpty (crRESTSendState data) = true →
  Forall good_evidence evidence →
  Result_Validate (standbyClusterFailure service operationID intent data class message cause evidence) = None.
Proof using Hclock Hid Ht Hop. intros. apply valid_failed; try done. by apply standby_evidence_good. Qed.

Lemma standby_post_quiet tr r :
  Forall read_only tr → Result_Validate r = None → rOutcome r ≠ Succeeded → post tr r.
Proof using Type.
  intros Htr Hr Hs. split; [done|]. split; [by intros; apply Forall_read_only_quiet|]. split; [done|].
  rewrite writes_read_only by done. split; [lia|done].
Qed.

Lemma verifyStandbyCluster_post effective :
  wp (verifyStandbyCluster service intent effective (plannedValue plan "cluster.leader"))
    (λ tr v, Forall read_only tr ∧ Forall good_evidence v.2 ∧
             (v.1.1 = true → observed (with_member effective "") (role_converged intent plan) tr)).
Proof using Hclock Hop.
  eapply wp_mono; [|by apply convergence_loop_spec; repeat constructor]. intros tr v (Htr & He & Hv). split; [done|].
  split; [|done]. apply He; [done|].
  split; [by apply app_not_empty_l|]. split; [by apply app_not_empty_l|]. intros. by apply app_not_empty_l.
Qed.

(** Before the patch: what [patch_confirmed] says of the reads [pre]. *)
Definition patch_ready (url : string) (pre : list event) : Prop :=
  Forall read_only pre ∧ ∀ tr, only_patch intent url tr → patch_confirmed service intent plan (pre ++ tr).

Lemma patch_ready_snoc url pre e : read_only e → patch_ready url pre → patch_ready url (pre ++ [e]).
Proof using Type.
  intros He [Hpre Hr]. split; [apply Forall_app; split; [done|by apply Forall_singleton]|].
  intros tr Ho. rewrite <- app_assoc. apply Hr. constructor; [|done]. unfold read_only in He. by rewrite He.
Qed.

(** One patch after [pre], answered [response], then reads alone. *)
Lemma patched_post url pre response err tr r :
  patch_ready url pre → Forall read_only tr → Result_Validate r = None →
  (rOutcome r = Failed → rest_may_apply (CPatchConfig url (standbyClusterPayload intent)) (response, err) = false) →
  (rOutcome r = Succeeded → ∃ snapshot, seen tr snapshot ∧ role_converged intent plan snapshot = true) →
  post (pre ++ Ev (CPatchConfig url (standbyClusterPayload intent)) (response, err) :: tr) r.
Proof using Type.
  intros [Hpre Hready] Htr Hr Hf Hs. split; [done|]. split; [|split; [|split]].
  - intros Hq%Hf. apply Forall_app. split; [by apply Forall_read_only_quiet|]. constructor; [done|].
    by apply Forall_read_only_quiet.
  - intros (s & Hin & Hm)%Hs. exists s. split; [|done]. apply seen_app. right. by apply Exists_cons_tl.
  - rewrite writes_app, (writes_read_only pre) by done. unfold writes. cbn.
    fold (writes tr). rewrite writes_read_only by done. lia.
  - intros _. apply Hready. constructor; [done|]. eapply Forall_impl; [exact Htr|]. unfold read_only. intros e ->. done.
Qed.

Lemma observed_seen effective P tr : observed effective P tr → ∃ snapshot, seen tr snapshot ∧ P snapshot = true.
Proof using Type.
  intros (s & Hin & Hs). exists s. split; [|done]. apply Exists_exists. by eexists.
Qed.

Lemma awaitStandbyCluster_post url pre response err effective data evidence :
  patch_ready url pre → good_log evidence →
  wp (awaitStandbyCluster service operationID intent plan effective data err evidence)
    (λ tr, post (pre ++ Ev (CPatchConfig url (standbyClusterPayload intent)) (response, err) :: tr)).
Proof using Hclock Hid Ht Hop.
  intros Hready Hlog. unfold awaitStandbyCluster. apply wp_bind.
  eapply wp_mono; [|apply verifyStandbyCluster_post]. intros tr [[verified [[leader pending] revision]] ev] (Htr & Hev & Hv).
  cbn in Hev, Hv. cbv zeta. assert (good_log (evidence ++ ev)) as Hlog' by by apply good_log_app. destruct verified.
  - apply patched_post; [done|by rewrite app_nil_r|by apply valid_success|done|].
    intros _. rewrite app_nil_r. by eapply observed_seen, Hv.
  - apply wp_bind. eapply wp_mono; [|apply cause_with_context_spec]. intros tr' cause [Htr' _]. cbn. rewrite app_nil_r.
    apply patched_post; [done|by apply Forall_app| |done..]. apply valid_unknown; try done. by apply app_not_empty_l.
Qed.

Lemma restSummary_not_empty status : restSummary intent status ≠ "".
Proof using Hop. unfold restSummary. repeat case_match; auto with go. Qed.

Lemma sendStandbyCluster_post url pre effective data evidence :
  patch_ready url pre → SendState_validOrEmpty (crRESTSendState data) = true → good_log evidence →
  wp (sendStandbyCluster service operationID intent plan effective url data evidence) (λ tr, post (pre ++ tr)).
Proof using Hclock Hid Ht Hop.
  intros Hready Hd Hlog. unfold sendStandbyCluster. cbv zeta.
  assert (∀ category message cause tr, definite category → Forall read_only tr →
    post (pre ++ tr) (standbyClusterFailure service operationID intent data (category, false)
                        (siOperation intent +:+ message) cause evidence)) as Hfail.
  { intros. apply standby_post_quiet; [apply Forall_app; split; [apply Hready|done]| |done].
    apply valid_standbyClusterFailure; try done; [by apply app_not_empty_l|apply Hlog]. }
  apply wp_call. intros [err|]; [by apply Hfail; [|repeat constructor]|].
  destruct (negb (svcPatroni service)); [by apply Hfail; [|repeat constructor]|].
  assert (patch_ready url (pre ++ [Ev CCtxErr None])) as Hready' by by apply patch_ready_snoc.
  apply wp_call. intros [response err].
  assert (good_evidence (mkEvidence EvidencePatroni (svcNow service) (restSummary intent (rsStatusCode response)) ""
    "/config" (patroniSendState err (rsStatusCode response)))) as Hev
    by (apply good_mkEvidence; [done..|apply restSummary_not_empty|apply patroniSendState_valid]).
  set (log := evidence ++ [_]). assert (good_log log) as Hlog' by by apply good_log_app; [|apply Forall_singleton].
  set (data' := role_sent _ _ data).
  assert (SendState_validOrEmpty (crRESTSendState data') = true) as Hd' by apply patroniSendState_valid.
  assert (∀ class message cause, definite_class class → message ≠ "" →
    rest_may_apply (CPatchConfig url (standbyClusterPayload intent)) (response, err) = false →
    post (pre ++ [Ev CCtxErr None; Ev (CPatchConfig url (standbyClusterPayload intent)) (response, err)])
      (standbyClusterFailure service operationID intent data' class message cause log)) as Hrefused.
  { intros. pose proof (patched_post url (pre ++ [Ev CCtxErr None]) response err []) as Hp. rewrite <- app_assoc in Hp.
    apply Hp; try done. by apply valid_standbyClusterFailure; [..|apply Hlog']. }
  destruct (negb _ && negb _) eqn:Estatus; [|destruct (_ && bool_decide _) eqn:Esend].
  - apply Hrefused; [apply classifyHTTPStatus_definite|auto with go|]. unfold rest_may_apply.
    apply andb_true_iff in Estatus as [Hz Hok]. cbn [fst]. destruct (_ =? 0)%Z; [done|]. cbn. by destruct (_ =? 200)%Z.
  - apply andb_true_iff in Esend as [_ Hn%bool_decide_eq_true].
    apply Hrefused; [apply classifyReadError_definite|by apply app_not_empty_l|]. by eapply patroniSendState_NotSent.
  - eapply wp_mono; [|by apply (awaitStandbyCluster_post url (pre ++ [Ev CCtxErr None]))].
    intros tr r. cbv beta. rewrite <- app_assoc. exact id.
Qed.

(** ** Lemmas: execution *)

Lemma state_binding_planned leader :
  standbyClusterStateBinding service intent (plannedValue plan "cluster.leader") (plannedValue plan "leader.role")
    (plannedValue plan "leader.state") = Some (plannedValue plan "state.binding") →
  member_state_binding service intent leader = Some (plannedValue plan "state.binding") →
  member_state_binding service intent leader
    = standbyClusterStateBinding service intent (plannedValue plan "cluster.leader") (plannedValue plan "leader.role")
        (plannedValue plan "leader.state").
Proof using Type. by intros -> ->. Qed.

Lemma standbyClusterFrom_post data snapshots evidence pre :
  standbyClusterStateBinding service intent (plannedValue plan "cluster.leader") (plannedValue plan "leader.role")
    (plannedValue plan "leader.state") = Some (plannedValue plan "state.binding") →
  Forall read_only pre → snapshots ≠ [] → Forall (seen pre) snapshots → Forall (version_gated service) snapshots →
  checkSnapshotsFeature snapshots FeatureStandbyClusterCLI = None →
  SendState_validOrEmpty (crRESTSendState data) = true → good_log evidence →
  wp (standbyClusterFrom service operationID intent plan data snapshots evidence) (λ tr, post (pre ++ tr)).
Proof using Hclock Hid Ht Hop.
  intros Hbind Hpre Hne Hseen Hgate Hfeature Hd Hlog.
  assert (∀ data message cause evidence, SendState_validOrEmpty (crRESTSendState data) = true → good_log evidence →
    post (pre ++ []) (standbyClusterFailure service operationID intent data (CategoryConflict, false)
                        (siOperation intent +:+ message) cause evidence)) as Hfail.
  { intros. apply standby_post_quiet; [by rewrite app_nil_r| |done].
    apply valid_standbyClusterFailure; try done; [by apply app_not_empty_l|by apply good_log_Forall]. }
  unfold standbyClusterFrom. cbv zeta. destruct (_ || _); [by apply Hfail|].
  destruct snapshots as [|snapshot rest]; [done|]. change (first_snapshot (snapshot :: rest)) with snapshot.
  apply Forall_cons in Hseen as [Hseen _], Hgate as [Hgate _].
  apply first_error_None, Forall_cons in Hfeature as [Hfeature _].
  set (log := evidence ++ [snapshotEvidence _ _ _]).
  assert (good_log log) as Hlog'
    by (apply good_log_app; [done|]; apply Forall_singleton, good_snapshotEvidence; [done|by apply app_not_empty_l]).
  destruct (resolveStandbyClusterSelection snapshot) as [selection selectionError] eqn:Es.
  destruct (_ && _) eqn:Erole.
  - destruct (is_nil _) eqn:Ep; [|by apply Hfail].
    split; [|split; [done|split; [|split]]].
    + apply valid_success; try done. apply (good_log_app log); [done|].
      apply Forall_singleton, good_mkEvidence; try done. by apply app_not_empty_l.
    + intros _. exists snapshot. by rewrite app_nil_r.
    + rewrite app_nil_r, writes_read_only by done. lia.
    + by rewrite app_nil_r, writes_read_only by done.
  - destruct selectionError as [[category err]|]; [by apply Hfail|].
    destruct (bool_decide _ && bool_decide _) eqn:Eb; [|by apply Hfail].
    apply andb_true_iff in Eb as [Hstate%bool_decide_eq_true Hendpoint%bool_decide_eq_true].
    unfold resolveStandbyClusterSelection in Es. destruct (TrimSpace _ ==s "") eqn:Etrim; [done|].
    destruct (find_first _ _) as [leader|] eqn:El; [|done].
    destruct (patroniBaseURL _) as [url|] eqn:Eu; simplify_eq/=.
    apply sendStandbyCluster_post; [|done..]. split; [done|]. intros tr Ho. exists snapshot, url.
    split; [apply seen_app; by left|]. do 2 (split; [done|]). split.
    + exists leader. do 2 (split; [done|]). split; [|split; [by apply state_binding_planned|done]].
      apply find_first_Some in El as [_ Hname%String.eqb_eq]. intros Hrole.
      rewrite Hrole, String.eqb_refl, andb_true_r in Erole. apply negb_false_iff, String.eqb_eq in Erole.
      by rewrite <- Hname, Erole in Etrim.
    + apply Forall_app. split; [|done]. eapply Forall_impl; [exact Hpre|]. unfold read_only. intros e ->. done.
Qed.
End running.

Lemma standbyClusterSnapshots_post intent :
  siOperation intent ≠ "" →
  wp (standbyClusterSnapshots service intent)
    (λ tr r, (Forall read_only tr ∧ good_snapshots (version_gated service) r) ∧ all_seen tr r).
Proof using Hclock.
  intros Hop. unfold standbyClusterSnapshots. destruct (siCitus intent); apply wp_and.
  - by apply citusCoordinator_spec.
  - apply citusCoordinator_seen.
  - by apply operationSnapshots_spec.
  - apply operationSnapshots_seen.
Qed.

Lemma validateStandbyClusterPlan_state intent plan :
  validateStandbyClusterPlan service plan intent = None →
  standbyClusterStateBinding service intent (plannedValue plan "cluster.leader") (plannedValue plan "leader.role")
    (plannedValue plan "leader.state") = Some (plannedValue plan "state.binding").
Proof using Type.
  unfold validateStandbyClusterPlan. cbv zeta. destruct (Plan_Validate plan); [done|].
  destruct (negb (plan_contract _ _ _ _)); [done|]. destruct (_ || _); [done|].
  destruct (negb (forallb _ _)); [done|]. destruct (negb (standby_preconditions _ _)); [done|].
  destruct (standbyClusterRequestBinding _ _); [|done]. destruct (_ !=s _); [done|].
  destruct (bool_decide _) eqn:E; [|done]. by apply bool_decide_eq_true in E.
Qed.

Lemma executeStandbyCluster_post ctx intent requestError plan :
  Target_Validate (siTarget intent) true = None → siOperation intent ≠ "" →
  wp (executeStandbyCluster service ctx intent requestError plan) (standby_post service intent plan).
Proof using Hclock.
  intros Ht Hop. unfold executeStandbyCluster. eapply wp_bind_read; [apply _|apply planOperationID_spec|].
  intros id Hid. cbv zeta.
  assert (∀ message cause,
    wp (mret (failedRead service id (siOperation intent) (siTarget intent) PathREST CategoryUsage false
                (siOperation intent +:+ message) cause [])) (standby_post service intent plan)) as Hfail.
  { intros. apply standby_post_quiet; [by constructor| |done]. apply valid_failedRead; try done.
    by apply app_not_empty_l. }
  destruct (negb ctx); [apply Hfail|]. destruct (negb (is_nil _)); [apply Hfail|].
  destruct (validateStandbyClusterPlan _ _ _) eqn:Ep; [apply Hfail|]. apply validateStandbyClusterPlan_state in Ep.
  apply wp_bind. eapply wp_mono; [|by apply standbyClusterSnapshots_post]. intros tr r [[Htr Hr] Hseen].
  destruct r as [[failure evidence]|[snapshots evidence]].
  { destruct Hr as (Hd & Hm & He). cbn. rewrite app_nil_r. apply standby_post_quiet; [done| |done].
    by apply valid_standbyClusterFailure. }
  destruct Hr as (Hne & Hgate & Hlog). destruct (checkSnapshotsFeature _ _) eqn:Ef.
  { cbn. rewrite app_nil_r. apply standby_post_quiet; [done| |done].
    apply valid_standbyClusterFailure; try done; [by apply app_not_empty_l|by apply good_log_Forall]. }
  by apply standbyClusterFrom_post.
Qed.

(** ** Lemmas: preparation *)

(** A leader whose name and revision the plan's texts keep. *)
Definition plannable (snapshot : Snapshot) (leader : Member) : Prop :=
  (0 ≤ snRevision snapshot ≤ max_int64)%Z ∧ TrimSpace (mbName leader) = mbName leader.

Section planned.
Context (operationID : string) (intent : standbyClusterIntent) (snapshots : list Snapshot) (leader : Member)
  (url requestBinding stateBinding endpointBinding planBinding : string).
#[local] Abbreviation snapshot := (first_snapshot snapshots).
#[local] Abbreviation plan :=
  (standbyClusterPlan operationID intent snapshots snapshot leader requestBinding stateBinding endpointBinding planBinding).
Context (Hselect : resolveStandbyClusterSelection snapshot = (mkStandbySelection leader url, None)).
Context (Hrole : mdRole (mbData leader) ≠ siDesired intent).
Context (Hstate : member_state_binding service intent leader = Some stateBinding).
Context (Hendpoint : standbyClusterEndpointBinding service url = Some endpointBinding).

Lemma selected_leader_named : mbName leader ≠ "".
Proof using Hselect Hrole intent.
  unfold resolveStandbyClusterSelection in Hselect. destruct (TrimSpace _ ==s "") eqn:Et; [done|].
  destruct (find_first _ _) as [m|] eqn:E; [|done]. apply find_first_Some in E as [_ Hname%String.eqb_eq].
  destruct (patroniBaseURL _); simplify_eq. intros Hm. by rewrite <- Hname, Hm in Et.
Qed.

(** On the snapshots the plan was made from, execution goes on to the patch. *)
Lemma standbyClusterFrom_planned id data evidence :
  standbyClusterFrom service id intent plan data snapshots evidence
    = sendStandbyCluster service id intent plan (snTarget snapshot) url data
        (evidence ++ [snapshotEvidence service snapshot (siOperation intent +:+
                        " leader state revalidated before execution")]).
Proof using Hselect Hrole Hstate Hendpoint.
  unfold standbyClusterFrom. cbv zeta.
  change (plannedValue plan "citus.groups") with (snapshotGroupIDs snapshots).
  change (deref zero (head (pTargets plan))) with (Normalize (with_member (Normalize (snTarget snapshot)) (mbName leader))).
  assert (ClusterID (Normalize (Normalize (with_member (Normalize (snTarget snapshot)) (mbName leader))))
            = ClusterID (Normalize (snTarget snapshot))) as -> by by rewrite !ClusterID_Normalize, ClusterID_with_member.
  rewrite !String.eqb_refl. cbn [negb orb]. rewrite Hselect. cbn [ssLeader ssBaseURL].
  apply String.eqb_neq in Hrole. rewrite Hrole, andb_false_r, Hstate, Hendpoint.
  change (plannedValue plan "state.binding") with stateBinding.
  change (plannedValue plan "endpoint.binding") with endpointBinding.
  by rewrite !bool_decide_eq_true_2.
Qed.

Lemma standbyClusterPlan_accepted :
  (∀ key message, String.length (hmac_sha256 key message) = 64%nat) → plannable snapshot leader →
  siTarget intent = Normalize (siTarget intent) →
  standbyClusterRequestBinding service intent = Some requestBinding →
  standbyClusterPlanBinding service intent (snRevision snapshot) (mbName leader) (mdRole (mbData leader))
    (mdState (mbData leader)) requestBinding stateBinding endpointBinding = Some planBinding →
  Plan_Validate plan = None → validateStandbyClusterPlan service plan intent = None.
Proof using Hselect Hrole Hstate Hendpoint.
  intros Hlen [Hrev Hname] Hnorm Hreq Hplan Hv. unfold validateStandbyClusterPlan. cbv zeta. rewrite Hv.
  assert (plan_contract plan (siOperation intent) PathREST RiskAvailability = true) as ->
    by (unfold plan_contract; cbn; by rewrite String.eqb_refl).
  change (pTarget plan) with (siTarget intent). rewrite <- Hnorm, String.eqb_refl.
  change (negb (forallb (required_once plan) standbyFields)) with false. cbn [negb orb length Nat.eqb pTargets].
  assert (∀ domain text token, planToken service domain text = Some token → token ≠ "") as Htok.
  { intros domain [text|] token [= <-] E. specialize (Hlen (svcPlanKey service) (token_prefix domain +:+ text)).
    by rewrite E in Hlen. }
  assert (∀ domain text token, planToken service domain text = Some token → (token ==s "") = false) as Htok'
    by (intros; by eapply String.eqb_neq, Htok).
  assert (expectedPrecondition plan "dcs.revision" ≫= ParseInt = Some (snRevision snapshot)) as Hparse.
  { cbn. apply ParseInt_FormatInt. unfold int64, min_int64. lia. }
  assert (standby_preconditions plan intent = true) as ->.
  { unfold standby_preconditions. rewrite Hparse. unfold fields_match, nonempty_field. cbn. rewrite Hname, String.eqb_refl.
    rewrite (proj2 (String.eqb_neq _ _) selected_leader_named).
    rewrite (Htok' _ _ _ Hreq), (Htok' _ _ _ Hstate), (Htok' _ _ _ Hendpoint), (Htok' _ _ _ Hplan).
    rewrite (proj2 (Z.ltb_ge (snRevision snapshot) 0)) by lia. cbn. by rewrite !bool_decide_eq_true_2. }
  cbn [negb]. rewrite Hreq. unfold planned_dcs_revision. rewrite Hparse.
  change (plannedValue plan "request.binding") with requestBinding.
  change (plannedValue plan "state.binding") with stateBinding.
  change (plannedValue plan "endpoint.binding") with endpointBinding.
  change (plannedValue plan "plan.binding") with planBinding.
  change (plannedValue plan "cluster.leader") with (mbName leader).
  change (plannedValue plan "leader.role") with (mdRole (mbData leader)).
  change (plannedValue plan "leader.state") with (mdState (mbData leader)). cbn [deref].
  rewrite String.eqb_refl. cbn [negb]. rewrite !bool_decide_eq_true_2; done.
Qed.
End planned.

(** What a plan promises: it comes from gated snapshots whose leader is not yet
    in the desired role, the validator accepts it, and on the same snapshots
    execution reaches the patch of that leader. *)
Definition standby_prepared (intent : standbyClusterIntent) (tr : list event) (r : Result Plan) : Prop :=
  Forall read_only tr ∧ Result_Validate r = None ∧
  (rOutcome r = Succeeded → ∃ snapshots leader url,
     seen tr (first_snapshot snapshots) ∧ version_gated service (first_snapshot snapshots) ∧
     checkSnapshotsFeature snapshots FeatureStandbyClusterCLI = None ∧
     resolveStandbyClusterSelection (first_snapshot snapshots) = (mkStandbySelection leader url, None) ∧
     mdRole (mbData leader) ≠ siDesired intent ∧
     (plannable (first_snapshot snapshots) leader →
      validateStandbyClusterPlan service (rData r) intent = None ∧
      ∀ id data evidence, standbyClusterFrom service id intent (rData r) data snapshots evidence
        = sendStandbyCluster service id intent (rData r) (snTarget (first_snapshot snapshots)) url data
            (evidence ++ [snapshotEvidence service (first_snapshot snapshots)
                            (siOperation intent +:+ " leader state revalidated before execution")]))).

Lemma prepareStandbyCluster_post ctx intent requestError :
  (∀ key message, String.length (hmac_sha256 key message) = 64%nat) →
  Target_Validate (siTarget intent) true = None → siTarget intent = Normalize (siTarget intent) →
  siOperation intent ≠ "" →
  wp (prepareStandbyCluster service ctx intent requestError) (standby_prepared intent).
Proof using Hclock.
  intros Hlen Ht Hnorm Hop. unfold prepareStandbyCluster. apply wp_bind.
  eapply wp_mono; [|apply operationID_spec]. intros pre id [Hpre Hid]. cbv zeta.
  assert (∀ tr category retryable message cause evidence,
    Forall read_only tr → definite category → message ≠ "" → Forall good_evidence evidence →
    standby_prepared intent (pre ++ tr)
      (failedReadWithEvidence service id (siOperation intent) (siTarget intent) PathREST category retryable message
         cause evidence)) as Hfail.
  { intros. split; [by apply Forall_app|]. split; [by apply valid_failedRead|done]. }
  assert (∀ text, siOperation intent +:+ text ≠ "") as Htext by (intros; by apply app_not_empty_l).
  destruct (negb ctx); [by apply (Hfail [])|]. destruct (negb (is_nil _)); [by apply (Hfail [])|].
  apply wp_bind. eapply wp_mono; [|by apply standbyClusterSnapshots_post]. intros tr r [[Htr Hr] Hseen].
  destruct r as [[failure evidence]|[snapshots evidence]].
  { destruct Hr as (Hd & Hm & He). cbn. rewrite app_nil_r. by apply Hfail. }
  destruct Hr as (Hne & Hgate & Hlog). pose proof (good_log_Forall _ Hlog) as He.
  destruct (checkSnapshotsFeature _ _) eqn:Ef; [cbn; rewrite app_nil_r; by apply Hfail|].
  cbn [wp mret prog_ret]. rewrite app_nil_r. unfold planStandbyCluster. cbv zeta.
  assert (∀ text, Forall good_evidence [snapshotEvidence service (first_snapshot snapshots) (siOperation intent +:+ text)])
    as Hev by (intros; by apply Forall_singleton, good_snapshotEvidence).
  assert (∀ text, Forall good_evidence (evidence ++ [snapshotEvidence service (first_snapshot snapshots)
            (siOperation intent +:+ text)])) as Hev' by (intros; by apply Forall_app).
  destruct (resolveStandbyClusterSelection _) as [[leader url] [[category err]|]] eqn:Es.
  { apply Hfail; try done. unfold resolveStandbyClusterSelection in Es. by repeat case_match; simplify_eq. }
  cbn [ssLeader ssBaseURL]. destruct (_ ==s _) eqn:Erole; [by apply Hfail|]. apply String.eqb_neq in Erole.
  destruct (standbyClusterRequestBinding _ _) as [requestBinding|] eqn:Er; [|by apply Hfail].
  destruct (member_state_binding _ _ _) as [stateBinding|] eqn:Est; [|by apply Hfail].
  destruct (standbyClusterEndpointBinding _ _) as [endpointBinding|] eqn:Ee; [|by apply Hfail].
  destruct (standbyClusterPlanBinding _ _ _ _ _ _ _ _ _) as [planBinding|] eqn:Ep; [|by apply Hfail].
  destruct (Plan_Validate _) eqn:Ev; [by apply Hfail|].
  split; [by apply Forall_app|]. split; [by apply valid_success|]. intros _. exists snapshots, leader, url.
  destruct snapshots as [|snapshot rest]; [done|]. apply Forall_cons in Hgate as [Hgate _], Hseen as [Hseen _].
  split; [apply seen_app; by right|]. do 4 (split; [done|]). intros Hplan. split.
  - by apply (standbyClusterPlan_accepted id intent (snapshot :: rest) leader url).
  - intros. by apply standbyClusterFrom_planned.
Qed.

(** The intents of both operations satisfy what the lemmas ask for. *)
Lemma demote_intent request :
  Target_Validate (dcqTarget request) true = None →
  let intent := (normalizeDemoteClusterRequest request).1 in
  Target_Validate (siTarget intent) true = None ∧ siTarget intent = Normalize (siTarget intent) ∧ siOperation intent ≠ "".
Proof using Type.
  intros Ht. unfold normalizeDemoteClusterRequest. cbv zeta. cbn [fst siTarget siOperation].
  by rewrite Target_Validate_Normalize, Normalize_idem.
Qed.

Lemma promote_intent request :
  Target_Validate (pcqTarget request) true = None →
  let intent := (normalizePromoteClusterRequest request).1 in
  Target_Validate (siTarget intent) true = None ∧ siTarget intent = Normalize (siTarget intent) ∧ siOperation intent ≠ "".
Proof using Type.
  intros Ht. unfold normalizePromoteClusterRequest. cbv zeta. cbn [fst siTarget siOperation].
  by rewrite Target_Validate_Normalize, Normalize_idem.
Qed.
End lemmas.

(** ** Properties *)

(** C12: whatever the collaborators answer, [ExecuteDemoteCluster] on a valid
    cluster target returns a valid result and writes at most once: the patch of
    this request, sent to the leader of a fresh snapshot past the version and
    feature gates, whose name, role, state and address are the planned ones and
    which is not yet in the desired role.  SUCCEEDED means a snapshot showed
    the cluster converged, FAILED that nothing was changed. *)
Theorem ExecuteDemoteCluster_sound `{GoStd} service ctx request plan :
  clock_set service → Target_Validate (dcqTarget request) true = None →
  wp (ExecuteDemoteCluster service ctx request plan)
    (standby_post service (normalizeDemoteClusterRequest request).1 plan).
Proof. intros Hc (? & _ & ?)%demote_intent. by apply executeStandbyCluster_post. Qed.

(** The same of [ExecutePromoteCluster]. *)
Theorem ExecutePromoteCluster_sound `{GoStd} service ctx request plan :
  clock_set service → Target_Validate (pcqTarget request) true = None →
  wp (ExecutePromoteCluster service ctx request plan)
    (standby_post service (normalizePromoteClusterRequest request).1 plan).
Proof. intros Hc (? & _ & ?)%promote_intent. by apply executeStandbyCluster_post. Qed.

(** A cluster led by [n1] in the given role; Patroni 4.1. *)
Definition led_as (role : string) : Snapshot :=
  let data := mkMemberData "http://n1:8008" "" "running" role "" None None [] RawEmpty [] "4.1.0" None None None None [] in
  sample_snapshot (mkClusterState "id" [] (Some (mkLeader "n1" 3 0)) [mkMember "n1" 5 0 data] None []
    (mkStatus KeyUnknown 0 [] []) (mkSyncState 0 "" [] 0) []).

Definition sample_demotion : DemoteClusterRequest :=
  mkDemoteClusterRequest sample_target (mkStandbyConfig "primary.example" 5432 "" "") false false.
Definition sample_promotion : PromoteClusterRequest := mkPromoteClusterRequest sample_target false false.

Lemma ExecuteDemoteCluster_sound_witness :
  let plan := prepared_plan (led_as "primary") (PrepareDemoteCluster sample_service true sample_demotion) in
  let r := run (answers (led_as "primary") (led_as "standby_leader") (status 200) applied) []
             (ExecuteDemoteCluster sample_service true sample_demotion plan) in
  (rOutcome r.2 = Succeeded ∧ writes r.1 = 1%nat) ∧
  standby_post sample_service (normalizeDemoteClusterRequest sample_demotion).1 plan r.1 r.2.
Proof.
  split; [vm_compute; repeat split; reflexivity|]. apply wp_run, ExecuteDemoteCluster_sound; vm_compute; reflexivity.
Defined.

Lemma ExecutePromoteCluster_sound_witness :
  let plan := prepared_plan (led_as "standby_leader") (PreparePromoteCluster sample_service true sample_promotion) in
  let r := run (answers (led_as "standby_leader") (led_as "standby_leader") silence applied) []
             (ExecutePromoteCluster sample_service true sample_promotion plan) in
  (rOutcome r.2 = Unknown ∧ crPendingConditions (rData r.2) = ["leader.role"] ∧ writes r.1 = 1%nat) ∧
  standby_post sample_service (normalizePromoteClusterRequest sample_promotion).1 plan r.1 r.2.
Proof.
  split; [vm_compute; repeat split; reflexivity|]. apply wp_run, ExecutePromoteCluster_sound; vm_compute; reflexivity.
Defined.

(** [PrepareDemoteCluster] and [PreparePromoteCluster] only read and return
    valid results; a plan they return passes the validator for the same request
    on the same service, and on the snapshots it was made from execution
    reaches the patch, when the leader's name has no surrounding white space,
    the revision is not negative and tokens have the length of a SHA-256 in
    hex. *)
Theorem PrepareStandbyCluster_executable `{GoStd} service ctx demotion promotion :
  clock_set service → (∀ key message, String.length (hmac_sha256 key message) = 64%nat) →
  Target_Validate (dcqTarget demotion) true = None → Target_Validate (pcqTarget promotion) true = None →
  wp (PrepareDemoteCluster service ctx demotion)
    (standby_prepared service (normalizeDemoteClusterRequest demotion).1) ∧
  wp (PreparePromoteCluster service ctx promotion)
    (standby_prepared service (normalizePromoteClusterRequest promotion).1).
Proof.
  intros Hc Hlen (? & ? & ?)%demote_intent (? & ? & ?)%promote_intent. split; by apply prepareStandbyCluster_post.
Qed.

Lemma PrepareStandbyCluster_executable_witness :
  let r := run (answers (led_as "primary") (led_as "primary") silence applied) []
             (PrepareDemoteCluster sample_service true sample_demotion) in
  rOutcome r.2 = Succeeded ∧
  standby_prepared sample_service (normalizeDemoteClusterRequest sample_demotion).1 r.1 r.2.
Proof.
  split; [vm_compute; reflexivity|].
  refine (wp_run _ _ _ (proj1 (PrepareStandbyCluster_executable sample_service true sample_demotion sample_promotion
    _ _ _ _))); [vm_compute; reflexivity|intros; reflexivity|vm_compute; reflexivity..].
Defined.
