(* ===== verification/Decode.v ===== *)
(** * Decoding Patroni's keys: [dcs/decode.go]

    [BuildSnapshot] turns the raw entries of one cluster root into a
    [Snapshot]; [DiscoverFromEntries] finds the clusters of a whole namespace.
    Values are JSON in Patroni's own formats or in the older ones it still
    reads; a value that cannot be read becomes a [DecodeIssue] and leaves the
    field at its default, never an error.

    The theorems: the snapshot does not depend on the order the store returned
    the entries in; the failover key the control package writes decodes to
    what it meant; and the cluster a discovery shows is the one a direct
    snapshot of its root shows. *)

From Stdlib Require Import SpecFloat.
From S2P Require Import Prelude GoStrings GoErrors Target Values Json Dcs.

(** ** [encoding/json] into a struct *)

(** The fields of a struct are read from the pairs of an object one by one;
    JSON [null] is an object without pairs. *)
Definition object_fields (v : value) : option config :=
  match v with VNull => Some [] | VMap fields => Some fields | _ => None end.

Definition read_int (_ : option Z) (v : value) : option (option Z) :=
  match v with VNull => Some None | VNumber text => option_map Some (ParseInt text) | _ => None end.

Definition read_bool (_ : option bool) (v : value) : option (option bool) :=
  match v with VNull => Some None | VBool b => Some (Some b) | _ => None end.

Definition read_raw (_ : RawMessage) (v : value) : option RawMessage := Some (RawJSON v).

Definition read_any (_ : value) (v : value) : option value := Some (as_any v).

(** A map field: [null] clears it, an object adds its pairs. *)
Definition read_map {A} (read : value → option A) (acc : list (string * A)) (v : value)
    : option (list (string * A)) :=
  match v with
  | VNull => Some []
  | VMap fields =>
      pairs ← mapM (λ kv, option_map (pair kv.1) (read kv.2)) fields;
      Some (foldl (λ m kv, map_set m kv.1 kv.2) acc pairs)
  | _ => None
  end.

Definition read_any_map := read_map (λ v, Some (as_any v)).
Definition read_string_map := read_map as_string.

(** A [json.Number]: a number, or a string that holds one. *)
Definition as_number (v : value) : option string :=
  match v with
  | VNull => Some ""
  | VNumber text => Some text
  | VString s => if isValidNumber s then Some s else None
  | _ => None
  end.

Definition read_number_map := read_map as_number.

(** [decodeJSON]: one value and nothing after it. *)
Definition decodeJSON (data : string) : option value := parse_json data.

(** ** [integerValue] *)

(** [int64(f)] when it equals [f]. *)
Definition float_integer (f : spec_float) : option Z :=
  match f with
  | S754_zero _ => Some 0%Z
  | S754_finite s m e =>
      let z := Z.shiftl (Zpos m) e in
      if (Z.shiftl z (- e) =? Zpos m)%Z then
        let z := if s then (- z)%Z else z in
        if ((min_int64 <=? z) && (z <=? max_int64))%Z then Some z else None
      else None
  | _ => None
  end.

Definition integerValue (v : value) : option Z :=
  match v with
  | VNumber text => ParseInt text
  | VFloat f => float_integer f
  | VString s => ParseInt s
  | _ => None
  end.

Section with_std.
Context `{GoStd}.

(** ** Members *)

Definition parseLegacyConnectionString (value : string) : string * string :=
  match url_CutQuery value with
  | None => (value, "")
  | Some (text, query) => (text, Query_Get query "application_name")
  end.

(** The anonymous struct of [decodeMember]. *)
Definition decode_member_data (v : value) : option MemberData :=
  fields ← object_fields v;
  apiURL ← unmarshal_field read_string_field "api_url" "" fields;
  connURL ← unmarshal_field read_string_field "conn_url" "" fields;
  state ← unmarshal_field read_string_field "state" "" fields;
  role ← unmarshal_field read_string_field "role" "" fields;
  replicationState ← unmarshal_field read_string_field "replication_state" "" fields;
  timeline ← unmarshal_field read_int "timeline" None fields;
  pendingRestart ← unmarshal_field read_bool "pending_restart" None fields;
  reason ← unmarshal_field read_any_map "pending_restart_reason" [] fields;
  scheduled ← unmarshal_field read_raw "scheduled_restart" RawEmpty fields;
  tags ← unmarshal_field read_any_map "tags" [] fields;
  version ← unmarshal_field read_string_field "version" "" fields;
  pause ← unmarshal_field read_bool "pause" None fields;
  xlog ← unmarshal_field read_int "xlog_location" None fields;
  receive ← unmarshal_field read_int "receive_lsn" None fields;
  replay ← unmarshal_field read_int "replay_lsn" None fields;
  slots ← unmarshal_field read_number_map "slots" [] fields;
  Some (mkMemberData apiURL connURL state role replicationState timeline pendingRestart reason scheduled tags
          version pause xlog receive replay slots).

Definition issue (entry : Entry) (reason : string) : DecodeIssue :=
  mkIssue (enRelativePath entry) "value" reason.

(** Each decoder returns what it read and the issues it raised. *)
Definition decodeMember (entry : Entry) : Member * list DecodeIssue :=
  let member := mkMember (TrimPrefix (enRelativePath entry) "members/") (enModRevision entry) (enLease entry) in
  if HasPrefix (enValue entry) "postgres" then
    let '(connURL, apiURL) := parseLegacyConnectionString (enValue entry) in
    (member (mkMemberData apiURL connURL "" "" "" None None [] RawEmpty [] "" None None None None []), [])
  else match decodeJSON (enValue entry) ≫= decode_member_data with
       | Some data => (member data, [])
       | None => (member zero, [issue entry "member value is not a JSON object or legacy PostgreSQL URL"])
       end.

(** ** The other keys *)

Definition decode_failover_fields (v : value) : option (string * string * string) :=
  fields ← object_fields v;
  leader ← unmarshal_field read_string_field "leader" "" fields;
  member ← unmarshal_field read_string_field "member" "" fields;
  scheduledAt ← unmarshal_field read_string_field "scheduled_at" "" fields;
  Some (leader, member, scheduledAt).

Definition decodeFailover (entry : Entry) : Failover * list DecodeIssue :=
  match decodeJSON (enValue entry) ≫= decode_failover_fields with
  | Some (leader, member, scheduledAt) => (mkFailover (enModRevision entry) leader member scheduledAt, [])
  | None =>
      let parts := Split ":" (enValue entry) in
      let leader := TrimSpace (deref "" (parts !! 0%nat)) in
      let candidate := TrimSpace (deref "" (parts !! 1%nat)) in
      (mkFailover (enModRevision entry) leader candidate "",
       if (leader ==s "") && (candidate ==s "")
       then [issue entry "failover value is neither JSON nor legacy leader:candidate"] else [])
  end.

Definition decode_sync_fields (v : value) : option (string * string * value) :=
  fields ← object_fields v;
  leader ← unmarshal_field read_string_field "leader" "" fields;
  syncStandby ← unmarshal_field read_string_field "sync_standby" "" fields;
  quorum ← unmarshal_field read_any "quorum" VNull fields;
  Some (leader, syncStandby, quorum).

Definition decodeSync (entry : Entry) : SyncState * list DecodeIssue :=
  let state := mkSyncState (enModRevision entry) in
  match decodeJSON (enValue entry) ≫= decode_sync_fields with
  | None => (state "" [] 0%Z, [issue entry "sync state is not a JSON object"])
  | Some (leader, syncStandby, quorum) =>
      if leader ==s "" then (state "" [] 0%Z, [])
      else (state leader (filter (λ s, s ≠ "") (TrimSpace <$> Split "," syncStandby))
              (deref 0%Z (integerValue quorum)), [])
  end.

(** [slots] and [retain_slots] may be JSON text inside a JSON string. *)
Definition decoded_text (v : value) : value :=
  match v with VString encoded => deref VNull (as_any <$> decodeJSON encoded) | v => v end.

Definition status_slots (v : value) : list (string * Z) :=
  match v with VMap fields => (λ kv, (kv.1, deref 0%Z (integerValue kv.2))) <$> fields | _ => [] end.

Definition status_retained (v : value) : list string :=
  match v with VList items => omap (λ raw, match raw with VString s => Some s | _ => None end) items | _ => [] end.

Definition decodeStatus (entry : Entry) : Status * list DecodeIssue :=
  let status := mkStatus (enKind entry) in
  if bool_decide (enKind entry = KeyLeaderOptime) then
    match ParseInt (TrimSpace (enValue entry)) with
    | None => (status 0%Z [] [], [issue entry "legacy leader optime is not an integer"])
    | Some value => (status value [] [], [])
    end
  else match as_any <$> decodeJSON (enValue entry) with
       | None => (status 0%Z [] [], [issue entry "status value is invalid"])
       | Some root =>
           match integerValue root with
           | Some value => (status value [] [], [])
           | None =>
               match root with
               | VMap data =>
                   (status (deref 0%Z (integerValue (map_index data "optime")))
                      (status_slots (decoded_text (map_index data "slots")))
                      (status_retained (decoded_text (map_index data "retain_slots"))), [])
               | _ => (status 0%Z [] [], [issue entry "status value is invalid"])
               end
           end
       end.

Definition decode_config (entry : Entry) : config * list DecodeIssue :=
  match as_any <$> decodeJSON (enValue entry) with
  | Some (VMap configuration) => (configuration, [])
  | _ => ([], [issue entry "dynamic configuration is not a JSON object"])
  end.

(** [json.Unmarshal] into a [[]json.RawMessage] and into a [map[string]string]. *)
Definition decode_history (entry : Entry) : option (list RawMessage) * list DecodeIssue :=
  match parse_json (enValue entry) with
  | Some VNull => (Some [], [])
  | Some (VList items) => (Some (RawJSON <$> items), [])
  | _ => (None, [issue entry "history is not a JSON array"])
  end.

Definition decode_failsafe (entry : Entry) : option (list (string * string)) * list DecodeIssue :=
  match parse_json (enValue entry) ≫= read_string_map [] with
  | Some topology => (Some topology, [])
  | None => (None, [issue entry "failsafe topology is not a string map"])
  end.

(** ** [decodeCluster] *)

(** The switch of [decodeCluster] on one entry. *)
Definition decode_entry (c : ClusterState) (entry : Entry) : ClusterState * list DecodeIssue :=
  let '(mkClusterState initialize configuration leader members failover history status sync failsafe) := c in
  match enKind entry with
  | KeyInitialize =>
      (mkClusterState (enValue entry) configuration leader members failover history status sync failsafe, [])
  | KeyConfig =>
      let '(configuration, issues) := decode_config entry in
      (mkClusterState initialize configuration leader members failover history status sync failsafe, issues)
  | KeyMember =>
      let '(member, issues) := decodeMember entry in
      (mkClusterState initialize configuration leader (members ++ [member]) failover history status sync failsafe,
       issues)
  | KeyLeader =>
      (mkClusterState initialize configuration
         (Some (mkLeader (enValue entry) (enModRevision entry) (enLease entry)))
         members failover history status sync failsafe, [])
  | KeyFailover =>
      let '(failover, issues) := decodeFailover entry in
      (mkClusterState initialize configuration leader members (Some failover) history status sync failsafe, issues)
  | KeyHistory =>
      let '(read, issues) := decode_history entry in
      (mkClusterState initialize configuration leader members failover (deref history read) status sync failsafe,
       issues)
  | KeySync =>
      let '(sync, issues) := decodeSync entry in
      (mkClusterState initialize configuration leader members failover history status sync failsafe, issues)
  | KeyFailsafe =>
      let '(read, issues) := decode_failsafe entry in
      (mkClusterState initialize configuration leader members failover history status sync (deref failsafe read),
       issues)
  | KeyUnknown | KeyStatus | KeyLeaderOptime => (c, [])
  end.

Definition decode_step (acc : ClusterState * list DecodeIssue) (entry : Entry)
    : ClusterState * list DecodeIssue :=
  let '(c, issues) := decode_entry acc.1 entry in (c, acc.2 ++ issues).

(** [entries[path]]: the last entry of a relative path. *)
Definition last_entry (path : string) (entries : list Entry) : option Entry :=
  find_first (λ entry, enRelativePath entry ==s path) (reverse entries).

Definition set_status (c : ClusterState) (status : Status) : ClusterState :=
  mkClusterState (csInitialize c) (csConfig c) (csLeader c) (csMembers c) (csFailover c) (csHistory c) status
    (csSync c) (csFailsafe c).

Definition sort_members (c : ClusterState) : ClusterState :=
  mkClusterState (csInitialize c) (csConfig c) (csLeader c) (sort_by mbName (csMembers c)) (csFailover c)
    (csHistory c) (csStatus c) (csSync c) (csFailsafe c).

Definition status_entry (entries : list Entry) : option Entry :=
  match last_entry "status" entries with
  | Some entry => Some entry
  | None => last_entry "optime/leader" entries
  end.

Definition decodeCluster (entries : list Entry) : ClusterState * list DecodeIssue :=
  let '(c, issues) := foldl decode_step (zero, []) entries in
  match status_entry entries with
  | Some entry => let '(status, more) := decodeStatus entry in (sort_members (set_status c status), issues ++ more)
  | None => (sort_members c, issues)
  end.

(** ** [BuildSnapshot] *)

Definition relative_to (prefix key : string) : string := TrimPrefix (TrimPrefix key (TrimRight slash prefix)) "/".

(** [entry.RelativePath = relative; entry.Kind = ClassifyRelativePath(relative)] *)
Definition with_path (entry : Entry) (relative : string) : Entry :=
  mkEntry (enKey entry) relative (ClassifyRelativePath relative) (enCreateRevision entry) (enModRevision entry)
    (enVersion entry) (enLease entry) (enValue entry).

Definition place_entry (prefix : string) (entry : Entry) : Entry :=
  with_path entry (if enRelativePath entry ==s "" then relative_to prefix (enKey entry) else enRelativePath entry).

Definition BuildSnapshot (target : Target) (prefix : string) (revision : Z) (entries : list Entry) : Snapshot :=
  let cloned := SortEntries (place_entry prefix <$> entries) in
  let '(cluster, issues) := decodeCluster cloned in
  mkSnapshot (Normalize target) (TrimRight slash prefix) revision cloned cluster issues.

(** ** [DiscoverFromEntries] *)

Definition with_group (t : Target) (group : option Z) : Target :=
  mkTarget (tContext t) (tNamespace t) (tScope t) group (tMember t).

Definition known_path (relative : string) : bool := negb (bool_decide (ClassifyRelativePath relative = KeyUnknown)).

(** The optional Citus group and the path below the cluster root. *)
Definition split_group (tail : list string) : option Z * list string :=
  match tail with
  | text :: ((_ :: _) as below) =>
      match ParseInt text with
      | Some group =>
          if (0 <=? group)%Z && known_path (Join below "/") then (Some group, below) else (None, tail)
      | None => (None, tail)
      end
  | _ => (None, tail)
  end.

(** The body of the loop: the cluster an entry is evidence of. *)
Definition discover_entry (contextName namespace prefix : string) (entry : Entry) : option (Target * Entry) :=
  let relative := TrimPrefix (enKey entry) prefix in
  if (relative ==s enKey entry) || (relative ==s "") then None
  else match Split "/" relative with
       | scope :: ((_ :: _) as tail) =>
           if TrimSpace scope ==s "" then None
           else
             let '(group, path) := split_group tail in
             if known_path (Join path "/")
             then Some (with_group (Normalize (mkTarget contextName namespace scope None "")) group,
                        with_path entry (Join path "/"))
             else None
       | _ => None
       end.

(** [item.keys[entry.Key] = clusterEntry] *)
Definition evidence : Type := Target * list (string * Entry).

Definition add_evidence (found : list (string * evidence)) (hit : Target * Entry) : list (string * evidence) :=
  let id := ClusterID hit.1 in
  let item := deref (hit.1, []) (snd <$> find_first (λ kv, kv.1 ==s id) found) in
  map_set found id (item.1, map_set item.2 (enKey hit.2) hit.2).

Definition discovered_cluster (revision : Z) (item : evidence) : option DiscoveredCluster :=
  let '(target, keys) := item in
  match ClusterPrefix target with
  | inl _ => None
  | inr clusterPrefix =>
      Some (mkDiscoveredCluster target revision (sort_strings (fst <$> keys))
              (Some (BuildSnapshot target clusterPrefix revision (SortEntries (snd <$> keys)))))
  end.

(** By scope, then by group, a cluster without one first. *)
Definition cluster_le (x y : DiscoveredCluster) : Prop :=
  let scope d := tScope (dcTarget d) in
  let group d := deref (-1)%Z (tGroup (dcTarget d)) in
  if bool_decide (scope x = scope y) then (group x <= group y)%Z else String.le (scope x) (scope y).

#[local] Instance cluster_le_dec : RelDecision cluster_le.
Proof.
  intros x y. unfold cluster_le. cbv zeta. destruct (bool_decide (tScope (dcTarget x) = tScope (dcTarget y))).
  - exact (Z_le_dec _ _).
  - exact (String.le_dec _ _).
Defined.

Definition DiscoverFromEntries (context namespace : string) (revision : Z) (entries : list Entry)
    : list DiscoveredCluster :=
  let contextName := if TrimSpace context ==s "" then DefaultContext else TrimSpace context in
  let namespace := NormalizeNamespace namespace in
  let hits := omap (discover_entry contextName namespace (NamespacePrefix namespace)) entries in
  merge_sort cluster_le (omap (discovered_cluster revision) (snd <$> foldl add_evidence [] hits)).

End with_std.
