(* ===== verification/Cluster.v ===== *)
(** * The cluster an operator sees: [model/cluster.go], [model/state.go] and the
    projections of [control/read.go]

    [projectCluster] turns a snapshot into the normalized cluster that list,
    topology and discovery show: one role per member, lags against the
    cluster's position, the scheduled restart and switchover.
    [topologyMembers] orders the members as a replication tree. *)

From S2P Require Import Prelude GoStrings GoErrors Target Values Json JsonLaws Dcs.
From S2P Require Import Effects Contract Select Decode.

(** ** The projected types *)

Inductive DiscoveryState := DiscoveryDiscovered | DiscoveryConfiguredOnly | DiscoveryAbsent.
Inductive ManagementState := ManagementExplicit | ManagementAllSelected | ManagementUnmanaged.
Inductive ReachabilityState :=
| ReachabilityReachable | ReachabilityPartiallyReachable | ReachabilityUnreachable | ReachabilityUnknown.
Inductive HealthState := HealthHealthy | HealthDegraded | HealthUnhealthy | HealthUnknown.

Module model.
Inductive MemberRole := RoleLeader | RoleStandbyLeader | RoleSyncStandby | RoleQuorumStandby | RoleReplica.

#[export] Instance MemberRole_eq_dec : EqDecision MemberRole.
Proof. solve_decision. Defined.

Record Member := mkMember {
  mTarget : Target;
  mName : string;
  mAPIURL : string;
  mHost : string;
  mPort : Z;
  mRole : MemberRole;
  mState : string;
  mTimeline : option Z;
  mReceiveLSN : string;
  mReceiveLagBytes : Z;
  mReplayLSN : string;
  mReplayLagBytes : Z;
  mPendingRestart : bool;
  mPendingRestartReason : config;
  mScheduledRestart : option ScheduledRestart;
  mTags : config;
  mPatroniVersion : string
}.

Record ScheduledSwitchover := mkScheduledSwitchover { ssAt : string; ssFrom : string; ssTo : string }.

Record Cluster := mkCluster {
  cTarget : Target;
  cDiscoveryState : DiscoveryState;
  cManagementState : ManagementState;
  cReachabilityState : ReachabilityState;
  cHealthState : HealthState;
  cRevision : Z;
  cInitialize : string;
  cLeader : string;
  cPaused : bool;
  cScheduledSwitchover : option ScheduledSwitchover;
  cMembers : list Member
}.

Record ClusterSummary := mkClusterSummary {
  csuTarget : Target;
  csuDiscoveryState : DiscoveryState;
  csuManagementState : ManagementState;
  csuReachabilityState : ReachabilityState;
  csuHealthState : HealthState;
  csuRevision : Z;
  csuMemberCount : Z;
  csuLeader : string
}.
End model.

Import model.

(** [cluster.DiscoveryState = ...; cluster.ManagementState = ...] *)
Definition with_states (c : Cluster) (discovery : DiscoveryState) (management : ManagementState) : Cluster :=
  mkCluster (cTarget c) discovery management (cReachabilityState c) (cHealthState c) (cRevision c) (cInitialize c)
    (cLeader c) (cPaused c) (cScheduledSwitchover c) (cMembers c).

(** [cluster.ReachabilityState = ...; cluster.HealthState = ...] *)
Definition with_health (c : Cluster) (reachability : ReachabilityState) (health : HealthState) : Cluster :=
  mkCluster (cTarget c) (cDiscoveryState c) (cManagementState c) reachability health (cRevision c) (cInitialize c)
    (cLeader c) (cPaused c) (cScheduledSwitchover c) (cMembers c).

(** ** Helpers *)

(** [%d] of Go's division and remainder, which truncate towards zero. *)
Definition formatPostgresVersion (version : Z) : string :=
  if (version <? 100000)%Z
  then FormatInt (Z.quot version 10000) +:+ "." +:+ FormatInt (Z.rem (Z.quot version 100) 100) +:+ "." +:+
       FormatInt (Z.rem version 100)
  else FormatInt (Z.quot version 10000) +:+ "." +:+ FormatInt (Z.rem version 100).

Definition discoveryStateForSnapshot (snapshot : Snapshot) : DiscoveryState :=
  if existsb (λ entry, negb (bool_decide (enKind entry = KeyUnknown))) (snEntries snapshot)
  then DiscoveryDiscovered else DiscoveryAbsent.

Definition aggregateTarget (targets : list Target) : Target :=
  match targets with
  | [] => Normalize zero
  | [target] => with_member (Normalize target) ""
  | target :: rest =>
      let first := Normalize target in
      let aggregate := Normalize (mkTarget (tContext first) (tNamespace first) "" None "") in
      if forallb (λ raw, let target := Normalize raw in
                         (tContext target ==s tContext aggregate) && (tNamespace target ==s tNamespace aggregate)) rest
      then aggregate else Normalize zero
  end.

(** ** [projectCluster] *)

(** The positions and the lags [projectLSN] assigns. *)
Definition projectLSN (state : string) (data : MemberData) (clusterLSN : Z) : (string * Z) * (string * Z) :=
  let '(receive, replay) :=
    match mdReceiveLSN data, mdReplayLSN data, mdXLogLocation data with
    | None, None, Some location => if state ==s "streaming" then (Some location, None) else (None, Some location)
    | receive, replay, _ => (receive, replay)
    end in
  let position o := match o with Some lsn => (formatLSN lsn, nonnegativeLag clusterLSN lsn) | None => ("", 0%Z) end in
  (position receive, position replay).

Section with_std.
Context `{GoStd}.

(** A copy through JSON text; a map that has no text becomes empty. *)
Definition cloneMap (input : config) : config :=
  deref [] (text ← Marshal (VMap input); v ← parse_json text; read_any_map [] v).

(** The role the projection gives a member. *)
Definition project_role (leader : string) (standby synchronous quorum : bool) (syncMembers : list string) (name : string)
    : MemberRole :=
  if name ==s leader then if standby then RoleStandbyLeader else model.RoleLeader
  else if synchronous && bool_decide (name ∈ syncMembers) then if quorum then RoleQuorumStandby else RoleSyncStandby
  else model.RoleReplica.

Definition project_member (target : Target) (leader : string) (role : MemberRole) (clusterLSN : Z) (member : Dcs.Member)
    : model.Member :=
  let data := mbData member in
  let name := mbName member in
  let '(host, port, _) := postgresAddress (mdConnURL data) in
  let state := if (name !=s leader) && (mdReplicationState data !=s "") then mdReplicationState data else mdState data in
  let '((receiveLSN, receiveLag), (replayLSN, replayLag)) :=
    if name !=s leader then projectLSN state data clusterLSN else (("", 0%Z), ("", 0%Z)) in
  model.mkMember (with_member target name) name (mdAPIURL data) host port role state (mdTimeline data)
    receiveLSN receiveLag replayLSN replayLag (deref false (mdPendingRestart data))
    (cloneMap (mdPendingRestartReason data)) (decodeScheduledRestart (mdScheduledRestart data)) (cloneMap (mdTags data))
    (mdPatroniVersion data).

Definition scheduled_switchover (failover : option Failover) : option ScheduledSwitchover :=
  match failover with
  | Some f => if foScheduledAt f !=s "" then Some (mkScheduledSwitchover (foScheduledAt f) (foLeader f) (foCandidate f))
              else None
  | None => None
  end.

Definition projectCluster (snapshot : Snapshot) (requested : Target) : Cluster :=
  let state := snCluster snapshot in
  let target := if tScope (Normalize (snTarget snapshot)) ==s "" then Normalize requested
                else Normalize (snTarget snapshot) in
  let leader := match csLeader state with Some l => ldName l | None => "" end in
  let standby := standbyCluster (csConfig state) in
  let synchronous := negb standby && synchronousMode (csConfig state) in
  let quorum := EqualFold (Sprint (map_index (csConfig state) "synchronous_mode")) "quorum" in
  let syncMembers := stringSet (syStandbys (csSync state)) in
  let project member :=
    project_member target leader (project_role leader standby synchronous quorum syncMembers (mbName member))
      (stLastLSN (csStatus state)) member in
  mkCluster target (discoveryStateForSnapshot snapshot) ManagementExplicit ReachabilityUnknown HealthUnknown
    (snRevision snapshot) (csInitialize state) leader (boolConfig (map_index (csConfig state) "pause"))
    (scheduled_switchover (csFailover state))
    (sort_stable (λ left right, String.ltb (mName left) (mName right)) (project <$> csMembers state)).
End with_std.

(** ** [topologyMembers] *)

Record TopologyMember := mkTopologyMember { tmMember : model.Member; tmParent : string; tmDepth : Z }.

Section topology.
Variable cluster : Cluster.

Definition replicas : list string := filter (λ name, name ≠ cLeader cluster) (mName <$> cMembers cluster).

(** The upstream of a replica: the one its [replicatefrom] tag names, if that
    is another replica, or the leader. *)
Definition upstream (member : model.Member) : string :=
  match map_index (mTags member) "replicatefrom" with
  | VString candidate =>
      if (candidate !=s mName member) && bool_decide (candidate ∈ replicas) then candidate else cLeader cluster
  | _ => cLeader cluster
  end.

Definition downstream (parent : string) : list string :=
  sort_strings (mName <$> List.filter (λ m, (mName m !=s cLeader cluster) && (upstream m ==s parent)) (cMembers cluster)).

(** [parents[name]]: the leader has no entry. *)
Definition parents (name : string) : string :=
  if name ==s cLeader cluster then "" else deref "" (upstream <$> map_of_list mName (cMembers cluster) !! name).

(** [visited], latest first, and [result]. *)
Definition walked : Type := list string * list TopologyMember.

(** [walk]; every call that goes on visits a new member, so fuel above the
    number of members is enough ([walk_fuel]). *)
Fixpoint walk (fuel : nat) (name parent : string) (depth : Z) (acc : walked) : walked :=
  match fuel with
  | O => acc
  | S fuel =>
      if (name ==s "") || bool_decide (name ∈ acc.1) then acc
      else match map_of_list mName (cMembers cluster) !! name with
           | None => acc
           | Some member =>
               foldl (λ acc child, walk fuel child name (depth + 1) acc)
                 (name :: acc.1, acc.2 ++ [mkTopologyMember member parent depth]) (downstream name)
           end
  end.

Definition walk_fuel : nat := S (length (cMembers cluster)).

(** [if !visited[member.Name] { walk(member.Name, parents[member.Name], 0) }] *)
Definition walk_rest (acc : walked) (member : model.Member) : walked :=
  if bool_decide (mName member ∈ acc.1) then acc
  else walk walk_fuel (mName member) (parents (mName member)) 0 acc.

Definition topologyMembers : list TopologyMember :=
  (foldl walk_rest (walk walk_fuel (cLeader cluster) "" 0 ([], [])) (cMembers cluster)).2.
End topology.

(** ** History *)

Record HistoryEntry := mkHistoryEntry {
  heTimeline : Z;
  heLSN : Z;
  heReason : string;
  heTimestamp : string;
  heNewLeader : string
}.

(** [json.Unmarshal] into an [int64]: [null] leaves it zero. *)
Definition as_int64 (v : value) : option Z :=
  match v with VNull => Some 0%Z | VNumber text => ParseInt text | _ => None end.

(** A field that may be missing or [null]. *)
Definition optional_text (field : option value) : option string :=
  match field with None | Some VNull => Some "" | Some v => as_string v end.

Definition normalizeHistoryEntry (raw : RawMessage) : goerror + HistoryEntry :=
  match raw with
  | RawJSON VNull => inl (EText "history entry has fewer than three fields")
  | RawJSON (VList (timeline :: lsn :: reason :: rest)) =>
      match as_int64 timeline, as_int64 lsn, as_string reason, optional_text (rest !! 0%nat), optional_text (rest !! 1%nat) with
      | Some timeline, Some lsn, Some reason, Some timestamp, Some newLeader =>
          inr (mkHistoryEntry timeline lsn reason timestamp newLeader)
      | _, _, _, _, _ => inl (EText "json")
      end
  | RawJSON (VList _) => inl (EText "history entry has fewer than three fields")
  | _ => inl (EText "json")
  end.
