(* ===== verification/DecodeLaws.v ===== *)
(** * Laws of the decoders, and of discovery

    A snapshot does not depend on the order of the entries it is built from;
    its configuration always has a JSON text; the failover key the control
    package writes decodes to the request it stands for. *)

From S2P Require Import Prelude GoStrings GoErrors GoTime Target Version Values Json JsonLaws Dcs Effects.
From S2P Require Import Contract ConfigPatch Decode Transition Samples.

(** ** Entry order *)

Lemma place_entry_key prefix entry : enKey (place_entry prefix entry) = enKey entry.
Proof. done. Qed.

Lemma place_entries_keys prefix (entries : list Entry) : enKey <$> (place_entry prefix <$> entries) = enKey <$> entries.
Proof. by rewrite <- list_fmap_compose. Qed.

Section with_std.
Context `{GoStd}.

Lemma BuildSnapshot_order_post (target : Target) (prefix : string) (revision : Z) (entries entries' : list Entry) :
  NoDup (enKey <$> entries) → entries ≡ₚ entries' →
  BuildSnapshot target prefix revision entries = BuildSnapshot target prefix revision entries'.
Proof.
  intros Hnd Hp. unfold BuildSnapshot, SortEntries. cbv zeta.
  rewrite (sort_by_unique enKey (place_entry prefix <$> entries) (place_entry prefix <$> entries')); [done|..].
  - by rewrite place_entries_keys.
  - by rewrite Hp.
Qed.

(** C31: the snapshot built from the entries of a cluster does not depend on the order in which the store returned
    them: any two orders of the same entries, whose keys are distinct, give the same snapshot. *)
Theorem BuildSnapshot_order (target : Target) (prefix : string) (revision : Z) (entries entries' : list Entry) :
  NoDup (enKey <$> entries) → entries ≡ₚ entries' →
  BuildSnapshot target prefix revision entries = BuildSnapshot target prefix revision entries'.
Proof. apply BuildSnapshot_order_post. Qed.

(** ** Typing *)

(** The values of a map field, in any [read_map]. *)
Definition good_config (c : config) : Prop := wire (VMap c) ∧ (nesting (VMap c) ≤ max_depth)%N.

Lemma good_config_nil : good_config [].
Proof. split; [split; [apply NoDup_nil_2|done]|done]. Qed.

Lemma decode_config_good entry : good_config (decode_config entry).1.
Proof.
  unfold decode_config, decodeJSON. destruct (parse_json (enValue entry)) as [v|] eqn:E; cbn;
    [|apply good_config_nil].
  apply parse_typed in E. destruct (as_any v); try apply good_config_nil. done.
Qed.

Definition int64_status (s : Status) : Prop := int64 (stLastLSN s) ∧ Forall (λ kv, int64 kv.2) (stSlots s).

Lemma ParseInt_int64 s z : ParseInt s = Some z → int64 z.
Proof.
  assert (∀ x, (if (min_int64 <=? x)%Z && (x <=? max_int64)%Z then Some x else None) = Some z → int64 z) as Hrange.
  { intros x Hx. destruct (_ && _)%bool eqn:E; simplify_eq. go_bool. by split. }
  unfold ParseInt. destruct s as [|c r]; [done|].
  assert (∀ o (f : N → Z), (n ← o; if (min_int64 <=? f n)%Z && (f n <=? max_int64)%Z then Some (f n) else None) = Some z → int64 z) as Hbind
    by (intros [n|] f; cbn; [apply Hrange|done]).
  destruct c as [[] [] [] [] [] [] [] []]; first [apply (Hbind _ (λ n, (- Z.of_N n)%Z))|apply (Hbind _ Z.of_N)].
Qed.

Lemma integerValue_int64 v z : integerValue v = Some z → int64 z.
Proof.
  destruct v as [| | |f| | |]; try done; cbn; [apply ParseInt_int64| |apply ParseInt_int64].
  unfold float_integer. destruct f as [| | |s m e]; try done; [intros [= <-]; by split|].
  destruct (_ =? _)%Z; [|done]. destruct (_ && _)%bool eqn:E; [|done]. intros [= <-]. go_bool. by split.
Qed.

Lemma integer_or_zero v : int64 (deref 0%Z (integerValue v)).
Proof. destruct (integerValue v) eqn:E; [by eapply integerValue_int64|by split]. Qed.

Lemma decodeStatus_int64 entry : int64_status (decodeStatus entry).1.
Proof.
  assert (∀ kind, int64_status (mkStatus kind 0%Z [] [])) as Hzero by (by repeat constructor).
  unfold decodeStatus. cbv zeta. case_bool_decide.
  { destruct (ParseInt _) eqn:E; [|done]. apply ParseInt_int64 in E. by split; [|constructor]. }
  destruct (as_any <$> decodeJSON (enValue entry)) as [root|]; [|done].
  destruct (integerValue root) eqn:E; [apply integerValue_int64 in E; by split; [|constructor]|].
  destruct root; try done. cbn. split; [apply integer_or_zero|]. cbn. unfold status_slots.
  destruct (decoded_text _); try constructor. apply Forall_fmap, Forall_forall. intros kv _. apply integer_or_zero.
Qed.

(** A property of a field that every reading of it keeps. *)
Lemma unmarshal_field_inv {A} (P : A → Prop) (Q : value → Prop) (read : A → value → option A) name acc fields r :
  (∀ acc v r, P acc → Q v → read acc v = Some r → P r) → P acc → Forall (λ kv, Q kv.2) fields →
  unmarshal_field read name acc fields = Some r → P r.
Proof.
  intros Hread Hacc Hall. revert acc Hacc.
  induction Hall as [|[k v] fields Hv _ IH]; intros acc Hacc; cbn; [by intros [= <-]|].
  destruct (EqualFold k name); [|by apply IH].
  destruct (read acc v) as [acc'|] eqn:E; [|done]. cbn. apply IH. by eapply Hread.
Qed.

Definition small (v : value) : Prop := wire_pairs v ∧ (nesting v ≤ max_depth)%N.

Definition int64_opt (o : option Z) : Prop := ∀ z, o = Some z → int64 z.

Lemma int64_none : int64_opt None.
Proof. by intros z. Qed.

Lemma read_int_inv acc v r : int64_opt acc → small v → read_int acc v = Some r → int64_opt r.
Proof.
  intros _ _. destruct v; try done; cbn; [intros [= <-]; apply int64_none|]. destruct (ParseInt text) eqn:E; [|done].
  intros [= <-] x [= <-]. by apply ParseInt_int64 in E.
Qed.

Lemma good_config_alt c :
  good_config c ↔
  NoDup (fst <$> c) ∧ Forall (λ kv, valid_utf8 kv.1 = true ∧ wire kv.2 ∧ (nesting kv.2 < max_depth)%N) c.
Proof.
  unfold good_config. cbn [wire nesting]. assert (1 ≤ max_depth)%N by done.
  assert (Forall (λ kv, (nesting kv.2 < max_depth)%N) c ↔
          (1 + foldr (λ kv n, N.max (nesting kv.2) n) 0 c ≤ max_depth)%N) as <-.
  { split.
    - intros Hall. induction Hall; cbn in *; lia.
    - intros Hmax. eapply (Forall_impl (λ kv, (nesting kv.2 ≤ max_depth - 1)%N)); [apply foldr_max_Forall; lia|].
      intros kv Hkv. cbn in Hkv. lia. }
  pose proof (foldr_and_Forall (λ kv : string * value, valid_utf8 kv.1 = true ∧ wire kv.2) c) as ->.
  assert (Forall (λ kv, valid_utf8 kv.1 = true ∧ wire kv.2 ∧ (nesting kv.2 < max_depth)%N) c ↔
          Forall (λ kv, valid_utf8 kv.1 = true ∧ wire kv.2) c ∧ Forall (λ kv, (nesting kv.2 < max_depth)%N) c) as ->; [|tauto].
  rewrite <- Forall_and. apply Forall_proper; [intros kv; tauto|done].
Qed.

Lemma mapM_total {A B} (f : A → option B) (g : A → B) l : (∀ x, f x = Some (g x)) → mapM f l = Some (g <$> l).
Proof. intros Hf. induction l as [|x l IH]; [done|]. cbn. by rewrite Hf, IH. Qed.

Lemma read_any_map_inv acc v r : good_config acc → small v → read_any_map acc v = Some r → good_config r.
Proof.
  rewrite !good_config_alt. intros [Hnd Hacc] [Hw Hn]. destruct v as [| | | | | |fields]; try done.
  { intros [= <-]. apply good_config_alt, good_config_nil. }
  unfold read_any_map, read_map.
  rewrite (mapM_total _ (λ kv : string * value, (kv.1, as_any kv.2))) by done.
  cbn [mbind option_bind]. intros [= <-].
  apply (foldr_and_Forall (λ kv, valid_utf8 kv.1 = true ∧ wire_pairs kv.2)) in Hw. cbn [nesting] in Hn.
  assert (1 ≤ max_depth)%N by done.
  split; [by apply foldl_map_set_NoDup|].
  apply (foldl_map_set_Forall (λ k v, valid_utf8 k = true ∧ wire v ∧ (nesting v < max_depth)%N)); [done|].
  apply Forall_fmap.
  assert (Forall (λ kv, (nesting kv.2 ≤ max_depth - 1)%N) fields) as Hb by (apply foldr_max_Forall; lia).
  eapply Forall_impl; [exact (proj2 (Forall_and _ _) (conj Hw Hb))|]. cbn.
  intros kv [[? Hp] ?]. apply wire_pairs_as_any in Hp as [? ?]. repeat split; try done. lia.
Qed.

(** Every pair of a decoded object holds a small value. *)
Lemma object_fields_small s v fields :
  parse_json s = Some v → object_fields v = Some fields → Forall (λ kv, small kv.2) fields.
Proof.
  unfold parse_json. destruct (read_value _ _ _) as [[w rest]|] eqn:E; [|done]. cbn [mbind option_bind].
  destruct (skip_space rest); [|done]. intros [= <-]. apply read_typed in E as [Hw Hn]; [|done].
  unfold nested_below in Hn. destruct w as [| | | | | |l]; try done; intros [= <-]; [constructor|].
  apply (foldr_and_Forall (λ kv, valid_utf8 kv.1 = true ∧ wire_pairs kv.2)) in Hw. cbn [nesting] in Hn.
  assert (Forall (λ kv, (nesting kv.2 ≤ max_depth)%N) l) as Hb by (apply foldr_max_Forall; lia).
  eapply Forall_impl; [exact (proj2 (Forall_and _ _) (conj Hw Hb))|]. intros kv [[_ ?] ?]. by split.
Qed.

(** What the rest of the program may rely on in a member's data. *)
Definition good_data (d : MemberData) : Prop :=
  good_config (mdTags d) ∧ good_config (mdPendingRestartReason d) ∧
  int64_opt (mdTimeline d) ∧ int64_opt (mdXLogLocation d) ∧ int64_opt (mdReceiveLSN d) ∧ int64_opt (mdReplayLSN d).

Lemma good_data_zero : good_data zero.
Proof. split_and!; first [apply good_config_nil|apply int64_none]. Qed.

Lemma decode_member_data_good s v d : parse_json s = Some v → decode_member_data v = Some d → good_data d.
Proof.
  intros Hs. unfold decode_member_data. destruct (object_fields v) as [fields|] eqn:Ef; [|done].
  pose proof (object_fields_small _ _ _ Hs Ef) as Hall. cbn [mbind option_bind].
  repeat (match goal with |- (mbind _ ?o = Some d → _) => destruct o eqn:?; [|done] end; cbn [mbind option_bind]).
  intros [= <-].
  assert (∀ name r, unmarshal_field read_int name None fields = Some r → int64_opt r) as Hint
    by (intros name x Hx; eapply (unmarshal_field_inv int64_opt small); [apply read_int_inv|apply int64_none|done|exact Hx]).
  assert (∀ name r, unmarshal_field read_any_map name [] fields = Some r → good_config r) as Hmap
    by (intros name x Hx; eapply (unmarshal_field_inv good_config small);
        [apply read_any_map_inv|apply good_config_nil|done|exact Hx]).
  split_and!; cbn; first [by eapply Hmap|by eapply Hint].
Qed.

Definition good_member (m : Member) : Prop := good_data (mbData m).

Lemma decodeMember_good entry : good_member (decodeMember entry).1.
Proof.
  unfold decodeMember. cbv zeta. destruct (HasPrefix _ _).
  { destruct (parseLegacyConnectionString _). cbn. split_and!; first [apply good_config_nil|apply int64_none]. }
  unfold decodeJSON. destruct (parse_json (enValue entry)) as [v|] eqn:E; cbn; [|apply good_data_zero].
  destruct (decode_member_data v) eqn:Ed; cbn; [by eapply decode_member_data_good|apply good_data_zero].
Qed.

Lemma decodeSync_int64 entry : int64 (syQuorum (decodeSync entry).1).
Proof.
  unfold decodeSync. cbv zeta. destruct (decodeJSON _ ≫= _) as [[[leader standby] quorum]|]; [|by split].
  destruct (leader ==s ""); [by split|]. apply integer_or_zero.
Qed.

Record good_cluster (c : ClusterState) : Prop := mkGood {
  good_csConfig : good_config (csConfig c);
  good_csMembers : Forall good_member (csMembers c);
  good_csStatus : int64_status (csStatus c);
  good_csQuorum : int64 (syQuorum (csSync c))
}.

Lemma decode_entry_good c entry : good_cluster c → good_cluster (decode_entry c entry).1.
Proof.
  intros [Hc Hm Hs Hq]. destruct c as [initialize configuration leader members failover history status sync failsafe].
  cbn in *. destruct (enKind entry); try done.
  - pose proof (decode_config_good entry). by destruct (decode_config entry).
  - pose proof (decodeMember_good entry). destruct (decodeMember entry). split; try done. cbn.
    apply Forall_app. split; [done|by apply Forall_singleton].
  - by destruct (decodeFailover entry).
  - by destruct (decode_history entry).
  - pose proof (decodeSync_int64 entry). by destruct (decodeSync entry).
  - by destruct (decode_failsafe entry).
Qed.

Lemma decode_fold_good entries acc : good_cluster acc.1 → good_cluster (foldl decode_step acc entries).1.
Proof.
  revert acc. induction entries as [|entry entries IH]; intros acc Hacc; [done|]. cbn. apply IH. unfold decode_step.
  pose proof (decode_entry_good acc.1 entry Hacc). by destruct (decode_entry acc.1 entry).
Qed.

Lemma decodeCluster_good entries :
  good_cluster (decodeCluster entries).1 ∧ StronglySorted (key_le mbName) (csMembers (decodeCluster entries).1).
Proof.
  unfold decodeCluster. assert (good_cluster zero) as Hzero by (split; [apply good_config_nil|constructor|by repeat constructor|by split]).
  pose proof (decode_fold_good entries (zero, []) Hzero) as Hgood.
  destruct (foldl decode_step (zero, []) entries) as [c issues]. cbn in Hgood. destruct Hgood as [Hc Hm Hs Hq].
  assert (∀ ms, Forall good_member ms → Forall good_member (sort_by mbName ms)) as Hsort
    by (intros; by rewrite sort_by_perm).
  destruct (status_entry entries) as [entry|].
  - pose proof (decodeStatus_int64 entry). destruct (decodeStatus entry) as [status more]. cbn in *.
    split; [split; [done|by apply Hsort|done|done]|apply sort_by_sorted].
  - split; [split; [done|by apply Hsort|done|done]|apply sort_by_sorted].
Qed.

Lemma BuildSnapshot_cluster target prefix revision entries :
  snCluster (BuildSnapshot target prefix revision entries)
    = (decodeCluster (SortEntries (place_entry prefix <$> entries))).1.
Proof. unfold BuildSnapshot. cbv zeta. by destruct (decodeCluster _). Qed.

(** C32: whatever bytes a cluster's keys hold, the snapshot built from them is well typed: its configuration and every
    member's tags are valid UTF-8 with one value per key and nest no deeper than the decoder allows, so they have a JSON
    text; positions, slots, timelines and the quorum are 64-bit integers; and the members are in the order of their
    names. *)
Theorem BuildSnapshot_typed (target : Target) (prefix : string) (revision : Z) (entries : list Entry) :
  let cluster := snCluster (BuildSnapshot target prefix revision entries) in
  good_cluster cluster ∧ StronglySorted (key_le mbName) (csMembers cluster) ∧
  Marshal (VMap (csConfig cluster)) = Some (text (VMap (csConfig cluster))).
Proof.
  cbv zeta. rewrite BuildSnapshot_cluster. destruct (decodeCluster_good (SortEntries (place_entry prefix <$> entries))) as [Hg Hs].
  split; [done|]. split; [done|]. by apply wire_Marshal, (good_csConfig _ Hg).
Qed.

(** ** Round trips *)

Lemma in_key_order_wire v : wire v → wire (in_key_order v).
Proof.
  induction v as [|b|t| |s|items IH|fields IH] using value_induction; intros Hw; try done.
  - apply (foldr_and_Forall wire) in Hw. cbn. apply foldr_and_Forall, Forall_fmap.
    eapply Forall_impl; [exact (proj2 (Forall_and _ _) (conj IH Hw))|]. cbn. naive_solver.
  - destruct Hw as [Hnd Hw]. apply (foldr_and_Forall (λ kv, valid_utf8 kv.1 = true ∧ wire kv.2)) in Hw.
    cbn [in_key_order]. rewrite (sort_by_fmap fst fst) by done. split.
    + rewrite <- list_fmap_compose. change (fst ∘ λ kv : string * value, (kv.1, in_key_order kv.2)) with (@fst string value).
      by rewrite sort_by_perm.
    + apply (foldr_and_Forall (λ kv, valid_utf8 kv.1 = true ∧ wire kv.2)), Forall_fmap. rewrite sort_by_perm.
      eapply Forall_impl; [exact (proj2 (Forall_and _ _) (conj IH Hw))|]. cbn. naive_solver.
Qed.

Lemma in_key_order_text v : wire v → text (in_key_order v) = text v.
Proof.
  induction v as [|b|t| |s|items IH|fields IH] using value_induction; intros Hw; try done.
  - pose proof (in_key_order_wire _ Hw) as Hw'. cbn [in_key_order] in *.
    apply (foldr_and_Forall wire) in Hw, Hw'.
    rewrite !text_list by (eapply Forall_impl; [eassumption|]; intros; by apply wire_Marshal).
    f_equal. rewrite <- list_fmap_compose. apply list_fmap_ext. intros i v Hv. cbn.
    apply list_elem_of_lookup_2 in Hv. rewrite Forall_forall in IH, Hw. auto.
  - pose proof (in_key_order_wire _ Hw) as Hw'. cbn [in_key_order] in *. destruct Hw as [Hnd Hw], Hw' as [Hnd' Hw'].
    apply (foldr_and_Forall (λ kv, valid_utf8 kv.1 = true ∧ wire kv.2)) in Hw, Hw'.
    rewrite !text_map by (eapply Forall_impl; [eassumption|]; intros ? [_ ?]; by apply wire_Marshal).
    f_equal.
    assert (pair_text <$> ((λ kv, (kv.1, in_key_order kv.2)) <$> fields) = pair_text <$> fields) as E.
    { rewrite <- list_fmap_compose. apply list_fmap_ext. intros i [k v] Hv. unfold pair_text. cbn. f_equal.
      apply list_elem_of_lookup_2 in Hv. rewrite Forall_forall in IH, Hw. apply (IH (k, v) Hv), (Hw (k, v) Hv). }
    rewrite <- E. symmetry. apply sort_by_unique.
    + rewrite E, <- list_fmap_compose. exact Hnd.
    + by rewrite sort_by_perm.
Qed.

Lemma in_key_order_get c key :
  NoDup (fst <$> c) →
  map_get (sort_by fst ((λ kv, (kv.1, in_key_order kv.2)) <$> c)) key = in_key_order <$> map_get c key.
Proof.
  intros Hnd. rewrite <- (same_map_perm ((λ kv, (kv.1, in_key_order kv.2)) <$> c)).
  - clear Hnd. induction c as [|[k v] c IH]; [done|]. cbn. rewrite !map_get_cons. by destruct (k ==s key).
  - by rewrite <- list_fmap_compose.
  - by rewrite sort_by_perm.
Qed.

(** A configuration in key order reads back as it is. *)
Lemma decode_written entry v :
  wire v → (nesting v ≤ max_depth)%N → Marshal v = Some (enValue entry) →
  decodeJSON (enValue entry) = Some (in_key_order v) ∧ as_any (in_key_order v) = in_key_order v.
Proof.
  intros Hw Hn Ht. rewrite (wire_Marshal v Hw) in Ht. injection Ht as <-. unfold decodeJSON. rewrite parse_text by done.
  split; [done|]. by apply as_any_wire, in_key_order_wire.
Qed.

Lemma decode_config_post (entry : Entry) (configuration : config) :
  good_config configuration → Marshal (VMap configuration) = Some (enValue entry) →
  (decode_config entry).2 = [] ∧
  Marshal (VMap (decode_config entry).1) = Some (enValue entry) ∧
  ∀ key, map_get (decode_config entry).1 key = in_key_order <$> map_get configuration key.
Proof.
  intros [Hw Hn] Ht. destruct (decode_written entry _ Hw Hn Ht) as [E Hany].
  unfold decode_config. rewrite E. cbn [fmap option_fmap option_map]. rewrite Hany. cbn [in_key_order fst snd].
  split; [done|]. split; [|intros key; apply in_key_order_get; exact (proj1 Hw)].
  rewrite <- Ht. change (VMap (sort_by fst ((λ kv, (kv.1, in_key_order kv.2)) <$> configuration)))
    with (in_key_order (VMap configuration)).
  rewrite !wire_Marshal by (done || by apply in_key_order_wire). by rewrite in_key_order_text.
Qed.

(** A configuration the decoder can hold, written to the config key as [json.Marshal] writes it, is decoded without
    an issue; the decoded configuration has the same JSON text, and every key reads what was written, up to the order
    of the keys in nested objects. *)
Theorem decode_config_round_trip (entry : Entry) (configuration : config) :
  good_config configuration → Marshal (VMap configuration) = Some (enValue entry) →
  (decode_config entry).2 = [] ∧
  Marshal (VMap (decode_config entry).1) = Some (enValue entry) ∧
  ∀ key, map_get (decode_config entry).1 key = in_key_order <$> map_get configuration key.
Proof. apply decode_config_post. Qed.

(** *** The failover key *)

Definition ascii_text (s : string) : Prop := has_char (λ c, negb (byte_le 0 c 127)) s = false.

Lemma has_char_app p s t : has_char p (s +:+ t) = has_char p s || has_char p t.
Proof. unfold has_char. by rewrite bytes_app, existsb_app. Qed.

Lemma ascii_app s t : ascii_text s → ascii_text t → ascii_text (s +:+ t).
Proof. unfold ascii_text. by rewrite has_char_app; intros -> ->. Qed.

Lemma ascii_valid s : ascii_text s → valid_utf8 s = true.
Proof.
  intros Hs. rewrite <- (String.string_of_list_ascii_of_string s). apply rune_bytes_valid. unfold ascii_text, has_char in Hs.
  revert Hs. generalize (String.list_ascii_of_string s). intros l.
  induction l as [|c l IH]; [by exists []|]. cbn. intros [Hc Hl]%orb_false_iff.
  apply (rune_bytes_app [c]); [|by apply IH]. apply rune_bytes_one. split; [done|]. cbn.
  apply negb_false_iff in Hc. by rewrite Hc.
Qed.

Lemma digits_ascii s : has_char (λ c, negb (is_digit c)) s = false → ascii_text s.
Proof.
  unfold ascii_text. induction s as [|c s IH]; [done|]. unfold has_char in *.
  cbn [String.list_ascii_of_string existsb]. intros [Hc Hs]%orb_false_iff. rewrite IH by done. clear -Hc. destruct c as [[] [] [] [] [] [] [] []]; done.
Qed.

Lemma FormatInt_ascii z : ascii_text (FormatInt z).
Proof.
  unfold FormatInt. destruct (z <? 0)%Z; [apply (ascii_app "-"); [done|]|]; apply digits_ascii, format_N_digits.
Qed.

Lemma digits_of_digits width n : has_char (λ c, negb (is_digit c)) (digits_of width n) = false.
Proof.
  induction width as [|w IH]; [done|]. unfold has_char in *. cbn [digits_of String.list_ascii_of_string existsb].
  rewrite IH, orb_false_r. apply negb_false_iff, digit_spec.
  pose proof (Z.mod_pos_bound (n / 10 ^ Z.of_nat w) 10 ltac:(lia)). lia.
Qed.

Lemma pad_ascii width n : ascii_text (pad width n).
Proof.
  unfold pad. cbv zeta. apply ascii_app; [by destruct (n <? 0)%Z|].
  case_match; [apply digits_ascii, digits_of_digits|apply FormatInt_ascii].
Qed.

Lemma timestamp_ascii t : ascii_text (formatPatroniTimestamp t).
Proof.
  unfold formatPatroniTimestamp, format_datetime, format_fraction, format_offset. cbv zeta.
  destruct (civil_from_days _) as [[y m] d].
  repeat first [apply pad_ascii|apply ascii_app|apply TrimRight_has_char, digits_ascii, digits_of_digits|case_match|done].
Qed.

Definition payload_value (payload : list (string * string)) : value := VMap ((λ kv, (kv.1, VString kv.2)) <$> payload).

(** The failover key a switchover or failover writes, as the JSON object of its fields, is decoded by the next
    snapshot to the request it stands for: the leader for a switchover, the candidate, the schedule as it was printed,
    the entry's revision, and no issue. *)
Theorem failover_payload_round_trip (intent : transitionIntent) (planned : transitionSelection) (entry : Entry) :
  valid_utf8 (tsLeader planned) = true → valid_utf8 (tiCandidate intent) = true →
  Marshal (payload_value (transitionDCSPayload intent planned)) = Some (enValue entry) →
  decodeFailover entry
    = (mkFailover (enModRevision entry) (if is_switchover intent then tsLeader planned else "") (tiCandidate intent)
         (transitionSchedule intent), []).
Proof.
  intros Hl Hc Ht. assert (valid_utf8 (transitionSchedule intent) = true) as Hs
    by (unfold transitionSchedule; destruct (tiScheduledAt intent); [apply ascii_valid, timestamp_ascii|done]).
  revert Ht. unfold decodeFailover, transitionDCSPayload.
  destruct (is_switchover intent), (String.eqb_spec (tsLeader planned) "") as [El|El],
    (String.eqb_spec (tiCandidate intent) "") as [Ec|Ec], (String.eqb_spec (transitionSchedule intent) "") as [Es|Es];
  cbn [andb negb app]; intros Ht;
  (edestruct decode_written as [E _]; [| |exact Ht|rewrite E]; [by repeat constructor; try set_solver|done|]);
  rewrite ?El, ?Ec, ?Es; done.
Qed.
End with_std.

(** ** Concrete instances *)

Definition raw_entry (key value : string) (revision : Z) : Entry := mkEntry key "" KeyUnknown 1 revision 1 0 value.

Definition sample_entries : list Entry :=
  [raw_entry "/service/pg/leader" "n1" 5; raw_entry "/service/pg/members/n1" "postgres://n1:5432/postgres" 4;
   raw_entry "/service/pg/config" (text (VMap [("ttl", VNumber "30"); ("pause", VBool true)])) 3].

Lemma BuildSnapshot_order_witness :
  NoDup (enKey <$> sample_entries) ∧
  BuildSnapshot sample_target "/service/pg" 9 sample_entries = BuildSnapshot sample_target "/service/pg" 9 (reverse sample_entries).
Proof.
  split; [by apply (bool_decide_unpack _); vm_compute|].
  apply BuildSnapshot_order; [by apply (bool_decide_unpack _); vm_compute|by rewrite reverse_Permutation].
Defined.

Definition sample_config : config := [("ttl", VNumber "30"); ("pause", VBool true); ("tags", VMap [("b", VNull); ("a", VString "x")])].

Definition sample_config_entry : Entry := raw_entry "/service/pg/config" (text (VMap sample_config)) 3.

Lemma decode_config_round_trip_witness :
  good_config sample_config ∧ map_get (decode_config sample_config_entry).1 "pause" = Some (VBool true).
Proof.
  assert (good_config sample_config) as Hgood.
  { split; [|done]. cbn [wire foldr sample_config fst snd].
    repeat match goal with
    | |- NoDup _ => apply (bool_decide_unpack _); by vm_compute
    | |- _ ∧ _ => split
    | |- _ => done
    end. }
  split; [done|]. by destruct (decode_config_round_trip sample_config_entry sample_config Hgood ltac:(by vm_compute)) as (_ & _ & ->).
Defined.

Definition sample_switchover : transitionIntent :=
  mkIntent "switchover" sample_target "n1" "n2" (Some (mkTime 63800000000 0 0)) false false.
Definition sample_selection : transitionSelection := mkSelection "n1" "n2" ["n2"] None None false false 0.
Definition sample_failover_entry : Entry :=
  raw_entry "/service/pg/failover" (text (payload_value (transitionDCSPayload sample_switchover sample_selection))) 8.

Lemma failover_payload_round_trip_witness :
  decodeFailover sample_failover_entry = (mkFailover 8 "n1" "n2" "2022-09-28T22:13:20+00:00", []).
Proof. rewrite (failover_payload_round_trip sample_switchover sample_selection) by (by vm_compute). by vm_compute. Defined.

(** * Discovery agrees with a direct snapshot

    [DiscoverFromEntries] scans a whole namespace and assembles one snapshot
    per cluster; [BuildSnapshot] reads one cluster root.  Over the same
    entries both show the same cluster, as long as the keys are written the
    way Patroni writes them: scope without surrounding white space, group in
    canonical decimal. *)

(** ** Only known keys are decoded *)

Definition known_entry (entry : Entry) : Prop := enKind entry ≠ KeyUnknown.

#[export] Instance known_entry_dec entry : Decision (known_entry entry).
Proof. unfold known_entry. apply _. Defined.

Definition placed (entry : Entry) : Prop := enKind entry = ClassifyRelativePath (enRelativePath entry).

Lemma find_first_filter {A} (p : A → bool) (Q : A → Prop) `{∀ x, Decision (Q x)} l :
  Forall (λ x, p x = true → Q x) l → find_first p (filter Q l) = find_first p l.
Proof.
  unfold find_first. induction 1 as [|x l Hx _ IH]; [done|]. rewrite filter_cons. cbn. destruct (decide (Q x)); cbn.
  - by destruct (p x).
  - destruct (p x) eqn:E; [exfalso; auto|done].
Qed.

Section with_std.
Context `{GoStd}.

Lemma decode_step_unknown acc entry : ¬ known_entry entry → decode_step acc entry = acc.
Proof.
  unfold known_entry. intros Hk. apply dec_stable in Hk. destruct acc as [c issues].
  unfold decode_step, decode_entry. cbn. destruct c. by rewrite Hk, app_nil_r.
Qed.

Lemma decode_fold_known entries acc :
  foldl decode_step acc entries = foldl decode_step acc (filter known_entry entries).
Proof.
  revert acc. induction entries as [|entry entries IH]; intros acc; [done|]. rewrite filter_cons. cbn.
  destruct (decide (known_entry entry)); cbn; [apply IH|]. by rewrite decode_step_unknown.
Qed.

Lemma last_entry_known path entries :
  ClassifyRelativePath path ≠ KeyUnknown → Forall placed entries →
  last_entry path (filter known_entry entries) = last_entry path entries.
Proof.
  intros Hpath Hall. unfold last_entry. rewrite <- filter_reverse. apply find_first_filter. apply Forall_reverse.
  eapply Forall_impl; [exact Hall|]. intros entry Hp Hname. apply String.eqb_eq in Hname.
  unfold known_entry. by rewrite Hp, Hname.
Qed.

Lemma decodeCluster_known entries :
  Forall placed entries → decodeCluster entries = decodeCluster (filter known_entry entries).
Proof.
  intros Hall. unfold decodeCluster. rewrite decode_fold_known. unfold status_entry.
  by rewrite !last_entry_known.
Qed.
End with_std.

(** Sorting commutes with a filter. *)
Lemma sort_by_filter {A} (key : A → string) (P : A → Prop) `{∀ x, Decision (P x)} (l : list A) :
  NoDup (key <$> l) → sort_by key (filter P l) = filter P (sort_by key l).
Proof.
  intros Hnd. assert (∀ k, NoDup (key <$> k) → NoDup (key <$> filter P k)) as Hf
    by (intros k Hk; eapply sublist_NoDup; [exact Hk|apply fmap_sublist, sublist_filter]).
  rewrite (sort_by_unique key (filter P l) (filter P (sort_by key l))) by (by rewrite ?sort_by_perm; auto).
  apply sort_by_id; [apply Hf; by rewrite sort_by_perm|].
  pose proof (sort_by_sorted key l) as Hs. induction Hs as [|x k _ IH Hx]; [constructor|]. rewrite filter_cons.
  destruct (decide (P x)); [|done]. constructor; [done|]. rewrite Forall_forall in *.
  intros y [_ Hy]%list_elem_of_filter. by apply Hx.
Qed.

(** ** What the loop collects *)

Definition lookup_evidence (found : list (string * evidence)) (id : string) : option evidence :=
  snd <$> find_first (λ kv, kv.1 ==s id) found.

Lemma lookup_map_set (found : list (string * evidence)) id item id' :
  lookup_evidence (map_set found id item) id' = if id ==s id' then Some item else lookup_evidence found id'.
Proof.
  unfold lookup_evidence, find_first. induction found as [|[k v] found IH]; cbn; [by destruct (id ==s id')|].
  destruct (String.eqb_spec k id) as [->|Hk]; cbn; [by destruct (id ==s id')|].
  destruct (String.eqb_spec k id') as [->|]; [|exact IH].
  by destruct (String.eqb_spec id id') as [->|].
Qed.

Lemma lookup_elem (found : list (string * evidence)) id item :
  NoDup (fst <$> found) → (id, item) ∈ found → lookup_evidence found id = Some item.
Proof.
  unfold lookup_evidence, find_first. induction found as [|[k v] found IH]; cbn; [by intros _ ?%not_elem_of_nil|].
  intros [Hk Hnd]%NoDup_cons [[= -> ->]|Hin]%elem_of_cons; [by rewrite String.eqb_refl|].
  destruct (String.eqb_spec k id) as [->|]; [|by apply IH].
  destruct Hk. by apply (list_elem_of_fmap_2 fst) in Hin.
Qed.

Definition entry_pair (hit : Target * Entry) : string * Entry := (enKey hit.2, hit.2).

Definition of_cluster (id : string) (hits : list (Target * Entry)) : list (Target * Entry) :=
  filter (λ hit, ClusterID hit.1 = id) hits.

(** The item of a cluster: the target of its first hit and all its hits. *)
Definition item_of (hits : list (Target * Entry)) : option evidence :=
  match hits with [] => None | hit :: _ => Some (hit.1, entry_pair <$> hits) end.

Lemma item_of_snoc hits hit :
  item_of (hits ++ [hit]) = Some (deref hit.1 (fst <$> item_of hits), entry_pair <$> (hits ++ [hit])).
Proof. by destruct hits. Qed.

Lemma map_set_fresh {A} (m : list (string * A)) k v : k ∉ fst <$> m → map_set m k v = m ++ [(k, v)].
Proof.
  intros Hnin. induction m as [|[k' v'] m IHm]; [done|]. cbn in *. apply not_elem_of_cons in Hnin as [Hne Hnin].
  destruct (String.eqb_spec k' k); [done|]. by rewrite IHm.
Qed.

Lemma add_evidence_spec hits :
  NoDup ((enKey ∘ snd) <$> hits) →
  NoDup (fst <$> foldl add_evidence [] hits) ∧
  ∀ id, lookup_evidence (foldl add_evidence [] hits) id = item_of (of_cluster id hits).
Proof.
  induction hits as [|hit hits IH] using rev_ind; [intros _; by split; [constructor|]|].
  rewrite fmap_app. intros Hnd. pose proof Hnd as (Hhits & Hfresh & _)%NoDup_app. destruct (IH Hhits) as [Hids Hlook].
  rewrite foldl_app. cbn [foldl]. set (found := foldl add_evidence [] hits) in *. unfold add_evidence.
  split; [by apply map_set_NoDup|]. intros id. rewrite lookup_map_set.
  change (snd <$> find_first (λ kv, kv.1 ==s ClusterID hit.1) found) with (lookup_evidence found (ClusterID hit.1)).
  rewrite Hlook. unfold of_cluster. rewrite filter_app.
  destruct (String.eqb_spec (ClusterID hit.1) id) as [<-|Hne].
  - rewrite filter_cons_True, filter_nil by done. rewrite item_of_snoc. set (own := filter _ hits).
    assert (enKey hit.2 ∉ fst <$> (entry_pair <$> own)) as Hnin.
    { rewrite <- list_fmap_compose. intros (h & E & [_ Hh]%list_elem_of_filter)%list_elem_of_fmap.
      apply (Hfresh (enKey hit.2)); [|cbn; apply list_elem_of_singleton; done].
      rewrite E. by apply (list_elem_of_fmap_2 (enKey ∘ snd)). }
    rewrite fmap_app. destruct own as [|h own]; cbn [item_of fmap option_fmap option_map deref fst snd]; [done|].
    by rewrite map_set_fresh.
  - by rewrite filter_cons_False, filter_nil, app_nil_r.
Qed.

(** ** Keys and roots *)

(** The root of a cluster, without the trailing slash. *)
Definition cluster_root (namespace scope : string) (group : option Z) : string :=
  NamespacePrefix namespace +:+ scope +:+ match group with None => "" | Some z => "/" +:+ FormatInt z end.

Definition root_segment (s : string) : Prop := s ≠ "" ∧ lacks "/" s.

Lemma FormatInt_segment z : root_segment (FormatInt z).
Proof.
  split; [|by apply FormatInt_lacks]. unfold FormatInt. destruct (z <? 0)%Z; [done|].
  destruct (format_N_first (Z.abs_N z)) as (c & r & -> & _). done.
Qed.

(** The path of a key below its root. *)
Lemma relative_below namespace scope group r :
  root_segment scope → relative_to (cluster_root namespace scope group) (cluster_root namespace scope group +:+ "/" +:+ r) = r.
Proof.
  intros [Hne Hl]. assert (TrimRight slash (cluster_root namespace scope group) = cluster_root namespace scope group) as E.
  { unfold cluster_root. destruct group as [z|].
    - rewrite <- !string_app_assoc. apply (TrimRight_lacks "/"); apply FormatInt_segment.
    - rewrite string_app_nil_r. by apply (TrimRight_lacks "/"). }
  unfold relative_to. rewrite E, TrimPrefix_app. apply TrimPrefix_app.
Qed.

(** *** A known path never starts with a number *)

Lemma TrimRight_cons cut c s : cut c = false → ∃ t, TrimRight cut (String c s) = String c t.
Proof.
  intros Hc. unfold TrimRight. assert (String.rev (String c s) = String.rev s +:+ String c "") as ->.
  { apply bytes_inj. rewrite bytes_app, !rev_bytes. cbn [String.list_ascii_of_string]. by rewrite reverse_cons. }
  assert (∀ u, ∃ v, TrimLeft cut (u +:+ String c "") = v +:+ String c "") as Hleft.
  { intros u. induction u as [|d u [v IH]]; [exists "" |].
    { change ("" +:+ String c "") with (String c ""). cbn [TrimLeft]. by rewrite Hc. }
    change (∃ v, (if cut d then TrimLeft cut (u +:+ String c "") else String d (u +:+ String c "")) = v +:+ String c "").
    destruct (cut d); [by exists v|]. by exists (String d u). }
  destruct (Hleft (String.rev s)) as [v ->]. exists (String.rev v).
  apply bytes_inj. rewrite rev_bytes, bytes_app, reverse_app. cbn [String.list_ascii_of_string]. by rewrite rev_bytes.
Qed.

Definition letter (c : ascii) : Prop := byte_le 97 c 122 = true.

Lemma classified_letter c s : known_path (String c s) = true → slash c = false → letter c.
Proof.
  intros Hk Hc. unfold known_path, ClassifyRelativePath in Hk. cbv zeta in Hk.
  assert (∃ t, Trim slash (String c s) = String c t) as [t E].
  { unfold Trim. cbn [TrimLeft]. rewrite Hc. by apply TrimRight_cons. }
  rewrite E in Hk.
  do 9 (match type of Hk with context [String c t ==s ?w] => destruct (String.eqb_spec (String c t) w) as [Ew|_] end;
        [injection Ew as -> _; done|]).
  destruct (HasPrefix (String c t) "members/") eqn:Ep; [|done].
  apply HasPrefix_spec in Ep as [r Er]. by injection Er as -> _.
Qed.

Lemma ParseInt_head s z : ParseInt s = Some z → ∃ c r, s = String c r ∧ slash c = false ∧ ¬ letter c.
Proof.
  unfold ParseInt. destruct s as [|c r]; [done|]. intros Hp. exists c, r. split; [done|].
  destruct (decide (is_digit c = true)) as [Hd|Hd]; [destruct c as [[] [] [] [] [] [] [] []]; done|].
  destruct (decide (c = "-"%char ∨ c = "+"%char)) as [[->| ->]|Hc]; [done..|]. exfalso.
  assert (parse_digits (String c r) = None) as Hnone.
  { cbn. destruct (is_digit c); [done|]. clear. by induction (String.list_ascii_of_string r). }
  rewrite Hnone in Hp. destruct c as [[] [] [] [] [] [] [] []]; try done; naive_solver.
Qed.

Lemma split_group_known r : known_path r = true → split_group (Split "/" r) = (None, Split "/" r).
Proof.
  intros Hk. destruct (Split "/" r) as [|g [|b below]] eqn:E; [done..|]. unfold split_group.
  destruct (ParseInt g) as [z|] eqn:Ez; [|done]. exfalso.
  assert (r = g +:+ "/" +:+ Join (b :: below) "/") as ->.
  { rewrite <- (Join_Split "/" r), E. apply Join_cons. }
  destruct (ParseInt_head _ _ Ez) as (c & t & -> & Hc & Hl). apply Hl.
  by apply (classified_letter c (t +:+ "/" +:+ Join (b :: below) "/")).
Qed.

(** *** The cluster of a key *)

Definition hit_target (context namespace scope : string) (group : option Z) : Target :=
  with_group (Normalize (mkTarget context namespace scope None "")) group.

(** A key as Patroni writes it: the scope has no surrounding white space, and
    a number behind it is in canonical decimal. *)
Definition canonical_key (namespace key : string) : Prop :=
  match Split "/" (TrimPrefix key (NamespacePrefix namespace)) with
  | scope :: tail =>
      TrimSpace scope = scope ∧
      match tail with
      | g :: _ :: _ => match ParseInt g with Some z => FormatInt z = g | None => True end
      | _ => True
      end
  | [] => True
  end.

#[export] Instance canonical_key_dec namespace key : Decision (canonical_key namespace key).
Proof.
  unfold canonical_key. destruct (Split "/" (TrimPrefix key (NamespacePrefix namespace))) as [|scope [|g [|b below]]];
    [left; done|apply _..|]. destruct (ParseInt g); apply _.
Defined.

Lemma canonical_key_spec namespace key scope tail :
  canonical_key namespace key → Split "/" (TrimPrefix key (NamespacePrefix namespace)) = scope :: tail →
  TrimSpace scope = scope ∧ ∀ g b below z, tail = g :: b :: below → ParseInt g = Some z → FormatInt z = g.
Proof.
  unfold canonical_key. intros Hc E. rewrite E in Hc. destruct Hc as [? Hg]. split; [done|].
  intros g b below z -> Ez. by rewrite Ez in Hg.
Qed.

Definition good_group (group : option Z) : Prop := ∀ z, group = Some z → (0 <= z)%Z ∧ int64 z.

Lemma split_group_cases tail group path :
  split_group tail = (group, path) →
  (group = None ∧ path = tail) ∨
  ∃ z t b below, group = Some z ∧ (0 <= z)%Z ∧ tail = t :: b :: below ∧ path = b :: below ∧ ParseInt t = Some z.
Proof.
  unfold split_group. destruct tail as [|t [|b below]]; [intros [= <- <-]; by left..|].
  destruct (ParseInt t) as [z|] eqn:Ez; [|intros [= <- <-]; by left].
  destruct ((0 <=? z)%Z && known_path (Join (b :: below) "/"))%bool eqn:E; [|intros [= <- <-]; by left].
  intros [= <- <-]. right. go_bool. by exists z, t, b, below.
Qed.

Lemma root_of_path namespace scope group path :
  path ≠ [] →
  NamespacePrefix namespace +:+ Join (scope :: match group with None => path | Some z => FormatInt z :: path end) "/"
    = cluster_root namespace scope group +:+ "/" +:+ Join path "/".
Proof.
  intros Hne. unfold cluster_root. destruct path as [|x path]; [done|]. destruct group as [z|].
  - rewrite !Join_cons, !string_app_assoc. done.
  - by rewrite Join_cons, !string_app_assoc.
Qed.

(** Everything a hit says of its key. *)
Lemma discover_entry_hit context namespace entry target hit :
  canonical_key namespace (enKey entry) →
  discover_entry context namespace (NamespacePrefix namespace) entry = Some (target, hit) →
  ∃ scope group path,
    target = hit_target context namespace scope group ∧ root_segment scope ∧ TrimSpace scope = scope ∧
    good_group group ∧ known_path path = true ∧ hit = with_path entry path ∧
    enKey entry = cluster_root namespace scope group +:+ "/" +:+ path.
Proof.
  intros Hcanon. unfold discover_entry. cbv zeta. set (rel := TrimPrefix (enKey entry) (NamespacePrefix namespace)).
  destruct (String.eqb_spec rel (enKey entry)) as [|Hrel]; [done|].
  destruct (rel ==s ""); [done|]. cbn [orb].
  assert (enKey entry = NamespacePrefix namespace +:+ rel) as Hkey.
  { subst rel. destruct (HasPrefix (enKey entry) (NamespacePrefix namespace)) eqn:Ep.
    - destruct (HasPrefix_spec _ _ Ep) as [r E]. by rewrite E, TrimPrefix_app.
    - unfold TrimPrefix in Hrel. by rewrite Ep in Hrel. }
  destruct (Split "/" rel) as [|scope [|x tail]] eqn:Es; [done..|].
  destruct (String.eqb_spec (TrimSpace scope) "") as [|Hscope]; [done|].
  destruct (canonical_key_spec _ _ scope (x :: tail) Hcanon Es) as [Htrim Hnum].
  destruct (split_group (x :: tail)) as [group path] eqn:Eg.
  destruct (known_path (Join path "/")) eqn:Ek; [|done]. intros [= <- <-].
  exists scope, group, (Join path "/"). split; [done|].
  pose proof (Split_lacks "/" rel) as Hl. rewrite Es in Hl. apply Forall_cons in Hl as [Hl _].
  split; [split; [congruence|done]|]. split; [done|].
  assert (rel = Join (scope :: x :: tail) "/") as Erel by (by rewrite <- Es, Join_Split).
  apply split_group_cases in Eg as [[-> ->]|(z & t & b & below & -> & Hz & Et & -> & Ez)].
  - split; [intros z [=]|]. do 2 (split; [done|]). rewrite Hkey, Erel. by apply (root_of_path _ _ None).
  - split; [intros z' [= <-]; split; [done|by eapply ParseInt_int64]|]. do 2 (split; [done|]).
    rewrite Hkey, Erel, Et. rewrite <- (Hnum t b below z Et Ez). by apply (root_of_path _ _ (Some z)).
Qed.

Lemma slash_app s : "/" +:+ s = String "/" s.
Proof. done. Qed.

(** Every known key below a root is a hit for its cluster. *)
Lemma discover_entry_below context namespace scope group path entry :
  root_segment scope → TrimSpace scope = scope → good_group group → known_path path = true →
  enKey entry = cluster_root namespace scope group +:+ "/" +:+ path →
  discover_entry context namespace (NamespacePrefix namespace) entry
    = Some (hit_target context namespace scope group, with_path entry path).
Proof.
  intros [Hne Hl] Htrim Hgroup Hk Hkey. unfold discover_entry. cbv zeta.
  assert (∃ rel, enKey entry = NamespacePrefix namespace +:+ rel ∧
            Split "/" rel = scope :: match group with None => Split "/" path | Some z => FormatInt z :: Split "/" path end
            ∧ rel ≠ "") as (rel & E & Es & Hrel).
  { rewrite Hkey. unfold cluster_root. destruct group as [z|].
    - exists (scope +:+ "/" +:+ FormatInt z +:+ "/" +:+ path). rewrite !string_app_assoc. split; [done|].
      rewrite !slash_app.
      rewrite !Split_app by (done || apply FormatInt_segment). split; [done|by destruct scope].
    - exists (scope +:+ "/" +:+ path). rewrite !string_app_assoc. split; [done|].
      rewrite slash_app, Split_app by done. split; [done|by destruct scope]. }
  rewrite E, TrimPrefix_app.
  destruct (String.eqb_spec rel (NamespacePrefix namespace +:+ rel)) as [Eq|_].
  { apply (f_equal (length ∘ String.list_ascii_of_string)) in Eq. unfold NamespacePrefix, compose in Eq.
    rewrite !bytes_app, !length_app in Eq. cbn [String.list_ascii_of_string length] in Eq. lia. }
  destruct (String.eqb_spec rel ""); [done|]. cbn [orb]. rewrite Es.
  destruct (match group with None => Split "/" path | Some z => FormatInt z :: Split "/" path end) as [|x tail] eqn:Et.
  { destruct group; [done|]. by apply Split_not_nil in Et. }
  rewrite Htrim. destruct (String.eqb_spec scope ""); [done|].
  assert (split_group (x :: tail) = (group, Split "/" path)) as ->.
  { rewrite <- Et. destruct group as [z|]; [|by apply split_group_known].
    destruct (Hgroup z eq_refl) as [Hz Hint]. unfold split_group.
    destruct (Split "/" path) as [|p ps] eqn:Ep; [by apply Split_not_nil in Ep|].
    rewrite ParseInt_FormatInt, <- Ep, Join_Split, Hk by done. by rewrite (proj2 (Z.leb_le 0 z) Hz). }
  by rewrite Join_Split, Hk.
Qed.

Lemma hit_ClusterID_inj context namespace scope scope' group group' :
  TrimSpace scope = scope → TrimSpace scope' = scope' → good_group group → good_group group' →
  ClusterID (hit_target context namespace scope group) = ClusterID (hit_target context namespace scope' group') →
  scope = scope' ∧ group = group'.
Proof.
  intros Hs Hs' Hg Hg' E. unfold ClusterID in E. cbv zeta in E.
  apply (f_equal (λ s, TrimPrefix s clusterIDPrefix)) in E. rewrite !TrimPrefix_app in E.
  apply Join_inj in E; [|apply cluster_segments_lacks..|done|done]. unfold cluster_segments in E. cbn in E.
  injection E as E Egroup. apply PathEscape_inj in E. rewrite !TrimSpace_idem, Hs, Hs' in E. split; [done|].
  apply (f_equal parse_group) in Egroup. rewrite !parse_group_text in Egroup by (intros z Hz; by destruct (Hg z Hz) || by destruct (Hg' z Hz)).
  by injection Egroup.
Qed.

Lemma hit_ClusterPrefix context namespace scope group root :
  TrimSpace scope = scope → ClusterPrefix (hit_target context (NormalizeNamespace namespace) scope group) = inr root →
  root = cluster_root (NormalizeNamespace namespace) scope group.
Proof.
  intros Hs. unfold ClusterPrefix. cbv zeta. destruct (Target_Validate _ true); [done|]. intros [= <-].
  unfold cluster_components, cluster_root, NamespacePrefix. cbn. rewrite !NormalizeNamespace_idem, TrimSpace_idem, Hs.
  destruct group as [z|]; cbn [app]; rewrite !Join_cons; unfold Join; cbn [String.concat];
    rewrite ?string_app_nil_r, !string_app_assoc; done.
Qed.

Definition under (root : string) (entry : Entry) : Prop := HasPrefix (enKey entry) (root +:+ "/") = true.

#[export] Instance under_dec root entry : Decision (under root entry).
Proof. unfold under. apply _. Defined.

Lemma omap_hits (f : Entry → option (Target * Entry)) (P : Target * Entry → Prop) `{∀ h, Decision (P h)}
    (Q : Entry → Prop) `{∀ e, Decision (Q e)} (place : Entry → Entry) (entries : list Entry) :
  (∀ e h, e ∈ entries → (f e = Some h ∧ P h) → Q e ∧ known_entry (place e) ∧ h.2 = place e) →
  (∀ e, e ∈ entries → Q e → known_entry (place e) → ∃ h, f e = Some h ∧ P h) →
  snd <$> filter P (omap f entries) = filter known_entry (place <$> filter Q entries).
Proof.
  intros Hsound Hcomplete. induction entries as [|e entries IH]; [done|].
  assert (snd <$> filter P (omap f entries) = filter known_entry (place <$> filter Q entries)) as IH'
    by (apply IH; intros; [eapply Hsound|eapply Hcomplete]; try done; by apply elem_of_cons; right).
  clear IH. specialize (Hsound e). specialize (Hcomplete e (list_elem_of_here _ _)).
  cbn [omap list_omap]. rewrite (filter_cons Q). destruct (f e) as [h|] eqn:Ef.
  - rewrite filter_cons. destruct (decide (P h)) as [Hp|Hp].
    + destruct (Hsound h (list_elem_of_here _ _) (conj eq_refl Hp)) as (Hq & Hk & Eh).
      rewrite decide_True by done. cbn [fmap list_fmap]. rewrite filter_cons_True by done.
      by rewrite <- Eh, <- IH'.
    + rewrite IH'. destruct (decide (Q e)) as [Hq|]; [|done]. cbn [fmap list_fmap]. rewrite filter_cons_False; [done|].
      intros Hk. destruct (Hcomplete Hq Hk) as (h' & [= <-] & ?). done.
  - rewrite IH'. destruct (decide (Q e)) as [Hq|]; [|done]. cbn [fmap list_fmap]. rewrite filter_cons_False; [done|].
    intros Hk. by destruct (Hcomplete Hq Hk) as (h' & ? & _).
Qed.

Lemma known_not_empty path : known_path path = true → path ≠ "".
Proof. by intros Hk ->. Qed.

Lemma known_path_spec entry path : known_path path = true ↔ known_entry (with_path entry path).
Proof. unfold known_path, known_entry. rewrite negb_true_iff. apply bool_decide_eq_false. Qed.

(** Raw entries, as the store hands them to a discovery. *)
Definition raw_keys (namespace : string) (entries : list Entry) : Prop :=
  NoDup (enKey <$> entries) ∧ Forall (λ e, enRelativePath e = "" ∧ canonical_key (NormalizeNamespace namespace) (enKey e)) entries.

Section hits.
Context (contextName namespace : string) (entries : list Entry) (Hraw : raw_keys namespace entries).
#[local] Abbreviation ns := (NormalizeNamespace namespace).
#[local] Abbreviation hits := (omap (discover_entry contextName ns (NamespacePrefix ns)) entries).

Lemma hit_of target hit :
  (target, hit) ∈ hits → ∃ scope group, target = hit_target contextName ns scope group ∧ root_segment scope ∧
    TrimSpace scope = scope ∧ good_group group.
Proof using Hraw.
  intros (e & He & Eh)%list_elem_of_omap. destruct Hraw as [_ Hall]. rewrite Forall_forall in Hall.
  destruct (Hall e He) as [_ Hcanon].
  destruct (discover_entry_hit _ _ _ _ _ Hcanon Eh) as (scope & group & path & ? & ? & ? & ? & _). by exists scope, group.
Qed.

(** The entries of a cluster are the known entries below its root. *)
Lemma cluster_hits scope group :
  root_segment scope → TrimSpace scope = scope → good_group group →
  let root := cluster_root ns scope group in
  snd <$> of_cluster (ClusterID (hit_target contextName ns scope group)) hits
    = filter known_entry (place_entry root <$> filter (under root) entries).
Proof using Hraw.
  intros Hseg Htrim Hgroup root. destruct Hraw as [_ Hall]. rewrite Forall_forall in Hall. apply omap_hits.
  - intros e [target hit] He [Eh Hid]. destruct (Hall e He) as [Hrel Hcanon].
    destruct (discover_entry_hit _ _ _ _ _ Hcanon Eh) as (scope' & group' & path & -> & _ & Htrim' & Hgroup' & Hk & -> & Hkey).
    cbn [fst] in Hid. apply hit_ClusterID_inj in Hid as [-> ->]; [|done..]. fold root in Hkey.
    assert (place_entry root e = with_path e path) as Ep.
    { unfold place_entry. rewrite Hrel, String.eqb_refl, Hkey. unfold root. by rewrite relative_below. }
    rewrite Ep. split; [|split; [|done]].
    + unfold under. rewrite Hkey, <- string_app_assoc. apply HasPrefix_app.
    + apply known_path_spec, Hk.
  - intros e He Hu Hk. destruct (HasPrefix_spec _ _ Hu) as [path Hkey]. rewrite string_app_assoc in Hkey.
    destruct (Hall e He) as [Hrel _]. exists (hit_target contextName ns scope group, with_path e path).
    split; [|done]. apply discover_entry_below; [done..| |done].
    apply (known_path_spec e). unfold place_entry in Hk. rewrite Hrel, String.eqb_refl, Hkey in Hk. unfold root in Hk.
    rewrite relative_below in Hk by done. exact Hk.
Qed.

Lemma hits_NoDup : NoDup ((enKey ∘ snd) <$> hits).
Proof using Hraw.
  destruct Hraw as [Hnd Hall]. eapply sublist_NoDup; [exact Hnd|]. clear Hnd Hraw.
  induction Hall as [|e entries [_ Hcanon] _ IH]; [done|]. cbn [omap list_omap fmap list_fmap].
  destruct (discover_entry contextName ns (NamespacePrefix ns) e) as [[target hit]|] eqn:Eh; [|by apply sublist_cons].
  destruct (discover_entry_hit _ _ _ _ _ Hcanon Eh) as (? & ? & ? & _ & _ & _ & _ & _ & -> & _).
  cbn. by apply sublist_skip.
Qed.
End hits.

Lemma hit_target_Normalize context namespace scope group :
  hit_target (if TrimSpace context ==s "" then DefaultContext else TrimSpace context) (NormalizeNamespace namespace) scope group
    = Normalize (mkTarget context namespace scope group "").
Proof.
  unfold hit_target, with_group, Normalize. cbn [tContext tNamespace tScope tGroup tMember].
  rewrite NormalizeNamespace_idem, TrimSpace_empty. f_equal.
  destruct (String.eqb_spec (TrimSpace context) "") as [E|E]; [done|].
  by rewrite TrimSpace_idem, (proj2 (String.eqb_neq _ _) E).
Qed.

Lemma place_known root entry : enRelativePath entry ≠ "" → placed entry → place_entry root entry = entry.
Proof.
  intros Hrel Hp. unfold place_entry. rewrite (proj2 (String.eqb_neq _ _) Hrel). unfold with_path. rewrite <- Hp.
  by destruct entry.
Qed.

Section with_std.
Context `{GoStd}.

(** The snapshot built from the known entries of a root is the one built from
    all of them, less the entries Patroni does not know. *)
Lemma BuildSnapshot_known target root revision entries :
  NoDup (enKey <$> entries) → Forall (λ e, enRelativePath e = "") entries →
  let own := filter known_entry (place_entry root <$> entries) in
  let snapshot := BuildSnapshot target root revision (SortEntries own) in
  let direct := BuildSnapshot target root revision entries in
  snTarget snapshot = snTarget direct ∧ snPrefix snapshot = snPrefix direct ∧ snCluster snapshot = snCluster direct ∧
  snIssues snapshot = snIssues direct ∧ snEntries snapshot = filter known_entry (snEntries direct) ∧
  snEntries snapshot = SortEntries own.
Proof.
  intros Hnd Hraw own. assert (NoDup (enKey <$> (place_entry root <$> entries))) as Hnd' by by rewrite place_entries_keys.
  assert (NoDup (enKey <$> own)) as Hown by (eapply sublist_NoDup; [exact Hnd'|apply fmap_sublist, sublist_filter]).
  assert (Forall placed (place_entry root <$> entries)) as Hplaced by (apply Forall_fmap, Forall_forall; done).
  assert (place_entry root <$> own = own) as Eown.
  { rewrite <- (list_fmap_id own) at 2. apply list_fmap_ext. intros i e He%list_elem_of_lookup_2.
    apply list_elem_of_filter in He as [Hk He]. rewrite Forall_forall in Hplaced. pose proof (Hplaced e He) as Hp.
    change (place_entry root e = e). apply place_known; [|done]. intros Erel. apply Hk. by rewrite Hp, Erel. }
  assert (SortEntries (place_entry root <$> SortEntries own) = SortEntries own) as E1.
  { unfold SortEntries. rewrite (sort_by_unique enKey _ own); [done|..].
    - by rewrite place_entries_keys, sort_by_perm.
    - rewrite sort_by_perm. by rewrite Eown. }
  assert (SortEntries own = filter known_entry (SortEntries (place_entry root <$> entries))) as E2
    by (by apply sort_by_filter).
  assert (decodeCluster (SortEntries own) = decodeCluster (SortEntries (place_entry root <$> entries))) as Edecode.
  { rewrite E2. symmetry. apply decodeCluster_known. unfold SortEntries. by rewrite sort_by_perm. }
  cbv zeta. unfold BuildSnapshot. cbv zeta. rewrite E1, Edecode. clear Edecode.
  destruct (decodeCluster _) as [cluster issues]. cbn [snTarget snPrefix snCluster snIssues snEntries].
  by split_and!.
Qed.

(** The cluster a discovery reports for the item of an identity. *)
Lemma discovered_direct context namespace revision entries scope group target keys d :
  let contextName := if TrimSpace context ==s "" then DefaultContext else TrimSpace context in
  raw_keys namespace entries → root_segment scope → TrimSpace scope = scope → good_group group →
  target = hit_target contextName (NormalizeNamespace namespace) scope group →
  keys = entry_pair <$> of_cluster (ClusterID target)
           (omap (discover_entry contextName (NormalizeNamespace namespace) (NamespacePrefix (NormalizeNamespace namespace))) entries) →
  discovered_cluster revision (target, keys) = Some d →
  dcTarget d = target ∧ ∃ root snapshot, ClusterPrefix target = inr root ∧ dcSnapshot d = Some snapshot ∧
    let direct := BuildSnapshot target root revision (filter (under root) entries) in
    snTarget snapshot = snTarget direct ∧ snPrefix snapshot = snPrefix direct ∧ snCluster snapshot = snCluster direct ∧
    snIssues snapshot = snIssues direct ∧ snEntries snapshot = filter known_entry (snEntries direct) ∧
    dcEvidenceKeys d = enKey <$> snEntries snapshot.
Proof.
  intros contextName Hraw Hseg Htrim Hgroup -> Ekeys. unfold discovered_cluster.
  destruct (ClusterPrefix _) as [|root] eqn:Eroot; [done|]. intros [= <-]. split; [done|].
  eexists root, _. split; [done|]. split; [done|].
  pose proof (hit_ClusterPrefix _ _ _ _ _ Htrim Eroot) as ->.
  assert (snd <$> keys = filter known_entry (place_entry (cluster_root (NormalizeNamespace namespace) scope group)
            <$> filter (under (cluster_root (NormalizeNamespace namespace) scope group)) entries)) as Esnd.
  { rewrite Ekeys, <- list_fmap_compose. by apply cluster_hits. }
  assert (fst <$> keys = enKey <$> (snd <$> keys)) as Efst
    by (rewrite Ekeys, <- !list_fmap_compose; by apply list_fmap_ext).
  rewrite Efst, Esnd. destruct Hraw as [Hnd Hall].
  set (own := filter (under _) entries) in *.
  pose proof (BuildSnapshot_known (hit_target contextName (NormalizeNamespace namespace) scope group)
    (cluster_root (NormalizeNamespace namespace) scope group) revision own) as Hbuild.
  cbv zeta in Hbuild. destruct Hbuild as (? & ? & ? & ? & ? & Hsorted).
  { eapply sublist_NoDup; [exact Hnd|apply fmap_sublist, sublist_filter]. }
  { apply Forall_forall. intros e [_ He]%list_elem_of_filter. rewrite Forall_forall in Hall. by destruct (Hall e He). }
  cbv zeta. do 5 (split; [done|]). cbn [dcEvidenceKeys]. rewrite Hsorted. symmetry. apply sort_by_keys.
Qed.

Lemma DiscoverFromEntries_post (context namespace : string) (revision : Z) (entries : list Entry) :
  raw_keys namespace entries →
  let clusters := DiscoverFromEntries context namespace revision entries in
  (∀ d, d ∈ clusters →
     (∃ scope group, dcTarget d = Normalize (mkTarget context namespace scope group "") ∧ root_segment scope ∧
        TrimSpace scope = scope ∧ good_group group) ∧
     ∃ root snapshot, ClusterPrefix (dcTarget d) = inr root ∧ dcSnapshot d = Some snapshot ∧
     let direct := BuildSnapshot (dcTarget d) root revision (filter (under root) entries) in
     snTarget snapshot = snTarget direct ∧ snPrefix snapshot = snPrefix direct ∧ snCluster snapshot = snCluster direct ∧
     snIssues snapshot = snIssues direct ∧ snEntries snapshot = filter known_entry (snEntries direct) ∧
     dcEvidenceKeys d = enKey <$> snEntries snapshot) ∧
  (∀ scope group root path entry,
     let target := Normalize (mkTarget context namespace scope group "") in
     root_segment scope → TrimSpace scope = scope → good_group group → ClusterPrefix target = inr root →
     entry ∈ entries → enKey entry = root +:+ "/" +:+ path → known_path path = true →
     ∃ d, d ∈ clusters ∧ dcTarget d = target).
Proof.
  intros Hraw. unfold DiscoverFromEntries. cbv zeta. set (contextName := if TrimSpace context ==s "" then _ else _).
  set (hits := omap (discover_entry contextName _ _) entries).
  destruct (add_evidence_spec hits (hits_NoDup contextName namespace entries Hraw)) as [Hids Hlook]. split.
  - intros d. rewrite merge_sort_Permutation. intros ([target keys] & Hitem & Ed)%list_elem_of_omap.
    apply list_elem_of_fmap in Hitem as ([id item] & Eitem & Hin). cbn in Eitem. subst item.
    pose proof (lookup_elem _ _ _ Hids Hin) as Hl. rewrite Hlook in Hl.
    destruct (of_cluster id hits) as [|[target' hit] own] eqn:Eown; [done|]. injection Hl as -> Ekeys.
    assert ((target, hit) ∈ of_cluster id hits) as Hhit by (rewrite Eown; apply list_elem_of_here).
    apply list_elem_of_filter in Hhit as [Hid Hhit]. cbn [fst] in Hid.
    destruct (hit_of contextName namespace entries Hraw _ _ Hhit) as (scope & group & Et & Hseg & Htrim & Hgroup).
    assert (keys = entry_pair <$> of_cluster (ClusterID target) hits) as Ekeys' by (by rewrite Hid, Eown, <- Ekeys).
    destruct (discovered_direct context namespace revision entries scope group target keys d Hraw Hseg Htrim Hgroup Et
                Ekeys' Ed) as [-> Hsnap].
    split; [|exact Hsnap]. exists scope, group. by rewrite Et, <- hit_target_Normalize.
  - intros scope group root path entry Hseg Htrim Hgroup Hroot Hentry Hkey Hk.
    rewrite <- hit_target_Normalize in *. fold contextName in Hroot |- *.
    pose proof (hit_ClusterPrefix _ _ _ _ _ Htrim Hroot) as ->.
    pose proof (discover_entry_below contextName _ _ _ _ entry Hseg Htrim Hgroup Hk Hkey) as Ehit.
    set (target := hit_target _ _ _ _) in *.
    assert ((target, with_path entry path) ∈ of_cluster (ClusterID target) hits) as Hin
      by (apply list_elem_of_filter; split; [done|]; apply list_elem_of_omap; by exists entry).
    pose proof (Hlook (ClusterID target)) as Hl.
    destruct (of_cluster (ClusterID target) hits) as [|[target' hit] own] eqn:Eown; [by apply not_elem_of_nil in Hin|].
    assert ((target', hit) ∈ of_cluster (ClusterID target) hits) as Hhit by (rewrite Eown; apply list_elem_of_here).
    apply list_elem_of_filter in Hhit as [Hid Hhit]. cbn [fst] in Hid.
    destruct (hit_of contextName namespace entries Hraw _ _ Hhit) as (scope' & group' & -> & _ & Htrim' & Hgroup').
    apply hit_ClusterID_inj in Hid as [-> ->]; [|done..]. fold target in Hl. cbn [item_of fst] in Hl.
    unfold lookup_evidence in Hl. destruct (find_first _ _) as [[id item]|] eqn:Ef; [|done]. injection Hl as ->.
    apply find_first_Some in Ef as [Ef _]. eexists. rewrite merge_sort_Permutation. split.
    + apply list_elem_of_omap. eexists. split; [apply list_elem_of_fmap; eexists; split; [|exact Ef]; reflexivity|].
      cbn [snd discovered_cluster]. by rewrite Hroot.
    + done.
Qed.

(** A discovery agrees with direct reads. Over entries with distinct keys, written as Patroni writes them, every
    cluster [DiscoverFromEntries] returns shows the state, the issues and the known entries that [BuildSnapshot] shows
    for the keys below that cluster's root, and its evidence is exactly those keys; and every root with a known key
    below it is discovered. *)
Theorem DiscoverFromEntries_direct (context namespace : string) (revision : Z) (entries : list Entry) :
  raw_keys namespace entries →
  let clusters := DiscoverFromEntries context namespace revision entries in
  (∀ d, d ∈ clusters →
     (∃ scope group, dcTarget d = Normalize (mkTarget context namespace scope group "") ∧ root_segment scope ∧
        TrimSpace scope = scope ∧ good_group group) ∧
     ∃ root snapshot, ClusterPrefix (dcTarget d) = inr root ∧ dcSnapshot d = Some snapshot ∧
     let direct := BuildSnapshot (dcTarget d) root revision (filter (under root) entries) in
     snTarget snapshot = snTarget direct ∧ snPrefix snapshot = snPrefix direct ∧ snCluster snapshot = snCluster direct ∧
     snIssues snapshot = snIssues direct ∧ snEntries snapshot = filter known_entry (snEntries direct) ∧
     dcEvidenceKeys d = enKey <$> snEntries snapshot) ∧
  (∀ scope group root path entry,
     let target := Normalize (mkTarget context namespace scope group "") in
     root_segment scope → TrimSpace scope = scope → good_group group → ClusterPrefix target = inr root →
     entry ∈ entries → enKey entry = root +:+ "/" +:+ path → known_path path = true →
     ∃ d, d ∈ clusters ∧ dcTarget d = target).
Proof. apply DiscoverFromEntries_post. Qed.
End with_std.

(** ** A namespace with a plain cluster and a Citus worker *)

Definition namespace_entries : list Entry :=
  sample_entries ++ [raw_entry "/service/pg/0/leader" "w1" 6; raw_entry "/service/other/initialize" "7" 2;
                     raw_entry "/service/pg/unknown" "x" 2].

Lemma DiscoverFromEntries_direct_witness :
  raw_keys "service" namespace_entries ∧
  ∃ d, d ∈ DiscoverFromEntries "" "service" 9 namespace_entries ∧ dcTarget d = mkTarget "default" "/service" "pg" (Some 0%Z) "".
Proof.
  assert (raw_keys "service" namespace_entries) as Hraw.
  { split; [by apply (bool_decide_unpack _); vm_compute|]. repeat constructor. }
  split; [done|].
  destruct (DiscoverFromEntries_direct "" "service" 9 namespace_entries Hraw) as [_ Hall].
  apply (Hall "pg" (Some 0%Z) "/service/pg/0" "leader" (raw_entry "/service/pg/0/leader" "w1" 6)); try done.
  - intros z [= <-]. by split.
  - apply (list_elem_of_lookup_2 _ 3). done.
Defined.

(** A group that is not written in canonical decimal is discovered under the
    canonical one, whose root does not hold it. *)
Lemma padded_group_discovered :
  (λ d, (dcTarget d, csLeader (snCluster (deref zero (dcSnapshot d))))) <$>
    DiscoverFromEntries "" "service" 9 [raw_entry "/service/pg/00/leader" "w1" 6]
    = [(mkTarget "default" "/service" "pg" (Some 0%Z) "", Some (mkLeader "w1" 6 0))] ∧
  csLeader (snCluster (BuildSnapshot (mkTarget "default" "/service" "pg" (Some 0%Z) "") "/service/pg/0" 9
    (filter (under "/service/pg/0") [raw_entry "/service/pg/00/leader" "w1" 6]))) = None.
Proof. split; by vm_compute. Qed.
