(* ===== verification/ClusterLaws.v ===== *)
(** * The projections are right: [Cluster]

    A topology lists every member once, each below its upstream; a member has
    the role its name and the cluster's mode give it; lags and positions are
    exact within 64 bits. *)

From S2P Require Import Prelude GoStrings GoErrors Target Values Json JsonLaws Dcs.
From S2P Require Import Effects Contract Samples Select Decode DecodeLaws Cluster.
Import model.

(** ** Lemmas: folds *)

(** Two loops over the same list agree when their bodies do, as long as an
    invariant of the state holds. *)
Lemma foldl_agree {A B} (I : A → Prop) (f g : A → B → A) l acc :
  (∀ acc x, I acc → f acc x = g acc x ∧ I (f acc x)) → I acc → foldl f acc l = foldl g acc l.
Proof.
  intros Hfg. revert acc. induction l as [|x l IH]; intros acc Hacc; [done|]. cbn.
  destruct (Hfg acc x Hacc) as [<- HI]. by apply IH.
Qed.

Lemma foldl_inv {A B} (I : A → Prop) (f : A → B → A) l acc :
  (∀ acc x, x ∈ l → I acc → I (f acc x)) → I acc → I (foldl f acc l).
Proof.
  revert acc. induction l as [|x l IH]; intros acc Hf Hacc; [done|]. cbn. apply IH.
  - intros acc' y Hy. apply Hf. by apply list_elem_of_further.
  - by apply Hf; [apply list_elem_of_here|].
Qed.

(** ** Topology *)

Section topology.
Context (cluster : Cluster).
#[local] Abbreviation members := (map_of_list mName (cMembers cluster)).
#[local] Abbreviation walk := (walk cluster).

(** Members that were not visited yet. *)
Definition unvisited (acc : walked) : nat := size (dom members ∖ list_to_set acc.1).

Lemma walk_grows fuel name parent depth acc : acc.1 ⊆ (walk fuel name parent depth acc).1.
Proof.
  revert name parent depth acc. induction fuel as [|fuel IH]; intros name parent depth acc; [done|]. cbn [Cluster.walk].
  destruct (_ || _); [done|]. destruct (members !! name); [|done].
  apply (foldl_inv (λ acc', acc.1 ⊆ acc'.1)); [|set_solver].
  intros acc' child _ Hacc. specialize (IH child name (depth + 1)%Z acc'). set_solver.
Qed.

Lemma unvisited_mono acc acc' : acc.1 ⊆ acc'.1 → (unvisited acc' <= unvisited acc)%nat.
Proof. intros Hsub. unfold unvisited. apply subseteq_size. set_solver. Qed.

Lemma unvisited_visit name visited result result' member :
  members !! name = Some member → name ∉ visited →
  (unvisited (name :: visited, result) < unvisited (visited, result'))%nat.
Proof.
  intros Hm Hn. unfold unvisited. cbn [fst]. apply subset_size. apply elem_of_dom_2 in Hm. split; set_solver.
Qed.

(** Fuel above the number of unvisited members makes no difference. *)
Lemma walk_fuel_agree fuel fuel' name parent depth acc :
  (unvisited acc < fuel)%nat → (unvisited acc < fuel')%nat →
  walk fuel name parent depth acc = walk fuel' name parent depth acc.
Proof.
  revert fuel' name parent depth acc. induction fuel as [|fuel IH]; intros fuel' name parent depth acc Hf Hf'; [lia|].
  destruct fuel' as [|fuel']; [lia|]. cbn [Cluster.walk]. destruct (_ || _) eqn:Eseen; [done|].
  destruct (members !! name) as [member|] eqn:Em; [|done]. go_bool.
  apply (foldl_agree (λ acc', unvisited acc' < unvisited acc)%nat).
  - intros acc' child Hacc'. split; [apply IH; lia|].
    eapply Nat.le_lt_trans; [apply unvisited_mono, walk_grows|done].
  - destruct acc as [visited result]. by eapply unvisited_visit.
Qed.

Lemma unvisited_walk_fuel acc : (unvisited acc < walk_fuel cluster)%nat.
Proof.
  unfold unvisited, walk_fuel. apply Nat.lt_succ_r. trans (size (dom members)); [by apply subseteq_size; set_solver|].
  trans (size (list_to_set (mName <$> cMembers cluster) : gset string)).
  - apply subseteq_size. intros name (m & Hm)%elem_of_dom. apply map_of_list_lookup_Some in Hm as [Hin <-].
    apply elem_of_list_to_set. by apply list_elem_of_fmap_2.
  - rewrite <- (length_fmap mName). induction (mName <$> cMembers cluster) as [|x l IH]; [done|]. cbn.
    rewrite size_union_alt, size_singleton. apply le_n_S. etrans; [|exact IH]. apply subseteq_size. set_solver.
Qed.

(** ** Lemmas: the tree *)

Definition entry_name (t : TopologyMember) : string := mName (tmMember t).

(** The entry hangs below an earlier one. *)
Definition below (pre : list TopologyMember) (t : TopologyMember) : Prop :=
  ∃ t', t' ∈ pre ∧ entry_name t' = tmParent t ∧ tmDepth t = (tmDepth t' + 1)%Z.

(** A preorder: every entry is a root or comes after its parent. *)
Definition preorder (l : list TopologyMember) : Prop :=
  ∀ pre t post, l = pre ++ t :: post → tmDepth t = 0%Z ∨ below pre t.

Lemma preorder_snoc l t : preorder l → tmDepth t = 0%Z ∨ below l t → preorder (l ++ [t]).
Proof.
  intros Hl Ht pre x post E. destruct post as [|y post _] using rev_ind.
  - apply app_inj_tail in E as [-> ->]. done.
  - rewrite app_comm_cons, app_assoc in E. apply app_inj_tail in E as [-> ->]. by eapply Hl.
Qed.

Record good_walk (acc : walked) : Prop := mkGoodWalk {
  gw_names : entry_name <$> acc.2 = reverse acc.1;
  gw_nodup : NoDup acc.1;
  gw_members : Forall (λ t, tmMember t ∈ cMembers cluster ∧ tmParent t = parents cluster (entry_name t)) acc.2;
  gw_tree : preorder acc.2
}.

(** Where a member may be put. *)
Definition position (acc : walked) (name parent : string) (depth : Z) : Prop :=
  parent = parents cluster name ∧
  (depth = 0%Z ∨ ∃ t, t ∈ acc.2 ∧ entry_name t = parent ∧ depth = (tmDepth t + 1)%Z).

Lemma walk_extends fuel name parent depth acc : ∃ more, (walk fuel name parent depth acc).2 = acc.2 ++ more.
Proof.
  revert name parent depth acc. induction fuel as [|fuel IH]; intros name parent depth acc; cbn [Cluster.walk].
  { exists []. by rewrite app_nil_r. }
  destruct (_ || _); [exists []; by rewrite app_nil_r|]. destruct (members !! name) as [member|];
    [|exists []; by rewrite app_nil_r].
  apply (foldl_inv (λ acc', ∃ more, acc'.2 = acc.2 ++ more)); [|by eexists].
  intros acc' child _ [more Hmore]. destruct (IH child name (depth + 1)%Z acc') as [more' ->].
  exists (more ++ more'). by rewrite Hmore, app_assoc.
Qed.

Lemma visit_good acc name parent depth member :
  good_walk acc → position acc name parent depth → name ∉ acc.1 → members !! name = Some member →
  good_walk (name :: acc.1, acc.2 ++ [mkTopologyMember member parent depth]).
Proof.
  intros [Hnames Hnd Hm Ht] [Hp Hd] Hn Hmember. apply map_of_list_lookup_Some in Hmember as [Hin <-].
  split; cbn [fst snd].
  - rewrite fmap_app, Hnames, reverse_cons. done.
  - by constructor.
  - apply Forall_app. split; [done|]. by apply Forall_singleton.
  - apply preorder_snoc; [done|]. destruct Hd as [Hd|(t & Hd & He & ->)]; [by left|right]. by exists t.
Qed.

Context (Hnodup : NoDup (mName <$> cMembers cluster)).

Lemma downstream_parents name child :
  child ∈ downstream cluster name → parents cluster child = name.
Proof using Hnodup.
  unfold downstream. rewrite (sort_strings_perm _), list_elem_of_fmap. intros (m & -> & Hm).
  apply list_elem_of_In, List.filter_In in Hm as [Hm H]. apply list_elem_of_In in Hm. go_bool. unfold parents.
  destruct (String.eqb_spec (mName m) (cLeader cluster)) as [|_]; [done|].
  rewrite (map_of_list_lookup_NoDup _ _ m) by done. done.
Qed.

Lemma walk_good fuel name parent depth acc :
  good_walk acc → position acc name parent depth → good_walk (walk fuel name parent depth acc).
Proof using Hnodup.
  revert name parent depth acc. induction fuel as [|fuel IH]; intros name parent depth acc Hacc Hpos; [done|].
  cbn [Cluster.walk]. destruct (_ || _) eqn:Eseen; [done|]. destruct (members !! name) as [member|] eqn:Em; [|done].
  go_bool. set (entry := mkTopologyMember member parent depth).
  apply (foldl_inv (λ acc', good_walk acc' ∧ entry ∈ acc'.2)).
  - intros acc' child Hchild [Hgood Hin]. split.
    + apply IH; [done|]. split; [symmetry; by apply downstream_parents|]. right. exists entry. split; [done|]. split; [|done].
      by apply map_of_list_lookup_Some in Em as [_ Em].
    + destruct (walk_extends fuel child name (depth + 1)%Z acc') as [more ->]. apply elem_of_app. by left.
  - split; [by apply visit_good|]. apply elem_of_app. right. by apply list_elem_of_singleton.
Qed.

Lemma walk_visits fuel name parent depth acc :
  name ≠ "" → name ∈ (mName <$> cMembers cluster) → name ∈ (walk (S fuel) name parent depth acc).1.
Proof using Hnodup.
  intros Hne (m & -> & Hm)%list_elem_of_fmap. cbn [Cluster.walk]. apply String.eqb_neq in Hne. rewrite Hne. cbn [orb].
  destruct (bool_decide _) eqn:E; go_bool; [done|]. rewrite (map_of_list_lookup_NoDup _ _ m) by done.
  apply (foldl_inv (λ acc', mName m ∈ acc'.1)); [|apply list_elem_of_here].
  intros acc' child _ Hin. by apply walk_grows.
Qed.

Lemma walk_rest_good acc member : good_walk acc → good_walk (walk_rest cluster acc member).
Proof using Hnodup. intros Hacc. unfold walk_rest. destruct (bool_decide _); [done|]. apply walk_good; [done|]. split; [done|by left]. Qed.

Lemma walk_rest_grows acc member : acc.1 ⊆ (walk_rest cluster acc member).1.
Proof. unfold walk_rest. destruct (bool_decide _); [done|apply walk_grows]. Qed.

Lemma walk_rest_visits acc member :
  member ∈ cMembers cluster → mName member ≠ "" → mName member ∈ (walk_rest cluster acc member).1.
Proof using Hnodup.
  intros Hm Hne. unfold walk_rest. destruct (bool_decide _) eqn:E; go_bool; [done|].
  apply walk_visits; [done|by apply list_elem_of_fmap_2].
Qed.

Lemma walk_rests_visit l acc member :
  l ⊆ cMembers cluster → member ∈ l → mName member ≠ "" → mName member ∈ (foldl (walk_rest cluster) acc l).1.
Proof using Hnodup.
  revert acc. induction l as [|m l IH]; intros acc Hsub; [by intros ?%not_elem_of_nil|].
  intros [->|Hin]%elem_of_cons Hne; cbn [foldl]; [|apply IH; [set_solver|done..]].
  apply (foldl_inv (λ acc', mName m ∈ acc'.1)); [|apply walk_rest_visits; [set_solver|done]].
  intros acc' x _ Hin. by apply walk_rest_grows.
Qed.

Lemma topology_good :
  good_walk (foldl (walk_rest cluster) (walk (walk_fuel cluster) (cLeader cluster) "" 0 ([], [])) (cMembers cluster)).
Proof using Hnodup.
  apply foldl_inv; [intros; by apply walk_rest_good|]. apply walk_good.
  - split; [done|constructor|constructor|]. intros pre t post E. by destruct pre.
  - split; [|by left]. unfold parents. by rewrite String.eqb_refl.
Qed.

(** Every member once. *)
Lemma topologyMembers_perm :
  Forall (λ m, mName m ≠ "") (cMembers cluster) → tmMember <$> topologyMembers cluster ≡ₚ cMembers cluster.
Proof using Hnodup.
  intros Hne. pose proof topology_good as [Hnames Hnd Hm _]. fold (topologyMembers cluster) in *.
  assert (∀ x, x ∈ cMembers cluster → mName x ∈ entry_name <$> topologyMembers cluster) as Hall.
  { intros x Hx. rewrite Hnames, elem_of_reverse. apply walk_rests_visit; [done..|].
    rewrite Forall_forall in Hne. auto. }
  apply NoDup_Permutation.
  - apply (NoDup_fmap_1 mName). rewrite <- list_fmap_compose. change (NoDup (entry_name <$> topologyMembers cluster)).
    rewrite Hnames. by rewrite reverse_Permutation.
  - by apply (NoDup_fmap_1 mName).
  - intros x. split.
    + intros (t & -> & Ht)%list_elem_of_fmap. rewrite Forall_forall in Hm. by apply (Hm t Ht).
    + intros Hx. destruct (proj1 (list_elem_of_fmap _ _ _) (Hall x Hx)) as (t & Hname & Ht). apply list_elem_of_fmap.
      exists t. split; [|done]. rewrite Forall_forall in Hm. destruct (Hm t Ht) as [Hin _].
      pose proof (map_of_list_lookup_NoDup mName _ x Hnodup Hx) as E1.
      pose proof (map_of_list_lookup_NoDup mName _ (tmMember t) Hnodup Hin) as E2.
      unfold entry_name in Hname. rewrite <- Hname, E1 in E2. congruence.
Qed.

(** The leader, when it is a member, is the first root. *)
Lemma topologyMembers_leader :
  cLeader cluster ≠ "" → cLeader cluster ∈ (mName <$> cMembers cluster) →
  ∃ t rest, topologyMembers cluster = t :: rest ∧ entry_name t = cLeader cluster ∧ tmDepth t = 0%Z.
Proof using Hnodup.
  intros Hne (m & Hname & Hm)%list_elem_of_fmap. unfold topologyMembers.
  apply (foldl_inv (λ acc, ∃ t rest, acc.2 = t :: rest ∧ entry_name t = cLeader cluster ∧ tmDepth t = 0%Z)).
  - intros acc x _ (t & rest & Hacc & Ht). unfold walk_rest. destruct (bool_decide _); [by exists t, rest|].
    destruct (walk_extends (walk_fuel cluster) (mName x) (parents cluster (mName x)) 0 acc) as [more ->].
    rewrite Hacc. by exists t, (rest ++ more).
  - unfold walk_fuel. cbn [Cluster.walk fst]. apply String.eqb_neq in Hne. rewrite Hne. cbn [orb].
    rewrite bool_decide_eq_false_2 by apply not_elem_of_nil.
    rewrite Hname, (map_of_list_lookup_NoDup _ _ m) by done.
    apply (foldl_inv (λ acc, ∃ t rest, acc.2 = t :: rest ∧ entry_name t = mName m ∧ tmDepth t = 0%Z)); [|by eexists _, []].
    intros acc child _ (t & rest & Hacc & Ht).
    destruct (walk_extends (length (cMembers cluster)) child (mName m) (0 + 1) acc) as [more ->].
    rewrite Hacc. by exists t, (rest ++ more).
Qed.
End topology.

(** ** Stable sorting *)

Section sorting.
Context {A : Type} (less : A → A → bool) (R : relation A).
Context (Htrans : Transitive R) (Hless : ∀ x y, less x y = true → R x y) (Hge : ∀ x y, less x y = false → R y x).

Lemma insert_by_perm x (l : list A) : insert_by less x l ≡ₚ x :: l.
Proof using Type.
  induction l as [|y l IH]; cbn; [done|]. destruct (less x y); [done|]. rewrite IH. apply Permutation_swap.
Qed.

Lemma sort_stable_perm (l : list A) : sort_stable less l ≡ₚ l.
Proof using Type.
  unfold sort_stable. assert (∀ acc, foldl (λ acc x, insert_by less x acc) acc l ≡ₚ acc ++ l) as H; [|by rewrite H].
  induction l as [|x l IH]; intros acc; cbn; [by rewrite app_nil_r|]. rewrite IH, insert_by_perm.
  by rewrite <- Permutation_middle.
Qed.

Lemma insert_by_sorted x (l : list A) : StronglySorted R l → StronglySorted R (insert_by less x l).
Proof using Htrans Hless Hge.
  induction 1 as [|y l Hs IH Hy]; cbn; [by repeat constructor|]. destruct (less x y) eqn:E.
  - constructor; [by constructor|]. apply Hless in E. constructor; [done|].
    eapply Forall_impl; [exact Hy|]. intros z Hz. by etrans.
  - constructor; [done|]. rewrite insert_by_perm. constructor; [by apply Hge|done].
Qed.

Lemma sort_stable_sorted (l : list A) : StronglySorted R (sort_stable less l).
Proof using Htrans Hless Hge.
  unfold sort_stable. apply (foldl_inv (StronglySorted R)); [|constructor]. intros acc x _. apply insert_by_sorted.
Qed.
End sorting.

Lemma ltb_le x y : String.ltb x y = true → String.le x y.
Proof.
  unfold String.ltb, String.le, String.leb. intros H. apply Is_true_true. by destruct (String.compare x y).
Qed.

Lemma not_ltb_le x y : String.ltb x y = false → String.le y x.
Proof.
  unfold String.ltb, String.le, String.leb. intros H. apply Is_true_true. rewrite String.compare_antisym.
  by destruct (String.compare x y).
Qed.

(** ** Log positions *)

(** The number that hexadecimal digits spell. *)
Definition hex_number (s : string) : option N :=
  foldl (λ acc c, n ← acc; d ← hex_value c; Some (n * 16 + d)%N) (Some 0%N) (String.list_ascii_of_string s).

(** What PostgreSQL reads in a position. *)
Definition parseLSN (s : string) : option N :=
  match Split "/" s with
  | [high; low] => h ← hex_number high; l ← hex_number low; Some (h * 2 ^ 32 + l)%N
  | _ => None
  end.

Lemma hex_digits_spec fuel n acc :
  (n < 16 ^ N.of_nat (S fuel))%N →
  ∃ digits, hex_digits (S fuel) n acc = digits +:+ acc ∧ lacks "/" digits ∧
    ∀ m, foldl (λ acc c, n ← acc; d ← hex_value c; Some (n * 16 + d)%N) (Some m) (String.list_ascii_of_string digits) =
      Some (m * 16 ^ N.of_nat (String.length digits) + n)%N.
Proof.
  revert n acc. induction fuel as [|fuel IH]; intros n acc Hn.
  - change (16 ^ N.of_nat 1)%N with 16%N in Hn. exists (String (hex_digit (n mod 16)) ""). rewrite N.mod_small by done.
    destruct (hex_digit_spec n Hn) as (Hv & Hs & _). split; [|split].
    + cbn [hex_digits]. rewrite N.mod_small by done. by destruct (n <? 16)%N.
    + apply lacks_cons. split; [congruence|apply lacks_empty].
    + intros m. cbn [String.list_ascii_of_string foldl mbind option_bind String.length]. rewrite Hv. cbn [mbind option_bind].
      f_equal; lia.
  - assert (n mod 16 < 16)%N as Hmod by (by apply N.mod_lt). destruct (hex_digit_spec _ Hmod) as (Hv & Hs & _).
    cbn [hex_digits]. destruct (N.ltb_spec n 16) as [Hlt|Hge].
    + exists (String (hex_digit n) ""). rewrite N.mod_small in * by done. split; [done|]. split.
      * apply lacks_cons. split; [congruence|apply lacks_empty].
      * intros m. cbn [String.list_ascii_of_string foldl mbind option_bind String.length]. rewrite Hv. cbn [mbind option_bind].
        f_equal; lia.
    + destruct (IH (n / 16)%N (String (hex_digit (n mod 16)) acc)) as (digits & Hd & Hl & Hf).
      { apply N.Div0.div_lt_upper_bound. rewrite <- N.pow_succ_r'. by rewrite <- Nat2N.inj_succ. }
      exists (digits +:+ String (hex_digit (n mod 16)) ""). split; [|split].
      * cbn [hex_digits] in Hd. rewrite Hd. by rewrite string_app_assoc.
      * unfold lacks. rewrite has_char_app, Hl. apply lacks_cons. split; [congruence|apply lacks_empty].
      * intros m. rewrite bytes_app, foldl_app, Hf. cbn [String.list_ascii_of_string foldl mbind option_bind]. rewrite Hv.
        cbn [mbind option_bind]. f_equal. rewrite length_string_app. cbn [String.length].
        replace (N.of_nat (String.length digits + 1)) with (N.succ (N.of_nat (String.length digits))) by lia.
        rewrite N.pow_succ_r'. pose proof (N.div_mod' n 16). lia.
Qed.

Lemma format_hex_spec n : (n < 2 ^ 64)%N → lacks "/" (format_hex n) ∧ hex_number (format_hex n) = Some n.
Proof.
  intros Hn. destruct (hex_digits_spec 15 n "") as (digits & Hd & Hl & Hf); [exact Hn|].
  unfold format_hex. rewrite Hd, string_app_nil_r. split; [done|]. unfold hex_number. by rewrite Hf.
Qed.

Lemma parseLSN_formatLSN v : parseLSN (formatLSN v) = Some (Z.to_N (uint64 v)).
Proof.
  unfold formatLSN, parseLSN. assert (0 <= uint64 v < 2 ^ 64)%Z as Hu by (apply Z.mod_pos_bound; lia).
  rewrite Z.shiftr_div_pow2, Z.land_ones by lia. set (u := uint64 v) in *.
  assert (0 <= u / 2 ^ 32 < 2 ^ 32)%Z as Hh by (split; [apply Z.div_pos; lia|apply Z.div_lt_upper_bound; lia]).
  assert (0 <= u mod 2 ^ 32 < 2 ^ 32)%Z as Hl by (apply Z.mod_pos_bound; lia).
  destruct (format_hex_spec (Z.to_N (u / 2 ^ 32))) as [Hs1 Hv1]; [lia|].
  destruct (format_hex_spec (Z.to_N (u mod 2 ^ 32))) as [Hs2 Hv2]; [lia|].
  change ("/" +:+ format_hex (Z.to_N (u mod 2 ^ 32))) with (String "/" (format_hex (Z.to_N (u mod 2 ^ 32)))).
  rewrite Split_app, Split_lacks_id by done. rewrite Hv1. cbn [mbind option_bind]. rewrite Hv2. cbn [mbind option_bind].
  f_equal. pose proof (Z.div_mod u (2 ^ 32)). lia.
Qed.

Lemma nonnegativeLag_exact cluster member :
  int64 cluster → int64 member →
  if (cluster - member <=? max_int64)%Z then nonnegativeLag cluster member = Z.max 0 (cluster - member)
  else (nonnegativeLag cluster member < 0)%Z.
Proof.
  unfold int64, min_int64, max_int64, nonnegativeLag, int64_wrap. intros Hc Hm.
  destruct (Z.leb_spec cluster member).
  - destruct (Z.leb_spec (cluster - member) 9223372036854775807); lia.
  - destruct (Z.leb_spec (cluster - member) 9223372036854775807).
    + rewrite Z.mod_small by lia. lia.
    + replace (cluster - member + 2 ^ 63)%Z with ((cluster - member - 2 ^ 63) + 1 * 2 ^ 64)%Z by lia.
      rewrite Z.mod_add by lia. rewrite Z.mod_small by lia. lia.
Qed.

(** ** [projectCluster] *)

Section projection.
Context `{GoStd}.

Lemma cloneMap_good m : good_config m → ∀ key, map_get (cloneMap m) key = in_key_order <$> map_get m key.
Proof.
  intros [Hw Hn] key. unfold cloneMap. rewrite wire_Marshal by done. cbn [mbind option_bind].
  rewrite parse_text by done. cbn [mbind option_bind]. pose proof (as_any_wire _ (in_key_order_wire _ Hw)) as Hany.
  rewrite <- in_key_order_get by apply Hw. cbn [in_key_order] in *. unfold read_any_map, read_map.
  rewrite (mapM_total _ (λ kv : string * value, (kv.1, as_any kv.2))) by done. cbn [mbind option_bind as_any] in *.
  injection Hany as Hany. set (fields := sort_by fst _) in *. cbn [deref]. by rewrite Hany.
Qed.

(** The roles of a leader. *)
Definition leading (role : MemberRole) : Prop := role = model.RoleLeader ∨ role = RoleStandbyLeader.

Definition synchronized (role : MemberRole) : Prop := role = RoleSyncStandby ∨ role = RoleQuorumStandby.

Lemma project_role_spec leader standby synchronous quorum syncMembers name :
  let role := project_role leader standby synchronous quorum syncMembers name in
  (leading role ↔ name = leader) ∧
  (synchronized role ↔ name ≠ leader ∧ synchronous = true ∧ name ∈ syncMembers) ∧
  (role = RoleStandbyLeader → standby = true) ∧ (role = RoleQuorumStandby → quorum = true).
Proof.
  cbv zeta. unfold project_role, leading, synchronized. destruct (String.eqb_spec name leader) as [->|Hne].
  - destruct standby; intuition congruence.
  - destruct synchronous; cbn [andb]; [|intuition congruence].
    destruct (bool_decide _) eqn:E; go_bool; [|intuition congruence]. destruct quorum; intuition congruence.
Qed.

Lemma projectCluster_members snapshot requested :
  let cluster := projectCluster snapshot requested in
  let config := csConfig (snCluster snapshot) in
  let standby := standbyCluster config in
  cMembers cluster ≡ₚ
    (λ member, project_member (cTarget cluster) (cLeader cluster)
       (project_role (cLeader cluster) standby (negb standby && synchronousMode config)
          (EqualFold (Sprint (map_index config "synchronous_mode")) "quorum")
          (stringSet (syStandbys (csSync (snCluster snapshot)))) (mbName member))
       (stLastLSN (csStatus (snCluster snapshot))) member) <$> csMembers (snCluster snapshot).
Proof. apply sort_stable_perm. Qed.

Lemma project_member_fields target leader role lsn member :
  let m := project_member target leader role lsn member in
  mName m = mbName member ∧ mTarget m = with_member target (mbName member) ∧ mRole m = role ∧
  (mbName member = leader → mReceiveLSN m = "" ∧ mReceiveLagBytes m = 0%Z ∧ mReplayLSN m = "" ∧ mReplayLagBytes m = 0%Z).
Proof.
  cbv zeta. unfold project_member. cbv zeta. destruct (postgresAddress _) as [[host port] ok].
  destruct (String.eqb_spec (mbName member) leader) as [->|Hne]; cbn [negb andb]; [done|].
  destruct (projectLSN _ _ _) as [[? ?] [? ?]]. done.
Qed.
End projection.

(** ** Properties *)


Definition topology_member (name : string) (tags : config) : model.Member :=
  model.mkMember (with_member sample_target name) name "" "" 0 model.RoleReplica "streaming" None "" 0 "" 0 false [] None tags "".

(** A cascade of two below the leader, and a cycle of two. *)
Definition cascade : Cluster :=
  mkCluster sample_target DiscoveryDiscovered ManagementExplicit ReachabilityUnknown HealthUnknown 7 "" "n2" false None
    [topology_member "n1" [("replicatefrom", VString "n3")]; topology_member "n2" []; topology_member "n3" [];
     topology_member "n4" [("replicatefrom", VString "n5")]; topology_member "n5" [("replicatefrom", VString "n4")]].


(** The recursion of the tree walk is bounded by the number of members: from any state of the walk, more calls than
    members left to visit change nothing. *)
Theorem walk_terminates (cluster : Cluster) (fuel : nat) (name parent : string) (depth : Z) (acc : walked) :
  (walk_fuel cluster <= fuel)%nat → walk cluster fuel name parent depth acc = walk cluster (walk_fuel cluster) name parent depth acc.
Proof. intros Hf. pose proof (unvisited_walk_fuel cluster acc). apply walk_fuel_agree; lia. Qed.

Lemma walk_terminates_witness :
  walk cascade 100 "n2" "" 0 ([], []) = walk cascade (walk_fuel cascade) "n2" "" 0 ([], []).
Proof. apply walk_terminates. unfold walk_fuel. cbn. lia. Defined.

(** The projection shows every member once, by name, under the cluster's target; exactly the member of the leader
    key is shown leading, a standby leader only in a standby cluster, and a synchronous standby exactly when the
    synchronization state lists it in a synchronous cluster that is not a standby cluster. *)
Theorem projectCluster_roles `{GoStd} (snapshot : Snapshot) (requested : Target) :
  let cluster := projectCluster snapshot requested in
  let config := csConfig (snCluster snapshot) in
  mName <$> cMembers cluster ≡ₚ mbName <$> csMembers (snCluster snapshot) ∧
  StronglySorted (key_le mName) (cMembers cluster) ∧
  Forall (λ m, mTarget m = with_member (cTarget cluster) (mName m) ∧
    (leading (mRole m) ↔ mName m = cLeader cluster) ∧
    (mRole m = RoleStandbyLeader → standbyCluster config = true) ∧
    (synchronized (mRole m) ↔ mName m ≠ cLeader cluster ∧ standbyCluster config = false ∧ synchronousMode config = true ∧
                              mName m ∈ stringSet (syStandbys (csSync (snCluster snapshot)))))
    (cMembers cluster).
Proof.
  cbv zeta. pose proof (projectCluster_members snapshot requested) as Hm. cbv zeta in Hm.
  set (cluster := projectCluster snapshot requested) in *. split; [|split].
  - rewrite Hm, <- list_fmap_compose. apply reflexive_eq, list_fmap_ext. intros i member _. by apply project_member_fields.
  - apply sort_stable_sorted; [apply _| |]; unfold key_le; intros x y Hxy.
    + by apply ltb_le.
    + by apply not_ltb_le.
  - rewrite Hm. apply Forall_fmap, Forall_forall. intros member _. unfold compose.
    destruct (project_member_fields (cTarget cluster) (cLeader cluster) (project_role (cLeader cluster) (standbyCluster (csConfig (snCluster snapshot)))
      (negb (standbyCluster (csConfig (snCluster snapshot))) && synchronousMode (csConfig (snCluster snapshot)))
      (EqualFold (Sprint (map_index (csConfig (snCluster snapshot)) "synchronous_mode")) "quorum")
      (stringSet (syStandbys (csSync (snCluster snapshot)))) (mbName member))
      (stLastLSN (csStatus (snCluster snapshot))) member) as (-> & -> & -> & _).
    match goal with |- context [project_role ?a ?b ?c ?d ?e ?f] =>
      destruct (project_role_spec a b c d e f) as (H1 & H2 & H3 & _) end.
    split; [done|]. split; [done|]. split; [done|]. rewrite H2, andb_true_iff, negb_true_iff. tauto.
Qed.

(** A shown position: none, or the text of a position with its lag behind [clusterLSN]. *)
Definition exact_position (clusterLSN : Z) (position : string * Z) : Prop :=
  position = ("", 0%Z) ∨
  ∃ lsn, int64 lsn ∧ parseLSN position.1 = Some (Z.to_N (uint64 lsn)) ∧
    if (clusterLSN - lsn <=? max_int64)%Z then position.2 = Z.max 0 (clusterLSN - lsn)
    else (position.2 < 0)%Z ∧ (lsn < 0)%Z.

Lemma exact_positions clusterLSN receive replay :
  int64 clusterLSN → int64_opt receive → int64_opt replay →
  let position o := match o with Some lsn => (formatLSN lsn, nonnegativeLag clusterLSN lsn) | None => ("", 0%Z) end in
  Forall (exact_position clusterLSN) [position receive; position replay].
Proof.
  intros Hc Hreceive Hreplay position.
  assert (∀ o, int64_opt o → exact_position clusterLSN (position o)) as Hone.
  { intros [lsn|] Hall; [right|by left]. pose proof (Hall lsn eq_refl) as Ho. exists lsn. split; [exact Ho|].
    split; [apply parseLSN_formatLSN|]. cbn [snd position]. pose proof (nonnegativeLag_exact clusterLSN lsn Hc Ho) as Hlag.
    destruct (Z.leb_spec (clusterLSN - lsn) max_int64); [done|]. split; [done|]. unfold int64 in *. lia. }
  constructor; [by apply Hone|]. constructor; [by apply Hone|constructor].
Qed.

(** A member's positions and lags: the text of a position reads back as its 64 bits; the lag is the distance to the
    cluster's position, never negative, as long as the distance fits in 64 bits, and negative when it does not, which
    takes a negative position. *)
Theorem projectLSN_exact (state : string) (data : MemberData) (clusterLSN : Z) :
  int64 clusterLSN → int64_opt (mdReceiveLSN data) → int64_opt (mdReplayLSN data) → int64_opt (mdXLogLocation data) →
  let '(receive, replay) := projectLSN state data clusterLSN in Forall (exact_position clusterLSN) [receive; replay].
Proof.
  intros Hc Hreceive Hreplay Hlocation. assert (int64_opt None) as Hnone by apply int64_none. unfold projectLSN.
  destruct (mdReceiveLSN data) as [receive|], (mdReplayLSN data) as [replay|], (mdXLogLocation data) as [location|];
    try destruct (state ==s "streaming");
    first [apply (exact_positions _ (Some _) (Some _)) | apply (exact_positions _ (Some _) None)
          | apply (exact_positions _ None (Some _)) | apply (exact_positions _ None None)]; assumption.
Qed.

Lemma projectLSN_exact_witness :
  let data := mkMemberData "" "" "" "" "" None None [] RawEmpty [] "" None None (Some 50331648%Z) (Some (-1)%Z) [] in
  projectLSN "streaming" data max_int64 = (("0/3000000", 9223372036804444159%Z), ("FFFFFFFF/FFFFFFFF", (-9223372036854775808)%Z)) ∧
  Forall (exact_position max_int64) [("0/3000000", 9223372036804444159%Z); ("FFFFFFFF/FFFFFFFF", (-9223372036854775808)%Z)].
Proof.
  cbv zeta. split; [by vm_compute|].
  refine (projectLSN_exact "streaming" (mkMemberData "" "" "" "" "" None None [] RawEmpty [] "" None None (Some 50331648%Z) (Some (-1)%Z) [])
    max_int64 _ _ _ _); [by vm_compute|..]; intros z; cbn; [intros [= <-]|intros [= <-]|done]; by vm_compute.
Defined.
