(* ===== verification/Reads.v ===== *)
(** * Reads: the inspection handlers of [control/read.go] and
    [control/discover.go]

    List, DSN, topology, show-config, history, version and the discovery of a
    namespace read snapshots and project them; a query also runs the caller's
    SQL on one selected member. *)

From S2P Require Import Prelude GoStrings GoErrors PgTypes GoTime Target Version Values Json Dcs.
From S2P Require Import Effects Contract Select Snapshots Cluster.

(** ** Requests, [read_types.go] *)

Record ListRequest := mkListRequest { lrTargets : list Target; lrCitus : bool; lrAllowUnsupportedRead : bool }.

Record ListData := mkListData { ldClusters : list model.Cluster }.

(** [DiscoverRequest], [ListAllRequest] and [TopologyAllRequest] have the same
    fields. *)
Record DiscoverRequest := mkDiscoverRequest { drContext : string; drNamespace : string; drAllowUnsupportedRead : bool }.

Record DiscoverData := mkDiscoverData { ddClusters : list model.ClusterSummary }.

Record DSNRequest := mkDSNRequest {
  dsnTarget : Target;
  dsnRole : Role;
  dsnMember : string;
  dsnCitus : bool;
  dsnAllowUnsupportedRead : bool
}.

Record DSNData := mkDSNData {
  ddTarget : Target;
  ddMember : string;
  ddRole : Role;
  ddHost : string;
  ddPort : Z
}.

Definition DSNData_String (data : DSNData) : string := "host=" +:+ ddHost data +:+ " port=" +:+ FormatInt (ddPort data).

(** [TopologyRequest], [TopologyGroupsRequest], [ShowConfigRequest] and
    [HistoryRequest] have the same fields. *)
Record ClusterRequest := mkClusterRequest { crTarget : Target; crAllowUnsupportedRead : bool }.

Record TopologyData := mkTopologyData { tdCluster : model.Cluster; tdMembers : list TopologyMember }.

Record TopologyListData := mkTopologyListData { tlTopologies : list TopologyData }.

Record ConfigData := mkConfigData { cdTarget : Target; cdRevision : Z; cdConfig : config }.

Record HistoryData := mkHistoryData { hdTarget : Target; hdEntries : list HistoryEntry }.

Record QueryRequest := mkQueryRequest {
  qrTarget : Target;
  qrRole : Role;
  qrMember : string;
  qrCitus : bool;
  qrConnection : ConnectionOptions;
  qrSQL : string;
  qrLimits : Limits
}.

Inductive QueryErrorKind := QueryErrorNoConnection | QueryErrorDatabase | QueryErrorRoleMismatch.

Record QueryError := mkQueryError { qeKind : QueryErrorKind; qeSQLState : string; qeMessage : string }.

Record QueryData := mkQueryData {
  qdTarget : Target;
  qdMember : string;
  qdResult : QueryResult;
  qdError : option QueryError
}.

Record VersionRequest := mkVersionRequest {
  vrTarget : Target;
  vrMembers : list string;
  vrCitus : bool;
  vrAllowUnsupportedRead : bool
}.

Record MemberVersion := mkMemberVersion {
  mvTarget : Target;
  mvPatroniVersion : string;
  mvPostgresVersion : string;
  mvHTTPStatus : Z;
  mvError : option Error
}.

Record VersionData := mkVersionData { vdProductVersion : string; vdMembers : list MemberVersion }.

#[export] Instance zero_Target : Zero Target := mkTarget "" "" "" None "".
#[export] Instance zero_ModelCluster : Zero model.Cluster :=
  model.mkCluster zero DiscoveryAbsent ManagementUnmanaged ReachabilityUnknown HealthUnknown 0 "" "" false None [].
#[export] Instance zero_ListData : Zero ListData := mkListData [].
#[export] Instance zero_DiscoverData : Zero DiscoverData := mkDiscoverData [].
#[export] Instance zero_DSNData : Zero DSNData := mkDSNData zero "" (RoleRaw "") "" 0.
#[export] Instance zero_TopologyData : Zero TopologyData := mkTopologyData zero [].
#[export] Instance zero_TopologyListData : Zero TopologyListData := mkTopologyListData [].
#[export] Instance zero_ConfigData : Zero ConfigData := mkConfigData zero 0 [].
#[export] Instance zero_HistoryData : Zero HistoryData := mkHistoryData zero [].
#[export] Instance zero_QueryData : Zero QueryData := mkQueryData zero "" zero None.
#[export] Instance zero_VersionData : Zero VersionData := mkVersionData "" [].

(** ** Member selectors *)

(** The member [DSN] and [Query] are asked for; [None] when the two selectors
    differ. *)
Definition member_selector (target : Target) (requested : string) : option string :=
  let memberName := TrimSpace requested in
  if memberName ==s "" then Some (tMember target)
  else if (tMember target !=s "") && (tMember target !=s memberName) then None
  else Some memberName.

(** [role := request.Role; if role == "" && memberName == "" { role = RoleLeader }] *)
Definition selected_role (role : Role) (memberName : string) : Role :=
  if Role_empty role && (memberName ==s "") then RoleLeader else role.

Section with_std.
Context `{GoStd}.

(** ** [List] *)

(** [cluster.DiscoveryState = DiscoveryDiscovered; cluster.ManagementState = ManagementExplicit] *)
Definition project_group (snapshot : Snapshot) : model.Cluster :=
  with_states (projectCluster snapshot (snTarget snapshot)) DiscoveryDiscovered ManagementExplicit.

(** The loop over the requested targets. *)
Fixpoint listTargets (service : Service) (operationID : string) (target : Target) (citus allow : bool) (targets : list Target)
    (clusters : list model.Cluster) (evidence : list Evidence) : prog (Result ListData) :=
  match targets with
  | [] => mret (mkResult operationID Succeeded target PathDCS (mkListData clusters) evidence None)
  | rawTarget :: rest =>
      let clusterTarget := Normalize rawTarget in
      match Target_Validate clusterTarget true with
      | Some err =>
          mret (failedReadWithEvidence service operationID "list" clusterTarget PathDCS CategoryUsage false
                  "list target is invalid" (Some err) evidence)
      | None =>
          if citus && is_nil (tGroup clusterTarget) then
            r ← citusGroupSnapshots service "list" clusterTarget allow;
            match r with
            | inl (failure, groupEvidence) =>
                mret (failureResult service operationID "list" clusterTarget PathDCS (failure, evidence ++ groupEvidence))
            | inr (snapshots, groupEvidence) =>
                listTargets service operationID target citus allow rest (clusters ++ (project_group <$> snapshots))
                  (evidence ++ groupEvidence)
            end
          else
            r ← do_call (CSnapshot clusterTarget);
            match r with
            | inl err =>
                let '(category, retryable) := classifyReadError (Some err) in
                mret (failedReadWithEvidence service operationID "list" clusterTarget PathDCS category retryable
                        "cluster snapshot failed" (Some err) evidence)
            | inr snapshot =>
                match checkSnapshotPatroniVersion service snapshot allow with
                | Some err => mret (unsupportedVersionResult service operationID "list" clusterTarget PathDCS snapshot (Some err))
                | None =>
                    listTargets service operationID target citus allow rest
                      (clusters ++ [projectCluster snapshot clusterTarget])
                      (evidence ++ [snapshotEvidence service snapshot "cluster snapshot read"])
                end
            end
      end
  end.

Definition List (service : Service) (ctx : bool) (request : ListRequest) : prog (Result ListData) :=
  operationID ← operationID;
  let target := aggregateTarget (lrTargets request) in
  let fail message := mret (failedRead service operationID "list" target PathDCS CategoryUsage false message None []) in
  if negb ctx then fail "list requires a context"
  else if is_nil (head (lrTargets request)) then fail "list requires at least one target"
  else listTargets service operationID target (lrCitus request) (lrAllowUnsupportedRead request) (lrTargets request) [] [].

(** ** [DSN] *)

Definition DSN (service : Service) (ctx : bool) (request : DSNRequest) : prog (Result DSNData) :=
  operationID ← operationID;
  let target := Normalize (dsnTarget request) in
  let fail target category message cause evidence :=
    mret (failedReadWithEvidence service operationID "dsn" target PathDCS category false message cause evidence) in
  match member_selector target (dsnMember request) with
  | None => fail target CategoryUsage "DSN member selectors conflict" None []
  | Some memberName =>
      let target := with_member target "" in
      if negb ctx then fail target CategoryUsage "DSN requires a context" None []
      else match Target_Validate target true with
      | Some err => fail target CategoryUsage "DSN target is invalid" (Some err) []
      | None =>
          if negb (Role_validOrEmpty (dsnRole request)) then fail target CategoryUsage "DSN role is invalid" None []
          else if negb (Role_empty (dsnRole request)) && (memberName !=s "")
          then fail target CategoryUsage "DSN role and member are mutually exclusive" None []
          else
            r ← operationSnapshots service "dsn" target (dsnCitus request) (dsnAllowUnsupportedRead request);
            match r with
            | inl failure => mret (failureResult service operationID "dsn" target PathDCS failure)
            | inr (snapshots, evidence) =>
                let role := selected_role (dsnRole request) memberName in
                match selectMemberAcrossSnapshots snapshots role memberName with
                | None => fail target CategoryNotFound "cannot find a suitable member" None evidence
                | Some (selectedSnapshot, member) =>
                    let '(host, port, err) := postgresAddress (mdConnURL (mbData member)) in
                    if negb (is_nil err)
                    then fail target CategoryFailed "selected member has no usable PostgreSQL address" err evidence
                    else
                      let selectedTarget := with_member (Normalize (snTarget selectedSnapshot)) (mbName member) in
                      mret (mkResult operationID Succeeded selectedTarget PathDCS
                              (mkDSNData selectedTarget (mbName member) role host port) evidence None)
                end
            end
      end
  end.

(** ** One cluster: [Topology], [ShowConfig] and [History] *)

(** Their common body: the checks of the request, one snapshot, the version
    gate. *)
Definition clusterRead {T} `{Zero T} (service : Service) (ctx : bool) (operation : string) (request : ClusterRequest)
    (finish : string → Target → Snapshot → Result T) : prog (Result T) :=
  operationID ← operationID;
  let target := Normalize (crTarget request) in
  let fail category retryable message cause :=
    mret (failedRead service operationID operation target PathDCS category retryable message cause []) in
  if negb ctx then fail CategoryUsage false (operation +:+ " requires a context") None
  else match Target_Validate target true with
  | Some err => fail CategoryUsage false (operation +:+ " target is invalid") (Some err)
  | None =>
      r ← do_call (CSnapshot target);
      match r with
      | inl err =>
          let '(category, retryable) := classifyReadError (Some err) in
          fail category retryable "cluster snapshot failed" (Some err)
      | inr snapshot =>
          match checkSnapshotPatroniVersion service snapshot (crAllowUnsupportedRead request) with
          | Some err => mret (unsupportedVersionResult service operationID operation target PathDCS snapshot (Some err))
          | None => mret (finish operationID target snapshot)
          end
      end
  end.

Definition Topology (service : Service) (ctx : bool) (request : ClusterRequest) : prog (Result TopologyData) :=
  clusterRead service ctx "topology" request (λ operationID target snapshot,
    let cluster := projectCluster snapshot target in
    mkResult operationID Succeeded target PathDCS (mkTopologyData cluster (topologyMembers cluster))
      [snapshotEvidence service snapshot "cluster topology projected"] None).

Definition ShowConfig (service : Service) (ctx : bool) (request : ClusterRequest) : prog (Result ConfigData) :=
  clusterRead service ctx "show-config" request (λ operationID target snapshot,
    let revision := match Snapshot_Entry snapshot "config" with Some entry => enModRevision entry | None => 0%Z end in
    mkResult operationID Succeeded target PathDCS (mkConfigData target revision (cloneMap (csConfig (snCluster snapshot))))
      [snapshotEvidence service snapshot "dynamic configuration read"] None).

(** The entries of a history, or the first error. *)
Fixpoint normalizeHistory (raws : list RawMessage) : goerror + list HistoryEntry :=
  match raws with
  | [] => inr []
  | raw :: rest =>
      match normalizeHistoryEntry raw with
      | inl err => inl err
      | inr entry => match normalizeHistory rest with inl err => inl err | inr entries => inr (entry :: entries) end
      end
  end.

Definition History (service : Service) (ctx : bool) (request : ClusterRequest) : prog (Result HistoryData) :=
  clusterRead service ctx "history" request (λ operationID target snapshot,
    let evidence := [snapshotEvidence service snapshot "cluster history read"] in
    match normalizeHistory (csHistory (snCluster snapshot)) with
    | inl err =>
        failedRead service operationID "history" target PathDCS CategoryFailed false "cluster history is malformed" (Some err) evidence
    | inr entries => mkResult operationID Succeeded target PathDCS (mkHistoryData target entries) evidence None
    end).

(** ** [TopologyGroups] *)

Definition group_topology (snapshot : Snapshot) : TopologyData :=
  let cluster := project_group snapshot in mkTopologyData cluster (topologyMembers cluster).

(** [err != nil || target.Group != nil || target.Member != ""] *)
Definition group_less_error (target : Target) : option goerror :=
  match Target_Validate target true with
  | Some err => Some err
  | None => if negb (is_nil (tGroup target)) || (tMember target !=s "")
            then Some (EText "citus topology group expansion requires a group-less cluster target") else None
  end.

Definition TopologyGroups (service : Service) (ctx : bool) (request : ClusterRequest) : prog (Result TopologyListData) :=
  operationID ← operationID;
  let target := Normalize (crTarget request) in
  let fail message cause := mret (failedRead service operationID "topology" target PathDCS CategoryUsage false message cause []) in
  if negb ctx then fail "Citus topology requires a context" None
  else match group_less_error target with
  | Some err => fail "Citus topology target is invalid" (Some err)
  | None =>
      r ← operationSnapshots service "topology" target true (crAllowUnsupportedRead request);
      mret match r with
           | inl failure => failureResult service operationID "topology" target PathDCS failure
           | inr (snapshots, evidence) =>
               mkResult operationID Succeeded target PathDCS (mkTopologyListData (group_topology <$> snapshots)) evidence None
           end
  end.

(** ** [Query] *)

(** [compatibleQueryError] *)
Definition compatibleQueryError (service : Service) (operationID : string) (target : Target) (member : string)
    (kind : QueryErrorKind) (sqlState message : string) (evidence : list Evidence) : Result QueryData :=
  let target := if member !=s "" then with_member target member else target in
  let evidence := evidence ++ [mkEvidence EvidencePostgres (svcNow service) "compatible query error row produced" ""
                                 (Path_text PathPostgres) (SendRaw "")] in
  mkResult operationID Succeeded target PathPostgres (mkQueryData target member zero (Some (mkQueryError kind sqlState message)))
    evidence None.

(** What the session must be: a member chosen by role must still play it. *)
Definition query_expectation (role : Role) (memberName : string) : RecoveryExpectation :=
  if memberName ==s "" then
    match role with
    | RolePrimary => RecoveryPrimary
    | RoleReplica | RoleStandby | RoleStandbyLeader => RecoveryStandby
    | _ => RecoveryAny
    end
  else RecoveryAny.

Definition unavailable_message (role : Role) (memberName : string) : string :=
  if memberName !=s "" then "No connection to member " +:+ memberName +:+ " is available"
  else if negb (Role_empty role) then "No connection to role " +:+ Role_text role +:+ " is available"
  else "No connection is available".

(** The result of a query that failed with [queryErr]. *)
Definition query_failed (service : Service) (operationID : string) (target : Target) (member : string) (role : Role)
    (queryErr : goerror) (evidence : list Evidence) : Result QueryData :=
  let failed category retryable message :=
    failedRead service operationID "query" target PathPostgres category retryable message (Some queryErr) evidence in
  match as_postgres (Some queryErr) with
  | Some (kind, sqlState) =>
      match kind with
      | pgE.ErrorCanceled => failed CategoryFailed false "query canceled"
      | pgE.ErrorDeadline => failed CategoryUnreachable true "query deadline exceeded"
      | pgE.ErrorConfiguration | pgE.ErrorInvariant | pgE.ErrorSink | pgE.ErrorLimit =>
          failed CategoryConfig false "query execution is invalid"
      | pgE.ErrorRoleMismatch =>
          compatibleQueryError service operationID target member QueryErrorRoleMismatch ""
            ("No connection to role " +:+ Role_text role +:+ " is available") evidence
      | _ =>
          compatibleQueryError service operationID target member QueryErrorDatabase sqlState
            (if sqlState ==s "" then "ERROR, SQLSTATE: DATABASE" else "ERROR, SQLSTATE: " +:+ sqlState) evidence
      end
  | None =>
      compatibleQueryError service operationID target member QueryErrorDatabase "" "ERROR, SQLSTATE: DATABASE" evidence
  end.

(** The query on the selected member. *)
Definition queryMember (service : Service) (operationID : string) (request : QueryRequest) (target : Target)
    (memberName : string) (role : Role) (selectedSnapshot : Snapshot) (member : Dcs.Member) (evidence : list Evidence)
    : prog (Result QueryData) :=
  let '(host, port, addressErr) := postgresAddress (mdConnURL (mbData member)) in
  if negb (is_nil addressErr) then
    mret (compatibleQueryError service operationID target (mbName member) QueryErrorNoConnection ""
            ("No connection to member " +:+ mbName member +:+ " is available") evidence)
  else
    let selectedTarget := with_member (Normalize (snTarget selectedSnapshot)) (mbName member) in
    let application := if coApplicationName (qrConnection request) ==s "" then "Patroni ctl"
                       else coApplicationName (qrConnection request) in
    r ← do_call (CQueryChecked (connect_to (qrConnection request) host port application) (query_expectation role memberName)
                   (pg.mkQueryRequest (qrSQL request) (qrLimits request)));
    let evidence := evidence ++ [mkEvidence EvidencePostgres (svcNow service) "PostgreSQL query attempt completed" ""
                                   (Path_text PathPostgres) (SendRaw "")] in
    mret match r with
         | (_, Some queryErr) => query_failed service operationID selectedTarget (mbName member) role queryErr evidence
         | (queryResult, None) =>
             mkResult operationID Succeeded selectedTarget PathPostgres
               (mkQueryData selectedTarget (mbName member) queryResult None) evidence None
         end.

Definition Query (service : Service) (ctx : bool) (request : QueryRequest) : prog (Result QueryData) :=
  operationID ← operationID;
  let target := Normalize (qrTarget request) in
  let fail target category message cause :=
    mret (failedRead service operationID "query" target PathPostgres category false message cause []) in
  match member_selector target (qrMember request) with
  | None => fail target CategoryUsage "query member selectors conflict" None
  | Some memberName =>
      let target := with_member target "" in
      if negb ctx then fail target CategoryUsage "query requires a context" None
      else match Target_Validate target true with
      | Some err => fail target CategoryUsage "query target is invalid" (Some err)
      | None =>
          if negb (Role_validOrEmpty (qrRole request)) then fail target CategoryUsage "query role is invalid" None
          else if negb (Role_empty (qrRole request)) && (memberName !=s "")
          then fail target CategoryUsage "query role and member are mutually exclusive" None
          else if negb (svcPostgres service) then fail target CategoryConfig "query requires a PostgreSQL executor" None
          else
            r ← operationSnapshots service "query" target (qrCitus request) false;
            match r with
            | inl failure => mret (failureResult service operationID "query" target PathPostgres failure)
            | inr (snapshots, evidence) =>
                let role := selected_role (qrRole request) memberName in
                match selectMemberAcrossSnapshots snapshots role memberName with
                | None =>
                    mret (compatibleQueryError service operationID target "" QueryErrorNoConnection ""
                            (unavailable_message (qrRole request) memberName) evidence)
                | Some (selectedSnapshot, member) =>
                    queryMember service operationID request target memberName role selectedSnapshot member evidence
                end
            end
      end
  end.

(** ** [Version] *)

(** The members asked for, with their snapshots, in the order of the nested
    loops. *)
Definition version_members (requested : list string) (snapshots : list Snapshot) : list (Snapshot * Dcs.Member) :=
  let filter := stringSet requested in
  List.filter
    (λ sm, (is_nil (head filter) || bool_decide (mbName sm.2 ∈ filter)) && (TrimSpace (mdAPIURL (mbData sm.2)) !=s ""))
    (snapshots ≫= λ snapshot, pair snapshot <$> csMembers (snCluster snapshot)).

(** The item of a member that answered: its versions, or the error that
    ends the whole operation. *)
Definition version_item (service : Service) (allow : bool) (target : Target) (response : StatusResponse)
    (callErr : option goerror) : goerror + MemberVersion :=
  let status := ssStatusCode response in
  let failed category retryable cause :=
    inr (mkMemberVersion target "" "" status
           (Some (NewError category "version" target retryable "failed to get member version" cause []))) in
  match callErr with
  | Some _ => let '(category, retryable) := classifyReadError callErr in failed category retryable callErr
  | None =>
      if (status <? 200)%Z || (300 <=? status)%Z
      then let '(category, retryable) := classifyHTTPStatus status in failed category retryable None
      else
        let item := mkMemberVersion target (ssPatroniVersion response)
                      (match ssServerVersion response with Some version => formatPostgresVersion version | None => "" end)
                      status None in
        if allow then inr item
        else match checkPatroniVersion service (ssPatroniVersion response) with Some err => inl err | None => inr item end
  end.

(** The loop over the members. *)
Fixpoint versionMembers (service : Service) (operationID : string) (target : Target) (allow : bool)
    (members : list (Snapshot * Dcs.Member)) (items : list MemberVersion) (evidence : list Evidence)
    : prog (Result VersionData) :=
  match members with
  | [] => mret (mkResult operationID Succeeded target PathREST (mkVersionData (svcProductVersion service) items) evidence None)
  | (snapshot, member) :: rest =>
      let memberTarget := with_member (Normalize (snTarget snapshot)) (mbName member) in
      match patroniBaseURL (mdAPIURL (mbData member)) with
      | None =>
          let item := mkMemberVersion memberTarget "" "" 0
                        (Some (NewError CategoryConfig "version" memberTarget false "member Patroni address is invalid"
                                 (Some (EText "invalid Patroni API URL")) [])) in
          versionMembers service operationID target allow rest (items ++ [item]) evidence
      | Some baseURL =>
          r ← do_call (CGetPatroni baseURL);
          match version_item service allow memberTarget r.1 r.2 with
          | inl err => mret (unsupportedVersionResult service operationID "version" target PathREST snapshot (Some err))
          | inr item => versionMembers service operationID target allow rest (items ++ [item]) evidence
          end
      end
  end.

Definition Version (service : Service) (ctx : bool) (request : VersionRequest) : prog (Result VersionData) :=
  operationID ← operationID;
  let target := Normalize (vrTarget request) in
  let localEvidence := mkEvidence EvidenceLocal (svcNow service) "local go-patroni version read" "" (Path_text PathLocal)
                         (SendRaw "") in
  let fail path category message cause evidence :=
    mret (failedRead service operationID "version" target path category false message cause evidence) in
  if negb ctx then fail PathLocal CategoryUsage "version requires a context" None []
  else if tScope target ==s "" then
    mret (mkResult operationID Succeeded target PathLocal (mkVersionData (svcProductVersion service) []) [localEvidence] None)
  else match Target_Validate target true with
  | Some err => fail PathREST CategoryUsage "version target is invalid" (Some err) [localEvidence]
  | None =>
      if negb (svcPatroni service) then fail PathREST CategoryConfig "version requires a Patroni REST reader" None [localEvidence]
      else
        r ← versionSnapshots service "version" target (vrCitus request) (vrAllowUnsupportedRead request);
        match r with
        | inl (failure, evidence) =>
            mret (failureResult service operationID "version" target PathREST (failure, localEvidence :: evidence))
        | inr (snapshots, evidence) =>
            versionMembers service operationID target (vrAllowUnsupportedRead request)
              (version_members (vrMembers request) snapshots) [] (localEvidence :: evidence)
        end
  end.

(** ** Discovery of a namespace, [discover.go] *)

Definition clusters_result : Type := (discoveryFailure * list Evidence + list model.Cluster * list Evidence)%type.

(** [err != nil || itemTarget.Context != ... || itemTarget.Member != ""] *)
Definition discovered_target_error (target itemTarget : Target) : option goerror :=
  match Target_Validate itemTarget true with
  | Some err => Some err
  | None =>
      if (tContext itemTarget !=s tContext target) || (tNamespace itemTarget !=s tNamespace target) || (tMember itemTarget !=s "")
      then Some (EText "discovered target does not belong to requested context/namespace") else None
  end.

(** The loop over discovered items. *)
Fixpoint discoverLoop (service : Service) (operation : string) (target : Target) (allow : bool) (management : ManagementState)
    (items : list DiscoveredCluster) (clusters : list model.Cluster) (evidence : list Evidence) : prog clusters_result :=
  match items with
  | [] => mret (inr (clusters, evidence))
  | item :: rest =>
      let itemTarget := Normalize (dcTarget item) in
      let fail category retryable message cause evidence :=
        mret (inl (mkDiscoveryFailure category retryable message (Some cause), evidence)) in
      match discovered_target_error target itemTarget with
      | Some err => fail CategoryFailed false "DCS discoverer returned an invalid target" err evidence
      | None =>
          let continue snapshot evidence :=
            match checkSnapshotPatroniVersion service snapshot allow with
            | Some err =>
                fail CategoryUnsupported false (operation +:+ " requires Patroni " +:+ supportedPatroniRangeText service) err
                  (evidence ++ [compatibility_evidence service operation snapshot])
            | None =>
                let cluster := with_health (with_states (projectCluster snapshot itemTarget) DiscoveryDiscovered management)
                                 ReachabilityUnknown HealthUnknown in
                discoverLoop service operation target allow management rest (clusters ++ [cluster]) evidence
            end in
          match dcSnapshot item with
          | Some snapshot =>
              let snapshotTarget := Normalize (snTarget snapshot) in
              if ClusterID snapshotTarget !=s ClusterID itemTarget
              then fail CategoryFailed false "DCS discoverer returned a mismatched snapshot"
                     (EText ("snapshot target " +:+ ClusterID snapshotTarget +:+ " does not match discovered target " +:+
                             ClusterID itemTarget)) evidence
              else continue snapshot evidence
          | None =>
              r ← do_call (CSnapshot itemTarget);
              match r with
              | inl err =>
                  let '(category, retryable) := classifyReadError (Some err) in
                  fail category retryable "discovered cluster snapshot failed" err evidence
              | inr snapshot =>
                  continue snapshot (evidence ++ [snapshotEvidence service snapshot "legacy discoverer cluster snapshot read"])
              end
          end
      end
  end.

Definition discoverClusters (service : Service) (operation : string) (target : Target) (allow : bool)
    (management : ManagementState) : prog clusters_result :=
  r ← do_call (CDiscover (tContext target) (tNamespace target));
  match r with
  | inl err =>
      let '(category, retryable) := classifyReadError (Some err) in
      mret (inl (mkDiscoveryFailure category retryable "namespace discovery failed" (Some err), []))
  | inr items =>
      let items := sort_stable (λ left right, targetLess (dcTarget left) (dcTarget right)) items in
      discoverLoop service operation target allow management items [] [discoveryEvidence service target items]
  end.

(** The common body of [Discover], [ListAll] and [TopologyAll]: [label] names
    the operation in messages. *)
Definition namespaceRead {T} `{Zero T} (service : Service) (ctx : bool) (operation label invalid : string)
    (request : DiscoverRequest) (management : ManagementState) (finish : list model.Cluster → T) : prog (Result T) :=
  operationID ← operationID;
  let target := discoveryTarget (drContext request) (drNamespace request) in
  let fail category message cause :=
    mret (failedRead service operationID operation target PathDCS category false message cause []) in
  if negb ctx then fail CategoryUsage (label +:+ " requires a context") None
  else match Target_Validate target false with
  | Some err => fail CategoryUsage invalid (Some err)
  | None =>
      if negb (svcDiscovery service) then fail CategoryConfig (label +:+ " requires a DCS discoverer") None
      else
        r ← discoverClusters service operation target (drAllowUnsupportedRead request) management;
        mret match r with
             | inl failure => failureResult service operationID operation target PathDCS failure
             | inr (clusters, evidence) => mkResult operationID Succeeded target PathDCS (finish clusters) evidence None
             end
  end.

Definition cluster_summary (cluster : model.Cluster) : model.ClusterSummary :=
  model.mkClusterSummary (model.cTarget cluster) (model.cDiscoveryState cluster) (model.cManagementState cluster)
    (model.cReachabilityState cluster) (model.cHealthState cluster) (model.cRevision cluster)
    (Z.of_nat (length (model.cMembers cluster))) (model.cLeader cluster).

Definition Discover (service : Service) (ctx : bool) (request : DiscoverRequest) : prog (Result DiscoverData) :=
  namespaceRead service ctx "discover" "discover" "discovery target is invalid" request ManagementUnmanaged
    (λ clusters, mkDiscoverData (cluster_summary <$> clusters)).

Definition ListAll (service : Service) (ctx : bool) (request : DiscoverRequest) : prog (Result ListData) :=
  namespaceRead service ctx "list" "list --all" "list --all target is invalid" request ManagementAllSelected mkListData.

Definition TopologyAll (service : Service) (ctx : bool) (request : DiscoverRequest) : prog (Result TopologyListData) :=
  namespaceRead service ctx "topology" "topology --all" "topology --all target is invalid" request ManagementAllSelected
    (λ clusters, mkTopologyListData ((λ cluster, mkTopologyData cluster (topologyMembers cluster)) <$> clusters)).
End with_std.
