(* ===== verification/ReadsLaws.v ===== *)
(** * What the reads guarantee

    Every read returns a valid result and asks nothing to change
    ([reads_are_read_only]); a query runs at most one statement, on a member
    of a snapshot it read itself ([Query_runs_once]); listing a namespace shows
    every discovered cluster once ([ListAll_complete]); the version report
    covers the members asked for and stays inside the supported range
    ([Version_reports]). *)

From S2P Require Import Prelude GoStrings GoErrors PgTypes GoTime Target Version Values Json Dcs.
From S2P Require Import Effects Contract Samples Select Snapshots Cluster ClusterLaws Reads.

(** ** Predicates *)

(** A read either succeeds or fails with nothing shown, and its result is
    valid. *)
Definition settled {T} `{Zero T} (r : Result T) : Prop :=
  Result_Validate r = None ∧ (rOutcome r = Succeeded ∨ rOutcome r = Failed ∧ rData r = zero).

Definition reads {T} `{Zero T} (p : prog (Result T)) : Prop := wp_all read_only p settled.

(** ** Lemmas: valid results without a scope *)

Lemma valid_read {T} (operationID : string) (outcome : Outcome) (target : Target) path (data : T) evidence e :
  operationID ≠ "" → Target_Validate target (tScope target !=s "") = None → Path_valid path = true → good_log evidence →
  outcome_error outcome e = None → (∀ err, e = Some err → Error_Validate err = None) →
  Result_Validate (mkResult operationID outcome target path data evidence e) = None.
Proof.
  intros Hid Ht Hp [Hne He] Ho Her. unfold Result_Validate. apply String.eqb_neq in Hid. cbn [rOperationID rTarget rPath rEvidence rOutcome rError].
  rewrite Hid, Ht, Hp, (proj2 (first_error_None _ _) He), Ho. cbn [negb]. destruct evidence as [|ev evidence]; [done|]. cbn [head is_nil].
  destruct e as [err|]; [|done]. by rewrite (Her err).
Qed.

(** A target that is valid with its own scope requirement. *)
Definition target_ok (t : Target) : Prop := Target_Validate t (tScope (Normalize t) !=s "") = None.

Lemma target_ok_true t : Target_Validate t true = None → target_ok t.
Proof. apply Target_Validate_weaken. Qed.

Lemma target_ok_false t : Target_Validate t false = None → target_ok t.
Proof.
  unfold target_ok, Target_Validate. cbv zeta. destruct (String.eqb_spec (tScope (Normalize t)) "") as [->|]; done.
Qed.

Lemma target_ok_Normalize t : target_ok t → target_ok (Normalize t).
Proof. unfold target_ok. by rewrite Target_Validate_Normalize, Normalize_idem. Qed.

Section results.
Context {T : Type} `{Zero T} (service : Service) (Hclock : clock_set service) (operationID : string) (Hid : operationID ≠ "").

Lemma settled_success target path (data : T) evidence :
  target_ok (Normalize target) → Path_valid path = true → good_log evidence →
  settled (mkResult operationID Succeeded (Normalize target) path data evidence None).
Proof using Hid.
  intros Ht Hp He. split; [|by left]. apply valid_read; try done. unfold target_ok in Ht. by rewrite Normalize_idem in Ht.
Qed.

Lemma settled_failed operation target path category retryable message cause evidence :
  target_ok target → Path_valid path = true → definite category → operation ≠ "" → message ≠ "" → Forall good_evidence evidence →
  settled (failedReadWithEvidence (T := T) service operationID operation target path category retryable message cause evidence).
Proof using Hid Hclock.
  intros Ht Hp [Hc Hn] Ho Hm He. split; [|by right]. unfold failedReadWithEvidence.
  set (log := match evidence with [] => _ | _ => _ end).
  assert (good_log log) as Hlog.
  { subst log. destruct evidence; [|by split]. apply good_log_singleton, good_mkEvidence; try done. by destruct path. }
  apply valid_read; try done.
  - by rewrite Target_Validate_Normalize.
  - cbn. by rewrite (bool_decide_eq_false_2 _ Hn).
  - intros e [= <-]. apply Error_Validate_NewError; [done..|apply Hlog].
Qed.

Lemma settled_unsupported operation target path snapshot cause :
  target_ok target → Path_valid path = true → operation ≠ "" →
  settled (unsupportedVersionResult (T := T) service operationID operation target path snapshot cause).
Proof using Hid Hclock.
  intros. apply settled_failed; try done; [by apply app_not_empty_l|]. apply Forall_singleton. by apply good_snapshotEvidence.
Qed.

Lemma settled_failureResult gated operation target path failure :
  target_ok target → Path_valid path = true → operation ≠ "" → good_snapshots gated (inl failure) →
  settled (failureResult (T := T) service operationID operation target path failure).
Proof using Hid Hclock. intros Ht Hp Ho. destruct failure as [f ev]. intros (? & ? & ?). by apply settled_failed. Qed.

(** The failure of a snapshot read. *)
Lemma settled_read_failure operation target path message err evidence :
  target_ok target → Path_valid path = true → operation ≠ "" → message ≠ "" → Forall good_evidence evidence →
  settled (let '(category, retryable) := classifyReadError (Some err) in
           failedReadWithEvidence (T := T) service operationID operation target path category retryable message (Some err) evidence).
Proof using Hid Hclock.
  intros. pose proof (classifyReadError_definite (Some err)) as Hd. destruct (classifyReadError _). by apply settled_failed.
Qed.
End results.

#[export] Hint Resolve target_ok_true target_ok_false target_ok_Normalize : go.

(** ** Lemmas: the handlers only read *)

Definition any_snapshot : Snapshot → Prop := λ _, True.

Lemma aggregateTarget_ok targets :
  Forall (λ t, Target_Validate t true = None) targets →
  target_ok (aggregateTarget targets) ∧ Normalize (aggregateTarget targets) = aggregateTarget targets.
Proof.
  intros Ht. destruct targets as [|t [|u rest]]; cbn [aggregateTarget].
  - split; [|apply Normalize_idem]. by vm_compute.
  - split; [|by rewrite Normalize_with_member]. apply target_ok_true, Target_Validate_drop_member.
    rewrite Target_Validate_Normalize. by inv Ht.
  - cbv zeta. destruct (forallb _ _); (split; [|apply Normalize_idem]); [|by vm_compute].
    apply target_ok_Normalize, target_ok_false. apply Forall_cons in Ht as [Ht _].
    rewrite <- Target_Validate_Normalize in Ht. unfold Target_Validate in *. cbv zeta in *. rewrite Normalize_idem in Ht.
    cbn [tContext tNamespace tScope tMember tGroup Normalize]. cbn [tContext tNamespace Normalize] in Ht.
    rewrite NormalizeNamespace_idem. pose proof (Normalize_idem t) as Hn. apply (f_equal tContext) in Hn. cbn [tContext Normalize] in Hn.
    rewrite Hn. repeat (case_match; try discriminate); done.
Qed.

Section reads.
Context `{GoStd} (service : Service) (Hclock : clock_set service).

Lemma reads_intro {T} `{Zero T} (body : string → prog (Result T)) :
  (∀ id, id ≠ "" → reads (body id)) → reads (id ← operationID; body id).
Proof using Type. intros Hb. eapply wp_all_bind; [apply operationID_spec|]. intros id. apply Hb. Qed.

Lemma listTargets_reads id target citus allow targets clusters evidence :
  id ≠ "" → target_ok target → Normalize target = target → Forall (λ t, Target_Validate t true = None) targets →
  Forall good_evidence evidence → targets ≠ [] ∨ evidence ≠ [] →
  reads (listTargets service id target citus allow targets clusters evidence).
Proof using Hclock.
  intros Hid Ht Hn Hts. revert clusters evidence. induction Hts as [|raw rest Hraw Hrest IH]; intros clusters evidence He Hne; cbn [listTargets].
  { apply wp_all_ret. rewrite <- Hn. apply settled_success; [done|by rewrite Hn|done|]. destruct Hne; by split. }
  cbv zeta. rewrite Target_Validate_Normalize, Hraw.
  destruct (citus && is_nil (tGroup (Normalize raw))).
  - eapply wp_all_bind; [by apply (citusGroupSnapshots_spec _ Hclock any_snapshot)|].
    intros [[failure ev]|[ss ev]] Hr.
    + apply wp_all_ret. apply (settled_failureResult service Hclock id Hid any_snapshot); try done; [auto with go|].
      destruct Hr as (? & ? & ?). split_and!; [done..|]. by apply Forall_app.
    + destruct Hr as (_ & _ & [Hev Hall]). apply IH; [by apply Forall_app|]. right. by destruct evidence.
  - apply wp_all_call. intros [err|s]; (split; [done|]).
    + pose proof (settled_read_failure (T := ListData) service Hclock id Hid "list" (Normalize raw) PathDCS "cluster snapshot failed" err evidence) as Hf.
      destruct (classifyReadError (Some err)). apply wp_all_ret, Hf; auto with go.
    + destruct (checkSnapshotPatroniVersion service s allow).
      * apply wp_all_ret. by apply settled_unsupported; auto with go.
      * apply IH; [|right; by destruct evidence]. apply Forall_app; split; [done|]. apply Forall_singleton. by apply good_snapshotEvidence.
Qed.

Lemma List_reads ctx request :
  Forall (λ t, Target_Validate t true = None) (lrTargets request) → reads (List service ctx request).
Proof using Hclock.
  intros Hts. apply reads_intro. intros id Hid. cbv zeta. destruct (aggregateTarget_ok _ Hts) as [Hok Hn].
  destruct ctx; cbn [negb]; [|by apply wp_all_ret, settled_failed].
  destruct (lrTargets request) as [|t rest] eqn:E; [by apply wp_all_ret, settled_failed|].
  apply listTargets_reads; try done. by left.
Qed.

Lemma clusterRead_reads {T} `{Zero T} ctx operation request finish :
  operation ≠ "" → Target_Validate (crTarget request) true = None →
  (∀ id snapshot, id ≠ "" → settled (T := T) (finish id (Normalize (crTarget request)) snapshot)) →
  reads (clusterRead service ctx operation request finish).
Proof using Hclock.
  intros Ho Ht Hf. apply reads_intro. intros id Hid. cbv zeta.
  destruct ctx; cbn [negb]; [|apply wp_all_ret, settled_failed; first [done | by auto with go | by apply app_not_empty_l]].
  rewrite Target_Validate_Normalize, Ht. apply wp_all_call. intros [err|s]; (split; [done|]).
  - pose proof (settled_read_failure (T := T) service Hclock id Hid operation (Normalize (crTarget request)) PathDCS "cluster snapshot failed" err []) as Hr.
    destruct (classifyReadError (Some err)). apply wp_all_ret, Hr; auto with go.
  - destruct (checkSnapshotPatroniVersion _ _ _); apply wp_all_ret; [|by apply Hf].
    apply settled_unsupported; auto with go.
Qed.

Lemma TopologyGroups_reads ctx request :
  Target_Validate (crTarget request) true = None → reads (TopologyGroups service ctx request).
Proof using Hclock.
  intros Ht. apply reads_intro. intros id Hid. cbv zeta.
  assert (target_ok (Normalize (crTarget request))) as Hok by auto with go.
  destruct ctx; cbn [negb]; [|by apply wp_all_ret, settled_failed].
  destruct (group_less_error _); [by apply wp_all_ret, settled_failed|].
  eapply wp_all_bind; [by apply (operationSnapshotsWith_spec _ Hclock any_snapshot)|].
  intros [failure|[ss ev]] Hr; apply wp_all_ret.
  - by apply (settled_failureResult service Hclock id Hid any_snapshot).
  - destruct Hr as (_ & _ & ?). by apply settled_success.
Qed.

Definition good_clusters (r : clusters_result) : Prop :=
  match r with
  | inl (failure, evidence) => good_snapshots any_snapshot (inl (failure, evidence))
  | inr (_, evidence) => good_log evidence
  end.

Lemma discoverLoop_reads operation target allow management items clusters evidence :
  operation ≠ "" → good_log evidence →
  wp_all read_only (discoverLoop service operation target allow management items clusters evidence) good_clusters.
Proof using Hclock.
  intros Ho. revert clusters evidence. induction items as [|item items IH]; intros clusters evidence He; cbn [discoverLoop].
  { by apply wp_all_ret. }
  cbv zeta. destruct (discovered_target_error _ _) as [err|]; [apply wp_all_ret; split_and!; [done..|apply He]|].
  assert (∀ s ev, good_log ev →
    wp_all read_only
      (match checkSnapshotPatroniVersion service s allow with
       | Some err =>
           mret (inl (mkDiscoveryFailure CategoryUnsupported false (operation +:+ " requires Patroni " +:+ supportedPatroniRangeText service) (Some err),
             ev ++ [compatibility_evidence service operation s]))
       | None => discoverLoop service operation target allow management items
           (clusters ++ [with_health (with_states (projectCluster s (Normalize (dcTarget item))) DiscoveryDiscovered management)
                           ReachabilityUnknown HealthUnknown]) ev
       end) good_clusters) as Hcont.
  { intros s ev Hev. destruct (checkSnapshotPatroniVersion service s allow); [|by apply IH].
    apply wp_all_ret. split_and!; [done|by apply app_not_empty_l|].
    apply Forall_app; split; [apply Hev|by apply Forall_singleton, good_compatibility]. }
  destruct (dcSnapshot item) as [s|].
  - destruct (_ !=s _); [apply wp_all_ret; split_and!; [done..|apply He]|by apply Hcont].
  - apply wp_all_call. intros [err|s]; (split; [done|]).
    + pose proof (classifyReadError_definite (Some err)) as Hd. destruct (classifyReadError _). apply wp_all_ret.
      split_and!; [apply Hd|done|apply He].
    + apply Hcont. apply good_log_app; [done|]. apply Forall_singleton. by apply good_snapshotEvidence.
Qed.

Lemma namespaceRead_reads {T} `{Zero T} ctx operation label invalid request management (finish : list model.Cluster → T) :
  operation ≠ "" → label ≠ "" → invalid ≠ "" →
  Target_Validate (discoveryTarget (drContext request) (drNamespace request)) false = None →
  reads (namespaceRead service ctx operation label invalid request management finish).
Proof using Hclock.
  intros Ho Hl Hi Ht. apply reads_intro. intros id Hid. cbv zeta. assert (target_ok (discoveryTarget (drContext request) (drNamespace request))) as Hok by auto with go.
  destruct ctx; cbn [negb]; [|apply wp_all_ret, settled_failed; first [done | by apply app_not_empty_l]].
  rewrite Ht. destruct (svcDiscovery service); cbn [negb]; [|apply wp_all_ret, settled_failed; first [done | by apply app_not_empty_l]].
  eapply wp_all_bind with (P := good_clusters).
  - unfold discoverClusters. apply wp_all_call. intros [err|items]; (split; [done|]).
    + pose proof (classifyReadError_definite (Some err)) as Hd. destruct (classifyReadError _). apply wp_all_ret. by split_and!.
    + apply discoverLoop_reads; [done|]. by apply good_log_singleton, good_discoveryEvidence.
  - intros [failure|[clusters ev]] Hr; apply wp_all_ret.
    + apply (settled_failureResult service Hclock id Hid any_snapshot); try done.
    + apply settled_success; done.
Qed.

Lemma versionMembers_reads id target allow members items evidence :
  id ≠ "" → target_ok (Normalize target) → good_log evidence →
  reads (versionMembers service id (Normalize target) allow members items evidence).
Proof using Hclock.
  intros Hid Ht He. revert items. induction members as [|[s m] rest IH]; intros items; cbn [versionMembers].
  { apply wp_all_ret. by apply settled_success. }
  cbv zeta. destruct (patroniBaseURL _); [|apply IH]. apply wp_all_call. intros r. split; [done|].
  destruct (version_item _ _ _ _ _); [|apply IH]. apply wp_all_ret. by apply settled_unsupported.
Qed.

Lemma Version_reads ctx request :
  tScope (Normalize (vrTarget request)) = "" ∨ Target_Validate (vrTarget request) true = None →
  target_ok (vrTarget request) → reads (Version service ctx request).
Proof using Hclock.
  intros Ht Hok. apply reads_intro. intros id Hid. cbv zeta.
  assert (target_ok (Normalize (vrTarget request))) as Hok' by auto with go.
  set (localEvidence := mkEvidence EvidenceLocal _ _ _ _ _).
  assert (good_evidence localEvidence) as Hl by by apply good_mkEvidence.
  destruct ctx; cbn [negb]; [|by apply wp_all_ret, settled_failed].
  destruct (String.eqb_spec (tScope (Normalize (vrTarget request))) "") as [Hs|Hs].
  { apply wp_all_ret, settled_success; try done. by apply good_log_singleton. }
  destruct Ht as [|Ht]; [done|]. rewrite Target_Validate_Normalize, Ht.
  destruct (svcPatroni service); cbn [negb]; [|apply wp_all_ret, settled_failed; first [done | by apply Forall_singleton]].
  eapply wp_all_bind; [by apply (operationSnapshotsWith_spec _ Hclock any_snapshot)|].
  intros [[failure ev]|[ss ev]] Hr.
  - apply wp_all_ret. apply (settled_failureResult service Hclock id Hid any_snapshot); try done.
    destruct Hr as (? & ? & ?). split_and!; [done..|]. by constructor.
  - destruct Hr as (_ & _ & [_ Hev]). apply versionMembers_reads; try done. split; [done|]. by constructor.
Qed.
End reads.

(** ** Lemmas: the selected member *)

(** The member that a selector picks. *)
Definition picked (cluster : ClusterState) (role : Role) (name : string) (member : Dcs.Member) : Prop :=
  member ∈ csMembers cluster ∧
  if name ==s "" then memberMatchesRole cluster member role = true else mbName member = name.

Lemma selectMember_picked cluster role name member :
  Role_empty role = false ∨ name ≠ "" → selectMember cluster role name = Some member → picked cluster role name member.
Proof.
  intros Hr. unfold selectMember, picked. destruct (String.eqb_spec name "") as [->|Hne]; cbn [negb].
  - cbv zeta. destruct Hr as [Hr|]; [|done]. rewrite Hr. by intros [? ?]%find_first_Some.
  - intros [Hin Hn]%find_first_Some. go_bool. done.
Qed.

Lemma selectAcross_picked snapshots role name snapshot member :
  Role_empty role = false ∨ name ≠ "" → selectMemberAcrossSnapshots snapshots role name = Some (snapshot, member) →
  snapshot ∈ snapshots ∧ picked (snCluster snapshot) role name member.
Proof.
  intros Hr. induction snapshots as [|s rest IH]; cbn [selectMemberAcrossSnapshots]; [done|].
  destruct (selectMember _ _ _) as [m|] eqn:E.
  - intros [= <- <-]. split; [apply list_elem_of_here|by apply selectMember_picked].
  - intros [? ?]%IH. split; [by apply list_elem_of_further|done].
Qed.

Lemma selected_role_not_empty role name : Role_empty (selected_role role name) = false ∨ name ≠ "".
Proof.
  unfold selected_role. destruct (Role_empty role) eqn:E; cbn [andb]; [|by left].
  destruct (String.eqb_spec name ""); [by left|by right].
Qed.

Section selection.
Context `{GoStd} (service : Service) (Hclock : clock_set service).

(** What one read of snapshots gives. *)
Lemma operationSnapshots_read operation target citus allow :
  operation ≠ "" →
  wp (operationSnapshots service operation target citus allow)
    (λ tr r, Forall read_only tr ∧ good_snapshots (λ s, checkSnapshotPatroniVersion service s allow = None) r ∧ all_seen tr r).
Proof using Hclock.
  intros Ho. eapply wp_mono; [|apply wp_and; [by apply (operationSnapshotsWith_spec _ Hclock (λ s, checkSnapshotPatroniVersion service s allow = None))|
    by apply operationSnapshotsWith_seen]]. cbv beta. intros tr r [[? ?] ?]. done.
Qed.

(** What a role asks of the session. *)
Definition role_checked (role : Role) (expectation : RecoveryExpectation) : Prop :=
  (role = RolePrimary → expectation = RecoveryPrimary) ∧
  (role = RoleReplica ∨ role = RoleStandby ∨ role = RoleStandbyLeader → expectation = RecoveryStandby).

(** The statement a query sends, after the reads [pre]. *)
Definition statement_sent (request : QueryRequest) (pre : list event) (e : event) (r : Result QueryData) : Prop :=
  ∃ name snapshot member host port expectation reply,
    let role := selected_role (qrRole request) name in
    let application := if coApplicationName (qrConnection request) ==s "" then "Patroni ctl"
                       else coApplicationName (qrConnection request) in
    member_selector (Normalize (qrTarget request)) (qrMember request) = Some name ∧
    e = Ev (CQueryChecked (connect_to (qrConnection request) host port application) expectation
              (pg.mkQueryRequest (qrSQL request) (qrLimits request))) reply ∧
    seen pre snapshot ∧ version_gated service snapshot ∧ picked (snCluster snapshot) role name member ∧
    postgresAddress (mdConnURL (mbData member)) = (host, port, None) ∧ (name = "" → role_checked role expectation) ∧
    (rOutcome r = Succeeded → qdError (rData r) = None →
     reply.2 = None ∧ qdResult (rData r) = reply.1 ∧ qdMember (rData r) = mbName member).

(** No statement was sent, and no rows are shown. *)
Definition no_statement (tr : list event) (r : Result QueryData) : Prop :=
  Forall read_only tr ∧ (rOutcome r = Failed ∨ rOutcome r = Succeeded ∧ qdError (rData r) ≠ None).

Definition query_post (request : QueryRequest) (tr : list event) (r : Result QueryData) : Prop :=
  no_statement tr r ∨ ∃ pre e, tr = pre ++ [e] ∧ Forall read_only pre ∧ statement_sent request pre e r.

Lemma query_failed_shows id target member role err evidence :
  let r := query_failed service id target member role err evidence in
  rOutcome r = Failed ∨ rOutcome r = Succeeded ∧ qdError (rData r) ≠ None.
Proof using Type.
  cbv zeta. unfold query_failed. cbv zeta. destruct (as_postgres _) as [[kind sqlState]|]; [|by right]. destruct kind; by (left + right).
Qed.

Lemma query_expectation_checks role name : name = "" → role_checked role (query_expectation role name).
Proof using Type. intros ->. split; [by intros ->|]. by intros [->|[->| ->]]. Qed.

Lemma Query_spec ctx request : wp (Query service ctx request) (query_post request).
Proof using Hclock.
  apply wp_bind. eapply wp_mono; [|apply operationID_spec]. intros tr0 id [Htr0 _].
  assert (∀ target category message cause,
    query_post request (tr0 ++ []) (failedRead service id "query" target PathPostgres category false message cause [])) as Hfail.
  { intros. rewrite app_nil_r. left. split; [done|by left]. }
  cbv zeta. destruct (member_selector _ _) as [name|] eqn:Ename; [|apply Hfail].
  destruct ctx; cbn [negb]; [|apply Hfail]. destruct (Target_Validate _ _); [apply Hfail|].
  destruct (Role_validOrEmpty _); cbn [negb]; [|apply Hfail]. destruct (_ && _); [apply Hfail|].
  destruct (svcPostgres service); cbn [negb]; [|apply Hfail].
  apply wp_bind. eapply wp_mono; [|by apply operationSnapshots_read]. intros tr [failure|[ss ev]] (Htr & Hs & Hseen).
  { left. rewrite app_nil_r. split; [by apply Forall_app|by left]. }
  destruct Hs as (_ & Hgate & _). cbn [all_seen] in Hseen.
  destruct (selectMemberAcrossSnapshots _ _ _) as [[s m]|] eqn:Es.
  2:{ left. rewrite app_nil_r. split; [by apply Forall_app|by right]. }
  apply selectAcross_picked in Es as [Hin Hpicked]; [|apply selected_role_not_empty].
  rewrite Forall_forall in Hgate, Hseen. specialize (Hgate s Hin). specialize (Hseen s Hin).
  unfold queryMember. destruct (postgresAddress _) as [[host port] err] eqn:Ea.
  destruct err as [err|]; cbn [is_nil negb].
  { left. rewrite app_nil_r. split; [by apply Forall_app|by right]. }
  cbv zeta. apply wp_call. intros [result err]. right. exists (tr0 ++ tr). eexists. split; [by rewrite <- app_assoc|].
  split; [by apply Forall_app|]. 
  exists name, s, m, host, port, (query_expectation (selected_role (qrRole request) name) name), (result, err). cbv zeta. split; [done|]. split; [done|].
  split; [by apply seen_app; right|]. do 3 (split; [done|]). split; [apply query_expectation_checks|]. destruct err as [err|]; [|done]. intros H1 H2.
  pose proof (query_failed_shows id (with_member (Normalize (snTarget s)) (mbName m)) (mbName m) (selected_role (qrRole request) name) err
    (ev ++ [mkEvidence EvidencePostgres (svcNow service) "PostgreSQL query attempt completed" "" (Path_text PathPostgres) (SendRaw "")])) as Hq.
  cbv zeta in Hq. rewrite H1 in Hq. by destruct Hq as [|[_ ?]].
Qed.

(** What a connection string was read from. *)
Definition dsn_post (request : DSNRequest) (tr : list event) (r : Result DSNData) : Prop :=
  Forall read_only tr ∧
  (rOutcome r = Failed ∧ rData r = zero ∨
   rOutcome r = Succeeded ∧ ∃ name snapshot member,
     member_selector (Normalize (dsnTarget request)) (dsnMember request) = Some name ∧
     seen tr snapshot ∧ checkSnapshotPatroniVersion service snapshot (dsnAllowUnsupportedRead request) = None ∧
     picked (snCluster snapshot) (selected_role (dsnRole request) name) name member ∧
     postgresAddress (mdConnURL (mbData member)) = (ddHost (rData r), ddPort (rData r), None) ∧
     ddMember (rData r) = mbName member ∧ ddTarget (rData r) = with_member (Normalize (snTarget snapshot)) (mbName member)).

Lemma DSN_spec ctx request : wp (DSN service ctx request) (dsn_post request).
Proof using Hclock.
  apply wp_bind. eapply wp_mono; [|apply operationID_spec]. intros tr0 id [Htr0 _].
  assert (∀ tr target category message cause evidence, Forall read_only tr →
    dsn_post request (tr ++ []) (failedReadWithEvidence service id "dsn" target PathDCS category false message cause evidence)) as Hfail.
  { intros. rewrite app_nil_r. split; [done|by left]. }
  cbv zeta. destruct (member_selector _ _) as [name|] eqn:Ename; [|by apply Hfail].
  destruct ctx; cbn [negb]; [|by apply Hfail]. destruct (Target_Validate _ _); [by apply Hfail|].
  destruct (Role_validOrEmpty _); cbn [negb]; [|by apply Hfail]. destruct (_ && _); [by apply Hfail|].
  apply wp_bind. eapply wp_mono; [|by apply operationSnapshots_read]. intros tr r (Htr & Hs & Hseen).
  assert (Forall read_only (tr0 ++ tr)) as Hall by by apply Forall_app.
  destruct r as [failure|[ss ev]].
  { cbn [wp mret prog_ret]. rewrite app_nil_r. split; [done|by left]. }
  destruct Hs as (_ & Hgate & _). cbn [all_seen] in Hseen.
  assert (∀ target category message cause evidence,
    dsn_post request (tr0 ++ tr ++ []) (failedReadWithEvidence service id "dsn" target PathDCS category false message cause evidence)) as Hfail'.
  { intros. rewrite app_nil_r. split; [done|by left]. }
  destruct (selectMemberAcrossSnapshots _ _ _) as [[s m]|] eqn:Es; [|apply Hfail'].
  apply selectAcross_picked in Es as [Hin Hpicked]; [|apply selected_role_not_empty].
  rewrite Forall_forall in Hgate, Hseen. specialize (Hgate s Hin). specialize (Hseen s Hin).
  destruct (postgresAddress _) as [[host port] err] eqn:Ea. destruct err as [err|]; cbn [is_nil negb]; [apply Hfail'|].
  cbv zeta. cbn [wp mret prog_ret]. rewrite app_nil_r. split; [done|]. right. split; [done|]. exists name, s, m.
  split; [done|]. split; [by apply seen_app; right|]. done.
Qed.
End selection.

(** ** Lemmas: listing a namespace *)

(** The calls that only make an operation identifier. *)
Definition identifies (e : event) : Prop :=
  match ev_call e with CNewOperationID | CRandomBytes => True | _ => False end.

Lemma operationID_events : wp_all identifies operationID (λ id, id ≠ "").
Proof.
  unfold operationID. apply wp_all_call. intros value. split; [done|].
  destruct (String.eqb_spec (TrimSpace value) ""); cbn [negb]; [|by apply wp_all_ret].
  unfold randomOperationID. apply wp_all_call. intros bytes. split; [done|]. apply wp_all_ret. by apply app_not_empty_l.
Qed.

(** A snapshot reader that answers with the cluster it was asked for. *)
Definition honest_snapshot (e : event) : Prop :=
  match e with
  | Ev c r =>
      match c return reply c → Prop with
      | CSnapshot target => λ r, ∀ snapshot, r = inr snapshot → ClusterID (snTarget snapshot) = ClusterID target
      | _ => λ _, True
      end r
  end.

Definition is_snapshot (e : event) : bool := match ev_call e with CSnapshot _ => true | _ => false end.

Definition snapshot_reads (tr : list event) : nat := length (List.filter is_snapshot tr).

Lemma snapshot_reads_app tr tr' : snapshot_reads (tr ++ tr') = (snapshot_reads tr + snapshot_reads tr')%nat.
Proof. unfold snapshot_reads. by rewrite List.filter_app, length_app. Qed.

Lemma identifies_no_snapshot tr : Forall identifies tr → snapshot_reads tr = 0%nat.
Proof.
  induction 1 as [|e tr He Htr IH]; [done|]. unfold snapshot_reads in *. cbn [List.filter].
  destruct e as [c r]. unfold is_snapshot, identifies in *. cbn in *. by destruct c.
Qed.

(** The items a discovery has to read one by one. *)
Definition without_snapshot (items : list DiscoveredCluster) : nat := length (List.filter (λ item, is_nil (dcSnapshot item)) items).

(** The order of a listing. *)
Definition target_le (left right : DiscoveredCluster) : Prop := targetLess (dcTarget right) (dcTarget left) = false.

Lemma not_ltb_iff x y : String.ltb y x = false ↔ String.le x y.
Proof.
  split; [apply not_ltb_le|]. intros Hle. destruct (String.ltb y x) eqn:E; [|done].
  assert (x = y) as -> by (apply (anti_symm String.le); [done|by apply ltb_le]).
  unfold String.ltb in E. pose proof (String.compare_antisym y y) as Hy. by destruct (String.compare y y).
Qed.

#[export] Instance target_le_trans : Transitive target_le.
Proof.
  intros a b c. unfold target_le, targetLess. cbv zeta.
  generalize (group_or_minus_one (Normalize (dcTarget a))) (group_or_minus_one (Normalize (dcTarget b)))
    (group_or_minus_one (Normalize (dcTarget c))) (tScope (Normalize (dcTarget a))) (tScope (Normalize (dcTarget b)))
    (tScope (Normalize (dcTarget c))). intros g h k x y z.
  destruct (String.eqb_spec y x) as [Hyx|Hyx], (String.eqb_spec z y) as [Hzy|Hzy]; subst; cbn [negb];
    rewrite ?Z.ltb_ge, ?not_ltb_iff; intros H1 H2.
  - rewrite String.eqb_refl. cbn [negb]. rewrite Z.ltb_ge. lia.
  - rewrite (proj2 (String.eqb_neq _ _) Hzy). cbn [negb]. by rewrite not_ltb_iff.
  - rewrite (proj2 (String.eqb_neq _ _) Hyx). cbn [negb]. by rewrite not_ltb_iff.
  - destruct (String.eqb_spec z x) as [->|Hzx]; cbn [negb]; [|rewrite not_ltb_iff; by etrans].
    destruct Hyx. by apply (anti_symm String.le).
Qed.

Section namespace.
Context `{GoStd} (service : Service) (target : Target) (management : ManagementState).

(** A discovered cluster as the listing shows it. *)
Definition shown (item : DiscoveredCluster) (cluster : model.Cluster) : Prop :=
  ClusterID (model.cTarget cluster) = ClusterID (dcTarget item) ∧
  ∃ snapshot, ClusterID (snTarget snapshot) = ClusterID (dcTarget item) ∧ (∀ s, dcSnapshot item = Some s → snapshot = s) ∧
    cluster = with_health (with_states (projectCluster snapshot (Normalize (dcTarget item))) DiscoveryDiscovered management)
                ReachabilityUnknown HealthUnknown.

Definition inside (item : DiscoveredCluster) : Prop :=
  let t := Normalize (dcTarget item) in
  Target_Validate t true = None ∧ tContext t = tContext target ∧ tNamespace t = tNamespace target ∧ tMember t = "".

Lemma discovered_target_inside item : discovered_target_error target (Normalize (dcTarget item)) = None → inside item.
Proof using Type.
  unfold discovered_target_error, inside. cbv zeta. destruct (Target_Validate _ _); [done|].
  destruct (_ || _) eqn:E; [done|]. intros _. go_bool. done.
Qed.

Lemma projectCluster_target snapshot item :
  ClusterID (snTarget snapshot) = ClusterID (dcTarget item) →
  ClusterID (model.cTarget (projectCluster snapshot (Normalize (dcTarget item)))) = ClusterID (dcTarget item).
Proof using Type.
  intros Hid. unfold projectCluster. cbv zeta. cbn [model.cTarget]. destruct (_ ==s ""); by rewrite !ClusterID_Normalize.
Qed.

Lemma discoverLoop_shows operation allow items clusters evidence :
  wp (discoverLoop service operation target allow management items clusters evidence)
    (λ tr r, Forall honest_snapshot tr →
       match r with
       | inl _ => True
       | inr (out, _) => ∃ more, out = clusters ++ more ∧ Forall2 shown items more ∧ Forall inside items ∧
                           snapshot_reads tr = without_snapshot items
       end).
Proof using Type.
  revert clusters evidence. induction items as [|item items IH]; intros clusters evidence; cbn [discoverLoop].
  { intros _. exists []. rewrite app_nil_r. by repeat constructor. }
  cbv zeta. destruct (discovered_target_error _ _) as [err|] eqn:Eerr; [done|]. apply discovered_target_inside in Eerr.
  assert (∀ s ev n, ClusterID (snTarget s) = ClusterID (dcTarget item) → (∀ s', dcSnapshot item = Some s' → s = s') →
    n = (if is_nil (dcSnapshot item) then 1 else 0)%nat →
    wp (match checkSnapshotPatroniVersion service s allow with
        | Some err =>
            mret (inl (mkDiscoveryFailure CategoryUnsupported false (operation +:+ " requires Patroni " +:+ supportedPatroniRangeText service) (Some err),
              ev ++ [compatibility_evidence service operation s]))
        | None => discoverLoop service operation target allow management items
            (clusters ++ [with_health (with_states (projectCluster s (Normalize (dcTarget item))) DiscoveryDiscovered management)
                            ReachabilityUnknown HealthUnknown]) ev
        end)
      (λ tr r, Forall honest_snapshot tr →
       match r with
       | inl _ => True
       | inr (out, _) => ∃ more, out = clusters ++ more ∧ Forall2 shown (item :: items) more ∧ Forall inside (item :: items) ∧
                           (n + snapshot_reads tr)%nat = without_snapshot (item :: items)
       end)) as Hcont.
  { intros s ev n Hs Hsame ->. destruct (checkSnapshotPatroniVersion service s allow); [done|].
    eapply wp_mono; [|apply IH]. cbv beta. intros tr r Hr Htr. specialize (Hr Htr). destruct r as [|[out ev']]; [done|].
    destruct Hr as (more & -> & Hm & Hi & Hn). rewrite <- app_assoc. eexists (_ :: more). split; [done|]. split; [|split].
    - constructor; [|done]. split; [by apply projectCluster_target|]. by exists s.
    - by constructor.
    - unfold without_snapshot in *. cbn [List.filter]. rewrite Hn. by destruct (dcSnapshot item). }
  destruct (dcSnapshot item) as [s|] eqn:Esnap.
  - destruct (String.eqb_spec (ClusterID (Normalize (snTarget s))) (ClusterID (Normalize (dcTarget item)))) as [Hid|]; [|done].
    rewrite !ClusterID_Normalize in Hid. cbn [negb]. apply (Hcont s evidence 0%nat); [done|by intros ? [= <-]|done].
  - apply wp_call. intros [err|s]; [by destruct (classifyReadError _)|].
    destruct (decide (ClusterID (snTarget s) = ClusterID (dcTarget item))) as [Hid|Hid].
    + eapply wp_mono; [|by apply (Hcont s _ 1%nat)]. cbv beta. intros tr r Hr [_ Htr]%Forall_cons. by apply Hr.
    + apply wp_runs. intros tr r _ [Hh _]%Forall_cons. destruct Hid. rewrite <- (ClusterID_Normalize (dcTarget item)). by apply Hh.
Qed.
End namespace.

Section listings.
Context `{GoStd} (service : Service).

(** A listing that succeeds against an honest snapshot reader shows what one
    discovery returned: every item once, in order, inside the namespace asked
    for, and reads one by one only the items that came without a snapshot. *)
Definition namespace_listing {T} (request : DiscoverRequest) (management : ManagementState) (finish : list model.Cluster → T)
    (tr : list event) (r : Result T) : Prop :=
  let target := discoveryTarget (drContext request) (drNamespace request) in
  Forall honest_snapshot tr → rOutcome r = Succeeded →
  ∃ items sorted clusters,
    Ev (CDiscover (tContext target) (tNamespace target)) (inr items) ∈ tr ∧
    sorted ≡ₚ items ∧ StronglySorted target_le sorted ∧ Forall (inside target) sorted ∧
    Forall2 (shown management) sorted clusters ∧ rData r = finish clusters ∧
    snapshot_reads tr = without_snapshot items.

Lemma without_snapshot_perm items items' : items ≡ₚ items' → without_snapshot items = without_snapshot items'.
Proof using Type.
  intros Hp. unfold without_snapshot. apply Permutation_length. induction Hp; cbn [List.filter]; repeat case_match; try done;
    eauto using Permutation_trans, perm_skip, perm_swap.
Qed.

Lemma namespaceRead_listing {T} `{Zero T} ctx operation label invalid request management (finish : list model.Cluster → T) :
  wp (namespaceRead service ctx operation label invalid request management finish) (namespace_listing request management finish).
Proof using Type.
  apply wp_bind. eapply wp_mono; [|apply operationID_events]. intros tr0 id [Htr0 _]. cbv zeta.
  set (target := discoveryTarget _ _).
  destruct ctx; cbn [negb]; [|by intros _]. destruct (Target_Validate _ _); [by intros _|].
  destruct (svcDiscovery service); cbn [negb]; [|by intros _].
  apply wp_bind. unfold discoverClusters. apply wp_call. intros [err|items]; [destruct (classifyReadError _); by intros _|].
  cbv zeta. set (sorted := sort_stable _ items).
  assert (sorted ≡ₚ items) as Hsorted by apply sort_stable_perm.
  eapply wp_mono; [|apply discoverLoop_shows]. intros tr r Hr. cbn [wp mret prog_ret]. rewrite app_nil_r. fold target.
  intros Hh Hout. apply Forall_app in Hh as [_ [_ Hh]%Forall_cons]. specialize (Hr Hh). destruct r as [|[out ev]]; [done|].
  destruct Hr as (more & -> & Hm & Hi & Hn). exists items, sorted, more.
  split; [apply elem_of_app; right; apply list_elem_of_here|]. split; [done|]. split; [|split; [done|split; [done|split; [done|]]]].
  - apply sort_stable_sorted; [apply _| |done]. unfold target_le. intros x y Hxy. unfold targetLess in *. cbv zeta in *.
    destruct (String.eqb_spec (tScope (Normalize (dcTarget x))) (tScope (Normalize (dcTarget y)))) as [E|E]; cbn [negb] in Hxy.
    + rewrite E, String.eqb_refl. cbn [negb]. rewrite Z.ltb_ge. apply Z.ltb_lt in Hxy. lia.
    + rewrite (proj2 (String.eqb_neq _ _)) by congruence. cbn [negb]. apply not_ltb_iff. by apply ltb_le.
  - rewrite snapshot_reads_app, identifies_no_snapshot by done. cbn. fold (snapshot_reads tr). by rewrite Hn, (without_snapshot_perm _ _ Hsorted).
Qed.

(** ** Lemmas: versions *)

(** An item of the report: a version counts only with a success status, and,
    unless unsupported versions are allowed, inside the supported range. *)
Definition good_item (allow : bool) (item : MemberVersion) : Prop :=
  mvError item = None →
  (200 <= mvHTTPStatus item < 300)%Z ∧ (allow = false → checkPatroniVersion service (mvPatroniVersion item) = None).

Lemma version_item_good allow target response callErr item :
  version_item service allow target response callErr = inr item → mvTarget item = target ∧ good_item allow item.
Proof using Type.
  unfold version_item, good_item. destruct callErr as [err|].
  { destruct (classifyReadError _). by intros [= <-]. }
  destruct (_ || _) eqn:E; [destruct (classifyHTTPStatus _); by intros [= <-]|].
  apply orb_false_iff in E as [E1 E2]. apply Z.ltb_ge in E1. apply Z.leb_gt in E2.
  destruct allow; [by intros [= <-]|]. destruct (checkPatroniVersion _ _) eqn:Ec; [done|]. by intros [= <-].
Qed.

Definition version_target (sm : Snapshot * Dcs.Member) : Target := with_member (Normalize (snTarget sm.1)) (mbName sm.2).

Lemma versionMembers_items id target allow members items evidence :
  returns (versionMembers service id target allow members items evidence)
    (λ r, rOutcome r = Succeeded → ∃ more, vdMembers (rData r) = items ++ more ∧ vdProductVersion (rData r) = svcProductVersion service ∧
       mvTarget <$> more = version_target <$> members ∧ Forall (good_item allow) more).
Proof using Type.
  revert items. induction members as [|[s m] rest IH]; intros items; cbn [versionMembers].
  { apply returns_ret. intros _. exists []. by rewrite app_nil_r. }
  assert (∀ item, mvTarget item = version_target (s, m) → good_item allow item →
    returns (versionMembers service id target allow rest (items ++ [item]) evidence)
      (λ r, rOutcome r = Succeeded → ∃ more, vdMembers (rData r) = items ++ more ∧ vdProductVersion (rData r) = svcProductVersion service ∧
       mvTarget <$> more = version_target <$> (s, m) :: rest ∧ Forall (good_item allow) more)) as Hcont.
  { intros item Ht Hi. eapply returns_mono; [|apply IH]. cbv beta. intros r Hr Hout. destruct (Hr Hout) as (more & Hm & Hp & Hts & Hg).
    exists (item :: more). rewrite Hm, <- app_assoc. split; [done|]. split; [done|]. split; [|by constructor].
    cbn [fmap list_fmap] in *. by rewrite Ht, Hts. }
  cbv zeta. destruct (patroniBaseURL _); [|by apply Hcont]. apply returns_call. intros r.
  destruct (version_item _ _ _ _ _) eqn:E; [by apply returns_ret|]. apply version_item_good in E as [? ?]. by apply Hcont.
Qed.

(** What a version report promises. *)
Definition version_report (request : VersionRequest) (tr : list event) (r : Result VersionData) : Prop :=
  rOutcome r = Succeeded →
  vdProductVersion (rData r) = svcProductVersion service ∧
  if tScope (Normalize (vrTarget request)) ==s "" then Forall identifies tr ∧ vdMembers (rData r) = []
  else ∃ snapshots,
    snapshots ≠ [] ∧ Forall (seen tr) snapshots ∧
    mvTarget <$> vdMembers (rData r) = version_target <$> version_members (vrMembers request) snapshots ∧
    Forall (good_item (vrAllowUnsupportedRead request)) (vdMembers (rData r)).

Lemma Version_spec (Hclock : clock_set service) ctx request : wp (Version service ctx request) (version_report request).
Proof using Type.
  apply wp_bind. eapply wp_mono; [|apply operationID_events]. intros tr0 id [Htr0 _]. cbv zeta.
  destruct ctx; cbn [negb]; [|done]. unfold version_report.
  destruct (tScope (Normalize (vrTarget request)) ==s "").
  { intros _. rewrite app_nil_r. done. }
  destruct (Target_Validate _ _); [done|]. destruct (svcPatroni service); cbn [negb]; [|done].
  apply wp_bind. eapply wp_mono.
  2:{ apply wp_and; [by apply (operationSnapshotsWith_spec _ Hclock any_snapshot)|apply operationSnapshotsWith_seen]. }
  intros tr1 [[failure ev]|[ss ev]] [[_ Hs] Hseen]; [done|]. destruct Hs as (Hne & _). cbn [all_seen] in Hseen.
  eapply wp_mono; [|apply versionMembers_items]. cbv beta. intros tr2 r Hr Hout. destruct (Hr Hout) as (more & Hm & Hp & Ht & Hg).
  cbn [app] in Hm. rewrite Hm. split; [done|]. exists ss. split; [done|]. split; [|done].
  eapply Forall_impl; [exact Hseen|]. intros s Hsn. apply seen_app. right. apply seen_app. by left.
Qed.
End listings.

(** ** Properties *)

(** No read asks the cluster to change, and every read of a valid target ends in a valid result that either succeeds,
    or fails and shows nothing: for lists, topologies, groups, configuration, history and versions, of one cluster or of
    a namespace. *)
Theorem reads_are_read_only `{GoStd} (service : Service) (ctx : bool) :
  clock_set service →
  (∀ request, Forall (λ t, Target_Validate t true = None) (lrTargets request) → reads (List service ctx request)) ∧
  (∀ request, Target_Validate (crTarget request) true = None →
     reads (Topology service ctx request) ∧ reads (TopologyGroups service ctx request) ∧
     reads (ShowConfig service ctx request) ∧ reads (History service ctx request)) ∧
  (∀ request, Target_Validate (discoveryTarget (drContext request) (drNamespace request)) false = None →
     reads (Discover service ctx request) ∧ reads (ListAll service ctx request) ∧ reads (TopologyAll service ctx request)) ∧
  (∀ request, Target_Validate (vrTarget request) (tScope (Normalize (vrTarget request)) !=s "") = None →
     reads (Version service ctx request)).
Proof.
  intros Hclock. split; [|split; [|split]].
  - intros request Ht. by apply List_reads.
  - intros request Ht. assert (target_ok (Normalize (crTarget request))) as Hok by auto with go.
    assert (∀ summary snapshot, summary ≠ "" → good_log [snapshotEvidence service snapshot summary]) as Hev
      by (intros; by apply good_log_singleton, good_snapshotEvidence).
    split; [|split; [by apply TopologyGroups_reads|split]]; apply clusterRead_reads; try done; intros id snapshot Hid;
      [apply settled_success; auto..|].
    cbv zeta. destruct (normalizeHistory _); [|apply settled_success; auto].
    apply settled_failed; try done. by apply Hev.
  - intros request Ht. split; [|split]; by apply namespaceRead_reads.
  - intros request Ht. apply Version_reads; [done| |done]. destruct (String.eqb_spec (tScope (Normalize (vrTarget request))) ""); [by left|by right].
Qed.

Lemma reads_are_read_only_witness :
  reads (List sample_service true (mkListRequest [sample_target; mkTarget "prod" "/service" "other" None ""] false false)) ∧
  reads (Version sample_service true (mkVersionRequest zero [] false false)).
Proof.
  split.
  - refine (proj1 (reads_are_read_only sample_service true eq_refl) _ _). apply (bool_decide_unpack _). by vm_compute.
  - refine (proj2 (proj2 (proj2 (reads_are_read_only sample_service true eq_refl))) _ _). by vm_compute.
Defined.


(** Addresses of two schemes. *)
Definition pg_std : GoStd := {|
  url_Parse := λ raw, if HasPrefix raw "postgres://"
                      then Some (mkURL "postgres" false (TrimPrefix raw "postgres://") "" "" "" "") else sample_parse raw;
  URL_String := λ u, urlScheme u +:+ "://" +:+ urlHost u;
  URL_Hostname := urlHost;
  URL_Port := λ _, "";
  ParseFloat := λ _, None;
  ParseDuration := λ _, None;
  Sprint_float := λ _, "";
  url_CutQuery := λ s, Some (s, "");
  Query_Get := λ _ _, "";
  json_float := λ _, None;
  hmac_sha256 := λ _ message, message;
  Sprint_composite := λ _, ""
|}.

Definition pg_member (name role : string) : Dcs.Member :=
  mkMember name 5 0 (mkMemberData "" ("postgres://" +:+ name) "running" role "" None None [] RawEmpty [] "4.0.2" None None None None []).

Definition pg_snapshot (scope : string) : Snapshot :=
  mkSnapshot (mkTarget "prod" "/service" scope None "") "/service/pg" 7 []
    (mkClusterState "id" [] (Some (mkLeader "n1" 3 0)) [pg_member "n1" "primary"; pg_member "n2" "replica"] None []
      (mkStatus KeyUnknown 0 [] []) (mkSyncState 0 "" [] 0) []) [].

Definition pg_oracle (items : list DiscoveredCluster) (tr : list event) (c : call) : reply c :=
  match c return reply c with
  | CDiscover _ _ => inr items
  | c => answers (pg_snapshot "pg") (pg_snapshot "pg") silence applied tr c
  end.

Definition replica_query : QueryRequest := mkQueryRequest sample_target RoleReplica "" false zero "select 1" zero.


(** A connection is shown only for a member that the read itself shows, past the version gate, to have the name or to
    play the role asked for: the host and port are those of its connection address. *)
Theorem DSN_selects `{GoStd} (service : Service) (ctx : bool) (request : DSNRequest) (tr : list event) (r : Result DSNData) :
  clock_set service → runs (DSN service ctx request) tr r → dsn_post service request tr r.
Proof. intros Hclock Hr. exact (proj1 (wp_runs _ _) (DSN_spec service Hclock ctx request) tr r Hr). Qed.

Definition leader_dsn : DSNRequest := mkDSNRequest sample_target (RoleRaw "") "" false false.

Lemma DSN_selects_witness :
  let run := run (pg_oracle []) [] (@DSN pg_std sample_service true leader_dsn) in
  DSNData_String (rData run.2) = "host=n1 port=5432" ∧ @dsn_post pg_std sample_service leader_dsn run.1 run.2.
Proof.
  cbv zeta. split; [by vm_compute|].
  destruct (run_runs (pg_oracle []) [] (@DSN pg_std sample_service true leader_dsn)) as (tr & -> & Hr).
  exact (@DSN_selects pg_std sample_service true leader_dsn tr _ eq_refl Hr).
Defined.

(** The three listings of a namespace show what one discovery returned, each cluster once, ordered by scope and
    group, all inside the context and namespace asked for and projected from their own snapshot; a snapshot is read only
    for an item that came without one, once.  This is against a snapshot reader that answers with the cluster it was
    asked for. *)
Theorem namespace_listings `{GoStd} (service : Service) (ctx : bool) (request : DiscoverRequest) :
  wp (Discover service ctx request)
    (namespace_listing request ManagementUnmanaged (λ clusters, mkDiscoverData (cluster_summary <$> clusters))) ∧
  wp (ListAll service ctx request) (namespace_listing request ManagementAllSelected mkListData) ∧
  wp (TopologyAll service ctx request)
    (namespace_listing request ManagementAllSelected
       (λ clusters, mkTopologyListData ((λ cluster, mkTopologyData cluster (topologyMembers cluster)) <$> clusters))).
Proof. split; [|split]; apply namespaceRead_listing. Qed.

(** A version report without a scope contacts nothing; with one it covers exactly the addressable members asked for,
    each once and in the order of the snapshots it read, and a version is shown only with a success status and, unless
    unsupported versions are allowed, inside the supported range. *)
Theorem Version_reports `{GoStd} (service : Service) (ctx : bool) (request : VersionRequest) (tr : list event)
    (r : Result VersionData) :
  clock_set service → runs (Version service ctx request) tr r → version_report service request tr r.
Proof. intros Hclock Hr. exact (proj1 (wp_runs _ _) (Version_spec service Hclock ctx request) tr r Hr). Qed.

Definition version_request : VersionRequest := mkVersionRequest sample_target ["n2"] false false.

Lemma Version_reports_witness :
  let run := run (answers steady steady (status 200) applied) [] (Version sample_service true version_request) in
  vdMembers (rData run.2) = [mkMemberVersion (with_member sample_target "n2") "4.0.2" "17.5" 200 None] ∧
  version_report sample_service version_request run.1 run.2.
Proof.
  cbv zeta. split; [by vm_compute|].
  destruct (run_runs (answers steady steady (status 200) applied) [] (Version sample_service true version_request)) as (tr & -> & Hr).
  exact (Version_reports sample_service true version_request tr _ eq_refl Hr).
Defined.
