(* ===== verification/Connect.v ===== *)
(** * Connection settings: [postgres/connection.go]

    [connectConfig] parses the caller's connection string, or the text
    [parseSource] builds from the explicit fields, puts the explicit fields on
    top and decides the TLS configuration of every address pgx will try.
    [pgx.ParseConfig] is a parameter. *)

From S2P Require Import Prelude GoStrings GoErrors PgTypes.

(** ** [pgx.ConnConfig], the fields the package uses *)

Record FallbackConfig := mkFallbackConfig { fbHost : string; fbPort : Z; fbTLSConfig : option TLSConfig }.

Record ConnConfig := mkConnConfig {
  ccHost : string;
  ccPort : Z;
  ccDatabase : string;
  ccUser : string;
  ccPassword : string;
  ccTLSConfig : option TLSConfig;
  ccConnectTimeout : Z;
  ccFallbacks : list FallbackConfig;
  ccRuntimeParams : gmap string string
}.

(** ** The connection text *)

(** [strings.ReplaceAll] of one byte by a text. *)
Fixpoint ReplaceByteAll (old : ascii) (new : string) (s : string) : string :=
  match s with
  | "" => ""
  | String c r => (if Ascii.eqb c old then new else String c "") +:+ ReplaceByteAll old new r
  end.

Definition backslash : ascii := byte 92.
Definition quote : ascii := byte 39.

Definition quoteConnectionValue (value : string) : string :=
  let value := ReplaceByteAll backslash (String backslash (String backslash "")) value in
  let value := ReplaceByteAll quote (String backslash (String quote "")) value in
  String quote (value +:+ String quote "").

Definition setting (key value : string) : list string :=
  if value !=s "" then [key +:+ "=" +:+ quoteConnectionValue value] else [].

Definition parseSource (o : ConnectionOptions) : string :=
  if coConnectionString o !=s "" then coConnectionString o
  else Join (setting "host" (coHost o) ++
             (if (coPort o =? 0)%Z then [] else setting "port" (FormatInt (coPort o))) ++
             setting "dbname" (coDatabase o) ++ setting "user" (coUsername o) ++
             setting "application_name" (coApplicationName o)) " ".

(** ** TLS *)

Definition VersionTLS12 : Z := 771.

Definition minimumTLS (configuration : option TLSConfig) : option TLSConfig :=
  (λ c, mkTLSConfig (if (tcMinVersion c <? VersionTLS12)%Z then VersionTLS12 else tcMinVersion c) (tcServerName c)
          (tcInsecureSkipVerify c) (tcVerifyPeerCertificate c) (tcVerifyConnection c)) <$> configuration.

Definition enforcedTLS (configuration : option TLSConfig) (serverName : string) (insecure : bool) : TLSConfig :=
  let c := deref (mkTLSConfig 0 "" false false false) configuration in
  let minVersion := if (tcMinVersion c <? VersionTLS12)%Z then VersionTLS12 else tcMinVersion c in
  if insecure then mkTLSConfig minVersion "" true false false
  else mkTLSConfig minVersion serverName false false (tcVerifyConnection c).

Definition with_tls (c : ConnConfig) (tls : option TLSConfig) (fallbacks : list FallbackConfig) : ConnConfig :=
  mkConnConfig (ccHost c) (ccPort c) (ccDatabase c) (ccUser c) (ccPassword c) tls (ccConnectTimeout c) fallbacks
    (ccRuntimeParams c).

Definition fallback_tls (tls : FallbackConfig → option TLSConfig) (fallback : FallbackConfig) : FallbackConfig :=
  mkFallbackConfig (fbHost fallback) (fbPort fallback) (tls fallback).

(** The configuration enforced for a fallback starts from the caller's, its own
    or the primary's. *)
Definition fallback_base (o : ConnectionOptions) (base : option TLSConfig) (fallback : FallbackConfig) : option TLSConfig :=
  match coTLSConfig o with
  | Some c => Some c
  | None => match fbTLSConfig fallback with None => base | own => own end
  end.

Definition applyTLSMode (c : ConnConfig) (o : ConnectionOptions) : goerror + ConnConfig :=
  let enforce insecure :=
    let base := match coTLSConfig o with Some own => Some own | None => ccTLSConfig c end in
    inr (with_tls c (Some (enforcedTLS base (ccHost c) insecure))
           (fallback_tls (λ f, Some (enforcedTLS (fallback_base o base f) (fbHost f) insecure)) <$> ccFallbacks c)) in
  match ConnectionOptions_TLSMode o with
  | TLSRaw _ => inl (configurationError "tls" "unknown TLS mode")
  | TLSFromSource => inr (with_tls c (minimumTLS (ccTLSConfig c)) (fallback_tls (λ f, minimumTLS (fbTLSConfig f)) <$> ccFallbacks c))
  | TLSDisable => inr (with_tls c None (fallback_tls (λ _, None) <$> ccFallbacks c))
  | TLSInsecure => enforce true
  | TLSVerifyFull => enforce false
  end.

(** ** [connectConfig] *)

Definition defaultConnectTimeout : Z := 5 * 1000000000.

(** A field of the options, unless it is empty. *)
Definition override (explicit parsed : string) : string := if explicit !=s "" then explicit else parsed.

Definition application_name (o : ConnectionOptions) : string :=
  if coApplicationName o ==s "" then "go-patroni" else coApplicationName o.

Definition runtime_params (o : ConnectionOptions) (params : gmap string string) : gmap string string :=
  if deref "" (params !! "application_name") ==s "" then <["application_name" := application_name o]> params else params.

Definition connectConfig (ParseConfig : string → goerror + ConnConfig) (o : ConnectionOptions) : goerror + ConnConfig :=
  match ParseConfig (parseSource o) with
  | inl err => inl (newError pgE.ErrorConfiguration "parse-connection" err)
  | inr c =>
      applyTLSMode
        (mkConnConfig (override (coHost o) (ccHost c)) (if (coPort o =? 0)%Z then ccPort c else coPort o)
           (override (coDatabase o) (ccDatabase c)) (override (coUsername o) (ccUser c)) (override (coPassword o) (ccPassword c))
           (ccTLSConfig c) (if (0 <? coConnectTimeout o)%Z then coConnectTimeout o else defaultConnectTimeout)
           (ccFallbacks c) (runtime_params o (ccRuntimeParams c)))
        o
  end.
