(* ===== verification/Postgres.v ===== *)
(** * The query client: [postgres/client.go] and [postgres/file.go]

    [StreamChecked] connects once, checks the recovery state when the caller
    asks for a role, runs the SQL and hands the rows to a sink, within limits;
    [QueryChecked] collects them.

    The server is what its replies are: a [Connector] gives a connection or an
    error, a connection maps each SQL text to a finite stream of results, and a
    stream ends with the error its [Close] returns.  A sink is a class with its
    own state ([Sink]); the collector is the instance of [QueryChecked]. *)

From S2P Require Import Prelude GoStrings GoErrors PgTypes Values Json Connect.

(** ** The connector's interfaces *)

(** [ResultReader]: the rows, [None] for a [NULL] value, and what [Close]
    returns. *)
Record ResultStream := mkResultStream {
  rtColumns : list Column;
  rtRows : list (list (option string));
  rtClose : CommandTag * option goerror
}.

(** [MultiResultReader]: [None] is a nil [ResultReader]. *)
Record MultiResult := mkMultiResult { mrResults : list (option ResultStream); mrClose : option goerror }.

(** [Connection]: [None] is a nil stream. *)
Record Connection := mkConnection { cnExecute : string → option MultiResult; cnClose : option goerror }.

Definition Connector : Type := ConnConfig → goerror + Connection.

(** What the client did with its connection. *)
Inductive pg_event :=
| Connected (configuration : ConnConfig)
| Executed (sql : string)
| StreamCanceled
| ReaderClosed
| ConnectionClosed.

(** [Sink] *)
Class Sink (S : Type) := {
  BeginResult : S → ResultInfo → S * option goerror;
  WriteRow : S → Z → Row → S * option goerror;
  EndResult : S → ResultSummary → S * option goerror
}.

(** ** The client *)

Record Client := mkClient { clConnector : Connector; clTimeout : Z; clCloseTimeout : Z; clDefaultLimits : Limits }.

Record ClientOptions := mkClientOptions {
  coptConnector : option Connector;
  coptTimeout : Z;
  coptCloseTimeout : Z;
  coptDefaultLimits : Limits
}.

Definition second : Z := 1000000000.
Definition defaultQueryTimeout : Z := 30 * second.
Definition defaultCloseTimeout : Z := 5 * second.
Definition defaultMaxRows : Z := 10000.
Definition defaultMaxBytes : Z := 16 * 2 ^ 20.

(** [NewClient]; [native] is [nativeConnector{}]. *)
Definition NewClient (native : Connector) (options : ClientOptions) : goerror + Client :=
  let timeout := if (coptTimeout options <=? 0)%Z then defaultQueryTimeout else coptTimeout options in
  let closeTimeout := if (coptCloseTimeout options <=? 0)%Z then defaultCloseTimeout else coptCloseTimeout options in
  let client limits := mkClient (deref native (coptConnector options)) timeout closeTimeout limits in
  let limits := coptDefaultLimits options in
  if lmUnlimited limits then inr (client (mkLimits 0 0 true))
  else if (lmMaxRows limits <? 0)%Z || (lmMaxBytes limits <? 0)%Z
  then inl (configurationError "client" "default limits must not be negative")
  else inr (client (mkLimits (if (lmMaxRows limits =? 0)%Z then defaultMaxRows else lmMaxRows limits)
                             (if (lmMaxBytes limits =? 0)%Z then defaultMaxBytes else lmMaxBytes limits) false)).

(** ** Limits *)

Definition resolveLimits (client : Client) (request : Limits) : goerror + Limits :=
  let default := clDefaultLimits client in
  if (lmMaxRows request <? 0)%Z || (lmMaxBytes request <? 0)%Z
  then inl (configurationError "limits" "query limits must not be negative")
  else if lmUnlimited request then inr (mkLimits 0 0 true)
  else if (lmMaxRows request =? 0)%Z && (lmMaxBytes request =? 0)%Z && lmUnlimited default then inr (mkLimits 0 0 true)
  else inr (mkLimits (if (lmMaxRows request =? 0)%Z then lmMaxRows default else lmMaxRows request)
                     (if (lmMaxBytes request =? 0)%Z then lmMaxBytes default else lmMaxBytes request)
                     (lmUnlimited request)).

Definition canEmit (summary : Summary) (rowBytes : Z) (limits : Limits) : bool :=
  if lmUnlimited limits then true
  else if smTruncated summary then false
  else
    let rowsAvailable := (lmMaxRows limits =? 0)%Z || (smEmittedRows summary <? lmMaxRows limits)%Z in
    let bytesAvailable := (lmMaxBytes limits =? 0)%Z ||
                          ((smEmittedBytes summary <=? lmMaxBytes limits)%Z &&
                           (rowBytes <=? lmMaxBytes limits - smEmittedBytes summary)%Z) in
    rowsAvailable && bytesAvailable.

(** [int64] addition. *)
Definition plus64 (x y : Z) : Z := int64_wrap (x + y).

(** [copyRow] *)
Definition copy_cell (value : option string) : Cell :=
  match value with None => mkCell true "" 0 | Some text => mkCell false text (Z.of_nat (String.length text)) end.

Definition copyRow (values : list (option string)) : Row * Z :=
  (copy_cell <$> values,
   foldl (λ bytes value, match value with None => bytes | Some text => plus64 bytes (Z.of_nat (String.length text)) end) 0%Z values).

(** ** The recovery check *)

Definition recovery_sql : string := "SELECT pg_catalog.pg_is_in_recovery()".

(** [checkRecoveryState], with whether it closed the reader. *)
Definition checkRecoveryState (connection : Connection) : (goerror + bool) * list pg_event :=
  let invalid message := inl (newError pgE.ErrorInvariant "role-check" (EText message)) in
  match cnExecute connection recovery_sql with
  | None => (invalid "connector returned a nil result stream", [Executed recovery_sql])
  | Some reader =>
      let closed r := (r, [Executed recovery_sql; ReaderClosed]) in
      match mrResults reader with
      | [] =>
          closed (match mrClose reader with
                  | Some err => inl (newError pgE.ErrorDatabase "role-check" err)
                  | None => invalid "recovery check returned no result"
                  end)
      | None :: _ => closed (invalid "recovery check returned nil rows")
      | Some rows :: more =>
          if negb (length (rtColumns rows) =? 1)%nat || is_nil (head (rtRows rows))
          then closed (invalid "recovery check returned an invalid shape")
          else match rtRows rows with
          | [[Some value]] =>
              match (rtClose rows).2 with
              | Some err => closed (inl (newError pgE.ErrorDatabase "role-check" err))
              | None =>
                  if negb (is_nil (head more)) then closed (invalid "recovery check returned multiple results")
                  else match mrClose reader with
                  | Some err => closed (inl (newError pgE.ErrorDatabase "role-check" err))
                  | None =>
                      closed (if existsb (String.eqb value) ["t"; "true"; "1"; "on"] then inr true
                              else if existsb (String.eqb value) ["f"; "false"; "0"; "off"] then inr false
                              else invalid "recovery check returned a non-boolean value")
                  end
              end
          | _ => closed (invalid "recovery check returned an invalid value")
          end
      end
  end.

(** ** Streaming *)

(** [result.ObservedRows++; ...; summary.ObservedBytes += bytes] *)
Definition observe_result (r : ResultSummary) (bytes : Z) : ResultSummary :=
  mkResultSummary (rsmIndex r) (rsmColumns r) (rsmCommandTag r) (rsmRowsAffected r) (plus64 (rsmObservedRows r) 1)
    (rsmEmittedRows r) (plus64 (rsmObservedBytes r) bytes) (rsmEmittedBytes r) (rsmTruncated r).

Definition observe (s : Summary) (bytes : Z) : Summary :=
  mkSummary (smResults s) (plus64 (smObservedRows s) 1) (smEmittedRows s) (plus64 (smObservedBytes s) bytes)
    (smEmittedBytes s) (smTruncated s).

(** [result.EmittedRows++; ...; summary.EmittedBytes += bytes] *)
Definition emit_result (r : ResultSummary) (bytes : Z) : ResultSummary :=
  mkResultSummary (rsmIndex r) (rsmColumns r) (rsmCommandTag r) (rsmRowsAffected r) (rsmObservedRows r)
    (plus64 (rsmEmittedRows r) 1) (rsmObservedBytes r) (plus64 (rsmEmittedBytes r) bytes) (rsmTruncated r).

Definition emit (s : Summary) (bytes : Z) : Summary :=
  mkSummary (smResults s) (smObservedRows s) (plus64 (smEmittedRows s) 1) (smObservedBytes s)
    (plus64 (smEmittedBytes s) bytes) (smTruncated s).

(** [result.Truncated = true; summary.Truncated = true] *)
Definition truncate_result (r : ResultSummary) : ResultSummary :=
  mkResultSummary (rsmIndex r) (rsmColumns r) (rsmCommandTag r) (rsmRowsAffected r) (rsmObservedRows r)
    (rsmEmittedRows r) (rsmObservedBytes r) (rsmEmittedBytes r) true.

Definition truncate (s : Summary) : Summary :=
  mkSummary (smResults s) (smObservedRows s) (smEmittedRows s) (smObservedBytes s) (smEmittedBytes s) true.

(** [result.CommandTag = tag.Text; result.RowsAffected = tag.RowsAffected] *)
Definition tag_result (r : ResultSummary) (tag : CommandTag) : ResultSummary :=
  mkResultSummary (rsmIndex r) (rsmColumns r) (ctText tag) (ctRowsAffected tag) (rsmObservedRows r) (rsmEmittedRows r)
    (rsmObservedBytes r) (rsmEmittedBytes r) (rsmTruncated r).

(** [summary.Results = append(summary.Results, result)] *)
Definition append_result (s : Summary) (r : ResultSummary) : Summary :=
  mkSummary (smResults s ++ [r]) (smObservedRows s) (smEmittedRows s) (smObservedBytes s) (smEmittedBytes s) (smTruncated s).

Section streaming.
Context {S : Type} `{Sink S} (limits : Limits).

(** [for rows.NextRow() { ... }], with the error that ends the query. *)
Fixpoint streamRows (columns : nat) (rows : list (list (option string))) (result : ResultSummary) (summary : Summary) (sink : S)
    : ResultSummary * Summary * S * option goerror :=
  match rows with
  | [] => (result, summary, sink, None)
  | values :: rest =>
      if negb (length values =? columns)%nat
      then (result, summary, sink, Some (newError pgE.ErrorInvariant "row" (EText "row value count differs from column count")))
      else
        let '(row, bytes) := copyRow values in
        let result := observe_result result bytes in
        let summary := observe summary bytes in
        if canEmit summary bytes limits then
          match WriteRow sink (rsmIndex result) row with
          | (sink, Some err) => (result, summary, sink, Some (newError pgE.ErrorSink "row" err))
          | (sink, None) => streamRows columns rest (emit_result result bytes) (emit summary bytes) sink
          end
        else streamRows columns rest (truncate_result result) (truncate summary) sink
  end.

(** [for reader.NextResult() { ... }] and the [Close] after it. *)
Fixpoint streamResults (close : option goerror) (results : list (option ResultStream)) (summary : Summary) (sink : S)
    : Summary * S * option goerror * list pg_event :=
  match results with
  | [] => (summary, sink, newError pgE.ErrorDatabase "query" <$> close, [ReaderClosed])
  | None :: _ =>
      (summary, sink, Some (newError pgE.ErrorInvariant "execute" (EText "connector returned nil rows")),
       [StreamCanceled; ReaderClosed])
  | Some rows :: rest =>
      let index := Z.of_nat (length (smResults summary)) in
      let result := mkResultSummary index (rtColumns rows) "" 0 0 0 0 0 false in
      match BeginResult sink (mkResultInfo index (rtColumns rows)) with
      | (sink, Some err) => (summary, sink, Some (newError pgE.ErrorSink "begin-result" err), [StreamCanceled; ReaderClosed])
      | (sink, None) =>
          match streamRows (length (rtColumns rows)) (rtRows rows) result summary sink with
          | (_, summary, sink, Some err) => (summary, sink, Some err, [StreamCanceled; ReaderClosed])
          | (result, summary, sink, None) =>
              match rtClose rows with
              | (_, Some err) => (summary, sink, Some (newError pgE.ErrorDatabase "query" err), [ReaderClosed])
              | (tag, None) =>
                  let result := tag_result result tag in
                  let summary := append_result summary result in
                  match EndResult sink result with
                  | (sink, Some err) =>
                      (summary, sink, Some (newError pgE.ErrorSink "end-result" err), [StreamCanceled; ReaderClosed])
                  | (sink, None) => streamResults close rest summary sink
                  end
              end
          end
      end
  end.

(** The query after the connection is made, without its [Close]. *)
Definition streamConnection (connection : Connection) (expectation : RecoveryExpectation) (sql : string) (sink : S)
    : Summary * S * option goerror * list pg_event :=
  let execute before :=
    match cnExecute connection sql with
    | None =>
        (zero, sink, Some (newError pgE.ErrorInvariant "execute" (EText "connector returned a nil result stream")),
         before ++ [Executed sql])
    | Some reader =>
        let '(summary, sink, err, after) := streamResults (mrClose reader) (mrResults reader) zero sink in
        (summary, sink, err, before ++ Executed sql :: after)
    end in
  let checked standby :=
    match checkRecoveryState connection with
    | (inl err, events) => (zero, sink, Some err, events)
    | (inr inRecovery, events) =>
        if Bool.eqb inRecovery standby then execute events
        else (zero, sink, Some (newError pgE.ErrorRoleMismatch "role-check"
                            (EText "postgresql recovery state does not match requested role")), events)
    end in
  match expectation with
  | RecoveryPrimary => checked false
  | RecoveryStandby => checked true
  | _ => execute []
  end.
End streaming.

(** ** [StreamChecked] *)

(** A context: what [ctx.Err()] returns on entry, and what the operation's
    context returns just before connecting. *)
Record QueryContext := mkQueryContext { qcErr : option goerror; qcOperationErr : option goerror }.

(** The summary, the sink, the error and what happened to the connection.  A
    client without a connector counts as none. *)
Definition streamed (S : Type) : Type := Summary * S * option goerror * list pg_event.

Definition StreamChecked {S} `{Sink S} (ParseConfig : string → goerror + ConnConfig) (client : option Client)
    (ctx : option QueryContext) (options : ConnectionOptions) (expectation : RecoveryExpectation) (request : pg.QueryRequest)
    (nilSink : bool) (sink : S) : streamed S :=
  let fail err := (zero, sink, Some err, []) in
  match client, ctx with
  | None, _ => fail (configurationError "query" "client is nil")
  | _, None => fail (configurationError "query" "context is nil")
  | Some client, Some ctx =>
      match qcErr ctx with
      | Some err => fail (newError pgE.ErrorTransport "query" err)
      | None =>
          if nilSink then fail (configurationError "query" "sink is nil")
          else if negb (RecoveryExpectation_valid expectation)
          then fail (configurationError "role-check" "unknown recovery expectation")
          else match resolveLimits client (pg.pqLimits request) with
          | inl err => fail err
          | inr limits =>
              match connectConfig ParseConfig options with
              | inl err => fail err
              | inr configuration =>
                  match qcOperationErr ctx with
                  | Some err => fail (newError pgE.ErrorTransport "connect" err)
                  | None =>
                      match clConnector client configuration with
                      | inl err => fail (newError pgE.ErrorConnect "connect" err)
                      | inr connection =>
                          let '(summary, sink, err, events) :=
                            streamConnection limits connection expectation (pg.pqSQL request) sink in
                          let err := match err, cnClose connection with
                                     | None, Some closeErr => Some (newError pgE.ErrorTransport "close" closeErr)
                                     | _, _ => err
                                     end in
                          (summary, sink, err, Connected configuration :: events ++ [ConnectionClosed])
                      end
                  end
              end
          end
      end
  end.

(** ** The collector *)

Definition outside : goerror := EText "result index is outside collector".

(** [collector.sets[index]], when the index is inside. *)
Definition in_collector (sets : list ResultSet) (index : Z) : bool := (0 <=? index)%Z && (index <? Z.of_nat (length sets))%Z.

Definition add_row (row : Row) (set : ResultSet) : ResultSet :=
  mkResultSet (rsIndex set) (rsColumns set) (rsRows set ++ [row]) (rsCommandTag set) (rsRowsAffected set) (rsTruncated set).

Definition end_set (summary : ResultSummary) (set : ResultSet) : ResultSet :=
  mkResultSet (rsIndex set) (rsColumns set) (rsRows set) (rsmCommandTag summary) (rsmRowsAffected summary) (rsmTruncated summary).

(** [resultCollector] *)
#[export] Instance resultCollector : Sink (list ResultSet) := {|
  BeginResult sets info := (sets ++ [mkResultSet (rinIndex info) (rinColumns info) [] "" 0 false], None);
  WriteRow sets index row :=
    if in_collector sets index then (alter (add_row row) (Z.to_nat index) sets, None) else (sets, Some outside);
  EndResult sets summary :=
    if in_collector sets (rsmIndex summary) then (alter (end_set summary) (Z.to_nat (rsmIndex summary)) sets, None)
    else (sets, Some outside)
|}.

Definition QueryChecked (ParseConfig : string → goerror + ConnConfig) (client : option Client) (ctx : option QueryContext)
    (options : ConnectionOptions) (expectation : RecoveryExpectation) (request : pg.QueryRequest)
    : QueryResult * option goerror * list pg_event :=
  let '(summary, sets, err, events) := StreamChecked ParseConfig client ctx options expectation request false [] in
  (mkQueryResult sets summary, err, events).

(** [Query] and [Stream] expect nothing of the session. *)
Definition Query (ParseConfig : string → goerror + ConnConfig) (client : option Client) (ctx : option QueryContext)
    (options : ConnectionOptions) (request : pg.QueryRequest) : QueryResult * option goerror * list pg_event :=
  QueryChecked ParseConfig client ctx options RecoveryAny request.

Definition Stream {S} `{Sink S} (ParseConfig : string → goerror + ConnConfig) (client : option Client)
    (ctx : option QueryContext) (options : ConnectionOptions) (request : pg.QueryRequest) (nilSink : bool) (sink : S)
    : streamed S :=
  StreamChecked ParseConfig client ctx options RecoveryAny request nilSink sink.

(** ** [ReadSQLFile], [file.go] *)

Definition defaultMaxSQLFileBytes : Z := 8 * 2 ^ 20.

(** The file [os.Open] gives: its bytes, the error that ends their reading,
    if any, and the one of [Close]. *)
Record SQLFile := mkSQLFile { sfData : string; sfReadErr : option goerror; sfCloseErr : option goerror }.

(** [io.ReadAll(io.LimitReader(file, n))]: nothing when [n] is not positive. *)
Definition read_limited (data : string) (n : Z) : string :=
  if (n <=? 0)%Z then "" else String.substring 0 (Z.to_nat n) data.

(** [ctx]: none when nil; its two errors are those seen on entry and after the
    reading. *)
Definition ReadSQLFile (ctx : option (option goerror * option goerror)) (file : goerror + SQLFile) (maximumBytes : Z)
    : string * option goerror :=
  match ctx with
  | None => ("", Some (configurationError "read-sql-file" "context is nil"))
  | Some (Some err, _) => ("", Some (newError pgE.ErrorTransport "read-sql-file" err))
  | Some (None, later) =>
      if (maximumBytes <? 0)%Z then ("", Some (configurationError "read-sql-file" "maximum bytes must not be negative"))
      else
        let maximumBytes := if (maximumBytes =? 0)%Z then defaultMaxSQLFileBytes else maximumBytes in
        match file with
        | inl err => ("", Some (newError pgE.ErrorConfiguration "read-sql-file" err))
        | inr f =>
            let data := read_limited (sfData f) (plus64 maximumBytes 1) in
            let readErr := if (plus64 maximumBytes 1 <=? 0)%Z then None else sfReadErr f in
            let '(sql, err) :=
              match readErr, later with
              | Some err, _ => ("", Some (newError pgE.ErrorTransport "read-sql-file" err))
              | None, Some err => ("", Some (newError pgE.ErrorTransport "read-sql-file" err))
              | None, None =>
                  if (maximumBytes <? Z.of_nat (String.length data))%Z
                  then ("", Some (newError pgE.ErrorLimit "read-sql-file" (EText "sql file exceeds limit")))
                  else if negb (valid_utf8 data)
                  then ("", Some (newError pgE.ErrorConfiguration "read-sql-file" (EText "sql file is not UTF-8")))
                  else (data, None)
              end in
            match sfCloseErr f with
            | None => (sql, err)
            | Some closeErr =>
                (sql, Some (EJoin (option_list err ++ [newError pgE.ErrorTransport "close-sql-file" closeErr])))
            end
        end
  end.
