(* ===== verification/PostgresLaws.v ===== *)
(** * What a query guarantees

    The rows a query shows are the longest prefix of the server's rows within
    the limits ([QueryChecked_complete]); a connection is made at most once,
    always closed, and the caller's SQL runs only in a session of the expected
    role ([StreamChecked_session]); no address is tried below TLS 1.2 or
    unverified unless the caller chose so ([connectConfig_tls]). *)

From S2P Require Import Prelude GoStrings GoErrors PgTypes Values Json Connect Postgres.

(** ** Rows and limits *)

Definition row_bytes (values : list (option string)) : Z :=
  foldr Z.add 0%Z ((λ value, Z.of_nat (String.length (deref "" value))) <$> values).

Definition total_bytes (rows : list (list (option string))) : Z := foldr Z.add 0%Z (row_bytes <$> rows).

Definition copied : list (option string) → Row := fmap copy_cell.

Definition all_rows (streams : list ResultStream) : list (list (option string)) := concat (rtRows <$> streams).

(** Rows that a machine can count. *)
Definition countable (rows : list (list (option string))) : Prop :=
  (Z.of_nat (length rows) <= max_int64)%Z ∧ (total_bytes rows <= max_int64)%Z.

Definition fits (limits : Limits) (rows : list (list (option string))) : Prop :=
  lmUnlimited limits = true ∨
  (lmMaxRows limits = 0 ∨ Z.of_nat (length rows) <= lmMaxRows limits)%Z ∧
  (lmMaxBytes limits = 0 ∨ total_bytes rows <= lmMaxBytes limits)%Z.

(** The longest prefix of [rows] within the limits. *)
Definition longest_fit (limits : Limits) (n : nat) (rows : list (list (option string))) : Prop :=
  (n <= length rows)%nat ∧ fits limits (take n rows) ∧ ((n < length rows)%nat → ¬ fits limits (take (S n) rows)).

Definition sound_limits (limits : Limits) : Prop :=
  (0 <= lmMaxRows limits)%Z ∧ (0 <= lmMaxBytes limits)%Z.

(** ** Lemmas: counting *)

Lemma plus64_exact x y : (min_int64 <= x + y <= max_int64)%Z → plus64 x y = (x + y)%Z.
Proof. unfold plus64, int64_wrap, min_int64, max_int64. intros. rewrite Z.mod_small; lia. Qed.

Lemma row_bytes_nonneg values : (0 <= row_bytes values)%Z.
Proof. unfold row_bytes. induction values; cbn; lia. Qed.

Lemma total_bytes_nonneg rows : (0 <= total_bytes rows)%Z.
Proof. unfold total_bytes. induction rows as [|r rows IH]; cbn; [lia|]. pose proof (row_bytes_nonneg r). lia. Qed.

Lemma foldr_add_app (l k : list Z) : foldr Z.add 0%Z (l ++ k) = (foldr Z.add 0 l + foldr Z.add 0 k)%Z.
Proof. induction l as [|x l IH]; cbn; lia. Qed.

Lemma total_bytes_app rows rows' : total_bytes (rows ++ rows') = (total_bytes rows + total_bytes rows')%Z.
Proof. unfold total_bytes. by rewrite fmap_app, foldr_add_app. Qed.

Lemma total_bytes_snoc rows r : total_bytes (rows ++ [r]) = (total_bytes rows + row_bytes r)%Z.
Proof. rewrite total_bytes_app. cbn. lia. Qed.

Lemma countable_app rows rows' : countable (rows ++ rows') → countable rows ∧ countable rows'.
Proof.
  unfold countable. rewrite length_app, total_bytes_app. pose proof (total_bytes_nonneg rows). pose proof (total_bytes_nonneg rows'). lia.
Qed.

Lemma copyRow_exact values : (row_bytes values <= max_int64)%Z → copyRow values = (copied values, row_bytes values).
Proof.
  intros Hv. unfold copyRow. f_equal.
  assert (∀ acc, (0 <= acc)%Z → (acc + row_bytes values <= max_int64)%Z →
    foldl (λ bytes value, match value with None => bytes | Some text => plus64 bytes (Z.of_nat (String.length text)) end) acc values =
    (acc + row_bytes values)%Z) as H; [|rewrite H; lia].
  clear Hv. induction values as [|[text|] values IH]; intros acc Hacc Hsum; unfold row_bytes in *; cbn in *.
  - lia.
  - pose proof (row_bytes_nonneg values) as Hn. unfold row_bytes in Hn. rewrite plus64_exact by (unfold min_int64 in *; lia).
    rewrite IH; lia.
  - by rewrite IH; lia.
Qed.

(** ** Lemmas: truncation is a prefix *)

Section rows.
Context (limits : Limits) (Hlimits : sound_limits limits).

(** The counts after the server sent [all] and the sink took [out]. *)
Record counted (all out : list (list (option string))) (s : Summary) : Prop := {
  counted_observed : smObservedRows s = Z.of_nat (length all);
  counted_observed_bytes : smObservedBytes s = total_bytes all;
  counted_emitted : smEmittedRows s = Z.of_nat (length out);
  counted_emitted_bytes : smEmittedBytes s = total_bytes out;
  counted_prefix : out = take (length out) all;
  counted_fits : fits limits out;
  counted_whole : smTruncated s = false → out = all;
  counted_cut : smTruncated s = true → (length out < length all)%nat ∧ ¬ fits limits (take (S (length out)) all)
}.

Lemma counted_zero : counted [] [] zero.
Proof using Hlimits.
  constructor; try done. right. cbn. unfold sound_limits in Hlimits. lia.
Qed.

Lemma canEmit_spec all out s values :
  counted all out s → countable (all ++ [values]) →
  canEmit (observe s (row_bytes values)) (row_bytes values) limits = true ↔ smTruncated s = false ∧ fits limits (out ++ [values]).
Proof using Hlimits.
  intros Hc Hall. unfold canEmit, observe. cbn [smTruncated smEmittedRows smEmittedBytes].
  pose proof (counted_emitted _ _ _ Hc) as ->. pose proof (counted_emitted_bytes _ _ _ Hc) as ->.
  unfold fits. rewrite total_bytes_snoc, length_app. cbn [length].
  destruct (lmUnlimited limits) eqn:Hu.
  - split; [|done]. intros _. split; [|by left]. destruct (smTruncated s) eqn:Ht; [|done].
    destruct (counted_cut _ _ _ Hc Ht) as [_ Hn]. destruct Hn. by left.
  - destruct (smTruncated s); [split; [done|by intros [? _]]|]. pose proof (row_bytes_nonneg values). pose proof (total_bytes_nonneg out).
    unfold sound_limits in Hlimits. rewrite andb_true_iff, !orb_true_iff, andb_true_iff, !Z.eqb_eq, Z.ltb_lt, !Z.leb_le.
    split; [intros [H1 H2]; split; [done|]; right; lia|]. intros [_ [|[H1 H2]]]; [done|]. lia.
Qed.

Lemma counted_emit all out s values :
  counted all out s → countable (all ++ [values]) → smTruncated s = false → fits limits (out ++ [values]) →
  counted (all ++ [values]) (out ++ [values]) (emit (observe s (row_bytes values)) (row_bytes values)).
Proof using Hlimits.
  intros Hc [Hn Hb] Ht Hf. pose proof (counted_whole _ _ _ Hc Ht) as ->. destruct Hc. rewrite length_app, total_bytes_snoc in *. cbn [length] in *.
  pose proof (row_bytes_nonneg values). pose proof (total_bytes_nonneg all). unfold emit, observe.
  constructor; cbn [smObservedRows smObservedBytes smEmittedRows smEmittedBytes smTruncated]; rewrite ?length_app, ?total_bytes_snoc; cbn [length];
    try (rewrite plus64_exact; unfold min_int64; lia).
  - symmetry. apply take_ge. rewrite length_app. cbn. lia.
  - done.
  - done.
  - congruence.
Qed.

Lemma counted_skip all out s values :
  counted all out s → countable (all ++ [values]) → ¬ (smTruncated s = false ∧ fits limits (out ++ [values])) →
  counted (all ++ [values]) out (truncate (observe s (row_bytes values))).
Proof using Hlimits.
  intros Hc [Hn Hb] Hno. rewrite length_app, total_bytes_snoc in *. cbn [length] in *.
  pose proof (row_bytes_nonneg values). pose proof (total_bytes_nonneg all).
  assert ((length out <= length all)%nat) as Hle.
  { rewrite (counted_prefix _ _ _ Hc). rewrite length_take. lia. }
  destruct Hc as [? ? ? ? Hprefix Hfits Hwhole Hcut]. unfold truncate, observe.
  constructor; cbn [smObservedRows smObservedBytes smEmittedRows smEmittedBytes smTruncated]; rewrite ?length_app, ?total_bytes_snoc; cbn [length]; try done;
    try (rewrite plus64_exact; unfold min_int64; lia).
  - rewrite take_app_le by done. done.
  - intros _. split; [lia|]. destruct (smTruncated s).
    + destruct (Hcut eq_refl) as [? ?]. rewrite take_app_le by lia. done.
    + specialize (Hwhole eq_refl) as ->. intros Hf. apply Hno. split; [done|]. rewrite take_ge in Hf; [done|]. rewrite length_app. cbn. lia.
Qed.
End rows.

(** ** Lemmas: the collector *)

(** The set that shows what the client sent of [mine]. *)
Definition tracks (mine : list (list (option string))) (result : ResultSummary) (set : ResultSet) : Prop :=
  ∃ sent, rsRows set = copied <$> sent ∧ sent `prefix_of` mine ∧ (rsmTruncated result = false ↔ sent = mine).

(** A finished set: the columns, the tag and a prefix of the rows, all of them
    unless it is marked truncated. *)
Definition shows_stream (stream : ResultStream) (set : ResultSet) : Prop :=
  rsColumns set = rtColumns stream ∧ rsCommandTag set = ctText (rtClose stream).1 ∧
  rsRowsAffected set = ctRowsAffected (rtClose stream).1 ∧
  rsRows set `prefix_of` (copied <$> rtRows stream) ∧ (rsTruncated set = false ↔ rsRows set = copied <$> rtRows stream).

Definition shown_rows (sets : list ResultSet) : list Row := concat (rsRows <$> sets).

Lemma shown_rows_snoc pre set : shown_rows (pre ++ [set]) = shown_rows pre ++ rsRows set.
Proof. unfold shown_rows. rewrite fmap_app, concat_app. cbn. by rewrite app_nil_r. Qed.

Lemma in_collector_last (pre : list ResultSet) set : in_collector (pre ++ [set]) (Z.of_nat (length pre)) = true.
Proof. unfold in_collector. rewrite length_app. cbn. apply andb_true_iff. rewrite Z.leb_le, Z.ltb_lt. lia. Qed.

Lemma alter_last (f : ResultSet → ResultSet) pre set : alter f (Z.to_nat (Z.of_nat (length pre))) (pre ++ [set]) = pre ++ [f set].
Proof. rewrite Nat2Z.id. induction pre as [|x pre IH]; [done|]. cbn in *. by rewrite IH. Qed.

Lemma prefix_snoc_whole {A} (l : list A) x : (l ++ [x]) `prefix_of` (l ++ [x]).
Proof. done. Qed.

Section collecting.
Context (limits : Limits) (Hlimits : sound_limits limits).

Lemma streamRows_collects columns rows all out mine result summary pre set :
  counted limits all out summary → countable (all ++ rows) → rsmIndex result = Z.of_nat (length pre) →
  shown_rows (pre ++ [set]) = copied <$> out → tracks mine result set →
  (rsmTruncated result = true → smTruncated summary = true) →
  match streamRows limits columns rows result summary (pre ++ [set]) with
  | (_, _, _, Some _) => True
  | (result', summary', sets', None) => ∃ out' set',
      counted limits (all ++ rows) out' summary' ∧ sets' = pre ++ [set'] ∧ shown_rows sets' = copied <$> out' ∧
      tracks (mine ++ rows) result' set' ∧ rsColumns set' = rsColumns set ∧
      rsmIndex result' = rsmIndex result ∧ smResults summary' = smResults summary
  end.
Proof using Hlimits.
  revert all out mine result summary set.
  induction rows as [|values rows IH]; intros all out mine result summary set Hc Hall Hidx Hshown Htracks Htr; cbn [streamRows].
  { rewrite !app_nil_r. by exists out, set. }
  destruct (negb _); [done|].
  assert (countable (all ++ [values])) as Hall1.
  { rewrite cons_middle, app_assoc in Hall. by apply countable_app in Hall as [? _]. }
  rewrite copyRow_exact.
  2:{ destruct Hall1 as [_ Hb]. rewrite total_bytes_snoc in Hb. pose proof (total_bytes_nonneg all). lia. }
  cbv zeta. pose proof (canEmit_spec limits Hlimits all out summary values Hc Hall1) as Hemit.
  rewrite (cons_middle values all rows), (cons_middle values mine rows), !app_assoc in *.
  destruct Htracks as (sent & Hrows & Hprefix & Hiff).
  destruct (canEmit _ _ _).
  - destruct (proj1 Hemit eq_refl) as [Ht Hf]. cbn [WriteRow resultCollector observe_result rsmIndex].
    replace (in_collector (pre ++ [set]) (rsmIndex result)) with true by (by rewrite Hidx, in_collector_last).
    replace (alter (add_row (copied values)) (Z.to_nat (rsmIndex result)) (pre ++ [set])) with (pre ++ [add_row (copied values) set])
      by (by rewrite Hidx, alter_last).
    specialize (IH (all ++ [values]) (out ++ [values]) (mine ++ [values]) (emit_result (observe_result result (row_bytes values)) (row_bytes values))
      (emit (observe summary (row_bytes values)) (row_bytes values)) (add_row (copied values) set)).
    apply IH; clear IH.
    + by apply counted_emit.
    + done.
    + done.
    + rewrite shown_rows_snoc in *. cbn [add_row rsRows]. by rewrite app_assoc, Hshown, fmap_app.
    + assert (sent = mine) as ->.
      { apply Hiff. destruct (rsmTruncated result); [|done]. by rewrite Htr in Ht. }
      exists (mine ++ [values]). cbn [add_row rsRows]. rewrite Hrows, fmap_app. split; [done|]. split; [done|]. cbn.
      split; [done|]. intros _. by apply Hiff.
    + cbn. exact Htr.
  - specialize (IH (all ++ [values]) out (mine ++ [values]) (truncate_result (observe_result result (row_bytes values)))
      (truncate (observe summary (row_bytes values))) set). apply IH; clear IH.
    + apply counted_skip; [done..|]. intros Hf. by apply Hemit in Hf.
    + done.
    + done.
    + done.
    + exists sent. split; [done|]. split; [by apply prefix_app_r|]. cbn. split; [done|]. intros ->.
      apply prefix_length in Hprefix. rewrite length_app in Hprefix. cbn in Hprefix. lia.
    + done.
Qed.

Lemma streamResults_collects close results all out summary sets :
  counted limits all out summary → length (smResults summary) = length sets → shown_rows sets = copied <$> out →
  countable (all ++ all_rows (omap id results)) →
  match streamResults limits close results summary sets with
  | (_, _, Some _, _) => True
  | (summary', sets', None, events) => ∃ streams more out',
      results = Some <$> streams ∧ close = None ∧ events = [ReaderClosed] ∧ sets' = sets ++ more ∧
      Forall2 shows_stream streams more ∧ counted limits (all ++ all_rows streams) out' summary' ∧ shown_rows sets' = copied <$> out'
  end.
Proof using Hlimits.
  revert all out summary sets. induction results as [|[stream|] results IH]; intros all out summary sets Hc Hlen Hshown Hall;
    cbn [streamResults]; [| |done].
  { destruct close; [done|]. exists [], [], out. unfold all_rows. cbn. rewrite !app_nil_r. done. }
  cbv zeta. cbn [BeginResult resultCollector rinIndex rinColumns].
  cbn [omap list_omap id] in Hall. unfold all_rows in Hall. cbn [fmap list_fmap concat] in Hall. rewrite app_assoc in Hall. fold (all_rows (omap id results)) in Hall.
  set (result := mkResultSummary _ _ _ _ _ _ _ _ _). set (set0 := mkResultSet _ _ _ _ _ _).
  pose proof (streamRows_collects (length (rtColumns stream)) (rtRows stream) all out [] result summary sets set0 Hc) as Hrows.
  destruct (streamRows _ _ _ _ _ _) as [[[result' summary'] sets'] [err|]]; [done|].
  destruct Hrows as (out' & set' & Hc' & -> & Hshown' & Htracks & Hcols & Hidx & Hres).
  { by apply countable_app in Hall as [? _]. }
  { cbn. by rewrite Hlen. }
  { rewrite shown_rows_snoc. cbn. by rewrite app_nil_r. }
  { exists []. done. }
  { done. }
  destruct (rtClose stream) as [tag [err|]] eqn:Eclose; [done|]. cbv zeta. cbn [EndResult resultCollector tag_result rsmIndex].
  assert (rsmIndex result' = Z.of_nat (length sets)) as Hi by (rewrite Hidx; cbn; by rewrite Hlen).
  replace (in_collector (sets ++ [set']) (rsmIndex result')) with true by (by rewrite Hi, in_collector_last).
  replace (alter (end_set (tag_result result' tag)) (Z.to_nat (rsmIndex result')) (sets ++ [set']))
    with (sets ++ [end_set (tag_result result' tag) set']) by (by rewrite Hi, alter_last).
  specialize (IH (all ++ rtRows stream) out' (append_result summary' (tag_result result' tag)) (sets ++ [end_set (tag_result result' tag) set'])).
  destruct (streamResults _ _ _ _ _) as [[[summary'' sets''] [err|]] events]; [done|].
  destruct IH as (streams & more & out'' & -> & -> & -> & -> & Hmore & Hc'' & Hshown''); [by destruct Hc'| | |done|].
  { cbn. rewrite !length_app, Hres, Hlen. done. }
  { rewrite shown_rows_snoc in *. exact Hshown'. }
  exists (stream :: streams), (end_set (tag_result result' tag) set' :: more), out''.
  split; [done|]. split; [done|]. split; [done|]. split; [by rewrite <- app_assoc|]. split; [|split; [|done]].
  - constructor; [|done]. destruct Htracks as (sent & Hrows & Hprefix & Hiff). cbn [app] in Hprefix, Hiff.
    split; [exact Hcols|]. rewrite Eclose. split; [done|]. split; [done|]. cbn [end_set rsRows rsTruncated tag_result rsmTruncated]. rewrite Hrows.
    split.
    + destruct Hprefix as [rest ->]. exists (copied <$> rest). apply fmap_app.
    + rewrite Hiff. split; [by intros ->|]. intros Heq. destruct Hprefix as [rest Hrest]. rewrite Hrest in Heq |- *.
      apply (f_equal length) in Heq. rewrite !length_fmap, length_app in Heq. destruct rest; [by rewrite app_nil_r|]. cbn in Heq. lia.
  - unfold all_rows. cbn [fmap list_fmap concat]. by rewrite app_assoc.
Qed.
End collecting.

(** ** Lemmas: the session *)

Lemma NewClient_sound native options client : NewClient native options = inr client → sound_limits (clDefaultLimits client).
Proof.
  unfold NewClient. cbv zeta. destruct (lmUnlimited _); [by intros [= <-]|]. destruct (_ || _) eqn:E; [done|].
  apply orb_false_iff in E as [Er%Z.ltb_ge Eb%Z.ltb_ge]. intros [= <-]. unfold sound_limits. cbn.
  destruct (Z.eqb_spec (lmMaxRows (coptDefaultLimits options)) 0), (Z.eqb_spec (lmMaxBytes (coptDefaultLimits options)) 0);
    unfold defaultMaxRows, defaultMaxBytes; lia.
Qed.

Lemma resolveLimits_sound client request limits :
  sound_limits (clDefaultLimits client) → resolveLimits client request = inr limits → sound_limits limits.
Proof.
  unfold resolveLimits, sound_limits. intros Hs. cbv zeta. destruct (_ || _) eqn:E; [done|].
  apply orb_false_iff in E as [Er%Z.ltb_ge Eb%Z.ltb_ge]. destruct (lmUnlimited request); [by intros [= <-]|].
  destruct (_ && _); intros [= <-]; cbn; [done|].
  destruct (Z.eqb_spec (lmMaxRows request) 0), (Z.eqb_spec (lmMaxBytes request) 0); lia.
Qed.

Definition executions (events : list pg_event) : list string :=
  omap (λ e, match e with Executed sql => Some sql | _ => None end) events.

Definition within_session (e : pg_event) : Prop := match e with Connected _ | ConnectionClosed => False | _ => True end.

Lemma executions_app l k : executions (l ++ k) = executions l ++ executions k.
Proof. apply omap_app. Qed.

(** A part of a session that executes nothing. *)
Definition idle (events : list pg_event) : Prop := executions events = [] ∧ Forall within_session events.

Lemma streamResults_idle {S} `{Sink S} limits close results summary (sink : S) :
  idle (streamResults limits close results summary sink).2.
Proof.
  revert summary sink. induction results as [|[stream|] results IH]; intros summary sink; cbn [streamResults]; [by repeat constructor| |by repeat constructor].
  cbv zeta. destruct (BeginResult _ _) as [? [?|]]; [by repeat constructor|].
  destruct (streamRows _ _ _ _ _ _) as [[[? ?] ?] [?|]]; [by repeat constructor|].
  destruct (rtClose stream) as [? [?|]]; [by repeat constructor|].
  destruct (EndResult _ _) as [? [?|]]; [by repeat constructor|]. apply IH.
Qed.

Lemma checkRecoveryState_events connection :
  executions (checkRecoveryState connection).2 = [recovery_sql] ∧ Forall within_session (checkRecoveryState connection).2.
Proof.
  unfold checkRecoveryState. cbv zeta. repeat case_match; by repeat constructor.
Qed.

(** Whether the session must be checked, and for what. *)
Definition required (expectation : RecoveryExpectation) : option bool :=
  match expectation with RecoveryPrimary => Some false | RecoveryStandby => Some true | _ => None end.

(** What a session executes: the recovery check when one is required, and the
    caller's SQL only after it gave the required answer. *)
Definition session_runs (connection : Connection) (expectation : RecoveryExpectation) (sql : string) (failed : bool)
    (events : list pg_event) : Prop :=
  Forall within_session events ∧
  match required expectation with
  | None => executions events = [sql]
  | Some standby =>
      executions events = [recovery_sql] ∧ failed = true ∨
      executions events = [recovery_sql; sql] ∧ (checkRecoveryState connection).1 = inr standby
  end.

Lemma streamConnection_session {S} `{Sink S} limits connection expectation sql (sink : S) :
  session_runs connection expectation sql (negb (is_nil (streamConnection limits connection expectation sql sink).1.2))
    (streamConnection limits connection expectation sql sink).2.
Proof.
  unfold streamConnection. cbv zeta.
  assert (∀ before,
    let r := match cnExecute connection sql with
             | None => (zero, sink, Some (newError pgE.ErrorInvariant "execute" (EText "connector returned a nil result stream")), before ++ [Executed sql])
             | Some reader =>
                 let '(summary, sink, err, after) := streamResults limits (mrClose reader) (mrResults reader) zero sink in
                 (summary, sink, err, before ++ Executed sql :: after)
             end in
    Forall within_session before → executions r.2 = executions before ++ [sql] ∧ Forall within_session r.2) as Hexecute.
  { intros before r Hbefore. subst r. destruct (cnExecute connection sql) as [reader|].
    - pose proof (streamResults_idle limits (mrClose reader) (mrResults reader) zero sink) as [He Hw].
      destruct (streamResults _ _ _ _ _) as [[[? ?] ?] after]. cbn [snd] in *. rewrite executions_app. cbn. fold (executions after). rewrite He.
      split; [done|]. apply Forall_app. split; [done|]. by constructor.
    - cbn [snd]. rewrite executions_app. split; [done|]. apply Forall_app. split; [done|]. by repeat constructor. }
  destruct (checkRecoveryState_events connection) as [Hrun Hwithin].
  unfold session_runs. destruct expectation; cbn [required].
  - destruct (Hexecute []) as [? ?]; done.
  - destruct (checkRecoveryState connection) as [[err|inRecovery] events] eqn:E; cbn [snd fst] in *; [split; [done|by left]|].
    destruct inRecovery; cbn [Bool.eqb]; [split; [done|by left]|]. destruct (Hexecute events Hwithin) as [He Hw]. split; [done|]. right. rewrite He, Hrun. done.
  - destruct (checkRecoveryState connection) as [[err|inRecovery] events] eqn:E; cbn [snd fst] in *; [split; [done|by left]|].
    destruct inRecovery; cbn [Bool.eqb]; [|split; [done|by left]]. destruct (Hexecute events Hwithin) as [He Hw]. split; [done|]. right. rewrite He, Hrun. done.
  - destruct (Hexecute []) as [? ?]; done.
Qed.

(** ** Properties *)

(** What a query shows of the server's rows. *)
Definition shows_rows (limits : Limits) (streams : list ResultStream) (result : QueryResult) : Prop :=
  let rows := all_rows streams in
  Forall2 shows_stream streams (qrSets result) ∧
  ∃ n, longest_fit limits n rows ∧ shown_rows (qrSets result) = copied <$> take n rows ∧
    smTruncated (qrSummary result) = bool_decide (n < length rows)%nat ∧
    smEmittedRows (qrSummary result) = Z.of_nat n ∧ smObservedRows (qrSummary result) = Z.of_nat (length rows).

(** C26: a query that succeeds shows every result of the server, each with its columns, its tag and a prefix of its rows;
    over all results together the rows shown are the longest prefix of the rows sent that fits the row and byte limits,
    and the result is marked truncated exactly when that is not all of them, for an answer a machine can count. *)
Theorem QueryChecked_complete (ParseConfig : string → goerror + ConnConfig) (native : Connector) (options : ClientOptions)
    (client : Client) (ctx : option QueryContext) (o : ConnectionOptions) (expectation : RecoveryExpectation)
    (request : pg.QueryRequest) (result : QueryResult) (events : list pg_event) :
  NewClient native options = inr client →
  QueryChecked ParseConfig (Some client) ctx o expectation request = (result, None, events) →
  ∃ configuration connection limits reader,
    connectConfig ParseConfig o = inr configuration ∧ clConnector client configuration = inr connection ∧
    resolveLimits client (pg.pqLimits request) = inr limits ∧ cnExecute connection (pg.pqSQL request) = Some reader ∧
    (countable (all_rows (omap id (mrResults reader))) →
     ∃ streams, mrResults reader = Some <$> streams ∧ shows_rows limits streams result).
Proof.
  intros Hnew. pose proof (NewClient_sound _ _ _ Hnew) as Hdefault. unfold QueryChecked, StreamChecked. destruct ctx as [ctx|]; [|done].
  destruct (qcErr ctx); [done|]. destruct (negb (RecoveryExpectation_valid expectation)); [done|].
  destruct (resolveLimits _ _) as [|limits] eqn:El; [done|]. pose proof (resolveLimits_sound _ _ _ Hdefault El) as Hlimits.
  destruct (connectConfig _ _) as [|configuration] eqn:Ec; [done|]. destruct (qcOperationErr ctx); [done|].
  destruct (clConnector client configuration) as [|connection] eqn:Econn; [done|].
  intros Heq. exists configuration, connection, limits.
  assert (∃ reader after, cnExecute connection (pg.pqSQL request) = Some reader ∧
    streamResults limits (mrClose reader) (mrResults reader) zero [] = (qrSummary result, qrSets result, None, after)) as (reader & after & Hexec & Hstream).
  { unfold streamConnection in Heq. cbv zeta in Heq.
    destruct expectation; [|destruct (checkRecoveryState connection) as [[?|[|]] ?]; try done..|];
      (destruct (cnExecute connection (pg.pqSQL request)) as [reader|]; [|done]; exists reader;
       destruct (streamResults _ _ _ _ _) as [[[? ?] [?|]] after]; [done|]; exists after; split; [done|];
       destruct (cnClose connection); [done|]; by simplify_eq/=). }
  exists reader. do 4 (split; [done|]). intros Hcount.
  pose proof (streamResults_collects limits Hlimits (mrClose reader) (mrResults reader) [] [] zero [] (counted_zero limits Hlimits) eq_refl eq_refl Hcount) as H.
  rewrite Hstream in H. destruct H as (streams & more & out & Hres & _ & _ & Hsets & Hmore & Hcounted & Hshown).
  exists streams. split; [done|]. cbn [app] in *. rewrite <- Hsets in Hmore. split; [done|].
  destruct Hcounted as [Ho _ He _ Hprefix Hfits Hwhole Hcut].
  assert ((length out <= length (all_rows streams))%nat) as Hle by (rewrite Hprefix, length_take; lia).
  exists (length out). rewrite Hshown, <- Hprefix. split; [|split; [done|split; [|done]]].
  - split; [done|]. rewrite <- Hprefix. split; [done|]. intros Hlt. destruct (smTruncated (qrSummary result)); [by apply Hcut|].
    specialize (Hwhole eq_refl). rewrite Hwhole in Hlt. lia.
  - destruct (smTruncated (qrSummary result)).
    + symmetry. apply bool_decide_eq_true_2. by apply Hcut.
    + symmetry. apply bool_decide_eq_false_2. rewrite (Hwhole eq_refl). lia.
Qed.

(** A server with two results of one column and three rows in all. *)
Definition column (name : string) : Column := mkColumn name 0 0 25 (-1) (-1) 0.

Definition sample_streams : list ResultStream :=
  [mkResultStream [column "a"] [[Some "one"]; [None]] (mkCommandTag "SELECT 2" 2, None);
   mkResultStream [column "b"] [[Some "three"]] (mkCommandTag "SELECT 1" 1, None)].

Definition sample_connection : Connection :=
  mkConnection (λ sql, if sql ==s recovery_sql
                       then Some (mkMultiResult [Some (mkResultStream [column "r"] [[Some "t"]] (mkCommandTag "SELECT 1" 1, None))] None)
                       else Some (mkMultiResult (Some <$> sample_streams) None)) None.

Definition sample_parsed : ConnConfig :=
  mkConnConfig "localhost" 5432 "postgres" "postgres" "" None 0 [mkFallbackConfig "elsewhere" 5432 None] ∅.

Definition sample_connector : Connector := λ _, inr sample_connection.

Definition sample_client : Client := mkClient sample_connector defaultQueryTimeout defaultCloseTimeout (mkLimits defaultMaxRows defaultMaxBytes false).

(** Room for the first two rows only. *)
Definition two_rows : pg.QueryRequest := pg.mkQueryRequest "select" (mkLimits 2 0 false).

Lemma QueryChecked_complete_witness :
  let r := QueryChecked (λ _, inr sample_parsed) (Some sample_client) (Some (mkQueryContext None None)) zero RecoveryStandby two_rows in
  rsRows <$> qrSets r.1.1 = [[[mkCell false "one" 3]; [mkCell true "" 0]]; []] ∧ smTruncated (qrSummary r.1.1) = true ∧
  ∃ configuration connection limits reader,
    connectConfig (λ _, inr sample_parsed) zero = inr configuration ∧ clConnector sample_client configuration = inr connection ∧
    resolveLimits sample_client (pg.pqLimits two_rows) = inr limits ∧ cnExecute connection (pg.pqSQL two_rows) = Some reader ∧
    (countable (all_rows (omap id (mrResults reader))) →
     ∃ streams, mrResults reader = Some <$> streams ∧ shows_rows limits streams r.1.1).
Proof.
  cbv zeta. split; [by vm_compute|]. split; [by vm_compute|].
  refine (QueryChecked_complete (λ _, inr sample_parsed) sample_connector (mkClientOptions None 0 0 zero) sample_client
    (Some (mkQueryContext None None)) zero RecoveryStandby two_rows _ _ _ _); [by vm_compute|].
  match goal with |- ?r = _ => rewrite (surjective_pairing r) end. rewrite (surjective_pairing (QueryChecked _ _ _ _ _ _).1).
  assert ((QueryChecked (λ _, inr sample_parsed) (Some sample_client) (Some (mkQueryContext None None)) zero RecoveryStandby two_rows).1.2 = None)
    as -> by by vm_compute. reflexivity.
Defined.

(** C25: whatever the server and the sink do, a query makes at most one connection, with the parsed configuration, and
    closes it as its last act; without a required role it executes the caller's SQL and nothing else; with one it first
    executes the recovery check, and the caller's SQL only when the check answered as required; a query that ends before
    that fails. *)
Theorem StreamChecked_session {S} `{Sink S} (ParseConfig : string → goerror + ConnConfig) (client : Client)
    (ctx : option QueryContext) (o : ConnectionOptions) (expectation : RecoveryExpectation) (request : pg.QueryRequest)
    (nilSink : bool) (sink : S) :
  let '(summary, _, err, events) := StreamChecked ParseConfig (Some client) ctx o expectation request nilSink sink in
  events = [] ∧ summary = zero ∧ err ≠ None ∨
  ∃ configuration connection middle failed,
    connectConfig ParseConfig o = inr configuration ∧ clConnector client configuration = inr connection ∧
    events = Connected configuration :: middle ++ [ConnectionClosed] ∧ (failed = true → err ≠ None) ∧
    session_runs connection expectation (pg.pqSQL request) failed middle.
Proof.
  unfold StreamChecked. cbv zeta. destruct ctx as [ctx|]; [|by left]. destruct (qcErr ctx); [by left|].
  destruct nilSink; [by left|]. destruct (negb _); [by left|]. destruct (resolveLimits _ _) as [|limits]; [by left|].
  destruct (connectConfig _ _) as [|configuration] eqn:Ec; [by left|]. destruct (qcOperationErr ctx); [by left|].
  destruct (clConnector client configuration) as [|connection] eqn:Econn; [by left|].
  pose proof (streamConnection_session limits connection expectation (pg.pqSQL request) sink) as Hs.
  destruct (streamConnection _ _ _ _ _) as [[[summary sink'] err] events]. cbn [fst snd] in Hs. right.
  exists configuration, connection, events, (negb (is_nil err)). split; [done|]. split; [done|]. split; [done|]. split; [|done].
  destruct err as [err|]; [|done]. by intros _.
Qed.

(** An address that is verified. *)
Definition verified (tls : option TLSConfig) (host : string) : Prop :=
  ∃ t, tls = Some t ∧ (VersionTLS12 <= tcMinVersion t)%Z ∧ tcInsecureSkipVerify t = false ∧ tcServerName t = host.

Definition encrypted (tls : option TLSConfig) : Prop := ∃ t, tls = Some t ∧ (VersionTLS12 <= tcMinVersion t)%Z.

Lemma enforcedTLS_min base host insecure : (VersionTLS12 <= tcMinVersion (enforcedTLS base host insecure))%Z.
Proof.
  unfold enforcedTLS. cbv zeta. destruct (Z.ltb_spec (tcMinVersion (deref (mkTLSConfig 0 "" false false false) base)) VersionTLS12);
    destruct insecure; cbn; lia.
Qed.

Lemma enforcedTLS_verified base host : verified (Some (enforcedTLS base host false)) host.
Proof. eexists. split; [reflexivity|]. split; [apply (enforcedTLS_min base host false)|done]. Qed.

Lemma enforcedTLS_encrypted base host insecure : encrypted (Some (enforcedTLS base host insecure)).
Proof. eexists. split; [reflexivity|apply enforcedTLS_min]. Qed.

Lemma minimumTLS_min base t : minimumTLS base = Some t → (VersionTLS12 <= tcMinVersion t)%Z.
Proof.
  destruct base as [c|]; [|done]. intros [= <-]. cbn. destruct (Z.ltb_spec (tcMinVersion c) VersionTLS12); lia.
Qed.

(** C27: every address pgx will try, the first and the fallbacks, gets the TLS configuration of the caller's mode: in the
    default mode at least TLS 1.2, verified against the host of that address; in the insecure mode still at least TLS
    1.2; with the source's settings at least TLS 1.2 where they encrypt at all; an unknown mode is refused. *)
Theorem connectConfig_tls (ParseConfig : string → goerror + ConnConfig) (o : ConnectionOptions) (c : ConnConfig) :
  connectConfig ParseConfig o = inr c →
  match ConnectionOptions_TLSMode o with
  | TLSVerifyFull => verified (ccTLSConfig c) (ccHost c) ∧ Forall (λ f, verified (fbTLSConfig f) (fbHost f)) (ccFallbacks c)
  | TLSInsecure => encrypted (ccTLSConfig c) ∧ Forall (λ f, encrypted (fbTLSConfig f)) (ccFallbacks c)
  | TLSFromSource =>
      ∀ t, t ∈ ccTLSConfig c :: (fbTLSConfig <$> ccFallbacks c) → t = None ∨ encrypted t
  | TLSDisable => Forall (λ t, t = None) (ccTLSConfig c :: (fbTLSConfig <$> ccFallbacks c))
  | TLSRaw _ => False
  end.
Proof.
  unfold connectConfig. destruct (ParseConfig _) as [|parsed]; [done|]. unfold applyTLSMode. cbv zeta.
  destruct (ConnectionOptions_TLSMode o); [..|done]; intros [= <-]; cbn [with_tls ccTLSConfig ccFallbacks ccHost].
  - split; [apply enforcedTLS_verified|]. apply Forall_fmap, Forall_true. intros f. apply enforcedTLS_verified.
  - split; [apply (enforcedTLS_encrypted _ "" true)|]. apply Forall_fmap, Forall_true. intros f. apply (enforcedTLS_encrypted _ "" true).
  - constructor; [done|]. rewrite <- list_fmap_compose. by apply Forall_fmap, Forall_true.
  - rewrite <- list_fmap_compose. intros t [->|(f & -> & _)%list_elem_of_fmap]%elem_of_cons.
    + destruct (minimumTLS _) as [t|] eqn:E; [right|by left]. exists t. split; [done|]. by eapply minimumTLS_min.
    + cbn. destruct (minimumTLS (fbTLSConfig f)) as [t|] eqn:E; [right|by left]. exists t. split; [done|]. by eapply minimumTLS_min.
Qed.

Lemma connectConfig_tls_witness :
  ∃ c, connectConfig (λ _, inr sample_parsed) (connect_to zero "db1" 5433 "") = inr c ∧
    verified (ccTLSConfig c) "db1" ∧ Forall (λ f, verified (fbTLSConfig f) (fbHost f)) (ccFallbacks c).
Proof.
  eexists. split; [reflexivity|]. exact (connectConfig_tls (λ _, inr sample_parsed) (connect_to zero "db1" 5433 "") _ eq_refl).
Defined.

(** An explicit host, port, database, user and password take the place of what the connection text says for the
    first address only: the fallbacks keep the hosts and ports of the text, whatever host the caller asked for. *)
Theorem connectConfig_addresses (ParseConfig : string → goerror + ConnConfig) (o : ConnectionOptions) (c : ConnConfig) :
  connectConfig ParseConfig o = inr c →
  ∃ parsed, ParseConfig (parseSource o) = inr parsed ∧
    ccHost c = override (coHost o) (ccHost parsed) ∧ (coPort o ≠ 0%Z → ccPort c = coPort o) ∧
    (coHost o ≠ "" → ccHost c = coHost o) ∧ (0 < ccConnectTimeout c)%Z ∧
    (λ f, (fbHost f, fbPort f)) <$> ccFallbacks c = (λ f, (fbHost f, fbPort f)) <$> ccFallbacks parsed.
Proof.
  unfold connectConfig. destruct (ParseConfig _) as [|parsed]; [done|]. intros Hc. exists parsed. split; [done|].
  assert (∀ c', (∃ tls g, c = with_tls c' tls (fallback_tls g <$> ccFallbacks c')) →
    ccHost c = ccHost c' ∧ ccPort c = ccPort c' ∧ ccConnectTimeout c = ccConnectTimeout c' ∧
    (λ f, (fbHost f, fbPort f)) <$> ccFallbacks c = (λ f, (fbHost f, fbPort f)) <$> ccFallbacks c') as Hwith.
  { intros c' (tls & g & ->). do 3 (split; [done|]). cbn. by rewrite <- list_fmap_compose. }
  unfold applyTLSMode in Hc. cbv zeta in Hc.
  match type of Hc with context [with_tls ?c' _ _] => destruct (Hwith c') as (-> & -> & -> & ->) end.
  { destruct (ConnectionOptions_TLSMode o); simplify_eq; by repeat eexists. }
  cbn. split; [done|]. split; [|split; [|split; [|done]]].
  - intros Hp. by apply Z.eqb_neq in Hp as ->.
  - intros Hh. unfold override. by apply String.eqb_neq in Hh as ->.
  - destruct (Z.ltb_spec 0 (coConnectTimeout o)); [done|]. by vm_compute.
Qed.

(** The caller's member is tried first, and then another host. *)
Lemma connectConfig_addresses_witness :
  ∃ c, connectConfig (λ _, inr sample_parsed) (connect_to (NewConnectionOptions "host=a,elsewhere") "db1" 5433 "") = inr c ∧
    fbHost <$> ccFallbacks c = ["elsewhere"] ∧
    ∃ parsed, inr (A := goerror) sample_parsed = inr parsed ∧
      ccHost c = override "db1" (ccHost parsed) ∧ (5433 ≠ 0 → ccPort c = 5433)%Z ∧ ("db1" ≠ "" → ccHost c = "db1") ∧
      (0 < ccConnectTimeout c)%Z ∧
      (λ f, (fbHost f, fbPort f)) <$> ccFallbacks c = (λ f, (fbHost f, fbPort f)) <$> ccFallbacks parsed.
Proof.
  eexists. split; [reflexivity|]. split; [reflexivity|].
  exact (connectConfig_addresses (λ _, inr sample_parsed) (connect_to (NewConnectionOptions "host=a,elsewhere") "db1" 5433 "") _ eq_refl).
Defined.

(** A SQL file that is read is the whole file, valid UTF-8 and no longer than the limit, for every limit but the
    largest one: there the count that looks for one byte more wraps around, and every file reads as empty. *)
Theorem ReadSQLFile_whole (early later : option goerror) (f : SQLFile) (maximumBytes : Z) :
  int64 maximumBytes →
  (∀ sql, ReadSQLFile (Some (early, later)) (inr f) maximumBytes = (sql, None) → maximumBytes ≠ max_int64 →
     sql = sfData f ∧ valid_utf8 sql = true ∧
     (Z.of_nat (String.length sql) <= if (maximumBytes =? 0)%Z then defaultMaxSQLFileBytes else maximumBytes)%Z) ∧
  (early = None → later = None → sfCloseErr f = None → ReadSQLFile (Some (early, later)) (inr f) max_int64 = ("", None)).
Proof.
  intros Hm. split; [|intros -> -> Hclose; unfold ReadSQLFile; cbn; by rewrite Hclose].
  intros sql. unfold ReadSQLFile. destruct early; [done|]. destruct (Z.ltb_spec maximumBytes 0) as [|Hpos]; [done|]. cbv zeta.
  set (limit := if (maximumBytes =? 0)%Z then defaultMaxSQLFileBytes else maximumBytes). intros Hread Hmax.
  assert (0 < limit < max_int64)%Z as Hlimit.
  { subst limit. unfold int64 in Hm. destruct (Z.eqb_spec maximumBytes 0); [by vm_compute|]. lia. }
  rewrite plus64_exact in Hread by (unfold min_int64; lia). rewrite (proj2 (Z.leb_gt _ _)) in Hread by lia.
  destruct (sfReadErr f); [destruct (sfCloseErr f); by destruct later|]. destruct later; [by destruct (sfCloseErr f)|].
  destruct (Z.ltb_spec limit (Z.of_nat (String.length (read_limited (sfData f) (limit + 1))))) as [|Hlen]; [by destruct (sfCloseErr f)|].
  destruct (valid_utf8 (read_limited (sfData f) (limit + 1))) eqn:Eu; cbn [negb] in Hread; [|by destruct (sfCloseErr f)].
  destruct (sfCloseErr f); [done|]. injection Hread as <-. rewrite Eu.
  unfold read_limited in *. rewrite (proj2 (Z.leb_gt _ _)) in Hlen |- * by lia.
  rewrite length_substring in Hlen. rewrite substring_whole by lia. split; [done|]. split; [done|]. lia.
Qed.

Lemma ReadSQLFile_whole_witness :
  let f := mkSQLFile "select 1" None None in
  ReadSQLFile (Some (None, None)) (inr f) 8 = ("select 1", None) ∧
  ReadSQLFile (Some (None, None)) (inr f) max_int64 = ("", None) ∧ "select 1" = sfData f.
Proof.
  cbv zeta. split; [by vm_compute|].
  pose proof (ReadSQLFile_whole None None (mkSQLFile "select 1" None None) 8) as [H1 H2]; [by vm_compute|].
  split; [by apply H2|]. refine (proj1 (H1 "select 1" _ _)); [by vm_compute|done].
Defined.
