(* ===== verification/Etcd.v ===== *)
(** * The etcd v3 backend: [dcs/etcd3/store.go], [txn.go], [entry.go]

    [Store] maps Patroni's operations to requests of the etcd client.  The
    client, [go.etcd.io/etcd/client/v3], is not part of the repository: class
    [EtcdClient] names the requests the store makes, as functions on an
    abstract server, and the error classifiers of [rpctypes] and [grpc/status].
    What the store relies on is stated in [EtcdLaws]. *)

From S2P Require Import Prelude GoStrings GoErrors Target Values Dcs Decode.

(** ** What the client answers *)

(** [mvccpb.KeyValue] *)
Record KeyValue := mkKV {
  kvKey : string;
  kvCreateRevision : Z;
  kvModRevision : Z;
  kvVersion : Z;
  kvLease : Z;
  kvValue : string
}.

#[export] Instance KeyValue_eq_dec : EqDecision KeyValue.
Proof. solve_decision. Defined.

Record RangeResponse := mkRange { rgKvs : list KeyValue; rgMore : bool; rgRevision : Z }.
Record PutResponse := mkPut { puPrevKv : option KeyValue; puRevision : Z }.
Record DeleteResponse := mkDelete { deDeleted : Z; dePrevKvs : list KeyValue; deRevision : Z }.

(** [etcdserverpb.ResponseOp] *)
Inductive ResponseOp :=
| ResponsePut (prev : option KeyValue)
| ResponseRange (kvs : list KeyValue)
| ResponseDeleteRange (prevs : list KeyValue).

Record TxnResponse := mkTxn { txSucceeded : bool; txRevision : Z; txResponses : list ResponseOp }.

(** The [Then] branch of a transaction; the [Else] branch is always the read
    of the compared key. *)
Inductive TxnOp := OpPut (value : string) | OpDelete.

Class EtcdClient := {
  server : Type;
  client_Get : server → string → bool → Z → server * (goerror + RangeResponse);  (* key, WithPrefix, WithLimit *)
  client_Put : server → string → string → server * (goerror + PutResponse);      (* WithPrevKV *)
  client_Txn : server → string → Z → TxnOp → server * (goerror + TxnResponse);   (* If ModRevision(key) = revision *)
  client_Delete : server → string → bool → server * (goerror + DeleteResponse);  (* key, WithPrefix *)
  rpctypes_Error : goerror → goerror;
  rpctypes_auth : goerror → bool;                (* ErrAuthFailed, ErrPermissionDenied, ErrInvalidAuthToken *)
  as_EtcdError : goerror → option N;             (* errors.As(_, *EtcdError), its Code() *)
  status_Code : goerror → N                      (* status.Code *)
}.

(** [codes.Unauthenticated], [codes.PermissionDenied] *)
Definition auth_code (code : N) : bool := ((code =? 16) || (code =? 7))%N.

(** ** The store *)

Definition wrap64 (z : Z) : Z := ((z - min_int64) mod 18446744073709551616 + min_int64)%Z.

(** Of [options.TLS] only whether it is given matters here: the client gets a
    copy of it. *)
Record Options := mkOptions {
  opEndpoints : list string;
  opTLS : bool;
  opUsername : string;
  opDialTimeout : Z;
  opRequestTimeout : Z;
  opMaxDiscoveryKeys : Z;
  opPassword : string
}.

Definition WithPassword (options : Options) (password : string) : Options :=
  mkOptions (opEndpoints options) (opTLS options) (opUsername options) (opDialTimeout options)
    (opRequestTimeout options) (opMaxDiscoveryKeys options) password.

(** [clientv3.Config], the fields [New] sets. *)
Record ClientConfig := mkClientConfig {
  ccEndpoints : list string;
  ccDialTimeout : Z;
  ccUsername : string;
  ccPassword : string;
  ccTLS : bool
}.

Definition defaultDialTimeout : Z := 5000000000.
Definition defaultRequestTimeout : Z := 10000000000.
Definition defaultMaxDiscoveryKeys : Z := 100000.

(** [nil] is [None]; so is the client of a store that was not built by
    [NewFromClient]. *)
Record Store := mkStore { stHasClient : bool; stRequestTimeout : Z; stMaxDiscoveryKeys : Z }.

Definition NewFromClient (options : Options) : Store :=
  mkStore true
    (if (opRequestTimeout options <=? 0)%Z then defaultRequestTimeout else opRequestTimeout options)
    (if (opMaxDiscoveryKeys options <=? 0)%Z then defaultMaxDiscoveryKeys else opMaxDiscoveryKeys options).

(** A [context.Context]: nil, ended with an error, or live. *)
Inductive Ctx := CtxNil | CtxDone (err : goerror) | CtxLive.

Section with_client.
Context `{GoStd} `{EtcdClient}.

Definition validateEndpoint (endpoint : string) : option goerror :=
  if Contains endpoint "@" then Some (EText "endpoint userinfo is not accepted")
  else if Contains endpoint "://" then
    match url_Parse endpoint with
    | None => Some (EText "endpoint must be an http(s) URL without userinfo")
    | Some parsed =>
        if (urlHost parsed ==s "") || urlHasUser parsed || ((urlScheme parsed !=s "http") && (urlScheme parsed !=s "https"))
        then Some (EText "endpoint must be an http(s) URL without userinfo") else None
    end
  else None.

(** ** Errors *)

Definition contextErrorKind (err : goerror) : dcsE.ErrorKind :=
  if errors_Is (Some err) is_canceled then dcsE.ErrorCanceled
  else if errors_Is (Some err) is_deadline then dcsE.ErrorDeadline
  else
    let normalized := rpctypes_Error err in
    if errors_Is (Some normalized) rpctypes_auth then dcsE.ErrorAuthentication
    else if match as_EtcdError normalized with Some code => auth_code code | None => false end
    then dcsE.ErrorAuthentication
    else if auth_code (status_Code err) then dcsE.ErrorAuthentication
    else dcsE.ErrorTransport.

Definition readError (operation key : string) (err : goerror) : goerror :=
  dcs_NewError (contextErrorKind err) operation key err.

Definition writeNotSentError (operation key : string) (err : goerror) : goerror :=
  let kind := match as_dcs (Some err) with Some (kind, _) => kind | None => dcsE.ErrorConfiguration end in
  dcs_NewWriteError kind operation key dcsE.DeliveryNotSent err.

Definition writeMaybeSentError (operation key : string) (err : goerror) : goerror :=
  dcs_NewWriteError (contextErrorKind err) operation key dcsE.DeliveryMaybeSent err.

(** [New]; [dial] is [clientv3.New], of which only the error is seen here. *)
Definition New (dial : ClientConfig → option goerror) (ctx : Ctx) (options : Options) : goerror + Store :=
  match ctx with
  | CtxNil => inl (dcs_NewError dcsE.ErrorConfiguration "connect" "" (EText "context is nil"))
  | CtxDone err => inl err
  | CtxLive =>
      match opEndpoints options with
      | [] => inl (dcs_NewError dcsE.ErrorConfiguration "connect" "endpoints" (EText "no endpoints"))
      | endpoints =>
          match head (omap validateEndpoint endpoints) with
          | Some err => inl (dcs_NewError dcsE.ErrorConfiguration "connect" "endpoints" err)
          | None =>
              let dialTimeout := if (opDialTimeout options <=? 0)%Z then defaultDialTimeout else opDialTimeout options in
              let configuration :=
                mkClientConfig endpoints dialTimeout (opUsername options) (opPassword options) (opTLS options) in
              match dial configuration with
              | Some err => inl (dcs_NewError (contextErrorKind err) "connect" "" err)
              | None => inr (NewFromClient options)
              end
          end
      end
  end.

(** The child context is live; cancelling it when the operation ends changes
    nothing the store can see. *)
Definition operationContext (store : option Store) (ctx : Ctx) (operation key : string) : option goerror :=
  match store with
  | Some s =>
      if stHasClient s then
        match ctx with
        | CtxNil => Some (dcs_NewError dcsE.ErrorConfiguration operation key (EText "context is nil"))
        | CtxDone err => Some (dcs_NewError (contextErrorKind err) operation key err)
        | CtxLive => None
        end
      else Some (dcs_NewError dcsE.ErrorConfiguration operation key (EText "store is nil"))
  | None => Some (dcs_NewError dcsE.ErrorConfiguration operation key (EText "store is nil"))
  end.

(** ** Entries *)

(** The client never returns a nil [*mvccpb.KeyValue]. *)
Definition entryFromKV (prefix : string) (value : KeyValue) : Entry :=
  let relative := if prefix ==s "" then "" else relative_to prefix (kvKey value) in
  mkEntry (kvKey value) relative (ClassifyRelativePath relative) (kvCreateRevision value) (kvModRevision value)
    (kvVersion value) (kvLease value) (kvValue value).

Definition entriesFromKVs (prefix : string) (values : list KeyValue) : list Entry :=
  SortEntries (entryFromKV prefix <$> values).

Definition clusterPrefixForKey (key : string) : string :=
  match find_first (HasSuffix key) ["/config"; "/failover"] with
  | Some suffix => TrimSuffix key suffix
  | None => ""
  end.

(** ** Reads *)

Variable store : option Store.
Variable ctx : Ctx.

Definition store_Snapshot (s : server) (target : Target) : server * (goerror + Snapshot) :=
  match ClusterPrefix target with
  | inl err => (s, inl (dcs_NewError dcsE.ErrorConfiguration "snapshot" "" err))
  | inr prefix =>
      let keyPrefix := prefix +:+ "/" in
      match operationContext store ctx "snapshot" keyPrefix with
      | Some err => (s, inl err)
      | None =>
          let '(s, response) := client_Get s keyPrefix true 0 in
          (s, match response with
              | inl err => inl (readError "snapshot" keyPrefix err)
              | inr response =>
                  inr (BuildSnapshot target prefix (rgRevision response) (entriesFromKVs prefix (rgKvs response)))
              end)
      end
  end.

Definition max_keys : Z := match store with Some s => stMaxDiscoveryKeys s | None => 0 end.

Definition store_Discover (s : server) (context namespace : string)
    : server * (goerror + list DiscoveredCluster) :=
  let prefix := NamespacePrefix namespace in
  match operationContext store ctx "discover" prefix with
  | Some err => (s, inl err)
  | None =>
      let '(s, response) := client_Get s prefix true (wrap64 (max_keys + 1)) in
      (s, match response with
          | inl err => inl (readError "discover" prefix err)
          | inr response =>
              if rgMore response || (max_keys <? Z.of_nat (length (rgKvs response)))%Z then
                inl (dcs_NewError dcsE.ErrorLimit "discover" prefix
                       (EText ("namespace contains more than " +:+ FormatInt max_keys +:+ " keys")))
              else inr (DiscoverFromEntries context namespace (rgRevision response) (entriesFromKVs "" (rgKvs response)))
          end)
  end.

(** ** Writes *)

Definition write_refused (err : goerror) : WriteResult * option goerror := (zero, Some err).

(** [GetResponsePut().PrevKv], [GetResponseDeleteRange().PrevKvs[0]] *)
Definition put_previous (r : ResponseOp) : option KeyValue := match r with ResponsePut prev => prev | _ => None end.
Definition delete_previous (r : ResponseOp) : option KeyValue :=
  match r with ResponseDeleteRange prevs => head prevs | _ => None end.

(** The result of a transaction on [key]: what its [Then] branch replaced, or
    the conflict with what its [Else] branch read. *)
Definition txn_result (operation key : string) (expected : Z) (previous : ResponseOp → option KeyValue)
    (response : goerror + TxnResponse) : WriteResult * option goerror :=
  match response with
  | inl err => write_refused (writeMaybeSentError operation key err)
  | inr transaction =>
      let entry := entryFromKV (clusterPrefixForKey key) in
      if txSucceeded transaction then
        (mkWriteResult true (txRevision transaction) (entry <$> (head (txResponses transaction) ≫= previous)) None, None)
      else
        let current := match txResponses transaction with ResponseRange (kv :: _) :: _ => Some (entry kv) | _ => None end in
        (mkWriteResult false (txRevision transaction) None current,
         Some (EConflict key expected match current with Some e => enModRevision e | None => 0%Z end))
  end.

Definition put (s : server) (operation key value : string) (expected : option Z)
    : server * (WriteResult * option goerror) :=
  match operationContext store ctx operation key with
  | Some err => (s, write_refused (writeNotSentError operation key err))
  | None =>
      match expected with
      | None =>
          let '(s, response) := client_Put s key value in
          (s, match response with
              | inl err => write_refused (writeMaybeSentError operation key err)
              | inr response =>
                  (mkWriteResult true (puRevision response)
                     (entryFromKV (clusterPrefixForKey key) <$> puPrevKv response) None, None)
              end)
      | Some revision =>
          let '(s, response) := client_Txn s key revision (OpPut value) in
          (s, txn_result operation key revision put_previous response)
      end
  end.

Definition with_key (s : server) (target : Target) (name operation : string)
    (body : string → server * (WriteResult * option goerror)) : server * (WriteResult * option goerror) :=
  match KeyPath target name with
  | inl err => (s, write_refused (dcs_NewWriteError dcsE.ErrorConfiguration operation "" dcsE.DeliveryNotSent err))
  | inr key => body key
  end.

Definition store_CompareAndSwapConfig (s : server) (target : Target) (value : string) (expected : option Z)
    : server * (WriteResult * option goerror) :=
  with_key s target "config" "config-cas" (λ key, put s "config-cas" key value expected).

Definition store_WriteFailover (s : server) (target : Target) (value : string) (expected : option Z)
    : server * (WriteResult * option goerror) :=
  with_key s target "failover" "failover-write" (λ key, put s "failover-write" key value expected).

Definition delete_key (s : server) (operation key : string) (expected : option Z)
    : server * (WriteResult * option goerror) :=
  match operationContext store ctx operation key with
  | Some err => (s, write_refused (writeNotSentError operation key err))
  | None =>
      match expected with
      | None =>
          let '(s, response) := client_Delete s key false in
          (s, match response with
              | inl err => write_refused (writeMaybeSentError operation key err)
              | inr response =>
                  (mkWriteResult (0 <? deDeleted response)%Z (deRevision response)
                     (entryFromKV (clusterPrefixForKey key) <$> head (dePrevKvs response)) None, None)
              end)
      | Some revision =>
          let '(s, response) := client_Txn s key revision OpDelete in
          (s, txn_result operation key revision delete_previous response)
      end
  end.

Definition store_DeleteFailover (s : server) (target : Target) (expected : option Z)
    : server * (WriteResult * option goerror) :=
  with_key s target "failover" "failover-delete" (λ key, delete_key s "failover-delete" key expected).

Definition store_DeleteCluster (s : server) (target : Target) : server * (RemoveResult * option goerror) :=
  match ClusterPrefix target with
  | inl err =>
      (s, (zero, Some (dcs_NewWriteError dcsE.ErrorConfiguration "remove-cluster" "" dcsE.DeliveryNotSent err)))
  | inr prefix =>
      let prefix := prefix +:+ "/" in
      match operationContext store ctx "remove-cluster" prefix with
      | Some err => (s, (zero, Some (writeNotSentError "remove-cluster" prefix err)))
      | None =>
          let '(s, response) := client_Delete s prefix true in
          (s, match response with
              | inl err => (zero, Some (writeMaybeSentError "remove-cluster" prefix err))
              | inr response => (mkRemoveResult (deDeleted response) (deRevision response), None)
              end)
      end
  end.

End with_client.
