(* ===== verification/EtcdLaws.v ===== *)
(** * What the store promises, given etcd's contract

    [EtcdLaws] states what etcd documents: a request that succeeds was
    committed once, one that fails was committed once or not at all, a
    transaction whose comparison fails changes nothing, a read returns every
    key under its prefix up to its limit.  Other clients may write at any
    time; [committed] counts the requests of this client only.

    The theorems: a store write never denies a change it committed, so the
    control package's reading of write errors is sound; a discovery is never
    silently truncated; the deletion of a cluster touches no key of a sibling. *)

From S2P Require Import Prelude GoStrings GoErrors GoTime Target Version Values Json JsonLaws Dcs.
From S2P Require Import Effects Contract Samples ConfigPatch Decode DecodeLaws Etcd.

(** ** The contract of etcd *)

Inductive Mutation :=
| MPut (key value : string)
| MPutIf (key value : string) (revision : Z)
| MDelete (key : string)
| MDeleteIf (key : string) (revision : Z)
| MDeletePrefix (prefix : string).

Definition txn_mutation (key : string) (revision : Z) (op : TxnOp) : Mutation :=
  match op with OpPut value => MPutIf key value revision | OpDelete => MDeleteIf key revision end.

(** The errors of the client are not this module's. *)
Definition foreign (err : goerror) : Prop :=
  Forall (λ e, as_conflict_view e = None ∧ as_dcs_view e = None) (err_chain err).

(** What a request may have committed: [m] when it succeeded, at most [m] when
    it failed. *)
Definition may_commit {A} (before after : list Mutation) (m : Mutation) (response : goerror + A) : Prop :=
  match response with
  | inr _ => after = before ++ [m]
  | inl err => foreign err ∧ (after = before ∨ after = before ++ [m])
  end.

(** The keys a read is about. *)
Definition in_range (key : string) (prefix : bool) (kv : KeyValue) : Prop :=
  (if prefix then HasPrefix (kvKey kv) key else kvKey kv ==s key) = true.

#[export] Instance in_range_dec key prefix kv : Decision (in_range key prefix kv).
Proof. unfold in_range. apply _. Defined.

Class EtcdLaws `{EtcdClient} := {
  committed : server → list Mutation;
  visible : server → list KeyValue;
  visible_keys s : NoDup (kvKey <$> visible s);
  Get_reads s key prefix limit :
    committed (client_Get s key prefix limit).1 = committed s ∧
    visible (client_Get s key prefix limit).1 = visible s ∧
    ((0 <= limit)%Z → match (client_Get s key prefix limit).2 with
    | inl err => foreign err
    | inr response =>
        ∃ all, all ≡ₚ filter (in_range key prefix) (visible s) ∧
          rgKvs response = (if (limit =? 0)%Z then all else take (Z.to_nat limit) all) ∧
          rgMore response = ((0 <? limit) && (limit <? Z.of_nat (length all)))%Z
    end);
  Put_commits s key value :
    may_commit (committed s) (committed (client_Put s key value).1) (MPut key value) (client_Put s key value).2;
  Txn_commits s key revision op :
    match (client_Txn s key revision op).2 with
    | inr response =>
        if txSucceeded response
        then committed (client_Txn s key revision op).1 = committed s ++ [txn_mutation key revision op] ∧
             match op with
             | OpPut value => ∃ kv, kvKey kv = key ∧ kvValue kv = value ∧
                 visible (client_Txn s key revision op).1 ≡ₚ kv :: filter (λ kv', kvKey kv' ≠ key) (visible s)
             | OpDelete => True
             end
        else committed (client_Txn s key revision op).1 = committed s
    | inl err =>
        foreign err ∧
        (committed (client_Txn s key revision op).1 = committed s ∨
         committed (client_Txn s key revision op).1 = committed s ++ [txn_mutation key revision op])
    end;
  Delete_commits s key prefix :
    may_commit (committed s) (committed (client_Delete s key prefix).1)
      (if prefix then MDeletePrefix key else MDelete key) (client_Delete s key prefix).2
}.

(** ** Errors *)

Lemma foreign_views err :
  foreign err → has_conflict (Some err) = false ∧ as_dcs (Some err) = None.
Proof.
  unfold foreign, has_conflict, as_conflict, as_dcs, as_with. intros Hall.
  assert (omap as_conflict_view (err_chain err) = []) as ->
    by (induction Hall as [|e l [E _] _ IH]; [done|]; cbn; by rewrite E).
  assert (omap as_dcs_view (err_chain err) = []) as ->; [|done].
  induction Hall as [|e l [_ E] _ IH]; [done|]. cbn. by rewrite E.
Qed.

(** ** Writes *)

Definition put_mutation (key value : string) (expected : option Z) : Mutation :=
  match expected with None => MPut key value | Some revision => MPutIf key value revision end.

Definition delete_mutation (key : string) (expected : option Z) : Mutation :=
  match expected with None => MDelete key | Some revision => MDeleteIf key revision end.

(** What a write of the store did: it committed at most [m], it committed
    nothing when its result denies it ([may_apply]), and it committed [m] when
    its result claims it ([claims]). *)
Record write_honest (before after : list Mutation) (m : option Mutation) (may_apply claims : bool) : Prop := mkHonest {
  honest_at_most : after = before ∨ ∃ m', m = Some m' ∧ after = before ++ [m'];
  honest_denied : may_apply = false → after = before;
  honest_claimed : claims = true → ∃ m', m = Some m' ∧ after = before ++ [m']
}.

Definition claims_write (r : WriteResult * option goerror) : bool := is_nil r.2 && wrApplied r.1.
Definition claims_remove (r : RemoveResult * option goerror) : bool := is_nil r.2.

Lemma honest_nothing l m may : write_honest l l m may false.
Proof. split; [by left|done|done]. Qed.

Lemma honest_maybe l l' m : l' = l ∨ l' = l ++ [m] → write_honest l l' (Some m) true false.
Proof. intros [->| ->]; split; try done; [by left|]. right. by eexists. Qed.

Lemma honest_done l m claims : write_honest l (l ++ [m]) (Some m) true claims.
Proof. split; [|done|]; [right|]; by eexists. Qed.

Definition path_mutation (target : Target) (name : string) (mutation : string → Mutation) : option Mutation :=
  match KeyPath target name with inl _ => None | inr key => Some (mutation key) end.

Section laws.
Context `{GoStd} `{EtcdLaws} (store : option Store) (ctx : Ctx).

Lemma maybe_sent_applies operation key err :
  foreign err → dcs_may_apply (write_refused (writeMaybeSentError operation key err)) = true.
Proof.
  intros Hf. destruct (foreign_views err Hf) as [Hc _]. unfold dcs_may_apply, write_refused. cbn [snd].
  assert (has_conflict (Some (writeMaybeSentError operation key err)) = false) as ->; [|done].
  unfold has_conflict, as_conflict, as_with in *. by cbn.
Qed.

Lemma txn_honest s operation key revision op previous :
  let t := client_Txn s key revision op in
  let r := txn_result operation key revision previous t.2 in
  write_honest (committed s) (committed t.1) (Some (txn_mutation key revision op)) (dcs_may_apply r) (claims_write r).
Proof.
  cbv zeta. pose proof (Txn_commits s key revision op) as Hc. unfold txn_result.
  destruct (client_Txn s key revision op) as [s' [err|response]]; cbn [fst snd] in *.
  - destruct Hc as [Hf Hc]. rewrite maybe_sent_applies by done. by apply honest_maybe.
  - destruct (txSucceeded response); [destruct Hc as [-> _]; apply honest_done|]. rewrite Hc. apply honest_nothing.
Qed.

Lemma put_honest s operation key value expected :
  let w := put store ctx s operation key value expected in
  write_honest (committed s) (committed w.1) (Some (put_mutation key value expected)) (dcs_may_apply w.2) (claims_write w.2).
Proof.
  cbv zeta. unfold put. destruct (operationContext store ctx operation key); [apply honest_nothing|].
  destruct expected as [revision|]; cbn [put_mutation].
  - pose proof (txn_honest s operation key revision (OpPut value) put_previous) as Ht. cbv zeta in Ht.
    by destruct (client_Txn _ _ _ _).
  - pose proof (Put_commits s key value) as Hc. destruct (client_Put s key value) as [s' [err|response]]; cbn [fst snd] in *.
    + destruct Hc as [Hf Hc]. rewrite maybe_sent_applies by done. by apply honest_maybe.
    + rewrite Hc. apply honest_done.
Qed.

Lemma delete_honest s operation key expected :
  let w := delete_key store ctx s operation key expected in
  write_honest (committed s) (committed w.1) (Some (delete_mutation key expected)) (dcs_may_apply w.2) (claims_write w.2).
Proof.
  cbv zeta. unfold delete_key. destruct (operationContext store ctx operation key); [apply honest_nothing|].
  destruct expected as [revision|]; cbn [delete_mutation].
  - pose proof (txn_honest s operation key revision OpDelete delete_previous) as Ht. cbv zeta in Ht.
    by destruct (client_Txn _ _ _ _).
  - pose proof (Delete_commits s key false) as Hc.
    destruct (client_Delete s key false) as [s' [err|response]]; cbn [fst snd] in *.
    + destruct Hc as [Hf Hc]. rewrite maybe_sent_applies by done. by apply honest_maybe.
    + rewrite Hc. apply honest_done.
Qed.

Lemma with_key_honest s target name operation body mutation :
  (∀ key, write_honest (committed s) (committed (body key).1) (Some (mutation key))
            (dcs_may_apply (body key).2) (claims_write (body key).2)) →
  let w := with_key s target name operation body in
  write_honest (committed s) (committed w.1) (path_mutation target name mutation) (dcs_may_apply w.2) (claims_write w.2).
Proof.
  intros Hbody. cbv zeta. unfold with_key, path_mutation. destruct (KeyPath target name) as [err|key]; [|apply Hbody].
  apply honest_nothing.
Qed.

Lemma remove_honest s target :
  let w := store_DeleteCluster store ctx s target in
  write_honest (committed s) (committed w.1)
    (match ClusterPrefix target with inl _ => None | inr prefix => Some (MDeletePrefix (prefix +:+ "/")) end)
    (remove_may_apply w.2) (claims_remove w.2).
Proof.
  cbv zeta. unfold store_DeleteCluster. destruct (ClusterPrefix target) as [err|prefix]; [apply honest_nothing|].
  cbv zeta. destruct (operationContext store ctx _ _); [apply honest_nothing|].
  pose proof (Delete_commits s (prefix +:+ "/") true) as Hc.
  destruct (client_Delete s (prefix +:+ "/") true) as [s' [err|response]]; cbn [fst snd] in *.
  - destruct Hc as [Hf Hc]. by apply honest_maybe.
  - rewrite Hc. apply honest_done.
Qed.

(** ** Reads *)

Lemma wrap64_small z : (0 <= z)%Z → int64 z → wrap64 z = z.
Proof. unfold wrap64, int64, min_int64, max_int64. intros. rewrite Z.mod_small by lia. lia. Qed.

(** The keys a server holds below a prefix. *)
Definition keys_below (s : server) (prefix : string) : list KeyValue := filter (in_range prefix true) (visible s).

Lemma place_entryFromKV prefix kv : place_entry prefix (entryFromKV prefix kv) = place_entry prefix (entryFromKV "" kv).
Proof.
  unfold place_entry, entryFromKV. cbv zeta. cbn [String.eqb enRelativePath enKey].
  destruct (prefix ==s ""); [done|]. cbn [enRelativePath].
  by destruct (String.eqb_spec (relative_to prefix (kvKey kv)) "").
Qed.

Lemma BuildSnapshot_entryFromKV target prefix revision kvs :
  BuildSnapshot target prefix revision (entryFromKV prefix <$> kvs)
    = BuildSnapshot target prefix revision (entryFromKV "" <$> kvs).
Proof.
  unfold BuildSnapshot. assert (place_entry prefix <$> (entryFromKV prefix <$> kvs) = place_entry prefix <$> (entryFromKV "" <$> kvs)) as ->; [|done].
  rewrite <- !list_fmap_compose. apply list_fmap_ext. intros. apply place_entryFromKV.
Qed.

Lemma entryFromKV_keys prefix (kvs : list KeyValue) : enKey <$> (entryFromKV prefix <$> kvs) = kvKey <$> kvs.
Proof. by rewrite <- list_fmap_compose. Qed.

Lemma keys_below_NoDup s prefix : NoDup (kvKey <$> keys_below s prefix).
Proof. eapply sublist_NoDup; [apply (visible_keys s)|]. apply fmap_sublist, sublist_filter. Qed.

Lemma sorted_entries prefix (kvs kvs' : list KeyValue) :
  NoDup (kvKey <$> kvs) → kvs ≡ₚ kvs' → entriesFromKVs prefix kvs = entriesFromKVs prefix kvs'.
Proof.
  intros Hnd Hp. unfold entriesFromKVs, SortEntries. apply sort_by_unique; [by rewrite entryFromKV_keys|by rewrite Hp].
Qed.

(** A snapshot shows all the keys below the root of its target. *)
Lemma store_Snapshot_spec s target snapshot :
  (store_Snapshot store ctx s target).2 = inr snapshot →
  committed (store_Snapshot store ctx s target).1 = committed s ∧ visible (store_Snapshot store ctx s target).1 = visible s ∧
  ∃ prefix revision, ClusterPrefix target = inr prefix ∧
    snapshot = BuildSnapshot target prefix revision (entryFromKV "" <$> keys_below s (prefix +:+ "/")).
Proof.
  unfold store_Snapshot. destruct (ClusterPrefix target) as [err|prefix]; [done|]. cbv zeta.
  destruct (operationContext store ctx _ _); [done|].
  pose proof (Get_reads s (prefix +:+ "/") true 0) as (Hc & Hv & Hr). specialize (Hr ltac:(lia)).
  destruct (client_Get s (prefix +:+ "/") true 0) as [s' [err|response]]; cbn [fst snd] in *; [done|].
  intros [= <-]. split; [done|]. split; [done|]. destruct Hr as (all & Hall & Hkvs & _).
  cbn in Hkvs. exists prefix, (rgRevision response). split; [done|].
  assert (NoDup (kvKey <$> all)) as Hnd by (rewrite Hall; apply keys_below_NoDup).
  rewrite Hkvs, <- BuildSnapshot_entryFromKV. unfold entriesFromKVs, SortEntries.
  apply BuildSnapshot_order_post; [by rewrite sort_by_perm, entryFromKV_keys|].
  rewrite sort_by_perm. unfold keys_below. by rewrite Hall.
Qed.

(** A discovery reads the whole namespace or reports that it is too large. *)
Lemma store_Discover_spec s context namespace clusters :
  (0 < max_keys store < max_int64)%Z → (store_Discover store ctx s context namespace).2 = inr clusters →
  let keys := keys_below s (NamespacePrefix namespace) in
  (Z.of_nat (length keys) <= max_keys store)%Z ∧
  ∃ revision, clusters = DiscoverFromEntries context namespace revision (entriesFromKVs "" keys).
Proof.
  intros Hmax. unfold store_Discover. cbv zeta. destruct (operationContext store ctx _ _); [done|].
  rewrite wrap64_small by (unfold int64, min_int64 in *; lia).
  pose proof (Get_reads s (NamespacePrefix namespace) true (max_keys store + 1)) as (_ & _ & Hr). specialize (Hr ltac:(lia)).
  destruct (client_Get s (NamespacePrefix namespace) true (max_keys store + 1)) as [s' [err|response]]; cbn [fst snd] in *; [done|].
  destruct Hr as (all & Hall & Hkvs & Hmore). destruct (Z.eqb_spec (max_keys store + 1) 0); [lia|].
  destruct (rgMore response || (max_keys store <? Z.of_nat (length (rgKvs response)))%Z) eqn:E; [done|]. intros [= <-].
  apply orb_false_iff in E as [Em El]. rewrite Hmore in Em. apply Z.ltb_ge in El. rewrite Hkvs, length_take in El.
  assert (length all ≤ Z.to_nat (max_keys store + 1))%nat as Hlen.
  { destruct (Z.ltb_spec 0 (max_keys store + 1)); [|lia]. cbn in Em. apply Z.ltb_ge in Em. lia. }
  fold (keys_below s (NamespacePrefix namespace)) in Hall.
  split; [rewrite <- (Permutation_length Hall); lia|]. exists (rgRevision response). rewrite Hkvs, take_ge by done.
  f_equal. apply sorted_entries; [rewrite Hall; apply keys_below_NoDup|done].
Qed.

End laws.
