(* ===== verification/MemEtcd.v ===== *)
(** * An in-memory etcd with faults

    A single-node etcd that satisfies [EtcdLaws]: a map, a revision, the log of
    what it committed and a schedule of faults.  A fault makes a request fail
    before or after it was committed.  The concrete instances of the theorems
    about the store run on it. *)

From S2P Require Import Prelude GoStrings GoErrors Target Values Json Dcs Samples Etcd EtcdLaws.

Inductive fault := FaultBefore (message : string) | FaultAfter (message : string).

Definition item : Type := Z * Z * Z * Z * string.

Record mem := mkMem {
  memItems : gmap string item;
  memRevision : Z;
  memLog : list Mutation;
  memFaults : list (option fault)
}.

Definition kv_of (ki : string * item) : KeyValue :=
  let '(key, (create, modified, version, lease, value)) := ki in mkKV key create modified version lease value.

Definition mem_visible (s : mem) : list KeyValue := kv_of <$> map_to_list (memItems s).

Definition next_fault (s : mem) : option fault := mjoin (head (memFaults s)).
Definition consume (s : mem) : mem := mkMem (memItems s) (memRevision s) (memLog s) (List.tl (memFaults s)).

(** One committed change: the next revision, and its place in the log. *)
Definition commit (s : mem) (items : gmap string item) (m : Mutation) : mem :=
  mkMem items (memRevision s + 1) (memLog s ++ [m]) (memFaults s).

(** A request under the schedule: [effect] commits it. *)
Definition request {A} (s : mem) (effect : mem → mem) (answer : mem → A) : mem * (goerror + A) :=
  let fault := next_fault s in
  let s := consume s in
  match fault with
  | Some (FaultBefore message) => (s, inl (EText message))
  | Some (FaultAfter message) => (effect s, inl (EText message))
  | None => (effect s, inr (answer s))
  end.

Definition mem_get (s : mem) (key : string) (prefix : bool) (limit : Z) : mem * (goerror + RangeResponse) :=
  request s id (λ s,
    let all := sort_by kvKey (filter (in_range key prefix) (mem_visible s)) in
    mkRange (if (limit =? 0)%Z then all else take (Z.to_nat limit) all)
      ((0 <? limit) && (limit <? Z.of_nat (length all)))%Z (memRevision s)).

Definition mem_put_item (s : mem) (key value : string) : item :=
  match memItems s !! key with
  | Some (create, _, version, lease, _) => (create, memRevision s + 1, version + 1, lease, value)
  | None => (memRevision s + 1, memRevision s + 1, 1, 0, value)
  end%Z.

Definition mem_lookup (s : mem) (key : string) : option KeyValue := (λ i, kv_of (key, i)) <$> memItems s !! key.

Definition mem_put (s : mem) (key value : string) : mem * (goerror + PutResponse) :=
  request s (λ s, commit s (<[key := mem_put_item s key value]> (memItems s)) (MPut key value))
    (λ s, mkPut (mem_lookup s key) (memRevision s + 1)).

Definition mod_revision (s : mem) (key : string) : Z := deref 0%Z (kvModRevision <$> mem_lookup s key).

Definition mem_txn (s : mem) (key : string) (revision : Z) (op : TxnOp) : mem * (goerror + TxnResponse) :=
  if (mod_revision s key =? revision)%Z then
    match op with
    | OpPut value =>
        request s (λ s, commit s (<[key := mem_put_item s key value]> (memItems s)) (MPutIf key value revision))
          (λ s, mkTxn true (memRevision s + 1) [ResponsePut (mem_lookup s key)])
    | OpDelete =>
        request s (λ s, commit s (delete key (memItems s)) (MDeleteIf key revision))
          (λ s, mkTxn true (memRevision s + 1) [ResponseDeleteRange (option_list (mem_lookup s key))])
    end
  else request s id (λ s, mkTxn false (memRevision s) [ResponseRange (option_list (mem_lookup s key))]).

Definition removed_by (key : string) (prefix : bool) (ki : string * item) : Prop := in_range key prefix (kv_of ki).

#[export] Instance removed_by_dec key prefix ki : Decision (removed_by key prefix ki).
Proof. unfold removed_by. apply _. Defined.

Definition mem_delete (s : mem) (key : string) (prefix : bool) : mem * (goerror + DeleteResponse) :=
  request s
    (λ s, commit s (list_to_map (filter (λ ki, ¬ removed_by key prefix ki) (map_to_list (memItems s))))
            (if prefix then MDeletePrefix key else MDelete key))
    (λ s, let gone := kv_of <$> filter (removed_by key prefix) (map_to_list (memItems s)) in
          mkDelete (Z.of_nat (length gone)) gone (memRevision s + 1)).

#[export] Instance mem_client : EtcdClient := {|
  server := mem;
  client_Get := mem_get;
  client_Put := mem_put;
  client_Txn := mem_txn;
  client_Delete := mem_delete;
  rpctypes_Error := id;
  rpctypes_auth := λ _, false;
  as_EtcdError := λ _, None;
  status_Code := λ _, 2%N
|}.

(** ** The contract *)

Lemma text_foreign message : foreign (EText message).
Proof. by repeat constructor. Qed.

Lemma kv_of_key ki : kvKey (kv_of ki) = ki.1.
Proof. by destruct ki as [? [[[[? ?] ?] ?] ?]]. Qed.

Lemma mem_visible_keys s : NoDup (kvKey <$> mem_visible s).
Proof.
  unfold mem_visible. rewrite <- list_fmap_compose. rewrite (list_fmap_ext _ fst); [apply NoDup_fst_map_to_list|].
  intros i ki _. apply kv_of_key.
Qed.

Lemma request_commits {A} s items m (answer : mem → A) :
  let r := request s (λ s, commit s (items s) m) answer in
  may_commit (memLog s) (memLog r.1) m r.2.
Proof.
  cbv zeta. unfold request, may_commit. destruct (next_fault s) as [[message|message]|]; cbn.
  - split; [apply text_foreign|by left].
  - split; [apply text_foreign|by right].
  - done.
Qed.

Lemma mem_visible_insert s key value :
  kv_of <$> map_to_list (<[key := mem_put_item s key value]> (memItems s)) ≡ₚ
    kv_of (key, mem_put_item s key value) :: filter (λ kv, kvKey kv ≠ key) (mem_visible s).
Proof.
  rewrite <- insert_delete_eq, map_to_list_insert by apply lookup_delete_eq. cbn [fmap list_fmap]. apply Permutation_skip.
  apply NoDup_Permutation.
  - eapply (NoDup_fmap_1 kvKey). rewrite <- list_fmap_compose. rewrite (list_fmap_ext _ fst); [apply NoDup_fst_map_to_list|].
    intros i ki _. apply kv_of_key.
  - apply NoDup_filter. eapply (NoDup_fmap_1 kvKey), mem_visible_keys.
  - intros kv. rewrite list_elem_of_filter. unfold mem_visible. rewrite !list_elem_of_fmap. split.
    + intros ([k i] & -> & Hin%elem_of_map_to_list). rewrite lookup_delete_Some in Hin. destruct Hin as [Hne Hin].
      split; [by rewrite kv_of_key|]. exists (k, i). split; [done|]. by apply elem_of_map_to_list.
    + intros [Hne ([k i] & -> & Hin%elem_of_map_to_list)]. exists (k, i). split; [done|]. apply elem_of_map_to_list.
      rewrite kv_of_key in Hne. cbn in Hne. apply lookup_delete_Some. split; [congruence|done].
Qed.

Lemma put_item_value s key value :
  kvKey (kv_of (key, mem_put_item s key value)) = key ∧ kvValue (kv_of (key, mem_put_item s key value)) = value.
Proof. unfold mem_put_item. by destruct (memItems s !! key) as [[[[[? ?] ?] ?] ?]|]. Qed.

Lemma mem_txn_commits s key revision op :
  match (mem_txn s key revision op).2 with
  | inr response =>
      if txSucceeded response
      then memLog (mem_txn s key revision op).1 = memLog s ++ [txn_mutation key revision op] ∧
           match op with
           | OpPut value => ∃ kv, kvKey kv = key ∧ kvValue kv = value ∧
               mem_visible (mem_txn s key revision op).1 ≡ₚ kv :: filter (λ kv', kvKey kv' ≠ key) (mem_visible s)
           | OpDelete => True
           end
      else memLog (mem_txn s key revision op).1 = memLog s
  | inl err =>
      foreign err ∧
      (memLog (mem_txn s key revision op).1 = memLog s ∨
       memLog (mem_txn s key revision op).1 = memLog s ++ [txn_mutation key revision op])
  end.
Proof.
  unfold mem_txn. destruct (mod_revision s key =? revision)%Z.
  - destruct op as [value|]; unfold request; destruct (next_fault s) as [[message|message]|]; cbn [fst snd];
      try (split; [apply text_foreign|]; by ((by left) || (by right))); cbn [txSucceeded]; split; try done.
    destruct (put_item_value s key value) as [Hk Hv]. eexists. split; [exact Hk|]. split; [exact Hv|].
    apply (mem_visible_insert s).
  - unfold request. destruct (next_fault s) as [[message|message]|]; cbn; try done; (split; [apply text_foreign|by left]).
Qed.

#[export] Instance mem_laws : EtcdLaws.
Proof.
  refine {| committed := memLog; visible := mem_visible; visible_keys := mem_visible_keys |}.
  - intros s key prefix limit. cbn. unfold mem_get, request.
    destruct (next_fault s) as [[message|message]|]; cbn; (split; [done|]; split; [done|]); intros _; try apply text_foreign.
    exists (sort_by kvKey (filter (in_range key prefix) (mem_visible s))). split; [apply sort_by_perm|]. by split.
  - intros s key value. exact (request_commits s (λ s, <[key := mem_put_item s key value]> (memItems s)) _ _).
  - exact mem_txn_commits.
  - intros s key prefix.
    exact (request_commits s (λ s, list_to_map (filter (λ ki, ¬ removed_by key prefix ki) (map_to_list (memItems s)))) _ _).
Defined.

(** A server that holds the given keys. *)
Definition mem_of (items : list (string * string)) (faults : list (option fault)) : mem :=
  mkMem (list_to_map ((λ kv, (kv.1, (1, 5, 1, 0, kv.2)%Z)) <$> items)) 9 [] faults.
