(* ===== verification/StoreLaws.v ===== *)
(** * Reads and deletions of the etcd store

    On any client that satisfies [EtcdLaws]: a discovery is complete or
    refused, it shows what a direct snapshot shows, a configuration that was
    swapped in is the one the next snapshot reads, and deleting a cluster
    touches no key of another one. *)

From S2P Require Import Prelude GoStrings GoErrors GoTime Target Version Values Json JsonLaws Dcs.
From S2P Require Import Effects Contract Samples ConfigPatch Decode DecodeLaws Etcd EtcdLaws MemEtcd.

(** ** Roots *)

Lemma ClusterPrefix_root target root :
  ClusterPrefix target = inr root →
  root = cluster_root (NormalizeNamespace (tNamespace target)) (TrimSpace (tScope target)) (tGroup target).
Proof.
  unfold ClusterPrefix. cbv zeta. destruct (Target_Validate _ true); [done|]. intros [= <-].
  unfold cluster_components, cluster_root, NamespacePrefix. cbn. rewrite !NormalizeNamespace_idem.
  destruct (tGroup target) as [z|]; cbn [app]; rewrite !Join_cons; unfold Join; cbn [String.concat];
    rewrite ?string_app_nil_r, !string_app_assoc; done.
Qed.

Lemma ClusterPrefix_group target root z : ClusterPrefix target = inr root → tGroup target = Some z → (0 <= z)%Z.
Proof.
  unfold ClusterPrefix. cbv zeta. destruct (Target_Validate _ true) eqn:E; [done|]. intros _ Hz. revert E.
  rewrite Target_Validate_Normalize. unfold Target_Validate. cbv zeta. cbn [tGroup Normalize]. rewrite Hz.
  repeat (case_match; try done). intros _. by apply Z.ltb_ge.
Qed.

Lemma in_range_below namespace scope group kv :
  in_range (cluster_root namespace scope group +:+ "/") true kv → in_range (NamespacePrefix namespace) true kv.
Proof.
  unfold in_range. intros [r ->]%HasPrefix_spec. unfold cluster_root. rewrite !string_app_assoc. apply HasPrefix_app.
Qed.

Lemma filter_entries (P : KeyValue → Prop) `{∀ kv, Decision (P kv)} (Q : Entry → Prop) `{∀ e, Decision (Q e)} (kvs : list KeyValue) :
  (∀ kv, P kv ↔ Q (entryFromKV "" kv)) → filter Q (entryFromKV "" <$> kvs) = entryFromKV "" <$> filter P kvs.
Proof.
  intros HPQ. induction kvs as [|kv kvs IH]; [done|]. cbn [fmap list_fmap]. rewrite !filter_cons.
  destruct (decide (P kv)) as [Hp|Hp]; [rewrite decide_True by by apply HPQ|rewrite decide_False by by rewrite <- HPQ];
    cbn [fmap list_fmap]; by rewrite IH.
Qed.

Section laws.
Context `{GoStd} `{EtcdLaws} (store : option Store) (ctx : Ctx).

(** A discovery is complete or refused, never truncated: when the store, built by [NewFromClient] with a limit below
    the largest 64-bit integer, returns clusters, the namespace held at most [maxDiscoveryKeys] keys and the clusters are
    those of all of them; the limit it asks etcd for never wraps around. *)
Theorem store_Discover_bounded (options : Options) (s : server) (context namespace : string)
    (clusters : list DiscoveredCluster) :
  (opMaxDiscoveryKeys options < max_int64)%Z →
  (store_Discover (Some (NewFromClient options)) ctx s context namespace).2 = inr clusters →
  let limit := stMaxDiscoveryKeys (NewFromClient options) in
  let keys := keys_below s (NamespacePrefix namespace) in
  (0 < limit)%Z ∧ wrap64 (limit + 1) = (limit + 1)%Z ∧ (Z.of_nat (length keys) <= limit)%Z ∧
  ∃ revision, clusters = DiscoverFromEntries context namespace revision (entriesFromKVs "" keys).
Proof.
  intros Hmax Hr. assert (0 < stMaxDiscoveryKeys (NewFromClient options) < max_int64)%Z as Hlimit.
  { unfold NewFromClient. cbn. destruct (Z.leb_spec (opMaxDiscoveryKeys options) 0); [by split|by split]. }
  cbv zeta. split; [apply Hlimit|]. split; [apply wrap64_small; unfold int64, min_int64 in *; lia|].
  by apply (store_Discover_spec (Some (NewFromClient options)) ctx).
Qed.

(** Discovery and snapshot agree on the store: for keys written as Patroni writes them, every cluster a discovery
    returned shows the cluster state and the issues that a snapshot of that cluster shows while nobody writes, so the
    two ways the control package looks for a cluster cannot disagree. *)
Theorem store_Discover_Snapshot (s s' : server) (context namespace : string) (clusters : list DiscoveredCluster)
    (d : DiscoveredCluster) (snapshot : Snapshot) :
  (0 < max_keys store < max_int64)%Z →
  Forall (λ kv, canonical_key (NormalizeNamespace namespace) (kvKey kv)) (visible s) →
  (store_Discover store ctx s context namespace).2 = inr clusters → d ∈ clusters →
  visible s' = visible s → (store_Snapshot store ctx s' (dcTarget d)).2 = inr snapshot →
  ∃ discovered, dcSnapshot d = Some discovered ∧
    snCluster discovered = snCluster snapshot ∧ snIssues discovered = snIssues snapshot ∧
    snTarget discovered = snTarget snapshot.
Proof.
  intros Hmax Hcanon Hdiscover Hd Hvisible Hsnap.
  apply store_Discover_spec in Hdiscover as [_ [revision ->]]; [|done].
  set (keys := keys_below s (NamespacePrefix namespace)) in *.
  assert (raw_keys namespace (entriesFromKVs "" keys)) as Hraw.
  { unfold raw_keys, entriesFromKVs, SortEntries. rewrite !sort_by_perm, entryFromKV_keys.
    split; [apply keys_below_NoDup|]. apply Forall_fmap, Forall_forall. intros kv [_ Hkv]%list_elem_of_filter.
    rewrite Forall_forall in Hcanon. split; [done|]. by apply Hcanon. }
  destruct (DiscoverFromEntries_post context namespace revision _ Hraw) as [Hall _].
  destruct (Hall d Hd) as ((scope & group & Et & Hseg & Htrim & Hgroup) & root & discovered & Hroot & Esnap & Hsame).
  exists discovered. split; [done|].
  apply store_Snapshot_spec in Hsnap as (_ & _ & prefix & revision' & Hroot' & ->).
  rewrite Hroot in Hroot'. injection Hroot' as <-. destruct Hsame as (Htarget & _ & Hcluster & Hissues & _ & _).
  pose proof (ClusterPrefix_root _ _ Hroot) as Eroot. rewrite Et in Eroot. cbn in Eroot.
  rewrite NormalizeNamespace_idem, TrimSpace_idem in Eroot.
  assert (BuildSnapshot (dcTarget d) root revision (filter (under root) (entriesFromKVs "" keys))
          = BuildSnapshot (dcTarget d) root revision (entryFromKV "" <$> keys_below s' (root +:+ "/"))) as Edirect.
  { apply BuildSnapshot_order_post.
    - eapply sublist_NoDup; [|apply fmap_sublist, sublist_filter]. apply Hraw.
    - unfold entriesFromKVs, SortEntries. rewrite sort_by_perm.
      rewrite (filter_entries (in_range (root +:+ "/") true)) by done.
      unfold keys, keys_below. rewrite Hvisible, list_filter_filter_l; [done|].
      intros kv Hkv. rewrite Eroot in Hkv. unfold NamespacePrefix in *.
      rewrite <- (NormalizeNamespace_idem namespace). by eapply in_range_below. }
  rewrite Edirect in *. rewrite Htarget, Hcluster, Hissues. unfold BuildSnapshot. cbv zeta. by destruct (decodeCluster _).
Qed.

(** ** A swapped configuration *)

Lemma decode_entry_config c entry :
  csConfig (decode_entry c entry).1
    = if bool_decide (enKind entry = KeyConfig) then (decode_config entry).1 else csConfig c.
Proof.
  destruct c. unfold decode_entry.
  destruct (enKind entry); [done|done|by destruct (decode_config entry)|by destruct (decodeMember entry)|done
    |by destruct (decodeFailover entry)|by destruct (decode_history entry)|done|done|by destruct (decodeSync entry)
    |by destruct (decode_failsafe entry)].
Qed.

(** The configuration is the one of the only config key. *)
Lemma decode_fold_config entries entry acc :
  entry ∈ entries → enKind entry = KeyConfig →
  (∀ e, e ∈ entries → enKind e = KeyConfig → e = entry) →
  csConfig (foldl decode_step acc entries).1 = (decode_config entry).1.
Proof.
  induction entries as [|e entries IH] using rev_ind; [by intros ?%not_elem_of_nil|]. intros Hin Hk Hunique.
  rewrite foldl_app. cbn [foldl]. unfold decode_step at 1.
  destruct (foldl decode_step acc entries) as [c issues] eqn:E. cbn [fst].
  pose proof (decode_entry_config c e) as Hc. destruct (decode_entry c e) as [c' more]. cbn [fst] in *. rewrite Hc.
  case_bool_decide as Hkind.
  - by rewrite (Hunique e) by (done || (apply elem_of_app; right; by apply list_elem_of_singleton)).
  - apply IH; [|done|intros e' He'; apply Hunique; apply elem_of_app; by left].
    apply elem_of_app in Hin as [?| ->%list_elem_of_singleton]; [done|done].
Qed.

Lemma decodeCluster_config entries entry :
  entry ∈ entries → enKind entry = KeyConfig → (∀ e, e ∈ entries → enKind e = KeyConfig → e = entry) →
  csConfig (decodeCluster entries).1 = (decode_config entry).1.
Proof.
  intros Hin Hk Hunique. rewrite <- (decode_fold_config entries entry (zero, []) Hin Hk Hunique). unfold decodeCluster.
  destruct (foldl decode_step (zero, []) entries) as [c issues]. destruct (status_entry entries) as [e|]; [|done].
  by destruct (decodeStatus e).
Qed.

(** C30: a configuration swapped into etcd is the one the next snapshot reads: when [CompareAndSwapConfig] reports that it
    applied the JSON text of a configuration, and nobody writes in between, every key of the configuration in the next
    snapshot has the value that was written (nested objects up to the order of their keys). The only proviso is that no
    other key below the root is spelled like the config key, with extra slashes. *)
Theorem CompareAndSwapConfig_read_back (s : server) (target : Target) (configuration : config) (value : string)
    (expected : Z) (result : WriteResult) (snapshot : Snapshot) (root : string) :
  root_segment (TrimSpace (tScope target)) → good_config configuration → Marshal (VMap configuration) = Some value →
  ClusterPrefix target = inr root →
  Forall (λ kv, HasPrefix (kvKey kv) (root +:+ "/") = true →
            ClassifyRelativePath (relative_to root (kvKey kv)) = KeyConfig → kvKey kv = root +:+ "/config") (visible s) →
  let swap := store_CompareAndSwapConfig store ctx s target value (Some expected) in
  swap.2 = (result, None) → wrApplied result = true →
  (store_Snapshot store ctx swap.1 target).2 = inr snapshot →
  ∀ key, map_get (csConfig (snCluster snapshot)) key = in_key_order <$> map_get configuration key.
Proof.
  intros Hseg Hgood Hvalue Hroot Honly swap Hswap Happlied Hsnap key.
  assert (KeyPath target "config" = inr (root +:+ "/config")) as Hkey by (unfold KeyPath; by rewrite Hroot).
  assert (∃ kv, kvKey kv = root +:+ "/config" ∧ kvValue kv = value ∧
            visible swap.1 ≡ₚ kv :: filter (λ kv', kvKey kv' ≠ root +:+ "/config") (visible s)) as (kv & Ekey & Evalue & Hvis).
  { revert Hswap. unfold swap, store_CompareAndSwapConfig, with_key. rewrite Hkey. unfold put.
    destruct (operationContext store ctx _ _); [done|].
    pose proof (Txn_commits s (root +:+ "/config") expected (OpPut value)) as Hc.
    destruct (client_Txn s (root +:+ "/config") expected (OpPut value)) as [s' [err|response]]; [done|]. cbn [fst snd] in *.
    unfold txn_result. destruct (txSucceeded response); [by destruct Hc|done]. }
  apply store_Snapshot_spec in Hsnap as (_ & _ & prefix & revision & Hroot' & ->). rewrite Hroot in Hroot'.
  injection Hroot' as <-. rewrite BuildSnapshot_cluster.
  pose proof (ClusterPrefix_root _ _ Hroot) as Eroot.
  set (entry := place_entry root (entryFromKV "" kv)).
  assert (relative_to root (kvKey kv) = "config") as Erel.
  { rewrite Ekey, Eroot. by apply (relative_below _ _ _ "config"). }
  assert (enKind entry = KeyConfig ∧ enValue entry = value) as [Ekind Eentry].
  { unfold entry, place_entry. cbn. by rewrite Erel. }
  rewrite (decodeCluster_config _ entry); [|..].
  - destruct (decode_config_post entry configuration Hgood) as (_ & _ & ->); [by rewrite Eentry|done].
  - unfold SortEntries. apply sort_by_elem. do 2 apply list_elem_of_fmap_2. unfold keys_below.
    apply list_elem_of_filter. split; [unfold in_range; rewrite Ekey; change "/config" with ("/" +:+ "config"); rewrite <- string_app_assoc; apply HasPrefix_app|].
    rewrite Hvis. apply list_elem_of_here.
  - done.
  - intros e He Hk. unfold SortEntries in He. apply sort_by_elem in He.
    apply list_elem_of_fmap in He as (e' & -> & He'). apply list_elem_of_fmap in He' as (kv' & -> & Hkv').
    apply list_elem_of_filter in Hkv' as [Hrange Hkv']. rewrite Hvis in Hkv'.
    apply elem_of_cons in Hkv' as [->|[Hne Hkv']%list_elem_of_filter]; [done|]. exfalso. apply Hne.
    rewrite Forall_forall in Honly. apply (Honly kv' Hkv' Hrange). exact Hk.
Qed.

(** ** Deleting a cluster *)

(** Whether a mutation may change a key. *)
Definition touches (m : Mutation) (key : string) : bool :=
  match m with
  | MPut k _ | MPutIf k _ _ | MDelete k | MDeleteIf k _ => k ==s key
  | MDeletePrefix prefix => HasPrefix key prefix
  end.

Lemma root_slash namespace scope group :
  cluster_root namespace scope group +:+ "/" =
  NamespacePrefix namespace +:+ scope +:+ "/" +:+ match group with None => "" | Some z => FormatInt z +:+ "/" end.
Proof. unfold cluster_root. destruct group; by rewrite !string_app_assoc, ?string_app_nil_r. Qed.

Lemma app_inj_l p s t : p +:+ s = p +:+ t → s = t.
Proof. induction p as [|c p IH]; [done|]. intros E. injection E as E. by apply IH. Qed.

Lemma HasPrefix_app_app p s t : HasPrefix (p +:+ s) (p +:+ t) = HasPrefix s t.
Proof.
  induction p as [|c p IH]; [done|].
  change ((if ascii_dec c c then HasPrefix (p +:+ s) (p +:+ t) else false) = HasPrefix s t).
  by destruct (ascii_dec c c).
Qed.

Lemma segment_inj x y s t : lacks "/" x → lacks "/" y → x +:+ "/" +:+ s = y +:+ "/" +:+ t → x = y ∧ s = t.
Proof.
  intros Hx Hy E. apply (f_equal (Split "/")) in E. rewrite !slash_app, !Split_app in E by done.
  injection E as -> E. split; [done|]. by rewrite <- (Join_Split "/" s), E, Join_Split.
Qed.

(** Which known keys of a cluster a root holds. *)
Lemma root_holds namespace scope scope' group group' path :
  root_segment scope → root_segment scope' → good_group group → good_group group' → known_path path = true →
  HasPrefix (cluster_root namespace scope' group' +:+ "/" +:+ path) (cluster_root namespace scope group +:+ "/") = true ↔
  scope = scope' ∧ (group = None ∨ group = group').
Proof.
  intros [_ Hs] [_ Hs'] Hg Hg' Hk. rewrite <- string_app_assoc, !root_slash. split.
  - intros [r E]%HasPrefix_spec. rewrite !string_app_assoc in E. apply app_inj_l in E.
    apply segment_inj in E as [-> E]; [|done..]. split; [done|]. destruct group as [z|]; [right|by left].
    destruct group' as [z'|].
    + rewrite !string_app_assoc in E. apply segment_inj in E as [E _]; [|apply FormatInt_segment..].
      f_equal. symmetry. apply FormatInt_inj; [apply (Hg' _ eq_refl)|apply (Hg _ eq_refl)|done].
    + exfalso. rewrite string_app_assoc in E. assert (path = FormatInt z +:+ "/" +:+ r) as -> by exact E.
      destruct (ParseInt_head (FormatInt z) z) as (c & t & Et & Hc & Hl); [by apply ParseInt_FormatInt, (Hg _ eq_refl)|].
      rewrite Et in Hk. apply Hl. by eapply classified_letter.
  - intros [-> [->| ->]]; rewrite !string_app_assoc, !HasPrefix_app_app; [by destruct (_ +:+ path)|apply HasPrefix_app].
Qed.

(** Deleting a cluster from the store is exact: it commits nothing but the deletion of the keys below the cluster's
    root; of the keys Patroni knows of any cluster in the same namespace that deletion touches those of this cluster
    and, for a target without a Citus group, those of the groups of the same scope, and none of any other scope or
    group; and a result that denies the deletion means nothing was deleted. *)
Theorem store_DeleteCluster_exact (s : server) (target other : Target) (root root' path : string) :
  root_segment (TrimSpace (tScope target)) → root_segment (TrimSpace (tScope other)) →
  group_in_range target → group_in_range other → ClusterPrefix target = inr root → ClusterPrefix other = inr root' →
  NormalizeNamespace (tNamespace target) = NormalizeNamespace (tNamespace other) → known_path path = true →
  let deletion := MDeletePrefix (root +:+ "/") in
  let w := store_DeleteCluster store ctx s target in
  (committed w.1 = committed s ∨ committed w.1 = committed s ++ [deletion]) ∧
  (remove_may_apply w.2 = false → committed w.1 = committed s) ∧
  (w.2.2 = None → committed w.1 = committed s ++ [deletion]) ∧
  (touches deletion (root' +:+ "/" +:+ path) = true ↔
     TrimSpace (tScope target) = TrimSpace (tScope other) ∧ (tGroup target = None ∨ tGroup target = tGroup other)).
Proof.
  intros Hs Hs' Hg Hg' Hroot Hroot' Hns Hk deletion w.
  pose proof (remove_honest store ctx s target) as Hw. cbv zeta in Hw. rewrite Hroot in Hw.
  destruct Hw as [Hmost Hdenied Hclaimed]. fold w deletion in Hmost, Hdenied, Hclaimed. split_and!.
  - destruct Hmost as [|(m & [= <-] & ?)]; [by left|by right].
  - done.
  - intros Hok. destruct Hclaimed as (m & [= <-] & ?); [|done]. unfold claims_remove. by rewrite Hok.
  - cbn [touches deletion]. rewrite (ClusterPrefix_root _ _ Hroot), (ClusterPrefix_root _ _ Hroot'), Hns.
    apply root_holds; [done|done| | |done]; intros z Hz.
    + split; [|by apply Hg]. exact (ClusterPrefix_group _ _ _ Hroot Hz).
    + split; [|by apply Hg']. exact (ClusterPrefix_group _ _ _ Hroot' Hz).
Qed.
End laws.

(** ** Concrete instances, on the in-memory etcd *)

Definition sample_store : Store := NewFromClient (mkOptions ["http://etcd:2379"] false "" 0 0 100 "").

Definition sample_etcd (faults : list (option fault)) : mem :=
  mem_of [("/service/pg/leader", "n1"); ("/service/pg/config", text (VMap [("ttl", VNumber "30")]));
          ("/service/pg/0/leader", "w1"); ("/service/other/initialize", "7")] faults.

Definition found_clusters : list DiscoveredCluster :=
  match (store_Discover (Some sample_store) CtxLive (sample_etcd []) "" "service").2 with inr c => c | inl _ => [] end.

Lemma found_clusters_spec :
  (store_Discover (Some sample_store) CtxLive (sample_etcd []) "" "service").2 = inr found_clusters.
Proof. by vm_compute. Qed.

Lemma store_Discover_bounded_witness :
  length found_clusters = 3%nat ∧ (Z.of_nat (length (keys_below (sample_etcd []) (NamespacePrefix "service"))) <= 100)%Z.
Proof.
  split; [by vm_compute|].
  exact (proj1 (proj2 (proj2 (store_Discover_bounded CtxLive (mkOptions ["http://etcd:2379"] false "" 0 0 100 "") (sample_etcd []) ""
    "service" found_clusters eq_refl found_clusters_spec)))).
Defined.

Definition found_cluster : DiscoveredCluster := deref (mkDiscoveredCluster zero 0 [] None) (found_clusters !! 1%nat).

Definition read_cluster : Snapshot :=
  match (store_Snapshot (Some sample_store) CtxLive (sample_etcd []) (dcTarget found_cluster)).2 with
  | inr snapshot => snapshot
  | inl _ => zero
  end.

Lemma store_Discover_Snapshot_witness :
  csLeader (snCluster read_cluster) = Some (mkLeader "n1" 5 0) ∧
  ∃ discovered, dcSnapshot found_cluster = Some discovered ∧ snCluster discovered = snCluster read_cluster ∧
    snIssues discovered = snIssues read_cluster ∧ snTarget discovered = snTarget read_cluster.
Proof.
  split; [by vm_compute|].
  apply (@store_Discover_Snapshot sample_std mem_client mem_laws (Some sample_store) CtxLive (sample_etcd []) (sample_etcd []) "" "service" found_clusters
    found_cluster read_cluster).
  - by vm_compute.
  - apply (bool_decide_unpack _). by vm_compute.
  - exact found_clusters_spec.
  - by apply (list_elem_of_lookup_2 _ 1); vm_compute.
  - done.
  - by vm_compute.
Defined.

Definition swapped_config : config := [("ttl", VNumber "20"); ("pause", VBool true)].

Definition swapped : mem * (WriteResult * option goerror) :=
  store_CompareAndSwapConfig (Some sample_store) CtxLive (sample_etcd []) sample_target
    (text (VMap swapped_config)) (Some 5%Z).

Definition swapped_snapshot : Snapshot :=
  match (store_Snapshot (Some sample_store) CtxLive swapped.1 sample_target).2 with inr s => s | inl _ => zero end.

Lemma CompareAndSwapConfig_read_back_witness :
  swapped.2.2 = None ∧ map_get (csConfig (snCluster swapped_snapshot)) "pause" = Some (VBool true).
Proof.
  split; [by vm_compute|].
  apply (@CompareAndSwapConfig_read_back sample_std mem_client mem_laws (Some sample_store) CtxLive (sample_etcd []) sample_target swapped_config
    (text (VMap swapped_config)) 5 swapped.2.1 swapped_snapshot "/service/pg").
  - by split.
  - split; [|done]. split; [apply (bool_decide_unpack _); by vm_compute|by repeat split].
  - by vm_compute.
  - by vm_compute.
  - apply (bool_decide_unpack _). by vm_compute.
  - by vm_compute.
  - by vm_compute.
  - by vm_compute.
Defined.

Lemma store_DeleteCluster_exact_witness :
  let w := store_DeleteCluster (Some sample_store) CtxLive (sample_etcd [Some (FaultAfter "timeout")]) sample_target in
  (memLog w.1 = [MDeletePrefix "/service/pg/"] ∧ remove_may_apply w.2 = true) ∧
  (touches (MDeletePrefix "/service/pg/") "/service/other/initialize" = true ↔ "pg" = "other" ∧ (None = @None Z ∨ None = @None Z)).
Proof.
  split; [by vm_compute|].
  apply (@store_DeleteCluster_exact mem_client mem_laws (Some sample_store) CtxLive (sample_etcd [Some (FaultAfter "timeout")]) sample_target
    (mkTarget "prod" "/service" "other" None "") "/service/pg" "/service/other" "initialize"); try done; by split.
Defined.
