(* ===== verification/StoreRuns.v ===== *)
(** * The control package on the etcd store

    The programs of the control package, run against [Etcd.Store] instead of
    an arbitrary oracle: snapshots, discoveries and DCS writes are requests to
    the etcd client, everything else (REST, the clock's waits, random values)
    is answered by an oracle, and other clients may change etcd between any two
    calls.  The theorems compose the guarantees of the handlers with those of
    the store: what a result says about the cluster is true of what this client
    committed to etcd. *)

From S2P Require Import Prelude GoStrings GoErrors GoTime Target Version Values Json JsonLaws Dcs.
From S2P Require Import Effects Contract Samples Snapshots Batch ConfigPatch Decode DecodeLaws.
From S2P Require Import Etcd EtcdLaws MemEtcd StoreLaws Transition TransitionHonest TransitionProtocol Remove EditConfig.

(** ** Events and commits *)

Section mutations.
Context `{GoStd}.

(** What a DCS write asks etcd to commit. *)
Definition event_mutation (c : call) : option Mutation :=
  match c with
  | CWriteFailover target payload expected =>
      path_mutation target "failover" (λ key, put_mutation key (text (payload_value payload)) expected)
  | CDeleteFailover target expected => path_mutation target "failover" (λ key, delete_mutation key expected)
  | CCompareAndSwapConfig target payload expected =>
      path_mutation target "config" (λ key, put_mutation key payload expected)
  | CDeleteCluster target =>
      match ClusterPrefix target with inl _ => None | inr prefix => Some (MDeletePrefix (prefix +:+ "/")) end
  | _ => None
  end.

Definition claimed (e : event) : bool :=
  match e with
  | Ev c r =>
      match c return reply c → bool with
      | CWriteFailover _ _ _ | CDeleteFailover _ _ | CCompareAndSwapConfig _ _ _ => claims_write
      | CDeleteCluster _ => claims_remove
      | _ => λ _, false
      end r
  end.

(** What a history committed: every write that claims it did, no write that
    denies it, and of the others any. *)
Inductive commits : list event → list Mutation → Prop :=
| commits_nil : commits [] []
| commits_skip e tr ms : claimed e = false → commits tr ms → commits (e :: tr) ms
| commits_take e m tr ms :
    event_mutation (ev_call e) = Some m → may_have_applied e = true → commits tr ms → commits (e :: tr) (m :: ms).

Lemma commits_quiet tr ms : commits tr ms → Forall quiet tr → ms = [].
Proof.
  induction 1 as [|e tr ms _ _ IH|e m tr ms _ Hm _ _]; [done|by intros [_ ?]%Forall_cons; auto|].
  intros [Hq _]%Forall_cons. unfold quiet in Hq. congruence.
Qed.

Lemma event_mutation_write c m : event_mutation c = Some m → is_write c = true.
Proof. by destruct c. Qed.

Lemma commits_writes tr ms : commits tr ms → (length ms ≤ writes tr)%nat.
Proof.
  induction 1 as [|e tr ms _ _ IH|e m tr ms Hm _ _ IH]; [done|unfold writes in *; cbn; destruct (is_write _); cbn; lia|].
  unfold writes in *. cbn. rewrite (event_mutation_write _ _ Hm). cbn. lia.
Qed.

Lemma commits_in tr ms m : commits tr ms → m ∈ ms → ∃ e, e ∈ tr ∧ event_mutation (ev_call e) = Some m.
Proof.
  induction 1 as [|e tr ms _ _ IH|e m' tr ms Hm _ _ IH]; [by intros ?%not_elem_of_nil|..].
  - intros (e' & He' & Hm)%IH. exists e'. split; [by apply elem_of_cons; right|done].
  - intros [->|Hin]%elem_of_cons; [exists e; split; [apply list_elem_of_here|done]|].
    destruct (IH Hin) as (e' & He' & ?). exists e'. split; [by apply elem_of_cons; right|done].
Qed.

Lemma commits_claimed tr ms e m :
  commits tr ms → e ∈ tr → claimed e = true → event_mutation (ev_call e) = Some m → m ∈ ms.
Proof.
  induction 1 as [|e' tr ms Hskip _ IH|e' m' tr ms Hm _ _ IH]; [by intros ?%not_elem_of_nil|..].
  - intros [->|Hin]%elem_of_cons Hc; [congruence|auto].
  - intros [->|Hin]%elem_of_cons Hc Hm'; [|apply elem_of_cons; right; auto].
    rewrite Hm in Hm'. injection Hm' as <-. apply list_elem_of_here.
Qed.
End mutations.

(** ** Runs *)

Section runs.
Context `{GoStd} `{EtcdLaws} (store : option Store).
Context (context : list event → Ctx) (env : list event → server → server) (oracle : list event → ∀ c, reply c).

Definition perform (s : server) (tr : list event) (c : call) : server * reply c :=
  match c return server * reply c with
  | CSnapshot target => store_Snapshot store (context tr) s target
  | CDiscover name namespace => store_Discover store (context tr) s name namespace
  | CWriteFailover target payload expected =>
      store_WriteFailover store (context tr) s target (text (payload_value payload)) expected
  | CDeleteFailover target expected => store_DeleteFailover store (context tr) s target expected
  | CCompareAndSwapConfig target payload expected =>
      store_CompareAndSwapConfig store (context tr) s target payload expected
  | CDeleteCluster target => store_DeleteCluster store (context tr) s target
  | c => (s, oracle tr c)
  end.

Fixpoint run_store {A} (s : server) (tr : list event) (p : prog A) : server * (list event * A) :=
  match p with
  | Ret a => (s, (tr, a))
  | Vis c k => let '(s, r) := perform (env tr s) tr c in run_store s (tr ++ [Ev c r]) (k r)
  end.

(** Other clients never commit in this client's name. *)
Context (env_committed : ∀ tr s, committed (env tr s) = committed s).

(** A read of the store commits nothing, whatever it answers. *)
Lemma Snapshot_committed ctx s target : committed (store_Snapshot store ctx s target).1 = committed s.
Proof using Type.
  unfold store_Snapshot. destruct (ClusterPrefix target) as [|prefix]; [done|]. cbv zeta.
  destruct (operationContext store ctx _ _); [done|]. destruct (Get_reads s (prefix +:+ "/") true 0) as [Hc _].
  by destruct (client_Get _ _ _ _).
Qed.

Lemma Discover_committed ctx s name namespace : committed (store_Discover store ctx s name namespace).1 = committed s.
Proof using Type.
  unfold store_Discover. cbv zeta. destruct (operationContext store ctx _ _); [done|].
  destruct (Get_reads s (NamespacePrefix namespace) true (wrap64 (max_keys store + 1))) as [Hc _].
  by destruct (client_Get _ _ _ _).
Qed.

(** What one call commits. *)
Definition call_honest (s s' : server) (e : event) : Prop :=
  (committed s' = committed s ∧ claimed e = false) ∨
  (∃ m, event_mutation (ev_call e) = Some m ∧ may_have_applied e = true ∧ committed s' = committed s ++ [m]).

Lemma snoc_differs {A} (l : list A) x : l ≠ l ++ [x].
Proof using Type. intros E. apply (f_equal length) in E. rewrite length_app in E. cbn in E. lia. Qed.

Lemma honest_call s s' e m may claims :
  write_honest (committed s) (committed s') m may claims →
  event_mutation (ev_call e) = m → may_have_applied e = may → claimed e = claims → call_honest s s' e.
Proof using Type.
  intros [Hmost Hdenied Hclaimed] <- <- <-. unfold call_honest. destruct (claimed e) eqn:Ec.
  - right. destruct (Hclaimed eq_refl) as (m & Hm & E). exists m. split; [done|]. split; [|done].
    destruct (may_have_applied e) eqn:Ea; [done|]. rewrite (Hdenied eq_refl) in E.
    by apply snoc_differs in E.
  - destruct Hmost as [E|(m & Hm & E)]; [by left|]. right. exists m. split; [done|]. split; [|done].
    destruct (may_have_applied e) eqn:Ea; [done|]. rewrite (Hdenied eq_refl) in E.
    by apply snoc_differs in E.
Qed.

Lemma perform_honest s tr c : call_honest s (perform s tr c).1 (Ev c (perform s tr c).2).
Proof using Type.
  destruct c; cbn [perform]; try (left; split; [done|done]).
  - left. split; [apply Snapshot_committed|done].
  - left. split; [apply Discover_committed|done].
  - eapply honest_call; [|done..]. apply with_key_honest. intros key. apply put_honest.
  - eapply honest_call; [|done..]. apply with_key_honest. intros key. apply delete_honest.
  - eapply honest_call; [|done..]. apply with_key_honest. intros key. apply put_honest.
  - eapply honest_call; [|done..]. apply remove_honest.
Qed.

(** A run is one of the program's, and what it committed is what its history
    says. *)
Lemma run_store_spec {A} (p : prog A) s tr :
  ∃ tr' ms, (run_store s tr p).2.1 = tr ++ tr' ∧ runs p tr' (run_store s tr p).2.2 ∧
    commits tr' ms ∧ committed (run_store s tr p).1 = committed s ++ ms.
Proof using env_committed.
  revert s tr. induction p as [a|c k IH]; intros s tr; cbn [run_store].
  { exists [], []. rewrite !app_nil_r. split; [done|]. split; [constructor|]. by split; [constructor|]. }
  pose proof (perform_honest (env tr s) tr c) as Hc. destruct (perform (env tr s) tr c) as [s' r]. cbn [fst snd] in Hc.
  destruct (IH r s' (tr ++ [Ev c r])) as (tr' & ms & Htr & Hruns & Hcommits & Hms).
  destruct Hc as [[Hsame Hclaim]|(m & Hm & Happlied & Hsame)].
  - exists (Ev c r :: tr'), ms. split; [by rewrite Htr, <- app_assoc|]. split; [by constructor|].
    split; [by constructor|]. by rewrite Hms, Hsame, env_committed.
  - exists (Ev c r :: tr'), (m :: ms). split; [by rewrite Htr, <- app_assoc|]. split; [by constructor|].
    split; [by econstructor|]. by rewrite Hms, Hsame, env_committed, <- app_assoc.
Qed.

(** Every snapshot of a run is well typed. *)
Definition typed_snapshot (e : event) : Prop :=
  match e with
  | Ev c r => match c return reply c → Prop with
              | CSnapshot _ => λ r, match r with inr snapshot => good_cluster (snCluster snapshot) | inl _ => True end
              | _ => λ _, True
              end r
  end.

Lemma store_Snapshot_typed ctx s target :
  match (store_Snapshot store ctx s target).2 with inr snapshot => good_cluster (snCluster snapshot) | inl _ => True end.
Proof using Type.
  unfold store_Snapshot. destruct (ClusterPrefix target) as [|prefix]; [done|]. cbv zeta.
  destruct (operationContext store ctx _ _); [done|]. destruct (client_Get _ _ _ _) as [s' [err|response]]; [done|].
  cbn [snd]. rewrite BuildSnapshot_cluster. apply decodeCluster_good.
Qed.

Lemma run_store_typed {A} (p : prog A) s tr :
  Forall typed_snapshot tr → Forall typed_snapshot (run_store s tr p).2.1.
Proof using Type.
  revert s tr. induction p as [a|c k IH]; intros s tr Htr; cbn [run_store]; [done|].
  destruct (perform (env tr s) tr c) as [s' r] eqn:E. apply IH, Forall_app. split; [done|]. apply Forall_singleton.
  destruct c; try done. cbn in *. pose proof (store_Snapshot_typed (context tr) (env tr s) target) as Hs. by rewrite E in Hs.
Qed.

(** A postcondition of every run holds of a run on the store. *)
Lemma run_store_wp {A} (p : prog A) s (Q : list event → A → Prop) :
  wp p Q → ∃ tr ms, (run_store s [] p).2.1 = tr ∧ Q tr (run_store s [] p).2.2 ∧ commits tr ms ∧
             committed (run_store s [] p).1 = committed s ++ ms.
Proof using env_committed.
  intros Hp. destruct (run_store_spec p s []) as (tr & ms & Htr & Hruns & Hc & Hms). exists tr, ms.
  split; [done|]. split; [|done]. exact (proj1 (wp_runs _ _) Hp _ _ Hruns).
Qed.

End runs.

(** ** Switchover and failover *)

Section transition.
Context `{GoStd} (service : Service) (intent : transitionIntent) (plan : Plan).

(** The compare-and-swap a transition falls back to. *)
Definition swap_of (selection : transitionSelection) (fresh : ClusterState) (m : Mutation) : Prop :=
  ∃ key, KeyPath (tiTarget intent) "failover" = inr key ∧
    m = MPutIf key (text (payload_value (transitionDCSPayload intent selection))) (failover_revision fresh).

Definition swap_commit (tr : list event) (ms : list Mutation) : Prop :=
  ms = [] ∨ ∃ selection snapshot m, Ev (CSnapshot (tiTarget intent)) (inr snapshot) ∈ tr ∧
    fallback_allowed intent selection (snCluster snapshot) ∧ swap_of selection (snCluster snapshot) m ∧ ms = [m].

(** What may still be committed from a phase of the protocol. *)
Definition phase_commit (ph : phase) (tr : list event) (ms : list Mutation) : Prop :=
  match ph with
  | Swapped _ => ms = []
  | Fallback selection fresh => ms = [] ∨ ∃ m, swap_of selection fresh m ∧ ms = [m]
  | _ => swap_commit tr ms
  end.

Lemma swap_commit_cons e tr ms : swap_commit tr ms → swap_commit (e :: tr) ms.
Proof using Type.
  intros [->|(selection & snapshot & m & Hin & Hrest)]; [by left|right].
  exists selection, snapshot, m. split; [by apply elem_of_cons; right|done].
Qed.

Lemma phase_commit_cons ph e tr ms : phase_commit ph tr ms → phase_commit ph (e :: tr) ms.
Proof using Type. destruct ph; cbn; auto using swap_commit_cons. Qed.

Lemma read_only_mutation e : read_only e → event_mutation (ev_call e) = None.
Proof using Type. unfold read_only. by destruct (ev_call e). Qed.

Lemma step_commit ph e ph' tr ms :
  step service intent plan ph e ph' → event_mutation (ev_call e) = None →
  phase_commit ph' tr ms → phase_commit ph (e :: tr) ms.
Proof using Type.
  intros Hstep Hnone Hms. destruct Hstep; cbn in *; try (by apply swap_commit_cons).
  - by apply phase_commit_cons.
  - destruct Hms as [->|(m & Hm & ->)]; [by left|right]. exists selection, fresh, m. split; [apply list_elem_of_here|done].
  - destruct Hms as [->|(m & Hm & ->)]; [by left|right]. exists selection, fresh, m. split; [apply list_elem_of_here|done].
  - subst ms. by left.
Qed.

Lemma trace_commit ph tr ph' ms : trace service intent plan ph tr ph' → commits tr ms → phase_commit ph tr ms.
Proof using Type.
  intros Htr. revert ms. induction Htr as [ph|ph e ph1 tr ph2 Hstep _ IH]; intros ms Hc.
  { inversion Hc. destruct ph; cbn; by first [left|done]. }
  inversion Hc as [|? ? ? Hskip Hrest|? m ? ms' Hm Happ Hrest]; subst.
  - destruct (event_mutation (ev_call e)) as [m|] eqn:Em.
    + destruct Hstep; cbn in *; try (by apply read_only_mutation in H0; congruence); try done.
      * unfold post_event in Em. by destruct (is_failover intent).
      * rewrite (IH ms Hrest). by left.
    + eapply step_commit; [done..|]. by apply IH.
  - destruct Hstep; cbn in *; try (by apply read_only_mutation in H0; congruence); try done.
    + unfold post_event in Hm. by destruct (is_failover intent).
    + rewrite (IH ms' Hrest). right. exists m. split; [|done]. unfold path_mutation in Hm. unfold swap_of.
      destruct (KeyPath (tiTarget intent) "failover") as [|key]; [done|]. exists key. split; [done|].
      cbn in Hm. congruence.
Qed.
End transition.

Section theorems.
Context `{GoStd} `{EtcdLaws} (store : option Store).
Context (context : list event → Ctx) (env : list event → server → server) (oracle : list event → ∀ c, reply c).
#[local] Abbreviation run p s := (run_store store context env oracle s [] p).

(** C2: a switchover or failover run against the etcd store, whatever etcd, Patroni and other clients do: a FAILED
    transition committed nothing to etcd; and in any run etcd sees at most one change of this client, the guarded put
    of the failover key whose value is the requested transition as JSON, compared against the revision of a snapshot
    of the run that still allowed it. *)
Theorem executeTransition_on_store service ctx intent requestError plan s :
  (∀ tr s, committed (env tr s) = committed s) →
  clock_set service → tiOperation intent ≠ "" → Target_Validate (tiTarget intent) true = None →
  let r := run (executeTransition service ctx intent requestError plan) s in
  (rOutcome r.2.2 = Failed → committed r.1 = committed s) ∧
  (committed r.1 = committed s ∨
   ∃ selection snapshot key, Ev (CSnapshot (tiTarget intent)) (inr snapshot) ∈ r.2.1 ∧
     fallback_allowed intent selection (snCluster snapshot) ∧ KeyPath (tiTarget intent) "failover" = inr key ∧
     committed r.1 = committed s ++
       [MPutIf key (text (payload_value (transitionDCSPayload intent selection))) (failover_revision (snCluster snapshot))]).
Proof.
  intros Henv Hclock Hop Ht. cbv zeta.
  destruct (run_store_wp store context env oracle Henv (executeTransition service ctx intent requestError plan) s
    (λ tr r, transition_post tr r ∧ protocol_post service intent plan Planning [] tr r)) as (tr & ms & Htr & [[Hv Hf] [[ph Htrace] _]] & Hc & ->).
  { apply wp_and; [by apply executeTransition_spec|apply executeTransition_protocol]. }
  rewrite Htr. split.
  - intros Hr. by rewrite (commits_quiet _ _ Hc (Hf Hr)), app_nil_r.
  - destruct (trace_commit _ _ _ _ _ _ _ Htrace Hc) as [->|(selection & snapshot & m & Hin & Hallowed & (key & Hkey & ->) & ->)];
      [left; by rewrite app_nil_r|right]. by exists selection, snapshot, key.
Qed.

(** C3: an edit-config run against the etcd store: a FAILED edit committed nothing; in any run etcd sees at most one
    change of this client, the put of the config key, compared against the planned revision, whose value is the JSON
    text of a preview of the edit on a fresh snapshot; and after a SUCCEEDED one a snapshot of the run held the
    configuration the plan describes. *)
Theorem ExecuteEditConfig_on_store service ctx request plan s :
  (∀ tr s, committed (env tr s) = committed s) →
  clock_set service → Target_Validate (ecTarget request) true = None →
  let target := Normalize (ecTarget request) in
  let r := run (ExecuteEditConfig service ctx request plan) s in
  (rOutcome r.2.2 = Failed → committed r.1 = committed s) ∧
  (committed r.1 = committed s ∨
   ∃ snapshot preview payload key, Ev (CSnapshot target) (inr snapshot) ∈ r.2.1 ∧
     PreviewEditConfig (csConfig (snCluster snapshot)) (ecEdit request) = inr preview ∧
     Marshal (VMap (pvAfter preview)) = Some payload ∧ KeyPath target "config" = inr key ∧
     committed r.1 = committed s ++ [MPutIf key payload (planned_revision plan)]) ∧
  (rOutcome r.2.2 = Succeeded → well_formed_edit (ecEdit request) →
   ∃ snapshot, Ev (CSnapshot target) (inr snapshot) ∈ r.2.1 ∧
     config_matches service (plannedValue plan "config.desired") snapshot = true).
Proof.
  intros Henv Hclock Ht. cbv zeta.
  pose proof (run_store_typed store context env oracle (ExecuteEditConfig service ctx request plan) s [] ltac:(constructor)) as Htyped.
  destruct (run_store_wp store context env oracle Henv (ExecuteEditConfig service ctx request plan) s
    _ (ExecuteEditConfig_post service Hclock ctx request plan Ht)) as (tr & ms & Htr & (_ & Hf & Hs & Hw & Hswap) & Hc & ->).
  rewrite Htr in *. split_and!.
  - intros Hr. by rewrite (commits_quiet _ _ Hc (Hf Hr)), app_nil_r.
  - pose proof (commits_writes _ _ Hc) as Hlen. destruct ms as [|m [|m' ms]]; [left; by rewrite app_nil_r| |cbn in Hlen; lia].
    right. cbn in Hlen.
    destruct Hswap as (snapshot & entry & preview & payload & Hin & _ & _ & _ & Hp & _ & _ & _ & Hm & Honly); [lia|].
    destruct (commits_in _ _ m Hc (list_elem_of_here _ _)) as (e & He & Hem).
    pose proof (proj1 (Forall_forall _ _) Honly e He (event_mutation_write _ _ Hem)) as Ecall.
    rewrite Ecall in Hem. cbn in Hem. unfold path_mutation in Hem.
    destruct (KeyPath (Normalize (ecTarget request)) "config") as [|key] eqn:Ekey; [done|]. injection Hem as <-.
    by exists snapshot, preview, payload, key.
  - intros Hr Hwell. destruct (Hs Hr) as (snapshot & Hin & Hmatch). exists snapshot. split; [done|]. apply Hmatch; [|done].
    apply wire_distinct. apply (proj1 (Forall_forall _ _) Htyped _ Hin).
Qed.

(** C4: a removal run against the etcd store: a FAILED one committed nothing; in any run etcd sees at most one change of
    this client, the deletion of the keys below the root of the normalized target, and only after a fresh snapshot held
    exactly the planned keys and the operator's confirmation matched. *)
Theorem ExecuteRemove_on_store service ctx request confirmation plan s :
  (∀ tr s, committed (env tr s) = committed s) →
  clock_set service → Target_Validate (rqTarget request) true = None →
  let target := Normalize (rqTarget request) in
  let r := run (ExecuteRemove service ctx request confirmation plan) s in
  (rOutcome r.2.2 = Failed → committed r.1 = committed s) ∧
  (committed r.1 = committed s ∨
   ∃ prefix, ClusterPrefix target = inr prefix ∧ committed r.1 = committed s ++ [MDeletePrefix (prefix +:+ "/")] ∧
     deletion_confirmed service target confirmation plan r.2.1).
Proof.
  intros Henv Hclock Ht. cbv zeta.
  destruct (run_store_wp store context env oracle Henv (ExecuteRemove service ctx request confirmation plan) s
    _ (ExecuteRemove_post service Hclock ctx request confirmation plan Ht))
    as (tr & ms & Htr & (_ & Hf & _ & Hw & Honly & Hdel) & Hc & ->).
  rewrite Htr. split.
  - intros Hr. by rewrite (commits_quiet _ _ Hc (Hf Hr)), app_nil_r.
  - pose proof (commits_writes _ _ Hc) as Hlen. destruct ms as [|m [|m' ms]]; [left; by rewrite app_nil_r| |cbn in Hlen; lia].
    right. cbn in Hlen. destruct (commits_in _ _ m Hc (list_elem_of_here _ _)) as (e & He & Hem).
    pose proof (proj1 (Forall_forall _ _) Honly e He (event_mutation_write _ _ Hem)) as Ecall.
    rewrite Ecall in Hem. cbn in Hem. destruct (ClusterPrefix (Normalize (rqTarget request))) as [|prefix]; [done|].
    injection Hem as <-. exists prefix. split; [done|]. split; [done|]. apply Hdel. lia.
Qed.
End theorems.

(** ** A concrete cluster *)

Definition member_text (name role : string) : string :=
  text (VMap [("api_url", VString ("http://" +:+ name +:+ ":8008")); ("role", VString role); ("state", VString "running");
              ("version", VString "4.0.2")]).

Definition live_etcd (faults : list (option fault)) : mem :=
  mem_of [("/service/pg/members/n1", member_text "n1" "primary"); ("/service/pg/members/n2", member_text "n2" "replica");
          ("/service/pg/leader", "n1"); ("/service/pg/initialize", "7");
          ("/service/pg/config", text (VMap [("ttl", VNumber "30")]))] faults.

(** A program run on [live_etcd], REST silent and no other client active. *)
Definition live_run {A} (faults : list (option fault)) (p : prog A) : mem * (list event * A) :=
  @run_store sample_std mem_client (Some sample_store) (λ _, CtxLive) (λ _ s, s)
    (answers steady steady silence applied) A (live_etcd faults) [] p.

Definition live_plan (p : prog (Result Plan)) : Plan := rData (live_run [] p).2.2.

(** The requests of the instances below, and what each makes of [live_etcd]. *)
Definition live_intent : transitionIntent := (normalizeFailoverRequest (mkFailoverRequest sample_target "n2" true false)).1.

Definition live_failover (faults : list (option fault)) : mem * (list event * Result ClusterWriteData) :=
  live_run faults (executeTransition sample_service true live_intent None
                     (live_plan (prepareTransition sample_service true live_intent None))).

Definition live_edit (faults : list (option fault)) : mem * (list event * Result ConfigEditData) :=
  live_run faults (ExecuteEditConfig sample_service true sample_edit
                     (live_plan (PrepareEditConfig sample_service true sample_edit))).

Definition live_request : RemoveRequest := mkRemoveRequest sample_target false.
Definition live_confirmation : RemoveConfirmation := mkRemoveConfirmation "pg" "Yes I am aware" "n1".

Definition live_remove (faults : list (option fault)) : mem * (list event * Result RemoveData) :=
  live_run faults (ExecuteRemove sample_service true live_request live_confirmation
                     (live_plan (PrepareRemove sample_service true live_request))).

(** The put was committed although its answer was lost, and the run does
    not say FAILED. *)
Lemma executeTransition_on_store_witness :
  let r := live_failover [None; None; Some (FaultAfter "timeout")] in
  (rOutcome r.2.2 = Succeeded ∧ length (committed r.1) = 1%nat) ∧
  (rOutcome r.2.2 = Failed → committed r.1 = @nil Mutation).
Proof.
  split; [vm_compute; split; reflexivity|].
  apply (@executeTransition_on_store sample_std mem_client mem_laws (Some sample_store) (λ _, CtxLive) (λ _ s, s)
    (answers steady steady silence applied) sample_service true live_intent None
    (live_plan (prepareTransition sample_service true live_intent None)) (live_etcd [None; None; Some (FaultAfter "timeout")]));
    vm_compute; congruence.
Defined.

Lemma ExecuteEditConfig_on_store_witness :
  let r := live_edit [None; Some (FaultAfter "timeout")] in
  (rOutcome r.2.2 = Succeeded ∧ length (committed r.1) = 1%nat) ∧
  ∃ snapshot, Ev (CSnapshot sample_target) (inr snapshot) ∈ r.2.1 ∧
    config_matches sample_service
      (plannedValue (live_plan (PrepareEditConfig sample_service true sample_edit)) "config.desired") snapshot = true.
Proof.
  split; [vm_compute; split; reflexivity|].
  apply (@ExecuteEditConfig_on_store sample_std mem_client mem_laws (Some sample_store) (λ _, CtxLive) (λ _ s, s)
    (answers steady steady silence applied) sample_service true sample_edit
    (live_plan (PrepareEditConfig sample_service true sample_edit)) (live_etcd [None; Some (FaultAfter "timeout")]));
    [done|vm_compute; reflexivity..|].
  split; [done|]. split; [|constructor]. intros m [= <-]. split; [apply (bool_decide_unpack _); by vm_compute|by repeat split].
Defined.

Lemma ExecuteRemove_on_store_witness :
  let r := live_remove [] in
  (rOutcome r.2.2 = Succeeded ∧ committed r.1 = [MDeletePrefix "/service/pg/"]) ∧
  (rOutcome r.2.2 = Failed → committed r.1 = @nil Mutation).
Proof.
  split; [vm_compute; split; reflexivity|].
  apply (@ExecuteRemove_on_store sample_std mem_client mem_laws (Some sample_store) (λ _, CtxLive) (λ _ s, s)
    (answers steady steady silence applied) sample_service true live_request live_confirmation
    (live_plan (PrepareRemove sample_service true live_request)) (live_etcd []));
    [done|vm_compute; reflexivity..].
Defined.
