(* ===== verification/Watch.v ===== *)
(** * The watch of a cluster: [dcs/etcd3/watch.go]

    [runWatch] is a goroutine that never returns by itself: it opens an etcd
    watch under a context that lives for one request timeout, hands its
    events on, and opens the next one where the last one stopped, until the
    caller's context ends or an error is reported.

    Between two of its interactions the goroutine is in a state of [wstate];
    [watch_step] is the code from one such state to the next, a program over
    the calls it makes.  [runWatch] iterates the step; its fuel counts steps,
    so that a run with fuel [n] is the first [n] steps of the unbounded loop
    and a statement for every fuel is one about the loop. *)

From S2P Require Import Prelude GoStrings GoErrors GoTime Target Values Dcs Decode Etcd.

(** ** What a watch delivers, [dcs/types.go] *)

Inductive WatchEventType := WatchPut | WatchDelete | WatchResync.

Record WatchEvent := mkWatchEvent {
  weType : WatchEventType;
  weRevision : Z;
  weEntry : option Entry;
  weSnapshot : option Snapshot;
  weAt : Time
}.

(** ** What the etcd client sends *)

(** [clientv3.Event] *)
Record EtcdEvent := mkEtcdEvent { evDelete : bool; evKv : KeyValue; evPrevKv : option KeyValue }.

(** [clientv3.WatchResponse]; [wrErr] is [Err()]. *)
Record WatchResponse := mkWatchResponse {
  wrHeaderRevision : Z;
  wrEvents : list EtcdEvent;
  wrCompactRevision : Z;
  wrCanceled : bool;
  wrErr : option goerror
}.

(** ** Calls *)

Inductive wcall :=
| WCtxErr                                  (* ctx.Err() *)
| WWatch (prefix : string) (revision : Z)  (* client.Watch(watchContext, prefix, WithPrefix, WithRev, WithPrevKV) *)
| WReceive                                 (* the next response; none when the channel is closed *)
| WWatchContextErr                         (* watchContext.Err() *)
| WCancel                                  (* cancel() *)
| WSnapshot (target : Target)              (* store.Snapshot(ctx, target) *)
| WNow                                     (* time.Now().UTC() *)
| WSendEvent (event : WatchEvent)          (* sendWatchEvent: whether the event was taken before ctx ended *)
| WSendError (err : goerror).              (* sendWatchError *)

Definition wreply (c : wcall) : Type :=
  match c with
  | WCtxErr | WWatchContextErr => option goerror
  | WReceive => option WatchResponse
  | WSnapshot _ => (goerror + Snapshot)%type
  | WNow => Time
  | WSendEvent _ => bool
  | WWatch _ _ | WCancel | WSendError _ => unit
  end.

Inductive wprog (A : Type) : Type :=
| WRet (a : A)
| WVis (c : wcall) (k : wreply c → wprog A).

#[global] Arguments WRet {A} _.
#[global] Arguments WVis {A} _ _.

Fixpoint wprog_bind {A B} (f : A → wprog B) (p : wprog A) : wprog B :=
  match p with
  | WRet a => f a
  | WVis c k => WVis c (λ r, wprog_bind f (k r))
  end.

#[export] Instance wprog_ret : MRet wprog := @WRet.
#[export] Instance wprog_mbind : MBind wprog := @wprog_bind.

Definition watch_call (c : wcall) : wprog (wreply c) := WVis c WRet.

Record wevent := WEv { wev_call : wcall; wev_reply : wreply wev_call }.

(** With the history [tr] of calls and replies, the program returns [a]. *)
Inductive wruns {A} : wprog A → list wevent → A → Prop :=
| wruns_ret a : wruns (WRet a) [] a
| wruns_vis c k (r : wreply c) tr a : wruns (k r) tr a → wruns (WVis c k) (WEv c r :: tr) a.

(** ** The goroutine *)

Inductive wstate :=
| Opening (revision : Z)     (* the head of the outer loop *)
| Receiving (revision : Z)   (* the head of the range over the watch channel *)
| Stopped.                   (* returned *)

Section with_client.
Context `{GoStd} `{EtcdClient} (store : option Store) (target : Target) (prefix : string).

Definition report (err : goerror) : wprog wstate := _ ← watch_call (WSendError err); mret Stopped.

(** From the head of the outer loop to the open watch.  The child context is
    live at first: only [ctx] decides whether it can be made. *)
Definition watch_open (revision : Z) : wprog wstate :=
  ended ← watch_call WCtxErr;
  match operationContext store (match ended with Some err => CtxDone err | None => CtxLive end) "watch" prefix with
  | Some contextErr => report contextErr
  | None => _ ← watch_call (WWatch prefix revision); mret (Receiving revision)
  end.

(** After [break] with [restart = true]. *)
Definition watch_restart (revision : Z) : wprog wstate :=
  _ ← watch_call WWatchContextErr; _ ← watch_call WCancel; mret (Opening revision).

(** After the range ended because the channel was closed. *)
Definition watch_closed (revision : Z) : wprog wstate :=
  watchContextErr ← watch_call WWatchContextErr;
  _ ← watch_call WCancel;
  ended ← watch_call WCtxErr;
  if negb (is_nil ended) then mret Stopped
  else if errors_Is watchContextErr is_deadline then mret (Opening revision)
  else report (dcs_NewError dcsE.ErrorTransport "watch" prefix (EText "watch stream closed")).

Definition watch_entry (event : EtcdEvent) : Entry :=
  let entry := entryFromKV (TrimSuffix prefix "/") (evKv event) in
  match evPrevKv event with
  | Some kv =>
      if evDelete event then
        let previous := entryFromKV (TrimSuffix prefix "/") kv in
        mkEntry (enKey entry) (enRelativePath entry) (enKind previous) (enCreateRevision entry) (enModRevision entry)
          (enVersion entry) (enLease entry) (enValue previous)
      else entry
  | None => entry
  end.

Definition watch_kind (event : EtcdEvent) : WatchEventType := if evDelete event then WatchDelete else WatchPut.

(** The loop over the events of a response; false when one was not taken. *)
Fixpoint watch_deliver (revision : Z) (events : list EtcdEvent) : wprog bool :=
  match events with
  | [] => mret true
  | event :: events =>
      at_ ← watch_call WNow;
      sent ← watch_call (WSendEvent (mkWatchEvent (watch_kind event) revision (Some (watch_entry event)) None at_));
      if (sent : bool) then watch_deliver revision events else mret false
  end.

Definition watch_canceled (revision : Z) (response : WatchResponse) : wprog wstate :=
  if (0 <? wrCompactRevision response)%Z then
    r ← watch_call (WSnapshot target);
    match r with
    | inl snapshotErr => report snapshotErr
    | inr snapshot =>
        at_ ← watch_call WNow;
        sent ← watch_call (WSendEvent (mkWatchEvent WatchResync (snRevision snapshot) None (Some snapshot) at_));
        if (sent : bool) then watch_restart (wrap64 (snRevision snapshot + 1)) else mret Stopped
    end
  else
    ended ← watch_call WCtxErr;
    if negb (is_nil ended) then _ ← watch_call WCancel; mret Stopped
    else
      watchContextErr ← watch_call WWatchContextErr;
      if errors_Is watchContextErr is_deadline then watch_restart revision
      else report (dcs_NewError dcsE.ErrorTransport "watch" prefix
                     (deref (EText "etcd watch canceled") (wrErr response))).

(** One turn of the range over the watch channel. *)
Definition watch_receive (revision : Z) : wprog wstate :=
  received ← watch_call WReceive;
  match received with
  | None => watch_closed revision
  | Some response =>
      if wrCanceled response then watch_canceled revision response
      else
        let revision := if (revision <=? wrHeaderRevision response)%Z
                        then wrap64 (wrHeaderRevision response + 1) else revision in
        sent ← watch_deliver (wrHeaderRevision response) (wrEvents response);
        mret (if (sent : bool) then Receiving revision else Stopped)
  end.

Definition watch_step (s : wstate) : wprog wstate :=
  match s with
  | Opening revision => watch_open revision
  | Receiving revision => watch_receive revision
  | Stopped => mret Stopped
  end.

Fixpoint watch_loop (fuel : nat) (s : wstate) : wprog wstate :=
  match fuel with
  | O => mret s
  | S fuel =>
      match s with
      | Stopped => mret Stopped
      | _ => s ← watch_step s; watch_loop fuel s
      end
  end.
End with_client.

(** [revision := afterRevision + 1; if revision < 1 { revision = 1 }] *)
Definition first_revision (afterRevision : Z) : Z :=
  let revision := wrap64 (afterRevision + 1) in if (revision <? 1)%Z then 1%Z else revision.

(** [runWatch]; [ctx] is whether the caller gave a context. *)
Definition runWatch `{GoStd} `{EtcdClient} (fuel : nat) (store : option Store) (ctx : bool) (target : Target)
    (afterRevision : Z) : wprog wstate :=
  if negb ctx then report (dcs_NewError dcsE.ErrorConfiguration "watch" "" (EText "context is nil"))
  else if match store with Some s => negb (stHasClient s) | None => true end
  then report (dcs_NewError dcsE.ErrorConfiguration "watch" "" (EText "store is nil"))
  else match ClusterPrefix target with
  | inl err => report (dcs_NewError dcsE.ErrorConfiguration "watch" "" err)
  | inr prefix => watch_loop store target (prefix +:+ "/") fuel (Opening (first_revision afterRevision))
  end.
