(* ===== verification/WatchLaws.v ===== *)
(** * What a watch delivers

    A reader that starts with the keys of the cluster as they were at one
    revision and applies what [runWatch] delivers holds, at every moment, the
    keys as they were at some later revision: nothing is lost, delivered twice
    or out of order, across restarts and after a compaction.  This depends on
    one promise of the etcd server, [honest]: a response whose header carries
    revision [h] completes the changes up to [h]. *)

From S2P Require Import Prelude GoStrings GoErrors GoTime Target Values Json Dcs Samples Decode Etcd EtcdLaws MemEtcd Watch.

(** ** Histories and views *)

Record Change := mkChange { chRevision : Z; chKey : string; chValue : option string }.

Definition view : Type := gmap string string.

Definition apply_change (m : view) (c : Change) : view :=
  match chValue c with Some v => <[chKey c := v]> m | None => delete (chKey c) m end.

Definition view_of (changes : list Change) : view := foldl apply_change ∅ changes.

Definition event_change (event : EtcdEvent) : Change :=
  mkChange (kvModRevision (evKv event)) (kvKey (evKv event)) (if evDelete event then None else Some (kvValue (evKv event))).

(** What a reader of the stream does with an event. *)
Definition replay (m : view) (event : WatchEvent) : view :=
  match weType event, weEntry event, weSnapshot event with
  | WatchPut, Some entry, _ => <[enKey entry := enValue entry]> m
  | WatchDelete, Some entry, _ => delete (enKey entry) m
  | WatchResync, _, Some snapshot => list_to_map ((λ entry, (enKey entry, enValue entry)) <$> snEntries snapshot)
  | _, _, _ => m
  end.

(** The events that were taken. *)
Definition delivered_by (e : wevent) : option WatchEvent :=
  match e with
  | WEv c r =>
      match c return wreply c → option WatchEvent with
      | WSendEvent event => λ sent, if sent then Some event else None
      | _ => λ _, None
      end r
  end.

Definition delivered (tr : list wevent) : list WatchEvent := omap delivered_by tr.

(** ** The promise of the server *)

Section promise.
Context (history : list Change).

Definition before (revision : Z) : list Change := filter (λ c, (chRevision c < revision)%Z) history.
Definition window (first last : Z) : list Change :=
  filter (λ c, (first <= chRevision c ∧ chRevision c <= last)%Z) history.

Definition complete_response (first : Z) (response : WatchResponse) : Prop :=
  wrCanceled response = false →
  (wrHeaderRevision response < max_int64)%Z ∧
  event_change <$> wrEvents response = window first (wrHeaderRevision response).

Definition true_snapshot (snapshot : Snapshot) : Prop :=
  (0 <= snRevision snapshot < max_int64)%Z ∧
  list_to_map ((λ entry, (enKey entry, enValue entry)) <$> snEntries snapshot) = view_of (before (snRevision snapshot + 1)).

(** The first revision that the open watch has not completed yet. *)
Definition progress (first : Z) (response : WatchResponse) : Z :=
  if wrCanceled response then first else Z.max first (wrHeaderRevision response + 1).

Definition advance (first : Z) (e : wevent) : Z :=
  match e with
  | WEv c r =>
      match c return wreply c → Z with
      | WWatch _ revision => λ _, revision
      | WReceive => λ r, match r with Some response => progress first response | None => first end
      | _ => λ _, first
      end r
  end.

Definition honest_event (first : Z) (e : wevent) : Prop :=
  match e with
  | WEv c r =>
      match c return wreply c → Prop with
      | WReceive => λ r, match r with Some response => complete_response first response | None => True end
      | WSnapshot _ => λ r, match r with inr snapshot => true_snapshot snapshot | inl _ => True end
      | _ => λ _, True
      end r
  end.

(** [honest first tr]: a watch from a revision delivers every change from that
    revision on, in order, each response all the changes up to the revision of
    its header; a snapshot shows the keys as of its revision. *)
Fixpoint honest (first : Z) (tr : list wevent) : Prop :=
  match tr with
  | [] => True
  | e :: tr => honest_event first e ∧ honest (advance first e) tr
  end.

(** The changes that a reader knows of: a resynchronization replaces them by
    all those up to the revision of the snapshot. *)
Definition event_changes (known : list Change) (event : WatchEvent) : list Change :=
  match weType event, weEntry event, weSnapshot event with
  | WatchPut, Some entry, _ => known ++ [mkChange (enModRevision entry) (enKey entry) (Some (enValue entry))]
  | WatchDelete, Some entry, _ => known ++ [mkChange (enModRevision entry) (enKey entry) None]
  | WatchResync, _, Some snapshot => before (snRevision snapshot + 1)
  | _, _, _ => known
  end.

(** ** Lemmas: histories *)

Lemma before_window first last :
  StronglySorted (λ a b, (chRevision a <= chRevision b)%Z) history → (first <= last + 1)%Z →
  before first ++ window first last = before (last + 1).
Proof using Type.
  intros Hs Hl. unfold before, window. induction Hs as [|c l Hs IH Hc]; [done|].
  destruct (decide (chRevision c < first)%Z) as [Hlt|Hge].
  - rewrite filter_cons_True by done. rewrite (filter_cons_False (λ c, (first <= chRevision c ∧ _)%Z)) by lia.
    rewrite (filter_cons_True (λ c, (chRevision c < last + 1)%Z)) by lia. cbn. by rewrite IH.
  - assert (filter (λ c, (chRevision c < first)%Z) l = []) as Hnil.
    { clear IH. induction Hc as [|d l Hd Hc IH]; [done|]. rewrite filter_cons_False by lia. apply IH. by inversion Hs. }
    rewrite filter_cons_False by lia. rewrite Hnil in IH |- *. rewrite !app_nil_l in *.
    destruct (decide (chRevision c <= last)%Z).
    + rewrite !filter_cons_True by lia. by rewrite IH.
    + rewrite !filter_cons_False by lia. done.
Qed.

Lemma window_empty first last : (last < first)%Z → window first last = [].
Proof using Type.
  intros Hl. unfold window. induction history as [|c l IH]; [done|]. rewrite filter_cons_False by lia. done.
Qed.

Lemma before_prefix revision :
  StronglySorted (λ a b, (chRevision a <= chRevision b)%Z) history → ∃ k, before revision = take k history.
Proof using Type.
  intros Hs. exists (length (before revision)). unfold before. induction Hs as [|c l Hs IH Hc]; [done|].
  destruct (decide (chRevision c < revision)%Z).
  - rewrite filter_cons_True by done. cbn. by rewrite <- IH.
  - rewrite filter_cons_False by done.
    assert (filter (λ c, (chRevision c < revision)%Z) l = []) as ->; [|done].
    clear IH. induction Hc as [|d l Hd Hc IH]; [done|]. rewrite filter_cons_False by lia. apply IH. by inversion Hs.
Qed.
(** ** Lemmas: honest runs *)

Lemma honest_app first tr tr' : honest first (tr ++ tr') ↔ honest first tr ∧ honest (foldl advance first tr) tr'.
Proof using Type.
  revert first. induction tr as [|e tr IH]; intros first; cbn [app honest foldl]; [by intuition|]. rewrite IH. by intuition.
Qed.

Lemma delivered_app tr tr' : delivered (tr ++ tr') = delivered tr ++ delivered tr'.
Proof using Type. apply omap_app. Qed.

(** A postcondition of all runs of a program. *)
Definition wwp {A} (p : wprog A) (Q : list wevent → A → Prop) : Prop := ∀ tr a, wruns p tr a → Q tr a.

Lemma wwp_ret {A} (a : A) (Q : list wevent → A → Prop) : Q [] a → wwp (mret a) Q.
Proof using Type. intros HQ tr b Hr. unfold mret, wprog_ret in Hr. inversion Hr. by subst. Qed.

Lemma wwp_mono {A} (p : wprog A) (Q R : list wevent → A → Prop) : (∀ tr a, Q tr a → R tr a) → wwp p Q → wwp p R.
Proof using Type. unfold wwp. eauto. Qed.

Lemma wruns_vis_inv {A} c (k : wreply c → wprog A) tr a :
  wruns (WVis c k) tr a → ∃ r tr', tr = WEv c r :: tr' ∧ wruns (k r) tr' a.
Proof using Type.
  intros Hr. refine (match Hr in wruns p tr a return
    match p with WVis c k => ∃ r tr', tr = WEv c r :: tr' ∧ wruns (k r) tr' a | WRet _ => True end with
    wruns_ret _ => I | wruns_vis c k r tr a H => ex_intro _ r (ex_intro _ tr (conj eq_refl H)) end).
Qed.

Lemma wwp_call {A} c (f : wreply c → wprog A) Q :
  (∀ r, wwp (f r) (λ tr a, Q (WEv c r :: tr) a)) → wwp (watch_call c ≫= f) Q.
Proof using Type. intros Hf tr a Hr. apply wruns_vis_inv in Hr as (r & tr' & -> & Hr). by apply Hf. Qed.

Lemma wwp_bind {A B} (p : wprog A) (f : A → wprog B) (Q : list wevent → B → Prop) :
  wwp p (λ tr a, wwp (f a) (λ tr' b, Q (tr ++ tr') b)) → wwp (p ≫= f) Q.
Proof using Type.
  revert Q. induction p as [a|c k IH]; intros Q Hp.
  - cbn. apply (Hp [] a). constructor.
  - apply (wwp_call c (λ r, k r ≫= f)). intros r. apply IH. intros tr a Hr. apply (Hp (WEv c r :: tr) a). by constructor.
Qed.

(** ** Lemmas: one step *)

Context (Hsorted : StronglySorted (λ a b, (chRevision a <= chRevision b)%Z) history).

(** What a reader that took [known] knows in each state. *)
Definition knows (first : Z) (known : list Change) (s : wstate) : Prop :=
  match s with
  | Opening revision => (1 <= revision)%Z ∧ known = before revision
  | Receiving revision => (1 <= revision)%Z ∧ known = before revision ∧ first = revision
  | Stopped => ∃ k, known = take k history
  end.

Definition true_event (event : WatchEvent) : Prop :=
  match weType event, weSnapshot event with WatchResync, Some snapshot => true_snapshot snapshot | _, _ => True end.

Definition step_post (first : Z) (known : list Change) (tr : list wevent) (s : wstate) : Prop :=
  honest first tr →
  knows (foldl advance first tr) (foldl event_changes known (delivered tr)) s ∧ Forall true_event (delivered tr).

Lemma step_post_skip first known e tr s :
  advance first e = first → delivered_by e = None → step_post first known tr s → step_post first known (e :: tr) s.
Proof using Type.
  intros Ha Hd Hp [_ Hh]. cbn [foldl delivered omap list_omap]. rewrite Ha in *. rewrite Hd. by apply Hp.
Qed.

(** A quiet call: it tells the reader nothing and leaves the watch alone. *)
Definition idle (c : wcall) : Prop :=
  match c with WCtxErr | WWatchContextErr | WCancel | WNow | WSendError _ => True | _ => False end.

Lemma step_post_idle first known c r tr s :
  idle c → step_post first known tr s → step_post first known (WEv c r :: tr) s.
Proof using Type. intros Hc. by apply step_post_skip; destruct c. Qed.

Lemma wwp_idle c (f : wreply c → wprog wstate) first known :
  idle c → (∀ r, wwp (f r) (step_post first known)) → wwp (watch_call c ≫= f) (step_post first known).
Proof using Type.
  intros Hc Hf. apply wwp_call. intros r. eapply wwp_mono; [|exact (Hf r)]. intros tr s. by apply step_post_idle.
Qed.

Lemma post_ret first known s : knows first known s → wwp (mret s) (step_post first known).
Proof using Type. intros Hs. apply wwp_ret. intros _. by split. Qed.

Lemma knows_stopped revision : ∃ k, before revision = take k history.
Proof using Hsorted. by apply before_prefix. Qed.

Lemma report_spec err first revision : wwp (report err) (step_post first (before revision)).
Proof using Hsorted. apply wwp_idle; [done|]. intros _. apply post_ret, knows_stopped. Qed.

(** The programs below keep what is known and stop, or go back to a watch from [revision]. *)
Lemma watch_restart_spec first revision :
  (1 <= revision)%Z → wwp (watch_restart revision) (step_post first (before revision)).
Proof using Type. intros. do 2 (apply wwp_idle; [done|]; intros _). by apply post_ret. Qed.

Section steps.
Context `{GoStd} `{EtcdClient} (store : option Store) (target : Target) (prefix : string).

Lemma watch_open_spec first revision :
  (1 <= revision)%Z → wwp (watch_open store prefix revision) (step_post first (before revision)).
Proof using Hsorted.
  intros Hr. apply wwp_idle; [done|]. intros ended. destruct (operationContext _ _ _ _); [apply report_spec|].
  apply wwp_call. intros r. apply wwp_ret. intros _. split; [|done]. by split.
Qed.

Lemma watch_closed_spec first revision :
  (1 <= revision)%Z → wwp (watch_closed prefix revision) (step_post first (before revision)).
Proof using Hsorted.
  intros Hr. do 3 (apply wwp_idle; [done|]; intros ?). destruct (negb _); [apply post_ret, knows_stopped|].
  destruct (errors_Is _ _); [by apply post_ret|apply report_spec].
Qed.

(** An event that is taken is the change it carries. *)
Lemma event_changes_sent known hdr event at_ :
  event_changes known (mkWatchEvent (watch_kind event) hdr (Some (watch_entry prefix event)) None at_) =
    known ++ [event_change event].
Proof using Type.
  unfold event_changes, watch_kind, watch_entry, event_change. destruct event as [gone kv prev]. cbn.
  by destruct gone, prev.
Qed.

Lemma true_event_sent hdr event at_ :
  true_event (mkWatchEvent (watch_kind event) hdr (Some (watch_entry prefix event)) None at_).
Proof using Type. unfold true_event, watch_kind. by destruct event as [[]]. Qed.

Definition deliver_post (changes : list Change) (tr : list wevent) (sent : bool) : Prop :=
  (∀ first, foldl advance first tr = first) ∧ Forall true_event (delivered tr) ∧
  ∃ k, (∀ known, foldl event_changes known (delivered tr) = known ++ take k changes) ∧
       (sent = true → (length changes <= k)%nat).

Lemma watch_deliver_spec hdr events :
  wwp (watch_deliver prefix hdr events) (deliver_post (event_change <$> events)).
Proof using Type.
  induction events as [|event events IH]; cbn [watch_deliver].
  { apply wwp_ret. split; [done|]. split; [done|]. exists 0%nat. split; [|done]. intros. by rewrite app_nil_r. }
  apply wwp_call. intros at_. apply wwp_call. intros [].
  - eapply wwp_mono; [|exact IH]. intros tr sent (Hadv & Htrue & k & Hk & Hall). split; [exact Hadv|]. split.
    { constructor; [apply true_event_sent|exact Htrue]. }
    exists (S k). split; [|intros Hs; cbn; specialize (Hall Hs); lia].
    intros known. cbn [delivered omap list_omap delivered_by foldl fmap list_fmap take].
    rewrite event_changes_sent. fold (delivered tr). by rewrite Hk, <- app_assoc.
  - apply wwp_ret. split; [done|]. split; [done|]. exists 0%nat. split; [|done]. intros. by rewrite app_nil_r.
Qed.

Lemma wrap64_next z : (0 <= z < max_int64)%Z → wrap64 (z + 1) = (z + 1)%Z.
Proof using Type. intros. apply wrap64_small; [lia|]. unfold int64, min_int64, max_int64 in *. lia. Qed.

Lemma watch_resync_spec first known snapshot :
  true_snapshot snapshot → (∃ k, known = take k history) →
  wwp (at_ ← watch_call WNow;
       sent ← watch_call (WSendEvent (mkWatchEvent WatchResync (snRevision snapshot) None (Some snapshot) at_));
       if (sent : bool) then watch_restart (wrap64 (snRevision snapshot + 1)) else mret Stopped)
    (step_post first known).
Proof using Type.
  intros Hs Hk. apply wwp_idle; [done|]. intros at_. apply wwp_call. intros [].
  - eapply wwp_mono; [|apply (watch_restart_spec first (wrap64 (snRevision snapshot + 1)))].
    + intros tr s Hp [_ Hh]. apply Hp in Hh as [Hkn Ht]. cbn [foldl delivered omap list_omap delivered_by] in *.
      rewrite (wrap64_next (snRevision snapshot)) in * by apply Hs. split; [exact Hkn|]. by constructor.
    + rewrite wrap64_next by apply Hs. destruct Hs. lia.
  - apply wwp_ret. intros _. by split.
Qed.

Lemma watch_canceled_spec first revision response :
  (1 <= revision)%Z →
  wwp (watch_canceled target prefix revision response) (step_post first (before revision)).
Proof using Hsorted.
  intros Hr. unfold watch_canceled. destruct (0 <? wrCompactRevision response)%Z.
  - apply wwp_call. intros [err|snapshot].
    + eapply wwp_mono; [|apply (report_spec err first revision)]. intros tr s. by apply step_post_skip.
    + intros tr s Hrun [Hs Hh]. refine (watch_resync_spec first (before revision) snapshot Hs _ tr s Hrun Hh).
      apply knows_stopped.
  - apply wwp_idle; [done|]. intros ended. destruct (negb _).
    + apply wwp_idle; [done|]. intros _. apply post_ret, knows_stopped.
    + apply wwp_idle; [done|]. intros ?. destruct (errors_Is _ _); [by apply watch_restart_spec|apply report_spec].
Qed.

(** The next revision to ask for, after a response that is complete. *)
Lemma next_revision revision response :
  (1 <= revision)%Z → wrCanceled response = false → (wrHeaderRevision response < max_int64)%Z →
  (if (revision <=? wrHeaderRevision response)%Z then wrap64 (wrHeaderRevision response + 1) else revision) =
    progress revision response.
Proof using Type.
  intros Hr Hc Hh. unfold progress. rewrite Hc. destruct (Z.leb_spec revision (wrHeaderRevision response)); [|lia].
  rewrite wrap64_next by lia. lia.
Qed.

Lemma watch_receive_spec revision :
  (1 <= revision)%Z → wwp (watch_receive target prefix revision) (step_post revision (before revision)).
Proof using Hsorted.
  intros Hr. unfold watch_receive. apply wwp_call. intros [response|].
  2: { eapply wwp_mono; [|by apply (watch_closed_spec revision revision)]. intros tr s. by apply step_post_skip. }
  destruct (wrCanceled response) eqn:Ec.
  { eapply wwp_mono; [|by apply (watch_canceled_spec revision revision)]. intros tr s. apply step_post_skip; [|done].
    cbn. unfold progress. by rewrite Ec. }
  apply wwp_bind. eapply wwp_mono; [|apply watch_deliver_spec]. intros tr sent (Hadv & Htrue & k & Hk & Hall).
  apply wwp_ret. intros [Hcomplete _]. cbn [foldl delivered omap list_omap delivered_by] in *.
  destruct (Hcomplete Ec) as [Hmax Hwindow]. rewrite app_nil_r. fold (delivered tr). split; [|done].
  rewrite next_revision by done. cbn [advance]. rewrite Hadv, Hk, Hwindow in *. clear Hk Hadv.
  assert (before revision ++ window revision (wrHeaderRevision response) = before (progress revision response)) as Hnext.
  { unfold progress. rewrite Ec. destruct (Z.le_gt_cases revision (wrHeaderRevision response)).
    - rewrite before_window by (done || lia). f_equal. lia.
    - rewrite window_empty, app_nil_r by done. f_equal. lia. }
  destruct sent.
  - cbn [knows]. rewrite take_ge by by apply Hall. rewrite Hnext. unfold progress. rewrite Ec. split; [lia|done].
  - cbn [knows]. destruct (knows_stopped (progress revision response)) as [n Hn].
    exists (Nat.min (length (before revision) + k) n). rewrite <- take_take, <- Hn, <- Hnext, take_app_add. done.
Qed.

Lemma watch_step_spec first known s :
  knows first known s → wwp (watch_step store target prefix s) (step_post first known).
Proof using Hsorted.
  destruct s as [revision|revision|]; cbn [watch_step knows].
  - intros [Hr ->]. by apply watch_open_spec.
  - intros (Hr & -> & ->). by apply watch_receive_spec.
  - intros Hk. by apply post_ret.
Qed.

Lemma watch_loop_spec fuel first known s :
  knows first known s → wwp (watch_loop store target prefix fuel s) (step_post first known).
Proof using Hsorted.
  revert first known s. induction fuel as [|fuel IH]; intros first known s Hs; [by apply post_ret|].
  assert (wwp (s ← watch_step store target prefix s; watch_loop store target prefix fuel s) (step_post first known)) as Hstep.
  { apply wwp_bind. eapply wwp_mono; [|by apply watch_step_spec]. intros tr s' Hp. intros tr' s'' Hrun Hh.
    apply honest_app in Hh as [Hh Hh']. apply Hp in Hh as [Hknows Htrue].
    destruct (IH _ _ _ Hknows _ _ Hrun Hh') as [Hknows' Htrue'].
    rewrite foldl_app, delivered_app, foldl_app. split; [done|]. by apply Forall_app. }
  cbn [watch_loop]. destruct s; [exact Hstep|exact Hstep|by apply post_ret].
Qed.

(** A reader's view follows from what it knows. *)
Lemma replay_known known events :
  Forall true_event events → foldl replay (view_of known) events = view_of (foldl event_changes known events).
Proof using Type.
  revert known. induction events as [|event events IH]; intros known; [done|]. intros [Ht Hts]%Forall_cons. cbn [foldl].
  rewrite <- IH by done. f_equal. destruct event as [ty revision entry snapshot at_]. unfold replay, event_changes. cbn.
  destruct ty; destruct entry, snapshot; try done; unfold view_of; rewrite ?foldl_app; try done; by destruct Ht.
Qed.
End steps.
End promise.

(** ** Runs against an oracle *)

Fixpoint wrun {A} (oracle : list wevent → ∀ c, wreply c) (tr : list wevent) (p : wprog A) : list wevent * A :=
  match p with
  | WRet a => (tr, a)
  | WVis c k => let r := oracle tr c in wrun oracle (tr ++ [WEv c r]) (k r)
  end.

Lemma wrun_runs {A} oracle tr (p : wprog A) :
  ∃ tr', (wrun oracle tr p).1 = tr ++ tr' ∧ wruns p tr' (wrun oracle tr p).2.
Proof.
  revert tr. induction p as [a|c k IH]; intros tr; cbn [wrun].
  - exists []. rewrite app_nil_r. by split; [|constructor].
  - destruct (IH (oracle tr c) (tr ++ [WEv c (oracle tr c)])) as (tr' & Htr & Hr).
    exists (WEv c (oracle tr c) :: tr'). rewrite Htr, <- app_assoc. by split; [|constructor].
Qed.

Lemma wrun_bind {A B} oracle tr (p : wprog A) (f : A → wprog B) :
  wrun oracle tr (p ≫= f) = wrun oracle (wrun oracle tr p).1 (f (wrun oracle tr p).2).
Proof. revert tr. induction p as [a|c k IH]; intros tr; cbn; [done|]. apply IH. Qed.

Definition is_receive (e : wevent) : bool := match wev_call e with WReceive => true | _ => false end.

(** How many responses were asked for. *)
Definition receives (tr : list wevent) : nat := length (List.filter is_receive tr).

Lemma receives_app tr tr' : receives (tr ++ tr') = (receives tr + receives tr')%nat.
Proof. unfold receives. by rewrite List.filter_app, length_app. Qed.

(** The end of a program asks for no response. *)
Lemma wwp_unasked {A} c (f : wreply c → wprog A) n :
  c ≠ WReceive → (∀ r, wwp (f r) (λ tr _, receives tr = n)) → wwp (watch_call c ≫= f) (λ tr _, receives tr = n).
Proof. intros Hc Hf. apply wwp_call. intros r. eapply wwp_mono; [|exact (Hf r)]. intros tr _ <-. by destruct c. Qed.

Ltac unasked := repeat match goal with
  | |- wwp (watch_call _ ≫= _) _ => apply wwp_unasked; [done|]; intros ?; cbv beta
  | |- wwp (mret _) _ => by apply wwp_ret
  | |- wwp (match ?x with _ => _ end) _ => destruct x
  end.

Section stopping.
Context `{GoStd} `{EtcdClient} (store : option Store) (target : Target) (prefix : string).

Lemma watch_deliver_unasked hdr events : wwp (watch_deliver prefix hdr events) (λ tr _, receives tr = 0%nat).
Proof. induction events as [|event events IH]; cbn [watch_deliver]; unasked. exact IH. Qed.

Lemma watch_receive_asks revision : wwp (watch_receive target prefix revision) (λ tr _, receives tr = 1%nat).
Proof.
  apply wwp_call. intros received.
  assert (∀ p, wwp p (λ tr _, receives tr = 0%nat) → wwp p (λ tr (_ : wstate), receives (WEv WReceive received :: tr) = 1%nat)) as Hone.
  { intros p. apply wwp_mono. intros tr _ Htr. unfold receives in *. cbn. by rewrite Htr. }
  apply Hone. destruct received as [response|]; [|unfold watch_closed, report; unasked].
  destruct (wrCanceled response); [unfold watch_canceled, watch_restart, report; unasked|].
  apply wwp_bind. eapply wwp_mono; [|apply watch_deliver_unasked]. intros tr sent Htr. apply wwp_ret. by rewrite app_nil_r.
Qed.

Lemma watch_open_asks revision :
  wwp (watch_open store prefix revision) (λ tr s, receives tr = 0%nat ∧ (s = Stopped ∨ s = Receiving revision)).
Proof.
  apply wwp_call. intros ended. destruct (operationContext _ _ _ _); apply wwp_call; intros r; apply wwp_ret; auto.
Qed.

Context (oracle : list wevent → ∀ c, wreply c) (n : nat).

(** After [n] responses the caller's context has ended, and with it the watch. *)
Definition ends_after : Prop :=
  ∀ tr, (n <= receives tr)%nat → oracle tr WReceive = None ∧ ∃ err, oracle tr WCtxErr = Some err.

Context (Hends : ends_after).

Lemma watch_open_ended tr revision :
  (n <= receives tr)%nat → (wrun oracle tr (watch_open store prefix revision)).2 = Stopped.
Proof using Hends.
  intros Htr. destruct (Hends tr Htr) as [_ [err Herr]]. cbn. rewrite Herr.
  destruct (operationContext _ _ _ _) eqn:E; [done|]. unfold operationContext in E. by repeat case_match.
Qed.

Lemma watch_receive_ended tr revision :
  (n <= receives tr)%nat → (wrun oracle tr (watch_receive target prefix revision)).2 = Stopped.
Proof using Hends.
  intros Htr. destruct (Hends tr Htr) as [Hnone _]. cbn. rewrite Hnone. cbn.
  edestruct Hends as [_ [err Herr]]; [|rewrite Herr]; [|done]. rewrite !receives_app. lia.
Qed.

(** Steps to the end, from each state. *)
Definition steps_left (s : wstate) (tr : list wevent) : nat :=
  match s with
  | Opening _ => 2 * (n - receives tr) + 1
  | Receiving _ => Nat.max 1 (2 * (n - receives tr))
  | Stopped => 0
  end.

Lemma watch_step_ends s tr :
  (0 < steps_left s tr)%nat →
  let r := wrun oracle tr (watch_step store target prefix s) in (steps_left r.2 r.1 < steps_left s tr)%nat.
Proof using Hends.
  intros Hs. cbv zeta. destruct (decide (n <= receives tr)%nat) as [Hle|Hgt].
  - destruct s as [revision|revision|]; cbn [watch_step]; [rewrite watch_open_ended by done|rewrite watch_receive_ended by done|done];
      exact Hs.
  - destruct (wrun_runs oracle tr (watch_step store target prefix s)) as (tr' & Htr & Hr). rewrite Htr.
    destruct s as [revision|revision|]; cbn [watch_step] in *; [| |cbn in Hs; lia].
    + apply watch_open_asks in Hr as [Hn Hs']. unfold steps_left. rewrite receives_app, Hn. destruct Hs' as [->| ->]; lia.
    + apply watch_receive_asks in Hr. unfold steps_left. rewrite receives_app, Hr. destruct (wrun _ _ _).2; lia.
Qed.

Lemma watch_loop_ends fuel s tr :
  (steps_left s tr <= fuel)%nat → (wrun oracle tr (watch_loop store target prefix fuel s)).2 = Stopped.
Proof using Hends.
  revert s tr. induction fuel as [|fuel IH]; intros s tr Hs.
  { destruct s; cbn in *; [lia|lia|done]. }
  assert (s ≠ Stopped → (wrun oracle tr (s ← watch_step store target prefix s; watch_loop store target prefix fuel s)).2 = Stopped) as Hstep.
  { intros Hne. rewrite wrun_bind. apply IH. pose proof (watch_step_ends s tr) as Hlt. cbv zeta in Hlt.
    assert (0 < steps_left s tr)%nat by (destruct s; cbn; [lia|lia|done]). specialize (Hlt ltac:(done)). lia. }
  cbn [watch_loop]. by destruct s; [apply Hstep|apply Hstep|].
Qed.
End stopping.

(** ** Properties *)


(** C14: the goroutine returns: once the caller's context has ended after at most [n] responses, [2 n + 1] steps of the
    loop are enough, whatever the responses were. *)
Theorem runWatch_stops `{GoStd} `{EtcdClient} fuel store ctx target afterRevision oracle n :
  ends_after oracle n → (2 * n + 1 <= fuel)%nat →
  (wrun oracle [] (runWatch fuel store ctx target afterRevision)).2 = Stopped.
Proof.
  intros Hends Hfuel. unfold runWatch. destruct (negb ctx); [done|].
  destruct (match store with Some s => _ | None => _ end); [done|]. destruct (ClusterPrefix target); [done|].
  apply (watch_loop_ends _ _ _ _ n Hends). cbn. lia.
Qed.

(** ** A concrete watch *)

Definition sample_kv (key value : string) (revision : Z) : KeyValue := mkKV key 1 revision 1 0 value.

Definition sample_history : list Change :=
  [mkChange 2 "/service/pg/leader" (Some "n1"); mkChange 3 "/service/pg/config" (Some "{}");
   mkChange 5 "/service/pg/leader" None; mkChange 6 "/service/pg/leader" (Some "n2")].

Definition put_event (key value : string) (revision : Z) : EtcdEvent := mkEtcdEvent false (sample_kv key value revision) None.

(** Replies that follow a script of responses; the context ends after it. *)
Definition scripted (script : list (option WatchResponse)) (tr : list wevent) (c : wcall) : wreply c :=
  let i := receives tr in
  match c return wreply c with
  | WCtxErr => if (length script <=? i)%nat then Some ECanceled else None
  | WWatch _ _ | WCancel | WSendError _ => tt
  | WReceive => mjoin (script !! i)
  | WWatchContextErr => Some EDeadlineExceeded
  | WSnapshot target => inl (EText "unavailable")
  | WNow => mkTime 63700000000 0 0
  | WSendEvent _ => true
  end.

Lemma scripted_ends script : ends_after (scripted script) (length script).
Proof.
  intros tr Htr. cbn. rewrite lookup_ge_None_2 by done. split; [done|]. rewrite (proj2 (Nat.leb_le _ _)) by done. by exists ECanceled.
Qed.

(** Two changes, a deadline (the channel is closed), and the other two. *)
Definition sample_script : list (option WatchResponse) :=
  [Some (mkWatchResponse 4 [put_event "/service/pg/leader" "n1" 2; put_event "/service/pg/config" "{}" 3] 0 false None);
   None;
   Some (mkWatchResponse 6 [mkEtcdEvent true (sample_kv "/service/pg/leader" "" 5) (Some (sample_kv "/service/pg/leader" "n1" 2));
                            put_event "/service/pg/leader" "n2" 6] 0 false None)].

Definition sample_watch (script : list (option WatchResponse)) : list wevent * wstate :=
  @wrun wstate (scripted script) [] (@runWatch sample_std mem_client 7 (Some (mkStore true 1 1)) true sample_target 0).

Lemma sample_watch_runs script :
  wruns (@runWatch sample_std mem_client 7 (Some (mkStore true 1 1)) true sample_target 0)
    (sample_watch script).1 (sample_watch script).2.
Proof. destruct (wrun_runs (scripted script) [] (@runWatch sample_std mem_client 7 (Some (mkStore true 1 1)) true sample_target 0)) as (tr & Htr & Hr).
  unfold sample_watch. by rewrite Htr.
Qed.


Lemma runWatch_stops_witness :
  (wrun (scripted sample_script) [] (@runWatch sample_std mem_client 7 (Some (mkStore true 1 1)) true sample_target 0)).2 = Stopped.
Proof. apply (@runWatch_stops sample_std mem_client 7 _ _ _ _ _ 3); [apply scripted_ends|lia]. Defined.

(** The promise is needed: a server that sends the changes of a slow watch in
    batches, each with its current revision in the header, breaks it, and a
    deadline between two batches loses the rest. *)
Definition batched_script : list (option WatchResponse) :=
  [Some (mkWatchResponse 6 [put_event "/service/pg/leader" "n1" 2; put_event "/service/pg/config" "{}" 3] 0 false None); None].

Lemma batched_catch_up_loses :
  omap (λ e, match wev_call e with WWatch _ revision => Some revision | _ => None end)
    (wrun (scripted (batched_script ++ [None])) [] (@runWatch sample_std mem_client 7 (Some (mkStore true 1 1)) true sample_target 0)).1
  = [1; 7]%Z.
Proof. by vm_compute. Qed.
