(* ===== verification/SecretLaws.v ===== *)
(** * What redaction hides

    [marked t t'] relates a text to one in which some parts became the marker.
    Everything [Redact] does is such a step, and a value that the marker cannot
    help to spell is in [t'] only if it is in [t]. *)

From S2P Require Import Prelude GoStrings Secret.

(** ** [strings.Contains] and prefixes *)

Lemma Contains_cons c s v : Contains (String c s) v = HasPrefix (String c s) v || Contains s v.
Proof. unfold Contains, HasPrefix. cbn [String.index]. destruct (String.prefix _ _); [done|]. by destruct (String.index 0 v s). Qed.

Lemma Contains_empty v : Contains "" v = (v ==s "").
Proof. by destruct v. Qed.

Lemma Contains_prefix s v : HasPrefix s v = true → Contains s v = true.
Proof. destruct s; [|by rewrite Contains_cons; intros ->]. rewrite Contains_empty. by destruct v. Qed.

Lemma Contains_app_r a s v : Contains (a +:+ s) v = false → Contains s v = false.
Proof. induction a as [|c a IH]; [done|]. cbn [String.app]. change (String c a +:+ s) with (String c (a +:+ s)).
  rewrite Contains_cons. intros [_ ?]%orb_false_iff. auto. Qed.

Lemma HasPrefix_cons c s d v : HasPrefix (String c s) (String d v) = true ↔ d = c ∧ HasPrefix s v = true.
Proof. unfold HasPrefix. cbn. destruct (ascii_dec d c); split; intros; naive_solver. Qed.

Lemma HasPrefix_empty s : HasPrefix s "" = true.
Proof. by destruct s. Qed.

Lemma HasPrefix_stop x c t v : lacks c v → HasPrefix (x +:+ String c t) v = true → HasPrefix x v = true.
Proof.
  revert x. induction v as [|d v IH]; intros x; [intros; apply HasPrefix_empty|].
  intros [Hc Hl]%lacks_cons. destruct x as [|e x]; intros [-> Hp]%HasPrefix_cons; [done|].
  apply HasPrefix_cons. auto.
Qed.

(** ** Values the marker cannot spell *)

Record unspelled (v : string) : Prop := {
  un_set : v ≠ "";
  un_open : lacks "[" v;
  un_close : lacks "]" v;
  un_word : Contains "REDACTED" v = false;
  un_space : HasSuffix v " " = false
}.

Lemma HasSuffix_space c v : v ≠ "" → HasSuffix (String c v) " " = HasSuffix v " ".
Proof.
  intros Hv. unfold HasSuffix. rewrite (rev_cons c v).
  destruct (String.rev v) as [|d r] eqn:E; [by destruct Hv; rewrite <- (rev_involutive v), E|].
  change (String d r +:+ String c "") with (String d (r +:+ String c "")). change (String.rev " ") with " ".
  unfold String.prefix. destruct (ascii_dec " " d); [|done]. by destruct r.
Qed.

Lemma marker_hides v t : unspelled v → Contains t v = false → Contains (Redacted +:+ t) v = false.
Proof.
  intros [Hne Ho Hc Hw _] Ht. change (Redacted +:+ t) with (String "[" ("REDACTED" +:+ String "]" t)).
  rewrite Contains_cons. apply orb_false_iff. split.
  { destruct v as [|d v]; [done|]. apply not_true_is_false. intros [-> _]%HasPrefix_cons.
    by apply lacks_cons in Ho as [? _]. }
  revert Hw. generalize "REDACTED"%string. intros x. induction x as [|e x IH].
  - intros _. change ("" +:+ String "]" t) with (String "]" t). rewrite Contains_cons, Ht, orb_false_r.
    destruct v as [|d v]; [done|]. apply not_true_is_false. intros [-> _]%HasPrefix_cons. by apply lacks_cons in Hc as [? _].
  - rewrite Contains_cons. intros [Hp Hx]%orb_false_iff.
    change (String e x +:+ String "]" t) with (String e (x +:+ String "]" t)).
    rewrite Contains_cons, (IH Hx), orb_false_r. apply not_true_is_false. intros Hq.
    apply (HasPrefix_stop (String e x)) in Hq; [|done]. by rewrite Hq in Hp.
Qed.

(** ** Marked texts *)

Inductive marked : string → string → Prop :=
| marked_nil : marked "" ""
| marked_char c t t' : marked t t' → marked (String c t) (String c t')
| marked_secret part t t' : marked t t' → marked (part +:+ t) (Redacted +:+ t')
| marked_spaced part t t' : marked t t' → marked (part +:+ t) (String " " (Redacted +:+ t')).

Lemma marked_refl t : marked t t.
Proof. induction t; by constructor. Qed.

Lemma marked_app a t t' : marked t t' → marked (a +:+ t) (a +:+ t').
Proof. intros. induction a; [done|]. by constructor. Qed.

Lemma marked_prefix t t' v :
  marked t t' → lacks "[" v → HasSuffix v " " = false → HasPrefix t' v = true → HasPrefix t v = true.
Proof.
  intros Hm. revert v. induction Hm as [|c t t' Hm IH|part t t' Hm IH|part t t' Hm IH]; intros [|d v] Ho Hs Hp;
    try (apply HasPrefix_empty); try done.
  - apply HasPrefix_cons in Hp as [-> Hp]. apply HasPrefix_cons. split; [done|]. apply lacks_cons in Ho as [_ Ho].
    destruct v as [|e v]; [apply HasPrefix_empty|]. apply IH; [done| |done]. by rewrite HasSuffix_space in Hs.
  - apply HasPrefix_cons in Hp as [-> _]. by apply lacks_cons in Ho as [? _].
  - apply HasPrefix_cons in Hp as [-> Hp]. destruct v as [|e v]; [by vm_compute in Hs|].
    apply HasPrefix_cons in Hp as [-> _]. apply lacks_cons in Ho as [_ Ho]. by apply lacks_cons in Ho as [? _].
Qed.

Lemma marked_hides t t' v : unspelled v → marked t t' → Contains t v = false → Contains t' v = false.
Proof.
  intros Hv Hm. induction Hm as [|c t t' Hm IH|part t t' Hm IH|part t t' Hm IH]; intros Ht; [done|..].
  - rewrite Contains_cons in Ht |- *. apply orb_false_iff in Ht as [Hp Ht]. rewrite (IH Ht), orb_false_r.
    apply not_true_is_false. intros Hq.
    eapply (marked_prefix (String c t)) in Hq; [by rewrite Hq in Hp|by constructor|apply Hv..].
  - apply Contains_app_r in Ht. by apply marker_hides, IH.
  - apply Contains_app_r in Ht. rewrite Contains_cons, marker_hides, orb_false_r by auto.
    apply not_true_is_false. intros Hq. destruct Hv as [Hne Ho _ _ Hs]. destruct v as [|d v]; [done|].
    apply HasPrefix_cons in Hq as [-> Hq]. destruct v as [|e v]; [by vm_compute in Hs|].
    apply HasPrefix_cons in Hq as [-> _]. apply lacks_cons in Ho as [_ Ho]. by apply lacks_cons in Ho as [? _].
Qed.

(** ** Known values *)

Lemma drop_bytes_app s n : ∃ u, s = u +:+ drop_bytes n s.
Proof.
  revert s. induction n as [|n IH]; intros s; [by exists ""|]. destruct s as [|c s]; [by exists ""|].
  destruct (IH s) as [u Hu]. exists (String c u). cbn. change (String c u +:+ drop_bytes n s) with (String c (u +:+ drop_bytes n s)).
  by rewrite <- Hu.
Qed.

Lemma drop_bytes_prefix s p : HasPrefix s p = true → s = p +:+ drop_bytes (String.length p) s.
Proof.
  unfold HasPrefix. revert s. induction p as [|c p IH]; intros s; [done|]. destruct s as [|d s]; [done|]. cbn.
  destruct (ascii_dec c d) as [->|]; [|done]. intros Hp.
  change (String d p +:+ drop_bytes (String.length p) s) with (String d (p +:+ drop_bytes (String.length p) s)). by rewrite <- IH.
Qed.

Lemma replace_text_marked old fuel t : marked t (replace_text old Redacted fuel t).
Proof.
  revert t. induction fuel as [|fuel IH]; intros t; [apply marked_refl|]. destruct t as [|c t]; [constructor|].
  cbn [replace_text]. destruct (HasPrefix (String c t) old) eqn:E; [|by constructor].
  pose proof (drop_bytes_prefix _ _ E) as Ht. rewrite Ht at 1. by constructor.
Qed.

Lemma replace_text_hides v fuel t : unspelled v → String.length t ≤ fuel → Contains (replace_text v Redacted fuel t) v = false.
Proof.
  intros Hv. revert t. induction fuel as [|fuel IH]; intros t Hf.
  { destruct t; [|cbn in Hf; lia]. cbn. rewrite Contains_empty. apply String.eqb_neq, Hv. }
  destruct t as [|c t]; cbn [replace_text]; [rewrite Contains_empty; apply String.eqb_neq, Hv|].
  cbn in Hf. destruct (HasPrefix (String c t) v) eqn:E.
  - apply marker_hides; [done|]. apply IH. pose proof (un_set _ Hv) as Hne. destruct v as [|d v]; [done|].
    pose proof (drop_bytes_prefix _ _ E) as Ht. apply (f_equal String.length) in Ht. rewrite length_string_app in Ht. cbn in Ht |- *. lia.
  - rewrite Contains_cons, IH, orb_false_r by lia. apply not_true_is_false. intros Hq.
    eapply (marked_prefix (String c t)) in Hq; [by rewrite Hq in E|constructor; apply replace_text_marked|apply Hv..].
Qed.

Lemma replace_known v l t : unspelled v → v ∈ l ∨ Contains t v = false →
  Contains (foldl (λ t value, ReplaceAll t value Redacted) t l) v = false.
Proof.
  intros Hv. revert t. induction l as [|w l IH]; intros t Ht; cbn; [destruct Ht as [Ht|]; [by apply elem_of_nil in Ht|done]|].
  apply IH. destruct Ht as [[->|Ht]%elem_of_cons|Ht]; [right|by left|right].
  - by apply replace_text_hides.
  - eapply marked_hides; [done|apply replace_text_marked|done].
Qed.

(** ** Patterns *)

Definition ahead (s s' : pos) : Prop := ∃ u, rest s = u +:+ rest s'.

Lemma ahead_refl s : ahead s s.
Proof. by exists "". Qed.

Lemma ahead_trans s t u : ahead s t → ahead t u → ahead s u.
Proof. intros [a Ha] [b Hb]. exists (a +:+ b). by rewrite Ha, Hb, string_app_assoc. Qed.

Lemma ahead_advance s n : ahead s (advance s n).
Proof. destruct n as [|n]; [apply ahead_refl|]. unfold ahead, advance. cbn [rest]. apply drop_bytes_app. Qed.

Lemma ahead_one p runes s s' : one p runes s = Some s' → ahead s s'.
Proof.
  unfold one. destruct (rest s); [done|]. destruct (p a); [intros <-%(inj Some); apply ahead_advance|].
  destruct (find_first _ _); [|done]. intros <-%(inj Some). apply ahead_advance.
Qed.

Section matching.
Context {A : Type}.

Lemma or_else_Some (a b : option A) x : or_else a b = Some x → a = Some x ∨ b = Some x.
Proof. destruct a; auto. Qed.

Lemma star_ahead greedy p runes (k : pos → option A) fuel s x :
  star greedy p runes k fuel s = Some x → ∃ s', ahead s s' ∧ k s' = Some x.
Proof.
  revert s. induction fuel as [|fuel IH]; intros s; cbn; [intros; exists s; by split; [apply ahead_refl|]|].
  assert (match one p runes s with Some s' => star greedy p runes k fuel s' | None => None end = Some x →
          ∃ s', ahead s s' ∧ k s' = Some x) as Hmore.
  { destruct (one p runes s) as [s1|] eqn:E; [|done]. intros (s' & Ha & Hk)%IH. exists s'.
    split; [|done]. eapply ahead_trans; [by eapply ahead_one|done]. }
  assert (k s = Some x → ∃ s', ahead s s' ∧ k s' = Some x) as Hk by (exists s; by split; [apply ahead_refl|]).
  destruct greedy; intros [?|?]%or_else_Some; auto.
Qed.

Lemma match_ahead r (k : pos → option A) s x : match_re r k s = Some x → ∃ s', ahead s s' ∧ k s' = Some x.
Proof.
  assert (∀ s, k s = Some x → ∃ s', ahead s s' ∧ k s' = Some x) as Hk by (intros t; exists t; by split; [apply ahead_refl|]).
  revert k s Hk. induction r as [p runes| |a IHa b IHb|a IHa b IHb|greedy p runes| | |]; intros k s Hk; cbn; auto.
  - destruct (one p runes s) as [s1|] eqn:E; [|done]. intros. exists s1. split; [by eapply ahead_one|done].
  - intros (s1 & H1 & H2)%IHa; [|intros t Ht; exists t; by split; [apply ahead_refl|]].
    apply IHb in H2 as (s2 & H2 & H3); [|done]. exists s2. split; [by eapply ahead_trans|done].
  - intros [?|?]%or_else_Some; eauto.
  - apply star_ahead.
  - repeat case_match; auto; done.
  - repeat case_match; auto; done.
  - case_match; auto; done.
Qed.
End matching.

Lemma match_pattern_parts p s a b c :
  match_pattern p s = Some (a, b, c) → rest s = between s a +:+ between a b +:+ between b c +:+ rest c.
Proof.
  assert (∀ s s', ahead s s' → rest s = between s s' +:+ rest s') as Hb.
  { intros t t' [u Hu]. unfold between. by rewrite Hu, length_string_app, Nat.add_sub, substring_prefix. }
  unfold match_pattern. intros (s1 & H1 & (s2 & H2 & (s3 & H3 & [= <- <- <-])%match_ahead)%match_ahead)%match_ahead.
  rewrite (Hb _ _ H1), (Hb _ _ H2), (Hb _ _ H3) at 1. done.
Qed.

(** A replacement that keeps the first part and marks the rest, or keeps a
    prefix of both. *)
Definition marks (f : string → string → string → string) : Prop :=
  ∀ k v c t t', marked t t' → marked (k +:+ v +:+ c +:+ t) (f k v c +:+ t').

Lemma replace_matches_marked p f fuel s : marks f → marked (rest s) (replace_matches p f fuel s).
Proof.
  intros Hf. revert s. induction fuel as [|fuel IH]; intros s; cbn; [apply marked_refl|].
  destruct (match_pattern p s) as [[[a b] c]|] eqn:E.
  - rewrite (match_pattern_parts _ _ _ _ _ E). by apply Hf.
  - pose proof (IH (advance s 1)) as Hm. unfold advance in Hm. destruct (rest s) as [|d r]; [constructor|]. by constructor.
Qed.

Lemma marks_string : marks (λ k _ c, k +:+ Redacted +:+ c).
Proof.
  intros k v c t t' Hm. rewrite !string_app_assoc. apply marked_app, marked_secret. by apply marked_app.
Qed.

Lemma marks_all : marks (λ _ _ _, Redacted).
Proof. intros k v c t t' Hm. rewrite <- !string_app_assoc. by apply marked_secret. Qed.

Lemma marks_line : marks redact_line.
Proof.
  intros k v c t t' Hm. unfold redact_line.
  replace (k +:+ v +:+ c +:+ t) with ((k +:+ v +:+ c) +:+ t) by (by rewrite !string_app_assoc).
  destruct (Cut ":" (k +:+ v +:+ c)) as [[key value]|] eqn:E; [|by apply marked_app].
  cbv zeta. destruct (_ || _); [by apply marked_app|].
  apply Cut_Some in E as [-> _]. rewrite !string_app_assoc. apply marked_app.
  change (String ":" value +:+ t) with (String ":" (value +:+ t)).
  change (":" +:+ " " +:+ Redacted +:+ t') with (String ":" (String " " (Redacted +:+ t'))).
  apply marked_char. by apply marked_spaced.
Qed.

Lemma ReplaceAllFunc_marked p f t : marks f → marked t (ReplaceAllFunc p f t).
Proof. intros Hf. exact (replace_matches_marked p f (String.length t) (at_ None t) Hf). Qed.

Lemma ReplaceAllString_marked p t : marked t (ReplaceAllString p t).
Proof. apply ReplaceAllFunc_marked, marks_string. Qed.

Lemma redact_patterns_hides v t : unspelled v → Contains t v = false → Contains (redact_patterns t) v = false.
Proof.
  intros Hv Ht. unfold redact_patterns. cbv zeta.
  repeat (eapply marked_hides; [exact Hv|first [apply ReplaceAllString_marked|apply ReplaceAllFunc_marked; first [apply marks_line|apply marks_all]]|]).
  exact Ht.
Qed.

Lemma known_values_elem v known : v ∈ known → Reveal v ≠ "" → Reveal v ∈ known_values known.
Proof.
  intros Hv Hne. unfold known_values. rewrite merge_sort_Permutation. apply list_elem_of_fmap. exists v. split; [done|].
  apply list_elem_of_In, filter_In. split; [by apply list_elem_of_In|]. unfold IsSet. by apply negb_true_iff, String.eqb_neq.
Qed.

(** C39: a secret given to [Redact] is not in the text it gives back, whatever
    that text is and whatever the patterns match, unless the marker could spell
    a part of the secret: it has no bracket, is no part of the word in the
    marker and does not end with a space. *)
Theorem Redact_hides text known v :
  v ∈ known → unspelled (Reveal v) → Contains (Redact text known) (Reveal v) = false.
Proof.
  intros Hk Hv. apply redact_patterns_hides; [done|]. apply replace_known; [done|left].
  apply known_values_elem; [done|apply Hv].
Qed.

Lemma Redact_hides_witness :
  let text := "dsn=postgres://u:p4ss@db p4ss" in
  Redact text [New "p4"; New "p4ss"] = "dsn=postgres://u:[REDACTED]@db [REDACTED]" ∧
  Contains (Redact text [New "p4"; New "p4ss"]) "p4ss" = false.
Proof.
  split; [by vm_compute|]. apply (Redact_hides "dsn=postgres://u:p4ss@db p4ss" [New "p4"; New "p4ss"] (New "p4ss")); [set_solver|].
  split; by vm_compute.
Defined.

(** ** Redacted documents

    The text of a JSON document is redacted after it was encoded: a value that
    ends where its string ends takes the closing quote and what follows with
    it, and a YAML mapping below a secret name is cut. *)

Example Redact_breaks_json :
  let q := String DQ "" in
  Redact ("{" +:+ q +:+ "conninfo" +:+ q +:+ ":" +:+ q +:+ "host=db password=x" +:+ q +:+ "," +:+ q +:+ "n" +:+ q +:+ ":1}") []
  = "{" +:+ q +:+ "conninfo" +:+ q +:+ ":" +:+ q +:+ "host=db password=[REDACTED]".
Proof. vm_compute. reflexivity. Qed.

Example Redact_takes_next_line :
  Redact (String.concat (String LF "") ["token:"; "name: x"]) [] = "token: [REDACTED]".
Proof. vm_compute. reflexivity. Qed.
