(* ===== verification/Assoc.v ===== *)
(** * Go maps as association lists

    The loader of the [config] package keeps its [map[string]any] values as
    lists of entries with at most one entry per key.  The order of the list is
    the order of a [range] loop, which Go leaves open: results are stated up to
    [agree], which forgets it. *)

From S2P Require Import Prelude.

Section assoc.
  Context {A : Type}.
  Implicit Types (m : list (string * A)) (k : string) (v : A).

(** [v, ok := m[k]] *)
Fixpoint aget m k : option A :=
  match m with
  | [] => None
  | (k', v) :: r => if k' ==s k then Some v else aget r k
  end.

(** [m[k] = v] *)
Fixpoint aset m k v : list (string * A) :=
  match m with
  | [] => [(k, v)]
  | (k', w) :: r => if k' ==s k then (k, v) :: r else (k', w) :: aset r k v
  end.

(** [delete(m, k)] *)
Fixpoint adel m k : list (string * A) :=
  match m with
  | [] => []
  | (k', w) :: r => if k' ==s k then adel r k else (k', w) :: adel r k
  end.

(** The same map, whatever the order of the entries. *)
Definition agree m m' : Prop := ∀ k, aget m k = aget m' k.

#[global] Instance agree_equivalence : Equivalence agree.
Proof.
  split; [by intros ??|by intros ??? k|].
  intros ??? H H' k. by rewrite H.
Qed.

#[global] Instance aget_proper : Proper (agree ==> eq ==> eq) aget.
Proof. intros ?? H ?? ->. apply H. Qed.

Lemma aget_set m k v k' : aget (aset m k v) k' = if k ==s k' then Some v else aget m k'.
Proof.
  induction m as [|[k0 w] m IH]; cbn; [done|].
  destruct (String.eqb_spec k0 k) as [->|Hne]; cbn.
  - by destruct (k ==s k').
  - rewrite IH. destruct (String.eqb_spec k0 k') as [->|], (String.eqb_spec k k'); congruence.
Qed.

Lemma aget_set_eq m k v : aget (aset m k v) k = Some v.
Proof. by rewrite aget_set, String.eqb_refl. Qed.

Lemma aget_set_ne m k v k' : k ≠ k' → aget (aset m k v) k' = aget m k'.
Proof. intros ?%String.eqb_neq. by rewrite aget_set, H. Qed.

Lemma aget_del m k k' : aget (adel m k) k' = if k ==s k' then None else aget m k'.
Proof.
  induction m as [|[k0 w] m IH]; cbn; [by destruct (k ==s k')|].
  destruct (String.eqb_spec k0 k) as [->|Hne]; cbn; rewrite IH.
  - by destruct (k ==s k').
  - destruct (String.eqb_spec k0 k') as [->|], (String.eqb_spec k k'); congruence.
Qed.

#[global] Instance aset_proper : Proper (agree ==> eq ==> eq ==> agree) aset.
Proof. intros ?? H ?? -> ?? -> k. by rewrite !aget_set, H. Qed.

#[global] Instance adel_proper : Proper (agree ==> eq ==> agree) adel.
Proof. intros ?? H ?? -> k. by rewrite !aget_del, H. Qed.

Lemma aget_None m k : aget m k = None ↔ k ∉ m.*1.
Proof.
  induction m as [|[k' v] m IH]; cbn; [set_solver|].
  destruct (String.eqb_spec k' k) as [->|]; [set_solver|]. rewrite IH. set_solver.
Qed.

Lemma aget_Some_elem m k v : aget m k = Some v → (k, v) ∈ m.
Proof.
  induction m as [|[k' w] m IH]; cbn; [done|].
  destruct (String.eqb_spec k' k) as [->|]; [intros [= ->]; left|]. right. auto.
Qed.

Lemma aget_elem m k v : NoDup m.*1 → aget m k = Some v ↔ (k, v) ∈ m.
Proof.
  intros Hnd. split; [apply aget_Some_elem|].
  induction m as [|[k' w] m IH]; [by intros ?%not_elem_of_nil|]. cbn in *.
  apply NoDup_cons in Hnd as [Hk Hnd].
  intros [[= -> ->]|H]%elem_of_cons; [by rewrite String.eqb_refl|].
  destruct (String.eqb_spec k' k) as [->|]; [|by apply IH].
  destruct Hk. apply list_elem_of_fmap. by exists (k, v).
Qed.

Lemma aget_is_Some m k : is_Some (aget m k) ↔ k ∈ m.*1.
Proof.
  rewrite <- not_eq_None_Some, aget_None. split; [|by intros H []].
  intros H. destruct (decide (k ∈ m.*1)); [done|by destruct H].
Qed.

Lemma aset_keys m k v k' : k' ∈ (aset m k v).*1 ↔ k' = k ∨ k' ∈ m.*1.
Proof.
  rewrite <- !aget_is_Some, aget_set. destruct (String.eqb_spec k k') as [->|]; [|naive_solver].
  split; [by left|eauto].
Qed.

Lemma adel_keys m k k' : k' ∈ (adel m k).*1 ↔ k' ≠ k ∧ k' ∈ m.*1.
Proof.
  rewrite <- !aget_is_Some, aget_del. destruct (String.eqb_spec k k') as [->|]; [|naive_solver].
  split; [by intros []|by intros [? _]].
Qed.

Lemma aset_NoDup m k v : NoDup m.*1 → NoDup (aset m k v).*1.
Proof.
  induction m as [|[k' w] m IH]; cbn; [intros; apply NoDup_singleton|].
  intros [Hk Hnd]%NoDup_cons. destruct (String.eqb_spec k' k) as [->|]; cbn; [by constructor|].
  constructor; [|by apply IH]. rewrite aset_keys. naive_solver.
Qed.

Lemma adel_NoDup m k : NoDup m.*1 → NoDup (adel m k).*1.
Proof.
  induction m as [|[k' w] m IH]; cbn; [done|].
  intros [Hk Hnd]%NoDup_cons. destruct (String.eqb_spec k' k) as [->|]; cbn; [by apply IH|].
  constructor; [|by apply IH]. rewrite adel_keys. naive_solver.
Qed.

Lemma aset_elem m k v kv : kv ∈ aset m k v → kv = (k, v) ∨ kv ∈ m.
Proof.
  induction m as [|[k' w] m IH]; cbn; [set_solver|].
  destruct (k' ==s k); rewrite !elem_of_cons; naive_solver.
Qed.

Lemma adel_elem m k kv : kv ∈ adel m k → kv ∈ m.
Proof.
  induction m as [|[k' w] m IH]; cbn; [done|].
  destruct (k' ==s k); rewrite ?elem_of_cons; naive_solver.
Qed.

Lemma agree_perm m m' : NoDup m.*1 → m ≡ₚ m' → agree m m'.
Proof.
  intros Hnd Hp k. apply option_eq. intros v.
  rewrite !aget_elem; [by rewrite Hp| |done]. by rewrite <- Hp.
Qed.

End assoc.

Lemma aget_fmap {A B} (f : string → A → B) (m : list (string * A)) k :
  aget ((λ kv, (kv.1, f kv.1 kv.2)) <$> m) k = f k <$> aget m k.
Proof.
  induction m as [|[k' v] m IH]; cbn; [done|].
  destruct (String.eqb_spec k' k) as [->|]; [done|apply IH].
Qed.
