(* ===== verification/Config.v ===== *)
(** * The configuration loader: [config/config.go], [errors.go], [merge.go],
      [load.go] and [resolve.go]

    Values are what [yaml.v3] decodes into [any]; the decoder itself and
    [url.Parse] are parameters.  A [map[string]any] is an association list in
    the order of a [range] loop, [sources] a [gmap].  [applyMap] updates the
    nested maps of its destination in place: [cloneValue] has separated them
    from every other value, so the new map is written back here.

    [contextLayers] recurses along [extends]; its fuel is the number of
    contexts, plus two. *)

From S2P Require Import Prelude GoStrings GoErrors Values Assoc.
From S2P Require Secret.

(** ** Values *)

Inductive yvalue :=
| YNull
| YBool (b : bool)
| YInt (n : Z)                                   (* int *)
| YInt64 (n : Z)                                 (* int64 *)
| YUint64 (n : Z)                                (* uint64 *)
| YFloat (f : SpecFloat.spec_float)              (* float64 *)
| YTime (text : string)                          (* time.Time *)
| YString (s : string)
| YStrings (l : list string)                     (* []string *)
| YList (items : list yvalue)                    (* []any *)
| YMap (fields : list (string * yvalue))         (* map[string]any *)
| YAnyMap (fields : list (yvalue * yvalue)).     (* map[any]any: a mapping with a key that is no string *)

Definition ymap := list (string * yvalue).

(** [value, present := m[k]; present && value != nil] *)
Definition aget_set_value (m : ymap) (k : string) : option yvalue :=
  match aget m k with
  | Some YNull | None => None
  | Some v => Some v
  end.

(** ** Sources and errors *)

Inductive Layer := LayerDefault | LayerFile | LayerContext | LayerEnvironment | LayerFlag.

#[export] Instance Layer_eq_dec : EqDecision Layer.
Proof. solve_decision. Defined.

Definition Layer_text (l : Layer) : string :=
  match l with
  | LayerDefault => "default" | LayerFile => "file" | LayerContext => "context"
  | LayerEnvironment => "environment" | LayerFlag => "flag"
  end.

Record Source := mkSource { sourceLayer : option Layer; sourceName : string }.

#[export] Instance Source_eq_dec : EqDecision Source.
Proof. solve_decision. Defined.

(** The zero [Source] a failed map lookup yields. *)
#[export] Instance zero_Source : Zero Source := mkSource None "".

Abbreviation sources := (gmap string Source).

Inductive ErrorKind :=
| ErrorSyntax | ErrorMultipleDocuments | ErrorRootType | ErrorContext
| ErrorUnsupported | ErrorNotFound | ErrorProjection.

Inductive Operation :=
| OperationLocalVersion | OperationInspect | OperationDiscover
| OperationClusterRead | OperationRESTWrite | OperationQuery
| OperationOther (text : string).

(** [*config.Error] (with whether it wraps a cause), [*config.ValidationError]
    and other errors, such as the one of a context. *)
Inductive cerror :=
| CError (kind : ErrorKind) (field source message : string) (cause : bool)
| CValidation (operation : Operation) (field : string) (source : Source) (reason : string)
| COther (err : goerror).

Inductive cres (A : Type) := COk (a : A) | CErr (e : cerror).
Arguments COk {A} a.
Arguments CErr {A} e.

(** [if err != nil { return ..., err }] *)
#[export] Instance cres_map : FMap cres :=
  λ A B f x, match x with COk a => COk (f a) | CErr e => CErr e end.

#[export] Instance cres_bind : MBind cres :=
  λ A B f x, match x with COk a => f a | CErr e => CErr e end.

Definition newError (kind : ErrorKind) (field source message : string) (cause : bool) : cerror :=
  CError kind field source message cause.

(** [Error.Error] *)
Definition Error_text (field source message : string) : string :=
  let prefix := "configuration" in
  let prefix := if source !=s "" then prefix +:+ " " +:+ source else prefix in
  let prefix := if field !=s "" then prefix +:+ " field " +:+ field else prefix in
  if message ==s "" then prefix else prefix +:+ ": " +:+ message.

Inductive WarningCode := WarningSchemeLessDCSURL | WarningInsecureRESTTLS.

Record Warning := mkWarning { warningCode : WarningCode; warningField : string; warningMessage : string }.

(** ** Documents and requests *)

Record Document := mkDocument {
  root : ymap;
  contexts : list (string * ymap);
  network : yvalue;                 (* any; nil is [YNull] *)
  extensionName : string;
  defaultContext : string;
  docSourceName : string
}.

Definition extensionField (document : option Document) (suffix : string) : string :=
  let name := match document with
              | Some d => if extensionName d !=s "" then extensionName d else "go_patroni"
              | None => "go_patroni"
              end in
  if suffix ==s "" then name else name +:+ "." +:+ suffix.

Definition DefaultContext (document : option Document) : string :=
  match document with
  | None => "default"
  | Some d => if defaultContext d ==s "" then "default" else defaultContext d
  end.

Definition ContextNames (document : option Document) : list string :=
  match document with
  | None => []
  | Some d => sort_strings (remove_dups ("default" :: (contexts d).*1))
  end.

Record Overrides := mkOverrides {
  ovContext : option string;
  ovDCSURL : option string;
  ovNamespace : option string;
  ovScope : option string;
  ovGroup : option Z;
  ovInsecure : option bool
}.

(** [Environment.Lookup] *)
Definition Environment := string → option string.

Record ResolveRequest := mkResolveRequest {
  rqContext : string;
  rqEnvironment : option Environment;
  rqOverrides : Overrides
}.

(** ** Merging: [merge.go] *)

Fixpoint cloneValue (v : yvalue) : yvalue :=
  match v with
  | YMap fields => YMap (List.map (λ kv, (kv.1, cloneValue kv.2)) fields)
  | YList items => YList (List.map cloneValue items)
  | v => v
  end.

Definition cloneMap (input : ymap) : ymap := List.map (λ kv, (kv.1, cloneValue kv.2)) input.

Record resolutionLayer := mkLayer { layerValues : ymap; layerSource : Source }.

(** A source key at or below a path. *)
Definition under (path existing : string) : bool :=
  (existing ==s path) || HasPrefix existing (path +:+ ".").

Definition clearSourcePrefix (s : sources) (path : string) : sources :=
  filter (λ kv, under path kv.1 = false) s.

Fixpoint assignSources (v : yvalue) (path : string) (s : sources) (source : Source) : sources :=
  match v with
  | YMap ((_ :: _) as fields) =>
      foldl (λ s kv, kv s) s
        (List.map (λ kv s, assignSources kv.2 (path +:+ "." +:+ kv.1) s source) fields)
  | _ => <[path := source]> s
  end.

Definition child_path (prefix key : string) : string :=
  if prefix !=s "" then prefix +:+ "." +:+ key else key.

(** One turn of the loop of [applyMap]; [entries] is the recursive call. *)
Fixpoint applyEntry (value : yvalue) (key path : string) (source : Source)
    (d : ymap) (s : sources) : ymap * sources :=
  match value, aget d key with
  | YMap overlay, Some (YMap nested) =>
      let s := match overlay with [] => <[path := source]> (clearSourcePrefix s path) | _ => s end in
      let '(nested, s) :=
        foldl (λ ds step, step ds) (nested, s)
          (List.map (λ kv ds, applyEntry kv.2 kv.1 (child_path path kv.1) source ds.1 ds.2) overlay) in
      (aset d key (YMap nested), s)
  | _, _ =>
      (aset d key (cloneValue value), assignSources value path (clearSourcePrefix s path) source)
  end.

Definition applyMap (destination overlay : ymap) (prefix : string) (s : sources) (source : Source)
    : ymap * sources :=
  foldl (λ ds kv, applyEntry kv.2 kv.1 (child_path prefix kv.1) source ds.1 ds.2) (destination, s) overlay.

Definition applyLayer (ds : ymap * sources) (layer : resolutionLayer) : ymap * sources :=
  applyMap ds.1 (layerValues layer) "" ds.2 (layerSource layer).

Definition replaceTopLevel (ds : ymap * sources) (key : string) (v : yvalue) (source : Source) : ymap * sources :=
  (aset ds.1 key (cloneValue v), assignSources v key (clearSourcePrefix ds.2 key) source).

Definition deleteTopLevel (ds : ymap * sources) (key : string) : ymap * sources :=
  (adel ds.1 key, clearSourcePrefix ds.2 key).

(** ** Redaction: [merge.go] and [internal/secret] *)

Definition Redacted : string := Secret.Redacted.

Definition isSecretKey (key : string) : bool :=
  let normalized := ToLower (ReplaceByte "-" "_" key) in
  Contains normalized "password" || Contains normalized "passwd" || (normalized ==s "pwd") ||
  Contains normalized "token" || Contains normalized "secret" ||
  Contains normalized "credential" || (normalized ==s "auth") || (normalized ==s "authorization") ||
  Contains normalized "api_key" || Contains normalized "access_key" ||
  Contains normalized "private_key" || Contains normalized "session_key" ||
  (normalized ==s "cookie") || (normalized ==s "set_cookie").

(** [redactMap] and [redactList] on a nested value; every other value is kept. *)
Fixpoint redactValue (v : yvalue) : yvalue :=
  match v with
  | YMap fields =>
      YMap (List.map (λ kv, (kv.1, if isSecretKey kv.1
                                   then match kv.2 with YNull => YNull | _ => YString Redacted end
                                   else redactValue kv.2)) fields)
  | YList items => YList (List.map redactValue items)
  | v => v
  end.

Definition redact_entry (key : string) (v : yvalue) : yvalue :=
  if isSecretKey key then match v with YNull => YNull | _ => YString Redacted end else redactValue v.

Definition redactMap (input : ymap) : ymap := List.map (λ kv, (kv.1, redact_entry kv.1 kv.2)) input.

Definition RedactMap (input : ymap) : ymap := redactMap (cloneMap input).

(** [secret.Value] and [config.Secret] *)
Record Secret := newSecret { Reveal : string }.

Definition Secret_IsSet (s : Secret) : bool := Reveal s !=s "".

(** [String], [GoString], [MarshalText] and the text of [MarshalJSON],
    [MarshalYAML] and [LogValue] *)
Definition Secret_String (s : Secret) : string := if negb (Secret_IsSet s) then "" else Redacted.

Fixpoint redactTextValues (known : list Secret.Value) (v : yvalue) : yvalue :=
  match v with
  | YString s => YString (Secret.Redact s known)
  | YMap fields => YMap (List.map (λ kv, (kv.1, redactTextValues known kv.2)) fields)
  | YList items => YList (List.map (redactTextValues known) items)
  | YStrings l => YStrings (List.map (λ s, Secret.Redact s known) l)
  | v => v
  end.

(** ** Loading: [load.go] *)

Inductive NodeKind := DocumentNode | SequenceNode | MappingNode | ScalarNode | AliasNode | NoNode.

#[export] Instance NodeKind_eq_dec : EqDecision NodeKind.
Proof. solve_decision. Defined.

(** A [yaml.Node]: what [Parse] reads of it, and the rest ([nodeRest]). *)
Inductive YNode := mkNode (kind : NodeKind) (tag : string) (content : list YNode) (nodeRest : string).

Definition nodeKind (n : YNode) : NodeKind := match n with mkNode k _ _ _ => k end.
Definition nodeTag (n : YNode) : string := match n with mkNode _ t _ _ => t end.
Definition nodeContent (n : YNode) : list YNode := match n with mkNode _ _ c _ => c end.

Inductive decoded := DecodeEOF | DecodeFailed | DecodedNode (n : YNode).

(** [yaml.v3]: the results of successive calls of [Decoder.Decode], and
    [Node.Decode] into a [map[string]any]. *)
Class YamlStd := {
  yaml_Decode : string → nat → decoded;
  node_Decode : YNode → option ymap
}.

Definition emptyDocumentNode : YNode := mkNode DocumentNode "" [mkNode MappingNode "!!map" [] ""] "".

Fixpoint extract_contexts (document : Document) (entries : list (string * yvalue)) : cres Document :=
  match entries with
  | [] => COk document
  | (name, YMap contextMap) :: rest =>
      extract_contexts
        (mkDocument (root document) (aset (contexts document) name (cloneMap contextMap)) (network document)
           (extensionName document) (defaultContext document) (docSourceName document)) rest
  | (name, _) :: _ =>
      CErr (newError ErrorProjection (extensionField (Some document) ("contexts." +:+ name))
              (docSourceName document) "must be a mapping" false)
  end.

Definition with_default_context (document : Document) (name : string) : Document :=
  mkDocument (root document) (contexts document) (network document) (extensionName document) name (docSourceName document).

Definition with_network (document : Document) (v : yvalue) : Document :=
  mkDocument (root document) (contexts document) v (extensionName document) (defaultContext document) (docSourceName document).

Definition with_extension (document : Document) (name : string) : Document :=
  mkDocument (root document) (contexts document) (network document) name (defaultContext document) (docSourceName document).

(** [delete(document.root, "go_patroni"); delete(document.root, "boar")] *)
Definition without_extension (document : Document) : Document :=
  mkDocument (adel (adel (root document) "go_patroni") "boar") (contexts document) (network document)
    (extensionName document) (defaultContext document) (docSourceName document).

Definition default_context_of (document : Document) (extension : ymap) : cres Document :=
  match aget_set_value extension "default_context" with
  | None => COk document
  | Some (YString name) =>
      if name ==s "" then CErr (newError ErrorProjection (extensionField (Some document) "default_context")
                                  (docSourceName document) "must be a non-empty string" false)
      else COk (with_default_context document name)
  | Some _ => CErr (newError ErrorProjection (extensionField (Some document) "default_context")
                      (docSourceName document) "must be a non-empty string" false)
  end.

Definition contexts_of (document : Document) (extension : ymap) : cres Document :=
  match aget_set_value extension "contexts" with
  | None => COk document
  | Some (YMap entries) => extract_contexts document entries
  | Some _ => CErr (newError ErrorProjection (extensionField (Some document) "contexts")
                      (docSourceName document) "must be a mapping" false)
  end.

(** Which extension the document has: [go_patroni], or the older [boar]. *)
Definition extension_of (document : Document) : cres (string * option yvalue) :=
  let publicValue := aget_set_value (root document) "go_patroni" in
  let legacyValue := aget_set_value (root document) "boar" in
  match publicValue, legacyValue with
  | Some _, Some _ => CErr (newError ErrorProjection "go_patroni" (docSourceName document)
                              "cannot be combined with the legacy boar extension" false)
  | Some v, None => COk ("go_patroni", Some v)
  | None, Some v => COk ("boar", Some v)
  | None, None => COk (if is_nil (aget (root document) "boar") then "go_patroni" else "boar", None)
  end.

Definition extractSDKConfig (document : Document) : cres Document :=
  '(name, value) ← extension_of document;
  let document := with_extension document name in
  match value with
  | None => COk (without_extension document)
  | Some (YMap extension) =>
      document ← default_context_of document extension;
      document ← contexts_of document extension;
      let document := match aget extension "network" with
                      | Some v => with_network document (cloneValue v)
                      | None => document
                      end in
      COk (without_extension document)
  | Some _ => CErr (newError ErrorProjection name (docSourceName document) "must be a mapping" false)
  end.

Section with_yaml.
  Context `{YamlStd}.

Definition is_null_scalar (n : YNode) : bool :=
  bool_decide (nodeKind n = ScalarNode) && (nodeTag n ==s "!!null").

Definition Parse (data sourceName : string) : cres Document :=
  raw ← match yaml_Decode data 0 with
              | DecodeEOF => COk emptyDocumentNode
              | DecodeFailed => CErr (newError ErrorSyntax "" sourceName "invalid YAML" true)
              | DecodedNode n => COk n
         end;
  match yaml_Decode data 1 with
  | DecodedNode _ => CErr (newError ErrorMultipleDocuments "" sourceName "multiple YAML documents are not supported" false)
  | DecodeFailed => CErr (newError ErrorSyntax "" sourceName "invalid trailing YAML" true)
  | DecodeEOF =>
      match nodeKind raw, nodeContent raw with
      | DocumentNode, [rootNode] =>
          let rootNode := if is_null_scalar rootNode
                          then match nodeContent emptyDocumentNode with n :: _ => n | [] => rootNode end
                          else rootNode in
          if negb (bool_decide (nodeKind rootNode = MappingNode))
          then CErr (newError ErrorRootType "" sourceName "root must be a YAML mapping" false)
          else match node_Decode rootNode with
               | None => CErr (newError ErrorProjection "" sourceName "root mapping cannot be projected" true)
               | Some root =>
                   extractSDKConfig (mkDocument (cloneMap root) [] YNull "go_patroni" "default" sourceName)
               end
      | _, _ => CErr (newError ErrorRootType "" sourceName "root must be one YAML mapping document" false)
      end
  end.

(** [os.ReadFile] *)
Inductive file := FileData (data : string) | FileMissing | FileUnreadable.

Record LoadRequest := mkLoadRequest { ldPath : string; ldEnvironment : option Environment }.

(** The operating system: its environment, files and [DefaultConfigPath]
    ([os.UserConfigDir]), and the error of the context at its two checks. *)
Record host := mkHost {
  osEnvironment : Environment;
  ReadFile : string → file;
  UserConfigPath : option string;
  ctxErr : nat → option goerror
}.

Definition environment_of (h : host) (e : option Environment) : Environment :=
  match e with Some e => e | None => osEnvironment h end.

Definition load_path (h : host) (request : LoadRequest) : cres (string * bool) :=
  if ldPath request !=s "" then COk (ldPath request, true)
  else let selected := deref "" (environment_of h (ldEnvironment request) "PATRONICTL_CONFIG_FILE") in
       if selected !=s "" then COk (selected, true)
       else match UserConfigPath h with
            | Some path => COk (path, false)
            | None => CErr (newError ErrorNotFound "PATRONICTL_CONFIG_FILE" "default"
                              "cannot determine default patronictl config path" true)
            end.

Definition Load (h : host) (request : LoadRequest) : cres Document :=
  match ctxErr h 0 with
  | Some err => CErr (COther err)
  | None =>
      '(path, explicit) ← load_path h request;
      match ReadFile h path with
      | FileMissing => if negb explicit then Parse "" path
                       else CErr (newError ErrorNotFound "PATRONICTL_CONFIG_FILE" path "configuration file is not readable" true)
      | FileUnreadable => CErr (newError ErrorNotFound "PATRONICTL_CONFIG_FILE" path "configuration file is not readable" true)
      | FileData data =>
          match ctxErr h 1 with
          | Some err => CErr (COther err)
          | None => Parse data path
          end
      end
  end.

End with_yaml.
