(* ===== verification/ConfigProject.v ===== *)
(** * From merged values to a resolved configuration: [config/project.go],
      [network.go], [resolve.go] and [validate.go]

    [project] reads the merged map into the typed fields an operation uses;
    [Resolve] builds the layers, merges them and projects.  [Validate] is the
    requirement check of one operation. *)

From S2P Require Import Prelude GoStrings GoErrors Values Assoc Config.
From S2P Require Secret.

(** ** The resolved configuration *)

Inductive LocatorKind := LocatorNone | LocatorURL | LocatorProxy | LocatorSRV | LocatorHosts | LocatorHost.

#[export] Instance LocatorKind_eq_dec : EqDecision LocatorKind.
Proof. solve_decision. Defined.

Record TLSConfig := mkTLS { CAFile : string; CertFile : string; KeyFile : string; KeyPassword : Secret }.

Record Etcd3Config := mkEtcd3 {
  Configured : bool;
  Locator : LocatorKind;
  Endpoints : list string;
  etcdURL : string;
  etcdProxy : string;
  etcdSRV : string;
  Protocol : string;
  etcdTLS : TLSConfig;
  etcdUsername : string;
  etcdPassword : Secret
}.

Record RESTConfig := mkREST {
  Insecure : bool;
  restTLS : TLSConfig;              (* CAFile, CertFile, KeyFile, KeyPassword *)
  restUsername : string;
  restPassword : Secret
}.

(** Durations in nanoseconds. *)
Record NetworkConfig := mkNetwork {
  DNSLookupTimeout : Z;
  DCSDialTimeout : Z;
  DCSRequestTimeout : Z;
  PatroniTimeout : Z;
  PostgresTimeout : Z;
  PostgresCloseTimeout : Z
}.

Record Resolved := mkResolved {
  resContext : string;
  resNamespace : string;
  resScope : string;
  resCitus : bool;
  resGroup : option Z;
  resEtcd3 : Etcd3Config;
  resREST : RESTConfig;
  resNetwork : NetworkConfig;
  resWarnings : list Warning;
  resEffective : ymap;
  resSources : sources
}.

Definition Resolved_Source (resolved : Resolved) (path : string) : option Source := resSources resolved !! path.

Definition sourceDescription (s : sources) (field : string) : string :=
  match s !! field with
  | Some source => match sourceLayer source with Some l => Layer_text l | None => "" end +:+ ":" +:+ sourceName source
  | None => "unknown"
  end.

Definition projectionError (field : string) (s : sources) (message : string) : cerror :=
  newError ErrorProjection field (sourceDescription s field) message false.

(** ** Endpoints *)

Definition has (c : ascii) (s : string) : bool := has_char (Ascii.eqb c) s.

(** [net.SplitHostPort] *)
Definition SplitHostPort (hostport : string) : option (string * string) :=
  match hostport with
  | String "[" rest =>
      match Cut "]" rest with
      | Some (host, String ":" port) =>
          if has ":" port || has "[" rest || has "]" port then None else Some (host, port)
      | _ => None
      end
  | _ =>
      match CutLast ":" hostport with
      | Some (host, port) =>
          if has ":" host || has "[" hostport || has "]" hostport then None else Some (host, port)
      | None => None
      end
  end.

(** [net.JoinHostPort] *)
Definition JoinHostPort (host port : string) : string :=
  if has ":" host then "[" +:+ host +:+ "]:" +:+ port else host +:+ ":" +:+ port.

(** [validatePort]: whether it returns nil. *)
Definition validatePort (v : string) : bool :=
  match ParseInt v with
  | None => false
  | Some port => negb ((port <? 1)%Z || (65535 <? port)%Z)
  end.

Definition bracket (c : ascii) : bool := Ascii.eqb c "[" || Ascii.eqb c "]".

(** [normalizeEndpoint] after the URL form has been reduced to its host. *)
Definition normalize_host (endpoint : string) : option string :=
  match SplitHostPort endpoint with
  | Some (host, port) =>
      if (host ==s "") || (port ==s "") then None
      else if negb (validatePort port) then None
      else Some endpoint
  | None =>
      if (1 <? CountByte ":" endpoint)%nat then Some (JoinHostPort (Trim bracket endpoint) "2379")
      else if has ":" endpoint then
        match Cut ":" endpoint with
        | None => None
        | Some (host, port) =>
            if (host ==s "") || (port ==s "") then None
            else if negb (validatePort port) then None
            else Some endpoint
        end
      else Some (endpoint +:+ ":2379")
  end.

Section with_std.
  Context `{GoStd}.

Definition normalizeEndpoint (endpoint : string) : option string :=
  if Contains endpoint "://" then
    match url_Parse endpoint with
    | None => None
    | Some parsed =>
        if URL_Hostname parsed ==s "" then None
        else if urlHasUser parsed then None
        else normalize_host (urlHost parsed)
    end
  else normalize_host endpoint.

(** The loop of [endpointList]. *)
Fixpoint normalize_all (raw : list string) : option (list string) :=
  match raw with
  | [] => Some []
  | endpoint :: rest =>
      let endpoint := TrimSpace endpoint in
      if endpoint ==s "" then normalize_all rest
      else normalized ← normalizeEndpoint endpoint;
           endpoints ← normalize_all rest;
           Some (normalized :: endpoints)
  end.

Definition as_string (v : yvalue) : option string := match v with YString s => Some s | _ => None end.

Definition raw_endpoints (v : yvalue) : option (list string) :=
  match v with
  | YString typed => Some (Split "," typed)
  | YList typed => mapM as_string typed
  | YStrings typed => Some typed
  | _ => None
  end.

Definition endpointList (v : yvalue) : option (list string) := raw ← raw_endpoints v; normalize_all raw.

(** [rejectURLUserinfo]: the message of its error. *)
Definition rejectURLUserinfo (v : string) : option string :=
  if negb (Contains v "://") then None
  else match url_Parse v with
       | None => Some "must be a valid URL"
       | Some parsed =>
           if urlHasUser parsed
           then Some "userinfo credentials are not accepted; use protected username/password fields"
           else None
       end.

(** ** Typed fields *)

Definition optionalMap (object : ymap) (key : string) (s : sources) : cres (ymap * bool) :=
  match aget_set_value object key with
  | None => COk ([], false)
  | Some (YMap mapping) => COk (mapping, true)
  | Some _ => CErr (projectionError key s "must be a mapping")
  end.

Definition optionalString (object : ymap) (key path : string) (s : sources) : cres string :=
  match aget_set_value object key with
  | None => COk ""
  | Some (YString text) => COk text
  | Some _ => CErr (projectionError path s "must be a string")
  end.

(** [integer]: [int] has 64 bits. *)
Definition integer (v : yvalue) : option Z :=
  match v with
  | YInt n => Some n
  | YInt64 n => let i := int64_wrap n in if (int64_wrap i =? n)%Z then Some i else None
  | YUint64 n => let i := int64_wrap n in if (uint64 i =? n)%Z then Some i else None
  | _ => None
  end.

Record fieldValue := mkField { fieldObject : ymap; fieldKey : string; fieldPath : string }.

Fixpoint firstString (s : sources) (fields : list fieldValue) : cres string :=
  match fields with
  | [] => COk ""
  | field :: rest =>
      match aget_set_value (fieldObject field) (fieldKey field) with
      | None => firstString s rest
      | Some (YString text) => if text ==s "" then firstString s rest else COk text
      | Some _ => CErr (projectionError (fieldPath field) s "must be a string")
      end
  end.

(** The first loop of [firstAuthentication]. *)
Fixpoint first_auth (s : sources) (fields : list fieldValue) : cres (option (string * string)) :=
  match fields with
  | [] => COk None
  | field :: rest =>
      match aget_set_value (fieldObject field) (fieldKey field) with
      | None => first_auth s rest
      | Some (YString text) =>
          if text ==s "" then first_auth s rest
          else match Cut ":" text with
               | Some login => COk (Some login)
               | None => CErr (projectionError (fieldPath field) s "must be username:password")
               end
      | Some _ => CErr (projectionError (fieldPath field) s "must be username:password")
      end
  end.

(** The second loop. *)
Fixpoint first_authentication (s : sources) (fields : list fieldValue) : cres (string * string) :=
  match fields with
  | [] => COk ("", "")
  | field :: rest =>
      match aget_set_value (fieldObject field) (fieldKey field) with
      | None => first_authentication s rest
      | Some (YMap authentication) =>
          username ← optionalString authentication "username" (fieldPath field +:+ ".username") s;
          password ← optionalString authentication "password" (fieldPath field +:+ ".password") s;
          if (username !=s "") || (password !=s "") then COk (username, password)
          else first_authentication s rest
      | Some _ => CErr (projectionError (fieldPath field) s "must be a mapping")
      end
  end.

Definition firstAuthentication (ctl restapi : ymap) (s : sources) : cres (string * string) :=
  auth ← first_auth s [mkField ctl "auth" "ctl.auth"; mkField restapi "auth" "restapi.auth"];
  match auth with
  | Some login => COk login
  | None => first_authentication s
              [mkField ctl "authentication" "ctl.authentication";
               mkField restapi "authentication" "restapi.authentication"]
  end.

(** ** [projectEtcd3] *)

Definition default_source : Source := mkSource (Some LayerDefault) "Patroni default".

(** The protocol; [projectEtcd3] records its default in [sources]. *)
Definition etcd_protocol (etcd : ymap) (s : sources) : cres (string * sources) :=
  match aget_set_value etcd "protocol" with
  | None => COk ("http", <["etcd3.protocol" := default_source]> s)
  | Some (YString protocol) =>
      if (protocol !=s "http") && (protocol !=s "https")
      then CErr (projectionError "etcd3.protocol" s "must be http or https")
      else COk (protocol, s)
  | Some _ => CErr (projectionError "etcd3.protocol" s "must be http or https")
  end.

Record locator := mkLocator { locKind : LocatorKind; locText : string; locEndpoints : list string }.

(** The first loop: [url], [proxy] or [srv]. *)
Fixpoint text_locator (etcd : ymap) (s : sources) (candidates : list (string * LocatorKind)) : cres (option locator) :=
  match candidates with
  | [] => COk None
  | (name, kind) :: rest =>
      match aget_set_value etcd name with
      | None => text_locator etcd s rest
      | Some (YString text) =>
          if TrimSpace text ==s "" then CErr (projectionError ("etcd3." +:+ name) s "must be a non-empty string")
          else match kind with
               | LocatorURL => match rejectURLUserinfo text with
                               | Some message => CErr (projectionError "etcd3.url" s message)
                               | None => COk (Some (mkLocator kind text []))
                               end
               | LocatorProxy => match rejectURLUserinfo text with
                                 | Some message => CErr (projectionError "etcd3.proxy" s message)
                                 | None => COk (Some (mkLocator kind text []))
                                 end
               | _ => COk (Some (mkLocator kind text []))
               end
      | Some _ => CErr (projectionError ("etcd3." +:+ name) s "must be a non-empty string")
      end
  end.

(** The second loop: [hosts] or [host]. *)
Fixpoint host_locator (etcd : ymap) (s : sources) (candidates : list (string * LocatorKind)) : cres (option locator) :=
  match candidates with
  | [] => COk None
  | (name, kind) :: rest =>
      match aget_set_value etcd name with
      | None => host_locator etcd s rest
      | Some v =>
          match endpointList v with
          | Some ((_ :: _) as endpoints) => COk (Some (mkLocator kind "" endpoints))
          | _ => CErr (projectionError ("etcd3." +:+ name) s "must contain one or more host endpoints")
          end
      end
  end.

Definition etcd_locator (etcd : ymap) (s : sources) : cres (option locator) :=
  l ← text_locator etcd s [("url", LocatorURL); ("proxy", LocatorProxy); ("srv", LocatorSRV)];
  match l with
  | Some l => COk (Some l)
  | None => host_locator etcd s [("hosts", LocatorHosts); ("host", LocatorHost)]
  end.

Definition text_of (kind : LocatorKind) (l : option locator) : string :=
  match l with
  | Some l => if bool_decide (locKind l = kind) then locText l else ""
  | None => ""
  end.

Definition no_tls : TLSConfig := mkTLS "" "" "" (newSecret "").

Definition projectEtcd3 (effective : ymap) (s : sources) : cres (Etcd3Config * sources) :=
  found ← optionalMap effective "etcd3" s;
  if negb (snd found)
  then COk (mkEtcd3 false LocatorNone [] "" "" "" "http" no_tls "" (newSecret ""), s)
  else
    let etcd := fst found in
    '(protocol, s) ← etcd_protocol etcd s;
    l ← etcd_locator etcd s;
    caFile ← optionalString etcd "cacert" "etcd3.cacert" s;
    certFile ← optionalString etcd "cert" "etcd3.cert" s;
    keyFile ← optionalString etcd "key" "etcd3.key" s;
    keyPassword ← optionalString etcd "key_password" "etcd3.key_password" s;
    username ← optionalString etcd "username" "etcd3.username" s;
    password ← optionalString etcd "password" "etcd3.password" s;
    COk (mkEtcd3 (negb (is_nil l))
           (match l with Some l => locKind l | None => LocatorNone end)
           (match l with Some l => locEndpoints l | None => [] end)
           (text_of LocatorURL l) (text_of LocatorProxy l) (text_of LocatorSRV l)
           protocol (mkTLS caFile certFile keyFile (newSecret keyPassword)) username (newSecret password), s).

(** ** [projectREST] and [project] *)

Definition rest_insecure (ctl : ymap) (s : sources) : cres bool :=
  match aget_set_value ctl "insecure" with
  | None => COk false
  | Some (YBool insecure) => COk insecure
  | Some _ => CErr (projectionError "ctl.insecure" s "must be a boolean")
  end.

Definition projectREST (effective : ymap) (s : sources) : cres RESTConfig :=
  ctl ← fst <$> optionalMap effective "ctl" s;
  restapi ← fst <$> optionalMap effective "restapi" s;
  insecure ← rest_insecure ctl s;
  caFile ← firstString s [mkField ctl "cacert" "ctl.cacert"; mkField restapi "cafile" "restapi.cafile"];
  certFile ← firstString s [mkField ctl "certfile" "ctl.certfile"; mkField restapi "certfile" "restapi.certfile"];
  keyFile ← firstString s [mkField ctl "keyfile" "ctl.keyfile"; mkField restapi "keyfile" "restapi.keyfile"];
  keyPassword ← firstString s [mkField ctl "keyfile_password" "ctl.keyfile_password";
                               mkField restapi "keyfile_password" "restapi.keyfile_password"];
  '(username, password) ← firstAuthentication ctl restapi s;
  COk (mkREST insecure (mkTLS caFile certFile keyFile (newSecret keyPassword)) username (newSecret password)).

(** [normalizeNamespace] *)
Definition normalizeNamespace (v : string) : string :=
  let parts := filter (λ x, x ≠ "") (TrimSpace <$> FieldsFunc "/" (TrimSpace v)) in
  match parts with
  | [] => "/service"
  | _ => "/" +:+ Join parts "/"
  end.

Definition project_namespace (effective : ymap) (s : sources) : cres string :=
  match aget_set_value effective "namespace" with
  | None => COk "/service"
  | Some (YString namespace) => COk (normalizeNamespace namespace)
  | Some _ => CErr (projectionError "namespace" s "must be a string")
  end.

Definition project_scope (effective : ymap) (s : sources) : cres string :=
  match aget_set_value effective "scope" with
  | None => COk ""
  | Some (YString scope) => COk (TrimSpace scope)
  | Some _ => CErr (projectionError "scope" s "must be a string")
  end.

Definition project_group (citus : ymap) (s : sources) : cres (option Z) :=
  match aget_set_value citus "group" with
  | None => COk None
  | Some v => match integer v with
              | Some group => if (group <? 0)%Z
                              then CErr (projectionError "citus.group" s "must be a non-negative integer")
                              else COk (Some group)
              | None => CErr (projectionError "citus.group" s "must be a non-negative integer")
              end
  end.

Definition zero_network : NetworkConfig := mkNetwork 0 0 0 0 0 0.

Definition project (contextName : string) (effective : ymap) (s : sources) : cres Resolved :=
  namespace ← project_namespace effective s;
  scope ← project_scope effective s;
  '(citus, isCitus) ← optionalMap effective "citus" s;
  group ← (if isCitus then project_group citus s else COk None);
  '(etcd, s') ← projectEtcd3 effective s;
  rest ← projectREST effective s';
  COk (mkResolved contextName namespace scope isCitus group etcd rest zero_network [] (cloneMap effective) s).

(** ** [network.go] *)

Definition second : Z := 1000000000.

Definition default_network : NetworkConfig :=
  mkNetwork (5 * second) (5 * second) (10 * second) (10 * second) (30 * second) (5 * second).

(** One turn of the loop over the fields: the duration to set. *)
Definition network_duration (document : Document) (networkMap : ymap) (key : string) (current : Z) : cres Z :=
  let bad := CErr (newError ErrorProjection (extensionField (Some document) ("network." +:+ key))
                     (docSourceName document) "must be a positive Go duration" false) in
  match aget_set_value networkMap key with
  | None => COk current
  | Some (YString text) =>
      if TrimSpace text ==s "" then bad
      else match ParseDuration (TrimSpace text) with
           | Some duration => if (duration <=? 0)%Z then bad else COk duration
           | None => bad
           end
  | Some _ => bad
  end.

Definition Document_NetworkConfig (document : option Document) : cres NetworkConfig :=
  match document with
  | None => CErr (newError ErrorProjection "go_patroni.network" "" "document is nil" false)
  | Some d =>
      let p := default_network in
      match network d with
      | YNull => COk p
      | YMap m =>
          dns ← network_duration d m "dns_timeout" (DNSLookupTimeout p);
          dial ← network_duration d m "dcs_dial_timeout" (DCSDialTimeout p);
          request ← network_duration d m "dcs_request_timeout" (DCSRequestTimeout p);
          patroni ← network_duration d m "patroni_timeout" (PatroniTimeout p);
          postgres ← network_duration d m "postgres_timeout" (PostgresTimeout p);
          close ← network_duration d m "postgres_close_timeout" (PostgresCloseTimeout p);
          COk (mkNetwork dns dial request patroni postgres close)
      | _ => CErr (newError ErrorProjection (extensionField document "network") (docSourceName d) "must be a mapping" false)
      end
  end.

(** ** [resolve.go] *)

Definition patroniDCSSections : list string :=
  ["etcd"; "etcd3"; "consul"; "zookeeper"; "exhibitor"; "kubernetes"; "raft"].

Definition withoutExtends (input : ymap) : ymap := adel (cloneMap input) "extends".

(** [contextLayers]; [None] when the fuel is used up. *)
Fixpoint contextLayers (fuel : nat) (d : Document) (name : string) (stack : list string)
    : option (cres (list resolutionLayer)) :=
  match fuel with
  | O => None
  | S fuel =>
      let fail field message := Some (CErr (newError ErrorContext (extensionField (Some d) field)
                                              (docSourceName d) message false)) in
      if bool_decide (name ∈ stack) then fail ("contexts." +:+ name +:+ ".extends") "context inheritance cycle"
      else if name ==s "default" then
        let file := mkLayer (cloneMap (root d)) (mkSource (Some LayerFile) (docSourceName d)) in
        match aget (contexts d) "default" with
        | None => Some (COk [file])
        | Some overlay =>
            match aget_set_value overlay "extends" with
            | Some _ => fail "contexts.default.extends" "default context cannot extend another context"
            | None => Some (COk [file; mkLayer (withoutExtends overlay) (mkSource (Some LayerContext) "default")])
            end
        end
      else match aget (contexts d) name with
           | None => fail ("contexts." +:+ name) "named context does not exist"
           | Some contextMap =>
               let own := mkLayer (withoutExtends contextMap) (mkSource (Some LayerContext) name) in
               match aget_set_value contextMap "extends" with
               | None => Some (COk [own])
               | Some (YString parent) =>
                   if TrimSpace parent ==s ""
                   then fail ("contexts." +:+ name +:+ ".extends") "must be a non-empty context name"
                   else match contextLayers fuel d (TrimSpace parent) (stack ++ [name]) with
                        | None => None
                        | Some (CErr e) => Some (CErr e)
                        | Some (COk layers) => Some (COk (layers ++ [own]))
                        end
               | Some _ => fail ("contexts." +:+ name +:+ ".extends") "must be a non-empty context name"
               end
           end
  end.

Definition contexts_fuel (d : Document) : nat := S (S (length (contexts d))).

(** The endpoint of a locator. *)
Definition dcs_endpoint (parsed : URL) : string :=
  let port := if URL_Port parsed ==s "" then "2379" else URL_Port parsed in
  if negb (Contains (URL_Hostname parsed) ":") then URL_Hostname parsed +:+ ":" +:+ port
  else JoinHostPort (URL_Hostname parsed) port.

(** [applyDCSURL]: the warning, with the merged map and its sources. *)
Definition applyDCSURL (ds : ymap * sources) (v : string) (source : Source) : cres (option Warning * (ymap * sources)) :=
  let fail kind message cause := CErr (newError kind "DCS_URL" (sourceName source) message cause) in
  let raw := TrimSpace v in
  if raw ==s "" then fail ErrorProjection "must not be empty" false
  else
    let schemeLess := negb (Contains raw "://") in
    let parsedValue := if schemeLess then "etcd3://" +:+ raw else raw in
    match url_Parse parsedValue with
    | None => fail ErrorProjection "cannot parse DCS locator" true
    | Some parsed =>
        if urlScheme parsed !=s "etcd3" then fail ErrorUnsupported "only etcd3:// is supported" false
        else if urlHasUser parsed
        then fail ErrorProjection "userinfo credentials are not accepted; use protected config fields" false
        else if URL_Hostname parsed ==s "" then fail ErrorProjection "etcd3 host is required" false
        else
          let ds := foldl deleteTopLevel ds patroniDCSSections in
          let etcd := YMap [("host", YString (dcs_endpoint parsed)); ("protocol", YString "http")] in
          let ds := replaceTopLevel ds "etcd3" etcd source in
          let namespace := Trim slash (urlPath parsed) in
          let ds := if namespace !=s "" then replaceTopLevel ds "namespace" (YString namespace) source else ds in
          COk (if schemeLess
               then Some (mkWarning WarningSchemeLessDCSURL "DCS_URL"
                            "scheme-less DCS_URL is interpreted as etcd3 for compatibility")
               else None, ds)
    end.

(** The context a request selects: the override, the request, the environment
    and the default of the document, in that order. *)
Definition select_context (d : Document) (environment : Environment) (request : ResolveRequest) : string :=
  let nonblank o := match o with Some s => TrimSpace s | None => "" end in
  let candidates := [nonblank (ovContext (rqOverrides request)); TrimSpace (rqContext request);
                     nonblank (environment "GO_PATRONI_CONTEXT"); nonblank (environment "BOAR_CONTEXT")] in
  deref (DefaultContext (Some d)) (find_first (λ s, s !=s "") candidates).

Definition patroni_default : resolutionLayer := mkLayer [("namespace", YString "service")] default_source.

(** The layers of the document, merged over Patroni's default. *)
Definition merge_layers (layers : list resolutionLayer) : ymap * sources :=
  foldl applyLayer (applyLayer ([], ∅) patroni_default) layers.

Definition add_warning (warnings : list Warning) (w : option Warning) : list Warning :=
  match w with Some w => warnings ++ [w] | None => warnings end.

(** [DCS_URL] in the environment, then [--dcs-url]. *)
Definition apply_locators (environment : Environment) (o : Overrides) (ds : ymap * sources)
    : cres (list Warning * (ymap * sources)) :=
  let value := deref "" (environment "DCS_URL") in
  '(warnings, ds) ← (if TrimSpace value !=s ""
                     then '(w, ds) ← applyDCSURL ds value (mkSource (Some LayerEnvironment) "DCS_URL");
                          COk (add_warning [] w, ds)
                     else COk ([], ds));
  match ovDCSURL o with
  | Some value => '(w, ds) ← applyDCSURL ds value (mkSource (Some LayerFlag) "--dcs-url");
                  COk (add_warning warnings w, ds)
  | None => COk (warnings, ds)
  end.

Definition flag (name : string) : Source := mkSource (Some LayerFlag) name.

(** The other flags. *)
Definition apply_flags (o : Overrides) (ds : ymap * sources) : ymap * sources :=
  let ds := match ovNamespace o with
            | Some v => replaceTopLevel ds "namespace" (YString v) (flag "--namespace") | None => ds end in
  let ds := match ovScope o with
            | Some v => replaceTopLevel ds "scope" (YString v) (flag "--scope") | None => ds end in
  let ds := match ovGroup o with
            | Some v => applyLayer ds (mkLayer [("citus", YMap [("group", YInt v)])] (flag "--group")) | None => ds end in
  match ovInsecure o with
  | Some v => applyLayer ds (mkLayer [("ctl", YMap [("insecure", YBool v)])] (flag "--insecure")) | None => ds
  end.

Definition with_network_warnings (r : Resolved) (n : NetworkConfig) (warnings : list Warning) : Resolved :=
  mkResolved (resContext r) (resNamespace r) (resScope r) (resCitus r) (resGroup r) (resEtcd3 r) (resREST r)
    n warnings (resEffective r) (resSources r).

Definition insecure_warning : Warning :=
  mkWarning WarningInsecureRESTTLS "ctl.insecure"
    "Patroni REST TLS certificate verification is disabled; use only in an explicitly isolated environment".

(** [Resolve], with the environment of the process; [None] when the fuel of
    [contextLayers] is used up. *)
Definition Resolve (h : host) (document : option Document) (request : ResolveRequest) : option (cres Resolved) :=
  match document with
  | None => Some (CErr (newError ErrorProjection "" "" "document is nil" false))
  | Some d =>
      let environment := environment_of h (rqEnvironment request) in
      let contextName := select_context d environment request in
      layers ← contextLayers (contexts_fuel d) d contextName [];
      Some (layers ← layers;
            '(warnings, ds) ← apply_locators environment (rqOverrides request) (merge_layers layers);
            let ds := apply_flags (rqOverrides request) ds in
            resolved ← project contextName ds.1 ds.2;
            network ← Document_NetworkConfig document;
            COk (with_network_warnings resolved network
                   (if Insecure (resREST resolved) then warnings ++ [insecure_warning] else warnings)))
  end.

End with_std.

(** ** [Validate] *)

Definition Resolved_Validate (resolved : Resolved) (operation : Operation) (explicitScope : string) : option cerror :=
  let source path := deref zero (Resolved_Source resolved path) in
  let require needScope :=
    if negb (Configured (resEtcd3 resolved))
    then Some (CValidation operation "etcd3" (source "etcd3")
                 "an etcd3 url, proxy, srv, hosts, or host locator is required; other DCS backends are unsupported")
    else if needScope && (TrimSpace explicitScope ==s "") && (TrimSpace (resScope resolved) ==s "")
    then Some (CValidation operation "scope" (source "scope") "configure scope or provide an explicit cluster target")
    else None in
  match operation with
  | OperationLocalVersion | OperationInspect => None
  | OperationDiscover => require false
  | OperationClusterRead | OperationRESTWrite | OperationQuery => require true
  | OperationOther _ => Some (CValidation operation "operation" zero "unknown operation contract")
  end.

(** ** [Effective] *)

Definition knownSecretValues (resolved : Resolved) : list Secret.Value :=
  [Secret.New (Reveal (etcdPassword (resEtcd3 resolved))); Secret.New (Reveal (KeyPassword (etcdTLS (resEtcd3 resolved))));
   Secret.New (Reveal (restPassword (resREST resolved))); Secret.New (Reveal (KeyPassword (restTLS (resREST resolved))))].

Definition Effective (resolved : Resolved) : yvalue :=
  redactTextValues (knownSecretValues resolved) (YMap (redactMap (cloneMap (resEffective resolved)))).
