(* ===== verification/ConfigLaws.v ===== *)
(** * Merging and its attribution

    [applyMap] is a deep merge, and [sources] names for each leaf of the merged
    map the layer that wrote it.  Both are shown for maps whose keys are
    non-empty and have no dot ([plain]): a dotted key makes two paths of
    [sources] collide. *)

From S2P Require Import Prelude GoStrings GoErrors Values Assoc Config ConfigProject.

(** ** Values *)

Lemma yvalue_rect_nested (P : yvalue → Prop) :
  (∀ fields, Forall (λ kv, P kv.2) fields → P (YMap fields)) →
  (∀ items, Forall P items → P (YList items)) →
  (∀ v, (∀ fields, v ≠ YMap fields) → (∀ items, v ≠ YList items) → P v) →
  ∀ v, P v.
Proof.
  intros Hmap Hlist Hleaf. fix IH 1. intros v. destruct v as [| | | | | | | | |items|fields|].
  10: { apply Hlist. induction items as [|v items IHl]; constructor; [apply IH|apply IHl]. }
  10: { apply Hmap. induction fields as [|[k v] fields IHl]; constructor; [apply IH|apply IHl]. }
  all: by apply Hleaf.
Qed.

Lemma map_id_Forall {A} (f : A → A) l : Forall (λ x, f x = x) l → List.map f l = l.
Proof. induction 1; cbn; congruence. Qed.

Lemma cloneValue_id v : cloneValue v = v.
Proof.
  induction v as [fields IH|items IH|v Hm Hl] using yvalue_rect_nested; cbn.
  - f_equal. apply map_id_Forall. eapply Forall_impl; [exact IH|]. by intros [k v] ->.
  - f_equal. by apply map_id_Forall.
  - destruct v; try done; [by destruct (Hl items)|by destruct (Hm fields)].
Qed.

Lemma cloneMap_id m : cloneMap m = m.
Proof. apply map_id_Forall, Forall_forall. intros [k v] _. cbn. by rewrite cloneValue_id. Qed.

(** Keys that [sources] can tell apart, and maps that have only such keys,
    each once. *)
Definition plain (k : string) : Prop := k ≠ "" ∧ lacks "." k.

Fixpoint plain_value (v : yvalue) : Prop :=
  match v with
  | YMap fields => NoDup fields.*1 ∧ foldr (λ kv P, (plain kv.1 ∧ plain_value kv.2) ∧ P) True fields
  | _ => True
  end.

Definition plain_map (m : ymap) : Prop := NoDup m.*1 ∧ ∀ k v, aget m k = Some v → plain k ∧ plain_value v.

Lemma plain_value_map m : plain_value (YMap m) ↔ plain_map m.
Proof.
  cbn. unfold plain_map. split; intros [Hnd H]; (split; [done|]).
  - intros k v Hg%aget_Some_elem. revert Hg. clear Hnd.
    induction m as [|[k' w] m IH]; [by intros ?%not_elem_of_nil|]. destruct H as [H1 H2].
    intros [[= -> ->]|Hg]%elem_of_cons; [done|by apply IH].
  - assert (Forall (λ kv : string * yvalue, plain kv.1 ∧ plain_value kv.2) m) as Hall.
    { apply Forall_forall. intros [k v] Hin. apply H. by apply aget_elem. }
    clear H. induction Hall; cbn; [done|]. split; [done|]. apply IHHall. by apply NoDup_cons in Hnd as [_ ?].
Qed.

(** The paths at which a value has something other than a non-empty map. *)
Fixpoint leaves (v : yvalue) (path : string) : list string :=
  match v with
  | YMap ((_ :: _) as fields) => concat (List.map (λ kv, leaves kv.2 (path +:+ "." +:+ kv.1)) fields)
  | _ => [path]
  end.

Definition map_leaves (prefix : string) (m : ymap) : list string :=
  concat (List.map (λ kv, leaves kv.2 (child_path prefix kv.1)) m).

Lemma child_path_dot path k : path ≠ "" → child_path path k = path +:+ "." +:+ k.
Proof. intros H%String.eqb_neq. unfold child_path. by rewrite H. Qed.

Lemma leaves_map fields path : fields ≠ [] → path ≠ "" → leaves (YMap fields) path = map_leaves path fields.
Proof.
  intros Hf Hp. unfold map_leaves. destruct fields as [|kv fields]; [done|].
  cbn [leaves]. f_equal. apply List.map_ext. intros kv'. by rewrite child_path_dot.
Qed.

Lemma elem_of_map_leaves prefix m p :
  NoDup m.*1 → p ∈ map_leaves prefix m ↔ ∃ k v, aget m k = Some v ∧ p ∈ leaves v (child_path prefix k).
Proof.
  intros Hnd. unfold map_leaves. split.
  - intros H. rewrite list_elem_of_In, List.in_concat in H. destruct H as (l & Hl & Hp).
    apply List.in_map_iff in Hl as ([k v] & <- & Hin). exists k, v.
    rewrite aget_elem, !list_elem_of_In by done. done.
  - intros (k & v & Hg & Hp). apply aget_elem in Hg; [|done].
    rewrite list_elem_of_In, List.in_concat. exists (leaves v (child_path prefix k)).
    rewrite <- (list_elem_of_In _ p). split; [|done].
    apply List.in_map_iff. exists (k, v). by rewrite <- list_elem_of_In.
Qed.

(** ** Paths *)

Lemma under_spec path p : under path p = true ↔ p = path ∨ ∃ r, p = path +:+ "." +:+ r.
Proof.
  unfold under. rewrite orb_true_iff, String.eqb_eq. apply or_iff_compat_l. split.
  - intros [q ->]%HasPrefix_spec. exists q. by rewrite string_app_assoc.
  - intros [r ->]. rewrite <- string_app_assoc. apply HasPrefix_app.
Qed.

Lemma under_refl path : under path path = true.
Proof. apply under_spec. by left. Qed.

Lemma under_dot path k p : under (path +:+ "." +:+ k) p = true → under path p = true ∧ p ≠ path.
Proof.
  rewrite !under_spec. intros Hp.
  assert (∃ r, p = path +:+ String "." r) as [r ->].
  { destruct Hp as [->|[r ->]]; [by exists k|]. exists (k +:+ "." +:+ r). by rewrite !string_app_assoc. }
  split; [right; by exists r|]. intros H. by apply string_app_self in H.
Qed.

(** A key at or below [path], and the keys below it; every key is below the
    empty prefix. *)
Definition inside (prefix p : string) : Prop := prefix = "" ∨ ∃ r, p = prefix +:+ "." +:+ r.

Lemma child_path_prefix prefix : ∃ pre, ∀ k, child_path prefix k = pre +:+ k.
Proof.
  unfold child_path. destruct (prefix !=s "").
  - exists (prefix +:+ "."). intros k. by rewrite string_app_assoc.
  - by exists "".
Qed.

Lemma under_child_inside prefix k p : under (child_path prefix k) p = true → inside prefix p.
Proof.
  unfold inside, child_path. destruct (String.eqb_spec prefix "") as [->|Hne]; [by left|]. cbn [negb].
  intros Hu. right. apply under_spec in Hu as [->|[r ->]]; [by exists k|].
  exists (k +:+ "." +:+ r). by rewrite !string_app_assoc.
Qed.

Lemma under_child_inj prefix k k' p :
  plain k → plain k' → under (child_path prefix k) p = true → under (child_path prefix k') p = true → k = k'.
Proof.
  intros [_ Hk] [_ Hk']. destruct (child_path_prefix prefix) as [pre Hpre]. rewrite !under_spec, !Hpre.
  assert (∀ k0, lacks "." k0 → p = pre +:+ k0 ∨ (∃ r, p = (pre +:+ k0) +:+ "." +:+ r) →
                ∃ q, p = pre +:+ q ∧ head (Split "." q) = Some k0) as Hhead.
  { intros k0 Hl [->|[r ->]]; [exists k0|exists (k0 +:+ "." +:+ r)].
    - by rewrite Split_lacks_id.
    - rewrite !string_app_assoc. change ("." +:+ r) with (String "." r). by rewrite Split_app. }
  intros (q & -> & Hq)%(Hhead k Hk) (q' & Heq & Hq')%(Hhead k' Hk').
  assert (q = q') as <- by (clear -Heq; induction pre as [|c pre IH]; [done|apply IH; by injection Heq]).
  congruence.
Qed.

Lemma child_path_nonempty prefix k : plain k → child_path prefix k ≠ "".
Proof.
  intros [Hk _]. unfold child_path. destruct (String.eqb_spec prefix "") as [|Hne]; cbn [negb]; [done|].
  by destruct prefix.
Qed.

Lemma inside_child path k p : path ≠ "" → under (child_path path k) p = true → under path p = true ∧ p ≠ path.
Proof. intros Hp. rewrite child_path_dot by done. apply under_dot. Qed.

Lemma leaves_under v path p : p ∈ leaves v path → under path p = true.
Proof.
  revert path. induction v as [fields IH|items IH|v Hm Hl] using yvalue_rect_nested; intros path.
  2: { cbn. rewrite list_elem_of_singleton. intros ->. apply under_refl. }
  2: { assert (leaves v path = [path]) as -> by (destruct v; try done; by edestruct Hm).
       rewrite list_elem_of_singleton. intros ->. apply under_refl. }
  destruct fields as [|kv fields].
  - cbn. rewrite list_elem_of_singleton. intros ->. apply under_refl.
  - cbn [leaves]. generalize dependent (kv :: fields). clear kv fields. intros fields IH.
    induction IH as [|kv fields Hkv _ IHf]; cbn; [by intros ?%not_elem_of_nil|].
    intros [Hp|Hp]%elem_of_app; [|by apply IHf].
    apply Hkv in Hp. by apply under_dot in Hp as [? _].
Qed.

Lemma leaves_not_nil v path : ∃ p, p ∈ leaves v path.
Proof.
  revert path. induction v as [fields IH|items IH|v Hm Hl] using yvalue_rect_nested; intros path.
  2: { exists path. cbn. by left. }
  2: { exists path. destruct v; try (by left); by edestruct Hm. }
  destruct IH as [|kv fields Hkv _]; [exists path; by left|].
  destruct (Hkv (path +:+ "." +:+ kv.1)) as [p Hp]. exists p. cbn. apply elem_of_app. by left.
Qed.

(** ** The sources of a value *)

Lemma foldl_steps {A B} (f : B → A → A) (l : list B) x :
  foldl (λ a step, step a) x (List.map f l) = foldl (λ a b, f b a) x l.
Proof. revert x. induction l as [|b l IH]; intros x; cbn; [done|apply IH]. Qed.

Lemma clearSourcePrefix_lookup s path p :
  clearSourcePrefix s path !! p = if under path p then None else s !! p.
Proof.
  unfold clearSourcePrefix. apply option_eq. intros x. rewrite map_lookup_filter_Some. cbn.
  destruct (under path p); naive_solver.
Qed.

Lemma assignSources_lookup v path s source p :
  assignSources v path s source !! p = if bool_decide (p ∈ leaves v path) then Some source else s !! p.
Proof.
  assert (∀ path, (<[path := source]> s) !! p = if bool_decide (p ∈ [path]) then Some source else s !! p) as Hins.
  { intros q. destruct (decide (q = p)) as [->|Hne].
    - rewrite lookup_insert_eq, bool_decide_eq_true_2; set_solver.
    - rewrite lookup_insert_ne, bool_decide_eq_false_2; set_solver. }
  revert path s Hins. induction v as [fields IH|items IH|v Hm Hl] using yvalue_rect_nested; intros path s Hins.
  2: { apply Hins. }
  2: { destruct v; try apply Hins. by edestruct Hm. }
  destruct fields as [|kv fields]; [apply Hins|].
  cbn [assignSources leaves]. rewrite foldl_steps.
  generalize dependent (kv :: fields). clear kv fields Hins. intros fields IH. revert s.
  induction IH as [|kv fields Hkv _ IHf]; intros s; cbn [foldl List.map concat].
  - by rewrite bool_decide_eq_false_2 by apply not_elem_of_nil.
  - rewrite IHf, Hkv.
    + repeat case_bool_decide; rewrite elem_of_app in *; tauto.
    + intros q. destruct (decide (q = p)) as [->|Hne].
      * rewrite lookup_insert_eq, bool_decide_eq_true_2; set_solver.
      * rewrite lookup_insert_ne, bool_decide_eq_false_2; set_solver.
Qed.

(** ** The merge without its sources *)

Fixpoint deep_merge (over : yvalue) (base : option yvalue) : yvalue :=
  match over, base with
  | YMap o, Some (YMap n) =>
      YMap (foldl (λ n step, step n) n
              (List.map (λ kv n, aset n kv.1 (deep_merge kv.2 (aget n kv.1))) o))
  | _, _ => over
  end.

Definition merge_map (n o : ymap) : ymap := foldl (λ n kv, aset n kv.1 (deep_merge kv.2 (aget n kv.1))) n o.

Lemma deep_merge_map o n : deep_merge (YMap o) (Some (YMap n)) = YMap (merge_map n o).
Proof. cbn. by rewrite foldl_steps. Qed.

Lemma applyEntry_map o key path source d s n :
  aget d key = Some (YMap n) →
  applyEntry (YMap o) key path source d s =
    let r := applyMap n o path (match o with [] => <[path := source]> (clearSourcePrefix s path) | _ => s end) source in
    (aset d key (YMap r.1), r.2).
Proof.
  intros Hg. cbn [applyEntry]. rewrite Hg. cbv zeta. rewrite foldl_steps. fold (applyMap n o path).
  unfold applyMap. by destruct (foldl _ _ _).
Qed.

(** Both are maps, or the overlay replaces what was there. *)
Definition both_maps (v : yvalue) (base : option yvalue) : bool :=
  match v, base with YMap _, Some (YMap _) => true | _, _ => false end.

Lemma applyEntry_replace v key path source d s :
  both_maps v (aget d key) = false →
  applyEntry v key path source d s =
    (aset d key v, assignSources v path (clearSourcePrefix s path) source).
Proof.
  intros H. unfold both_maps in H. rewrite <- (cloneValue_id v) at 2.
  destruct v; cbn [applyEntry]; try done. by destruct (aget d key) as [[]|].
Qed.

Lemma deep_merge_replace v base : both_maps v base = false → deep_merge v base = v.
Proof. destruct v; try done. by destruct base as [[]|]. Qed.

Lemma both_maps_inv v base : both_maps v base = true → ∃ o n, v = YMap o ∧ base = Some (YMap n).
Proof. destruct v; try done. destruct base as [[]|]; try done. eauto. Qed.

Lemma applyMap_cons n kv o prefix s source :
  applyMap n (kv :: o) prefix s source =
    let r := applyEntry kv.2 kv.1 (child_path prefix kv.1) source n s in applyMap r.1 o prefix r.2 source.
Proof. cbn. by destruct (applyEntry _ _ _ _ _ _). Qed.

Lemma applyEntry_value v : ∀ key path source d s,
  (applyEntry v key path source d s).1 = aset d key (deep_merge v (aget d key)).
Proof.
  induction v as [o IH|items IH|v Hm Hl] using yvalue_rect_nested; intros key path source d s.
  2: by rewrite applyEntry_replace. 
  2: { assert (both_maps v (aget d key) = false) by (destruct v; try done; by edestruct Hm).
       by rewrite applyEntry_replace, deep_merge_replace. }
  destruct (both_maps (YMap o) (aget d key)) eqn:E; [|by rewrite applyEntry_replace, deep_merge_replace].
  apply both_maps_inv in E as (o' & n & [= <-] & Hg).
  rewrite (applyEntry_map _ _ _ _ _ _ _ Hg), Hg, deep_merge_map. cbv zeta. cbn [fst]. do 2 f_equal.
  generalize (match o with [] => <[path := source]> (clearSourcePrefix s path) | _ => s end). clear Hg. revert n.
  induction IH as [|kv o Hkv _ IHo]; intros n s'; [done|].
  rewrite applyMap_cons. cbv zeta. rewrite IHo, Hkv. done.
Qed.

Lemma applyMap_value n o prefix s source : (applyMap n o prefix s source).1 = merge_map n o.
Proof.
  revert n s. induction o as [|kv o IH]; intros n s; [done|].
  rewrite applyMap_cons. cbv zeta. by rewrite IH, applyEntry_value.
Qed.

Lemma aget_merge_map n o k :
  NoDup o.*1 →
  aget (merge_map n o) k = match aget o k with Some v => Some (deep_merge v (aget n k)) | None => aget n k end.
Proof.
  unfold merge_map. revert n. induction o as [|[k' v] o IH]; intros n; cbn; [done|].
  intros [Hk Hnd]%NoDup_cons. rewrite IH, aget_set by done.
  destruct (String.eqb_spec k' k) as [->|Hne]; [|done].
  by rewrite (proj2 (aget_None o k) Hk).
Qed.

Lemma merge_map_NoDup n o : NoDup n.*1 → NoDup (merge_map n o).*1.
Proof. unfold merge_map. revert n. induction o as [|kv o IH]; intros n Hn; cbn; [done|]. by apply IH, aset_NoDup. Qed.

(** What the entries of a map are merged with. *)
Lemma plain_map_merge n o :
  (∀ k v, aget o k = Some v → ∀ base, (∀ w, base = Some w → plain_value w) → plain_value (deep_merge v base)) →
  plain_map n → plain_map o → plain_map (merge_map n o).
Proof.
  intros Hentry [Hnd Hn] [Hndo Ho]. split; [by apply merge_map_NoDup|].
  intros k v. rewrite aget_merge_map by done. destruct (aget o k) as [w|] eqn:E; [|apply Hn].
  intros [= <-]. split; [by apply (Ho k w)|]. apply (Hentry k w E). intros w' Hw. by apply (Hn k w').
Qed.

Lemma deep_merge_plain v : ∀ base,
  plain_value v → (∀ w, base = Some w → plain_value w) → plain_value (deep_merge v base).
Proof.
  induction v as [o IH|items IH|v Hm Hl] using yvalue_rect_nested; intros base Hv Hb; [|done|].
  2: { rewrite deep_merge_replace; [done|]. destruct v; try done; by edestruct Hm. }
  destruct (both_maps (YMap o) base) eqn:E; [|by rewrite deep_merge_replace].
  apply both_maps_inv in E as (o' & n & [= <-] & ->). rewrite deep_merge_map.
  apply plain_value_map in Hv. apply plain_value_map, plain_map_merge; [|by apply plain_value_map, Hb|done].
  intros k v Hg base Hbase. pose proof (aget_Some_elem _ _ _ Hg) as Hin.
  apply (proj1 (Forall_forall _ _) IH (k, v) Hin); [by apply (proj2 Hv k v)|done].
Qed.

Lemma merge_map_plain n o : plain_map n → plain_map o → plain_map (merge_map n o).
Proof.
  intros Hn Ho. apply plain_map_merge; [|done..]. intros k v Hg base Hb. apply deep_merge_plain; [|done].
  by apply (proj2 Ho k v).
Qed.

(** ** Attribution *)

(** Where the two maps of a merge are both empty or both not.  An empty
    overlay erases the sources of leaves that stay, and an overlay on an empty
    map leaves the source of a leaf that is gone. *)
Fixpoint compatible (v : yvalue) (base : option yvalue) : Prop :=
  match v, base with
  | YMap o, Some (YMap n) =>
      (o = [] ↔ n = []) ∧ foldr (λ kv P, compatible kv.2 (aget n kv.1) ∧ P) True o
  | _, _ => True
  end.

Definition compatible_map (o n : ymap) : Prop := ∀ k v, aget o k = Some v → compatible v (aget n k).

Lemma compatible_map_intro o n :
  NoDup o.*1 → compatible (YMap o) (Some (YMap n)) ↔ (o = [] ↔ n = []) ∧ compatible_map o n.
Proof.
  intros Hnd. cbn. apply and_iff_compat_l. unfold compatible_map. split.
  - intros H k v Hg%aget_Some_elem. clear Hnd. induction o as [|[k' w] o IH]; [by apply not_elem_of_nil in Hg|].
    destruct H as [H1 H2]. apply elem_of_cons in Hg as [[= -> ->]|Hg]; [done|by apply IH].
  - intros H. assert (Forall (λ kv, compatible kv.2 (aget n kv.1)) o) as Hall.
    { apply Forall_forall. intros [k v] Hin. apply H. by apply aget_elem. }
    clear -Hall. induction Hall; cbn; done.
Qed.

(** Below [path], the sources name exactly the leaves of the value there. *)
Definition attributed (path : string) (value : option yvalue) (s : sources) : Prop :=
  ∀ p, under path p = true → is_Some (s !! p) ↔ ∃ v, value = Some v ∧ p ∈ leaves v path.

Definition attributed_map (prefix : string) (m : ymap) (s : sources) : Prop :=
  ∀ p, inside prefix p → is_Some (s !! p) ↔ p ∈ map_leaves prefix m.

(** What one merge at [path] does to the sources. *)
Record merged (path : string) (over : yvalue) (result : yvalue) (source : Source) (s s' : sources) : Prop := {
  merged_attributed : attributed path (Some result) s';
  merged_frame p : under path p = false → s' !! p = s !! p;
  merged_new p : p ∈ leaves over path → s' !! p = Some source;
  merged_old p : p ∉ leaves over path → s' !! p = s !! p ∨ s' !! p = None
}.

Record merged_maps (prefix : string) (o m : ymap) (source : Source) (s s' : sources) : Prop := {
  merged_maps_attributed : attributed_map prefix m s';
  merged_maps_frame p : ¬ inside prefix p → s' !! p = s !! p;
  merged_maps_new p : p ∈ map_leaves prefix o → s' !! p = Some source;
  merged_maps_old p : p ∉ map_leaves prefix o → s' !! p = s !! p ∨ s' !! p = None
}.

Lemma attributed_entry prefix m s k :
  plain_map m → plain k → attributed_map prefix m s → attributed (child_path prefix k) (aget m k) s.
Proof.
  intros [Hnd Hm] Hk Ha p Hu. rewrite (Ha p) by by eapply under_child_inside.
  rewrite elem_of_map_leaves by done. split.
  - intros (k' & v & Hg & Hp). assert (k' = k) as ->; [|eauto].
    apply (under_child_inj prefix _ _ p); [by apply (Hm _ _ Hg)|done|by eapply leaves_under|done].
  - intros (v & Hg & Hp). eauto.
Qed.

Lemma attributed_set prefix m s s' k v :
  plain_map m → plain k → attributed_map prefix m s →
  attributed (child_path prefix k) (Some v) s' →
  (∀ p, under (child_path prefix k) p = false → s' !! p = s !! p) →
  attributed_map prefix (aset m k v) s'.
Proof.
  intros [Hnd Hm] Hk Ha Hv Hframe p Hin. rewrite elem_of_map_leaves by by apply aset_NoDup.
  destruct (under (child_path prefix k) p) eqn:Hu.
  - rewrite (Hv p Hu). split.
    + intros (w & [= <-] & Hp). exists k, v. by rewrite aget_set_eq.
    + intros (k' & w & Hg & Hp). rewrite aget_set in Hg. destruct (String.eqb_spec k k') as [->|Hne].
      * injection Hg as ->. eauto.
      * destruct Hne. apply (under_child_inj prefix _ _ p); [done|by apply (Hm _ _ Hg)|done|by eapply leaves_under].
  - rewrite (Hframe p Hu), (Ha p Hin), elem_of_map_leaves by done. split.
    + intros (k' & w & Hg & Hp). exists k', w. rewrite aget_set_ne; [done|]. intros ->.
      apply leaves_under in Hp. congruence.
    + intros (k' & w & Hg & Hp). rewrite aget_set in Hg. destruct (String.eqb_spec k k') as [->|Hne]; [|eauto].
      injection Hg as ->. apply leaves_under in Hp. congruence.
Qed.

Lemma inside_under path p : path ≠ "" → inside path p → under path p = true ∧ p ≠ path.
Proof. intros Hp [?|[r ->]]; [done|]. apply under_dot with (k := r), under_refl. Qed.

Lemma under_inside path p : under path p = true → p ≠ path → inside path p.
Proof. rewrite under_spec. intros [?|H] ?; [done|by right]. Qed.

Lemma map_leaves_inside prefix m p : NoDup m.*1 → p ∈ map_leaves prefix m → inside prefix p.
Proof.
  intros Hnd (k & v & _ & Hp)%elem_of_map_leaves; [|done].
  by eapply under_child_inside, leaves_under.
Qed.

(** A merge that replaces what was there. *)
Lemma merged_replace v path source s :
  merged path v v source s (assignSources v path (clearSourcePrefix s path) source).
Proof.
  split; intros p; rewrite ?assignSources_lookup, ?clearSourcePrefix_lookup.
  - intros Hu. rewrite Hu. case_bool_decide; split; [eauto|done|by intros [? ?]|naive_solver].
  - intros Hu. rewrite Hu, bool_decide_eq_false_2; [done|]. intros Hp%leaves_under. congruence.
  - intros Hp. by rewrite bool_decide_eq_true_2.
  - intros Hp. rewrite bool_decide_eq_false_2 by done. destruct (under path p); auto.
Qed.

(** A merge of two non-empty maps, from the merge of their entries. *)
Lemma merged_nested path o n m source s s' :
  path ≠ "" → o ≠ [] → m ≠ [] → NoDup o.*1 → NoDup n.*1 → NoDup m.*1 → n ≠ [] →
  attributed path (Some (YMap n)) s → merged_maps path o m source s s' →
  merged path (YMap o) (YMap m) source s s'.
Proof.
  intros Hp Ho Hm Hndo Hndn Hnd Hn Ha [Hma Hmf Hmn Hmo]. split; intros p; rewrite ?leaves_map by done; [..|apply Hmo].
  - intros Hu. destruct (decide (p = path)) as [->|Hne].
    + assert (path ∉ map_leaves path m) as H1.
      { intros H%map_leaves_inside; [|done]. by apply inside_under in H as [_ ?]. }
      assert (path ∉ map_leaves path n) as H2.
      { intros H%map_leaves_inside; [|done]. by apply inside_under in H as [_ ?]. }
      rewrite Hmf by by intros [_ ?]%inside_under. rewrite (Ha path) by apply under_refl.
      split; intros (v & [= <-] & Hv); rewrite leaves_map in Hv by done; done.
    + rewrite (Hma p) by by apply under_inside. split; [|intros (v & [= <-] & Hv)]; rewrite ?leaves_map in * by done; [|done].
      intros Hpm. exists (YMap m). by rewrite leaves_map.
  - intros Hu. apply Hmf. intros [? _]%inside_under; congruence.
  - apply Hmn.
Qed.

Lemma merge_map_not_nil n o : n ≠ [] → merge_map n o ≠ [].
Proof.
  unfold merge_map. revert n. induction o as [|kv o IH]; intros n Hn; cbn; [done|]. apply IH.
  destruct n as [|[k v] n]; [done|]. cbn. by destruct (k ==s kv.1).
Qed.

(** The loop, from the entries. *)
Lemma applyMap_merged source prefix o : ∀ n s,
  Forall (λ kv, ∀ path d s, path ≠ "" → plain_value kv.2 → (∀ w, aget d kv.1 = Some w → plain_value w) →
                compatible kv.2 (aget d kv.1) → attributed path (aget d kv.1) s →
                merged path kv.2 (deep_merge kv.2 (aget d kv.1)) source s
                  (applyEntry kv.2 kv.1 path source d s).2) o →
  plain_map n → plain_map o → compatible_map o n → attributed_map prefix n s →
  merged_maps prefix o (merge_map n o) source s (applyMap n o prefix s source).2.
Proof.
  induction o as [|[k v] o IH]; intros n s Hall Hn Ho Hc Ha.
  { cbn. split; [done|done|by intros p ?%not_elem_of_nil|by left]. }
  rewrite applyMap_cons. cbv zeta. rewrite applyEntry_value. cbn [fst snd].
  apply Forall_cons in Hall as [Hkv Hall]. cbn [fst snd] in Hkv.
  pose proof Ho as [Hnd Hov]. apply NoDup_cons in Hnd as [Hk Hnd].
  assert (aget ((k, v) :: o) k = Some v) as Hgk by (cbn; by rewrite String.eqb_refl).
  pose proof (Hov k v Hgk) as [Hpk Hpv].
  assert (∀ k' v', aget o k' = Some v' → k ≠ k' ∧ aget ((k, v) :: o) k' = Some v') as Hrest.
  { intros k' v' Hg. assert (k ≠ k') as Hne by (intros ->; destruct Hk; apply aget_is_Some; eauto).
    split; [done|]. cbn. by apply String.eqb_neq in Hne as ->. }
  assert (plain_map o) as Ho' by (split; [done|]; intros k' v' [_ Hg]%Hrest; by apply (Hov k')).
  destruct (Hkv (child_path prefix k) n s) as [Hm1 Hm2 Hm3 Hm4];
    [by apply child_path_nonempty|done|intros w Hw; by apply (proj2 Hn k w)|by apply Hc|by apply attributed_entry|].
  set (d1 := aset n k (deep_merge v (aget n k))). set (s1 := (applyEntry _ _ _ _ _ _).2) in *.
  assert (plain_map d1) as Hd1.
  { split; [by apply aset_NoDup, Hn|]. intros k' w. unfold d1. rewrite aget_set.
    destruct (String.eqb_spec k k') as [->|]; [|apply Hn]. intros [= <-]. split; [done|].
    apply deep_merge_plain; [done|]. intros w Hw. by apply (proj2 Hn k' w). }
  destruct (IH d1 s1) as [H1 H2 H3 H4]; [done..| |by eapply attributed_set; eauto|].
  { intros k' v' [Hne Hg]%Hrest. unfold d1. rewrite aget_set_ne by done. by apply (Hc k'). }
  assert (∀ p, p ∈ map_leaves prefix ((k, v) :: o) ↔ p ∈ leaves v (child_path prefix k) ∨ p ∈ map_leaves prefix o) as Hcons
    by (intros p; apply elem_of_app).
  split; [exact H1|intros p..].
  - intros Hp. rewrite H2 by done. apply Hm2. destruct (under _ p) eqn:E; [|done]. by destruct Hp; eapply under_child_inside.
  - rewrite Hcons. intros [Hp|Hp]; [|by apply H3].
    destruct (decide (p ∈ map_leaves prefix o)) as [Hin|Hout]; [by apply H3|].
    destruct (H4 p Hout) as [->|HN]; [by apply Hm3|]. exfalso.
    assert (p ∈ map_leaves prefix (merge_map d1 o)) as Hleaf.
    { apply elem_of_map_leaves; [by apply merge_map_NoDup, Hd1|]. 
      exists k, (deep_merge v (aget n k)). split.
      - rewrite aget_merge_map by done. rewrite (proj2 (aget_None o k) Hk). apply aget_set_eq.
      - destruct (proj1 (Hm1 p (leaves_under _ _ _ Hp))) as (w & [= <-] & Hw); [|done]. rewrite Hm3; eauto. }
    apply (H1 p) in Hleaf; [|by eapply map_leaves_inside; [|exact Hleaf]; apply merge_map_NoDup, Hd1].
    rewrite HN in Hleaf. by destruct Hleaf.
  - rewrite Hcons. intros Hp. destruct (H4 p) as [->|]; [tauto|apply Hm4; tauto|by right].
Qed.

Lemma applyEntry_merged source v : ∀ key path d s,
  path ≠ "" → plain_value v → (∀ w, aget d key = Some w → plain_value w) →
  compatible v (aget d key) → attributed path (aget d key) s →
  merged path v (deep_merge v (aget d key)) source s (applyEntry v key path source d s).2.
Proof.
  induction v as [o IH|items IH|v Hm Hl] using yvalue_rect_nested; intros key path d s Hp Hv Hd Hc Ha.
  2: { rewrite applyEntry_replace by done. apply merged_replace. }
  2: { assert (both_maps v (aget d key) = false) by (destruct v; try done; by edestruct Hm).
       rewrite applyEntry_replace, deep_merge_replace by done. apply merged_replace. }
  destruct (both_maps (YMap o) (aget d key)) eqn:E;
    [|rewrite applyEntry_replace, deep_merge_replace by done; apply merged_replace].
  apply both_maps_inv in E as (o' & n & [= <-] & Hg). rewrite (applyEntry_map _ _ _ _ _ _ _ Hg).
  rewrite Hg in *. rewrite deep_merge_map. cbv zeta. cbn [snd].
  apply plain_value_map in Hv. pose proof (Hd _ eq_refl) as Hn. apply plain_value_map in Hn.
  apply compatible_map_intro in Hc as [Hnil Hc]; [|apply Hv].
  destruct o as [|kv o].
  - cbn. rewrite (proj1 Hnil eq_refl). apply (merged_replace (YMap [])).
  - assert (n ≠ []) as Hne by (intros ->; discriminate (proj2 Hnil eq_refl)).
    assert (attributed_map path n s) as Han.
    { intros p Hin. apply inside_under in Hin as [Hu Hpp]; [|done]. rewrite (Ha p Hu). split.
      - intros (w & [= <-] & Hw). by rewrite leaves_map in Hw.
      - intros Hw. exists (YMap n). by rewrite leaves_map. }
    apply (merged_nested _ _ n); try done; [by apply merge_map_not_nil|apply Hv|apply Hn|by apply merge_map_NoDup, Hn|].
    apply applyMap_merged; try done. eapply Forall_impl; [exact IH|]. intros kv' H path' d' s' ?????. by apply H.
Qed.

(** ** Layers *)

Definition compatible_over (o n : ymap) : Prop := foldr (λ kv P, compatible kv.2 (aget n kv.1) ∧ P) True o.

Lemma compatible_over_map o n : compatible_over o n → compatible_map o n.
Proof.
  intros H k v Hg%aget_Some_elem. unfold compatible_over in H. induction o as [|[k' w] o IH]; [by apply not_elem_of_nil in Hg|].
  destruct H as [H1 H2]. apply elem_of_cons in Hg as [[= -> ->]|Hg]; [done|by apply IH].
Qed.

(** Layers that can be merged over [m] one after the other. *)
Fixpoint layers_ok (m : ymap) (layers : list resolutionLayer) : Prop :=
  match layers with
  | [] => True
  | l :: rest => plain_value (YMap (layerValues l)) ∧ compatible_over (layerValues l) m ∧
                 layers_ok (merge_map m (layerValues l)) rest
  end.

(** The last layer that has a leaf at [p]. *)
Definition winner (layers : list resolutionLayer) (w : option Source) (p : string) : option Source :=
  foldl (λ w l, if bool_decide (p ∈ map_leaves "" (layerValues l)) then Some (layerSource l) else w) w layers.

Lemma winner_none layers w p :
  winner layers w p = match winner layers None p with Some x => Some x | None => w end.
Proof.
  unfold winner. revert w. induction layers as [|l layers IH]; intros w; cbn; [done|].
  case_bool_decide; [|apply IH]. rewrite (IH (Some (layerSource l))). by destruct (foldl _ None layers).
Qed.

Lemma applyLayers_merged layers : ∀ m s,
  plain_map m → attributed_map "" m s → layers_ok m layers →
  let r := foldl applyLayer (m, s) layers in
  plain_map r.1 ∧ attributed_map "" r.1 r.2 ∧
  ∀ p, p ∈ map_leaves "" r.1 → r.2 !! p = winner layers (s !! p) p.
Proof.
  induction layers as [|l layers IH]; intros m s Hm Ha Hok; [done|].
  destruct Hok as (Hp & Hc & Hok). apply plain_value_map in Hp. apply compatible_over_map in Hc.
  assert (merged_maps "" (layerValues l) (merge_map m (layerValues l)) (layerSource l) s
            (applyLayer (m, s) l).2) as Hmerge.
  { apply applyMap_merged; [|done..]. apply Forall_forall. intros kv _ path d s' ?????. by apply applyEntry_merged. }
  assert (applyLayer (m, s) l = (merge_map m (layerValues l), (applyLayer (m, s) l).2)) as Heq.
  { rewrite <- (applyMap_value m (layerValues l) "" s (layerSource l)). apply surjective_pairing. }
  cbn [foldl]. rewrite Heq. destruct Hmerge as [H1 _ H3 H4].
  destruct (IH (merge_map m (layerValues l)) (applyLayer (m, s) l).2) as (Hr1 & Hr2 & Hr3);
    [by apply merge_map_plain|done..|].
  split; [done|]. split; [done|]. intros p Hleaf. rewrite (Hr3 p Hleaf).
  change (winner (l :: layers) (s !! p) p)
    with (winner layers (if bool_decide (p ∈ map_leaves "" (layerValues l)) then Some (layerSource l) else s !! p) p).
  case_bool_decide as Hl.
  - by rewrite H3.
  - destruct (H4 p Hl) as [->|HN]; [done|]. rewrite HN.
    rewrite (winner_none _ (s !! p)). destruct (winner layers None p) eqn:E; [done|].
    exfalso. apply (Hr2 p) in Hleaf; [|by left]. rewrite (Hr3 p) in Hleaf by (apply (Hr2 p); [by left|done]).
    rewrite HN, E in Hleaf. by destruct Hleaf.
Qed.

Lemma plain_map_empty : plain_map [].
Proof. split; [constructor|done]. Qed.

Lemma attributed_map_empty : attributed_map "" [] ∅.
Proof. intros p _. cbn. rewrite lookup_empty, is_Some_alt. split; [done|by intros ?%not_elem_of_nil]. Qed.


(** A file, a context that extends [default] and an operation's flag. *)
Definition sample_file : resolutionLayer :=
  mkLayer [("scope", YString "pg"); ("ctl", YMap [("insecure", YBool false); ("cacert", YString "ca")])]
    (mkSource (Some LayerFile) "patronictl.yaml").

Definition sample_context : resolutionLayer :=
  mkLayer [("ctl", YMap [("insecure", YBool true)]); ("tags", YMap [])] (mkSource (Some LayerContext) "prod").


(** Outside these conditions the attribution fails: an empty mapping in a later
    layer takes the sources of leaves that stay away, and a mapping over an
    empty one leaves a source without a leaf. *)
Example empty_overlay_hides_sources :
  let r := merge_layers [sample_file; mkLayer [("ctl", YMap [])] (mkSource (Some LayerContext) "prod")] in
  "ctl.insecure" ∈ map_leaves "" r.1 ∧ r.2 !! "ctl.insecure" = None ∧
  r.2 !! "ctl" = Some (mkSource (Some LayerContext) "prod").
Proof. split; [|by vm_compute]. vm_compute. set_solver. Qed.

Example overlay_on_empty_leaves_source :
  let file := mkLayer [("ctl", YMap [])] (mkSource (Some LayerFile) "f") in
  let r := merge_layers [file; sample_context] in
  map_leaves "" r.1 = ["namespace"; "ctl.insecure"; "tags"] ∧ r.2 !! "ctl" = Some (mkSource (Some LayerFile) "f").
Proof. by vm_compute. Qed.

(** ** The inheritance of contexts *)

Section inheritance.
  Context (d : Document).

Definition file_layer : resolutionLayer := mkLayer (root d) (mkSource (Some LayerFile) (docSourceName d)).

Definition own_layer (name : string) (m : ymap) : resolutionLayer :=
  mkLayer (adel m "extends") (mkSource (Some LayerContext) name).

(** The layers of a context, by its [extends]: a context that extends nothing
    stands alone, and only [default] brings in the file. *)
Inductive inherits : string → list resolutionLayer → Prop :=
| inherits_file : aget (contexts d) "default" = None → inherits "default" [file_layer]
| inherits_default m :
    aget (contexts d) "default" = Some m → aget_set_value m "extends" = None →
    inherits "default" [file_layer; own_layer "default" m]
| inherits_alone name m :
    name ≠ "default" → aget (contexts d) name = Some m → aget_set_value m "extends" = None →
    inherits name [own_layer name m]
| inherits_parent name m parent layers :
    name ≠ "default" → aget (contexts d) name = Some m → aget_set_value m "extends" = Some (YString parent) →
    TrimSpace parent ≠ "" → inherits (TrimSpace parent) layers →
    inherits name (layers ++ [own_layer name m]).

Lemma inherits_functional name l : inherits name l → ∀ l', inherits name l' → l = l'.
Proof.
  induction 1 as [H|m H He|name m Hn H He|name m parent layers Hn H He Hp Hi IH]; intros l' Hl'.
  1-3: inversion Hl'; subst; congruence.
  inversion Hl' as [| | |name' m' parent' layers' Hn' H' He' Hp' Hi']; subst; try congruence.
  assert (m = m') as <- by congruence. assert (parent = parent') as <- by congruence.
  by rewrite (IH _ Hi').
Qed.

Lemma withoutExtends_eq m : withoutExtends m = adel m "extends".
Proof. unfold withoutExtends. by rewrite cloneMap_id. Qed.

Lemma contextLayers_sound fuel : ∀ name stack l,
  contextLayers fuel d name stack = Some (COk l) → inherits name l.
Proof.
  induction fuel as [|fuel IH]; intros name stack l; [done|]. cbn [contextLayers]. cbv zeta.
  case_bool_decide; [done|]. rewrite !cloneMap_id, ?withoutExtends_eq.
  destruct (String.eqb_spec name "default") as [->|Hn].
  - destruct (aget (contexts d) "default") as [m|] eqn:E; [|intros [= <-]; by apply inherits_file].
    destruct (aget_set_value m "extends") eqn:Ee; [done|]. rewrite withoutExtends_eq. intros [= <-].
    by apply inherits_default.
  - destruct (aget (contexts d) name) as [m|] eqn:E; [|done]. rewrite withoutExtends_eq.
    destruct (aget_set_value m "extends") as [v|] eqn:Ee; [|intros [= <-]; by apply inherits_alone].
    destruct v; try done. destruct (String.eqb_spec (TrimSpace s) ""); [done|].
    destruct (contextLayers fuel d (TrimSpace s) (stack ++ [name])) as [[layers|]|] eqn:Er; try done.
    intros [= <-]. eapply inherits_parent; eauto.
Qed.

(** Along the chain the layers get fewer, so a context that has layers is not
    reached twice. *)
Lemma contextLayers_complete fuel : ∀ name stack l r,
  inherits name l → (∀ x, x ∈ stack → ∃ lx, inherits x lx ∧ (length l < length lx)%nat) →
  contextLayers fuel d name stack = Some r → r = COk l.
Proof.
  induction fuel as [|fuel IH]; intros name stack l r Hi Hs; [done|]. cbn [contextLayers]. cbv zeta.
  rewrite bool_decide_eq_false_2.
  2: { intros (lx & Hx & Hlt)%Hs. rewrite (inherits_functional _ _ Hi _ Hx) in Hlt. lia. }
  rewrite !cloneMap_id.
  inversion Hi as [H|m H He|name' m Hn H He|name' m parent layers Hn H He Hp Hl]; subst.
  - cbn. rewrite H. by intros [= <-].
  - cbn. rewrite H, He, withoutExtends_eq. by intros [= <-].
  - apply String.eqb_neq in Hn as ->. rewrite H, He, withoutExtends_eq. by intros [= <-].
  - apply String.eqb_neq in Hn as ->. rewrite H, He, withoutExtends_eq. apply String.eqb_neq in Hp as ->.
    destruct (contextLayers _ _ _ _) as [r'|] eqn:Er; [|done].
    assert (r' = COk layers) as ->; [|by intros [= <-]].
    eapply IH; [exact Hl| |exact Er]. intros x [Hx| ->%list_elem_of_singleton]%elem_of_app.
    + destruct (Hs x Hx) as (lx & ? & Hlt). exists lx. rewrite length_app in Hlt. cbn in Hlt. split; [done|lia].
    + eexists. split; [exact Hi|]. rewrite length_app. cbn. lia.
Qed.

(** Each call adds a context of the document to the stack, and none twice. *)
Lemma contextLayers_some fuel : ∀ name stack,
  NoDup stack → (∀ x, x ∈ stack → x ∈ (contexts d).*1) → (length (contexts d) < fuel + length stack)%nat →
  is_Some (contextLayers fuel d name stack).
Proof.
  assert (∀ stack, NoDup stack → (∀ x, x ∈ stack → x ∈ (contexts d).*1) → (length stack ≤ length (contexts d))%nat) as Hbound.
  { intros stack Hnd Hs. rewrite <- (length_fmap fst (contexts d)).
    apply NoDup_submseteq, submseteq_length in Hs; done. }
  induction fuel as [|fuel IH]; intros name stack Hnd Hs Hlt; [pose proof (Hbound _ Hnd Hs); cbn in Hlt; lia|].
  cbn [contextLayers]. cbv zeta. case_bool_decide as Hin; [eauto|].
  destruct (name ==s "default").
  { destruct (aget _ _) as [m|]; [|eauto]. destruct (aget_set_value _ _); eauto. }
  destruct (aget (contexts d) name) as [m|] eqn:E; [|eauto].
  destruct (aget_set_value m "extends") as [[]|]; try by eauto. case_match; [eauto|].
  destruct (IH (TrimSpace s) (stack ++ [name])) as [[] ->]; [..|eauto|eauto].
  - apply NoDup_app. split; [done|]. split; [set_solver|apply NoDup_singleton].
  - intros x [Hx| ->%list_elem_of_singleton]%elem_of_app; [by apply Hs|]. apply aget_is_Some. eauto.
  - rewrite length_app. cbn. lia.
Qed.

End inheritance.

(** C16: resolving a context always ends, and yields layers exactly when its
    chain of [extends] reaches, without a cycle, a context that extends nothing;
    the layers are then those of the chain, ancestors first. *)
Theorem contextLayers_inherits d name :
  ∃ r, contextLayers (contexts_fuel d) d name [] = Some r ∧ ∀ layers, r = COk layers ↔ inherits d name layers.
Proof.
  destruct (contextLayers_some d (contexts_fuel d) name []) as [r Hr];
    [constructor|by intros x ?%not_elem_of_nil|unfold contexts_fuel; cbn; lia|].
  exists r. split; [done|]. intros layers. split.
  - intros ->. by eapply contextLayers_sound.
  - intros Hi. eapply contextLayers_complete; [done| |done]. by intros x ?%not_elem_of_nil.
Qed.
