(* ===== verification/ResolveLaws.v ===== *)
(** * What a resolved configuration promises

    Endpoints are addresses with a port in range; an explicit DCS locator
    replaces the DCS section of the file with everything in it; timeouts are
    positive; redaction hides every value under a secret-shaped key of a mapping
    with text keys. *)

From S2P Require Secret SecretLaws.
From S2P Require Import Prelude GoStrings GoErrors Values Assoc Config ConfigProject ConfigLaws.

(** ** Addresses *)

Lemma has_lacks c s : has c s = false ↔ lacks c s.
Proof. done. Qed.

(** A text with neither bracket. *)
Definition unbracketed (s : string) : Prop := lacks "[" s ∧ lacks "]" s.

Lemma unbracketed_app s t : unbracketed (s +:+ t) ↔ unbracketed s ∧ unbracketed t.
Proof. unfold unbracketed. rewrite !lacks_app. tauto. Qed.

Lemma SplitHostPort_plain s : unbracketed s →
  SplitHostPort s = match CutLast ":" s with
                    | Some (host, port) => if has ":" host then None else Some (host, port)
                    | None => None
                    end.
Proof.
  intros [H1 H2]. unfold SplitHostPort.
  assert (∀ r, s ≠ String "[" r) as Hne by (intros r ->; by apply lacks_cons in H1 as [? _]).
  assert (has "[" s = false) as E1 by done. assert (has "]" s = false) as E2 by done.
  destruct s as [|[[] [] [] [] [] [] [] []] r]; try by destruct (Hne r).
  all: rewrite ?E1, ?E2; destruct (CutLast _ _) as [[? ?]|]; [|done]; by rewrite !orb_false_r.
Qed.

Lemma SplitHostPort_joined host port :
  lacks ":" host → unbracketed host → lacks ":" port → unbracketed port →
  SplitHostPort (host +:+ String ":" port) = Some (host, port).
Proof.
  intros Hh Hhb Hp Hpb. rewrite SplitHostPort_plain.
  - rewrite CutLast_app by done. by rewrite (proj2 (has_lacks _ _) Hh).
  - apply unbracketed_app. split; [done|]. split; apply lacks_cons; by split; [|apply Hpb].
Qed.

Lemma SplitHostPort_bracketed host port :
  unbracketed host → lacks ":" port → unbracketed port →
  SplitHostPort ("[" +:+ host +:+ "]:" +:+ port) = Some (host, port).
Proof.
  intros [H1 H2] Hp [H3 H4].
  change ("[" +:+ host +:+ "]:" +:+ port) with (String "[" (host +:+ String "]" (String ":" port))).
  cbn. rewrite Cut_app by done.
  assert (has "[" (host +:+ String "]" (String ":" port)) = false) as ->.
  { apply has_lacks, lacks_app. split; [done|]. by repeat (apply lacks_cons; split; [done|]). }
  by rewrite (proj2 (has_lacks _ _) Hp), (proj2 (has_lacks _ _) H4).
Qed.

(** A host and a port between 1 and 65535. *)
Definition is_address (s : string) : Prop :=
  ∃ host port n, SplitHostPort s = Some (host, port) ∧ host ≠ "" ∧ ParseInt port = Some n ∧ (1 <= n <= 65535)%Z.

Lemma is_address_fixed s : is_address s → normalize_host s = Some s.
Proof.
  intros (host & port & n & Hs & Hh & Hp & Hn). unfold normalize_host. rewrite Hs.
  apply String.eqb_neq in Hh as ->. destruct (String.eqb_spec port "") as [->|]; [done|]. cbn [orb].
  unfold validatePort. rewrite Hp.
  rewrite (proj2 (Z.ltb_ge n 1)), (proj2 (Z.ltb_ge 65535 n)) by lia. done.
Qed.

Lemma Trim_lacks cut s : has_char cut s = false → Trim cut s = s.
Proof.
  intros H. unfold Trim. assert (∀ t, has_char cut t = false → TrimLeft cut t = t) as Hl.
  { intros [|c t] Ht; [done|]. apply orb_false_iff in Ht as [Hc _]. cbn. by rewrite Hc. }
  rewrite (Hl s H). unfold TrimRight. rewrite Hl by by rewrite rev_has_char. apply rev_involutive.
Qed.

Lemma unbracketed_spec s : has_char bracket s = false ↔ unbracketed s.
Proof.
  unfold unbracketed. induction s as [|c s IH]; [split; [split; apply lacks_empty|done]|].
  change (has_char bracket (String c s)) with (bracket c || has_char bracket s)%bool.
  rewrite orb_false_iff, IH, !lacks_cons. unfold bracket. rewrite orb_false_iff, !Ascii.eqb_neq.
  split; naive_solver.
Qed.

Lemma CountByte_lacks c s : CountByte c s = 0 → lacks c s.
Proof.
  unfold CountByte. induction s as [|d s IH]; [intros; apply lacks_empty|].
  change (String.list_ascii_of_string (String d s)) with (d :: String.list_ascii_of_string s).
  rewrite filter_cons. destruct (decide (Ascii.eqb d c = true)) as [E|E]; [done|].
  intros H. apply lacks_cons. split; [|by apply IH]. intros ->. by rewrite Ascii.eqb_refl in E.
Qed.

Lemma normalize_host_address endpoint r :
  endpoint ≠ "" → unbracketed endpoint → normalize_host endpoint = Some r → is_address r.
Proof.
  intros Hne Hb. unfold normalize_host.
  assert (∀ port, validatePort port = true → ∃ n, ParseInt port = Some n ∧ (1 <= n <= 65535)%Z) as Hport.
  { intros port. unfold validatePort. destruct (ParseInt port) as [n|]; [|done]. intros ?. go_bool. exists n. split; [done|lia]. }
  destruct (SplitHostPort endpoint) as [[host port]|] eqn:Es.
  - destruct (_ || _)%bool eqn:E; [done|]. destruct (validatePort port) eqn:Ev; [|done]. cbn [negb]. intros [= <-].
    destruct (Hport _ Ev) as (n & Hn & Hr). go_bool. by exists host, port, n.
  - assert (ParseInt "2379" = Some 2379%Z) as Hd by reflexivity.
    destruct (1 <? CountByte ":" endpoint)%nat eqn:Ec.
    + rewrite Trim_lacks by by apply unbracketed_spec. intros [= <-]. unfold JoinHostPort.
      destruct (has ":" endpoint) eqn:Eh.
      * exists endpoint, "2379", 2379%Z. rewrite SplitHostPort_bracketed by done. split; [done|]. split; [done|]. split; [done|lia].
      * exists endpoint, "2379", 2379%Z. change (endpoint +:+ ":" +:+ "2379") with (endpoint +:+ String ":" "2379").
        rewrite SplitHostPort_joined by done. split; [done|]. split; [done|]. split; [done|lia].
    + destruct (has ":" endpoint) eqn:Eh.
      * rewrite SplitHostPort_plain in Es by done.
        destruct (CutLast ":" endpoint) as [[a b]|] eqn:El; [|apply CutLast_None in El; apply has_lacks in El; congruence].
        apply CutLast_Some in El as [-> Hl]. destruct (has ":" a) eqn:Ea; [|done].
        exfalso. apply Nat.ltb_ge in Ec. revert Ec Ea. clear. unfold CountByte. rewrite bytes_app, filter_app, length_app.
        intros Ec Ea. assert (CountByte ":" a ≠ 0) as H0 by (intros H0%CountByte_lacks; apply has_lacks in H0; congruence).
        unfold CountByte in H0. cbn [String.list_ascii_of_string] in Ec. rewrite filter_cons_True in Ec by done. cbn in Ec. lia.
      * intros [= <-]. exists endpoint, "2379", 2379%Z.
        change (endpoint +:+ ":2379") with (endpoint +:+ String ":" "2379").
        rewrite SplitHostPort_joined by done. split; [done|]. split; [done|]. split; [done|lia].
Qed.

Section with_std.
  Context `{GoStd}.

(** An endpoint given as [host], [host:port] or a bare IPv6 address. *)
Definition bare (endpoint : string) : Prop :=
  Contains (TrimSpace endpoint) "://" = false ∧ unbracketed (TrimSpace endpoint).

Lemma normalize_all_addresses raw : ∀ endpoints,
  Forall bare raw → normalize_all raw = Some endpoints → Forall is_address endpoints.
Proof.
  induction raw as [|e raw IH]; intros endpoints Hall; cbn; [by intros [= <-]|].
  apply Forall_cons in Hall as [[Hc Hb] Hall]. destruct (String.eqb_spec (TrimSpace e) "") as [He|He]; [by apply IH|].
  unfold normalizeEndpoint. rewrite Hc. destruct (normalize_host (TrimSpace e)) as [r|] eqn:Er; [|done].
  destruct (normalize_all raw) as [es|]; [|done]. cbn. intros [= <-]. constructor; [|by apply IH].
  by eapply normalize_host_address.
Qed.

(** C29: every endpoint of a host list given as host, host:port or IPv6 address
    is normalized to an address: it splits into a host that is not empty and a
    port between 1 and 65535, and normalizing it again changes nothing. *)
Theorem endpointList_addresses v raw endpoints :
  raw_endpoints v = Some raw → Forall bare raw → endpointList v = Some endpoints →
  Forall (λ e, is_address e ∧ normalize_host e = Some e) endpoints.
Proof.
  unfold endpointList. intros -> Hall Hn. eapply Forall_impl; [by eapply normalize_all_addresses|].
  intros e He. split; [done|by apply is_address_fixed].
Qed.

(** ** Timeouts *)

Definition positive_network (n : NetworkConfig) : Prop :=
  Forall (λ d, (0 < d)%Z) [DNSLookupTimeout n; DCSDialTimeout n; DCSRequestTimeout n; PatroniTimeout n;
                          PostgresTimeout n; PostgresCloseTimeout n].

Lemma cres_bind_COk {A B} (x : cres A) (f : A → cres B) b :
  x ≫= f = COk b → ∃ a, x = COk a ∧ f a = COk b.
Proof. destruct x; [eauto|done]. Qed.

Lemma network_duration_positive d m key current t :
  (0 < current)%Z → network_duration d m key current = COk t →
  (0 < t)%Z ∧ (aget_set_value m key = None → t = current).
Proof.
  intros Hc. unfold network_duration. destruct (aget_set_value m key) as [[]|]; try done; [|by intros [= <-]].
  case_match; [done|]. destruct (ParseDuration _) as [z|]; [|done]. destruct (z <=? 0)%Z eqn:E; [done|].
  intros [= <-]. go_bool. by split.
Qed.

Lemma NetworkConfig_positive d n : Document_NetworkConfig (Some d) = COk n → positive_network n.
Proof.
  unfold Document_NetworkConfig, positive_network. destruct (network d); try done.
  { intros [= <-]. by repeat constructor. }
  intros Hn. repeat (apply cres_bind_COk in Hn as (? & ?%network_duration_positive & Hn); [|done]).
  injection Hn as <-. cbn. repeat constructor; tauto.
Qed.

(** ** An explicit locator *)

Lemma aget_cons_ne {A} (m : list (string * A)) k k' v : k ≠ k' → aget ((k, v) :: m) k' = aget m k'.
Proof. intros Hne%String.eqb_neq. cbn. by rewrite Hne. Qed.

Lemma deleteTopLevel_get ds key k : aget (deleteTopLevel ds key).1 k = if key ==s k then None else aget ds.1 k.
Proof. apply aget_del. Qed.

Lemma deleteTopLevels_get keys : ∀ ds k,
  aget (foldl deleteTopLevel ds keys).1 k = if existsb (λ key, key ==s k) keys then None else aget ds.1 k.
Proof.
  induction keys as [|key keys IH]; intros ds k; [done|]. cbn [foldl existsb]. rewrite IH, deleteTopLevel_get.
  destruct (key ==s k); [by destruct (existsb _ _)|done].
Qed.

Lemma replaceTopLevel_get ds key v source k :
  aget (replaceTopLevel ds key v source).1 k = if key ==s k then Some v else aget ds.1 k.
Proof. unfold replaceTopLevel. cbn [fst]. by rewrite cloneValue_id, aget_set. Qed.

Definition etcd_section (parsed : URL) : yvalue :=
  YMap [("host", YString (dcs_endpoint parsed)); ("protocol", YString "http")].

(** [applyDCSURL] leaves one DCS section, with a host and nothing else. *)
Lemma applyDCSURL_sections ds v source w ds' :
  applyDCSURL ds v source = COk (w, ds') →
  ∃ parsed, url_Parse (if negb (Contains (TrimSpace v) "://") then "etcd3://" +:+ TrimSpace v else TrimSpace v) = Some parsed ∧
    urlHasUser parsed = false ∧ URL_Hostname parsed ≠ "" ∧
    aget ds'.1 "etcd3" = Some (etcd_section parsed) ∧
    (∀ section, section ∈ patroniDCSSections → section ≠ "etcd3" → aget ds'.1 section = None) ∧
    (∀ k, k ∉ patroniDCSSections → k ≠ "namespace" → aget ds'.1 k = aget ds.1 k).
Proof.
  unfold applyDCSURL. cbv zeta. destruct (TrimSpace v ==s ""); [done|].
  destruct (url_Parse _) as [parsed|]; [|done]. destruct (_ !=s "etcd3"); [done|].
  destruct (urlHasUser parsed) eqn:Eu; [done|]. destruct (String.eqb_spec (URL_Hostname parsed) "") as [|Eh]; [done|].
  intros [= _ <-]. exists parsed. do 3 (split; [done|]).
  fold (etcd_section parsed).
  set (ds1 := replaceTopLevel (foldl deleteTopLevel ds patroniDCSSections) "etcd3" (etcd_section parsed) source).
  assert (∀ k, k ≠ "namespace" →
    aget (if Trim slash (urlPath parsed) !=s "" then replaceTopLevel ds1 "namespace" (YString (Trim slash (urlPath parsed))) source else ds1).1 k
      = if "etcd3" ==s k then Some (etcd_section parsed)
        else if existsb (λ key, key ==s k) patroniDCSSections then None else aget ds.1 k) as Hget.
  { intros k Hk. assert (aget ds1.1 k = if "etcd3" ==s k then Some (etcd_section parsed)
        else if existsb (λ key, key ==s k) patroniDCSSections then None else aget ds.1 k) as H1
      by (unfold ds1; by rewrite replaceTopLevel_get, deleteTopLevels_get).
    destruct (_ !=s ""); [|done]. rewrite replaceTopLevel_get.
    destruct (String.eqb_spec "namespace" k) as [<-|]; done. }
  assert (∀ k, k ∈ patroniDCSSections → k ≠ "namespace") as Hns by (intros k Hk ->; unfold patroniDCSSections in Hk; set_solver).
  split; [by rewrite Hget|]. split.
  - intros k Hk Hne. rewrite Hget by by apply Hns. rewrite (proj2 (String.eqb_neq _ _)) by congruence.
    assert (existsb (λ key, key ==s k) patroniDCSSections = true) as ->; [|done].
    apply existsb_exists. exists k. split; [by apply list_elem_of_In|apply String.eqb_refl].
  - intros k Hk Hne. rewrite Hget by done. destruct (String.eqb_spec "etcd3" k) as [<-|_].
    { destruct Hk. unfold patroniDCSSections. set_solver. }
    assert (existsb (λ key, key ==s k) patroniDCSSections = false) as ->; [|done].
    apply not_true_is_false. intros (x & Hx & ->%String.eqb_eq)%existsb_exists. by apply Hk, list_elem_of_In.
Qed.

Lemma applyLayer_get m s l k : aget (layerValues l) k = None → NoDup (layerValues l).*1 →
  aget (applyLayer (m, s) l).1 k = aget m k.
Proof. intros Hk Hnd. unfold applyLayer. cbn [fst snd]. by rewrite applyMap_value, aget_merge_map, Hk. Qed.

(** The other flags leave the DCS sections alone. *)
Lemma apply_flags_get o ds k :
  k ∉ ["namespace"; "scope"; "citus"; "ctl"] → aget (apply_flags o ds).1 k = aget ds.1 k.
Proof.
  intros Hk. assert ("namespace" ≠ k ∧ "scope" ≠ k ∧ "citus" ≠ k ∧ "ctl" ≠ k) as (H1 & H2 & H3 & H4) by set_solver.
  unfold apply_flags. cbv zeta.
  assert (∀ ds name v source, name ≠ k → aget (replaceTopLevel ds name v source).1 k = aget ds.1 k) as Hr
    by (intros ???? Hne%String.eqb_neq; by rewrite replaceTopLevel_get, Hne).
  assert (∀ ds name v source, name ≠ k → aget (applyLayer ds (mkLayer [(name, v)] source)).1 k = aget ds.1 k) as Hl.
  { intros [m s] name v source Hne. apply applyLayer_get; [|apply NoDup_singleton]. cbn. by apply String.eqb_neq in Hne as ->. }
  destruct (ovNamespace o), (ovScope o), (ovGroup o), (ovInsecure o); rewrite ?Hl, ?Hr by done; done.
Qed.

Definition dcs_url_config (endpoints : list string) : Etcd3Config :=
  mkEtcd3 true LocatorHost endpoints "" "" "" "http" no_tls "" (newSecret "").

Lemma project_etcd_section name m s r parsed :
  aget m "etcd3" = Some (etcd_section parsed) → project name m s = COk r →
  ∃ endpoints, endpointList (YString (dcs_endpoint parsed)) = Some endpoints ∧ endpoints ≠ [] ∧
    resEtcd3 r = dcs_url_config endpoints ∧ resEffective r = m.
Proof.
  intros Hg. unfold project.
  intros (namespace & _ & (scope & _ & ([citus c] & _ & (group & _ & ([etcd s'] & He & (rest & _ & Hr)%cres_bind_COk)%cres_bind_COk)%cres_bind_COk)%cres_bind_COk)%cres_bind_COk)%cres_bind_COk.
  injection Hr as <-. cbn [resEtcd3 resEffective]. rewrite cloneMap_id.
  unfold projectEtcd3, optionalMap in He. unfold aget_set_value at 1 in He. rewrite Hg in He.
  cbn -[endpointList] in He. destruct (endpointList _) as [[|e es]|]; try done.
  injection He as <- <-. by exists (e :: es).
Qed.

(** C17: a configuration resolved with [--dcs-url] connects to the endpoints of
    that locator over plain http and to nothing else: no host, certificate or
    credential of the [etcd3] section and no other DCS section of the file or
    of a context is left, and a locator that carries credentials is refused. *)
Theorem Resolve_dcs_url h d request v r :
  ovDCSURL (rqOverrides request) = Some v → Resolve h (Some d) request = Some (COk r) →
  ∃ parsed endpoints,
    url_Parse (if negb (Contains (TrimSpace v) "://") then "etcd3://" +:+ TrimSpace v else TrimSpace v) = Some parsed ∧
    urlHasUser parsed = false ∧ URL_Hostname parsed ≠ "" ∧
    endpointList (YString (dcs_endpoint parsed)) = Some endpoints ∧ endpoints ≠ [] ∧
    resEtcd3 r = dcs_url_config endpoints ∧
    (∀ section, section ∈ patroniDCSSections → section ≠ "etcd3" → aget (resEffective r) section = None) ∧
    Resolved_Validate r OperationDiscover "" = None.
Proof.
  intros Hv. unfold Resolve. destruct (contextLayers _ _ _ _) as [layers|]; [|done]. cbn.
  intros [= (ls & _ & ([ws ds] & Hloc & (res & Hp & (n & _ & Hr)%cres_bind_COk)%cres_bind_COk)%cres_bind_COk)%cres_bind_COk].
  injection Hr as <-.
  unfold apply_locators in Hloc. rewrite Hv in Hloc.
  apply cres_bind_COk in Hloc as ([ws' ds'] & _ & ([w ds''] & Happ & [= _ <-])%cres_bind_COk).
  apply applyDCSURL_sections in Happ as (parsed & Hparse & Hu & Hh & He & Hsec & _).
  assert ("etcd3" ∈ patroniDCSSections) as Hin by (unfold patroniDCSSections; set_solver).
  assert (∀ section, section ∈ patroniDCSSections →
    aget (apply_flags (rqOverrides request) ds'').1 section = aget ds''.1 section) as Hflags.
  { intros section Hs. apply apply_flags_get. unfold patroniDCSSections in Hs. set_solver. }
  eapply project_etcd_section in Hp as (endpoints & Hl & Hne & Hetcd & Heff); [|by rewrite Hflags].
  exists parsed, endpoints. cbn [with_network_warnings resEtcd3 resEffective]. do 6 (split; [done|]). split.
  - intros section Hs Hn. rewrite Heff, Hflags by done. by apply Hsec.
  - unfold Resolved_Validate. cbn. by rewrite Hetcd.
Qed.

(** ** The other fields of a resolved configuration *)

Lemma project_fields name m s r :
  project name m s = COk r →
  resContext r = name ∧ (∃ namespace, resNamespace r = normalizeNamespace namespace) ∧
  TrimSpace (resScope r) = resScope r ∧ (∀ g, resGroup r = Some g → (0 <= g)%Z) ∧
  (∀ c g, aget m "citus" = Some (YMap c) → aget c "group" = Some (YInt g) → resGroup r = Some g).
Proof.
  unfold project.
  intros (namespace & Hns & (scope & Hsc & ([citus isCitus] & Hc & (group & Hg & ([etcd s'] & _ & (rest & _ & Hr)%cres_bind_COk)%cres_bind_COk)%cres_bind_COk)%cres_bind_COk)%cres_bind_COk)%cres_bind_COk.
  injection Hr as <-. cbn. split; [done|]. split; [|split; [|split]].
  - unfold project_namespace in Hns. destruct (aget_set_value m "namespace") as [[]|]; try done;
      injection Hns as <-; [by eexists|]. by exists "service".
  - unfold project_scope in Hsc. destruct (aget_set_value m "scope") as [[]|]; try done;
      injection Hsc as <-; [apply TrimSpace_idem|done].
  - intros g ->. destruct isCitus; [|done]. unfold project_group in Hg. destruct (aget_set_value citus "group"); [|done].
    destruct (integer y) as [n|]; [|done]. destruct (n <? 0)%Z eqn:E; [done|]. injection Hg as <-. go_bool. done.
  - intros c g Hm Hcg. unfold optionalMap, aget_set_value in Hc. rewrite Hm in Hc. injection Hc as <- <-.
    unfold project_group, aget_set_value in Hg. rewrite Hcg in Hg. cbn in Hg. destruct (g <? 0)%Z; [done|]. by injection Hg as <-.
Qed.

Lemma apply_flags_group o ds g :
  ovGroup o = Some g → ∃ c, aget (apply_flags o ds).1 "citus" = Some (YMap c) ∧ aget c "group" = Some (YInt g).
Proof.
  intros Hg. unfold apply_flags. rewrite Hg. cbv zeta.
  assert (∀ ds, ∃ c, aget (applyLayer ds (mkLayer [("citus", YMap [("group", YInt g)])] (flag "--group"))).1 "citus" = Some (YMap c) ∧
                     aget c "group" = Some (YInt g)) as Hc.
  { intros [m s]. unfold applyLayer. cbn [fst snd layerValues]. rewrite applyMap_value, aget_merge_map by apply NoDup_singleton.
    cbn [aget]. rewrite String.eqb_refl. destruct (aget m "citus") as [[]|] eqn:Em;
      try (exists [("group", YInt g)]; split; [done|]; cbn; done).
    rewrite deep_merge_map. eexists. split; [done|]. rewrite aget_merge_map by apply NoDup_singleton. cbn. done. }
  destruct (ovInsecure o); [|apply Hc].
  match goal with |- context [applyLayer (applyLayer ?x ?l) _] =>
    destruct (Hc x) as (c & H1 & H2); exists c; split; [|exact H2]; destruct (applyLayer x l) as [m s] end.
  rewrite applyLayer_get; [exact H1|done|apply NoDup_singleton].
Qed.

(** What [Resolve] gives, whatever the layers. *)
Lemma Resolve_fields h d request r :
  Resolve h (Some d) request = Some (COk r) →
  resContext r = select_context d (environment_of h (rqEnvironment request)) request ∧
  (∃ namespace, resNamespace r = normalizeNamespace namespace) ∧
  TrimSpace (resScope r) = resScope r ∧ (∀ g, resGroup r = Some g → (0 <= g)%Z) ∧
  (∀ g, ovGroup (rqOverrides request) = Some g → resGroup r = Some g) ∧
  positive_network (resNetwork r).
Proof.
  unfold Resolve. destruct (contextLayers _ _ _ _) as [layers|]; [|done]. cbn.
  intros [= (ls & _ & ([ws ds] & _ & (res & Hp & (n & Hn & Hr)%cres_bind_COk)%cres_bind_COk)%cres_bind_COk)%cres_bind_COk].
  injection Hr as <-. apply project_fields in Hp as (H1 & H2 & H3 & H4 & H5).
  split; [exact H1|]. split; [exact H2|]. split; [exact H3|]. split; [exact H4|].
  split; [|exact (NetworkConfig_positive d n Hn)].
  intros g Hg. destruct (apply_flags_group _ ds _ Hg) as (c & Hc & Hcg). by eapply H5.
Qed.

End with_std.

(** ** A resolved sample *)

Definition etcd_parse (raw : string) : option URL :=
  if HasPrefix raw "etcd3://" then Some (mkURL "etcd3" false (TrimPrefix raw "etcd3://") "" "" "" "") else None.

Definition etcd_std : GoStd := {|
  url_Parse := etcd_parse;
  URL_String := λ u, urlScheme u +:+ "://" +:+ urlHost u;
  URL_Hostname := λ u, match Cut ":" (urlHost u) with Some (host, _) => host | None => urlHost u end;
  URL_Port := λ u, match Cut ":" (urlHost u) with Some (_, port) => port | None => "" end;
  ParseFloat := λ _, None;
  ParseDuration := λ _, None;
  Sprint_float := λ _, "";
  url_CutQuery := λ s, Some (s, "");
  Query_Get := λ _ _, "";
  json_float := λ _, None;
  hmac_sha256 := λ _ _, "";
  Sprint_composite := λ _, ""
|}.

Lemma endpointList_addresses_witness :
  @endpointList etcd_std (YString "db1, ::1,db2:2380") = Some ["db1:2379"; "[::1]:2379"; "db2:2380"] ∧
  Forall (λ e, is_address e ∧ normalize_host e = Some e) ["db1:2379"; "[::1]:2379"; "db2:2380"].
Proof.
  split; [by vm_compute|].
  apply (@endpointList_addresses etcd_std (YString "db1, ::1,db2:2380") ["db1"; " ::1"; "db2:2380"]);
    [by vm_compute| |by vm_compute].
  repeat constructor.
Defined.

Definition sample_document : Document :=
  mkDocument [("scope", YString "pg"); ("consul", YMap []);
              ("etcd3", YMap [("hosts", YString "old:2379"); ("username", YString "u"); ("cert", YString "c")])]
    [] YNull "go_patroni" "default" "patronictl.yaml".

Definition sample_host : host := mkHost (λ _, None) (λ _, FileMissing) None (λ _, None).

Definition dcs_url_request : ResolveRequest :=
  mkResolveRequest "" None (mkOverrides None (Some "db:2379") None None None (Some true)).

Lemma Resolve_dcs_url_witness :
  ∃ r, @Resolve etcd_std sample_host (Some sample_document) dcs_url_request = Some (COk r) ∧
       Endpoints (resEtcd3 r) = ["db:2379"] ∧ etcdUsername (resEtcd3 r) = "" ∧ aget (resEffective r) "consul" = None.
Proof.
  destruct (@Resolve etcd_std sample_host (Some sample_document) dcs_url_request) as [[r|e]|] eqn:E;
    [|vm_compute in E; discriminate E..].
  exists r. split; [done|].
  destruct (@Resolve_dcs_url etcd_std sample_host sample_document dcs_url_request "db:2379" r eq_refl E)
    as (parsed & endpoints & Hp & _ & _ & Hl & _ & -> & Hsec & _).
  vm_compute in Hp. injection Hp as <-. vm_compute in Hl. injection Hl as <-.
  split; [done|]. split; [done|]. apply Hsec; [|done]. clear; unfold patroniDCSSections; set_solver.
Defined.

(** ** Redaction *)

(** Nothing but null and the marker under a secret-shaped key. *)
Fixpoint secrets_hidden (v : yvalue) : Prop :=
  match v with
  | YMap fields =>
      foldr (λ kv P, (if isSecretKey kv.1 then kv.2 = YNull ∨ kv.2 = YString Redacted else secrets_hidden kv.2) ∧ P)
        True fields
  | YList items => foldr (λ v P, secrets_hidden v ∧ P) True items
  | _ => True
  end.

Lemma redactValue_hidden v : secrets_hidden (redactValue v).
Proof.
  induction v as [fields IH|items IH|v Hm Hl] using yvalue_rect_nested; cbn.
  - induction IH as [|[k v] fields Hv _ IHf]; cbn in *; [done|]. split; [|done].
    destruct (isSecretKey k); [|done]. destruct v; auto.
  - induction IH; cbn; done.
  - destruct v; try done; [by destruct (Hl items)|by destruct (Hm fields)].
Qed.

Lemma redactValue_fixed v : secrets_hidden v → redactValue v = v.
Proof.
  induction v as [fields IH|items IH|v Hm Hl] using yvalue_rect_nested; intros Hh; cbn.
  - f_equal. cbn in Hh. induction IH as [|[k v] fields Hv _ IHf]; cbn in *; [done|].
    destruct Hh as [H1 H2]. rewrite (IHf H2). do 2 f_equal. destruct (isSecretKey k); [|by apply Hv].
    by destruct H1 as [->| ->].
  - f_equal. cbn in Hh. induction IH as [|v items Hv _ IHf]; cbn in *; [done|].
    destruct Hh as [H1 H2]. by rewrite (Hv H1), (IHf H2).
  - destruct v; try done; [by destruct (Hl items)|by destruct (Hm fields)].
Qed.

(** Where a value sits: the keys and indexes from the root. *)
Inductive step := Key (k : string) | Index (i : nat).

Fixpoint value_at (v : yvalue) (path : list step) : option yvalue :=
  match path, v with
  | [], _ => Some v
  | Key k :: path, YMap fields => v ← aget fields k; value_at v path
  | Index i :: path, YList items => v ← items !! i; value_at v path
  | _, _ => None
  end.

Definition below_secret (path : list step) : bool :=
  existsb (λ s, match s with Key k => isSecretKey k | Index _ => false end) path.

Lemma redactMap_value m : YMap (redactMap m) = redactValue (YMap m).
Proof. done. Qed.

Lemma redactValue_at path : ∀ v,
  below_secret path = false → value_at (redactValue v) path = redactValue <$> value_at v path.
Proof.
  induction path as [|s path IH]; intros v Hs; [done|].
  apply orb_false_iff in Hs as [Hk Hs]. destruct s as [k|i], v; try done.
  - change (redactValue (YMap fields)) with (YMap (redactMap fields)). cbn [value_at].
    change (redactMap fields) with ((λ kv : string * yvalue, (kv.1, redact_entry kv.1 kv.2)) <$> fields).
    rewrite (aget_fmap redact_entry). destruct (aget fields k) as [w|]; [|done]. cbn.
    unfold redact_entry. rewrite Hk. by apply IH.
  - change (redactValue (YList items)) with (YList (redactValue <$> items)). cbn [value_at].
    rewrite list_lookup_fmap. destruct (items !! i) as [w|]; [|done]. cbn. by apply IH.
Qed.

(** A redacted map has only null and the redaction marker under a
    secret-shaped key, at any depth of mappings with text keys and lists; what
    is not below such a key is where it was, with its own contents redacted;
    and redacting again changes nothing. *)
Theorem RedactMap_hides m :
  secrets_hidden (YMap (RedactMap m)) ∧
  (∀ path, below_secret path = false →
     value_at (YMap (RedactMap m)) path = redactValue <$> value_at (YMap m) path) ∧
  RedactMap (RedactMap m) = RedactMap m.
Proof.
  assert (∀ m, YMap (RedactMap m) = redactValue (YMap m)) as Heq
    by (intros m0; unfold RedactMap; by rewrite cloneMap_id).
  split; [rewrite Heq; apply redactValue_hidden|]. split.
  - intros path Hp. rewrite Heq. by apply redactValue_at.
  - assert (YMap (RedactMap (RedactMap m)) = YMap (RedactMap m)) as [= H]; [|done].
    rewrite (Heq (RedactMap m)). apply redactValue_fixed. rewrite Heq. apply redactValue_hidden.
Qed.

(** A mapping with one key that is not text keeps its secrets. *)
Example RedactMap_any_map :
  let m := [("users", YAnyMap [(YInt 1, YString "x"); (YString "password", YString "hunter2")])] in
  RedactMap m = m.
Proof. by vm_compute. Qed.

(** ** The effective configuration *)

(** The texts shown of a value: a mapping with other keys is not entered. *)
Fixpoint texts (v : yvalue) : list string :=
  match v with
  | YString s => [s]
  | YStrings l => l
  | YMap fields => List.concat (List.map (λ kv, texts kv.2) fields)
  | YList items => List.concat (List.map texts items)
  | _ => []
  end.

Lemma redactTextValues_texts known v s : s ∈ texts (redactTextValues known v) → ∃ t, s = Secret.Redact t known.
Proof.
  revert s. induction v as [fields IH|items IH|v Hm Hl] using yvalue_rect_nested; intros s; cbn.
  - induction IH as [|[k v] fields Hv _ IHf]; cbn; [by intros ?%elem_of_nil|]. intros [?|?]%elem_of_app; auto.
  - induction IH as [|v items Hv _ IHf]; cbn; [by intros ?%elem_of_nil|]. intros [?|?]%elem_of_app; auto.
  - destruct v; cbn; try (by intros ?%elem_of_nil); [..|by destruct (Hl items)|by destruct (Hm fields)].
    + intros ->%list_elem_of_singleton. eauto.
    + intros (t & -> & _)%list_elem_of_fmap. eauto.
Qed.


Definition secret_document : Document :=
  mkDocument [("etcd3", YMap [("host", YString "db"); ("password", YString "hunter2")]);
              ("note", YList [YString "etcd uses hunter2"])] [] YNull "go_patroni" "default" "patronictl.yaml".

