(* ===== verification/Tls.v ===== *)
(** * Client transports and their cache: [tls.go]

    Credential files are read, checked and turned into a TLS configuration;
    [TransportCache] keeps the transports by a fingerprint of the files and the
    settings, least recently used first.  A mutex makes each operation on the
    cache one step.  PEM, X.509, PKCS #8, SHA-256 and [%q] are parameters. *)

From S2P Require Import Prelude GoStrings GoErrors.

(** ** Parameters *)

Record Block := mkBlock { blockType : string; blockBytes : string; blockEncrypted : bool }.

Class Crypto := {
  pem_Decode : string → option (Block * string);         (* the first block and the rest *)
  pem_Encode : string → string → string;                 (* pem.EncodeToMemory, by type and bytes *)
  DecryptPEMBlock : Block → string → option string;      (* x509.DecryptPEMBlock *)
  pkcs8_reencode : string → string → option string;      (* pkcs8.ParsePKCS8PrivateKey, x509.MarshalPKCS8PrivateKey *)
  X509KeyPair : string → string → option string;         (* tls.X509KeyPair *)
  parse_certs : string → list string;                    (* what CertPool.AppendCertsFromPEM adds *)
  SystemCertPool : option (list string);                 (* x509.SystemCertPool *)
  sha256 : string → string;                              (* sha256.Sum256 *)
  quote : string → string                                (* %q *)
}.

(** ** [TLSOptions] *)

Record TLSOptions := mkTLSOptions {
  optCAFile : string;
  optCertFile : string;
  optKeyFile : string;
  optServerName : string;
  InsecureSkipVerify : bool;
  IncludeSystemCAs : bool;
  optKeyPassword : string
}.

Definition WithKeyPassword (options : TLSOptions) (password : string) : TLSOptions :=
  mkTLSOptions (optCAFile options) (optCertFile options) (optKeyFile options) (optServerName options)
    (InsecureSkipVerify options) (IncludeSystemCAs options) password.

(** [*TLSConfigError], by its field. *)
Inductive tls_error := TLSConfigError (field : string).

Inductive tres (A : Type) := TOk (a : A) | TErr (e : tls_error).
Arguments TOk {A} a.
Arguments TErr {A} e.

(** ** Loading *)

Record tlsMaterial := mkMaterial {
  matOptions : TLSOptions;
  matCA : string;
  matCert : string;
  matKey : string;
  matKeyPass : string
}.

(** The context at each check, and [os.ReadFile]. *)
Record tls_env := mkTlsEnv {
  tlsCtxErr : nat → option goerror;
  tlsReadFile : string → option string
}.

(** [readCredentialFile], its two checks of the context numbered from [n]. *)
Definition readCredentialFile (env : tls_env) (n : nat) (path : string) : option string :=
  match tlsCtxErr env n with
  | Some _ => None
  | None => data ← tlsReadFile env path;
            match tlsCtxErr env (S n) with Some _ => None | None => Some data end
  end.

Definition read_field (env : tls_env) (n : nat) (path field : string) : tres string :=
  match readCredentialFile env n path with
  | Some data => TOk data
  | None => TErr (TLSConfigError field)
  end.

(** [loadTLSMaterial]; without a context [env] is [None].  The material is
    returned with an error too. *)
Definition loadTLSMaterial (env : option tls_env) (options : TLSOptions) : tlsMaterial * option tls_error :=
  let material := mkMaterial options "" "" "" (optKeyPassword options) in
  match env with
  | None => (material, Some (TLSConfigError "context"))
  | Some env =>
      if xorb (optCertFile options ==s "") (optKeyFile options ==s "")
      then (material, Some (TLSConfigError "cert/key"))
      else
        match (if optCAFile options !=s "" then read_field env 0 (optCAFile options) "cacert" else TOk "") with
        | TErr e => (material, Some e)
        | TOk ca =>
            let material := mkMaterial options ca "" "" (optKeyPassword options) in
            if optCertFile options ==s "" then (material, None)
            else match read_field env 2 (optCertFile options) "certfile" with
                 | TErr e => (material, Some e)
                 | TOk cert =>
                     match read_field env 4 (optKeyFile options) "keyfile" with
                     | TErr e => (mkMaterial options ca cert "" (optKeyPassword options), Some e)
                     | TOk key => (mkMaterial options ca cert key (optKeyPassword options), None)
                     end
                 end
        end
  end.

(** [clearBytes] and [tlsMaterial.clear] *)
Fixpoint clearBytes (s : string) : string :=
  match s with EmptyString => "" | String _ r => String (ascii_of_nat 0) (clearBytes r) end.

Definition material_clear (m : tlsMaterial) : tlsMaterial :=
  mkMaterial (matOptions m) (matCA m) (matCert m) (clearBytes (matKey m)) (clearBytes (matKeyPass m)).

(** ** The TLS configuration *)

(** [*tls.Config]: TLS 1.2 or later; without roots the verifier uses those of
    the system. *)
Record Config := mkConfig {
  ServerName : string;
  SkipVerify : bool;
  RootCAs : option (list string);
  Certificates : list string
}.

Section with_crypto.
  Context `{Crypto}.

Definition isPrivateKeyBlock (blockType : string) : bool :=
  (blockType ==s "PRIVATE KEY") || (blockType ==s "ENCRYPTED PRIVATE KEY") ||
  (blockType ==s "RSA PRIVATE KEY") || (blockType ==s "EC PRIVATE KEY").

(** The loop of [decryptPrivateKey] over the blocks; the outer option is [None]
    when the fuel is used up. *)
Fixpoint decrypt_blocks (fuel : nat) (keyPEM password rest : string) : option (option string) :=
  match fuel with
  | O => None
  | S fuel =>
      if rest ==s "" then Some None
      else match pem_Decode rest with
           | None => Some None
           | Some (block, remaining) =>
               if negb (isPrivateKeyBlock (blockType block)) then decrypt_blocks fuel keyPEM password remaining
               else if blockEncrypted block
               then Some (decrypted ← DecryptPEMBlock block password; Some (pem_Encode (blockType block) decrypted))
               else if blockType block ==s "ENCRYPTED PRIVATE KEY"
               then Some (decrypted ← pkcs8_reencode (blockBytes block) password;
                          Some (pem_Encode "PRIVATE KEY" decrypted))
               else Some (Some keyPEM)
           end
  end.

Definition decryptPrivateKey (keyPEM password : string) : option string :=
  if password ==s "" then Some keyPEM
  else mjoin (decrypt_blocks (S (String.length keyPEM)) keyPEM password keyPEM).

(** The trust roots of [buildHTTPTransport]. *)
Definition root_pool (m : tlsMaterial) : tres (option (list string)) :=
  if matCA m ==s "" then TOk None
  else
    let base := if IncludeSystemCAs (matOptions m) then deref [] SystemCertPool else [] in
    match parse_certs (matCA m) with
    | [] => TErr (TLSConfigError "cacert")
    | certs => TOk (Some (base ++ certs))
    end.

Definition key_pair (m : tlsMaterial) : tres (list string) :=
  if matCert m ==s "" then TOk []
  else match decryptPrivateKey (matKey m) (matKeyPass m) with
       | None => TErr (TLSConfigError "keyfile_password")
       | Some keyPEM => match X509KeyPair (matCert m) keyPEM with
                        | None => TErr (TLSConfigError "cert/key")
                        | Some certificate => TOk [certificate]
                        end
       end.

Definition buildHTTPTransport (m : tlsMaterial) : tres Config :=
  match root_pool m with
  | TErr e => TErr e
  | TOk roots =>
      match key_pair m with
      | TErr e => TErr e
      | TOk certificates =>
          TOk (mkConfig (optServerName (matOptions m)) (InsecureSkipVerify (matOptions m)) roots certificates)
      end
  end.

(** [NewHTTPTransport], with the material its deferred call clears. *)
Definition NewHTTPTransport (env : option tls_env) (options : TLSOptions) : tres Config * tlsMaterial :=
  let '(material, err) := loadTLSMaterial env options in
  (match err with Some e => TErr e | None => buildHTTPTransport material end, material_clear material).

(** ** Fingerprints *)

Definition NUL : ascii := ascii_of_nat 0.

(** Text ended by a zero byte. *)
Definition field0 (text : string) (rest : string) : string := text +:+ String NUL rest.

Definition sized (v rest : string) : string := field0 (format_N (N.of_nat (String.length v))) (v +:+ rest).

(** What [tlsMaterial.fingerprint] writes to the hash. *)
Definition fingerprint_text (m : tlsMaterial) : string :=
  let o := matOptions m in
  field0 (quote (optCAFile o)) (field0 (quote (optCertFile o)) (field0 (quote (optKeyFile o))
    (field0 (quote (optServerName o)) (field0 (FormatBool (InsecureSkipVerify o))
      (field0 (FormatBool (IncludeSystemCAs o))
        (sized (matCA m) (sized (matCert m) (sized (matKey m) (sized (matKeyPass m) "")))))))))
.

Definition fingerprint (m : tlsMaterial) : string := sha256 (fingerprint_text m).

(** ** The cache *)

(** A [*http.Transport]: which one, and its configuration. *)
Record Transport := mkTransport { tpRef : nat; tpConfig : Config }.

(** [TransportCache], with the number of transports built so far and those
    whose idle connections were closed, latest last. *)
Record TransportCache := mkCache {
  maxEntries : Z;
  transports : gmap string Transport;
  order : list string;
  built : nat;
  idleClosed : list nat
}.

Definition defaultTransportCacheEntries : Z := 8.

Definition NewTransportCacheWithOptions (MaxEntries : Z) : tres TransportCache :=
  if (MaxEntries <? 0)%Z then TErr (TLSConfigError "cache.max_entries")
  else TOk (mkCache (if (MaxEntries =? 0)%Z then defaultTransportCacheEntries else MaxEntries) ∅ [] 0 []).

Definition NewTransportCache : TransportCache := mkCache defaultTransportCacheEntries ∅ [] 0 [].

(** [initialize]: a nil map reads as an empty one. *)
Definition cache_initialize (c : TransportCache) : TransportCache :=
  if (maxEntries c <=? 0)%Z
  then mkCache defaultTransportCacheEntries (transports c) (order c) (built c) (idleClosed c) else c.

(** Remove the first occurrence of [fp], when there is one. *)
Fixpoint remove_first (fp : string) (l : list string) : list string :=
  match l with
  | [] => []
  | x :: r => if x ==s fp then r else x :: remove_first fp r
  end.

(** [touch]: both ways of the code append [fp] to the other entries. *)
Definition cache_touch (c : TransportCache) (fp : string) : TransportCache :=
  mkCache (maxEntries c) (transports c) (remove_first fp (order c) ++ [fp]) (built c) (idleClosed c).

Definition closed_ref (t : option Transport) : list nat := match t with Some t => [tpRef t] | None => [] end.

(** The loop of [evict]. *)
Fixpoint evict_loop (maximum : Z) (l : list string) (m : gmap string Transport) (closed : list nat)
    : list string * gmap string Transport * list nat :=
  match l with
  | [] => ([], m, closed)
  | fp :: rest =>
      if (maximum <? Z.of_nat (length l))%Z
      then evict_loop maximum rest (delete fp m) (closed ++ closed_ref (m !! fp))
      else (l, m, closed)
  end.

Definition cache_evict (c : TransportCache) : TransportCache :=
  let '(l, m, closed) := evict_loop (maxEntries c) (order c) (transports c) (idleClosed c) in
  mkCache (maxEntries c) m l (built c) closed.

Definition cache_insert (c : TransportCache) (fp : string) (configuration : Config) : TransportCache :=
  mkCache (maxEntries c) (<[fp := mkTransport (built c) configuration]> (transports c)) (order c ++ [fp])
    (S (built c)) (idleClosed c).

(** The part of [Transport] under the lock. *)
Definition cache_lookup (c : TransportCache) (material : tlsMaterial) : tres Transport * TransportCache :=
  let fp := fingerprint material in
  let c := cache_initialize c in
  match transports c !! fp with
  | Some transport => (TOk transport, cache_touch c fp)
  | None =>
      match buildHTTPTransport material with
      | TErr e => (TErr e, c)
      | TOk configuration => (TOk (mkTransport (built c) configuration), cache_evict (cache_insert c fp configuration))
      end
  end.

Definition cache_Transport (c : TransportCache) (env : option tls_env) (options : TLSOptions) : tres Transport * TransportCache :=
  let '(material, err) := loadTLSMaterial env options in
  match err with
  | Some e => (TErr e, c)
  | None => cache_lookup c material
  end.

Definition close_all (c : TransportCache) : list nat := idleClosed c ++ (tpRef ∘ snd <$> map_to_list (transports c)).

Definition cache_CloseIdleConnections (c : TransportCache) : TransportCache :=
  mkCache (maxEntries c) (transports c) (order c) (built c) (close_all c).

Definition cache_Purge (c : TransportCache) : TransportCache :=
  mkCache (maxEntries c) ∅ [] (built c) (close_all c).

End with_crypto.
