(* ===== verification/TlsLaws.v ===== *)
(** * The transport cache is an LRU of correctly built transports

    The states of a cache are those its operations reach.  In all of them the
    order lists each cached fingerprint once and is within the bound; a step is
    a step of an LRU list; and, as long as fingerprints do not collide, the
    transport served is the one a fresh build from the current files gives. *)

From S2P Require Import Prelude GoStrings GoErrors ConfigProject ResolveLaws Tls.

Section with_crypto.
  Context `{Crypto}.

(** ** Reachable caches *)

Inductive cache_step : TransportCache → TransportCache → Prop :=
| step_transport c env options : cache_step c (cache_Transport c env options).2
| step_close c : cache_step c (cache_CloseIdleConnections c)
| step_purge c : cache_step c (cache_Purge c).

(** A cache is created, or is the zero value, and then used. *)
Inductive reachable : TransportCache → Prop :=
| reachable_zero : reachable (mkCache 0 ∅ [] 0 [])
| reachable_new n c : NewTransportCacheWithOptions n = TOk c → reachable c
| reachable_step c c' : reachable c → cache_step c c' → reachable c'.

Record cache_ok (c : TransportCache) : Prop := {
  ok_nodup : NoDup (order c);
  ok_order fp : fp ∈ order c ↔ is_Some (transports c !! fp);
  ok_bound : (Z.of_nat (length (order c)) <= maxEntries c)%Z;
  ok_refs fp t : transports c !! fp = Some t → tpRef t < built c;
  ok_distinct fp fp' t t' :
    transports c !! fp = Some t → transports c !! fp' = Some t' → tpRef t = tpRef t' → fp = fp';
  ok_built fp t : transports c !! fp = Some t →
    ∃ m, fingerprint m = fp ∧ buildHTTPTransport m = TOk (tpConfig t);
  ok_closed r : r < built c → (∃ fp t, transports c !! fp = Some t ∧ tpRef t = r) ∨ r ∈ idleClosed c
}.

Lemma cache_ok_empty n k closed :
  (0 <= n)%Z → (∀ r, r < k → r ∈ closed) → cache_ok (mkCache n ∅ [] k closed).
Proof.
  intros Hn Hc. split; cbn; [constructor| |done|done|done|done|by right; apply Hc].
  intros fp. split; [by intros ?%not_elem_of_nil|by intros [? ?]].
Qed.

Lemma remove_first_perm fp l : fp ∈ l → remove_first fp l ++ [fp] ≡ₚ l.
Proof.
  induction l as [|x l IH]; [by intros ?%not_elem_of_nil|]. cbn.
  destruct (String.eqb_spec x fp) as [->|Hne].
  - intros _. by rewrite (Permutation_app_comm l).
  - intros [?|Hin]%elem_of_cons; [done|]. cbn. by rewrite IH.
Qed.

Lemma cache_ok_perm c l closed : cache_ok c → l ≡ₚ order c → (∀ r, r ∈ idleClosed c → r ∈ closed) →
  cache_ok (mkCache (maxEntries c) (transports c) l (built c) closed).
Proof.
  intros [H1 H2 H3 H4 H5 H6 H7] Hp Hc. split; cbn; [by rewrite Hp|intros fp; by rewrite Hp|by rewrite Hp|done..|].
  intros r Hr. destruct (H7 r Hr); [by left|right; by apply Hc].
Qed.

Lemma cache_ok_initialize c : cache_ok c → cache_ok (cache_initialize c).
Proof.
  intros Hok. unfold cache_initialize. destruct (maxEntries c <=? 0)%Z eqn:E; [|done]. go_bool.
  destruct Hok as [H1 H2 H3 H4 H5 H6 H7]. split; cbn; try done. unfold defaultTransportCacheEntries. lia.
Qed.

(** ** Eviction *)

Lemma evict_loop_drop maximum l : ∀ m closed,
  (0 <= maximum)%Z →
  let k := Z.to_nat (Z.of_nat (length l) - maximum) in
  NoDup l →
  evict_loop maximum l m closed =
    (drop k l, foldl (λ m fp, delete fp m) m (take k l), closed ++ mjoin (closed_ref ∘ (m !!.) <$> take k l)).
Proof.
  induction l as [|fp l IH]; intros m closed Hmax k Hnd; cbn [evict_loop].
  { subst k. by rewrite drop_nil, take_nil, app_nil_r. }
  destruct (maximum <? Z.of_nat (length (fp :: l)))%Z eqn:E; go_bool.
  - apply NoDup_cons in Hnd as [Hfp Hnd]. rewrite IH by done. subst k.
    assert (Z.to_nat (Z.of_nat (length (fp :: l)) - maximum) = S (Z.to_nat (Z.of_nat (length l) - maximum))) as ->
      by (cbn [length] in *; lia).
    set (j := Z.to_nat (Z.of_nat (length l) - maximum)). cbn. f_equal.
    rewrite <- app_assoc. do 3 f_equal. apply list_fmap_ext. intros i x Hx. cbn.
    rewrite lookup_delete_ne; [done|]. intros ->. apply Hfp.
    apply list_elem_of_lookup_2 in Hx. rewrite <- (take_drop j l). apply elem_of_app. by left.
  - subst k. replace (Z.to_nat (Z.of_nat (length (fp :: l)) - maximum)) with O by lia. cbn. by rewrite app_nil_r.
Qed.

Lemma delete_all_lookup {A} (l : list string) (m : gmap string A) k :
  foldl (λ m fp, delete fp m) m l !! k = if bool_decide (k ∈ l) then None else m !! k.
Proof.
  revert m. induction l as [|x l IH]; intros m; cbn; [done|]. rewrite IH.
  destruct (decide (k = x)) as [->|Hne].
  - rewrite lookup_delete_eq. rewrite (bool_decide_eq_true_2 (x ∈ x :: l)) by (by left). by case_bool_decide.
  - rewrite lookup_delete_ne by done. repeat case_bool_decide; set_solver.
Qed.

Lemma cache_evict_ok c : 
  NoDup (order c) → (∀ fp, fp ∈ order c ↔ is_Some (transports c !! fp)) → (0 <= maxEntries c)%Z →
  let k := Z.to_nat (Z.of_nat (length (order c)) - maxEntries c) in
  cache_evict c = mkCache (maxEntries c) (foldl (λ m fp, delete fp m) (transports c) (take k (order c)))
                    (drop k (order c)) (built c) (idleClosed c ++ mjoin (closed_ref ∘ (transports c !!.) <$> take k (order c))).
Proof. intros Hnd _ Hmax k. unfold cache_evict. by rewrite evict_loop_drop. Qed.

Lemma NoDup_take_drop {A} (l : list A) k x : NoDup l → x ∈ take k l → x ∈ drop k l → False.
Proof.
  intros Hnd. rewrite <- (take_drop k l) in Hnd. apply NoDup_app in Hnd as (_ & Hd & _). intros H1 H2. by apply (Hd x).
Qed.

(** A new transport under a new fingerprint, and the eviction after it. *)
Lemma cache_insert_ok c m configuration :
  cache_ok c → (0 < maxEntries c)%Z → transports c !! fingerprint m = None →
  buildHTTPTransport m = TOk configuration →
  cache_ok (cache_evict (cache_insert c (fingerprint m) configuration)).
Proof.
  intros [H1 H2 H3 H4 H5 H6 H7] Hmax Hnone Hb. set (fp := fingerprint m) in *. set (t := mkTransport (built c) configuration).
  assert (fp ∉ order c) as Hfp by (rewrite H2, Hnone; by intros [? ?]).
  set (c1 := cache_insert c fp configuration).
  assert (NoDup (order c1)) as Hnd1.
  { cbn. apply NoDup_app. split; [done|]. split; [set_solver|apply NoDup_singleton]. }
  assert (∀ x, x ∈ order c1 ↔ is_Some (transports c1 !! x)) as Hord1.
  { intros x. cbn. rewrite elem_of_app, list_elem_of_singleton. destruct (decide (x = fp)) as [->|Hne].
    - rewrite lookup_insert_eq. naive_solver.
    - rewrite lookup_insert_ne by done. rewrite H2. naive_solver. }
  rewrite cache_evict_ok by (try done; cbn; lia).
  set (k := Z.to_nat _). set (m1 := foldl _ _ _).
  assert (∀ x, m1 !! x = if bool_decide (x ∈ take k (order c1)) then None else transports c1 !! x) as Hm1
    by apply delete_all_lookup.
  assert (∀ x u, m1 !! x = Some u → transports c1 !! x = Some u) as Hsub
    by (intros x u; rewrite Hm1; by case_bool_decide).
  assert (∀ x u, m1 !! x = Some u → (x = fp ∧ u = t) ∨ (x ≠ fp ∧ transports c !! x = Some u)) as Hcases.
  { intros x u Hu%Hsub. cbn in Hu. destruct (decide (x = fp)) as [->|Hne].
    - rewrite lookup_insert_eq in Hu. left. injection Hu as <-. done.
    - rewrite lookup_insert_ne in Hu by done. by right. }
  split; cbn [maxEntries transports order built].
  - rewrite <- (take_drop k (order c1)) in Hnd1. by apply NoDup_app in Hnd1 as (_ & _ & ?).
  - intros x. rewrite Hm1. case_bool_decide as Hin.
    + split; [|by intros [? ?]]. intros Hd. by destruct (NoDup_take_drop (order c1) k x).
    + rewrite <- Hord1. rewrite <- (take_drop k (order c1)) at 2. rewrite elem_of_app. tauto.
  - rewrite length_drop. change (maxEntries c1) with (maxEntries c) in *. subst k. lia.
  - intros x u Hu. destruct (Hcases x u Hu) as [[-> ->]|[_ Hc]]; cbn; [lia|]. apply H4 in Hc. lia.
  - intros x x' u u' Hu Hu' Href.
    destruct (Hcases x u Hu) as [[-> ->]|[Hx Hc]], (Hcases x' u' Hu') as [[-> ->]|[Hx' Hc']]; [done|..|by eapply H5];
      cbn in Href; [apply H4 in Hc'|apply H4 in Hc]; lia.
  - intros x u Hu. destruct (Hcases x u Hu) as [[-> ->]|[_ Hc]]; [by exists m|by apply H6].
  - intros r Hr. cbn [idleClosed]. rewrite elem_of_app.
    assert ((∃ x u, transports c1 !! x = Some u ∧ tpRef u = r) ∨ r ∈ idleClosed c) as [(x & u & Hu & Hur)|Hin]; [|..].
    + destruct (decide (r = built c)) as [->|Hne].
      * left. exists fp, t. cbn. by rewrite lookup_insert_eq.
      * destruct (H7 r) as [(x & u & Hu & Hur)|Hin]; [cbn in Hr; lia| |by right].
        left. exists x, u. split; [|done]. cbn. rewrite lookup_insert_ne; [done|]. intros <-. congruence.
    + destruct (decide (x ∈ take k (order c1))) as [Hx|Hx].
      * right. right. apply list_elem_of_join. exists (closed_ref (transports c1 !! x)). split.
        -- rewrite Hu. cbn. rewrite Hur. by left.
        -- apply list_elem_of_fmap. by exists x.
      * left. exists x, u. split; [|done]. rewrite Hm1, bool_decide_eq_false_2; done.
    + right. by left.
Qed.

Lemma cache_lookup_ok c m : cache_ok c → cache_ok (cache_lookup c m).2.
Proof.
  intros Hok%cache_ok_initialize. unfold cache_lookup. cbv zeta.
  assert (0 < maxEntries (cache_initialize c))%Z as Hmax.
  { unfold cache_initialize. destruct (maxEntries c <=? 0)%Z eqn:E; go_bool; [done|lia]. }
  destruct (transports _ !! _) as [t|] eqn:Et.
  - cbn. apply (cache_ok_perm (cache_initialize c)); [done| |done]. apply remove_first_perm, (ok_order _ Hok). eauto.
  - destruct (buildHTTPTransport m) as [configuration|e] eqn:Eb; [|done]. by apply cache_insert_ok.
Qed.

Lemma cache_Transport_ok c env options : cache_ok c → cache_ok (cache_Transport c env options).2.
Proof.
  intros Hok. unfold cache_Transport. destruct (loadTLSMaterial env options) as [m [e|]]; [done|]. by apply cache_lookup_ok.
Qed.

Lemma reachable_ok c : reachable c → cache_ok c.
Proof.
  induction 1 as [|n c Hn|c c' _ IH Hstep].
  - apply cache_ok_empty; [done|lia].
  - unfold NewTransportCacheWithOptions in Hn. destruct (n <? 0)%Z eqn:E; [done|]. injection Hn as <-. go_bool.
    apply cache_ok_empty; [|lia]. unfold defaultTransportCacheEntries. destruct (n =? 0)%Z; lia.
  - inversion Hstep; subst; [by apply cache_Transport_ok| |].
    + apply (cache_ok_perm c); [done..|]. intros r Hr. apply elem_of_app. by left.
    + apply cache_ok_empty; [pose proof (ok_bound _ IH); lia|]. intros r Hr. apply elem_of_app.
      destruct (ok_closed _ IH r Hr) as [(fp & t & Ht & <-)|]; [right|by left].
      apply list_elem_of_fmap. exists (fp, t). split; [done|]. by apply elem_of_map_to_list.
Qed.

(** C20: whatever calls a transport cache has served, its order lists every
    cached fingerprint exactly once and is within the bound, no two fingerprints
    share a transport, each transport was built from files and settings that have
    its fingerprint, and the idle connections of every transport that left the
    cache have been closed. *)
Theorem TransportCache_invariant c : reachable c → cache_ok c.
Proof. apply reachable_ok. Qed.

(** ** The cache as an LRU list *)

(** The entries in the order of use. *)
Definition entries (c : TransportCache) : list (string * Transport) :=
  omap (λ fp, (fp,.) <$> transports c !! fp) (order c).

(** An LRU list of at most [maximum] entries: a hit moves to the end, a miss
    adds what is built and drops the oldest entries beyond the bound. *)
Definition lru_use (maximum : nat) (l : list (string * Transport)) (fp : string) (fresh : option Transport)
    : list (string * Transport) :=
  match find_first (λ e, e.1 ==s fp) l, fresh with
  | Some e, _ => List.filter (λ e, e.1 !=s fp) l ++ [e]
  | None, Some t => let l := l ++ [(fp, t)] in drop (length l - maximum) l
  | None, None => l
  end.

(** The entry of one fingerprint, and all of them. *)
Definition entry_of (m : gmap string Transport) (fp : string) : option (string * Transport) := (fp,.) <$> m !! fp.

Lemma entry_some (m : gmap string Transport) fp t : m !! fp = Some t → entry_of m fp = Some (fp, t).
Proof. unfold entry_of. by intros ->. Qed.

Lemma entry_none (m : gmap string Transport) fp : m !! fp = None → entry_of m fp = None.
Proof. unfold entry_of. by intros ->. Qed.

Lemma omap_entries_ext (m m' : gmap string Transport) (l : list string) :
  (∀ fp, fp ∈ l → m !! fp = m' !! fp) → omap (entry_of m) l = omap (entry_of m') l.
Proof.
  induction l as [|fp l IH]; intros H0; [done|]. cbn.
  assert (entry_of m fp = entry_of m' fp) as -> by (unfold entry_of; rewrite H0; [done|by left]).
  rewrite IH; [done|]. intros x Hx. apply H0. by right.
Qed.

Lemma omap_entries_drop (m : gmap string Transport) (l : list string) k :
  (∀ fp, fp ∈ l → is_Some (m !! fp)) → drop k (omap (entry_of m) l) = omap (entry_of m) (drop k l).
Proof.
  revert k. induction l as [|fp l IH]; intros k Hs; [by destruct k|]. destruct k as [|k]; [done|].
  destruct (Hs fp ltac:(by left)) as [t Ht]. cbn. rewrite (entry_some _ _ _ Ht). apply IH. intros x Hx. apply Hs. by right.
Qed.

Lemma omap_entries_length (m : gmap string Transport) (l : list string) :
  (∀ fp, fp ∈ l → is_Some (m !! fp)) → length (omap (entry_of m) l) = length l.
Proof.
  induction l as [|fp l IH]; intros Hs; [done|]. destruct (Hs fp ltac:(by left)) as [t Ht].
  cbn. rewrite (entry_some _ _ _ Ht). cbn. rewrite IH; [done|]. intros x Hx. apply Hs. by right.
Qed.

Lemma find_entry (m : gmap string Transport) (l : list string) fp t :
  m !! fp = Some t → find_first (λ e, e.1 ==s fp) (omap (entry_of m) l) = if bool_decide (fp ∈ l) then Some (fp, t) else None.
Proof.
  intros Ht. unfold find_first. induction l as [|x l IH]; cbn; [by rewrite bool_decide_eq_false_2 by apply not_elem_of_nil|].
  destruct (decide (x = fp)) as [->|Hne].
  - rewrite (entry_some _ _ _ Ht). cbn. rewrite String.eqb_refl. by rewrite bool_decide_eq_true_2 by (by left).
  - assert (bool_decide (fp ∈ x :: l) = bool_decide (fp ∈ l)) as -> by (apply bool_decide_ext; set_solver).
    destruct (m !! x) as [u|] eqn:Ex; [rewrite (entry_some _ _ _ Ex)|by rewrite (entry_none _ _ Ex)].
    cbn. by apply String.eqb_neq in Hne as ->.
Qed.

Lemma find_entry_none (m : gmap string Transport) (l : list string) fp :
  m !! fp = None → find_first (λ e, e.1 ==s fp) (omap (entry_of m) l) = None.
Proof.
  intros Ht. unfold find_first. induction l as [|x l IH]; [done|]. cbn.
  destruct (m !! x) as [u|] eqn:Ex; [rewrite (entry_some _ _ _ Ex)|by rewrite (entry_none _ _ Ex)].
  cbn. destruct (String.eqb_spec x fp) as [->|]; [congruence|done].
Qed.

Lemma remove_first_filter (l : list string) fp : NoDup l → remove_first fp l = List.filter (λ x, x !=s fp) l.
Proof.
  induction l as [|x l IH]; intros Hnd; [done|]. apply NoDup_cons in Hnd as [Hx Hnd]. cbn.
  destruct (String.eqb_spec x fp) as [->|Hne]; cbn; [|by rewrite IH].
  clear -Hx. induction l as [|y l IH]; [done|]. cbn. rewrite (proj2 (String.eqb_neq y fp)) by set_solver.
  cbn. f_equal. apply IH. set_solver.
Qed.

Lemma kept_entries (m : gmap string Transport) (l : list string) fp :
  omap (entry_of m) (List.filter (λ x, x !=s fp) l) = List.filter (λ e, e.1 !=s fp) (omap (entry_of m) l).
Proof.
  induction l as [|x l IH]; [done|]. cbn.
  destruct (m !! x) as [u|] eqn:Ex; [rewrite (entry_some _ _ _ Ex)|rewrite (entry_none _ _ Ex)]; cbn;
    destruct (String.eqb_spec x fp); cbn; rewrite ?(entry_some _ _ _ Ex), ?(entry_none _ _ Ex), IH; done.
Qed.

Definition fresh_transport (c : TransportCache) (m : tlsMaterial) : option Transport :=
  match buildHTTPTransport m with TOk configuration => Some (mkTransport (built c) configuration) | TErr _ => None end.

(** C21: a call of the cache is one use of an LRU list: a cached transport is
    served and becomes the latest, a new one is added and the oldest entries
    beyond the bound are dropped, and a failed build changes nothing. *)
Theorem cache_lookup_lru c m :
  reachable c →
  let '(r, c') := cache_lookup c m in
  entries c' = lru_use (Z.to_nat (maxEntries c')) (entries c) (fingerprint m) (fresh_transport c m) ∧
  match r with
  | TOk t => last (entries c') = Some (fingerprint m, t)
  | TErr _ => entries c' = entries c
  end.
Proof.
  intros Hok%reachable_ok. pose proof (cache_ok_initialize _ Hok) as Hok0.
  assert (0 < maxEntries (cache_initialize c))%Z as Hmax.
  { unfold cache_initialize. destruct (maxEntries c <=? 0)%Z eqn:E; go_bool; [done|lia]. }
  assert (entries c = entries (cache_initialize c) ∧ built c = built (cache_initialize c)) as [-> Hbuilt]
    by (unfold cache_initialize; by destruct (_ <=? _)%Z).
  unfold cache_lookup, fresh_transport. rewrite Hbuilt. cbv zeta. set (c0 := cache_initialize c) in *. clearbody c0. clear Hbuilt Hok.
  set (fp := fingerprint m). change (entries c0) with (omap (entry_of (transports c0)) (order c0)). unfold lru_use.
  destruct Hok0 as [H1 H2 H3 H4 H5 H6 H7]. destruct (transports c0 !! fp) as [t|] eqn:Et.
  - rewrite (find_entry _ _ _ t Et), bool_decide_eq_true_2 by (apply H2; eauto).
    change (entries (cache_touch c0 fp)) with (omap (entry_of (transports c0)) (remove_first fp (order c0) ++ [fp])).
    rewrite omap_app, remove_first_filter, kept_entries by done. cbn. rewrite (entry_some _ _ _ Et). split; [done|]. apply last_snoc.
  - rewrite find_entry_none by done. destruct (buildHTTPTransport m) as [configuration|e]; [|done].
    assert (fp ∉ order c0) as Hfp by (rewrite H2, Et; by intros [? ?]).
    set (t := mkTransport (built c0) configuration). set (c1 := cache_insert c0 fp configuration).
    assert (NoDup (order c1)) as Hnd1.
    { cbn. apply NoDup_app. split; [done|]. split; [set_solver|apply NoDup_singleton]. }
    assert (∀ x, x ∈ order c1 → is_Some (transports c1 !! x)) as Hs.
    { intros x. cbn. destruct (decide (x = fp)) as [->|Hne]; [rewrite lookup_insert_eq; eauto|].
      rewrite lookup_insert_ne, elem_of_app, list_elem_of_singleton, H2 by done. naive_solver. }
    assert (omap (entry_of (transports c1)) (order c1) = omap (entry_of (transports c0)) (order c0) ++ [(fp, t)]) as Hc1.
    { cbn. rewrite omap_app. f_equal.
      - apply omap_entries_ext. intros x Hx. rewrite lookup_insert_ne; [done|]. by intros <-.
      - cbn. unfold entry_of. by rewrite lookup_insert_eq. }
    unfold cache_evict. rewrite evict_loop_drop by (done || (cbn; lia)).
    set (k := Z.to_nat _). unfold entries at 1 2. cbn [transports order maxEntries].
    assert (omap (λ fp, (fp,.) <$> foldl (λ m fp, delete fp m) (transports c1) (take k (order c1)) !! fp) (drop k (order c1))
            = drop k (omap (entry_of (transports c0)) (order c0) ++ [(fp, t)])) as Hdrop.
    { rewrite <- Hc1, omap_entries_drop by done. apply omap_entries_ext. intros x Hx. rewrite delete_all_lookup.
      rewrite bool_decide_eq_false_2; [done|]. intros Ht. by eapply NoDup_take_drop. }
    rewrite Hdrop. split.
    + f_equal. subst k. rewrite length_app, omap_entries_length by (intros x; by apply H2). cbn. rewrite length_app. cbn. lia.
    + rewrite drop_app_le; [apply last_snoc|]. rewrite omap_entries_length by (intros x; by apply H2).
      subst k. cbn. rewrite length_app. cbn. lia.
Qed.

(** ** Fingerprints tell materials apart *)

Section fingerprints.
  Hypothesis sha256_inj : ∀ a b, sha256 a = sha256 b → a = b.
  Hypothesis quote_inj : ∀ a b, quote a = quote b → a = b.
  Hypothesis quote_nul : ∀ a, lacks NUL (quote a).

Lemma field0_inj a b r t : lacks NUL a → lacks NUL b → field0 a r = field0 b t → a = b ∧ r = t.
Proof.
  unfold field0. intros Ha Hb E. apply (f_equal (Cut NUL)) in E. rewrite !Cut_app in E by done. by injection E.
Qed.

Lemma format_N_nul n : lacks NUL (format_N n).
Proof. apply lacks_non_digit; [apply format_N_digits|done]. Qed.

Lemma app_length_inj a b r t : String.length a = String.length b → a +:+ r = b +:+ t → a = b ∧ r = t.
Proof.
  revert b. induction a as [|c a IH]; intros [|d b]; try done.
  intros [= Hl] [= -> H0]. destruct (IH b Hl H0) as [-> ->]. done.
Qed.

Lemma sized_inj a b r t : sized a r = sized b t → a = b ∧ r = t.
Proof.
  unfold sized. intros E. apply field0_inj in E as [El E]; [|apply format_N_nul..].
  apply (f_equal parse_digits) in El. rewrite !parse_format_N in El. injection El as El.
  apply app_length_inj; [lia|done].
Qed.

Lemma FormatBool_nul b : lacks NUL (FormatBool b).
Proof. by destruct b. Qed.

Lemma FormatBool_inj a b : FormatBool a = FormatBool b → a = b.
Proof. by destruct a, b. Qed.

(** The same fingerprint means the same files, settings and passphrase. *)
Lemma fingerprint_inj m m' :
  fingerprint m = fingerprint m' → optKeyPassword (matOptions m) = matKeyPass m →
  optKeyPassword (matOptions m') = matKeyPass m' → m = m'.
Proof using All.
  unfold fingerprint, fingerprint_text. cbv zeta. intros E%sha256_inj Hp Hp'.
  repeat (apply field0_inj in E as [?Hf E];
    [|solve [apply quote_nul|apply FormatBool_nul]..]).
  repeat (apply sized_inj in E as [?Hs E]).
  apply quote_inj in Hf, Hf0, Hf1, Hf2. apply FormatBool_inj in Hf3, Hf4.
  destruct m as [[] ? ? ? ?], m' as [[] ? ? ? ?]. cbn in *. by subst.
Qed.

Lemma loadTLSMaterial_options env options m err :
  loadTLSMaterial env options = (m, err) → matOptions m = options ∧ matKeyPass m = optKeyPassword options.
Proof.
  unfold loadTLSMaterial. cbv zeta. intros E. repeat (case_match; try by injection E as <- <-).
Qed.

(** A material as [loadTLSMaterial] makes it. *)
Definition loaded (m : tlsMaterial) : Prop := optKeyPassword (matOptions m) = matKeyPass m.

(** Every cached transport was built from a loaded material. *)
Lemma reachable_loaded c : reachable c →
  ∀ fp t, transports c !! fp = Some t → ∃ m, loaded m ∧ fingerprint m = fp ∧ buildHTTPTransport m = TOk (tpConfig t).
Proof.
  induction 1 as [|n c Hn|c c' Hr IH Hstep].
  - done.
  - unfold NewTransportCacheWithOptions in Hn. by destruct (n <? 0)%Z; [done|]; injection Hn as <-.
  - inversion Hstep as [? env options| |]; subst; [|done|done].
    unfold cache_Transport. destruct (loadTLSMaterial env options) as [m [e|]] eqn:El; [done|].
    apply loadTLSMaterial_options in El as [Ho Hk].
    assert (transports (cache_initialize c) = transports c) as Hinit by (unfold cache_initialize; by destruct (_ <=? _)%Z).
    pose proof (reachable_ok _ Hr) as Hok%cache_ok_initialize.
    unfold cache_lookup. cbv zeta. destruct (transports (cache_initialize c) !! _) as [t0|] eqn:Et.
    + cbn. by rewrite Hinit.
    + destruct (buildHTTPTransport m) as [configuration|e] eqn:Eb; cbn [snd]; [|by rewrite Hinit].
      assert (0 < maxEntries (cache_initialize c))%Z as Hmax.
      { unfold cache_initialize. destruct (maxEntries c <=? 0)%Z eqn:E; go_bool; [done|lia]. }
      intros fp t. unfold cache_evict. rewrite evict_loop_drop.
      * cbn [transports]. rewrite delete_all_lookup. case_bool_decide; [done|]. cbn.
        destruct (decide (fp = fingerprint m)) as [->|Hne].
        -- rewrite lookup_insert_eq. intros [= <-]. exists m. unfold loaded. by rewrite Ho, Hk.
        -- rewrite lookup_insert_ne, Hinit by done. apply IH.
      * cbn. lia.
      * cbn. apply NoDup_app. split; [apply Hok|]. split; [|apply NoDup_singleton].
        intros x Hx ->%list_elem_of_singleton. apply (ok_order _ Hok) in Hx. rewrite Et in Hx. by destruct Hx.
Qed.

(** C22: a transport served from the cache has the configuration a fresh build
    from the same request and the files as they are now has: a replaced
    certificate, key, authority file, passphrase or setting is never served from
    an older transport. *)
Theorem cache_Transport_current c env options t c' :
  reachable c → cache_Transport c env options = (TOk t, c') → (NewHTTPTransport env options).1 = TOk (tpConfig t).
Proof using All.
  intros Hr. unfold cache_Transport, NewHTTPTransport. destruct (loadTLSMaterial env options) as [m [e|]] eqn:El; [done|].
  cbn. apply loadTLSMaterial_options in El as [Ho Hk]. unfold cache_lookup. cbv zeta.
  assert (transports (cache_initialize c) = transports c) as -> by (unfold cache_initialize; by destruct (_ <=? _)%Z).
  destruct (transports c !! fingerprint m) as [t0|] eqn:Et.
  - intros [= <- _]. destruct (reachable_loaded _ Hr _ _ Et) as (m' & Hm' & Hf & Hb).
    rewrite (fingerprint_inj m m'); [done|done| |done]. by rewrite Ho, Hk.
  - destruct (buildHTTPTransport m) as [configuration|e]; [|done]. by intros [= <- _].
Qed.

End fingerprints.

(** C23: an explicit authority file is the only source of trust unless the
    system's is asked for, verification is off only when that is asked for, and
    a certificate is presented when one is configured -- as long as the file has
    any content: an empty authority file leaves the roots of the system in
    place, and an empty certificate file no certificate. *)
Theorem NewHTTPTransport_trust env options c :
  (NewHTTPTransport (Some env) options).1 = TOk c → 
  SkipVerify c = InsecureSkipVerify options ∧
  (optCAFile options = "" → RootCAs c = None) ∧
  (optCAFile options ≠ "" → ∃ data, tlsReadFile env (optCAFile options) = Some data ∧
     RootCAs c = (if data ==s "" then None
                  else Some ((if IncludeSystemCAs options then deref [] SystemCertPool else []) ++ parse_certs data)) ∧
     (data ≠ "" → parse_certs data ≠ [])) ∧
  (optCertFile options = "" ↔ optKeyFile options = "") ∧
  (optCertFile options ≠ "" → ∃ data, tlsReadFile env (optCertFile options) = Some data ∧
     length (Certificates c) = if data ==s "" then 0 else 1).
Proof.
  unfold NewHTTPTransport. destruct (loadTLSMaterial (Some env) options) as [m [e|]] eqn:El; [done|]. cbn [fst].
  assert (∀ n path data, readCredentialFile env n path = Some data → tlsReadFile env path = Some data) as Hread.
  { intros n path data. unfold readCredentialFile. destruct (tlsCtxErr env n); [done|].
    destruct (tlsReadFile env path); [|done]. cbn. by destruct (tlsCtxErr env (S n)). }
  assert (matOptions m = options ∧ (optCAFile options = "" → matCA m = "") ∧
    (optCAFile options ≠ "" → tlsReadFile env (optCAFile options) = Some (matCA m)) ∧
    (optCertFile options = "" ↔ optKeyFile options = "") ∧
    (optCertFile options ≠ "" → tlsReadFile env (optCertFile options) = Some (matCert m))) as (<- & Hca & Hca' & Hpair & Hcert).
  { revert El. unfold loadTLSMaterial, read_field. cbv zeta.
    destruct (String.eqb_spec (optCertFile options) "") as [Hc|Hc],
             (String.eqb_spec (optKeyFile options) "") as [Hk|Hk]; cbn [xorb]; try done;
    destruct (String.eqb_spec (optCAFile options) "") as [Ha|Ha]; cbn [negb];
    try (destruct (readCredentialFile env 0 _) as [ca|] eqn:E0; [apply Hread in E0|done]);
    try (destruct (readCredentialFile env 2 _) as [cert|] eqn:E2; [apply Hread in E2|done]);
    try (destruct (readCredentialFile env 4 _) as [key|] eqn:E4; [|done]);
    intros [= <-]; cbn; naive_solver. }
  unfold buildHTTPTransport. destruct (root_pool m) as [roots|] eqn:Er; [|done].
  destruct (key_pair m) as [certs|] eqn:Ek; [|done]. intros [= <-]. cbn [SkipVerify RootCAs Certificates].
  unfold root_pool in Er. unfold key_pair in Ek.
  split; [done|]. split; [|split; [|split; [done|]]].
  - intros E. rewrite (Hca E) in Er. by injection Er as <-.
  - intros E. exists (matCA m). split; [by apply Hca'|].
    destruct (matCA m ==s "") eqn:Em; [injection Er as <-; by apply String.eqb_eq in Em|].
    destruct (parse_certs (matCA m)); [done|]. by injection Er as <-.
  - intros E. exists (matCert m). split; [by apply Hcert|].
    destruct (matCert m ==s ""); [by injection Ek as <-|].
    destruct (decryptPrivateKey _ _); [|done]. destruct (X509KeyPair _ _); [|done]. by injection Ek as <-.
Qed.

End with_crypto.

(** The loop over the blocks of a key ends: each block shortens the text. *)
Lemma decrypt_blocks_total `{Crypto} keyPEM password :
  (∀ text block rest, pem_Decode text = Some (block, rest) → String.length rest < String.length text) →
  is_Some (decrypt_blocks (S (String.length keyPEM)) keyPEM password keyPEM).
Proof.
  intros Hpem. assert (∀ fuel rest, String.length rest < fuel → is_Some (decrypt_blocks fuel keyPEM password rest)) as Hall;
    [|apply Hall; lia].
  induction fuel as [|fuel IH]; intros rest Hlt; [lia|]. cbn. destruct (rest ==s ""); [eauto|].
  destruct (pem_Decode rest) as [[block remaining]|] eqn:E; [|eauto]. apply Hpem in E.
  repeat case_match; eauto. apply IH. lia.
Qed.

(** ** A sample *)

Definition toy_crypto : Crypto := {|
  pem_Decode := λ _, None;
  pem_Encode := λ _ bytes, bytes;
  DecryptPEMBlock := λ _ _, None;
  pkcs8_reencode := λ _ _, None;
  X509KeyPair := λ cert _, Some cert;
  parse_certs := λ text, if text ==s "" then [] else [text];
  SystemCertPool := Some ["system"];
  sha256 := λ text, text;
  quote := PathEscape
|}.

Lemma PathEscape_nul a : lacks NUL (PathEscape a).
Proof.
  induction a as [|c a IH]; [apply lacks_empty|]. cbn [PathEscape]. destruct (path_plain c) eqn:E.
  - apply lacks_cons. split; [|done]. intros <-. done.
  - pose proof (N_of_ascii_bound c).
    assert (∀ n, (n < 16)%N → NUL ≠ hex_digit n) as Hx.
    { intros n Hn Heq. destruct (hex_digit_spec n Hn) as [Hv _]. rewrite <- Heq in Hv. vm_compute in Hv. discriminate Hv. }
    repeat (apply lacks_cons; split; [try apply Hx|]); done || (try (apply N.mod_lt; lia)).
    apply N.Div0.div_lt_upper_bound; lia.
Qed.

Definition toy_env (ca : string) : tls_env := mkTlsEnv (λ _, None) (λ path, if path ==s "ca.pem" then Some ca else None).

Definition toy_options : TLSOptions := mkTLSOptions "ca.pem" "" "" "" false false "".

(** The authority file was replaced between two calls. *)
Definition toy_cache : TransportCache :=
  (@cache_Transport toy_crypto NewTransportCache (Some (toy_env "old")) toy_options).2.

Lemma toy_reachable : @reachable toy_crypto toy_cache.
Proof.
  apply (@reachable_step toy_crypto NewTransportCache); [|apply step_transport].
  by apply (@reachable_new toy_crypto 8).
Qed.

Lemma TransportCache_invariant_witness :
  length (order toy_cache) = 1 ∧ NoDup (order toy_cache) ∧ (Z.of_nat (length (order toy_cache)) <= maxEntries toy_cache)%Z.
Proof.
  split; [by vm_compute|].
  pose proof (@TransportCache_invariant toy_crypto toy_cache toy_reachable) as Hok.
  split; [exact (@ok_nodup toy_crypto toy_cache Hok)|exact (@ok_bound toy_crypto toy_cache Hok)].
Defined.

Lemma cache_lookup_lru_witness :
  let m := (loadTLSMaterial (Some (toy_env "new")) toy_options).1 in
  length (entries (@cache_lookup toy_crypto toy_cache m).2) = 2 ∧
  entries (@cache_lookup toy_crypto toy_cache m).2
    = lru_use 8 (entries toy_cache) (@fingerprint toy_crypto m) (@fresh_transport toy_crypto toy_cache m).
Proof.
  intros m. split; [by vm_compute|].
  pose proof (@cache_lookup_lru toy_crypto toy_cache m toy_reachable) as Hl.
  destruct (@cache_lookup toy_crypto toy_cache m) as [r c'] eqn:E.
  assert (maxEntries c' = 8%Z) as Hmax.
  { change c' with ((r, c').2). rewrite <- E. by vm_compute. }
  rewrite Hmax in Hl. exact (proj1 Hl).
Defined.

Lemma cache_Transport_current_witness :
  ∃ t c', @cache_Transport toy_crypto toy_cache (Some (toy_env "new")) toy_options = (TOk t, c') ∧
          RootCAs (tpConfig t) = Some ["new"] ∧
          (@NewHTTPTransport toy_crypto (Some (toy_env "new")) toy_options).1 = TOk (tpConfig t).
Proof.
  destruct (@cache_Transport toy_crypto toy_cache (Some (toy_env "new")) toy_options) as [[t|e] c'] eqn:E;
    [|vm_compute in E; discriminate E].
  exists t, c'. split; [reflexivity|]. split; [vm_compute in E; injection E as <- _; reflexivity|].
  apply (@cache_Transport_current toy_crypto (λ a b (H : a = b), H) PathEscape_inj PathEscape_nul
           toy_cache (Some (toy_env "new")) toy_options t c' toy_reachable E).
Defined.

Lemma NewHTTPTransport_trust_witness :
  ∃ c, (@NewHTTPTransport toy_crypto (Some (toy_env "")) toy_options).1 = TOk c ∧ RootCAs c = None.
Proof.
  exists (mkConfig "" false None []). split; [by vm_compute|].
  destruct (proj1 (proj2 (proj2 (@NewHTTPTransport_trust toy_crypto (toy_env "") toy_options (mkConfig "" false None [])
              eq_refl))) ltac:(discriminate)) as (data & Hd & -> & _).
  vm_compute in Hd. injection Hd as <-. reflexivity.
Defined.
