(* ===== verification/Rest.v ===== *)
(** * The Patroni REST client: [client.go], [endpoints.go], [types.go]

    A client sends its requests over an abstract [http.Client]: an exchange
    fails, with whether a request had been written ([httptrace]), or is
    answered.  Every method returns the requests it sent beside its result.
    [net/url] and the validation of [http.NewRequest] are parameters. *)

From S2P Require Import Prelude GoStrings GoErrors Values Json Decode Assoc.

(** ** Parameters *)

Class HttpStd := {
  Values_Encode : list (string * string) → string;   (* url.Values.Encode, one value per name *)
  NewRequest_valid : string → string → bool;         (* http.NewRequest, by method and URL *)
  base64 : string → string                           (* base64.StdEncoding.EncodeToString *)
}.

(** ** Requests and exchanges *)

Record HTTPRequest := mkRequest {
  hqMethod : string;
  hqURL : string;
  hqBody : option string;
  hqHeader : list (string * string)
}.

(** What a response delivers: the bytes of its body, the error that ends them
    and the error of [Close]. *)
Record HTTPResponse := mkHTTPResponse {
  hrStatus : Z;
  hrHeader : list (string * list string);
  hrBody : string;
  hrBodyErr : option goerror;
  hrCloseErr : option goerror
}.

Inductive exchange :=
| ExFailed (wroteRequest : bool) (err : goerror)
| ExAnswered (response : HTTPResponse).

(** ** The client *)

Definition defaultTimeout : Z := 10 * 1000000000.
Definition defaultMaxBodyBytes : Z := Z.shiftl 8 20.

Definition Authorizer := HTTPRequest → goerror + HTTPRequest.

Inductive redirect := UseLastResponse | RedirectRefused | FollowRedirect.

(** [http.Client]: its exchanges and its policy, by the methods of the requests
    before. *)
Record HTTPClient := mkHTTPClient {
  hcDo : HTTPRequest → exchange;
  hcCheckRedirect : option (list string → redirect)
}.

Record ClientOptions := mkClientOptions {
  optHTTPClient : option HTTPClient;
  optTransport : option (HTTPRequest → exchange);
  optAuthorizer : option Authorizer;
  optTimeout : Z;
  MaxResponseBytes : Z;
  optUserAgent : string
}.

Record Client := mkClient {
  httpClient : HTTPClient;
  authorizer : option Authorizer;
  timeout : Z;
  maxResponseBytes : Z;
  userAgent : string
}.

Definition MethodGet : string := "GET".
Definition MethodHead : string := "HEAD".
Definition MethodOptions : string := "OPTIONS".
Definition MethodPost : string := "POST".
Definition MethodPut : string := "PUT".
Definition MethodPatch : string := "PATCH".
Definition MethodDelete : string := "DELETE".

Definition readMethod (method : string) : bool :=
  (method ==s MethodGet) || (method ==s MethodHead) || (method ==s MethodOptions).

Definition check_redirect (original : option (list string → redirect)) (via : list string) : redirect :=
  match via with
  | first :: _ =>
      if negb (readMethod first) then UseLastResponse
      else match original with
           | Some policy => policy via
           | None => if (10 <=? length via)%nat then RedirectRefused else FollowRedirect
           end
  | [] => match original with Some policy => policy via | None => FollowRedirect end
  end.

(** [NewClient]; [base] is [http.DefaultClient]. *)
Definition NewClient (base : HTTPClient) (options : ClientOptions) : option Client :=
  match optHTTPClient options, optTransport options with
  | Some _, Some _ => None
  | given, transport =>
      let base := deref base given in
      let client := mkHTTPClient (deref (hcDo base) transport) (Some (check_redirect (hcCheckRedirect base))) in
      Some (mkClient client (optAuthorizer options)
              (if (optTimeout options <=? 0)%Z then defaultTimeout else optTimeout options)
              (if (MaxResponseBytes options <=? 0)%Z then defaultMaxBodyBytes else MaxResponseBytes options)
              (optUserAgent options))
  end.

(** [BasicAuth.Authorize] *)
Definition NewBasicAuth `{HttpStd} (username password : string) : Authorizer :=
  λ request, inr (mkRequest (hqMethod request) (hqURL request) (hqBody request)
    (aset (hqHeader request) "Authorization" ("Basic " +:+ base64 (username +:+ ":" +:+ password)))).

(** [newError] *)
Definition newError (kind : patroniE.ErrorKind) (method endpoint : string) (delivery : patroniE.DeliveryState)
    (status : Z) (cause : goerror) : goerror :=
  EPatroni kind method endpoint delivery status (Some cause).

Record wireResponse := mkWire { wireStatus : Z; wireHeader : list (string * list string); wireRaw : string }.

Definition no_wire : wireResponse := mkWire 0 [] "".

(** [Response] *)
Record Response (T : Type) := mkResp {
  rpStatusCode : Z; rpHeader : list (string * list string); rpData : T; rpRaw : string }.
Arguments mkResp {T}.
Arguments rpStatusCode {T}.
Arguments rpHeader {T}.
Arguments rpData {T}.
Arguments rpRaw {T}.


Section with_std.
  Context `{GoStd, HttpStd}.

(** ** [joinEndpoint] *)

Definition joinEndpoint (baseURL endpoint : string) (query : list (string * string)) : goerror + string :=
  match url_Parse baseURL with
  | None => inl (EText "invalid base URL")
  | Some base =>
      if (urlScheme base !=s "http") && (urlScheme base !=s "https")
      then inl (EText "base URL scheme must be http or https")
      else if urlHost base ==s "" then inl (EText "base URL host is required")
      else if urlHasUser base then inl (EText "base URL userinfo is not accepted")
      else if (urlRawQuery base !=s "") || (urlFragment base !=s "")
      then inl (EText "base URL query and fragment are not accepted")
      else
        let joinedPath := TrimRight slash (urlPath base) +:+ "/" +:+ TrimLeft slash endpoint in
        let joinedPath := if (endpoint ==s "/") && negb (HasSuffix joinedPath "/") then joinedPath +:+ "/" else joinedPath in
        inr (URL_String (mkURL (urlScheme base) false (urlHost base) joinedPath ""
               (match query with [] => urlRawQuery base | _ => Values_Encode query end) (urlFragment base)))
  end.

(** ** [execute] *)

(** The requests sent, and the result. *)
Definition sent (A : Type) : Type := list HTTPRequest * A.

Definition failure (kind : patroniE.ErrorKind) (method endpoint : string) (cause : goerror)
    : sent (wireResponse * option goerror) :=
  ([], (no_wire, Some (newError kind method endpoint patroniE.DeliveryNotSent 0 cause))).

Definition request_headers (client : Client) (body : option string) : list (string * string) :=
  let header := [("Accept", "application/json")] in
  let header := match body with Some _ => aset header "Content-Type" "application/json" | None => header end in
  if userAgent client !=s "" then aset header "User-Agent" (userAgent client) else header.

(** [int64(maximum)+1] *)
Definition read_limit (client : Client) : Z := int64_wrap (maxResponseBytes client + 1).

(** [io.ReadAll(io.LimitReader(response.Body, limit))]: the bytes, and the error
    of the body when it ends before the limit. *)
Definition read_body (response : HTTPResponse) (limit : Z) : string * option goerror :=
  if (limit <=? 0)%Z then ("", None)
  else if (limit <=? Z.of_nat (String.length (hrBody response)))%Z
  then (String.substring 0 (Z.to_nat limit) (hrBody response), None)
  else (hrBody response, hrBodyErr response).

(** The part of [execute] after an answer. *)
Definition receive (client : Client) (method endpoint : string) (response : HTTPResponse) : wireResponse * option goerror :=
  let received := patroniE.DeliveryResponseReceived in
  let fail cause := Some (newError patroniE.ErrorResponseBody method endpoint received (hrStatus response) cause) in
  let '(raw, readErr) := read_body response (read_limit client) in
  let wire := mkWire (hrStatus response) (hrHeader response) raw in
  if (maxResponseBytes client <? Z.of_nat (String.length raw))%Z
  then (mkWire (hrStatus response) (hrHeader response) (String.substring 0 (Z.to_nat (maxResponseBytes client)) raw),
        fail (EText "response exceeds byte limit"))
  else match readErr with
       | Some err => (wire, fail err)
       | None => (wire, match hrCloseErr response with Some err => fail err | None => None end)
       end.

Definition execute (client : option Client) (ctxNil : bool) (method baseURL endpoint : string)
    (query : list (string * string)) (body : option string) : sent (wireResponse * option goerror) :=
  match client with
  | None => failure patroniE.ErrorRequest method endpoint (EText "client is nil")
  | Some client =>
      if ctxNil then failure patroniE.ErrorRequest method endpoint (EText "context is nil")
      else match joinEndpoint baseURL endpoint query with
           | inl err => failure patroniE.ErrorRequest method endpoint err
           | inr requestURL =>
               if negb (NewRequest_valid method requestURL)
               then failure patroniE.ErrorRequest method endpoint (EText "invalid request")
               else
                 let request := mkRequest method requestURL body (request_headers client body) in
                 match match authorizer client with Some authorize => authorize request | None => inr request end with
                 | inl err => failure patroniE.ErrorAuthentication method endpoint err
                 | inr request =>
                     ([request],
                      match hcDo (httpClient client) request with
                      | ExFailed wrote err =>
                          (no_wire, Some (newError patroniE.ErrorTransport method endpoint
                             (if wrote then patroniE.DeliveryMaybeSent else patroniE.DeliveryNotSent) 0 err))
                      | ExAnswered response => receive client method endpoint response
                      end)
                 end
           end
  end.

(** ** Responses *)

Definition marshalRequest (method endpoint : string) (encoded : option string) : goerror + string :=
  match encoded with
  | Some body => inr body
  | None => inl (newError patroniE.ErrorRequest method endpoint patroniE.DeliveryNotSent 0 (EText "json: unsupported value"))
  end.

(** [jsonResponse]; a failed decoding leaves [Data] as the decoder left it,
    which nothing reads: here zero. *)
Definition jsonResponse {T} `{Zero T} (read : value → option T) (wire : wireResponse) (method endpoint : string)
    (decode : bool) : Response T * option goerror :=
  let response d := mkResp (wireStatus wire) (wireHeader wire) d (wireRaw wire) in
  let fail cause := Some (newError patroniE.ErrorDecode method endpoint patroniE.DeliveryResponseReceived (wireStatus wire) cause) in
  if negb decode then (response zero, None)
  else if wireRaw wire ==s "" then (response zero, fail (EText "unexpected EOF"))
  else match decodeJSON (wireRaw wire) ≫= read with
       | Some d => (response d, None)
       | None => (response zero, fail (EText "json"))
       end.

Definition emptyResponse (wire : wireResponse) : Response unit :=
  mkResp (wireStatus wire) (wireHeader wire) tt (wireRaw wire).

Definition textResponse (wire : wireResponse) : Response string :=
  mkResp (wireStatus wire) (wireHeader wire) (wireRaw wire) (wireRaw wire).

(** [Response[T]{StatusCode: wire.status, Header: wire.header, Raw: wire.raw}] *)
Definition bare_response {T} `{Zero T} (wire : wireResponse) : Response T :=
  mkResp (wireStatus wire) (wireHeader wire) zero (wireRaw wire).

Definition success (status : Z) : bool := (200 <=? status)%Z && (status <? 300)%Z.

Definition getJSON {T} `{Zero T} (read : value → option T) (client : option Client) (ctxNil : bool)
    (baseURL endpoint : string) (query : list (string * string)) (decodeOnSuccess : bool)
    : sent (Response T * option goerror) :=
  let '(log, (wire, err)) := execute client ctxNil MethodGet baseURL endpoint query None in
  (log, match err with
        | Some err => (bare_response wire, Some err)
        | None => jsonResponse read wire MethodGet endpoint (decodeOnSuccess && success (wireStatus wire))
        end).

Definition sendJSONForJSON {T} `{Zero T} (read : value → option T) (client : option Client) (ctxNil : bool)
    (method baseURL endpoint : string) (request : option string) (decodeOnSuccess : bool)
    : sent (Response T * option goerror) :=
  match marshalRequest method endpoint request with
  | inl err => ([], (mkResp 0 [] zero "", Some err))
  | inr body =>
      let '(log, (wire, err)) := execute client ctxNil method baseURL endpoint [] (Some body) in
      (log, match err with
            | Some err => (bare_response wire, Some err)
            | None => jsonResponse read wire method endpoint (decodeOnSuccess && success (wireStatus wire))
            end)
  end.

Definition sendForText (client : option Client) (ctxNil : bool) (method baseURL endpoint : string) (body : option string)
    : sent (Response string * option goerror) :=
  let '(log, (wire, err)) := execute client ctxNil method baseURL endpoint [] body in
  (log, (textResponse wire, err)).

Definition sendJSONForText (client : option Client) (ctxNil : bool) (method baseURL endpoint : string)
    (request : option string) : sent (Response string * option goerror) :=
  match marshalRequest method endpoint request with
  | inl err => ([], (mkResp 0 [] "" "", Some err))
  | inr body => sendForText client ctxNil method baseURL endpoint (Some body)
  end.

End with_std.
