(* ===== verification/RestApi.v ===== *)
(** * The endpoints of the REST client: [endpoints.go], [types.go]

    The wire types, read from and written to JSON values, the methods of
    [Client], and the REST calls of the control package as these methods.  A
    field that occurs twice in an object is stored twice; the elements of a
    slice start from zero each time. *)

From S2P Require Import Prelude GoStrings GoErrors PgTypes GoTime Target Values Json Decode Dcs Effects Assoc Rest.

(** ** Readers *)

Definition read_struct {A} (read : A → config → option A) (acc : A) (v : value) : option A :=
  match v with VNull => Some acc | VMap fields => read acc fields | _ => None end.

Definition read_list {A} (read : value → option A) (_ : list A) (v : value) : option (list A) :=
  match v with VNull => Some [] | VList items => mapM read items | _ => None end.

Definition read_pointer {A} (z : A) (read : A → value → option A) (acc : option A) (v : value) : option (option A) :=
  match v with VNull => Some None | _ => option_map Some (read (deref z acc) v) end.

(** ** Wire types *)

Record PatroniIdentity := mkIdentity { piVersion : string; piScope : string; piName : string }.

Record XLogStatus := mkXLog {
  xlLocation : option Z;
  xlReceivedLocation : option Z;
  xlReplayedLocation : option Z;
  xlReplayedTimestamp : value;
  xlPaused : option bool
}.

Record ReplicationStatus := mkReplication {
  rlUsername : string;
  rlApplicationName : string;
  rlClientAddress : string;
  rlState : string;
  rlSyncState : string;
  rlSyncPriority : option Z
}.

Record PendingRestartChange := mkPendingChange { pcOldValue : value; pcNewValue : value }.

Record ScheduledRestart := mkScheduledRestart {
  srSchedule : string;
  srRole : string;
  srPostgresVersion : string;
  srTimeout : value;
  srRestartPending : option bool
}.

Record Status := mkStatusDTO {
  stState : string;
  stPostmasterStartTime : string;
  stRole : string;
  stServerVersion : option Z;
  stXLog : XLogStatus;
  stTimeline : option Z;
  stReplication : list ReplicationStatus;
  stReplicationState : string;
  stClusterUnlocked : option bool;
  stFailsafeModeIsActive : option bool;
  stPause : option bool;
  stDCSLastSeen : option Z;
  stTags : config;
  stDatabaseSystemIdentifier : string;
  stPendingRestart : option bool;
  stPendingRestartReason : list (string * PendingRestartChange);
  stScheduledRestart : option ScheduledRestart;
  stWatchdogFailed : option bool;
  stLoggerQueueSize : option Z;
  stLoggerRecordsLost : option Z;
  stSyncStandby : option bool;
  stQuorumStandby : option bool;
  stPatroni : PatroniIdentity
}.

Definition no_identity : PatroniIdentity := mkIdentity "" "" "".
Definition no_xlog : XLogStatus := mkXLog None None None VNull None.
Definition no_schedule : ScheduledRestart := mkScheduledRestart "" "" "" VNull None.

Definition read_identity (acc : PatroniIdentity) (fields : config) : option PatroniIdentity :=
  version ← unmarshal_field read_string_field "version" (piVersion acc) fields;
  scope ← unmarshal_field read_string_field "scope" (piScope acc) fields;
  name ← unmarshal_field read_string_field "name" (piName acc) fields;
  Some (mkIdentity version scope name).

Definition read_xlog (acc : XLogStatus) (fields : config) : option XLogStatus :=
  location ← unmarshal_field read_int "location" (xlLocation acc) fields;
  received ← unmarshal_field read_int "received_location" (xlReceivedLocation acc) fields;
  replayed ← unmarshal_field read_int "replayed_location" (xlReplayedLocation acc) fields;
  timestamp ← unmarshal_field read_any "replayed_timestamp" (xlReplayedTimestamp acc) fields;
  paused ← unmarshal_field read_bool "paused" (xlPaused acc) fields;
  Some (mkXLog location received replayed timestamp paused).

Definition read_replication (v : value) : option ReplicationStatus :=
  fields ← object_fields v;
  username ← unmarshal_field read_string_field "usename" "" fields;
  application ← unmarshal_field read_string_field "application_name" "" fields;
  address ← unmarshal_field read_string_field "client_addr" "" fields;
  state ← unmarshal_field read_string_field "state" "" fields;
  syncState ← unmarshal_field read_string_field "sync_state" "" fields;
  priority ← unmarshal_field read_int "sync_priority" None fields;
  Some (mkReplication username application address state syncState priority).

Definition read_change (v : value) : option PendingRestartChange :=
  fields ← object_fields v;
  old ← unmarshal_field read_any "old_value" VNull fields;
  new ← unmarshal_field read_any "new_value" VNull fields;
  Some (mkPendingChange old new).

Definition read_scheduled_restart (acc : ScheduledRestart) (fields : config) : option ScheduledRestart :=
  schedule ← unmarshal_field read_string_field "schedule" (srSchedule acc) fields;
  role ← unmarshal_field read_string_field "role" (srRole acc) fields;
  version ← unmarshal_field read_string_field "postgres_version" (srPostgresVersion acc) fields;
  timeout ← unmarshal_field read_any "timeout" (srTimeout acc) fields;
  pending ← unmarshal_field read_bool "restart_pending" (srRestartPending acc) fields;
  Some (mkScheduledRestart schedule role version timeout pending).

Definition read_status (v : value) : option Status :=
  fields ← object_fields v;
  state ← unmarshal_field read_string_field "state" "" fields;
  started ← unmarshal_field read_string_field "postmaster_start_time" "" fields;
  role ← unmarshal_field read_string_field "role" "" fields;
  serverVersion ← unmarshal_field read_int "server_version" None fields;
  xlog ← unmarshal_field (read_struct read_xlog) "xlog" no_xlog fields;
  timeline ← unmarshal_field read_int "timeline" None fields;
  replication ← unmarshal_field (read_list read_replication) "replication" [] fields;
  replicationState ← unmarshal_field read_string_field "replication_state" "" fields;
  unlocked ← unmarshal_field read_bool "cluster_unlocked" None fields;
  failsafe ← unmarshal_field read_bool "failsafe_mode_is_active" None fields;
  pause ← unmarshal_field read_bool "pause" None fields;
  lastSeen ← unmarshal_field read_int "dcs_last_seen" None fields;
  tags ← unmarshal_field read_any_map "tags" [] fields;
  identifier ← unmarshal_field read_string_field "database_system_identifier" "" fields;
  pendingRestart ← unmarshal_field read_bool "pending_restart" None fields;
  reason ← unmarshal_field (read_map read_change) "pending_restart_reason" [] fields;
  scheduled ← unmarshal_field (read_pointer no_schedule (read_struct read_scheduled_restart)) "scheduled_restart" None fields;
  watchdog ← unmarshal_field read_bool "watchdog_failed" None fields;
  queue ← unmarshal_field read_int "logger_queue_size" None fields;
  lost ← unmarshal_field read_int "logger_records_lost" None fields;
  sync ← unmarshal_field read_bool "sync_standby" None fields;
  quorum ← unmarshal_field read_bool "quorum_standby" None fields;
  identity ← unmarshal_field (read_struct read_identity) "patroni" no_identity fields;
  Some (mkStatusDTO state started role serverVersion xlog timeline replication replicationState unlocked failsafe
          pause lastSeen tags identifier pendingRestart reason scheduled watchdog queue lost sync quorum identity).

#[export] Instance zero_status : Zero Status :=
  mkStatusDTO "" "" "" None no_xlog None [] "" None None None None [] "" None [] None None None None None None no_identity.

Record ClusterMember := mkClusterMember {
  cmName : string;
  cmRole : string;
  cmState : string;
  cmAPIURL : string;
  cmHost : string;
  cmPort : option Z;
  cmTimeline : option Z;
  cmPendingRestart : option bool;
  cmPendingRestartReason : list (string * PendingRestartChange);
  cmScheduledRestart : option ScheduledRestart;
  cmTags : config;
  cmLSN : RawMessage;
  cmLag : RawMessage;
  cmReceiveLSN : RawMessage;
  cmReceiveLag : RawMessage;
  cmReplayLSN : RawMessage;
  cmReplayLag : RawMessage
}.

Record ScheduledSwitchover := mkScheduledSwitchover { ssAt : string; ssFrom : string; ssTo : string }.

Record Cluster := mkClusterDTO {
  clMembers : list ClusterMember;
  clScope : string;
  clPause : option bool;
  clScheduledSwitchover : option ScheduledSwitchover
}.

Definition read_cluster_member (v : value) : option ClusterMember :=
  fields ← object_fields v;
  name ← unmarshal_field read_string_field "name" "" fields;
  role ← unmarshal_field read_string_field "role" "" fields;
  state ← unmarshal_field read_string_field "state" "" fields;
  apiURL ← unmarshal_field read_string_field "api_url" "" fields;
  host ← unmarshal_field read_string_field "host" "" fields;
  port ← unmarshal_field read_int "port" None fields;
  timeline ← unmarshal_field read_int "timeline" None fields;
  pendingRestart ← unmarshal_field read_bool "pending_restart" None fields;
  reason ← unmarshal_field (read_map read_change) "pending_restart_reason" [] fields;
  scheduled ← unmarshal_field (read_pointer no_schedule (read_struct read_scheduled_restart)) "scheduled_restart" None fields;
  tags ← unmarshal_field read_any_map "tags" [] fields;
  lsn ← unmarshal_field read_raw "lsn" RawEmpty fields;
  lag ← unmarshal_field read_raw "lag" RawEmpty fields;
  receiveLSN ← unmarshal_field read_raw "receive_lsn" RawEmpty fields;
  receiveLag ← unmarshal_field read_raw "receive_lag" RawEmpty fields;
  replayLSN ← unmarshal_field read_raw "replay_lsn" RawEmpty fields;
  replayLag ← unmarshal_field read_raw "replay_lag" RawEmpty fields;
  Some (mkClusterMember name role state apiURL host port timeline pendingRestart reason scheduled tags
          lsn lag receiveLSN receiveLag replayLSN replayLag).

Definition read_scheduled_switchover (acc : ScheduledSwitchover) (fields : config) : option ScheduledSwitchover :=
  at_ ← unmarshal_field read_string_field "at" (ssAt acc) fields;
  from ← unmarshal_field read_string_field "from" (ssFrom acc) fields;
  to ← unmarshal_field read_string_field "to" (ssTo acc) fields;
  Some (mkScheduledSwitchover at_ from to).

Definition read_cluster (v : value) : option Cluster :=
  fields ← object_fields v;
  members ← unmarshal_field (read_list read_cluster_member) "members" [] fields;
  scope ← unmarshal_field read_string_field "scope" "" fields;
  pause ← unmarshal_field read_bool "pause" None fields;
  switchover ← unmarshal_field (read_pointer (mkScheduledSwitchover "" "" "") (read_struct read_scheduled_switchover))
                 "scheduled_switchover" None fields;
  Some (mkClusterDTO members scope pause switchover).

#[export] Instance zero_cluster : Zero Cluster := mkClusterDTO [] "" None None.

(** [json.Unmarshal] of a whole document into an [int64] or a [string]. *)
Definition as_int64 (v : value) : option Z :=
  match v with VNull => Some 0%Z | VNumber text => ParseInt text | _ => None end.

Record HistoryEntry := mkHistoryEntry {
  heTimeline : Z;
  heLSN : Z;
  heReason : string;
  heTimestamp : string;
  heMember : string;
  heExtra : list value
}.

(** [HistoryEntry.UnmarshalJSON] *)
Definition read_history_entry (v : value) : option HistoryEntry :=
  match v with
  | VList (timeline :: lsn :: reason :: rest) =>
      timeline ← as_int64 timeline;
      lsn ← as_int64 lsn;
      reason ← as_string reason;
      timestamp ← match rest with v :: _ => as_string v | [] => Some "" end;
      member ← match rest with _ :: v :: _ => as_string v | _ => Some "" end;
      Some (mkHistoryEntry timeline lsn reason timestamp member (drop 2 rest))
  | _ => None
  end.

(** The fields [HistoryEntry.MarshalJSON] writes. *)
Definition history_value (entry : HistoryEntry) : value :=
  let fields := [VNumber (FormatInt (heTimeline entry)); VNumber (FormatInt (heLSN entry)); VString (heReason entry)] in
  let more := negb (match heExtra entry with [] => true | _ => false end) in
  let fields := if (heTimestamp entry !=s "") || (heMember entry !=s "") || more
                then fields ++ [VString (heTimestamp entry)] else fields in
  let fields := if (heMember entry !=s "") || more then fields ++ [VString (heMember entry)] else fields in
  VList (fields ++ heExtra entry).

Definition History_MarshalJSON `{GoStd} (entry : HistoryEntry) : option string := Marshal (history_value entry).

Definition read_history (v : value) : option (list HistoryEntry) := read_list read_history_entry [] v.

(** [DynamicConfig] and [FailsafeTopology] *)
Definition read_dynamic_config (v : value) : option config := read_any_map [] v.
Definition read_failsafe (v : value) : option (list (string * string)) := read_string_map [] v.

(** ** Request bodies *)

(** [json:",omitempty"] *)
Definition omit_empty (name s : string) : list (string * value) := if s ==s "" then [] else [(name, VString s)].

Record RestartRequest := mkRestartRequest {
  rrSchedule : string;
  rrRole : string;
  rrPostgresVersion : string;
  rrTimeout : option value;
  rrRestartPending : option bool
}.

Record FailoverRequest := mkFailoverRequest { frLeader : string; frCandidate : string; frMember : string; frScheduledAt : string }.

Record FailsafePeerRequest := mkFailsafePeer {
  fsName : string; fsConnURL : string; fsAPIURL : string; fsSlots : list (string * Z) }.

Record MPPEvent := mkMPPEvent {
  mpType : string; mpGroup : Z; mpLeader : string; mpTimeout : SpecFloat.spec_float; mpCooldown : SpecFloat.spec_float }.

Definition restart_body (r : RestartRequest) : list (string * value) :=
  omit_empty "schedule" (rrSchedule r) ++ omit_empty "role" (rrRole r) ++
  omit_empty "postgres_version" (rrPostgresVersion r) ++
  match rrTimeout r with Some v => [("timeout", v)] | None => [] end ++
  match rrRestartPending r with Some b => [("restart_pending", VBool b)] | None => [] end.

Definition reinitialize_body (force fromLeader : bool) : list (string * value) :=
  [("force", VBool force); ("from_leader", VBool fromLeader)].

Definition failover_body (r : FailoverRequest) : list (string * value) :=
  omit_empty "leader" (frLeader r) ++ omit_empty "candidate" (frCandidate r) ++
  omit_empty "member" (frMember r) ++ omit_empty "scheduled_at" (frScheduledAt r).

Definition failsafe_body (r : FailsafePeerRequest) : list (string * value) :=
  [("name", VString (fsName r)); ("conn_url", VString (fsConnURL r)); ("api_url", VString (fsAPIURL r))] ++
  match fsSlots r with
  | [] => []
  | slots => [("slots", VMap ((λ kv, (kv.1, VNumber (FormatInt kv.2))) <$> slots))]
  end.

Definition mpp_body (e : MPPEvent) : list (string * value) :=
  [("type", VString (mpType e)); ("group", VNumber (FormatInt (mpGroup e))); ("leader", VString (mpLeader e));
   ("timeout", VFloat (mpTimeout e)); ("cooldown", VFloat (mpCooldown e))].

(** ** Health aliases *)

Definition healthAliases : list string :=
  ["/"; "/primary"; "/master"; "/read-write"; "/leader"; "/standby-leader"; "/standby_leader"; "/replica"; "/read-only";
   "/quorum"; "/read-only-quorum"; "/sync"; "/synchronous"; "/read-only-sync"; "/read-only-synchronous"; "/async";
   "/asynchronous"; "/health"].

Definition validHealthAlias (alias : string) : bool := existsb (λ candidate, alias ==s candidate) healthAliases.

Record HealthQuery := mkHealthQuery { hlLag : string; hlTags : list (string * string) }.

Definition query_set (values : list (string * string)) (key s : string) : list (string * string) :=
  if s !=s "" then aset values key s else values.

Definition HealthQuery_values (query : HealthQuery) : list (string * string) :=
  foldl (λ values kv, aset values ("tag_" +:+ kv.1) kv.2) (query_set [] "lag" (hlLag query)) (hlTags query).

Record ReadinessQuery := mkReadinessQuery { rdLag : string; rdMode : string }.

Definition ReadinessQuery_values (query : ReadinessQuery) : list (string * string) :=
  query_set (query_set [] "lag" (rdLag query)) "mode" (rdMode query).

Definition invalidAlias (method alias : string) : goerror :=
  newError patroniE.ErrorRequest method alias patroniE.DeliveryNotSent 0 (EText "unknown health alias").

(** ** The methods of [Client] *)

Section methods.
  Context `{GoStd, HttpStd} (client : option Client) (ctxNil : bool).

Definition text_result : Type := sent (Response string * option goerror).

Definition GetHealth (baseURL alias : string) (query : HealthQuery) : sent (Response Status * option goerror) :=
  if negb (validHealthAlias alias) then ([], (mkResp 0 [] zero "", Some (invalidAlias MethodGet alias)))
  else
    let '(log, (wire, err)) := execute client ctxNil MethodGet baseURL alias (HealthQuery_values query) None in
    (log, match err with
          | Some err => (bare_response wire, Some err)
          | None => jsonResponse read_status wire MethodGet alias true
          end).

Definition status_only (r : sent (wireResponse * option goerror)) : sent (Response unit * option goerror) :=
  let '(log, (wire, err)) := r in (log, (emptyResponse wire, err)).

Definition HeadHealth (baseURL alias : string) (query : HealthQuery) : sent (Response unit * option goerror) :=
  if negb (validHealthAlias alias) then ([], (mkResp 0 [] tt "", Some (invalidAlias MethodHead alias)))
  else status_only (execute client ctxNil MethodHead baseURL alias (HealthQuery_values query) None).

Definition OptionsHealth (baseURL alias : string) : sent (Response unit * option goerror) :=
  if negb (validHealthAlias alias) then ([], (mkResp 0 [] tt "", Some (invalidAlias MethodOptions alias)))
  else status_only (execute client ctxNil MethodOptions baseURL alias [] None).

Definition GetLiveness (baseURL : string) := status_only (execute client ctxNil MethodGet baseURL "/liveness" [] None).

Definition GetReadiness (baseURL : string) (query : ReadinessQuery) :=
  status_only (execute client ctxNil MethodGet baseURL "/readiness" (ReadinessQuery_values query) None).

Definition GetPatroni (baseURL : string) := getJSON read_status client ctxNil baseURL "/patroni" [] true.
Definition GetCluster (baseURL : string) := getJSON read_cluster client ctxNil baseURL "/cluster" [] true.
Definition GetHistory (baseURL : string) := getJSON read_history client ctxNil baseURL "/history" [] true.
Definition GetConfig (baseURL : string) := getJSON read_dynamic_config client ctxNil baseURL "/config" [] true.
Definition GetFailsafe (baseURL : string) := getJSON read_failsafe client ctxNil baseURL "/failsafe" [] true.

Definition GetMetrics (baseURL : string) : text_result :=
  let '(log, (wire, err)) := execute client ctxNil MethodGet baseURL "/metrics" [] None in (log, (textResponse wire, err)).

Definition PatchConfig (baseURL : string) (patch : config) :=
  sendJSONForJSON read_dynamic_config client ctxNil MethodPatch baseURL "/config" (Marshal (VMap patch)) true.

Definition PutConfig (baseURL : string) (configuration : config) :=
  sendJSONForJSON read_dynamic_config client ctxNil MethodPut baseURL "/config" (Marshal (VMap configuration)) true.

Definition PostReload (baseURL : string) : text_result := sendForText client ctxNil MethodPost baseURL "/reload" None.
Definition PostSigterm (baseURL : string) : text_result := sendForText client ctxNil MethodPost baseURL "/sigterm" None.
Definition DeleteRestart (baseURL : string) : text_result := sendForText client ctxNil MethodDelete baseURL "/restart" None.
Definition DeleteSwitchover (baseURL : string) : text_result :=
  sendForText client ctxNil MethodDelete baseURL "/switchover" None.

Definition post_json (baseURL endpoint : string) (fields : list (string * value)) : text_result :=
  sendJSONForText client ctxNil MethodPost baseURL endpoint (Marshal_struct fields).

Definition PostFailsafe (baseURL : string) (request : FailsafePeerRequest) := post_json baseURL "/failsafe" (failsafe_body request).
Definition PostRestart (baseURL : string) (request : RestartRequest) := post_json baseURL "/restart" (restart_body request).
Definition PostReinitialize (baseURL : string) (force fromLeader : bool) :=
  post_json baseURL "/reinitialize" (reinitialize_body force fromLeader).
Definition PostFailover (baseURL : string) (request : FailoverRequest) := post_json baseURL "/failover" (failover_body request).
Definition PostSwitchover (baseURL : string) (request : FailoverRequest) := post_json baseURL "/switchover" (failover_body request).
Definition PostCitus (baseURL : string) (event : MPPEvent) := post_json baseURL "/citus" (mpp_body event).
Definition PostMPP (baseURL : string) (event : MPPEvent) := post_json baseURL "/mpp" (mpp_body event).

(** ** The control package's client *)

(** [payload] and [request.Timeout] as [control] fills them. *)
Definition failover_request (p : FailoverPayload) : FailoverRequest :=
  mkFailoverRequest (fpLeader p) (fpCandidate p) "" (fpScheduledAt p).

Definition restart_request (p : RestartPayload) : RestartRequest :=
  mkRestartRequest (rpSchedule p) "" (rpPostgresVersion p)
    (if rpTimeout p ==s "" then None else Some (VString (rpTimeout p))) (rpRestartPending p).

Definition rest_response (r : Response string) : RESTResponse := mkResponse (rpStatusCode r) (rpData r).

Definition config_response (r : Response config) : RESTResponse := mkResponse (rpStatusCode r) "".

Definition status_response (r : Response Status) : StatusResponse :=
  mkStatusResponse (rpStatusCode r) (stState (rpData r)) (piVersion (stPatroni (rpData r))) (stServerVersion (rpData r)).

Definition text_reply (r : text_result) : sent (RESTResponse * option goerror) := (r.1, (rest_response r.2.1, r.2.2)).

(** A REST call of a control operation, made with this client. *)
Definition rest_call (c : call) : option (sent (reply c)) :=
  match c with
  | CPostFailover url payload => Some (text_reply (PostFailover url (failover_request payload)))
  | CPostSwitchover url payload => Some (text_reply (PostSwitchover url (failover_request payload)))
  | CDeleteSwitchover url => Some (text_reply (DeleteSwitchover url))
  | CPatchConfig url payload =>
      let r := PatchConfig url payload in Some (r.1, (config_response r.2.1, r.2.2))
  | CPostReload url => Some (text_reply (PostReload url))
  | CPostRestart url payload => Some (text_reply (PostRestart url (restart_request payload)))
  | CDeleteRestart url => Some (text_reply (DeleteRestart url))
  | CPostReinitialize url force fromLeader => Some (text_reply (PostReinitialize url force fromLeader))
  | CGetPatroni url => let r := GetPatroni url in Some (r.1, (status_response r.2.1, r.2.2))
  | _ => None
  end.

End methods.
