(* ===== verification/RestCatalog.v ===== *)
(** * The catalogue of REST endpoints: [catalog.go]

    The health aliases, the endpoints with their risk, and those of a Patroni
    version. *)

From S2P Require Import Prelude GoStrings GoErrors Version Assoc Rest RestApi.

Inductive Risk :=
| RiskRead | RiskAdminWrite | RiskAvailabilityWrite | RiskPeerInternalRead | RiskPeerInternal | RiskTestPlatformDangerous.

#[export] Instance Risk_eq_dec : EqDecision Risk.
Proof. solve_decision. Defined.

Record Endpoint := mkEndpoint {
  epID : string;
  epMethod : string;
  epPath : string;
  epRisk : Risk;
  epRequest : string;
  epResponse : string;
  epSince : string
}.

#[export] Instance Endpoint_eq_dec : EqDecision Endpoint.
Proof. solve_decision. Defined.

(** [Endpoint.AvailableIn] *)
Definition AvailableIn (endpoint : Endpoint) (version : Version) : bool :=
  match ParseVersion (epSince endpoint) with
  | inl _ => false
  | inr since => (0 <=? Version_Compare version since)%Z && VersionRange_Contains AuditedPatroniRange version
  end.

Definition quorum_alias (alias : string) : bool := (alias ==s "/quorum") || (alias ==s "/read-only-quorum").

Definition healthAliasAvailableIn (alias : string) (version : Version) : bool :=
  if negb (quorum_alias alias) then true
  else match ParseVersion PatroniV4 with
       | inr since => (0 <=? Version_Compare version since)%Z
       | inl _ => (0 <=? Version_Compare version (mkVersion 0 0 0 ""))%Z
       end.

Definition healthAliasSince (alias : string) : string := if quorum_alias alias then PatroniV4 else PatroniV3.

(** A supported version: parsed, and within the audited range. *)
Definition supported_version (versionText : string) : goerror + Version :=
  match ParseVersion versionText with
  | inl err => inl err
  | inr version => match CheckPatroniVersion versionText with Some err => inl err | None => inr version end
  end.

Definition HealthAliasesFor (versionText : string) : goerror + list string :=
  match supported_version versionText with
  | inl err => inl err
  | inr version => inr (List.filter (λ alias, healthAliasAvailableIn alias version) healthAliases)
  end.

Definition endpointID (method endpointPath : string) : string :=
  let name := Trim slash endpointPath in
  let name := if name ==s "" then "root" else name in
  ToLower method +:+ "-" +:+ ReplaceByte "/" "-" name.

Definition health_endpoint (alias method : string) : Endpoint :=
  mkEndpoint (endpointID method alias) method alias RiskRead "none"
    (if method ==s MethodGet then "status-json" else "status-only") (healthAliasSince alias).

Definition other_endpoints : list Endpoint :=
  [mkEndpoint "get-liveness" MethodGet "/liveness" RiskRead "none" "status-only" "";
   mkEndpoint "get-readiness" MethodGet "/readiness" RiskRead "none" "status-only" "";
   mkEndpoint "get-patroni" MethodGet "/patroni" RiskRead "none" "status-json" "";
   mkEndpoint "get-cluster" MethodGet "/cluster" RiskRead "none" "cluster-json" "";
   mkEndpoint "get-history" MethodGet "/history" RiskRead "none" "history-json" "";
   mkEndpoint "get-config" MethodGet "/config" RiskRead "none" "config-json" "";
   mkEndpoint "get-metrics" MethodGet "/metrics" RiskRead "none" "prometheus-text" "";
   mkEndpoint "get-failsafe" MethodGet "/failsafe" RiskPeerInternalRead "none" "failsafe-json" "";
   mkEndpoint "patch-config" MethodPatch "/config" RiskAdminWrite "config-patch-json" "config-json" "";
   mkEndpoint "put-config" MethodPut "/config" RiskAdminWrite "config-json" "config-json" "";
   mkEndpoint "post-reload" MethodPost "/reload" RiskAdminWrite "none" "text" "";
   mkEndpoint "post-failsafe" MethodPost "/failsafe" RiskPeerInternal "failsafe-peer-json" "text" "";
   mkEndpoint "post-sigterm" MethodPost "/sigterm" RiskTestPlatformDangerous "none" "text" "";
   mkEndpoint "post-restart" MethodPost "/restart" RiskAdminWrite "restart-json" "text" "";
   mkEndpoint "delete-restart" MethodDelete "/restart" RiskAdminWrite "none" "text" "";
   mkEndpoint "delete-switchover" MethodDelete "/switchover" RiskAdminWrite "none" "text" "";
   mkEndpoint "post-reinitialize" MethodPost "/reinitialize" RiskAdminWrite "reinitialize-json" "text" "";
   mkEndpoint "post-failover" MethodPost "/failover" RiskAvailabilityWrite "failover-json" "text" "";
   mkEndpoint "post-switchover" MethodPost "/switchover" RiskAvailabilityWrite "switchover-json" "text" "";
   mkEndpoint "post-citus" MethodPost "/citus" RiskPeerInternal "mpp-event-json" "text" "";
   mkEndpoint "post-mpp" MethodPost "/mpp" RiskPeerInternal "mpp-event-json" "text" ""].

(** The last loop of [EndpointCatalog]. *)
Definition fill_since (e : Endpoint) : Endpoint :=
  let since := if epSince e ==s "" then PatroniV3 else epSince e in
  let since := if epID e ==s "post-mpp" then PatroniV3MPP else since in
  mkEndpoint (epID e) (epMethod e) (epPath e) (epRisk e) (epRequest e) (epResponse e) since.

Definition EndpointCatalog : list Endpoint :=
  fill_since <$> (mjoin ((λ alias, health_endpoint alias <$> [MethodGet; MethodHead; MethodOptions]) <$> healthAliases)
                  ++ other_endpoints).

Definition EndpointCatalogFor (versionText : string) : goerror + list Endpoint :=
  match supported_version versionText with
  | inl err => inl err
  | inr version => inr (List.filter (λ e, AvailableIn e version) EndpointCatalog)
  end.
