(* ===== verification/RestLaws.v ===== *)
(** * What a REST exchange tells the control package

    The delivery state of an error is exactly what happened to the request, so
    the send state the control package derives from a reply is too; an answer
    without an error carries the whole body. *)

From S2P Require Import Prelude GoStrings GoErrors PgTypes GoTime Target Version Values Json Decode Dcs.
From S2P Require Import Effects Contract Samples Assoc Rest RestApi RestCatalog.

Section with_std.
  Context `{GoStd, HttpStd}.

(** ** Delivery *)

(** What became of a call, by the request it sent. *)
Definition exchange_state (client : Client) (log : list HTTPRequest) : SendState :=
  match log with
  | [] => SendNotSent
  | request :: _ => match hcDo (httpClient client) request with
                    | ExFailed true _ => SendMaybeSent
                    | ExFailed false _ => SendNotSent
                    | ExAnswered _ => SendAccepted
                    end
  end.

(** The result of an exchange, seen through its request. *)
Inductive executed (client : Client) (method endpoint : string) : sent (wireResponse * option goerror) → Prop :=
| executed_unsent kind cause :
    executed client method endpoint
      ([], (no_wire, Some (newError kind method endpoint patroniE.DeliveryNotSent 0 cause)))
| executed_failed request wrote err :
    hcDo (httpClient client) request = ExFailed wrote err →
    executed client method endpoint
      ([request], (no_wire, Some (newError patroniE.ErrorTransport method endpoint
                                    (if wrote then patroniE.DeliveryMaybeSent else patroniE.DeliveryNotSent) 0 err)))
| executed_answered request response :
    hcDo (httpClient client) request = ExAnswered response →
    executed client method endpoint ([request], receive client method endpoint response).

Lemma execute_executed client ctxNil method baseURL endpoint query body :
  executed client method endpoint (execute (Some client) ctxNil method baseURL endpoint query body).
Proof.
  unfold execute, failure. destruct ctxNil; [constructor|].
  destruct (joinEndpoint _ _ _) as [err|url]; [constructor|]. destruct (negb _); [constructor|].
  destruct (match authorizer client with Some _ => _ | None => _ end) as [err|request]; [constructor|].
  destruct (hcDo _ _) eqn:E; [by apply executed_failed|by apply executed_answered].
Qed.

(** An answer keeps the status, and an error about it says so. *)
Lemma receive_spec client method endpoint response :
  let '(wire, err) := receive client method endpoint response in
  wireStatus wire = hrStatus response ∧
  (err = None ∨ ∃ kind cause, err = Some (newError kind method endpoint patroniE.DeliveryResponseReceived (hrStatus response) cause)).
Proof.
  unfold receive. destruct (read_body _ _) as [raw readErr]. destruct (_ <? _)%Z; [split; [done|eauto]|].
  destruct readErr; [split; [done|eauto]|]. destruct (hrCloseErr response); split; eauto.
Qed.

Lemma send_state_error kind method endpoint delivery status cause :
  patroniSendState (Some (newError kind method endpoint delivery status cause)) 0 =
    match delivery with
    | patroniE.DeliveryNotSent => SendNotSent
    | patroniE.DeliveryMaybeSent => SendMaybeSent
    | patroniE.DeliveryResponseReceived => SendAccepted
    | _ => SendMaybeSent
    end.
Proof. by destruct delivery. Qed.

Lemma send_state_status err status : status ≠ 0%Z → patroniSendState err status = SendAccepted.
Proof. intros Hne%Z.eqb_neq. unfold patroniSendState. by rewrite Hne. Qed.

(** Every answer has a status. *)
Definition answers_have_status (client : Client) : Prop :=
  ∀ request response, hcDo (httpClient client) request = ExAnswered response → hrStatus response ≠ 0%Z.

(** The send state of any result that keeps the status and the error. *)
Lemma executed_send_state client method endpoint log wire err :
  answers_have_status client → executed client method endpoint (log, (wire, err)) →
  patroniSendState err (wireStatus wire) = exchange_state client log ∧ length log ≤ 1.
Proof.
  intros Hs He. inversion He as [kind cause|request wrote e E|request response E]; subst; clear He.
  - split; [apply send_state_error|cbn; lia].
  - cbn. rewrite E. split; [by destruct wrote|lia].
  - pose proof (receive_spec client method endpoint response) as Hr. match goal with Heq : receive _ _ _ _ = _ |- _ => rewrite Heq in Hr end. destruct Hr as [-> _].
    cbn. rewrite E. split; [by apply send_state_status, Hs with request|lia].
Qed.

(** A result of the client that says what became of its request. *)
Definition says {T} (client : Client) (r : sent (Response T * option goerror)) : Prop :=
  patroniSendState r.2.2 (rpStatusCode r.2.1) = exchange_state client r.1 ∧ length r.1 ≤ 1.

Lemma sendForText_says client ctxNil method baseURL endpoint body :
  answers_have_status client → says client (sendForText (Some client) ctxNil method baseURL endpoint body).
Proof.
  intros Hs. unfold sendForText. pose proof (execute_executed client ctxNil method baseURL endpoint [] body) as He.
  destruct (execute _ _ _ _ _ _ _) as [log [wire err]]. by apply executed_send_state in He.
Qed.

Lemma post_json_says client ctxNil baseURL endpoint fields :
  answers_have_status client → says client (post_json (Some client) ctxNil baseURL endpoint fields).
Proof.
  intros Hs. unfold post_json, sendJSONForText, marshalRequest. destruct (Marshal_struct fields) as [body|].
  - by apply sendForText_says.
  - split; [done|cbn; lia].
Qed.

Lemma jsonResponse_status {T} `{Zero T} (read : value → option T) wire method endpoint decode :
  let r := jsonResponse read wire method endpoint decode in
  rpStatusCode r.1 = wireStatus wire ∧
  (r.2 = None ∨ ∃ cause, r.2 = Some (newError patroniE.ErrorDecode method endpoint patroniE.DeliveryResponseReceived (wireStatus wire) cause)).
Proof. unfold jsonResponse. repeat case_match; split; eauto. Qed.

Lemma sendJSONForJSON_says {T} `{Zero T} (read : value → option T) client ctxNil method baseURL endpoint request decode :
  answers_have_status client →
  says client (sendJSONForJSON read (Some client) ctxNil method baseURL endpoint request decode).
Proof.
  intros Hs. unfold sendJSONForJSON, marshalRequest. destruct request as [body|]; [|split; [done|cbn; lia]].
  pose proof (execute_executed client ctxNil method baseURL endpoint [] (Some body)) as He.
  destruct (execute _ _ _ _ _ _ _) as [log [wire err]]. pose proof (executed_send_state _ _ _ _ _ _ Hs He) as Hx.
  destruct err as [err|]; [exact Hx|]. unfold says. cbn [fst snd].
  destruct (jsonResponse_status read wire method endpoint (decode && success (wireStatus wire))) as [Hst _].
  rewrite Hst. inversion He as [| |rq response E]; subst.
  pose proof (receive_spec client method endpoint response) as Hr. match goal with Heq : receive _ _ _ _ = _ |- _ => rewrite Heq in Hr end. destruct Hr as [Hw _].
  rewrite Hw. rewrite send_state_status by by eapply Hs. cbn. rewrite E. split; [done|lia].
Qed.

(** The replies that carry a status and an error. *)
Definition write_reply (c : call) : reply c → option (Z * option goerror) :=
  match c return reply c → option (Z * option goerror) with
  | CPostFailover _ _ | CPostSwitchover _ _ | CDeleteSwitchover _ | CPatchConfig _ _ | CPostReload _
  | CPostRestart _ _ | CDeleteRestart _ | CPostReinitialize _ _ _ => λ r, Some (rsStatusCode r.1, r.2)
  | _ => λ _, None
  end.

(** C6: a REST write of a control operation sends at most one request, and the
    send state the operation derives from the reply is what happened to it: not
    sent exactly when no request was written, maybe sent exactly when one was
    written and not answered, accepted exactly when an answer arrived, readable
    or not. *)
Theorem rest_call_send_state client ctxNil c log r status err :
  answers_have_status client → rest_call (Some client) ctxNil c = Some (log, r) → write_reply c r = Some (status, err) →
  patroniSendState err status = exchange_state client log ∧ length log ≤ 1.
Proof.
  intros Hs. destruct c; try done; intros [= <- <-] [= <- <-];
    first [by apply post_json_says | by apply sendForText_says | by apply sendJSONForJSON_says].
Qed.

(** ** Bodies *)

(** An answer is taken without an error exactly when its whole body, within
    the limit, was read and closed without one, and then its text is that body;
    the largest limit is the exception: it wraps, and every body reads empty. *)
Theorem receive_whole client method endpoint response :
  (0 < maxResponseBytes client <= max_int64)%Z →
  let '(wire, err) := receive client method endpoint response in
  (Z.of_nat (String.length (wireRaw wire)) <= maxResponseBytes client)%Z ∧
  if (maxResponseBytes client =? max_int64)%Z
  then wireRaw wire = "" ∧ (err = None ↔ hrCloseErr response = None)
  else (err = None ↔ (Z.of_nat (String.length (hrBody response)) <= maxResponseBytes client)%Z ∧
                     hrBodyErr response = None ∧ hrCloseErr response = None) ∧
       (err = None → wireRaw wire = hrBody response).
Proof.
  intros Hmax. unfold receive, read_body, read_limit.
  destruct (maxResponseBytes client =? max_int64)%Z eqn:Em; go_bool.
  { rewrite Em. change (int64_wrap (max_int64 + 1)) with min_int64. cbn.
    assert ((max_int64 <? Z.of_nat 0)%Z = false) as -> by done. cbn. split; [done|]. split; [done|]. by destruct (hrCloseErr response). }
  assert (int64_wrap (maxResponseBytes client + 1) = maxResponseBytes client + 1)%Z as ->.
  { unfold int64_wrap, max_int64 in *. rewrite Z.mod_small; lia. }
  rewrite (proj2 (Z.leb_gt (maxResponseBytes client + 1) 0)) by lia.
  destruct (maxResponseBytes client + 1 <=? Z.of_nat (String.length (hrBody response)))%Z eqn:El; go_bool.
  - assert ((maxResponseBytes client <? Z.of_nat (String.length (String.substring 0 (Z.to_nat (maxResponseBytes client + 1)) (hrBody response))))%Z = true) as ->.
    { apply Z.ltb_lt. rewrite length_substring. lia. }
    cbn. rewrite length_substring. split; [lia|]. split; [split; [done|lia]|done].
  - rewrite (proj2 (Z.ltb_ge _ _)) by lia. destruct (hrBodyErr response), (hrCloseErr response); cbn;
      (split; [lia|]); (split; [naive_solver lia|done]).
Qed.

(** ** History entries *)

(** A history entry that is written is read back as it was. *)
Theorem history_round_trip entry :
  int64 (heTimeline entry) → int64 (heLSN entry) → read_history_entry (history_value entry) = Some entry.
Proof.
  intros Ht Hl. destruct entry as [timeline lsn reason timestamp member extra]. unfold history_value. cbn [heTimeline heLSN heReason heTimestamp heMember heExtra] in *.
  destruct extra as [|x extra], (String.eqb_spec timestamp "") as [->|], (String.eqb_spec member "") as [->|];
    cbn; by rewrite !ParseInt_FormatInt.
Qed.

End with_std.

(** ** A sample client *)

Definition sample_http : HttpStd := {|
  Values_Encode := λ _, "";
  NewRequest_valid := λ _ _, true;
  base64 := λ text, text
|}.

(** Every POST is written and not answered. *)
Definition sample_client : Client :=
  mkClient (mkHTTPClient (λ request, if hqMethod request ==s MethodPost then ExFailed true EDeadlineExceeded
                                     else ExAnswered (mkHTTPResponse 200 [] "ok" None None)) None)
    None defaultTimeout 64 "go-patroni".

Lemma sample_answers : answers_have_status sample_client.
Proof. intros request response. cbn. destruct (_ ==s _); [done|]. by intros [= <-]. Qed.

Lemma rest_call_send_state_witness :
  ∃ log r err,
    @rest_call sample_std sample_http (Some sample_client) false (CPostReload "http://n1:8008") = Some (log, r) ∧
    write_reply (CPostReload "http://n1:8008") r = Some (0%Z, err) ∧ length log = 1 ∧
    patroniSendState err 0 = SendMaybeSent.
Proof.
  destruct (@rest_call sample_std sample_http (Some sample_client) false (CPostReload "http://n1:8008")) as [[log [response err]]|] eqn:E;
    [|discriminate E].
  exists log, (response, err), err. pose proof E as E'. vm_compute in E'. injection E' as Hlog Hr He.
  split; [reflexivity|]. split; [cbn; rewrite <- Hr; reflexivity|].
  split; [rewrite <- Hlog; reflexivity|].
  rewrite (proj1 (@rest_call_send_state sample_std sample_http sample_client false (CPostReload "http://n1:8008") log
             (response, err) 0%Z err sample_answers E ltac:(cbn; rewrite <- Hr; reflexivity))).
  rewrite <- Hlog. reflexivity.
Defined.

Lemma receive_whole_witness :
  let response := mkHTTPResponse 200 [] "partial" (Some EDeadlineExceeded) None in
  (0 < maxResponseBytes sample_client <= max_int64)%Z ∧
  (receive sample_client MethodGet "/metrics" response).2 ≠ None.
Proof.
  intros response. assert (0 < maxResponseBytes sample_client <= max_int64)%Z as Hmax by (split; [reflexivity|discriminate]).
  split; [exact Hmax|].
  pose proof (receive_whole sample_client MethodGet "/metrics" response Hmax) as Hr.
  destruct (receive sample_client MethodGet "/metrics" response) as [wire err]. destruct Hr as (_ & Hr & _).
  cbn. intros He. apply Hr in He as (_ & He & _). discriminate He.
Defined.

Lemma history_round_trip_witness :
  let entry := mkHistoryEntry 3 83886240 "no recovery target specified" "" "n2" [] in
  int64 3 ∧ read_history_entry (history_value entry) = Some entry.
Proof.
  intros entry. split; [split; discriminate|]. apply (history_round_trip entry); split; discriminate.
Defined.

(** * The catalogue, the features and the client agree

    An endpoint is available in a version exactly when the feature it belongs to
    is supported there, and every REST call of the control package is a row of
    the catalogue. *)

(** ** Versions *)

(** The feature whose versions bound an endpoint, if it is not in all of them. *)
Definition endpoint_feature (e : Endpoint) : option Feature :=
  if epPath e ==s "/mpp" then Some FeatureMPPEndpoint
  else if quorum_alias (epPath e) then Some FeatureQuorumStatus
  else None.

Lemma catalog_since e : e ∈ EndpointCatalog →
  epSince e = match endpoint_feature e with
              | Some FeatureMPPEndpoint => PatroniV3MPP
              | Some _ => PatroniV4
              | None => PatroniV3
              end.
Proof.
  intros He. assert (Forall (λ e, epSince e = match endpoint_feature e with
              | Some FeatureMPPEndpoint => PatroniV3MPP | Some _ => PatroniV4 | None => PatroniV3 end) EndpointCatalog) as Hall.
  { vm_compute. repeat constructor. }
  by apply (proj1 (Forall_forall _ _) Hall).
Qed.

Lemma supported_version_spec text v :
  supported_version text = inr v ↔
  ParseVersion text = inr v ∧ CheckPatroniVersion text = None ∧ VersionRange_Contains AuditedPatroniRange v = true.
Proof.
  unfold supported_version, CheckPatroniVersion. destruct (ParseVersion text) as [err|w]; [split; [done|by intros [? _]]|].
  destruct (VersionRange_Contains _ w) eqn:E; split; try done.
  - by intros [= ->].
  - by intros [[= ->] _].
  - intros [_ [? _]]. done.
Qed.

Lemma supported_ge_v3 v : VersionRange_Contains AuditedPatroniRange v = true → (0 <=? Version_Compare v (mkVersion 3 0 0 ""))%Z = true.
Proof. unfold VersionRange_Contains. by intros [? _]%andb_true_iff. Qed.

Lemma SupportsFeature_since text v f since s :
  ParseVersion text = inr v → CheckPatroniVersion text = None →
  find_first (λ c, bool_decide (c.1 = f)) featureCatalog = Some (f, since) → ParseVersion since = inr s →
  SupportsFeature text f = inr (0 <=? Version_Compare v s)%Z.
Proof. intros Hp Hc Hf Hs. unfold SupportsFeature. by rewrite Hp, Hc, Hf, Hs. Qed.

Lemma AvailableIn_feature text v e :
  ParseVersion text = inr v → CheckPatroniVersion text = None → VersionRange_Contains AuditedPatroniRange v = true →
  e ∈ EndpointCatalog →
  AvailableIn e v = match endpoint_feature e with
                    | Some f => match SupportsFeature text f with inr b => b | inl _ => false end
                    | None => true
                    end.
Proof.
  intros Hp Hc Hr He. unfold AvailableIn. rewrite (catalog_since e He), Hr. unfold endpoint_feature.
  destruct (_ ==s "/mpp"); [|destruct (quorum_alias _)].
  - rewrite (SupportsFeature_since text v _ PatroniV3MPP (mkVersion 3 3 0 "")) by done.
    change (ParseVersion PatroniV3MPP) with (inr (A := goerror) (mkVersion 3 3 0 "")). cbv iota. by rewrite andb_true_r.
  - rewrite (SupportsFeature_since text v _ PatroniV4 (mkVersion 4 0 0 "")) by done.
    change (ParseVersion PatroniV4) with (inr (A := goerror) (mkVersion 4 0 0 "")). cbv iota. by rewrite andb_true_r.
  - change (ParseVersion PatroniV3) with (inr (A := goerror) (mkVersion 3 0 0 "")). cbv iota. by rewrite supported_ge_v3.
Qed.

Lemma health_rows alias : alias ∈ healthAliases → Exists (λ e, epPath e = alias ∧ epMethod e = MethodGet) EndpointCatalog.
Proof.
  intros Ha. assert (Forall (λ a, existsb (λ e, (epPath e ==s a) && (epMethod e ==s MethodGet)) EndpointCatalog = true) healthAliases) as Hall.
  { vm_compute. repeat constructor. }
  apply (proj1 (Forall_forall _ _) Hall) in Ha. apply existsb_exists in Ha as (e & Hin & Hb%andb_true_iff).
  destruct Hb as [Hp%String.eqb_eq Hm%String.eqb_eq]. apply Exists_exists. exists e. by rewrite list_elem_of_In.
Qed.

#[local] Opaque EndpointCatalog.

Lemma EndpointCatalogFor_incl text l e : EndpointCatalogFor text = inr l → e ∈ l → e ∈ EndpointCatalog.
Proof.
  unfold EndpointCatalogFor. destruct (supported_version text) as [err|v]; [done|]. intros Hl.
  apply (inj inr) in Hl as <-. intros Hin. apply list_elem_of_In, filter_In in Hin as [Hin _]. by apply list_elem_of_In.
Qed.

(** For a version the client supports, the catalogue lists an endpoint
    exactly when the feature it belongs to is supported in that version (the
    other endpoints always), and a health alias is offered exactly when its
    GET row is listed. *)
Theorem catalog_features text l aliases :
  EndpointCatalogFor text = inr l → HealthAliasesFor text = inr aliases →
  (∀ e, e ∈ EndpointCatalog →
     e ∈ l ↔ match endpoint_feature e with Some f => SupportsFeature text f = inr true | None => True end) ∧
  (∀ alias, alias ∈ healthAliases →
     alias ∈ aliases ↔ ∃ e, e ∈ l ∧ epPath e = alias ∧ epMethod e = MethodGet).
Proof.
  unfold EndpointCatalogFor, HealthAliasesFor. destruct (supported_version text) as [err|v] eqn:Es; [done|].
  apply supported_version_spec in Es as (Hp & Hc & Hr). intros Hl Hal.
  apply (inj inr) in Hl as <-. apply (inj inr) in Hal as <-.
  assert (∀ e, e ∈ EndpointCatalog → e ∈ List.filter (λ e, AvailableIn e v) EndpointCatalog ↔
            match endpoint_feature e with Some f => SupportsFeature text f = inr true | None => True end) as Hrows.
  { intros e He. rewrite list_elem_of_In, filter_In, <- list_elem_of_In, (AvailableIn_feature text v e) by done.
    destruct (endpoint_feature e) as [f|]; [|naive_solver]. destruct (SupportsFeature text f) as [|[]]; naive_solver. }
  split; [done|]. intros alias Ha. rewrite list_elem_of_In, filter_In, <- list_elem_of_In.
  assert (healthAliasAvailableIn alias v = true ↔
    (quorum_alias alias = true → SupportsFeature text FeatureQuorumStatus = inr true)) as ->.
  { unfold healthAliasAvailableIn. rewrite (SupportsFeature_since text v _ PatroniV4 (mkVersion 4 0 0 "")) by done.
    change (ParseVersion PatroniV4) with (inr (A := goerror) (mkVersion 4 0 0 "")). cbv iota.
    destruct (quorum_alias alias); cbn; [|done]. split; [intros ->; reflexivity|].
    intros Hq. specialize (Hq eq_refl). apply (inj inr) in Hq. exact Hq. }
  assert (∀ e, epPath e = alias → endpoint_feature e = if quorum_alias alias then Some FeatureQuorumStatus else None) as Hf.
  { intros e He. unfold endpoint_feature. rewrite He. destruct (String.eqb_spec alias "/mpp") as [->|]; [|done].
    unfold healthAliases in Ha. set_solver. }
  split.
  - intros [_ Hq]. destruct (proj1 (Exists_exists _ _) (health_rows alias Ha)) as (e & Hin & Hpath & Hm).
    exists e. split; [|done]. apply Hrows; [done|]. rewrite (Hf e Hpath). destruct (quorum_alias alias); [by apply Hq|done].
  - intros (e & Hin & Hpath & _). split; [done|]. intros Hq.
    assert (e ∈ EndpointCatalog) as He by (apply list_elem_of_In, filter_In in Hin as [? _]; by apply list_elem_of_In).
    apply Hrows in Hin; [|done]. by rewrite (Hf e Hpath), Hq in Hin.
Qed.

#[local] Transparent EndpointCatalog.

Lemma catalog_features_witness :
  ∃ l aliases, EndpointCatalogFor "3.3.0" = inr l ∧ HealthAliasesFor "3.3.0" = inr aliases ∧
    SupportsFeature "3.3.0" FeatureQuorumStatus = inr false ∧ "/quorum" ∉ aliases.
Proof.
  destruct (EndpointCatalogFor "3.3.0") as [err|l] eqn:El; [vm_compute in El; discriminate El|].
  destruct (HealthAliasesFor "3.3.0") as [err|aliases] eqn:Ea; [vm_compute in Ea; discriminate Ea|].
  exists l, aliases. split; [reflexivity|]. split; [reflexivity|]. split; [vm_compute; reflexivity|].
  destruct (catalog_features "3.3.0" l aliases El Ea) as [Hrows Haliases].
  rewrite Haliases by (apply list_elem_of_In; cbn; tauto).
  intros (e & He & Hpath & _).
  assert (e ∈ EndpointCatalog) as Hin.
  { by eapply EndpointCatalogFor_incl. }
  apply Hrows in He; [|done]. unfold endpoint_feature in He. rewrite Hpath in He. vm_compute in He. discriminate He.
Defined.

(** ** The calls of the control package *)

Section calls.
  Context `{GoStd, HttpStd}.

(** The base URL of a REST call. *)
Definition call_url (c : call) : string :=
  match c with
  | CPostFailover url _ | CPostSwitchover url _ | CDeleteSwitchover url | CPatchConfig url _ | CPostReload url
  | CPostRestart url _ | CDeleteRestart url | CPostReinitialize url _ _ | CGetPatroni url => url
  | _ => ""
  end.

(** An authorizer adds to a request and leaves where it goes. *)
Definition authorizer_keeps (client : Client) : Prop :=
  ∀ authorize request request', authorizer client = Some authorize → authorize request = inr request' →
    hqMethod request' = hqMethod request ∧ hqURL request' = hqURL request.

Definition directed (method baseURL endpoint : string) (log : list HTTPRequest) : Prop :=
  ∀ request, request ∈ log → hqMethod request = method ∧ joinEndpoint baseURL endpoint [] = inr (hqURL request).

Lemma execute_directed client ctxNil method baseURL endpoint body :
  authorizer_keeps client → directed method baseURL endpoint (execute (Some client) ctxNil method baseURL endpoint [] body).1.
Proof.
  intros Hk request. unfold execute, failure. destruct ctxNil; [by intros ?%not_elem_of_nil|].
  destruct (joinEndpoint _ _ _) as [err|url]; [by intros ?%not_elem_of_nil|].
  destruct (negb _); [by intros ?%not_elem_of_nil|].
  destruct (authorizer client) as [authorize|] eqn:Ea.
  - destruct (authorize _) as [err|request'] eqn:Er; [by intros ?%not_elem_of_nil|].
    intros ->%list_elem_of_singleton. by destruct (Hk _ _ _ Ea Er) as [-> ->].
  - by intros ->%list_elem_of_singleton.
Qed.

Lemma sendForText_directed client ctxNil method baseURL endpoint body :
  authorizer_keeps client → directed method baseURL endpoint (sendForText (Some client) ctxNil method baseURL endpoint body).1.
Proof.
  intros Hk. unfold sendForText. pose proof (execute_directed client ctxNil method baseURL endpoint body Hk) as Hd.
  by destruct (execute _ _ _ _ _ _ _) as [log [wire err]].
Qed.

Lemma directed_nil method baseURL endpoint : directed method baseURL endpoint [].
Proof. by intros ? ?%not_elem_of_nil. Qed.

Lemma post_json_directed client ctxNil baseURL endpoint fields :
  authorizer_keeps client → directed MethodPost baseURL endpoint (post_json (Some client) ctxNil baseURL endpoint fields).1.
Proof.
  intros Hk. unfold post_json, sendJSONForText, marshalRequest.
  destruct (Marshal_struct fields); [by apply sendForText_directed|apply directed_nil].
Qed.

Lemma getJSON_directed {T} `{Zero T} (read : value → option T) client ctxNil baseURL endpoint decode :
  authorizer_keeps client → directed MethodGet baseURL endpoint (getJSON read (Some client) ctxNil baseURL endpoint [] decode).1.
Proof.
  intros Hk. unfold getJSON. pose proof (execute_directed client ctxNil MethodGet baseURL endpoint None Hk) as Hd.
  by destruct (execute _ _ _ _ _ _ _) as [log [wire err]].
Qed.

Lemma sendJSONForJSON_directed {T} `{Zero T} (read : value → option T) client ctxNil method baseURL endpoint request decode :
  authorizer_keeps client →
  directed method baseURL endpoint (sendJSONForJSON read (Some client) ctxNil method baseURL endpoint request decode).1.
Proof.
  intros Hk. unfold sendJSONForJSON, marshalRequest. destruct request as [body|]; [|apply directed_nil].
  pose proof (execute_directed client ctxNil method baseURL endpoint (Some body) Hk) as Hd.
  by destruct (execute _ _ _ _ _ _ _) as [log [wire err]].
Qed.

(** The row of a call in the catalogue. *)
Definition call_row (method path : string) : option Endpoint :=
  find_first (λ e, (epMethod e ==s method) && (epPath e ==s path)) EndpointCatalog.

(** A REST call of a control operation goes to the row of the catalogue for
    its method and path, below the base URL it was given: a write to a row of
    administrative or availability risk, never to the endpoints meant for peers
    or for stopping Patroni, and a read to a row of read risk. *)
Theorem rest_call_catalogued client ctxNil c log r :
  authorizer_keeps client → rest_call (Some client) ctxNil c = Some (log, r) →
  ∃ e, e ∈ EndpointCatalog ∧
    (if is_write c then epRisk e = RiskAdminWrite ∨ epRisk e = RiskAvailabilityWrite else epRisk e = RiskRead) ∧
    directed (epMethod e) (call_url c) (epPath e) log.
Proof.
  intros Hk.
  assert (∀ method path e, call_row method path = Some e → e ∈ EndpointCatalog ∧ epMethod e = method ∧ epPath e = path) as Hrow.
  { intros method path e [Hin Hb]%find_first_Some. go_bool. by subst. }
  assert (∀ method path (risk : Risk → Prop) log,
    match call_row method path with Some e => risk (epRisk e) | None => False end →
    directed method (call_url c) path log →
    ∃ e, e ∈ EndpointCatalog ∧ risk (epRisk e) ∧ directed (epMethod e) (call_url c) (epPath e) log) as Hfind.
  { intros method path risk log' Hrisk Hd. destruct (call_row method path) as [e|] eqn:E; [|done].
    destruct (Hrow _ _ _ E) as (Hin & Hm & Hpath). exists e. rewrite Hm, Hpath. done. }
  destruct c; try done; intros [= <- _]; cbn [is_write].
  - apply (Hfind MethodPost "/failover" (λ k, k = RiskAdminWrite ∨ k = RiskAvailabilityWrite)); [vm_compute; auto|by apply post_json_directed].
  - apply (Hfind MethodPost "/switchover" (λ k, k = RiskAdminWrite ∨ k = RiskAvailabilityWrite)); [vm_compute; auto|by apply post_json_directed].
  - apply (Hfind MethodDelete "/switchover" (λ k, k = RiskAdminWrite ∨ k = RiskAvailabilityWrite)); [vm_compute; auto|by apply sendForText_directed].
  - apply (Hfind MethodPatch "/config" (λ k, k = RiskAdminWrite ∨ k = RiskAvailabilityWrite)); [vm_compute; auto|by apply sendJSONForJSON_directed].
  - apply (Hfind MethodPost "/reload" (λ k, k = RiskAdminWrite ∨ k = RiskAvailabilityWrite)); [vm_compute; auto|by apply sendForText_directed].
  - apply (Hfind MethodPost "/restart" (λ k, k = RiskAdminWrite ∨ k = RiskAvailabilityWrite)); [vm_compute; auto|by apply post_json_directed].
  - apply (Hfind MethodDelete "/restart" (λ k, k = RiskAdminWrite ∨ k = RiskAvailabilityWrite)); [vm_compute; auto|by apply sendForText_directed].
  - apply (Hfind MethodPost "/reinitialize" (λ k, k = RiskAdminWrite ∨ k = RiskAvailabilityWrite)); [vm_compute; auto|by apply post_json_directed].
  - apply (Hfind MethodGet "/patroni" (λ k, k = RiskRead)); [vm_compute; auto|by apply getJSON_directed].
Qed.

End calls.

(** A client that answers everything. *)
Definition answering_client : Client :=
  mkClient (mkHTTPClient (λ _, ExAnswered (mkHTTPResponse 200 [] "ok" None None)) None) None defaultTimeout 64 "".

Definition catalog_http : HttpStd := {|
  Values_Encode := λ _, "";
  NewRequest_valid := λ _ _, true;
  base64 := λ text, text
|}.

Lemma rest_call_catalogued_witness :
  ∃ log r e, @rest_call sample_std catalog_http (Some answering_client) false (CPostReload "http://n1:8008") = Some (log, r) ∧
    e ∈ EndpointCatalog ∧ (hqMethod <$> log) = [epMethod e].
Proof.
  destruct (@rest_call sample_std catalog_http (Some answering_client) false (CPostReload "http://n1:8008")) as [[log r]|] eqn:E;
    [|discriminate E].
  destruct (@rest_call_catalogued sample_std catalog_http answering_client false (CPostReload "http://n1:8008") log r
              ltac:(intros ??? [=]) E) as (e & He & _ & Hd).
  exists log, r, e. split; [reflexivity|]. split; [exact He|].
  vm_compute in E. injection E as <- _. cbn. f_equal. apply (proj1 (Hd _ ltac:(left))).
Defined.
