(* ===== verification/Runtime.v ===== *)
(** * The runtime: [runtime/runtime.go] and [internal/version/version.go]

    [Open] resolves the configuration, opens the etcd client and the REST
    transport and builds the control service over them; [resource_event]s are
    the openings and closings of those two.  The name server, the dialer, the
    files and the process environment are parameters. *)

From S2P Require Import Prelude GoStrings GoErrors PgTypes GoTime Target Version Values Effects Contract Assoc.
From S2P Require Config ConfigProject Tls Rest Etcd Postgres.
Import Config(Document, Overrides, Environment, ymap).

(** ** [internal/version] *)

Record Module := mkModule { modPath : string; modVersion : string; modReplace : option string }.

(** [debug.BuildInfo]; a replacement by the version it was replaced with. *)
Record BuildInfo := mkBuildInfo { buildMain : Module; buildDeps : list Module }.

Definition modulePath : string := "github.com/pgsty/go-patroni".
Definition SupportedPatroni : string := ">=3.0.0,<5.0.0".

Definition normalizedModuleVersion (reported fallback : string) : string :=
  let reported := TrimSpace reported in
  if (reported ==s "") || (reported ==s "(devel)") then fallback else TrimPrefix reported "v".

Definition moduleVersion (path reported fallback : string) : string :=
  if path !=s modulePath then fallback else normalizedModuleVersion reported fallback.

Definition buildModuleVersion (build : option BuildInfo) (fallback : string) : string :=
  match build with
  | None => fallback
  | Some build =>
      if modPath (buildMain build) ==s modulePath
      then moduleVersion (modPath (buildMain build)) (modVersion (buildMain build)) fallback
      else match find_first (λ d, modPath d ==s modulePath) (buildDeps build) with
           | None => fallback
           | Some d => normalizedModuleVersion (deref (modVersion d) (modReplace d)) fallback
           end
  end.

(** The variables the linker sets, [debug.ReadBuildInfo] and [runtime.Version]. *)
Record build := mkBuild {
  ldVersion : string; ldCommit : string; ldBuildTime : string;
  readBuildInfo : option BuildInfo;
  goVersion : string
}.

Definition current_version (b : build) : string :=
  if ldVersion b ==s "0.0.0-dev"
  then match readBuildInfo b with Some info => buildModuleVersion (Some info) (ldVersion b) | None => ldVersion b end
  else ldVersion b.

Definition MachineSchema : string := "patroni.pgsty.com/v1alpha1".

Definition version_String (b : build) : string :=
  current_version b +:+ " (commit=" +:+ ldCommit b +:+ ", built=" +:+ ldBuildTime b +:+ ", go=" +:+ goVersion b +:+
  ", patroni=" +:+ SupportedPatroni +:+ ", schema=" +:+ MachineSchema +:+ ")".

(** ** Errors and resources *)

Inductive rerror :=
| RText (message : string)
| RConfig (err : Config.cerror)
| RTLS (err : Tls.tls_error)
| RGo (err : goerror).

Inductive resource := EtcdStore | RESTTransport.
Inductive resource_event := Opened (r : resource) | Closed (r : resource).

(** Results with the openings and closings on the way. *)
Definition traced (A : Type) : Type := list resource_event * A.

(** ** The environment *)

Record EnvironmentOptions := mkEnvironmentOptions {
  eoLoad : Config.LoadRequest;
  eoOverrides : Overrides;
  eoDocument : option Document;
  eoUserAgent : string;
  eoProductVersion : string;
  eoSupportedPatroniRange : option VersionRange
}.

Record REnvironment := mkREnvironment {
  reDocument : option Document;
  reOverrides : Overrides;
  reUserAgent : string;
  reProductVersion : string;
  reSupportedRange : option VersionRange
}.

Record RuntimeOptions := mkRuntimeOptions {
  roContext : string;
  roOperation : Config.Operation;
  roExplicitScope : string;
  roExplicitGroup : option Z;
  roUseConfiguredGroup : bool;
  roAllowMissingScope : bool
}.

(** What a runtime holds: the service, and the settings of its clients. *)
Record RRuntime := mkRuntime {
  rtService : Service;
  rtResolved : ConfigProject.Resolved;
  rtTarget : Target;
  rtWarnings : list string;
  rtEtcd : option Etcd.ClientConfig;
  rtREST : option Rest.Client;
  rtPostgres : option Postgres.Client;
  rtClosers : list resource;
  rtClosed : bool                    (* closeOnce *)
}.

Section with_std.
  Context `{GoStd, Etcd.EtcdClient, Tls.Crypto, Config.YamlStd, Rest.HttpStd}.

(** The rest of the world. *)
Record world := mkWorld {
  wHost : Config.host;
  wBuild : build;
  wTLS : Tls.tls_env;
  wDial : Etcd.ClientConfig → option goerror;
  wLookupSRV : string → string → string → goerror + list (string * Z);   (* net.Resolver.LookupSRV *)
  wRoundTrip : Tls.Config → Rest.HTTPRequest → Rest.exchange;            (* http.Transport *)
  wDefaultClient : Rest.HTTPClient;
  wNative : Postgres.Connector;
  wPlanKey : option string;
  wNow : Time
}.

Definition orElse (value fallback : string) : string := if value ==s "" then fallback else value.

(** [NewEnvironment]; [ctxNil] when it has no context. *)
Definition NewEnvironment (w : world) (ctxNil : bool) (options : EnvironmentOptions) : rerror + REnvironment :=
  if ctxNil then inl (RText "patroni environment requires a context")
  else
    match match eoDocument options with
          | Some document => Config.COk document
          | None => Config.Load (wHost w) (eoLoad options)
          end with
    | Config.CErr err => inl (RConfig err)
    | Config.COk document =>
        let environment range :=
          mkREnvironment (Some document) (eoOverrides options)
            (orElse (TrimSpace (eoUserAgent options)) ("go-patroni/" +:+ current_version (wBuild w)))
            (orElse (TrimSpace (eoProductVersion options)) (version_String (wBuild w))) range in
        match eoSupportedPatroniRange options with
        | None => inr (environment None)
        | Some r => match VersionRange_Validate r with
                    | Some err => inl (RGo (EWrap "patroni environment version range" err))
                    | None => inr (environment (Some r))
                    end
        end
    end.

Definition Environment_ContextNames (environment : option REnvironment) : list string :=
  match environment with
  | Some e => match reDocument e with Some d => Config.ContextNames (Some d) | None => [] end
  | None => []
  end.

Definition Environment_DefaultContext (environment : option REnvironment) : string :=
  match environment with
  | Some e => match reDocument e with Some d => Config.DefaultContext (Some d) | None => DefaultContext end
  | None => DefaultContext
  end.

(** [document.Resolve]; the fuel of its contexts never runs out. *)
Definition resolve_document (w : world) (d : Document) (request : Config.ResolveRequest) : rerror + ConfigProject.Resolved :=
  match ConfigProject.Resolve (wHost w) (Some d) request with
  | Some (Config.COk resolved) => inr resolved
  | Some (Config.CErr err) => inl (RConfig err)
  | None => inl (RText "out of fuel")
  end.

Definition initialized (environment : option REnvironment) : rerror + (REnvironment * Document) :=
  match environment with
  | Some e => match reDocument e with Some d => inr (e, d) | None => inl (RText "patroni environment is not initialized") end
  | None => inl (RText "patroni environment is not initialized")
  end.

Definition Environment_Resolve (w : world) (environment : option REnvironment) (contextName : string)
    : rerror + ConfigProject.Resolved :=
  match initialized environment with
  | inl err => inl err
  | inr (e, d) => resolve_document w d (Config.mkResolveRequest contextName None (reOverrides e))
  end.

Definition warningMessages (warnings : list Config.Warning) : list string := Config.warningMessage <$> warnings.

Definition resolved_target (resolved : ConfigProject.Resolved) (scope : string) (group : option Z) : Target :=
  Normalize (mkTarget (ConfigProject.resContext resolved) (ConfigProject.resNamespace resolved) scope group "").

(** [control.NewConfigurationService] *)
Definition NewConfigurationService (w : world) : goerror + Service :=
  NewService (version_String (wBuild w)) (mkCollaborators true false false false false false false) (wPlanKey w) (wNow w)
    (mkServiceOptions 0 0 None "").

Definition OpenConfiguration (w : world) (ctxNil : bool) (environment : option REnvironment) (contextName : string)
    : rerror + RRuntime :=
  if ctxNil then inl (RText "patroni configuration runtime requires a context")
  else match initialized environment with
  | inl err => inl err
  | inr (e, d) =>
      match Environment_Resolve w environment contextName with
      | inl err => inl err
      | inr resolved =>
          match ConfigProject.Resolved_Validate resolved Config.OperationInspect "" with
          | Some err => inl (RConfig err)
          | None =>
              match NewConfigurationService w with
              | inl err => inl (RGo err)
              | inr service =>
                  inr (mkRuntime service resolved
                         (resolved_target resolved (ConfigProject.resScope resolved) (ConfigProject.resGroup resolved))
                         (warningMessages (ConfigProject.resWarnings resolved)) None None None [] false)
              end
          end
      end
  end.

(** ** [resolveEtcdEndpoints] *)

(** [strings.SplitN(name, ".", 3)] *)
Definition split3 (name : string) : option (string * string * string) :=
  match Cut "." name with
  | Some (a, rest) => match Cut "." rest with Some (b, c) => Some (a, b, c) | None => None end
  | None => None
  end.

(** The service, protocol and name of an SRV locator. *)
Definition srv_query (locator : string) : option (string * string * string) :=
  let name := TrimSpace locator in
  if HasPrefix name "_" then
    match split3 name with
    | Some (a, b, c) => if HasPrefix b "_" then Some (TrimPrefix a "_", TrimPrefix b "_", c) else None
    | None => None
    end
  else Some ("etcd-client", "tcp", name).

Definition lookupEtcdSRV (w : world) (locator : string) : rerror + list string :=
  match srv_query locator with
  | None => inl (RText "etcd3 srv locator is invalid")
  | Some (service, protocol, name) =>
      match wLookupSRV w service protocol name with
      | inl err => inl (RGo (EWrap "resolve etcd3 srv locator" err))
      | inr records =>
          match (λ record, ConfigProject.JoinHostPort (TrimSuffix record.1 ".") (FormatInt record.2)) <$> records with
          | [] => inl (RText "etcd3 srv locator returned no endpoints")
          | endpoints => inr endpoints
          end
      end
  end.

Definition resolveEtcdEndpoints (w : world) (projected : ConfigProject.Etcd3Config) : rerror + list string :=
  match ConfigProject.Locator projected with
  | ConfigProject.LocatorHost | ConfigProject.LocatorHosts => inr (ConfigProject.Endpoints projected)
  | ConfigProject.LocatorURL => inr [ConfigProject.etcdURL projected]
  | ConfigProject.LocatorProxy => inr [ConfigProject.etcdProxy projected]
  | ConfigProject.LocatorSRV => lookupEtcdSRV w (ConfigProject.etcdSRV projected)
  | ConfigProject.LocatorNone => inl (RText "etcd3 locator is not configured")
  end.

(** ** [Open] *)

Definition with_group_override (o : Overrides) (group : option Z) : Overrides :=
  match group with
  | None => o
  | Some _ => Config.mkOverrides (Config.ovContext o) (Config.ovDCSURL o) (Config.ovNamespace o) (Config.ovScope o)
                group (Config.ovInsecure o)
  end.

Definition tls_options (t : ConfigProject.TLSConfig) (insecure : bool) : Tls.TLSOptions :=
  Tls.WithKeyPassword
    (Tls.mkTLSOptions (ConfigProject.CAFile t) (ConfigProject.CertFile t) (ConfigProject.KeyFile t) "" insecure false "")
    (Config.Reveal (ConfigProject.KeyPassword t)).

(** Whether the etcd client gets a TLS configuration. *)
Definition etcd_tls (e : ConfigProject.Etcd3Config) : bool :=
  (ConfigProject.Protocol e ==s "https") || (ConfigProject.CAFile (ConfigProject.etcdTLS e) !=s "")
  || (ConfigProject.CertFile (ConfigProject.etcdTLS e) !=s "").

Definition etcd_options (resolved : ConfigProject.Resolved) (endpoints : list string) : Etcd.Options :=
  let e := ConfigProject.resEtcd3 resolved in
  let n := ConfigProject.resNetwork resolved in
  Etcd.WithPassword
    (Etcd.mkOptions endpoints (etcd_tls e) (ConfigProject.etcdUsername e) (ConfigProject.DCSDialTimeout n)
       (ConfigProject.DCSRequestTimeout n) 0 "")
    (Config.Reveal (ConfigProject.etcdPassword e)).

Definition rest_authorizer (r : ConfigProject.RESTConfig) : option Rest.Authorizer :=
  if (ConfigProject.restUsername r !=s "") || Config.Secret_IsSet (ConfigProject.restPassword r)
  then Some (Rest.NewBasicAuth (ConfigProject.restUsername r) (Config.Reveal (ConfigProject.restPassword r)))
  else None.

Definition etcd_transport_error (w : world) (e : ConfigProject.Etcd3Config) : option rerror :=
  if etcd_tls e then
    match (Tls.NewHTTPTransport (Some (wTLS w)) (tls_options (ConfigProject.etcdTLS e) false)).1 with
    | Tls.TErr err => Some (RTLS err)
    | Tls.TOk _ => None
    end
  else None.

(** The clients and the service over an open store and transport. *)
Definition assemble (w : world) (e : REnvironment) (resolved : ConfigProject.Resolved) (target : Target)
    (etcd : Etcd.ClientConfig) (transport : Tls.Config) : rerror + RRuntime :=
  let n := ConfigProject.resNetwork resolved in
  match Rest.NewClient (wDefaultClient w)
          (Rest.mkClientOptions None (Some (wRoundTrip w transport)) (rest_authorizer (ConfigProject.resREST resolved))
             (ConfigProject.PatroniTimeout n) 0 (reUserAgent e)) with
  | None => inl (RText "patroni client: HTTPClient and Transport are mutually exclusive")
  | Some restClient =>
      match Postgres.NewClient (wNative w)
              (Postgres.mkClientOptions None (ConfigProject.PostgresTimeout n) (ConfigProject.PostgresCloseTimeout n)
                 (PgTypes.mkLimits 0 0 false)) with
      | inl err => inl (RGo err)
      | inr queryClient =>
          match NewService (version_String (wBuild w)) (mkCollaborators true true true true true true true)
                  (wPlanKey w) (wNow w) (mkServiceOptions 0 0 (reSupportedRange e) (reProductVersion e)) with
          | inl err => inl (RGo err)
          | inr service =>
              inr (mkRuntime service resolved target (warningMessages (ConfigProject.resWarnings resolved))
                     (Some etcd) (Some restClient) (Some queryClient) [RESTTransport; EtcdStore] false)
          end
      end
  end.

(** The store and the transport, closed again when what follows fails. *)
Definition open_clients (w : world) (ctx : Etcd.Ctx) (e : REnvironment) (resolved : ConfigProject.Resolved) (target : Target)
    (endpoints : list string) : traced (rerror + RRuntime) :=
  let options := etcd_options resolved endpoints in
  match Etcd.New (wDial w) ctx options with
  | inl err => ([], inl (RGo err))
  | inr _ =>
      let dialTimeout := if (Etcd.opDialTimeout options <=? 0)%Z then Etcd.defaultDialTimeout else Etcd.opDialTimeout options in
      let etcd := Etcd.mkClientConfig endpoints dialTimeout (Etcd.opUsername options)
                    (Etcd.opPassword options) (Etcd.opTLS options) in
      let rest := ConfigProject.resREST resolved in
      match (Tls.NewHTTPTransport (Some (wTLS w)) (tls_options (ConfigProject.restTLS rest) (ConfigProject.Insecure rest))).1 with
      | Tls.TErr err => ([Opened EtcdStore; Closed EtcdStore], inl (RTLS err))
      | Tls.TOk transport =>
          match assemble w e resolved target etcd transport with
          | inl err => ([Opened EtcdStore; Opened RESTTransport; Closed RESTTransport; Closed EtcdStore], inl err)
          | inr runtime => ([Opened EtcdStore; Opened RESTTransport], inr runtime)
          end
      end
  end.

Definition validation_operation (options : RuntimeOptions) (resolved : ConfigProject.Resolved) : Config.Operation :=
  if roAllowMissingScope options && (TrimSpace (roExplicitScope options) ==s "")
     && (TrimSpace (ConfigProject.resScope resolved) ==s "")
  then Config.OperationDiscover else roOperation options.

Definition open_target (options : RuntimeOptions) (resolved : ConfigProject.Resolved) : Target :=
  let group := match roExplicitGroup options with
               | Some g => Some g
               | None => if roUseConfiguredGroup options then ConfigProject.resGroup resolved else None
               end in
  resolved_target resolved (orElse (TrimSpace (roExplicitScope options)) (ConfigProject.resScope resolved)) group.

Definition Open (w : world) (ctx : Etcd.Ctx) (environment : option REnvironment) (options : RuntimeOptions)
    : traced (rerror + RRuntime) :=
  match ctx with
  | Etcd.CtxNil => ([], inl (RText "patroni runtime requires a context"))
  | _ =>
      match initialized environment with
      | inl err => ([], inl err)
      | inr (e, d) =>
          match resolve_document w d
                  (Config.mkResolveRequest (roContext options) None (with_group_override (reOverrides e) (roExplicitGroup options))) with
          | inl err => ([], inl err)
          | inr resolved =>
              match ConfigProject.Resolved_Validate resolved (validation_operation options resolved) (roExplicitScope options) with
              | Some err => ([], inl (RConfig err))
              | None =>
                  match resolveEtcdEndpoints w (ConfigProject.resEtcd3 resolved) with
                  | inl err => ([], inl err)
                  | inr endpoints =>
                      match etcd_transport_error w (ConfigProject.resEtcd3 resolved) with
                      | Some err => ([], inl err)
                      | None => open_clients w ctx e resolved (open_target options resolved) endpoints
                      end
                  end
              end
          end
      end
  end.

(** [Close]: once. *)
Definition Close (runtime : RRuntime) : traced RRuntime :=
  if rtClosed runtime then ([], runtime)
  else (Closed <$> rtClosers runtime,
        mkRuntime (rtService runtime) (rtResolved runtime) (rtTarget runtime) (rtWarnings runtime) (rtEtcd runtime)
          (rtREST runtime) (rtPostgres runtime) (rtClosers runtime) true).

End with_std.
