(* ===== verification/Inspect.v ===== *)
(** * Inspecting the configuration: [control/inspect.go]

    The effective configuration, redacted, with its sources and timeouts, as a
    result of the control package.  No call leaves the process. *)

From S2P Require Import Prelude GoStrings GoErrors GoTime Target Values Effects Contract Assoc.
From S2P Require Config ConfigProject.
Import Config(Layer, Source, Warning, ymap, yvalue).

Record ConfigurationSource := mkConfigurationSource { csField : string; csLayer : option Layer; csName : string }.

Record NetworkTimeoutInspection := mkTimeouts {
  DNSLookupMilliseconds : Z;
  DCSDialMilliseconds : Z;
  DCSRequestMilliseconds : Z;
  PatroniRequestMilliseconds : Z;
  PostgresQueryMilliseconds : Z;
  PostgresCloseMilliseconds : Z
}.

Record ConfigurationInspection := mkInspection {
  ciTarget : Target;
  ciEffective : yvalue;
  ciNetworkTimeouts : NetworkTimeoutInspection;
  ciSources : list ConfigurationSource;
  ciWarnings : list Warning
}.

#[export] Instance zero_inspection : Zero ConfigurationInspection :=
  mkInspection zero Config.YNull (mkTimeouts 0 0 0 0 0 0) [] [].

(** [Duration.Milliseconds] *)
Definition Milliseconds (d : Z) : Z := Z.quot d 1000000.

Definition inspectNetworkTimeouts (n : ConfigProject.NetworkConfig) : NetworkTimeoutInspection :=
  mkTimeouts (Milliseconds (ConfigProject.DNSLookupTimeout n)) (Milliseconds (ConfigProject.DCSDialTimeout n))
    (Milliseconds (ConfigProject.DCSRequestTimeout n)) (Milliseconds (ConfigProject.PatroniTimeout n))
    (Milliseconds (ConfigProject.PostgresTimeout n)) (Milliseconds (ConfigProject.PostgresCloseTimeout n)).

(** The sources in the order of their fields; a field has one. *)
Definition inspect_sources (sources : gmap string Source) : list ConfigurationSource :=
  sort_by csField
    ((λ kv, mkConfigurationSource kv.1 (Config.sourceLayer kv.2) (Config.sourceName kv.2)) <$> map_to_list sources).



Definition InspectConfiguration (service : Service) (ctx : bool) (resolved : ConfigProject.Resolved)
    : prog (Result ConfigurationInspection) :=
  operationID ← operationID;
  let target := Normalize (mkTarget (ConfigProject.resContext resolved) (ConfigProject.resNamespace resolved)
                             (ConfigProject.resScope resolved) (ConfigProject.resGroup resolved) "") in
  let fail category message cause :=
    mret (failedRead service operationID "inspect-config" target PathLocal category false message cause []) in
  if negb ctx then fail CategoryUsage "inspect-config requires a context" None
  else
    canceled ← do_call CCtxErr;
    match canceled with
    | Some err => fail CategoryFailed "configuration inspection was canceled" (Some err)
    | None =>
        match Target_Validate target false with
        | Some err => fail CategoryUsage "configuration target is invalid" (Some err)
        | None =>
            match ConfigProject.Resolved_Validate resolved Config.OperationInspect "" with
            | Some _ => fail CategoryConfig "configuration inspection validation failed" (Some (EText "configuration"))
            | None =>
                mret (mkResult operationID Succeeded target PathLocal
                  (mkInspection target (ConfigProject.Effective resolved) (inspectNetworkTimeouts (ConfigProject.resNetwork resolved))
                     (inspect_sources (ConfigProject.resSources resolved)) (ConfigProject.resWarnings resolved))
                  [mkEvidence EvidenceLocal (svcNow service)
                     "effective configuration projected with secret redaction and source attribution" "" "configuration"
                     (SendRaw "")] None)
            end
        end
    end.


