(* ===== verification/RuntimeLaws.v ===== *)
(** * What an open runtime is made of

    [Open] leaves nothing open when it fails and hands everything it opened to
    [Close] when it succeeds; the target and the clients are those of the
    resolved configuration and of the request. *)

From S2P Require Import Prelude GoStrings GoErrors PgTypes GoTime Target Version Values Effects Contract Assoc.
From S2P Require Config ConfigProject ConfigLaws ResolveLaws Tls TlsLaws Rest RestLaws Etcd Postgres MemEtcd.
From S2P Require Import Runtime.

#[export] Instance resource_eq_dec : EqDecision resource.
Proof. solve_decision. Defined.

Section with_std.
  Context `{GoStd, Etcd.EtcdClient, Tls.Crypto, Config.YamlStd, Rest.HttpStd}.

(** ** Resources *)

(** The resources open after a trace: each closing takes one away. *)
Fixpoint drop_resource (r : resource) (l : list resource) : list resource :=
  match l with [] => [] | x :: l => if bool_decide (x = r) then l else x :: drop_resource r l end.

Definition held (tr : list resource_event) : list resource :=
  foldl (λ l e, match e with Opened r => r :: l | Closed r => drop_resource r l end) [] tr.

(** What [Open] can have done, by its result. *)
Inductive opened : traced (rerror + RRuntime) → Prop :=
| opened_nothing err : opened ([], inl err)
| opened_store err : opened ([Opened EtcdStore; Closed EtcdStore], inl err)
| opened_both err :
    opened ([Opened EtcdStore; Opened RESTTransport; Closed RESTTransport; Closed EtcdStore], inl err)
| opened_runtime runtime :
    rtClosers runtime = [RESTTransport; EtcdStore] → rtClosed runtime = false →
    opened ([Opened EtcdStore; Opened RESTTransport], inr runtime).

Lemma assemble_closers w e resolved target etcd transport runtime :
  assemble w e resolved target etcd transport = inr runtime →
  rtClosers runtime = [RESTTransport; EtcdStore] ∧ rtClosed runtime = false.
Proof.
  unfold assemble. destruct (Rest.NewClient _ _); [|done]. destruct (Postgres.NewClient _ _); [done|].
  destruct (NewService _ _ _ _ _); [done|]. by intros [= <-].
Qed.

Lemma Open_opened w ctx environment options : opened (Open w ctx environment options).
Proof.
  assert (∀ e resolved target endpoints, opened (open_clients w ctx e resolved target endpoints)) as Hclients.
  { intros e resolved target endpoints. unfold open_clients. destruct (Etcd.New _ _ _); [constructor|].
    destruct (Tls.NewHTTPTransport _ _).1; [|constructor].
    destruct (assemble _ _ _ _ _ _) eqn:Ea; [constructor|]. apply assemble_closers in Ea as [? ?]. by constructor. }
  unfold Open. destruct ctx; [constructor|..];
    (destruct (initialized environment) as [|[e d]]; [constructor|]);
    (destruct (resolve_document _ _ _); [constructor|]); (case_match; [constructor|]);
    (destruct (resolveEtcdEndpoints _ _); [constructor|]); (case_match; [constructor|apply Hclients]).
Qed.


(** ** Targets and clients *)

Definition needs_scope (operation : Config.Operation) : bool :=
  match operation with
  | Config.OperationClusterRead | Config.OperationRESTWrite | Config.OperationQuery => true
  | _ => false
  end.

Lemma Validate_scope resolved operation scope :
  needs_scope operation = true → ConfigProject.Resolved_Validate resolved operation scope = None →
  ConfigProject.Configured (ConfigProject.resEtcd3 resolved) = true ∧
  (TrimSpace scope ≠ "" ∨ TrimSpace (ConfigProject.resScope resolved) ≠ "").
Proof.
  intros Hn. unfold ConfigProject.Resolved_Validate. destruct operation; try done;
    (destruct (ConfigProject.Configured _); [|done]); cbn;
    (destruct (String.eqb_spec (TrimSpace scope) ""); [|by auto]);
    (destruct (String.eqb_spec (TrimSpace (ConfigProject.resScope resolved)) ""); [done|by auto]).
Qed.

Lemma normalizeNamespace_model namespace : ConfigProject.normalizeNamespace namespace = NormalizeNamespace namespace.
Proof. done. Qed.

Lemma resolve_document_inv w d request resolved :
  resolve_document w d request = inr resolved →
  ConfigProject.Resolve (wHost w) (Some d) request = Some (Config.COk resolved).
Proof. unfold resolve_document. destruct (ConfigProject.Resolve _ _ _) as [[]|]; try done. by intros [= ->]. Qed.

(** How a runtime was opened. *)
Record opening (w : world) (ctx : Etcd.Ctx) (e : REnvironment) (d : Config.Document) (options : RuntimeOptions) (runtime : RRuntime)
    (endpoints : list string) : Prop := {
  op_resolved : resolve_document w d
    (Config.mkResolveRequest (roContext options) None (with_group_override (reOverrides e) (roExplicitGroup options)))
      = inr (rtResolved runtime);
  op_valid : ConfigProject.Resolved_Validate (rtResolved runtime) (validation_operation options (rtResolved runtime))
      (roExplicitScope options) = None;
  op_endpoints : resolveEtcdEndpoints w (ConfigProject.resEtcd3 (rtResolved runtime)) = inr endpoints;
  op_target : rtTarget runtime = open_target options (rtResolved runtime);
  op_etcd : let o := etcd_options (rtResolved runtime) endpoints in
      rtEtcd runtime = Some (Etcd.mkClientConfig endpoints
        (if (Etcd.opDialTimeout o <=? 0)%Z then Etcd.defaultDialTimeout else Etcd.opDialTimeout o)
        (Etcd.opUsername o) (Etcd.opPassword o) (Etcd.opTLS o));
  op_rest : ∃ transport,
      (Tls.NewHTTPTransport (Some (wTLS w)) (tls_options (ConfigProject.restTLS (ConfigProject.resREST (rtResolved runtime)))
         (ConfigProject.Insecure (ConfigProject.resREST (rtResolved runtime))))).1 = Tls.TOk transport ∧
      ∃ client, rtREST runtime = Some client ∧
        Rest.hcDo (Rest.httpClient client) = wRoundTrip w transport ∧
        Rest.authorizer client = rest_authorizer (ConfigProject.resREST (rtResolved runtime)) ∧
        let t := ConfigProject.PatroniTimeout (ConfigProject.resNetwork (rtResolved runtime)) in
        Rest.timeout client = if (t <=? 0)%Z then Rest.defaultTimeout else t;
  op_postgres : ∃ client, rtPostgres runtime = Some client ∧
        let n := ConfigProject.resNetwork (rtResolved runtime) in
        Postgres.clTimeout client = (if (ConfigProject.PostgresTimeout n <=? 0)%Z then Postgres.defaultQueryTimeout else ConfigProject.PostgresTimeout n) ∧
        Postgres.clCloseTimeout client = (if (ConfigProject.PostgresCloseTimeout n <=? 0)%Z then Postgres.defaultCloseTimeout else ConfigProject.PostgresCloseTimeout n)
}.

Lemma Open_opening w ctx e options tr runtime :
  Open w ctx (Some e) options = (tr, inr runtime) →
  ∃ d endpoints, reDocument e = Some d ∧ opening w ctx e d options runtime endpoints.
Proof.
  unfold Open, initialized. destruct ctx; [done|..];
    (destruct (reDocument e) as [d|]; [|done]);
    (destruct (resolve_document _ _ _) as [|resolved] eqn:Er; [done|]);
    (destruct (ConfigProject.Resolved_Validate _ _ _) eqn:Ev; [done|]);
    (destruct (resolveEtcdEndpoints _ _) as [|endpoints] eqn:Ee; [done|]);
    (destruct (etcd_transport_error _ _); [done|]);
    unfold open_clients; (destruct (Etcd.New _ _ _); [done|]);
    (destruct (Tls.NewHTTPTransport (Some (wTLS w)) (tls_options (ConfigProject.restTLS _) _)).1 as [transport|] eqn:Et; [|done]);
    unfold assemble; (destruct (Rest.NewClient _ _) as [client|] eqn:Ec; [|done]);
    (destruct (Postgres.NewClient _ _) as [|query] eqn:Eq; [done|]);
    (destruct (NewService _ _ _ _ _) as [|service]; [done|]);
    intros [= _ <-]; exists d, endpoints; (split; [done|]); (split; cbn [rtResolved rtTarget rtEtcd rtREST rtPostgres]; try done).
  all: try (exists transport; split; [done|]; exists client; split; [done|]; injection Ec as <-; done).
  all: exists query; split; [done|]; unfold Postgres.NewClient in Eq; cbn in Eq; injection Eq as <-; done.
Qed.


End with_std.

(** ** A sample runtime *)

Definition runtime_host : Config.host := Config.mkHost (λ _, None) (λ _, Config.FileMissing) None (λ _, None).

Definition runtime_yaml : Config.YamlStd := {|
  Config.yaml_Decode := λ _ _, Config.DecodeEOF;
  Config.node_Decode := λ _, None
|}.

Definition runtime_world : world :=
  mkWorld runtime_host (mkBuild "0.0.0-dev" "" "" None "go") (Tls.mkTlsEnv (λ _, None) (λ _, None)) (λ _, None)
    (λ _ _ _, inr []) (λ _ _, Rest.ExFailed true EDeadlineExceeded)
    (Rest.mkHTTPClient (λ _, Rest.ExFailed false EDeadlineExceeded) None) (λ _, inl EDeadlineExceeded) (Some "key") zero.

Definition runtime_environment : REnvironment :=
  mkREnvironment
    (Some (Config.mkDocument [("scope", Config.YString "pg"); ("etcd3", Config.YMap [("hosts", Config.YString "db")])]
             [] Config.YNull "go_patroni" "default" "patronictl.yaml"))
    (Config.mkOverrides None None None None None None) "agent" "v1" None.

Definition runtime_options : RuntimeOptions :=
  mkRuntimeOptions "" Config.OperationClusterRead "other" (Some 2%Z) false false.

Definition open_sample : traced (rerror + RRuntime) :=
  @Open ResolveLaws.etcd_std MemEtcd.mem_client TlsLaws.toy_crypto RestLaws.sample_http runtime_world Etcd.CtxLive
    (Some runtime_environment) runtime_options.

