(* ===== verification/OnlyReads.v ===== *)
(** * What a control operation may ask for, whatever the service and the request

    [only_reads p]: no call of [p], on any branch, may change a cluster.  It
    needs no hypothesis on the service, so it holds of the service the runtime
    hands to a command. *)

From S2P Require Import Prelude GoStrings GoErrors PgTypes Target Version Values Dcs Effects Contract Select Snapshots.
From S2P Require Import Batch Reload Restart Reinitialize Transition Pause Flush Remove ConfigPatch EditConfig Standby.
From S2P Require Import Cluster Reads.
From S2P Require Inspect.

Fixpoint only_reads {A} (p : prog A) : Prop :=
  match p with Ret _ => True | Vis c k => is_write c = false ∧ ∀ r, only_reads (k r) end.

Lemma only_reads_bind {A B} (p : prog A) (f : A → prog B) : only_reads p → (∀ a, only_reads (f a)) → only_reads (p ≫= f).
Proof. intros Hp Hf. induction p as [a|c k IH]; cbn; [apply Hf|]. destruct Hp as [Hc Hk]. split; [done|]. intros r. apply IH, Hk. Qed.

Lemma only_reads_wp {A} (p : prog A) : only_reads p → wp_all read_only p (λ _, True).
Proof.
  induction p as [a|c k IH]; cbn; [by repeat constructor|]. intros [Hc Hk] r.
  eapply wp_mono; [|exact (IH r (Hk r))]. cbn. intros tr a [? _]. by repeat constructor.
Qed.

Create HintDb reads discriminated.

(** Walks binds and branches; calls of other operations are left to the hints. *)
Ltac only_reads_step :=
  match goal with
  | |- only_reads (mret _) => exact I
  | |- only_reads (do_call _) => split; [reflexivity|intros; exact I]
  | |- only_reads (_ ≫= _) => apply only_reads_bind; [|intros]
  | |- only_reads (match ?x with _ => _ end) => destruct x
  | |- _ => progress (cbv beta zeta)
  end.

Ltac only_reads := repeat only_reads_step; auto with reads.

Section snapshots.
Context (service : Service).

Lemma randomOperationID_reads : only_reads randomOperationID.
Proof. unfold randomOperationID. only_reads. Qed.

Lemma operationID_reads : only_reads operationID.
Proof. unfold operationID. repeat only_reads_step. apply randomOperationID_reads. Qed.

Lemma cause_with_context_reads err : only_reads (cause_with_context err).
Proof. unfold cause_with_context. only_reads. Qed.

Lemma citusGroups_reads operation target allow check items snapshots evidence :
  only_reads (citusGroups service operation target allow check items snapshots evidence).
Proof. revert snapshots evidence. induction items as [|item items IH]; intros; cbn [citusGroups]; only_reads. Qed.
End snapshots.

#[export] Hint Resolve operationID_reads cause_with_context_reads citusGroups_reads : reads.

Lemma citusGroupSnapshots_reads service operation target allow check :
  only_reads (citusGroupSnapshotsWithVersionCheck service operation target allow check).
Proof. unfold citusGroupSnapshotsWithVersionCheck. only_reads. Qed.

#[export] Hint Resolve citusGroupSnapshots_reads : reads.

Lemma operationSnapshotsWith_reads service operation target citus allow check :
  only_reads (operationSnapshotsWithVersionCheck service operation target citus allow check).
Proof. unfold operationSnapshotsWithVersionCheck. only_reads. Qed.

#[export] Hint Resolve operationSnapshotsWith_reads : reads.

Lemma operationSnapshots_reads service operation target citus allow :
  only_reads (operationSnapshots service operation target citus allow).
Proof. unfold operationSnapshots. only_reads. Qed.

Lemma versionSnapshots_reads service operation target citus allow :
  only_reads (versionSnapshots service operation target citus allow).
Proof. unfold versionSnapshots. only_reads. Qed.

#[export] Hint Resolve operationSnapshots_reads versionSnapshots_reads : reads.

Lemma citusCoordinator_reads service operation target allow : only_reads (citusCoordinatorSnapshot service operation target allow).
Proof. unfold citusCoordinatorSnapshot, citusGroupSnapshots. only_reads. Qed.

Lemma citusGroupSnapshots_plain service operation target allow : only_reads (citusGroupSnapshots service operation target allow).
Proof. unfold citusGroupSnapshots. only_reads. Qed.

#[export] Hint Resolve citusCoordinator_reads citusGroupSnapshots_plain : reads.

Section prepare.
Context `{GoStd} (service : Service).

Lemma PrepareReload_reads ctx request : only_reads (PrepareReload service ctx request).
Proof. unfold PrepareReload. only_reads. Qed.

Lemma PrepareRestart_reads ctx request : only_reads (PrepareRestart service ctx request).
Proof. unfold PrepareRestart, pickAny. only_reads. Qed.

Lemma PrepareReinitialize_reads ctx request : only_reads (PrepareReinitialize service ctx request).
Proof. unfold PrepareReinitialize. only_reads. Qed.

Lemma prepareTransition_reads ctx intent err : only_reads (prepareTransition service ctx intent err).
Proof. unfold prepareTransition. only_reads. Qed.

Lemma PrepareFlush_reads ctx request : only_reads (PrepareFlush service ctx request).
Proof. unfold PrepareFlush. only_reads. unfold flushOperationSnapshots. only_reads. Qed.

Lemma preparePause_reads ctx intent err : only_reads (preparePause service ctx intent err).
Proof. unfold preparePause. only_reads. Qed.

Lemma PrepareRemove_reads ctx request : only_reads (PrepareRemove service ctx request).
Proof. unfold PrepareRemove. only_reads. Qed.

Lemma PrepareEditConfig_reads ctx request : only_reads (PrepareEditConfig service ctx request).
Proof. unfold PrepareEditConfig. only_reads. Qed.

Lemma prepareStandbyCluster_reads ctx intent err : only_reads (prepareStandbyCluster service ctx intent err).
Proof. unfold prepareStandbyCluster, standbyClusterSnapshots, planStandbyCluster. only_reads. Qed.
End prepare.

Section reads.
Context `{GoStd} (service : Service).

Lemma listTargets_only_reads id target citus allow targets clusters evidence :
  only_reads (listTargets service id target citus allow targets clusters evidence).
Proof. revert clusters evidence. induction targets as [|t targets IH]; intros; cbn [listTargets]; only_reads. Qed.

#[local] Hint Resolve listTargets_only_reads : reads.

Lemma List_only_reads ctx request : only_reads (List service ctx request).
Proof. unfold List. only_reads. Qed.

Lemma DSN_only_reads ctx request : only_reads (DSN service ctx request).
Proof. unfold DSN. only_reads. Qed.

Lemma clusterRead_only_reads {T} `{Zero T} ctx operation request (finish : string → Target → Snapshot → Result T) :
  only_reads (clusterRead service ctx operation request finish).
Proof. unfold clusterRead. only_reads. Qed.

Lemma TopologyGroups_only_reads ctx request : only_reads (TopologyGroups service ctx request).
Proof. unfold TopologyGroups. only_reads. Qed.

Lemma versionMembers_only_reads id target allow members items evidence :
  only_reads (versionMembers service id target allow members items evidence).
Proof. revert items evidence. induction members as [|[s m] members IH]; intros; cbn [versionMembers]; only_reads. Qed.

#[local] Hint Resolve versionMembers_only_reads : reads.

Lemma Version_only_reads ctx request : only_reads (Version service ctx request).
Proof. unfold Version. only_reads. Qed.

Lemma discoverLoop_only_reads operation target allow management items clusters evidence :
  only_reads (discoverLoop service operation target allow management items clusters evidence).
Proof. revert clusters evidence. induction items as [|item items IH]; intros; cbn [discoverLoop]; only_reads. Qed.

#[local] Hint Resolve discoverLoop_only_reads : reads.

Lemma namespaceRead_only_reads {T} `{Zero T} ctx operation label invalid request management (finish : list model.Cluster → T) :
  only_reads (namespaceRead service ctx operation label invalid request management finish).
Proof. unfold namespaceRead, discoverClusters. only_reads. Qed.

Lemma Inspect_only_reads ctx resolved : only_reads (Inspect.InspectConfiguration service ctx resolved).
Proof. unfold Inspect.InspectConfiguration. only_reads. Qed.
End reads.

#[export] Hint Resolve PrepareReload_reads PrepareRestart_reads PrepareReinitialize_reads prepareTransition_reads
  PrepareFlush_reads preparePause_reads PrepareRemove_reads PrepareEditConfig_reads prepareStandbyCluster_reads
  List_only_reads DSN_only_reads clusterRead_only_reads TopologyGroups_only_reads Version_only_reads
  namespaceRead_only_reads Inspect_only_reads : reads.
