(* ===== verification/Cli.v ===== *)
(** * The command line as a program: [internal/cli/root.go], [runtime.go] and
    the prompts of [write_handlers.go]

    A command is a [cli]: a tree of actions - calls of the control operations,
    writes to the two streams, reads of standard input, of files and of the
    terminal, the opening and closing of the runtime - that branches on every
    answer and ends with a value or an error.  [cwp p Q]: every run of [p] ends
    with a history and a result in [Q]. *)

From S2P Require Import Prelude GoStrings GoErrors Target Version Values Json Dcs Effects Contract.
From S2P Require Config ConfigProject Tls Rest Etcd Runtime.

(** ** Invocations *)

Record runtimeRequest := mkRuntimeRequest {
  rqOperation : Config.Operation;
  rqExplicitScope : string;
  rqExplicitGroup : option Z;
  rqUseConfiguredGroup : bool;
  rqAllowMissingScope : bool
}.

Record runtimeInvocation := mkInvocation {
  inConfigPathSet : bool;
  inConfigPath : string;
  inDCSURLSet : bool;
  inDCSURL : string;
  inInsecureSet : bool;
  inInsecure : bool;
  inContext : string;
  inRequest : runtimeRequest
}.

Record commandRuntime := mkCommandRuntime {
  cmService : Service;
  cmResolved : ConfigProject.Resolved;
  cmTarget : Target;
  cmWarnings : list string
}.

(** ** Libraries *)

(** What the commands use of other packages: [errors.As] for a [*url.Error],
    [unicode.IsPrint] of a rune that is not ASCII, and the text of the error of
    a cobra [PositionalArgs], which is not empty. *)
Class CliStd := {
  is_url_error : goerror → bool;
  is_print : N → bool;
  args_error : string → list string → string;      (* by command name and arguments *)
  args_error_said : ∀ name args, args_error name args ≠ ""
}.

(** *** [strconv.Quote], the verb [%q] *)

Definition hex_digits (width : nat) (n : N) : list ascii :=
  (λ i, hex_lower (N.shiftr n (4 * N.of_nat i) mod 16)) <$> reverse (seq 0 width).

Definition rune_value (l : list ascii) : N :=
  match N_of_ascii <$> l with
  | [a] => a
  | [a; b] => (a mod 32 * 64 + b mod 64)%N
  | [a; b; c] => ((a mod 16 * 64 + b mod 64) * 64 + c mod 64)%N
  | [a; b; c; d] => (((a mod 8 * 64 + b mod 64) * 64 + c mod 64) * 64 + d mod 64)%N
  | _ => 65533%N
  end.

Definition quote_byte (c : ascii) : list ascii :=
  if Ascii.eqb c dquote || Ascii.eqb c backslash then [backslash; c]
  else if byte_le 32 c 126 then [c]
  else match nat_of_ascii c with
  | 7 => [backslash; "a"%char]
  | 8 => [backslash; "b"%char]
  | 9 => [backslash; "t"%char]
  | 10 => [backslash; "n"%char]
  | 11 => [backslash; "v"%char]
  | 12 => [backslash; "f"%char]
  | 13 => [backslash; "r"%char]
  | _ => [backslash; "x"%char] ++ hex_digits 2 (N_of_ascii c)
  end%nat.

Definition quote_wide `{CliStd} (l : list ascii) : list ascii :=
  let r := rune_value l in
  if is_print r then l
  else if (r <? 65536)%N then [backslash; "u"%char] ++ hex_digits 4 r else [backslash; "U"%char] ++ hex_digits 8 r.

Fixpoint quote_text `{CliStd} (fuel : nat) (l : list ascii) : list ascii :=
  match fuel, l with
  | S fuel, c :: rest =>
      match utf8_len l with
      | O | 1 => quote_byte c ++ quote_text fuel rest
      | n => quote_wide (take n l) ++ quote_text fuel (drop n l)
      end
  | _, _ => []
  end%nat.

Definition Quote `{CliStd} (s : string) : string :=
  let l := String.list_ascii_of_string s in
  String dquote (String.string_of_list_ascii (quote_text (length l) l) +:+ String dquote "").

(** ** Errors *)

(** [*exitError] with what it wraps, other errors by their text, and
    [errors.Join]. *)
Inductive cli_error :=
| ExitError (category : Category) (code : Z) (message : string) (cause : option Error) (rendered : bool)
| PlainError (message : string)
| JoinError (errs : list cli_error).

Definition exit_error (category : Category) (message : string) : cli_error :=
  ExitError category (ExitCode category) message None false.

Definition usageError (message : string) : cli_error := exit_error CategoryUsage message.
Definition abortedError (message : string) : cli_error := exit_error CategoryFailed message.

(** [exitForControl] of an error that is not nil. *)
Definition exitForControl (err : Error) (rendered : bool) : cli_error :=
  ExitError (errCategory err) (ExitCode (errCategory err)) (errMessage err) (Some err) rendered.

(** The errors of a tree in the order [errors.As] visits them. *)
Fixpoint leaves (e : cli_error) : list cli_error :=
  match e with
  | JoinError errs => (fix go l := match l with [] => [] | e :: l => leaves e ++ go l end) errs
  | e => [e]
  end.

(** [errors.As(err, &typed)] for [*exitError], and for [*control.Error]. *)
Definition as_exit (e : cli_error) : option (Category * Z * bool) :=
  head (omap (λ e, match e with ExitError category code _ _ rendered => Some (category, code, rendered) | _ => None end) (leaves e)).

Definition as_control (e : cli_error) : option Error :=
  head (omap (λ e, match e with ExitError _ _ _ cause _ => cause | _ => None end) (leaves e)).

Definition exitCode (err : option cli_error) : Z :=
  match err with
  | None => 0
  | Some err =>
      match as_exit err with
      | Some (_, code, _) => if (code =? 0)%Z then 1 else code
      | None => 1
      end
  end.

Definition errorWasRendered (err : cli_error) : bool :=
  match as_exit err with Some (_, _, rendered) => rendered | None => false end.

(** The switch over the codes of [categoryForExitError]. *)
Definition category_of_code (code : Z) : Category :=
  match find_first (λ c, (code =? ExitCode c)%Z)
          [CategoryFailed; CategoryUsage; CategoryUnsupported; CategoryAuth; CategoryNotFound; CategoryConflict;
           CategoryUnreachable; CategoryUnknown; CategoryInternal] with
  | Some category => category
  | None => CategoryInternal
  end.

Definition categoryForExitError (err : cli_error) : Category :=
  match as_control err with
  | Some publicError => errCategory publicError
  | None =>
      match as_exit err with
      | Some (category, code, _) => if bool_decide (category = CategoryRaw "") then category_of_code code else category
      | None => CategoryInternal
      end
  end.

(** [err.Error()] *)
Fixpoint error_message (e : cli_error) : string :=
  match e with
  | ExitError _ _ message _ _ => message
  | PlainError message => message
  | JoinError errs => String.concat (String "010" "") (List.map error_message errs)
  end.

(** ** Actions *)

Inductive stream := Stdout | Stderr.
Inductive line_end := LineRead | LineEOF | LineFailed.
Inductive open_error := OpenExit (e : cli_error) | OpenFailed (e : Runtime.rerror).
Inductive edit_failure := EditCanceled | EditFailed.

Inductive file_operation := Chmod0600 | WriteFile (content : string) | CloseFile | RemoveFile.

Inductive action :=
| ACall (c : call)                                (* a call of a control operation *)
| AWrite (s : stream) (text : string)
| AReadLine                                       (* application.input.ReadString('\n') *)
| AReadPassword                                   (* readPasswordFile, with the echo off *)
| AReadAll                                        (* io.ReadAll of standard input *)
| AReadFile (path : string)                       (* os.ReadFile *)
| AOpen (invocation : runtimeInvocation)          (* application.factory *)
| AClose                                          (* runtime.Close *)
| ATick                                           (* the select of runWatch *)
| AGetenv (name : string)
| ALookPath (name : string)
| ACreateTemp (pattern : string)
| AFile (name : string) (op : file_operation)
| ARunEditor (editor name : string).

(** The answers; an error by its text. *)
Definition answer (a : action) : Type :=
  match a with
  | ACall c => reply c
  | AWrite _ _ => option string
  | AReadLine => (string * line_end)%type
  | AReadPassword | AReadAll | AReadFile _ | ALookPath _ | ACreateTemp _ => option string
  | AOpen _ => (open_error + commandRuntime)%type
  | AClose => option string
  | ATick => bool
  | AGetenv _ => string
  | AFile _ _ => option string
  | ARunEditor _ _ => option edit_failure
  end.

(** ** Programs *)

Inductive cli (A : Type) : Type :=
| Done (a : A)
| Raise (e : cli_error)
| Panic                                           (* a Go panic *)
| Act (a : action) (k : answer a → cli A).

#[global] Arguments Done {A} _.
#[global] Arguments Raise {A} _.
#[global] Arguments Panic {A}.
#[global] Arguments Act {A} _ _.

Fixpoint cli_bind {A B} (f : A → cli B) (p : cli A) : cli B :=
  match p with
  | Done a => f a
  | Raise e => Raise e
  | Panic => Panic
  | Act a k => Act a (λ r, cli_bind f (k r))
  end.

#[export] Instance cli_ret : MRet cli := @Done.
#[export] Instance cli_mbind : MBind cli := @cli_bind.

Definition do_act (a : action) : cli (answer a) := Act a Done.

(** A control operation. *)
Fixpoint lift {A} (p : prog A) : cli A :=
  match p with
  | Ret a => Done a
  | Vis c k => Act (ACall c) (λ r, lift (k r))
  end.

(** [defer closeCommandRuntime(runtime, &returnedError)] *)
Definition closeError : cli_error := exit_error CategoryInternal "closing command runtime failed".

Fixpoint deferred_close {A} (p : cli A) : cli A :=
  match p with
  | Done a => Act AClose (λ err, match err with None => Done a | Some _ => Raise (JoinError [closeError]) end)
  | Raise e => Act AClose (λ err, match err with None => Raise e | Some _ => Raise (JoinError [e; closeError]) end)
  | Panic => Act AClose (λ _, Panic)
  | Act a k => Act a (λ r, deferred_close (k r))
  end.

(** [if _, err := fmt.Fprint(w, ...); err != nil { return err }] *)
Definition print (s : stream) (text : string) : cli unit :=
  err ← do_act (AWrite s text);
  match err with Some message => Raise (PlainError message) | None => Done tt end.

Definition println (s : stream) (text : string) : cli unit := print s (text +:+ String "010" "").

(** [if err := p; err != nil { return &exitError{... cause: err} }] *)
Fixpoint guard_with {A} (e : cli_error) (p : cli A) : cli A :=
  match p with
  | Done a => Done a
  | Raise _ => Raise e
  | Panic => Panic
  | Act a k => Act a (λ r, guard_with e (k r))
  end.

(** [if err := p; err != nil { return f(err) }] *)
Fixpoint on_error {A} (h : cli_error → cli A) (p : cli A) : cli A :=
  match p with
  | Done a => Done a
  | Raise e => h e
  | Panic => Panic
  | Act a k => Act a (λ r, on_error h (k r))
  end.

Definition check (ok : bool) (e : cli_error) : cli unit := if ok then Done tt else Raise e.

(** ** Applications and invocations *)

Record ApplicationInfo := mkApplicationInfo {
  aiName : string; aiVersion : string; aiCommit : string; aiBuildTime : string; aiGoVersion : string;
  aiSupportedPatroni : string
}.

Record Application := mkApplication {
  apName : string; apShort : string; apVersion : string; apRequestIDPrefix : string; apInfo : option ApplicationInfo
}.

Definition defaultApplication (b : Runtime.build) : Application :=
  mkApplication "patronictl" "Native Go command-line control for Patroni clusters" (Runtime.version_String b)
    "patronictl-go-cli" None.

(** [field = strings.TrimSpace(field); if field == "" { field = fallback }] *)
Definition trimmed_or (field fallback : string) : string := Runtime.orElse (TrimSpace field) fallback.

Definition normalizeApplication (b : Runtime.build) (application : Application) : Application :=
  let defaults := defaultApplication b in
  let name := trimmed_or (apName application) (apName defaults) in
  let version := trimmed_or (apVersion application) (apVersion defaults) in
  mkApplication name (trimmed_or (apShort application) (apShort defaults)) version
    (trimmed_or (apRequestIDPrefix application)
       (if name ==s apName defaults then apRequestIDPrefix defaults else name +:+ "-cli"))
    ((λ info, mkApplicationInfo (trimmed_or (aiName info) name) (trimmed_or (aiVersion info) version)
                (trimmed_or (aiCommit info) "unknown") (trimmed_or (aiBuildTime info) "unknown")
                (trimmed_or (aiGoVersion info) (Runtime.goVersion b))
                (trimmed_or (aiSupportedPatroni info) Runtime.SupportedPatroni)) <$> apInfo application).

Record rootOptions := mkRootOptions {
  roConfigFile : string;
  roDCSURL : string;
  roDCSAlias : string;
  roInsecure : bool;
  roContextName : string;
  roOutput : string;
  roAllowUnsupportedRead : bool
}.

(** The root flags, which of them were given, and the boundaries that do not
    change while a command runs: whether the input is interactive, the clock
    and the request identifiers. *)
Record adapter := mkAdapter {
  adRoot : rootOptions;
  adChanged : string → bool;
  adInteractive : bool;
  adTerminal : bool;                 (* the input is a terminal file *)
  adApplication : Application;
  adBuild : Runtime.build;
  adNow : string;                    (* application.now().Format(time.RFC3339Nano) *)
  adWallNow : string;                (* application.wallNow(), as date and time *)
  adRequestID : string
}.

Definition output (app : adapter) : string := roOutput (adRoot app).
Definition human (app : adapter) : bool := (output app ==s "") || (output app ==s "human").
Definition machine (app : adapter) : bool := (output app ==s "json") || (output app ==s "yaml").

(** The DCS locator and whether it was given, of the flag and its alias. *)
Definition rootDCS (app : adapter) : option (string * bool) :=
  let root := adRoot app in
  let set := adChanged app "dcs-url" in
  if adChanged app "dcs"
  then if set && (roDCSAlias root !=s roDCSURL root) then None else Some (roDCSAlias root, true)
  else Some (roDCSURL root, set).

Definition rootInvocation (app : adapter) (request : runtimeRequest) : cli_error + runtimeInvocation :=
  let root := adRoot app in
  match rootDCS app with
  | None => inl (usageError "--dcs-url and --dcs specify different values")
  | Some (dcsURL, dcsURLSet) =>
      inr (mkInvocation (adChanged app "config-file") (roConfigFile root) dcsURLSet dcsURL
             (adChanged app "insecure") (roInsecure root) (roContextName root) request)
  end.

(** ** Opening the runtime *)

Definition dcsErrorCategory (kind : dcsE.ErrorKind) : option Category :=
  match kind with
  | dcsE.ErrorConfiguration | dcsE.ErrorDecode | dcsE.ErrorLimit => Some CategoryConfig
  | dcsE.ErrorConflict | dcsE.ErrorCompacted => Some CategoryConflict
  | dcsE.ErrorCanceled => Some CategoryFailed
  | dcsE.ErrorTransport | dcsE.ErrorDeadline => Some CategoryUnreachable
  | _ => None
  end.

Definition dcs_kind (err : goerror) : option dcsE.ErrorKind := option_map fst (as_dcs (Some err)).

Section with_errors.
  Context `{CliStd}.

Definition generic_category (err : goerror) : Category :=
  match dcs_kind err ≫= dcsErrorCategory with
  | Some category => category
  | None => if is_url_error err then CategoryUnreachable else CategoryConfig
  end.

Definition runtimeErrorCategory (err : Runtime.rerror) : Category :=
  match err with
  | Runtime.RConfig (Config.CError Config.ErrorUnsupported _ _ _ _) => CategoryUnsupported
  | Runtime.RConfig (Config.COther err) => generic_category err
  | Runtime.RConfig _ => CategoryConfig
  | Runtime.RTLS _ => CategoryTLS
  | Runtime.RGo err => generic_category err
  | Runtime.RText _ => CategoryConfig
  end.

Definition Operation_text (operation : Config.Operation) : string :=
  match operation with
  | Config.OperationLocalVersion => "local-version"
  | Config.OperationInspect => "inspect-config"
  | Config.OperationDiscover => "discover"
  | Config.OperationClusterRead => "cluster-read"
  | Config.OperationRESTWrite => "rest-write"
  | Config.OperationQuery => "query"
  | Config.OperationOther text => text
  end.

Definition generic_message (err : goerror) : string :=
  match dcs_kind err with
  | Some dcsE.ErrorTransport | Some dcsE.ErrorDeadline => "configured DCS endpoint is unreachable"
  | Some _ => "DCS runtime initialization failed"
  | None => if is_url_error err then "configured endpoint is invalid or unreachable" else "Patroni runtime initialization failed"
  end.

Definition safeRuntimeError (err : Runtime.rerror) : string :=
  match err with
  | Runtime.RConfig (Config.CValidation operation field _ reason) =>
      "configuration field " +:+ field +:+ " is required for " +:+ Operation_text operation +:+ ": " +:+ reason
  | Runtime.RConfig (Config.CError _ field source message _) => Config.Error_text field source message
  | Runtime.RConfig (Config.COther err) => generic_message err
  | Runtime.RTLS (Tls.TLSConfigError field) => "patroni TLS configuration field " +:+ field +:+ " is invalid"
  | Runtime.RGo err => generic_message err
  | Runtime.RText _ => "Patroni runtime initialization failed"
  end.

Definition openFailure (err : open_error) : cli_error :=
  match err with
  | OpenExit err => err
  | OpenFailed err => exit_error (runtimeErrorCategory err) (safeRuntimeError err)
  end.

Definition warningError : cli_error := exit_error CategoryInternal "rendering configuration warning failed".

Fixpoint printWarnings (warnings : list string) : cli unit :=
  match warnings with
  | [] => Done tt
  | warning :: rest =>
      err ← do_act (AWrite Stderr ("WARNING: " +:+ warning +:+ String "010" ""));
      match err with
      | Some _ => _ ← do_act AClose; Raise warningError
      | None => printWarnings rest
      end
  end.

Definition openRuntime (app : adapter) (request : runtimeRequest) : cli commandRuntime :=
  match rootInvocation app request with
  | inl err => Raise err
  | inr invocation =>
      r ← do_act (AOpen invocation);
      match r with
      | inl err => Raise (openFailure err)
      | inr runtime => _ ← (if human app then printWarnings (cmWarnings runtime) else Done tt); Done runtime
      end
  end.

(** [runtime, err := openRuntime(...); defer closeCommandRuntime(...)] and the
    rest of the handler *)
Definition with_runtime {A} (app : adapter) (request : runtimeRequest) (body : commandRuntime → cli A) : cli A :=
  runtime ← openRuntime app request; deferred_close (body runtime).

End with_errors.

(** [openDefaultRuntime]: the factory of the standalone command. *)
Definition set_override {A} (given : bool) (v : A) (old : option A) : option A := if given then Some v else old.

Section with_std.
  Context `{GoStd, Etcd.EtcdClient, Tls.Crypto, Config.YamlStd, Rest.HttpStd}.

Definition invocation_options (options : Runtime.EnvironmentOptions) (i : runtimeInvocation) : Runtime.EnvironmentOptions :=
  let load := Runtime.eoLoad options in
  let o := Runtime.eoOverrides options in
  Runtime.mkEnvironmentOptions
    (if inConfigPathSet i then Config.mkLoadRequest (inConfigPath i) (Config.ldEnvironment load) else load)
    (Config.mkOverrides (Config.ovContext o) (set_override (inDCSURLSet i) (inDCSURL i) (Config.ovDCSURL o))
       (Config.ovNamespace o) (Config.ovScope o) (Config.ovGroup o)
       (set_override (inInsecureSet i) (inInsecure i) (Config.ovInsecure o)))
    (if inConfigPathSet i then None else Runtime.eoDocument options)
    (Runtime.eoUserAgent options) (Runtime.eoProductVersion options) (Runtime.eoSupportedPatroniRange options).

Definition command_runtime (runtime : Runtime.RRuntime) : commandRuntime :=
  mkCommandRuntime (Runtime.rtService runtime) (Runtime.rtResolved runtime) (Runtime.rtTarget runtime) (Runtime.rtWarnings runtime).

Definition openDefaultRuntime (w : Runtime.world) (ctx : Etcd.Ctx) (options : Runtime.EnvironmentOptions) (i : runtimeInvocation)
    : Runtime.traced (Runtime.rerror + commandRuntime) :=
  let ctxNil := match ctx with Etcd.CtxNil => true | _ => false end in
  match Runtime.NewEnvironment w ctxNil (invocation_options options i) with
  | inl err => ([], inl err)
  | inr environment =>
      match rqOperation (inRequest i) with
      | Config.OperationInspect =>
          match Runtime.OpenConfiguration w ctxNil (Some environment) (inContext i) with
          | inl err => ([], inl err)
          | inr runtime => ([], inr (command_runtime runtime))
          end
      | operation =>
          let request := inRequest i in
          let '(trace, r) :=
            Runtime.Open w ctx (Some environment)
              (Runtime.mkRuntimeOptions (inContext i) operation (rqExplicitScope request) (rqExplicitGroup request)
                 (rqUseConfiguredGroup request) (rqAllowMissingScope request)) in
          (trace, match r with inl err => inl err | inr runtime => inr (command_runtime runtime) end)
      end
  end.

End with_std.

(** ** Prompts *)

Definition promptUnavailableError (app : adapter) : option cli_error :=
  if machine app
  then Some (usageError "interactive prompts are disabled with machine output; provide explicit confirmation options")
  else if negb (adInteractive app)
  then Some (usageError "interactive input requires a terminal; provide explicit options instead") else None.

Definition require_prompt (app : adapter) : cli unit :=
  match promptUnavailableError app with Some err => Raise err | None => Done tt end.

Definition end_of_line (c : ascii) : bool := Ascii.eqb c "013" || Ascii.eqb c "010".

Definition promptValue (app : adapter) (label defaultValue : string) : cli string :=
  _ ← require_prompt app;
  _ ← print Stderr (if defaultValue ==s "" then label +:+ ": " else label +:+ " [" +:+ defaultValue +:+ "]: ");
  line ← do_act AReadLine;
  match line.2 with
  | LineFailed => Raise (exit_error CategoryFailed "interactive input failed")
  | _ =>
      let value := TrimRight end_of_line line.1 in
      Done (if value ==s "" then defaultValue else value)
  end.

Definition affirmative (value : string) : bool :=
  let value := ToLower (TrimSpace value) in (value ==s "y") || (value ==s "yes").

Definition confirm (app : adapter) (question : string) : cli bool :=
  value ← promptValue app (question +:+ " [y/N]") ""; Done (affirmative value).

(** ** Plans *)

Definition targetLabel (target : Target) : string :=
  let target := Normalize target in
  "context=" +:+ tContext target +:+ " namespace=" +:+ tNamespace target +:+ " scope=" +:+ tScope target +:+
  " group=" +:+ (match tGroup target with Some g => FormatInt g | None => "" end) +:+ " member=" +:+ tMember target.

Definition planMemberNames (plan : Plan) : list string := tMember <$> pTargets plan.

(** [planPrecondition] *)
Definition planPrecondition (plan : Plan) (field : string) : option string := expectedPrecondition plan field.

Definition confirmPlan (app : adapter) (plan : Plan) (question : string) : cli unit :=
  _ ← require_prompt app;
  _ ← print Stderr ("Plan: " +:+ pSummary plan +:+ String "010" "" +:+ "Target: " +:+ targetLabel (pTarget plan) +:+ String "010" "");
  confirmed ← confirm app question;
  check confirmed (abortedError ("Aborted " +:+ pOperation plan)).

(** [fmt.Sprintf(question, value)], when [%s] is the only verb of the question. *)
Fixpoint Sprintf_s (question value : string) : string :=
  match question with
  | String "%" (String "s" rest) => value +:+ rest
  | String c rest => String c (Sprintf_s rest value)
  | EmptyString => ""
  end.

Definition planQuestion (plan : Plan) (question : string) : string :=
  if Contains question "%s"
  then Sprintf_s question (match pTargets plan with [] => tScope (pTarget plan) | _ => Join (planMemberNames plan) ", " end)
  else question.

(** * Runs of a command

    [cwp p Q]: every run of the command [p], whatever its actions are answered,
    ends with a history and a result in [Q].  [crun oracle p]: the run in which
    [oracle] answers.  [calls_of] keeps the calls of the control package, so a
    theorem about the runs of an operation holds of the command that makes it. *)

Inductive result (A : Type) := Returned (a : A) | Errored (e : cli_error) | Panicked.

#[global] Arguments Returned {A} _.
#[global] Arguments Errored {A} _.
#[global] Arguments Panicked {A}.

Record cevent := CEv { ce_action : action; ce_answer : answer ce_action }.

Definition call_event (e : event) : cevent := CEv (ACall (ev_call e)) (ev_reply e).

Fixpoint cwp {A} (p : cli A) (Q : list cevent → result A → Prop) : Prop :=
  match p with
  | Done a => Q [] (Returned a)
  | Raise e => Q [] (Errored e)
  | Panic => Q [] Panicked
  | Act a k => ∀ r, cwp (k r) (λ tr o, Q (CEv a r :: tr) o)
  end.

Fixpoint crun {A} (oracle : list cevent → ∀ a, answer a) (tr : list cevent) (p : cli A) : list cevent * result A :=
  match p with
  | Done a => (tr, Returned a)
  | Raise e => (tr, Errored e)
  | Panic => (tr, Panicked)
  | Act a k => let r := oracle tr a in crun oracle (tr ++ [CEv a r]) (k r)
  end.

(** Every event of a run satisfies [E], and its result [Q]. *)
Definition cwp_all {A} (E : cevent → Prop) (p : cli A) (Q : result A → Prop) : Prop :=
  cwp p (λ tr o, Forall E tr ∧ Q o).

(** What a postcondition on values says of a result. *)
Definition on_value {A} (P : A → Prop) (o : result A) : Prop := match o with Returned a => P a | _ => True end.

(** The events that may change a cluster. *)
Definition writes_cluster (e : cevent) : bool := match ce_action e with ACall c => is_write c | _ => false end.

Definition harmless (e : cevent) : Prop := writes_cluster e = false.

(** ** Lemmas *)

Lemma cwp_mono {A} (p : cli A) (Q R : list cevent → result A → Prop) :
  (∀ tr o, Q tr o → R tr o) → cwp p Q → cwp p R.
Proof.
  revert Q R. induction p as [a|e| |a k IH]; intros Q R HQR; cbn; [apply HQR..|].
  intros Hp r. eapply IH; [|apply Hp]. cbn. eauto.
Qed.

Lemma cwp_forall {A} (p : cli A) (Q : list cevent → result A → Prop) : (∀ tr o, Q tr o) → cwp p Q.
Proof. revert Q. induction p as [a|e| |a k IH]; intros Q HQ; cbn; [apply HQ..|]. intros r. by apply IH. Qed.

Section lemmas.
Context {A B : Type}.

Lemma cwp_assoc {C} (p : cli A) (f : A → cli B) (g : B → cli C) Q :
  cwp (p ≫= λ a, f a ≫= g) Q → cwp ((p ≫= f) ≫= g) Q.
Proof. revert Q. induction p as [a|e| |a k IH]; intros Q; cbn; [done..|]. intros Hp r. apply IH, (Hp r). Qed.

Lemma cwp_done (p : cli A) Q : cwp (p ≫= Done) Q → cwp p Q.
Proof. revert Q. induction p as [a|e| |a k IH]; intros Q; cbn; [done..|]. intros Hp r. apply IH, (Hp r). Qed.

(** The rest of a run after [f], or its end when [p] did not return. *)
Definition andThen (f : A → cli B) (Q : list cevent → result B → Prop) (tr : list cevent) (o : result A) : Prop :=
  match o with
  | Returned a => cwp (f a) (λ tr' o', Q (tr ++ tr') o')
  | Errored e => Q tr (Errored e)
  | Panicked => Q tr Panicked
  end.

Lemma cwp_bind (p : cli A) (f : A → cli B) (Q : list cevent → result B → Prop) :
  cwp p (andThen f Q) → cwp (p ≫= f) Q.
Proof.
  revert Q. induction p as [a|e| |a k IH]; intros Q; cbn; [|done..|].
  - intros H. eapply cwp_mono; [|exact H]. done.
  - intros H r. apply IH. eapply cwp_mono; [|exact (H r)]. intros tr [b|e|]; cbn; done.
Qed.

Lemma cwp_run (p : cli A) Q oracle tr : cwp p (λ tr' o, Q (tr ++ tr') o) → Q (crun oracle tr p).1 (crun oracle tr p).2.
Proof.
  revert Q tr. induction p as [a|e| |a k IH]; intros Q tr; cbn; [by rewrite app_nil_r..|].
  intros H. apply IH. eapply cwp_mono; [|exact (H (oracle tr a))]. cbn. intros tr' o. by rewrite <- app_assoc.
Qed.

Lemma cwp_and (p : cli A) (Q R : list cevent → result A → Prop) :
  cwp p Q → cwp p R → cwp p (λ tr o, Q tr o ∧ R tr o).
Proof.
  revert Q R. induction p as [a|e| |a k IH]; intros Q R; cbn; [done..|]. intros HQ HR r. by apply IH.
Qed.

Lemma cwp_all_mono (E F : cevent → Prop) (p : cli A) (P Q : result A → Prop) :
  (∀ e, E e → F e) → (∀ o, P o → Q o) → cwp_all E p P → cwp_all F p Q.
Proof. intros HE HPQ. apply cwp_mono. intros tr o [Htr Ho]. split; [by eapply Forall_impl|auto]. Qed.

Lemma cwp_all_bind (E : cevent → Prop) (p : cli A) (f : A → cli B) (P : A → Prop) (Q : result B → Prop) :
  cwp_all E p (λ o, match o with Returned a => P a | Errored e => Q (Errored e) | Panicked => Q Panicked end) →
  (∀ a, P a → cwp_all E (f a) Q) → cwp_all E (p ≫= f) Q.
Proof.
  intros Hp Hf. apply cwp_bind. eapply cwp_mono; [|exact Hp]. intros tr [a|e|] [Htr Ho]; cbn; [|done..].
  eapply cwp_mono; [|exact (Hf a Ho)]. intros tr' o [? ?]. split; [by apply Forall_app|done].
Qed.

(** A control operation inside a command. *)
Lemma cwp_lift (p : prog A) (Q : list cevent → result A → Prop) :
  wp p (λ tr a, Q (call_event <$> tr) (Returned a)) → cwp (lift p) Q.
Proof. revert Q. induction p as [a|c k IH]; intros Q; cbn; [done|]. intros H r. apply IH, (H r). Qed.

Lemma cwp_all_lift (E : cevent → Prop) (F : event → Prop) (p : prog A) (P : A → Prop) :
  (∀ e, F e → E (call_event e)) → wp_all F p P → cwp_all E (lift p) (on_value P).
Proof.
  intros HE Hp. apply cwp_lift. eapply wp_mono; [|exact Hp]. intros tr a [Htr Ha]. split; [|done].
  apply Forall_fmap. eapply Forall_impl; [exact Htr|exact HE].
Qed.

Lemma cwp_deferred_close (p : cli A) (Q : list cevent → result A → Prop) :
  cwp p (λ tr o, ∀ err, Q (tr ++ [CEv AClose err])
                   match err, o with
                   | None, o => o
                   | Some _, Returned _ => Errored (JoinError [closeError])
                   | Some _, Errored e => Errored (JoinError [e; closeError])
                   | Some _, Panicked => Panicked
                   end) → cwp (deferred_close p) Q.
Proof.
  revert Q. induction p as [a|e| |a k IH]; intros Q; cbn.
  - intros H [m|]; apply (H (Some m)) || apply (H None).
  - intros H [m|]; apply (H (Some m)) || apply (H None).
  - intros H [m|]; apply (H (Some m)) || apply (H None).
  - intros H r. apply IH, (H r).
Qed.

Lemma cwp_all_deferred_close (E : cevent → Prop) (p : cli A) (Q : result A → Prop) :
  (∀ err, E (CEv AClose err)) → (∀ e, Q (Errored e)) → cwp_all E p Q → cwp_all E (deferred_close p) Q.
Proof.
  intros HE HQ Hp. apply cwp_deferred_close. eapply cwp_mono; [|exact Hp]. intros tr o [Htr Ho] err.
  split; [apply Forall_app; split; [done|by repeat constructor]|].
  destruct err, o; done || apply HQ.
Qed.

Lemma cwp_guard_with e (p : cli A) (Q : list cevent → result A → Prop) :
  cwp p (λ tr o, Q tr match o with Errored _ => Errored e | o => o end) → cwp (guard_with e p) Q.
Proof. revert Q. induction p as [a|e'| |a k IH]; intros Q; cbn; [done..|]. intros H r. apply IH, (H r). Qed.

Lemma cwp_on_error (h : cli_error → cli A) (p : cli A) (Q : list cevent → result A → Prop) :
  cwp p (λ tr o, match o with Errored e => cwp (h e) (λ tr' o', Q (tr ++ tr') o') | o => Q tr o end) → cwp (on_error h p) Q.
Proof. revert Q. induction p as [a|e| |a k IH]; intros Q; cbn; [done..|]. intros Hp r. apply IH, (Hp r). Qed.

End lemmas.

(** ** The actions of a command

    [acts P p]: on every branch of [p] the actions satisfy [P]. *)

Fixpoint acts (P : action → Prop) {A} (p : cli A) : Prop :=
  match p with Act a k => P a ∧ ∀ r, acts P (k r) | _ => True end.

Lemma acts_bind P {A B} (p : cli A) (f : A → cli B) : acts P p → (∀ a, acts P (f a)) → acts P (p ≫= f).
Proof.
  intros Hp Hf. induction p as [a|e| |a k IH]; cbn; [apply Hf|done..|]. destruct Hp as [Ha Hk].
  split; [done|]. intros r. apply IH, Hk.
Qed.

Lemma acts_do_act P a : P a → acts P (do_act a).
Proof. by split. Qed.

Lemma acts_check P ok e : acts P (check ok e).
Proof. by destruct ok. Qed.

Lemma acts_deferred_close P {A} (p : cli A) : P AClose → acts P p → acts P (deferred_close p).
Proof.
  intros HP. induction p as [a|e| |a k IH]; cbn; [intros _; split; [done|by intros [|]]..|].
  intros [Ha Hk]. split; [done|]. intros r. apply IH, Hk.
Qed.

Lemma acts_guard_with P {A} e (p : cli A) : acts P p → acts P (guard_with e p).
Proof. induction p as [a|e'| |a k IH]; cbn; [done..|]. intros [Ha Hk]. split; [done|]. intros r. apply IH, Hk. Qed.

Lemma acts_on_error P {A} (h : cli_error → cli A) (p : cli A) : (∀ e, acts P (h e)) → acts P p → acts P (on_error h p).
Proof. intros Hh. induction p as [a|e| |a k IH]; cbn; [done|auto|done|]. intros [Ha Hk]. split; [done|]. intros r. apply IH, Hk. Qed.

Lemma acts_calls P {A} (p : prog A) : (∀ c, P (ACall c)) → acts P (lift p).
Proof. intros HP. induction p as [a|c k IH]; cbn; [done|]. auto. Qed.

Lemma acts_cwp P {A} (p : cli A) : acts P p → cwp_all (λ e, P (ce_action e)) p (λ _, True).
Proof.
  induction p as [a|e| |a k IH]; cbn; [by repeat constructor..|]. intros [Ha Hk] r.
  eapply cwp_mono; [|exact (IH r (Hk r))]. cbn. intros tr o [? _]. by repeat constructor.
Qed.

Create HintDb acts discriminated.

(** Walks binds and branches; the rest is left to the hints. *)
Ltac acts_step :=
  match goal with
  | |- acts _ (Done _) => exact I
  | |- acts _ (Raise _) => exact I
  | |- acts _ Panic => exact I
  | |- acts _ (do_act _) => apply acts_do_act; [auto with acts]
  | |- acts _ (_ ≫= _) => apply acts_bind; [|intros]
  | |- acts _ (guard_with _ _) => apply acts_guard_with
  | |- acts _ (check _ _) => apply acts_check
  | |- acts _ (match ?x with _ => _ end) => destruct x
  | |- _ => progress (cbv beta zeta)
  end.

Ltac acts := repeat acts_step; auto with acts.
