(* ===== verification/CliRender.v ===== *)
(** * Rendering: [internal/cli/render.go], [machine_catalog.go] and the tables of
    [read_handlers.go]

    In machine mode a command prints one document: a success envelope, whose
    kind is registered with the type of its data, or an error envelope.  In
    human mode it prints lines and tables.  [Encoders] stands for the text that
    [encoding/json] (by reflection) and [yaml.v3] give a document. *)

From S2P Require Import Prelude GoStrings GoErrors PgTypes GoTime Target Version Values Json Effects Contract Batch.
From S2P Require Import Transition Pause Flush Remove EditConfig Standby Select Cluster Reads Cli.
From S2P Require Config Inspect Secret Runtime.
Import model.

(** ** Machine documents *)

Definition machineAPIVersion : string := "patroni.pgsty.com/v1alpha1".

Record machineMetadata := mkMetadata { mmRequestID : string; mmObservedAt : string; mmWarnings : list string }.

Record machineError := mkMachineError {
  meCategory : Category;
  meOperation : string;
  meTarget : Target;
  meRetryable : bool;
  meCause : string;
  meMessage : string;
  meEvidence : list Evidence;
  meNextActions : list string
}.

Definition machineCause (category : Category) : string :=
  match category with
  | CategoryUsage => "INVALID_INPUT"
  | CategoryConfig => "INVALID_CONFIGURATION"
  | CategoryUnsupported => "UNSUPPORTED_PATRONI_VERSION"
  | CategoryAuth => "AUTHENTICATION_REJECTED"
  | CategoryTLS => "TLS_CONFIGURATION_OR_VERIFICATION_FAILED"
  | CategoryNotFound => "TARGET_NOT_FOUND"
  | CategoryConflict => "CONCURRENT_STATE_CONFLICT"
  | CategoryUnreachable => "UPSTREAM_UNREACHABLE"
  | CategoryFailed => "OPERATION_REJECTED"
  | CategoryUnknown => "OUTCOME_UNCONFIRMED"
  | _ => "INTERNAL_INVARIANT"
  end.

Definition machineNextActions (category : Category) : list string :=
  match category with
  | CategoryUnknown =>
      ["Do not retry blindly";
       "Re-read authoritative cluster state and operation evidence before deciding whether to retry"]
  | CategoryConflict => ["Re-read authoritative cluster state and prepare a new plan"]
  | CategoryUnsupported =>
      ["Use a supported Patroni version (>=3.0.0,<5.0.0) or limit the command to a feature available in the connected version"]
  | CategoryUnreachable => ["Verify endpoint reachability and retry only when evidence shows the request was not sent"]
  | _ => []
  end.

Definition newMachineError (err : option Error) : option machineError :=
  (λ err, mkMachineError (errCategory err) (errOperation err) (Normalize (errTarget err)) (errRetryable err)
            (machineCause (errCategory err)) (errMessage err) (errEvidence err) (machineNextActions (errCategory err)))
  <$> err.

(** The shapes the adapter owns. *)
Record machineCluster := mkMachineCluster {
  mcTarget : Target;
  mcDiscoveryState : DiscoveryState;
  mcManagementState : ManagementState;
  mcReachabilityState : ReachabilityState;
  mcHealthState : HealthState;
  mcRevision : Z;
  mcInitialize : string;
  mcLeader : string;
  mcPaused : bool;
  mcScheduledSwitchover : option model.ScheduledSwitchover;
  mcMembers : list model.Member
}.

Record machineClusterSummary := mkMachineClusterSummary {
  msTarget : Target;
  msDiscoveryState : DiscoveryState;
  msManagementState : ManagementState;
  msReachabilityState : ReachabilityState;
  msHealthState : HealthState;
  msRevision : Z;
  msMemberCount : Z;
  msLeader : string
}.

Record machineTopologyMember := mkMachineTopologyMember { mtMember : model.Member; mtParent : string; mtDepth : Z }.
Record machineTopology := mkMachineTopology { mtCluster : machineCluster; mtMembers : list machineTopologyMember }.

Record machineMemberVersion := mkMachineMemberVersion {
  mmvTarget : Target;
  mmvPatroniVersion : string;
  mmvPostgresVersion : string;
  mmvHTTPStatus : Z;
  mmvError : option machineError
}.

Record machineVersionInfo := mkMachineVersionInfo {
  mviVersion : string;
  mviCommit : string;
  mviBuildTime : string;
  mviGoVersion : string;
  mviSupportedPatroni : string;
  mviMachineSchema : string;
  mviApplication : option ApplicationInfo;      (* [machineApplicationInfo] has the same fields *)
  mviMembers : list machineMemberVersion
}.

(** The data of the results a command finishes with. *)
Inductive machine_data :=
| MDSN (d : DSNData)
| MQuery (d : QueryData)
| MInspection (d : Inspect.ConfigurationInspection)
| MDiscovery (clusters : list machineClusterSummary)
| MClusterList (clusters : list machineCluster)
| MTopologyList (topologies : list machineTopology)
| MTopology (d : TopologyData)
| MConfig (d : ConfigData)
| MVersionInfo (d : machineVersionInfo)
| MHistory (d : HistoryData)
| MRemove (d : RemoveData)
| MBatch (d : BatchWriteData)
| MCluster (d : ClusterWriteData)
| MFlush (d : FlushData)
| MPause (d : PauseData)
| MConfigEdit (d : ConfigEditData)
| MClusterRole (d : ClusterRoleData)
| MPlan (d : Plan)
| MList (d : ListData)
| MDiscoverData (d : DiscoverData)
| MTopologies (d : TopologyListData)
| MVersion (d : VersionData).

(** [reflect.TypeOf(data)] *)
Inductive data_type :=
| TDSNData | TQueryData | TConfigurationInspection | TmachineDiscovery | TmachineClusterList | TmachineTopologyList
| TTopologyData | TConfigData | TmachineVersionInfo | THistoryData | TRemoveData | TBatchWriteData
| TClusterWriteData | TFlushData | TPauseData | TConfigEditData | TClusterRoleData
| TPlan | TListData | TDiscoverData | TTopologyListData | TVersionData.

#[export] Instance data_type_eq_dec : EqDecision data_type.
Proof. solve_decision. Defined.

Definition type_of (d : machine_data) : data_type :=
  match d with
  | MDSN _ => TDSNData | MQuery _ => TQueryData | MInspection _ => TConfigurationInspection
  | MDiscovery _ => TmachineDiscovery | MClusterList _ => TmachineClusterList | MTopologyList _ => TmachineTopologyList
  | MTopology _ => TTopologyData | MConfig _ => TConfigData | MVersionInfo _ => TmachineVersionInfo
  | MHistory _ => THistoryData | MRemove _ => TRemoveData | MBatch _ => TBatchWriteData | MCluster _ => TClusterWriteData
  | MFlush _ => TFlushData | MPause _ => TPauseData | MConfigEdit _ => TConfigEditData | MClusterRole _ => TClusterRoleData
  | MPlan _ => TPlan | MList _ => TListData | MDiscoverData _ => TDiscoverData | MTopologies _ => TTopologyListData
  | MVersion _ => TVersionData
  end.

Definition machineSuccessTypes : list (string * data_type) :=
  [("DSN", TDSNData); ("QueryResult", TQueryData); ("EffectiveConfiguration", TConfigurationInspection);
   ("ClusterDiscovery", TmachineDiscovery); ("ClusterList", TmachineClusterList);
   ("ClusterTopologyList", TmachineTopologyList); ("ClusterTopology", TTopologyData); ("DynamicConfig", TConfigData);
   ("VersionInfo", TmachineVersionInfo); ("ClusterHistory", THistoryData); ("RemoveResult", TRemoveData);
   ("ReloadResult", TBatchWriteData); ("RestartResult", TBatchWriteData); ("ReinitializeResult", TBatchWriteData);
   ("FailoverResult", TClusterWriteData); ("SwitchoverResult", TClusterWriteData); ("FlushResult", TFlushData);
   ("PauseResult", TPauseData); ("ResumeResult", TPauseData); ("ConfigEditResult", TConfigEditData);
   ("DemoteClusterResult", TClusterRoleData); ("PromoteClusterResult", TClusterRoleData)].

(** ** Table cells

    What the handlers put in an [any] of a row: [nil], a [string], an integer,
    a value of a named string type, the tags of a member. *)
Inductive cell := CellNil | CellText (s : string) | CellInt (n : Z) | CellNamed (s : string) | CellMap (m : config).

Inductive document :=
| SuccessDocument (apiVersion kind : string) (metadata : machineMetadata) (data : machine_data)
| ErrorDocument (apiVersion : string) (metadata : machineMetadata) (err : option machineError)
| RowsDocument (objects : list (list (string * cell))).

Definition newMachineSuccessEnvelope (kind : string) (metadata : machineMetadata) (data : machine_data) : option document :=
  match find_first (λ kt, kt.1 ==s kind) machineSuccessTypes with
  | None => None
  | Some (_, expected) =>
      if bool_decide (type_of data = expected) then Some (SuccessDocument machineAPIVersion kind metadata data) else None
  end.

(** What [yaml.Marshal] is given besides documents. *)
Inductive yaml_source := YamlTarget (t : Target) | YamlValue (v : Config.yvalue) | YamlConfig (m : config).

Class Encoders := {
  json_Encode : document → option string;      (* json.Encoder.Encode without HTML escapes *)
  yaml_Marshal : document → option string;
  yaml_Text : yaml_source → option string
}.

(** ** [finishResult] *)

Class MachineData (T : Type) := to_machine : T → machine_data.

#[export] Instance machine_DSN : MachineData DSNData := MDSN.
#[export] Instance machine_Query : MachineData QueryData := MQuery.
#[export] Instance machine_Inspection : MachineData Inspect.ConfigurationInspection := MInspection.
#[export] Instance machine_Topology : MachineData TopologyData := MTopology.
#[export] Instance machine_Config : MachineData ConfigData := MConfig.
#[export] Instance machine_History : MachineData HistoryData := MHistory.
#[export] Instance machine_Remove : MachineData RemoveData := MRemove.
#[export] Instance machine_Batch : MachineData BatchWriteData := MBatch.
#[export] Instance machine_ClusterWrite : MachineData ClusterWriteData := MCluster.
#[export] Instance machine_Flush : MachineData FlushData := MFlush.
#[export] Instance machine_Pause : MachineData PauseData := MPause.
#[export] Instance machine_ConfigEdit : MachineData ConfigEditData := MConfigEdit.
#[export] Instance machine_ClusterRole : MachineData ClusterRoleData := MClusterRole.
#[export] Instance machine_Plan : MachineData Plan := MPlan.
#[export] Instance machine_List : MachineData ListData := MList.
#[export] Instance machine_Discover : MachineData DiscoverData := MDiscoverData.
#[export] Instance machine_Topologies : MachineData TopologyListData := MTopologies.
#[export] Instance machine_VersionData : MachineData VersionData := MVersion.
#[export] Instance machine_VersionInfo : MachineData machineVersionInfo := MVersionInfo.
#[export] Instance machine_discovered : MachineData (list machineClusterSummary) := MDiscovery.
#[export] Instance machine_clusters : MachineData (list machineCluster) := MClusterList.
#[export] Instance machine_topologies : MachineData (list machineTopology) := MTopologyList.

Definition internal (message : string) : cli_error := exit_error CategoryInternal message.
Definition documentError : cli_error := PlainError "document cannot be encoded".

Definition ends_with_newline (s : string) : bool := HasSuffix s (String "010" "").

Section rendering.
Context `{GoStd, Encoders}.

Definition encode (format : string) (d : document) : option string :=
  if format ==s "json" then json_Encode d
  else if (format ==s "yaml") || (format ==s "yml") then yaml_Marshal d else None.

(** The text of a document: encoded, redacted, ended with a newline. *)
Definition document_text (format : string) (d : document) : option string :=
  (λ encoded,
     let encoded := Secret.Redact encoded [] in
     if ends_with_newline encoded then encoded else encoded +:+ String "010" "") <$> encode format d.

Definition encodeDocument (s : stream) (format : string) (d : document) : cli unit :=
  match document_text format d with Some text => print s text | None => Raise documentError end.

(** [exitForControl], nil for nil *)
Definition exit_for (err : option Error) (rendered : bool) : cli unit :=
  match err with Some err => Raise (exitForControl err rendered) | None => Done tt end.

Definition is_human (format : string) : bool := (format ==s "") || (format ==s "human").

Definition finishResult {T} `{MachineData T} (app : adapter) (format : string) (runtime : commandRuntime) (r : Result T)
    (kind : string) (compatible : T → cli unit) : cli unit :=
  match Result_Validate r with
  | Some _ => Raise (internal "control returned an invalid result")
  | None =>
      let succeeded := bool_decide (rOutcome r = Succeeded) in
      if is_human format then
        if succeeded then guard_with (internal "rendering command output failed") (compatible (rData r))
        else exit_for (rError r) false
      else
        let metadata := mkMetadata (rOperationID r) (adNow app) (cmWarnings runtime) in
        let document :=
          if succeeded then newMachineSuccessEnvelope kind metadata (to_machine (rData r))
          else Some (ErrorDocument machineAPIVersion metadata (newMachineError (rError r))) in
        match document with
        | None => Raise (internal "constructing machine success output failed")
        | Some document =>
            _ ← guard_with (internal "encoding machine output failed") (encodeDocument Stdout format document);
            if succeeded then Done tt else exit_for (rError r) true
        end
  end.

Definition finishWriteResult {T} `{MachineData T} (app : adapter) (runtime : commandRuntime) (r : Result T) (kind : string)
    (render : T → cli unit) : cli unit :=
  if negb (human app) then finishResult app (output app) runtime r kind render
  else
    match Result_Validate r with
    | Some _ => Raise (internal "control returned an invalid result")
    | None =>
        _ ← guard_with (internal "rendering command output failed") (render (rData r));
        if bool_decide (rOutcome r = Succeeded) then Done tt else exit_for (rError r) false
    end.

(** [renderCommandError], of an error that is not nil. *)
Definition command_operation (app : adapter) (name : string) : string :=
  if (name ==s "") || (name ==s apName (adApplication app)) then "cli" else name.

Definition cli_cause (err : cli_error) : option goerror := Some (EText (error_message err)).

Definition renderCommandError {A} (app : adapter) (name : string) (args : list string) (err : cli_error) : cli A :=
  if errorWasRendered err || human app || negb (machine app) then Raise err
  else
    let category := categoryForExitError err in
    let target := Normalize (mkTarget (roContextName (adRoot app)) "" (deref "" (head args)) None "") in
    let publicError := NewError category (command_operation app name) target false (error_message err) (cli_cause err) [] in
    match Error_Validate publicError with
    | Some _ => Raise (internal "constructing machine error output failed")
    | None =>
        _ ← guard_with (internal "encoding machine error output failed")
              (encodeDocument Stdout (output app)
                 (ErrorDocument machineAPIVersion (mkMetadata (adRequestID app) (adNow app) []) (newMachineError (Some publicError))));
        Raise (ExitError category (ExitCode category) (error_message err) None true)
    end.

(** ** Tables *)

Definition tabularString (c : cell) : string :=
  match c with
  | CellNil => ""
  | CellText s => s
  | CellInt n => FormatInt n
  | CellNamed s => json_quote s
  | CellMap m => deref (Sprint (VMap m)) (Marshal (VMap m))
  end.

(** [strings.Repeat] of one byte panics on a negative count. *)
Definition Repeat (c : ascii) (n : Z) : option string :=
  if (n <? 0)%Z then None else Some (String.string_of_list_ascii (replicate (Z.to_nat n) c)).

Definition newline : ascii := "010".

Definition pretty_field (value : string) (width : Z) : option string :=
  let value := ReplaceByte newline " " value in
  padding ← Repeat " " (width - Z.of_nat (String.length value) + 1); Some (" " +:+ value +:+ padding).

Definition pretty_line (values : list string) (widths : list Z) : option string :=
  fields ← mapM (λ column, pretty_field (deref "" (values !! column)) (deref 0%Z (widths !! column))) (seq 0 (length widths));
  Some ("|" +:+ Join fields "|" +:+ "|").

Definition renderPrettyLine (values : list string) (widths : list Z) : cli unit :=
  match pretty_line values widths with Some line => println Stdout line | None => Panic end.

Definition line_lengths (text : string) : list Z := (λ l, Z.of_nat (String.length l)) <$> Split newline text.

(** The width of a column: its header, or the longest line of its cells. *)
Definition column_width (headers : list string) (rows : list (list string)) (column : nat) : Z :=
  foldl Z.max (Z.of_nat (String.length (deref "" (headers !! column))))
    (rows ≫= λ row, line_lengths (deref "" (row !! column))).

Definition column_widths (headers : list string) (rows : list (list string)) : list Z :=
  column_width headers rows <$> seq 0 (length headers).

Definition text_row (headers : list string) (row : list cell) : list string :=
  (λ column, deref "" (tabularString <$> row !! column)) <$> seq 0 (length headers).

Definition border (widths : list Z) : string :=
  "+" +:+ Join ((λ w, deref "" (Repeat "-" (w + 2))) <$> widths) "+" +:+ "+".

Fixpoint each {A} (f : A → cli unit) (l : list A) : cli unit :=
  match l with [] => Done tt | x :: l => _ ← f x; each f l end.

Definition renderPretty (headers : list string) (rows : list (list cell)) (title : string) : cli unit :=
  let textRows := text_row headers <$> rows in
  let widths := column_widths headers textRows in
  let border := border widths in
  _ ← (if title ==s "" then Done tt else println Stdout title);
  _ ← println Stdout border;
  _ ← renderPrettyLine headers widths;
  _ ← println Stdout border;
  _ ← each (λ row, renderPrettyLine row widths) textRows;
  println Stdout border.

Definition row_object (headers : list string) (row : list cell) (omitEmptyStrings : bool) : list (string * cell) :=
  foldl (λ object hv,
           if omitEmptyStrings && match hv.2 with CellText "" => true | _ => false end then object
           else map_set object hv.1 hv.2) [] (zip headers row).

Definition rowObjects (headers : list string) (rows : list (list cell)) (omitEmptyStrings : bool) : list (list (string * cell)) :=
  (λ row, row_object headers row omitEmptyStrings) <$> rows.

Definition tab : string := String "009" "".

Definition renderRows (headers : list string) (rows : list (list cell)) (format delimiter title : string) : cli unit :=
  let objects := RowsDocument (rowObjects headers rows (title !=s "")) in
  if format ==s "json" then encodeDocument Stdout "json" objects
  else if (format ==s "yaml") || (format ==s "yml") then encodeDocument Stdout "yaml" objects
  else if format ==s "tsv" then
    let delimiter := if delimiter ==s "" then tab else delimiter in
    _ ← println Stdout (Join headers delimiter);
    each (λ row, println Stdout (Join (text_row headers row) delimiter)) rows
  else if (format ==s "pretty") || (format ==s "topology") then renderPretty headers rows title
  else Raise (PlainError "unsupported compatible format").

End rendering.

(** ** The list of members *)

Definition MemberRole_text (role : model.MemberRole) : string :=
  match role with
  | model.RoleLeader => "leader" | RoleStandbyLeader => "standby_leader" | RoleSyncStandby => "sync_standby"
  | RoleQuorumStandby => "quorum_standby" | model.RoleReplica => "replica"
  end.

Definition upper_byte (c : ascii) : ascii := if byte_le 97 c 122 then ascii_of_nat (nat_of_ascii c - 32) else c.

Definition capitalized (word : string) : string :=
  match word with String c rest => String (upper_byte c) rest | EmptyString => "" end.

Definition roleTitle (role : model.MemberRole) : string :=
  Join (capitalized <$> FieldsFunc " " (ReplaceByte "_" " " (MemberRole_text role))) " ".

Definition int_cell (v : option Z) : cell := match v with Some n => CellInt n | None => CellText "" end.
Definition optionalIntValue : option Z → cell := int_cell.
Definition groupValue : option Z → cell := int_cell.

(** [float64(n)] of an [int64], rounded to the nearest with 53 bits, ties to even. *)
Definition float64_of (n : Z) : Z :=
  let a := Z.abs n in
  if (a <? 2 ^ 53)%Z then n
  else
    let unit := (2 ^ (Z.log2 a - 52))%Z in
    let q := (a / unit)%Z in
    let r := (a mod unit)%Z in
    let q := if (unit <? 2 * r)%Z || ((2 * r =? unit)%Z && Z.odd q) then (q + 1)%Z else q in
    (Z.sgn n * (q * unit))%Z.

(** [math.Round(x / 1024 / 1024)]: halves away from zero; the divisions are exact. *)
Definition round_MB (n : Z) : Z := (Z.sgn n * ((Z.abs n + 524288) / 1048576))%Z.

Definition lagMB (bytes : Z) : cell := CellInt (round_MB (float64_of bytes)).

Definition clusterInitialize (value : string) : string := if value ==s "" then "initializing" else value.

Definition netJoinHostPort (host : string) (port : Z) : string :=
  (if Contains host ":" && negb (HasPrefix host "[") then "[" +:+ host +:+ "]:" else host +:+ ":") +:+ FormatInt port.

Section with_std.
Context `{GoStd, Encoders}.

Definition reason_value (reason : config) (key field : string) : string :=
  Sprint match map_get reason key with Some (VMap values) => map_index values field | _ => VNull end.

Definition pendingReason (reason : config) : string :=
  Join ((λ key, key +:+ ": " +:+ reason_value reason key "old_value" +:+ "->" +:+ reason_value reason key "new_value")
          <$> sort_strings (fst <$> reason)) (String newline "").

(** Which of the optional columns are shown. *)
Record list_columns := mkColumns { showPending : bool; showReason : bool; showScheduled : bool; showTags : bool }.

Definition shown_columns (members : list model.Member) (extended : bool) : list_columns :=
  mkColumns (extended || existsb mPendingRestart members)
    (extended || existsb (λ m, negb (is_nil (head (mPendingRestartReason m)))) members)
    (extended || existsb (λ m, negb (is_nil (mScheduledRestart m))) members)
    (extended || existsb (λ m, negb (is_nil (head (mTags m)))) members).

Definition hosts (members : list model.Member) : list string := filter (λ h, h ≠ "") (mHost <$> members).

Definition append_port (members : list model.Member) : bool :=
  existsb (λ m, negb (mPort m =? 0)%Z && negb (mPort m =? 5432)%Z) members || negb (bool_decide (NoDup (hosts members))).

Definition list_headers (citus : bool) (columns : list_columns) : list string :=
  ["Cluster"] ++ (if citus then ["Group"] else []) ++
  ["Member"; "Host"; "Role"; "State"; "TL"; "Receive LSN"; "Receive Lag"; "Replay LSN"; "Replay Lag"] ++
  (if showPending columns then ["Pending restart"] else []) ++
  (if showReason columns then ["Pending restart reason"] else []) ++
  (if showScheduled columns then ["Scheduled restart"] else []) ++
  (if showTags columns then ["Tags"] else []).

(** The positions and the lags of a row. *)
Definition lsn_cells (m : model.Member) : list cell :=
  let receive := mReceiveLSN m in
  let replay := if (receive !=s "") && (mReplayLSN m ==s "") then "unknown" else mReplayLSN m in
  let replayed := (replay !=s "") && (replay !=s "unknown") in
  [CellText (if replayed && (receive ==s "") then "unknown" else receive);
   (if receive !=s "" then lagMB (mReceiveLagBytes m) else CellText "");
   CellText replay;
   (if replayed then lagMB (mReplayLagBytes m) else CellText "")].

Definition scheduled_text (s : option ScheduledRestart) : string :=
  match s with
  | None => ""
  | Some s => srSchedule s +:+ (if srPostgresVersion s ==s "" then "" else " if version < " +:+ srPostgresVersion s)
  end.

Definition list_row (citus appendPort : bool) (columns : list_columns) (cluster : model.Cluster) (m : model.Member) : list cell :=
  let host := if appendPort && (mHost m !=s "") && negb (mPort m =? 0)%Z then netJoinHostPort (mHost m) (mPort m) else mHost m in
  [CellText (tScope (cTarget cluster))] ++ (if citus then [groupValue (tGroup (cTarget cluster))] else []) ++
  [CellText (mName m); CellText host; CellText (roleTitle (mRole m)); CellText (mState m); optionalIntValue (mTimeline m)] ++
  lsn_cells m ++
  (if showPending columns then [CellText (if mPendingRestart m then "*" else "")] else []) ++
  (if showReason columns then [CellText (pendingReason (mPendingRestartReason m))] else []) ++
  (if showScheduled columns then [CellText (scheduled_text (mScheduledRestart m))] else []) ++
  (if showTags columns then [CellMap (mTags m)] else []).

Definition list_title (clusters : list model.Cluster) : string :=
  match clusters with
  | [c] => " Cluster: " +:+ tScope (cTarget c) +:+ " (" +:+ clusterInitialize (cInitialize c) +:+ ") "
  | _ => ""
  end.

Definition renderListData (data : ListData) (citus extended : bool) (format : string) : cli unit :=
  let clusters := ldClusters data in
  let members := clusters ≫= cMembers in
  let columns := shown_columns members extended in
  let rows := clusters ≫= λ c, list_row citus (append_port members) columns c <$> cMembers c in
  let narrow := ((format ==s "pretty") || (format ==s "topology")) && (length clusters =? 1)%nat && negb citus in
  let headers := list_headers citus columns in
  renderRows (if narrow then tail headers else headers) (if narrow then tail <$> rows else rows) format tab (list_title clusters).

End with_std.
