(* ===== verification/CliWrite.v ===== *)
(** * The commands that change a cluster: [internal/cli/write_handlers.go]

    Each handler opens the runtime, prepares a plan, asks for consent unless
    [--force] was given, executes and finishes with the result. *)

From S2P Require Import Prelude GoStrings GoErrors PgTypes GoTime Target Version Values Json Effects Contract Batch.
From S2P Require Import Reload Restart Reinitialize Transition Pause Flush Remove Standby Select Cluster Reads Cli CliRender.
From S2P Require Config ConfigProject.

(** ** Options *)

Record removeOptions := mkRemoveOptions {
  rmoGroup : Z; rmoFormat : string; rmoConfirmCluster : string; rmoAcknowledgement : string; rmoConfirmLeader : string
}.
Record reloadOptions := mkReloadOptions { rloGroup : Z; rloRole : string; rloForce : bool }.
Record restartOptions := mkRestartOptions {
  rsoGroup : Z; rsoRole : string; rsoAny : bool; rsoScheduled : string; rsoPgVersion : string; rsoPending : bool;
  rsoTimeout : string; rsoForce : bool
}.
Record reinitOptions := mkReinitOptions { rioGroup : Z; rioForce : bool; rioFromLeader : bool; rioWait : bool }.
Record failoverOptions := mkFailoverOptions { foGroup : Z; foCandidate : string; foForce : bool }.
Record switchoverOptions := mkSwitchoverOptions {
  soGroup : Z; soLeader : string; soCandidate : string; soScheduled : string; soForce : bool
}.
Record flushOptions := mkFlushOptions { floGroup : Z; floRole : string; floForce : bool }.
Record pauseOptions := mkPauseOptions { poGroup : Z; poWait : bool }.
Record demoteClusterOptions := mkDemoteOptions {
  dmForce : bool; dmHost : string; dmPort : Z; dmRestoreCommand : string; dmPrimarySlotName : string
}.
Record promoteClusterOptions := mkPromoteOptions { pmForce : bool }.

(** ** Arguments *)

Definition oneOf (value : string) (values : list string) : bool := bool_decide (value ∈ values).

Definition firstArgument (args : list string) : string := deref "" (head args).

Definition invalid_format `{CliStd} (format : string) : cli_error := usageError ("invalid --format " +:+ Quote format).

(** [command.Flags().Changed("group")] *)
Definition optionalGroup (app : adapter) (value : Z) : option Z := if adChanged app "group" then Some value else None.

Definition roles : list (string * Role) :=
  [("", RoleRaw ""); ("leader", RoleLeader); ("primary", RolePrimary); ("standby-leader", RoleStandbyLeader);
   ("replica", RoleReplica); ("standby", RoleStandby); ("any", RoleAny)].

Definition parseRole `{CliStd} (value : string) : cli Role :=
  match find_first (λ r, r.1 ==s TrimSpace value) roles with
  | Some (_, role) => Done role
  | None => Raise (usageError ("invalid role " +:+ Quote value))
  end.

(** *** [parseScheduled]

    The layouts with a zone are those of RFC 3339; the others are wall clocks
    of the local zone, whose offset at a wall clock is [local_offset]. *)
Class LocalZone := { local_offset : Z → Z }.

(** [time.ParseInLocation] of ["2006-01-02T15:04:05"] and the layouts with
    another separator or without seconds. *)
Definition ParseLocal `{LocalZone} (separator : ascii) (seconds : bool) (s : string) : option Time :=
  '(y, s) ← take_digits 4 0 s; s ← take_byte "-" s;
  '(mo, s) ← take_digits 2 0 s; s ← take_byte "-" s;
  '(d, s) ← take_digits 2 0 s; s ← take_byte separator s;
  '(h, s) ← take_hour s; s ← take_byte ":" s;
  '(mi, s) ← take_digits 2 0 s;
  '(se, s) ← (if seconds then s ← take_byte ":" s; take_digits 2 0 s else Some (0%Z, s));
  let '(nsec, s) := if seconds then parse_fraction s else (0%Z, s) in
  if ((s ==s "") && (1 <=? mo) && (mo <=? 12) && (1 <=? d) && (d <=? days_in mo y)
      && (h <? 24) && (mi <? 60) && (se <? 60))%Z
  then let wall := (days_from_civil y mo d * 86400 + h * 3600 + mi * 60 + se)%Z in
       Some (mkTime (wall - local_offset wall) nsec (local_offset wall))
  else None.

Definition parse_layouts `{LocalZone} (value : string) : option Time :=
  match ParseRFC3339Nano value with
  | Some t => Some t
  | None => head (omap (λ layout, ParseLocal layout.1 layout.2 value) [("T"%char, true); ("T"%char, false); (" "%char, true); (" "%char, false)])
  end.

Definition parseScheduled `{CliStd, LocalZone} (value : string) : cli (option Time) :=
  let value := TrimSpace value in
  if (value ==s "") || EqualFold value "now" then Done None
  else match parse_layouts value with
       | Some t => Done (Some t)
       | None => Raise (usageError ("unable to parse scheduled timestamp " +:+ Quote value +:+ "; use an unambiguous ISO 8601 value"))
       end.

(** ** Rendering of write results *)

Definition SendState_text (s : SendState) : string :=
  match s with SendNotSent => "NOT_SENT" | SendMaybeSent => "MAYBE_SENT" | SendAccepted => "ACCEPTED" | SendRaw t => t end.

Definition Verification_text (v : Verification) : string :=
  match v with
  | Unverified => "UNVERIFIED" | VerifiedSucceeded => "VERIFIED_SUCCEEDED" | VerifiedFailed => "VERIFIED_FAILED"
  | VerificationRaw t => t
  end.

(** [Failed: <what> for member ...] *)
Definition failed_line (what : string) (m : MemberWriteResult) : string :=
  "Failed: " +:+ what +:+ " for member " +:+ tMember (mwTarget m) +:+
  (if (mwHTTPStatus m =? 0)%Z then " (" +:+ mwSummary m +:+ ")" else ", status code=" +:+ FormatInt (mwHTTPStatus m)).

Definition reload_line (loopWait : Z) (m : MemberWriteResult) : string :=
  let name := tMember (mwTarget m) in
  if (mwHTTPStatus m =? 200)%Z then "No changes to apply on member " +:+ name
  else if (mwHTTPStatus m =? 202)%Z
  then "Reload request received for member " +:+ name +:+ " and will be processed within " +:+ FormatInt loopWait +:+ " seconds"
  else failed_line "reload" m.

Definition restart_line (m : MemberWriteResult) : string :=
  let name := tMember (mwTarget m) in
  if (mwHTTPStatus m =? 200)%Z then "Success: restart on member " +:+ name
  else if (mwHTTPStatus m =? 202)%Z then "Success: restart scheduled on member " +:+ name
  else if (mwHTTPStatus m =? 409)%Z then "Failed: another restart is already scheduled on member " +:+ name
  else failed_line "restart" m.

Definition reinitialize_line (m : MemberWriteResult) : string :=
  if bool_decide (mwOutcome m = Succeeded) then "Success: reinitialize for member " +:+ tMember (mwTarget m)
  else failed_line "reinitialize" m.

Definition renderReloadWrite (loopWait : Z) (data : BatchWriteData) : cli unit :=
  each (λ m, println Stdout (reload_line loopWait m)) (bwMembers data).
Definition renderRestartWrite (data : BatchWriteData) : cli unit := each (λ m, println Stdout (restart_line m)) (bwMembers data).
Definition renderReinitializeWrite (data : BatchWriteData) : cli unit :=
  each (λ m, println Stdout (reinitialize_line m)) (bwMembers data).

Definition renderClusterWrite (data : ClusterWriteData) : cli unit :=
  println Stdout ("leader=" +:+ cwLeader data +:+ " candidate=" +:+ cwCandidate data +:+ " outcome=" +:+
                  SendState_text (cwRESTSendState data) +:+ " verification=" +:+ Verification_text (cwVerification data)).

Definition flush_line (event : string) (m : MemberWriteResult) : string :=
  if bool_decide (mwOutcome m = Succeeded)
  then "Success: flush scheduled " +:+ event +:+ " for member " +:+ tMember (mwTarget m)
  else "Failed: flush scheduled " +:+ event +:+ " for member " +:+ tMember (mwTarget m) +:+ ", status code=" +:+
       FormatInt (mwHTTPStatus m).

Definition renderFlushWrite (data : FlushData) : cli unit :=
  let event := FlushEvent_text (fdEvent data) in
  if fdNoop data then println Stdout ("No pending scheduled " +:+ event)
  else each (λ m, println Stdout (flush_line event m)) (fdResults data).

Definition renderPauseWrite (data : PauseData) : cli unit :=
  println Stdout ("Success: cluster management is " +:+ if pdPaused data then "paused" else "resumed").

Definition renderClusterRoleWrite (data : ClusterRoleData) : cli unit :=
  println Stdout ("cluster leader=" +:+ crLeader data +:+ " role=" +:+ crDesiredRole data +:+ " verification=" +:+
                  Verification_text (crVerification data)).

#[local] Existing Instance model.MemberRole_eq_dec.

Section with_std.
Context `{GoStd, Encoders, CliStd, LocalZone}.

(** ** Prepared plans *)

(** The handlers return [finishResult(...)] with a zero plan, so a nil error
    would let them go on with it. *)
Definition preparedPlan (app : adapter) (runtime : commandRuntime) (r : Result Plan) : cli Plan :=
  match Result_Validate r with
  | Some _ => Raise (internal "control returned an invalid plan result")
  | None =>
      if negb (bool_decide (rOutcome r = Succeeded))
      then _ ← finishResult app (output app) runtime r "Plan" (λ _, Done tt); Done zero
      else match Plan_Validate (rData r) with
           | Some _ => Raise (internal "control returned an invalid plan")
           | None => Done (rData r)
           end
  end.

Definition confirmPreparedPlan (app : adapter) (runtime : commandRuntime) (r : Result Plan) (force : bool) (question : string)
    : cli Plan :=
  plan ← preparedPlan app runtime r;
  if force then Done plan else _ ← confirmPlan app plan (planQuestion plan question); Done plan.

(** ** Prompts that read the cluster *)

Definition clusterForPrompt (app : adapter) (runtime : commandRuntime) : cli model.Cluster :=
  r ← lift (List (cmService runtime) true (mkListRequest [cmTarget runtime] false false));
  if negb (bool_decide (rOutcome r = Succeeded))
  then _ ← finishResult app (output app) runtime r "ClusterList" (λ _, Done tt); Done zero
  else match ldClusters (rData r) with
       | [cluster] => Done cluster
       | _ => Raise (internal "cluster selection returned an invalid result")
       end.

Definition memberNamesByRole (cluster : model.Cluster) (role : model.MemberRole) : list string :=
  model.mName <$> filter (λ m, model.mRole m = role) (model.cMembers cluster).

Definition failoverCandidates (cluster : model.Cluster) : list string :=
  filter (λ name, name ≠ model.cLeader cluster) (model.mName <$> model.cMembers cluster).

Definition replicaNamesForPrompt (app : adapter) (runtime : commandRuntime) : cli (list string) :=
  r ← lift (List (cmService runtime) true
              (mkListRequest [cmTarget runtime] (ConfigProject.resCitus (cmResolved runtime)) false));
  if negb (bool_decide (rOutcome r = Succeeded))
  then _ ← finishResult app (output app) runtime r "ClusterList" (λ _, Done tt); Done []
  else Done (sort_strings (remove_dups (ldClusters (rData r) ≫= λ c, memberNamesByRole c model.RoleReplica))).

Definition with_group (runtime : commandRuntime) (group : Z) : commandRuntime :=
  let t := cmTarget runtime in
  mkCommandRuntime (cmService runtime) (cmResolved runtime)
    (mkTarget (tContext t) (tNamespace t) (tScope t) (Some group) (tMember t)) (cmWarnings runtime).

Definition resolveInteractiveGroup (app : adapter) (runtime : commandRuntime) (force : bool) : cli commandRuntime :=
  if negb (ConfigProject.resCitus (cmResolved runtime)) || negb (is_nil (tGroup (cmTarget runtime))) || force
  then Done runtime
  else
    value ← promptValue app "Citus group" "";
    match ParseInt (TrimSpace value) with
    | Some group => if (group <? 0)%Z then Raise (usageError "Citus group must be a non-negative integer")
                    else Done (with_group runtime group)
    | None => Raise (usageError "Citus group must be a non-negative integer")
    end.

(** ** Handlers *)

Definition rest_write (app : adapter) (scope : string) (group : option Z) (useConfigured : bool) : runtimeRequest :=
  mkRuntimeRequest Config.OperationRESTWrite scope group useConfigured false.

Definition citus (runtime : commandRuntime) : bool := ConfigProject.resCitus (cmResolved runtime).

(** [if err := promptValue(...); err != nil { return err }] unless given *)
Definition unless (given : bool) (value : string) (prompt : cli string) : cli string := if given then Done value else prompt.

Definition removePrompt (scope : string) : string :=
  "You are about to remove all information in DCS for " +:+ scope +:+ ", please type: " +:+ Quote RemoveAcknowledgement.

(** The confirmations of [runRemove]: given as options, or typed. *)
Definition removeConfirmation (app : adapter) (runtime : commandRuntime) (options : removeOptions) (explicit : bool) (plan : Plan)
    : cli RemoveConfirmation :=
  _ ← check (negb explicit || ((rmoConfirmCluster options !=s "") && (rmoAcknowledgement options !=s "")))
        (usageError "non-interactive remove requires --confirm-cluster and --acknowledge-removal");
  clusterName ← unless explicit (rmoConfirmCluster options) (promptValue app "Please confirm the cluster name to remove" "");
  _ ← check (clusterName ==s tScope (cmTarget runtime)) (usageError "Cluster names specified do not match");
  acknowledgement ← unless explicit (rmoAcknowledgement options) (promptValue app (removePrompt (tScope (cmTarget runtime))) "");
  _ ← check (acknowledgement ==s RemoveAcknowledgement) (usageError ("You did not exactly type " +:+ Quote RemoveAcknowledgement));
  let leader := deref "" (planPrecondition plan "remove.leader") in
  confirmed ←
    (if leader ==s "" then Done (rmoConfirmLeader options)
     else
       name ← unless explicit (rmoConfirmLeader options)
                (promptValue app "This cluster currently is healthy. Please specify the leader name to continue" "");
       _ ← check (name ==s leader) (usageError "You did not specify the current leader of the cluster");
       Done name);
  Done (mkRemoveConfirmation clusterName acknowledgement confirmed).

Definition explicit_confirmation (options : removeOptions) : bool :=
  (rmoConfirmCluster options !=s "") || (rmoAcknowledgement options !=s "") || (rmoConfirmLeader options !=s "").

Definition show_removed (app : adapter) (runtime : commandRuntime) (format : string) : cli unit :=
  if human app then
    listed ← lift (List (cmService runtime) true (mkListRequest [cmTarget runtime] false false));
    if bool_decide (rOutcome listed = Succeeded)
    then guard_with (internal "rendering remove target failed") (renderListData (rData listed) (citus runtime) false format)
    else Done tt
  else Done tt.

Definition runRemove (app : adapter) (args : list string) (options : removeOptions) : cli unit :=
  _ ← check (oneOf (rmoFormat options) ["pretty"; "tsv"; "json"; "yaml"; "yml"]) (invalid_format (rmoFormat options));
  let explicit := explicit_confirmation options in
  _ ← (if explicit then Done tt else require_prompt app);
  with_runtime app (rest_write app (firstArgument args) (optionalGroup app (rmoGroup options)) false) (λ runtime,
    let request := mkRemoveRequest (cmTarget runtime) (citus runtime) in
    prepared ← lift (PrepareRemove (cmService runtime) true request);
    plan ← preparedPlan app runtime prepared;
    _ ← show_removed app runtime (rmoFormat options);
    confirmation ← removeConfirmation app runtime options explicit plan;
    r ← lift (ExecuteRemove (cmService runtime) true request confirmation plan);
    finishWriteResult app runtime r "RemoveResult" (λ _, Done tt)).

Definition planned_loop_wait (plan : Plan) : Z :=
  match planPrecondition plan "cluster.loopWait" ≫= ParseInt with
  | Some parsed => if (0 <? parsed)%Z then parsed else 10
  | None => 10
  end.

Definition runReload (app : adapter) (args : list string) (options : reloadOptions) : cli unit :=
  role ← parseRole (rloRole options);
  with_runtime app (rest_write app (firstArgument args) (optionalGroup app (rloGroup options)) false) (λ runtime,
    let request := mkReloadRequest (cmTarget runtime) (tail args) role (citus runtime) in
    prepared ← lift (PrepareReload (cmService runtime) true request);
    plan ← confirmPreparedPlan app runtime prepared (rloForce options) "Are you sure you want to reload members %s?";
    r ← lift (ExecuteReload (cmService runtime) true request plan);
    finishWriteResult app runtime r "ReloadResult" (renderReloadWrite (planned_loop_wait plan))).

Definition restartQuestion (scheduled : option Time) : string :=
  if is_nil scheduled then "Are you sure you want to restart members %s?"
  else "Are you sure you want to schedule restart of members %s?".

Definition runRestart (app : adapter) (args : list string) (options : restartOptions) : cli unit :=
  role ← parseRole (rsoRole options);
  scheduledText ← unless (rsoForce options || adChanged app "scheduled") (rsoScheduled options)
                    (promptValue app "When should the restart take place" "now");
  scheduledAt ← parseScheduled scheduledText;
  postgresVersion ← unless (rsoForce options || adChanged app "pg-version") (rsoPgVersion options)
                      (promptValue app "Restart if the PostgreSQL version is less than provided (e.g. 9.5.2)" "");
  with_runtime app (rest_write app (firstArgument args) (optionalGroup app (rsoGroup options)) false) (λ runtime,
    let request :=
      mkRestartRequest (cmTarget runtime) (tail args) role (rsoAny options) scheduledAt postgresVersion (rsoPending options)
        (rsoTimeout options) (rsoForce options) (citus runtime) in
    prepared ← lift (PrepareRestart (cmService runtime) true request);
    plan ← confirmPreparedPlan app runtime prepared (rsoForce options) (restartQuestion scheduledAt);
    r ← lift (ExecuteRestart (cmService runtime) true request plan);
    finishWriteResult app runtime r "RestartResult" renderRestartWrite).

Definition reinit_members (app : adapter) (runtime : commandRuntime) (force : bool) (members : list string) : cli (list string) :=
  match members, force with
  | [], false =>
      candidates ← replicaNamesForPrompt app runtime;
      selected ← promptValue app ("Which member do you want to reinitialize [" +:+ Join candidates ", " +:+ "]?") "";
      Done [selected]
  | members, _ => Done members
  end.

Definition runReinit (app : adapter) (args : list string) (options : reinitOptions) : cli unit :=
  with_runtime app (rest_write app (firstArgument args) (optionalGroup app (rioGroup options)) false) (λ runtime,
    members ← reinit_members app runtime (rioForce options) (tail args);
    let request :=
      mkReinitializeRequest (cmTarget runtime) members (rioForce options) (rioFromLeader options) (rioWait options) (citus runtime) in
    prepared ← lift (PrepareReinitialize (cmService runtime) true request);
    plan ← confirmPreparedPlan app runtime prepared (rioForce options) "Are you sure you want to reinitialize members %s?";
    r ← lift (ExecuteReinitialize (cmService runtime) true request plan);
    finishWriteResult app runtime r "ReinitializeResult" renderReinitializeWrite).

Definition candidatePrompt (app : adapter) (cluster : model.Cluster) : cli string :=
  promptValue app "Candidate" (Join (failoverCandidates cluster) ",").

Definition confirmFailover (app : adapter) (runtime : commandRuntime) (plan : Plan) : cli unit :=
  _ ← (if deref "" (planPrecondition plan "candidate.syncEligible") ==s "false"
       then
         confirmed ← confirm app "Candidate is not synchronous. Are you sure you want to fail over?";
         check confirmed (abortedError "Aborting failover")
       else Done tt);
  confirmPlan app plan ("Are you sure you want to failover cluster " +:+ tScope (cmTarget runtime) +:+ "?").

Definition runFailover (app : adapter) (args : list string) (options : failoverOptions) : cli unit :=
  with_runtime app (rest_write app (firstArgument args) (optionalGroup app (foGroup options)) false) (λ runtime,
    runtime ← resolveInteractiveGroup app runtime (foForce options);
    let given := TrimSpace (foCandidate options) in
    candidate ← (if (given ==s "") && negb (foForce options)
                 then cluster ← clusterForPrompt app runtime; candidatePrompt app cluster else Done given);
    let request := mkFailoverRequest (cmTarget runtime) candidate (foForce options) (citus runtime) in
    prepared ← lift (PrepareFailover (cmService runtime) true request);
    plan ← preparedPlan app runtime prepared;
    _ ← (if foForce options then Done tt else confirmFailover app runtime plan);
    r ← lift (ExecuteFailover (cmService runtime) true request plan);
    finishWriteResult app runtime r "FailoverResult" renderClusterWrite).

(** The leader and the candidate, asked for when they were not given. *)
Definition switchover_members (app : adapter) (runtime : commandRuntime) (options : switchoverOptions) : cli (string * string) :=
  let leader := TrimSpace (soLeader options) in
  let candidate := TrimSpace (soCandidate options) in
  if negb (soForce options) && ((leader ==s "") || (candidate ==s ""))
  then
    cluster ← clusterForPrompt app runtime;
    leader ← unless (leader !=s "") leader (promptValue app "Current leader" (model.cLeader cluster));
    candidate ← unless (candidate !=s "") candidate (candidatePrompt app cluster);
    Done (leader, candidate)
  else Done (leader, candidate).

Definition runSwitchover (app : adapter) (args : list string) (options : switchoverOptions) : cli unit :=
  with_runtime app (rest_write app (firstArgument args) (optionalGroup app (soGroup options)) false) (λ runtime,
    runtime ← resolveInteractiveGroup app runtime (soForce options);
    members ← switchover_members app runtime options;
    scheduledText ← unless (soForce options || adChanged app "scheduled") (soScheduled options)
                      (promptValue app "When should the switchover take place" "now");
    scheduledAt ← parseScheduled scheduledText;
    let request :=
      mkSwitchoverRequest (cmTarget runtime) members.1 members.2 scheduledAt (soForce options) (citus runtime) in
    prepared ← lift (PrepareSwitchover (cmService runtime) true request);
    plan ← confirmPreparedPlan app runtime prepared (soForce options) "Are you sure you want to switchover cluster %s?";
    r ← lift (ExecuteSwitchover (cmService runtime) true request plan);
    finishWriteResult app runtime r "SwitchoverResult" renderClusterWrite).

(** The arguments are the cluster, members and the event, at least two. *)
Definition runFlush (app : adapter) (args : list string) (options : flushOptions) : cli unit :=
  let eventText := deref "" (last args) in
  match find_first (λ e, FlushEvent_text e ==s eventText) [FlushRestart; FlushSwitchover] with
  | None => Raise (usageError "flush target must be restart or switchover")
  | Some event =>
      role ← parseRole (floRole options);
      with_runtime app (rest_write app (firstArgument args) (optionalGroup app (floGroup options)) false) (λ runtime,
        let request := mkFlushRequest (cmTarget runtime) event (removelast (tail args)) role (floForce options) (citus runtime) in
        prepared ← lift (PrepareFlush (cmService runtime) true request);
        plan ← confirmPreparedPlan app runtime prepared (floForce options) "Are you sure you want to flush members %s?";
        r ← lift (ExecuteFlush (cmService runtime) true request plan);
        finishWriteResult app runtime r "FlushResult" renderFlushWrite)
  end.

Definition runPause (app : adapter) (args : list string) (options : pauseOptions) (resume : bool) : cli unit :=
  with_runtime app (rest_write app (firstArgument args) (optionalGroup app (poGroup options)) true) (λ runtime,
    let request := mkPauseRequest (cmTarget runtime) (poWait options) (citus runtime) in
    prepared ← lift ((if resume then PrepareResume else PreparePause) (cmService runtime) true request);
    plan ← preparedPlan app runtime prepared;
    r ← lift ((if resume then ExecuteResume else ExecutePause) (cmService runtime) true request plan);
    finishWriteResult app runtime r (if resume then "ResumeResult" else "PauseResult") renderPauseWrite).

(** [if err.Error() == "Aborted demote-cluster" { return abortedError(...) }] *)
Definition demotion_aborted (e : cli_error) : cli Plan :=
  Raise (if error_message e ==s "Aborted demote-cluster" then abortedError "Aborted cluster demotion" else e).

Definition runDemoteCluster (app : adapter) (args : list string) (options : demoteClusterOptions) : cli unit :=
  _ ← check (negb ((TrimSpace (dmHost options) ==s "") && (dmPort options =? 0)%Z && (TrimSpace (dmRestoreCommand options) ==s "")))
        (usageError "At least --host, --port or --restore-command should be specified");
  with_runtime app (rest_write app (firstArgument args) None false) (λ runtime,
    let request :=
      mkDemoteClusterRequest (cmTarget runtime)
        (mkStandbyConfig (dmHost options) (dmPort options) (dmRestoreCommand options) (dmPrimarySlotName options))
        (dmForce options) (citus runtime) in
    prepared ← lift (PrepareDemoteCluster (cmService runtime) true request);
    plan ← on_error demotion_aborted
             (confirmPreparedPlan app runtime prepared (dmForce options)
                ("Are you sure you want to demote " +:+ tScope (cmTarget runtime) +:+ " cluster?"));
    r ← lift (ExecuteDemoteCluster (cmService runtime) true request plan);
    finishWriteResult app runtime r "DemoteClusterResult" renderClusterRoleWrite).

Definition runPromoteCluster (app : adapter) (args : list string) (options : promoteClusterOptions) : cli unit :=
  with_runtime app (rest_write app (firstArgument args) None false) (λ runtime,
    let request := mkPromoteClusterRequest (cmTarget runtime) (pmForce options) (citus runtime) in
    prepared ← lift (PreparePromoteCluster (cmService runtime) true request);
    plan ← confirmPreparedPlan app runtime prepared (pmForce options) "Are you sure you want to promote cluster %s?";
    r ← lift (ExecutePromoteCluster (cmService runtime) true request plan);
    finishWriteResult app runtime r "PromoteClusterResult" renderClusterRoleWrite).

End with_std.
