(* ===== verification/CliEdit.v ===== *)
(** * The [edit-config] command and the root of the command tree:
    [internal/cli/edit_config_handler.go], [write_commands.go], [root.go]

    [run_write] is the handler of each command that changes a cluster, as its
    [RunE]; [execute] wraps it the way [wrapCommandErrors] and [ExecuteContext]
    do, up to the exit status. *)

From S2P Require Import Prelude GoStrings GoErrors PgTypes GoTime Target Version Values Json Effects Contract Batch.
From S2P Require Import ConfigPatch EditConfig Select Cluster Reads Cli CliRender CliWrite.
From S2P Require Config ConfigProject Secret.

Record editConfigOptions := mkEditConfigOptions {
  eoGroup : Z;
  eoQuiet : bool;
  eoSettings : list string;
  eoPgSettings : list string;
  eoApplyFile : string;
  eoReplaceFile : string;
  eoForce : bool
}.

(** [yaml.Unmarshal] into a [map[string]any] and into an [any]: none when it
    fails, a nil map for a document that is null.  The values are those JSON
    can carry; a document with others is outside the model. *)
Class YamlInput := {
  yaml_config : string → option (option config);
  yaml_value : string → option value
}.

(** [defer f()] of a call whose result is dropped *)
Fixpoint deferred {A} (a : action) (p : cli A) : cli A :=
  match p with
  | Done v => Act a (λ _, Done v)
  | Raise e => Act a (λ _, Raise e)
  | Panic => Act a (λ _, Panic)
  | Act b k => Act b (λ r, deferred a (k r))
  end.

Definition fail_if (failure : option string) (e : cli_error) : cli unit := match failure with Some _ => Raise e | None => Done tt end.

Section with_std.
Context `{GoStd, Encoders, CliStd, LocalZone, YamlInput}.

(** ** Input *)

Definition configError (message : string) : cli_error := exit_error CategoryConfig message.
Definition failedError (message : string) : cli_error := exit_error CategoryFailed message.

Definition read_input (filename : string) : cli (option string) :=
  if filename ==s "-" then do_act AReadAll else do_act (AReadFile filename).

Definition readConfigMap (filename : string) : cli (option config) :=
  canceled ← do_act (ACall CCtxErr);
  _ ← check (is_nil canceled) (failedError "configuration input canceled");
  data ← read_input filename;
  match data with
  | None => Raise (configError "configuration file is not readable")
  | Some data =>
      if TrimSpace data ==s "" then Done (Some [])
      else match yaml_config data with
           | Some configuration => Done configuration
           | None => Raise (configError "configuration file is not valid YAML")
           end
  end.

Definition blank (c : ascii) : bool := Ascii.eqb c " " || Ascii.eqb c "009".

Definition parse_setting (setting : string) : cli_error + ConfigSetting :=
  match Cut "=" setting with
  | None => inl (usageError ("invalid parameter setting " +:+ Quote setting))
  | Some (path, raw) =>
      let path := TrimSpace path in
      if path ==s "" then inl (usageError ("invalid parameter setting " +:+ Quote setting))
      else match yaml_value raw with
           | None => inl (usageError ("invalid YAML value for setting " +:+ Quote path))
           | Some v => inr (mkSetting path v)
           end
  end.

Fixpoint parse_settings (all : list string) : cli (list ConfigSetting) :=
  match all with
  | [] => Done []
  | setting :: rest =>
      match parse_setting setting with
      | inl err => Raise err
      | inr setting => settings ← parse_settings rest; Done (setting :: settings)
      end
  end.

Definition parseConfigSettings (settings postgresSettings : list string) : cli (list ConfigSetting) :=
  parse_settings (settings ++ ((λ setting, "postgresql.parameters." +:+ TrimLeft blank setting) <$> postgresSettings)).

(** ** The editor *)

Fixpoint look_path (candidates : list string) : cli string :=
  match candidates with
  | [] => Done ""
  | candidate :: rest =>
      path ← do_act (ALookPath candidate);
      match path with Some path => Done path | None => look_path rest end
  end.

Definition find_editor : cli string :=
  editor ← do_act (AGetenv "EDITOR");
  let editor := TrimSpace editor in
  if editor ==s "" then look_path ["editor"; "vi"] else Done editor.

Definition backslash_byte : ascii := "092".
Definition scope_file_name (scope : string) : string := ReplaceByte "/" "_" (ReplaceByte backslash_byte "_" scope).

(** The file is written, closed, edited and read back; it is removed at the end. *)
Definition edit_file (editor name encoded : string) : cli (option config) :=
  mode ← do_act (AFile name Chmod0600);
  match mode with
  | Some _ =>
      _ ← do_act (AFile name CloseFile);
      Raise (failedError "temporary editor file permissions could not be secured")
  | None =>
      written ← do_act (AFile name (WriteFile encoded));
      closed ← do_act (AFile name CloseFile);
      _ ← fail_if (match written with Some err => Some err | None => closed end)
            (failedError "temporary editor file could not be written");
      edited ← do_act (ARunEditor editor name);
      match edited with
      | Some EditCanceled => Raise (failedError "configuration editor canceled")
      | Some EditFailed => Raise (failedError "configuration editor failed")
      | None =>
          data ← do_act (AReadFile name);
          match data with
          | None => Raise (failedError "edited configuration could not be read")
          | Some data =>
              match yaml_config data with
              | Some configuration => Done configuration
              | None => Raise (configError "edited configuration is not valid YAML")
              end
          end
      end
  end.

Definition editConfigInEditor (app : adapter) (scope : string) (current : config) : cli (option config) :=
  match promptUnavailableError app with
  | Some _ => Raise (usageError "configuration editing requires a terminal and human output; use --apply or --replace")
  | None =>
      editor ← find_editor;
      if editor ==s "" then Raise (configError "EDITOR is not set and editor or vi is not available")
      else
        match yaml_Text (YamlConfig current) with
        | None => Raise (configError "dynamic configuration cannot be encoded for editing")
        | Some encoded =>
            file ← do_act (ACreateTemp (scope_file_name scope +:+ "-config-*.yaml"));
            match file with
            | None => Raise (failedError "temporary editor file could not be created")
            | Some name => deferred (AFile name RemoveFile) (edit_file editor name encoded)
            end
        end
  end.

(** ** The difference *)

Definition diff_lines (sign : string) (text : string) : list string :=
  (λ line, sign +:+ line) <$> Split newline (TrimSuffix (Secret.Redact text []) (String newline "")).

Definition renderConfigDiff (preview : ConfigEditPreview) : cli unit :=
  if pvNoop preview then println Stdout "Not changed"
  else
    match yaml_Text (YamlConfig (pvBefore preview)), yaml_Text (YamlConfig (pvAfter preview)) with
    | Some before, Some after =>
        each (println Stdout) (["--- before"] ++ diff_lines "-" before ++ ["+++ after"] ++ diff_lines "+" after)
    | _, _ => Raise documentError
    end.

(** ** [runEditConfig] *)

Definition edit_input (file : string) : cli (option config) := if file ==s "" then Done None else readConfigMap file.

(** The edit that the options, the files and the editor ask for. *)
Definition requested_edit (app : adapter) (runtime : commandRuntime) (options : editConfigOptions) (current : config)
    : cli ConfigEdit :=
  replacement ← edit_input (eoReplaceFile options);
  patch ← edit_input (eoApplyFile options);
  settings ← parseConfigSettings (eoSettings options) (eoPgSettings options);
  if is_nil replacement && is_nil patch && is_nil (head settings)
  then
    replacement ← editConfigInEditor app (tScope (cmTarget runtime)) current;
    Done (mkConfigEdit replacement None settings)
  else Done (mkConfigEdit replacement patch settings).

Definition render_edit (outcome : Outcome) (data : ConfigEditData) : cli unit :=
  if cedNoop data then println Stdout "Not changed"
  else if bool_decide (outcome = Succeeded) then println Stdout "Configuration changed" else Done tt.

Definition apply_edit (app : adapter) (runtime : commandRuntime) (options : editConfigOptions) (noop : bool)
    (request : EditConfigRequest) : cli unit :=
  prepared ← lift (PrepareEditConfig (cmService runtime) true request);
  plan ← preparedPlan app runtime prepared;
  _ ← (if negb noop && negb (eoForce options) then confirmPlan app plan "Apply these changes?" else Done tt);
  r ← lift (ExecuteEditConfig (cmService runtime) true request plan);
  finishWriteResult app runtime r "ConfigEditResult" (render_edit (rOutcome r)).

Definition preview_edit (app : adapter) (options : editConfigOptions) (preview : ConfigEditPreview) : cli unit :=
  if negb (eoQuiet options) && human app
  then guard_with (internal "rendering configuration diff failed") (renderConfigDiff preview) else Done tt.

Definition from_stdin (options : editConfigOptions) : bool := (eoApplyFile options ==s "-") || (eoReplaceFile options ==s "-").

Definition runEditConfig (app : adapter) (args : list string) (options : editConfigOptions) : cli unit :=
  if (eoApplyFile options ==s "-") && (eoReplaceFile options ==s "-")
  then Raise (usageError "--apply - and --replace - cannot both consume standard input")
  else
  with_runtime app (rest_write app (firstArgument args) (optionalGroup app (eoGroup options)) true) (λ runtime,
    current ← lift (ShowConfig (cmService runtime) true (mkClusterRequest (cmTarget runtime) false));
    if negb (bool_decide (rOutcome current = Succeeded))
    then finishResult app (output app) runtime current "DynamicConfig" (λ _, Done tt)
    else
      edit ← requested_edit app runtime options (cdConfig (rData current));
      let request := mkEditConfigRequest (cmTarget runtime) edit (citus runtime) in
      match PreviewEditConfig (cdConfig (rData current)) edit with
      | inl err => Raise (usageError "edit-config requires replacement, apply patch, or settings")
      | inr preview =>
          _ ← preview_edit app options preview;
          if from_stdin options && negb (eoForce options)
          then if negb (human app)
               then Raise (usageError "--force is required when machine output consumes configuration from standard input")
               else println Stdout "Use --force option to apply changes"
          else apply_edit app runtime options (pvNoop preview) request
      end).

(** ** The command tree *)

Inductive write_command :=
| CmdRemove (options : removeOptions)
| CmdReload (options : reloadOptions)
| CmdRestart (options : restartOptions)
| CmdReinit (options : reinitOptions)
| CmdFailover (options : failoverOptions)
| CmdSwitchover (options : switchoverOptions)
| CmdFlush (options : flushOptions)
| CmdPause (options : pauseOptions) (resume : bool)
| CmdEditConfig (options : editConfigOptions)
| CmdDemoteCluster (options : demoteClusterOptions)
| CmdPromoteCluster (options : promoteClusterOptions).

(** The [RunE] of a command, after its [Args] accepted the arguments. *)
Definition run_write (app : adapter) (command : write_command) (args : list string) : cli unit :=
  match command with
  | CmdRemove options => runRemove app args options
  | CmdReload options => runReload app args options
  | CmdRestart options => runRestart app args options
  | CmdReinit options => runReinit app args options
  | CmdFailover options => runFailover app args options
  | CmdSwitchover options => runSwitchover app args options
  | CmdFlush options => runFlush app args options
  | CmdPause options resume => runPause app args options resume
  | CmdEditConfig options => runEditConfig app args options
  | CmdDemoteCluster options => runDemoteCluster app args options
  | CmdPromoteCluster options => runPromoteCluster app args options
  end.

Definition command_name (command : write_command) : string :=
  match command with
  | CmdRemove _ => "remove" | CmdReload _ => "reload" | CmdRestart _ => "restart" | CmdReinit _ => "reinit"
  | CmdFailover _ => "failover" | CmdSwitchover _ => "switchover" | CmdFlush _ => "flush"
  | CmdPause _ resume => if resume then "resume" else "pause"
  | CmdEditConfig _ => "edit-config" | CmdDemoteCluster _ => "demote-cluster" | CmdPromoteCluster _ => "promote-cluster"
  end.

(** The arguments the command's [Args] accepts. *)
Definition accepts (command : write_command) (args : list string) : bool :=
  let n := length args in
  match command with
  | CmdRemove _ => (n =? 1)%nat
  | CmdReload _ | CmdRestart _ | CmdReinit _ => (1 <=? n)%nat
  | CmdFlush _ => (2 <=? n)%nat
  | _ => (n <=? 1)%nat
  end.

(** [validateOutputContract], run before the command. *)
Definition validateOutputContract (app : adapter) : option cli_error :=
  if negb (oneOf (output app) [""; "human"; "json"; "yaml"]) then Some (usageError ("invalid --output " +:+ Quote (output app) +:+ ": choose human, json, or yaml"))
  else if (output app !=s "") && adChanged app "format" then Some (usageError "--format and --output are mutually exclusive")
  else None.

(** The command's [Args], the root's [PersistentPreRunE] and its [RunE], each
    with its error rendered. *)
Definition wrapped (app : adapter) (name : string) (accepted : bool) (args : list string) (handler : cli unit) : cli unit :=
  if negb accepted then renderCommandError app name args (usageError (args_error name args))
  else
    match validateOutputContract app with
    | Some err => renderCommandError app name [] err
    | None => on_error (renderCommandError app name args) handler
    end.

(** [ExecuteContext]: the exit status; 2 is that of a Go panic. *)
Fixpoint exit_status (p : cli unit) : cli Z :=
  match p with
  | Done _ => Done 0%Z
  | Raise err =>
      if errorWasRendered err then Done (exitCode (Some err))
      else Act (AWrite Stderr (error_message err +:+ String newline "")) (λ _, Done (exitCode (Some err)))
  | Panic => Done 2%Z
  | Act a k => Act a (λ r, exit_status (k r))
  end.

Definition execute (app : adapter) (command : write_command) (args : list string) : cli Z :=
  exit_status (wrapped app (command_name command) (accepts command args) args (run_write app command args)).

End with_std.
