(* ===== verification/CliRead.v ===== *)
(** * The commands that read: [internal/cli/read_handlers.go], [read_commands.go]

    A watch is run for at most [ticks] intervals: its context is done by then. *)

From Stdlib Require Import SpecFloat.
From S2P Require Import Prelude GoStrings GoErrors PgTypes GoTime Target Version Values Json Dcs Effects Contract.
From S2P Require Import Select Cluster Reads Cli CliRender CliWrite CliEdit.
From S2P Require Config ConfigProject Inspect Runtime Secret.
Import model.

(** ** Options *)

Record dsnOptions := mkDsnOptions { doRole : string; doMember : string; doGroup : Z }.
Record queryOptions := mkQueryOptions {
  qoGroup : Z; qoFormat : string; qoFile : string; qoPassword : bool; qoUsername : string; qoWatchTwo : bool;
  qoWatch : spec_float; qoRole : string; qoMember : string; qoDelimiter : string; qoCommand : string; qoDatabase : string
}.
Record listOptions := mkListOptions {
  loGroup : Z; loAll : bool; loExtended : bool; loTimestamp : bool; loFormat : string; loWatchTwo : bool; loWatch : spec_float
}.
Record topologyOptions := mkTopologyOptions { toGroup : Z; toAll : bool; toWatchTwo : bool; toWatch : spec_float }.
Record historyOptions := mkHistoryOptions { hoGroup : Z; hoFormat : string }.

(** ** Watching *)

(** [time.Duration(f)]: truncated; outside [int64] Go leaves it to the platform. *)
Definition float_truncate (f : spec_float) : Z :=
  match f with
  | S754_finite s m e =>
      let magnitude := if (0 <=? e)%Z then (Zpos m * 2 ^ e)%Z else (Zpos m / 2 ^ (- e))%Z in
      if s then (- magnitude)%Z else magnitude
  | _ => 0%Z
  end.

Definition float_second : spec_float := S754_finite false 8388608000000000 (-23).

Definition float_zero : spec_float := S754_zero false.

Definition float_finite (f : spec_float) : bool := match f with S754_nan | S754_infinity _ => false | _ => true end.

Definition watchInterval (twoSeconds : bool) (seconds : spec_float) : cli Z :=
  if twoSeconds && negb (SFeqb seconds float_zero) then Raise (usageError "-W and --watch are mutually exclusive")
  else if twoSeconds then Done 2000000000%Z
  else if SFltb seconds float_zero || negb (float_finite seconds)
  then Raise (usageError "--watch must be a finite non-negative number")
  else Done (float_truncate (SFmul 53 1024 seconds float_second)).

Fixpoint runWatch (ticks : nat) (interval : Z) (body : cli unit) : cli unit :=
  _ ← body;
  if (interval <=? 0)%Z then Done tt
  else
    let canceled := Raise (exit_error CategoryFailed "watch canceled") in
    fired ← do_act ATick;
    match ticks with
    | S ticks => if fired : bool then runWatch ticks interval body else canceled
    | O => canceled
    end.

(** ** Machine projections *)

Definition map_result {T U} (f : T → U) (r : Result T) : Result U :=
  mkResult (rOperationID r) (rOutcome r) (rTarget r) (rPath r) (f (rData r)) (rEvidence r) (rError r).

Definition projectMachineCluster (c : model.Cluster) : machineCluster :=
  mkMachineCluster (cTarget c) (cDiscoveryState c) (cManagementState c) (cReachabilityState c) (cHealthState c) (cRevision c)
    (cInitialize c) (cLeader c) (cPaused c) (cScheduledSwitchover c) (cMembers c).

Definition machineClusterListResult (r : Result ListData) : Result (list machineCluster) :=
  map_result (λ d, projectMachineCluster <$> ldClusters d) r.

Definition machine_summary (c : ClusterSummary) : machineClusterSummary :=
  mkMachineClusterSummary (csuTarget c) (csuDiscoveryState c) (csuManagementState c) (csuReachabilityState c)
    (csuHealthState c) (csuRevision c) (csuMemberCount c) (csuLeader c).

Definition machineDiscoveryResult (r : Result DiscoverData) : Result (list machineClusterSummary) :=
  map_result (λ d, machine_summary <$> ddClusters d) r.

Definition machine_topology (t : TopologyData) : machineTopology :=
  mkMachineTopology (projectMachineCluster (tdCluster t))
    ((λ m, mkMachineTopologyMember (tmMember m) (tmParent m) (tmDepth m)) <$> tdMembers t).

Definition machineTopologyListResult (r : Result TopologyListData) : Result (list machineTopology) :=
  map_result (λ d, machine_topology <$> tlTopologies d) r.

Definition newMachineVersionInfo (app : adapter) (members : list MemberVersion) : machineVersionInfo :=
  let b := adBuild app in
  mkMachineVersionInfo (Runtime.current_version b) (Runtime.ldCommit b) (Runtime.ldBuildTime b) (Runtime.goVersion b)
    Runtime.SupportedPatroni Runtime.MachineSchema (apInfo (adApplication app))
    ((λ m, mkMachineMemberVersion (mvTarget m) (mvPatroniVersion m) (mvPostgresVersion m) (mvHTTPStatus m)
             (newMachineError (mvError m))) <$> members).

Definition machineVersionResult (app : adapter) (r : Result VersionData) : Result machineVersionInfo :=
  map_result (λ d, newMachineVersionInfo app (vdMembers d)) r.

(** ** [yamlCompatibleValue] *)

Fixpoint yamlCompatibleValue `{GoStd} (v : value) : Config.yvalue :=
  match v with
  | VNull => Config.YNull
  | VBool b => Config.YBool b
  | VNumber text =>
      match ParseInt text with
      | Some n => Config.YInt64 n
      | None => match ParseFloat text with Some f => Config.YFloat f | None => Config.YString text end
      end
  | VFloat f => Config.YFloat f
  | VString s => Config.YString s
  | VList items => Config.YList (List.map yamlCompatibleValue items)
  | VMap fields => Config.YMap (List.map (λ kv, (kv.1, yamlCompatibleValue kv.2)) fields)
  end.

(** ** Tables *)

Definition ReachabilityState_text (s : ReachabilityState) : string :=
  match s with
  | ReachabilityReachable => "REACHABLE" | ReachabilityPartiallyReachable => "PARTIALLY_REACHABLE"
  | ReachabilityUnreachable => "UNREACHABLE" | ReachabilityUnknown => "UNKNOWN"
  end.

Definition has_group (clusters : list Target) : bool := existsb (λ t, negb (is_nil (tGroup t))) clusters.

Definition clusterListHasGroup (data : ListData) : bool := has_group (cTarget <$> ldClusters data).

(** [Duration.String] *)
Definition fraction_text (n : Z) (digits : nat) : string :=
  let text := TrimRight (Ascii.eqb "0") (digits_of digits (n mod 10 ^ Z.of_nat digits)) in
  FormatInt (n / 10 ^ Z.of_nat digits) +:+ (if text ==s "" then "" else "." +:+ text).

Definition micro : string := String (byte 194) (String (byte 181) "s").

Definition Duration_String (d : Z) : string :=
  let u := Z.abs d in
  (if (d <? 0)%Z then "-" else "") +:+
  (if (u =? 0)%Z then "0s"
   else if (u <? 1000)%Z then FormatInt u +:+ "ns"
   else if (u <? 1000000)%Z then fraction_text u 3 +:+ micro
   else if (u <? 1000000000)%Z then fraction_text u 6 +:+ "ms"
   else
     let seconds := (u / 1000000000)%Z in
     let minutes := (seconds / 60)%Z in
     (if (minutes <? 60)%Z then "" else FormatInt (minutes / 60) +:+ "h") +:+
     (if (minutes =? 0)%Z then "" else FormatInt (minutes mod 60) +:+ "m") +:+
     fraction_text (u mod 60000000000)%Z 9 +:+ "s").

Definition milliseconds (n : Z) : cell := CellText (Duration_String (int64_wrap (n * 1000000)%Z)).

Section with_std.
Context `{GoStd, Encoders, CliStd, LocalZone}.

Definition renderDiscoveryData (data : DiscoverData) (format : string) : cli unit :=
  let hasGroup := has_group (csuTarget <$> ddClusters data) in
  let headers := ["Scope"] ++ (if hasGroup then ["Group"] else []) ++ ["Members"; "Leader"; "Reachability"; "DCS Revision"] in
  let row c :=
    [CellText (tScope (csuTarget c))] ++ (if hasGroup then [groupValue (tGroup (csuTarget c))] else []) ++
    [CellInt (csuMemberCount c); CellText (csuLeader c); CellNamed (ReachabilityState_text (csuReachabilityState c));
     CellInt (csuRevision c)] in
  renderRows headers (row <$> ddClusters data) format tab "".

Definition query_cell (c : Cell) : cell := if ceNull c then CellNil else CellText (ceText c).

Definition renderQueryData (data : QueryData) (format delimiter observedAt : string) : cli unit :=
  match qdError data with
  | Some err => renderRows ["Timestamp"; "Error"] [[CellText observedAt; CellText (qeMessage err)]] format delimiter ""
  | None =>
      each (λ set, if is_nil (head (rsColumns set)) then Done tt
                   else renderRows (clName <$> rsColumns set) ((λ row : list Cell, query_cell <$> row) <$> rsRows set) format delimiter "")
        (qrSets (qdResult data))
  end.

Definition renderHistory (data : HistoryData) (format : string) : cli unit :=
  renderRows ["TL"; "LSN"; "Reason"; "Timestamp"; "New Leader"]
    ((λ e, [CellInt (heTimeline e); CellInt (heLSN e); CellText (heReason e); CellText (heTimestamp e); CellText (heNewLeader e)])
       <$> hdEntries data) format tab "".

(** The members as the cluster lists them, named by their depth. *)
Definition topology_name (members : list TopologyMember) (m : model.Member) : string :=
  match map_of_list (λ t, mName (tmMember t)) members !! mName m with
  | Some t =>
      if (0 <? tmDepth t)%Z
      then String.concat "" (replicate (Z.to_nat (tmDepth t - 1)) "  ") +:+ "+ " +:+ mName m else mName m
  | None => mName m
  end.

Definition with_name (m : model.Member) (name : string) : model.Member :=
  mkMember (mTarget m) name (mAPIURL m) (mHost m) (mPort m) (mRole m) (mState m) (mTimeline m) (mReceiveLSN m)
    (mReceiveLagBytes m) (mReplayLSN m) (mReplayLagBytes m) (mPendingRestart m) (mPendingRestartReason m)
    (mScheduledRestart m) (mTags m) (mPatroniVersion m).

Definition with_members (c : model.Cluster) (members : list model.Member) : model.Cluster :=
  mkCluster (cTarget c) (cDiscoveryState c) (cManagementState c) (cReachabilityState c) (cHealthState c) (cRevision c)
    (cInitialize c) (cLeader c) (cPaused c) (cScheduledSwitchover c) members.

Definition renderTopologyData (data : TopologyData) : cli unit :=
  let c := tdCluster data in
  let members := (λ m, with_name m (topology_name (tdMembers data) m)) <$> cMembers c in
  renderListData (mkListData [with_members c members]) (negb (is_nil (tGroup (cTarget c)))) false "topology".

(** Lines of a YAML text, indented. *)
Definition indented (source : yaml_source) : cli unit :=
  match yaml_Text source with
  | None => Raise documentError
  | Some text => each (λ l, println Stdout ("  " +:+ l)) (Split newline (TrimSuffix text (String newline "")))
  end.

Definition deadline_rows (n : Inspect.NetworkTimeoutInspection) : list (list cell) :=
  [[CellText "DNS lookup"; milliseconds (Inspect.DNSLookupMilliseconds n)];
   [CellText "etcd3 dial"; milliseconds (Inspect.DCSDialMilliseconds n)];
   [CellText "etcd3 request/watch lease"; milliseconds (Inspect.DCSRequestMilliseconds n)];
   [CellText "Patroni REST request"; milliseconds (Inspect.PatroniRequestMilliseconds n)];
   [CellText "PostgreSQL query"; milliseconds (Inspect.PostgresQueryMilliseconds n)];
   [CellText "PostgreSQL close"; milliseconds (Inspect.PostgresCloseMilliseconds n)]].

Definition layer_cell (layer : option Config.Layer) : cell :=
  CellNamed (match layer with Some l => Config.Layer_text l | None => "" end).

Definition renderConfigurationInspection (data : Inspect.ConfigurationInspection) : cli unit :=
  _ ← println Stdout "Target:";
  _ ← indented (YamlTarget (Inspect.ciTarget data));
  _ ← println Stdout "Effective configuration:";
  _ ← indented (YamlValue (Inspect.ciEffective data));
  _ ← println Stdout "Network deadlines:";
  _ ← renderRows ["Network operation"; "Deadline"] (deadline_rows (Inspect.ciNetworkTimeouts data)) "pretty" tab "";
  _ ← println Stdout "Configuration sources:";
  let rows := (λ s, [CellText (Inspect.csField s); layer_cell (Inspect.csLayer s); CellText (Inspect.csName s)]) <$> Inspect.ciSources data in
  if is_nil (head rows) then println Stdout "  (none)"
  else renderRows ["Field"; "Layer"; "Source"] rows "pretty" tab "".

Definition version_line (app : adapter) : string :=
  apName (adApplication app) +:+ " version " +:+ apVersion (adApplication app).

Definition member_version_line (m : MemberVersion) : string :=
  tMember (mvTarget m) +:+ ": " +:+
  match mvError m with
  | Some err => "failed to get version: " +:+ errMessage err
  | None => "Patroni " +:+ mvPatroniVersion m +:+
            (if mvPostgresVersion m ==s "" then "" else " PostgreSQL " +:+ mvPostgresVersion m)
  end.

Definition renderVersion (app : adapter) (data : VersionData) : cli unit :=
  _ ← println Stdout (version_line app);
  _ ← (if is_nil (head (vdMembers data)) then Done tt else println Stdout "");
  each (λ m, println Stdout (member_version_line m)) (vdMembers data).

(** ** Handlers *)

Definition read_request (app : adapter) (operation : Config.Operation) (scope : string) (group : option Z)
    (useConfigured allowMissing : bool) : runtimeRequest := mkRuntimeRequest operation scope group useConfigured allowMissing.

Definition allow_unsupported (app : adapter) : bool := roAllowUnsupportedRead (adRoot app).

(** [finishResult] with the output of the command. *)
Definition finish {T} `{MachineData T} (app : adapter) (runtime : commandRuntime) (r : Result T) (kind : string)
    (compatible : T → cli unit) : cli unit := finishResult app (output app) runtime r kind compatible.

(** A machine projection of the result in machine mode. *)
Definition finish_projected {T U} `{MachineData T, MachineData U} (app : adapter) (runtime : commandRuntime) (r : Result T)
    (kind : string) (projected : Result U) (compatible : T → cli unit) : cli unit :=
  if machine app then finish app runtime projected kind (λ _, Panic) else finish app runtime r kind compatible.

Definition runDSN (app : adapter) (args : list string) (options : dsnOptions) : cli unit :=
  _ ← check (negb ((TrimSpace (doRole options) !=s "") && (TrimSpace (doMember options) !=s "")))
        (usageError "--role and --member are mutually exclusive options");
  role ← parseRole (doRole options);
  with_runtime app (read_request app Config.OperationClusterRead (firstArgument args) (optionalGroup app (doGroup options)) false false)
    (λ runtime,
      r ← lift (DSN (cmService runtime) true
                  (mkDSNRequest (cmTarget runtime) role (doMember options) (citus runtime) (allow_unsupported app)));
      finish app runtime r "DSN" (λ data, println Stdout (DSNData_String data))).

Definition querySQL (options : queryOptions) : cli string :=
  if qoFile options ==s "" then Done (qoCommand options)
  else
    canceled ← do_act (ACall CCtxErr);
    _ ← check (is_nil canceled) (failedError "query input canceled");
    data ← read_input (qoFile options);
    match data with
    | None => Raise (configError "query file is not readable")
    | Some data =>
        canceled ← do_act (ACall CCtxErr);
        _ ← check (is_nil canceled) (failedError "query input canceled");
        Done data
    end.

Definition carriage_return : string := String "013" "".

Definition promptPassword (app : adapter) (label : string) : cli string :=
  match promptUnavailableError app with
  | Some _ => Raise (usageError "password prompting requires a terminal and human output; use a PostgreSQL credential source")
  | None =>
      _ ← print Stderr (label +:+ ": ");
      if adTerminal app then
        value ← do_act AReadPassword;
        _ ← do_act (AWrite Stderr (String newline ""));
        match value with
        | None => Raise (failedError "password prompt failed")
        | Some value => Done (TrimSuffix value carriage_return)
        end
      else
        line ← do_act AReadLine;
        match line.2 with
        | LineFailed => Raise (failedError "password prompt failed")
        | _ => Done (TrimRight end_of_line line.1)
        end
  end.

Definition query_connection (options : queryOptions) : ConnectionOptions :=
  WithTLSMode (mkConnectionOptions "" 0 (qoDatabase options) (qoUsername options) "" 0 "" "" (TLSRaw "") None) TLSFromSource.

Definition runQuery (ticks : nat) (app : adapter) (args : list string) (options : queryOptions) : cli unit :=
  _ ← check (oneOf (qoFormat options) ["pretty"; "tsv"; "json"; "yaml"]) 
        (usageError ("invalid --format " +:+ Quote (qoFormat options) +:+ ": choose pretty, tsv, json, or yaml"));
  _ ← check (negb ((qoFile options !=s "") && (qoCommand options !=s "")))
        (usageError "--file and --command are mutually exclusive options");
  _ ← check (negb ((qoFile options ==s "") && (qoCommand options ==s "")))
        (usageError "you need to specify either --command or --file");
  _ ← check (qoDelimiter options !=s "") (usageError "--delimiter must not be empty");
  role ← parseRole (qoRole options);
  sql ← querySQL options;
  connection ←
    (if qoPassword options
     then password ← promptPassword app "Password"; Done (WithPassword (query_connection options) password)
     else Done (query_connection options));
  with_runtime app (read_request app Config.OperationQuery (firstArgument args) (optionalGroup app (qoGroup options)) false false)
    (λ runtime,
      interval ← watchInterval (qoWatchTwo options) (qoWatch options);
      _ ← check (negb ((output app !=s "") && (0 <? interval)%Z)) (usageError "--output cannot be combined with query watch mode");
      runWatch ticks interval (
        r ← lift (Query (cmService runtime) true
                    (mkQueryRequest (cmTarget runtime) role (qoMember options) (citus runtime) connection sql zero));
        finish app runtime r "QueryResult" (λ data, renderQueryData data (qoFormat options) (qoDelimiter options) (adWallNow app)))).

Definition runInspectConfig (app : adapter) : cli unit :=
  with_runtime app (read_request app Config.OperationInspect "" None false false) (λ runtime,
    r ← lift (Inspect.InspectConfiguration (cmService runtime) true (cmResolved runtime));
    finish app runtime r "EffectiveConfiguration" renderConfigurationInspection).

Definition list_formats : list string := ["pretty"; "tsv"; "json"; "yaml"; "yml"].

Definition runtime_namespace (app : adapter) (runtime : commandRuntime) : DiscoverRequest :=
  mkDiscoverRequest (tContext (cmTarget runtime)) (tNamespace (cmTarget runtime)) (allow_unsupported app).

Definition runDiscover (app : adapter) (format : string) : cli unit :=
  _ ← check (oneOf format list_formats) (invalid_format format);
  with_runtime app (read_request app Config.OperationDiscover "" None false true) (λ runtime,
    r ← lift (Discover (cmService runtime) true (runtime_namespace app runtime));
    finish_projected app runtime r "ClusterDiscovery" (machineDiscoveryResult r) (λ data, renderDiscoveryData data format)).

(** The names of the clusters to show. *)
Definition cluster_names (runtime : commandRuntime) (args : list string) : list string :=
  match args with
  | [] => if tScope (cmTarget runtime) ==s "" then [] else [tScope (cmTarget runtime)]
  | args => args
  end.

Definition no_clusters : cli unit :=
  _ ← do_act (AWrite Stderr (String.append "Listing members: No cluster names were provided" (String newline ""))); Done tt.

Definition scope_target (runtime : commandRuntime) (scope member : string) : Target :=
  let t := cmTarget runtime in Normalize (mkTarget (tContext t) (tNamespace t) scope (tGroup t) member).

Definition finishList (app : adapter) (runtime : commandRuntime) (options : listOptions) (r : Result ListData) : cli unit :=
  finish_projected app runtime r "ClusterList" (machineClusterListResult r) (λ data,
    _ ← (if loTimestamp options then println Stdout (adWallNow app) else Done tt);
    renderListData data (citus runtime || clusterListHasGroup data) (loExtended options) (loFormat options)).

Definition runList (ticks : nat) (app : adapter) (args : list string) (options : listOptions) : cli unit :=
  _ ← check (oneOf (loFormat options) list_formats) (invalid_format (loFormat options));
  _ ← check (negb (loAll options && negb (is_nil (head args)))) (usageError "--all and explicit cluster names are mutually exclusive");
  _ ← check (negb (loAll options && adChanged app "group")) (usageError "--all and --group are mutually exclusive");
  interval ← watchInterval (loWatchTwo options) (loWatch options);
  _ ← check (negb ((output app !=s "") && (0 <? interval)%Z)) (usageError "--output cannot be combined with list watch mode");
  let request :=
    if loAll options then read_request app Config.OperationDiscover "" None false true
    else read_request app Config.OperationClusterRead (firstArgument args) (optionalGroup app (loGroup options)) false true in
  with_runtime app request (λ runtime,
    if loAll options
    then runWatch ticks interval (
           r ← lift (ListAll (cmService runtime) true (runtime_namespace app runtime)); finishList app runtime options r)
    else match cluster_names runtime args with
         | [] => no_clusters
         | names =>
             runWatch ticks interval (
               r ← lift (List (cmService runtime) true
                           (mkListRequest ((λ scope, scope_target runtime scope "") <$> names) (citus runtime) (allow_unsupported app)));
               finishList app runtime options r)
         end).

Definition finishTopologies (app : adapter) (runtime : commandRuntime) (r : Result TopologyListData) : cli unit :=
  finish_projected app runtime r "ClusterTopologyList" (machineTopologyListResult r) (λ data, each renderTopologyData (tlTopologies data)).

Definition show_topology (app : adapter) (runtime : commandRuntime) (groups : bool) (scope : string) : cli unit :=
  let request := mkClusterRequest (scope_target runtime scope (tMember (cmTarget runtime))) (allow_unsupported app) in
  if groups
  then r ← lift (TopologyGroups (cmService runtime) true request); finishTopologies app runtime r
  else r ← lift (Topology (cmService runtime) true request); finish app runtime r "ClusterTopology" renderTopologyData.

Definition runTopology (ticks : nat) (app : adapter) (args : list string) (options : topologyOptions) : cli unit :=
  _ ← check (negb (toAll options && negb (is_nil (head args)))) (usageError "--all and explicit cluster names are mutually exclusive");
  _ ← check (negb (toAll options && adChanged app "group")) (usageError "--all and --group are mutually exclusive");
  interval ← watchInterval (toWatchTwo options) (toWatch options);
  _ ← check (negb ((output app !=s "") && (0 <? interval)%Z)) (usageError "--output cannot be combined with topology watch mode");
  let explicitGroup := if toAll options then None else optionalGroup app (toGroup options) in
  let request :=
    if toAll options then read_request app Config.OperationDiscover "" None false true
    else read_request app Config.OperationClusterRead (firstArgument args) explicitGroup false true in
  with_runtime app request (λ runtime,
    if toAll options
    then runWatch ticks interval (
           r ← lift (TopologyAll (cmService runtime) true (runtime_namespace app runtime)); finishTopologies app runtime r)
    else match cluster_names runtime args with
         | [] => no_clusters
         | names =>
             _ ← check (negb ((output app !=s "") && ((0 <? interval)%Z || negb (length names =? 1)%nat)))
                   (usageError "--output topology requires exactly one cluster and no watch mode");
             runWatch ticks interval
               (each (show_topology app runtime (citus runtime && is_nil explicitGroup)) names)
         end).

Definition runShowConfig (app : adapter) (args : list string) (group : Z) : cli unit :=
  with_runtime app (read_request app Config.OperationClusterRead (firstArgument args) (optionalGroup app group) true false) (λ runtime,
    r ← lift (ShowConfig (cmService runtime) true (mkClusterRequest (cmTarget runtime) (allow_unsupported app)));
    finish app runtime r "DynamicConfig" (λ data,
      match yaml_Text (YamlValue (yamlCompatibleValue (VMap (cdConfig data)))) with
      | None => Raise documentError
      | Some text => print Stdout (Secret.Redact text [])
      end)).

Definition local_version (app : adapter) : cli unit :=
  if machine app then
    match newMachineSuccessEnvelope "VersionInfo" (mkMetadata (adRequestID app) (adNow app) []) (to_machine (newMachineVersionInfo app [])) with
    | None => Raise (internal "constructing version output failed")
    | Some document => guard_with (internal "encoding version output failed") (encodeDocument Stdout (output app) document)
    end
  else println Stdout (version_line app).

Definition runVersion (app : adapter) (args : list string) (group : Z) : cli unit :=
  match args with
  | [] => local_version app
  | scope :: members =>
      with_runtime app (read_request app Config.OperationClusterRead scope (optionalGroup app group) false false) (λ runtime,
        r ← lift (Version (cmService runtime) true (mkVersionRequest (cmTarget runtime) members (citus runtime) (allow_unsupported app)));
        finish_projected app runtime r "VersionInfo" (machineVersionResult app r) (renderVersion app))
  end.

Definition runHistory (app : adapter) (args : list string) (options : historyOptions) : cli unit :=
  _ ← check (oneOf (hoFormat options) list_formats) (invalid_format (hoFormat options));
  with_runtime app (read_request app Config.OperationClusterRead (firstArgument args) (optionalGroup app (hoGroup options)) true false)
    (λ runtime,
      r ← lift (History (cmService runtime) true (mkClusterRequest (cmTarget runtime) (allow_unsupported app)));
      finish app runtime r "ClusterHistory" (λ data, renderHistory data (hoFormat options))).

(** ** The command tree *)

Inductive read_command :=
| CmdInspectConfig
| CmdDiscover (format : string)
| CmdDSN (options : dsnOptions)
| CmdQuery (options : queryOptions)
| CmdList (options : listOptions)
| CmdTopology (options : topologyOptions)
| CmdShowConfig (group : Z)
| CmdVersion (group : Z)
| CmdHistory (options : historyOptions).

Definition run_read (ticks : nat) (app : adapter) (command : read_command) (args : list string) : cli unit :=
  match command with
  | CmdInspectConfig => runInspectConfig app
  | CmdDiscover format => runDiscover app format
  | CmdDSN options => runDSN app args options
  | CmdQuery options => runQuery ticks app args options
  | CmdList options => runList ticks app args options
  | CmdTopology options => runTopology ticks app args options
  | CmdShowConfig group => runShowConfig app args group
  | CmdVersion group => runVersion app args group
  | CmdHistory options => runHistory app args options
  end.

Definition read_name (command : read_command) : string :=
  match command with
  | CmdInspectConfig => "inspect-config" | CmdDiscover _ => "discover" | CmdDSN _ => "dsn" | CmdQuery _ => "query"
  | CmdList _ => "list" | CmdTopology _ => "topology" | CmdShowConfig _ => "show-config" | CmdVersion _ => "version"
  | CmdHistory _ => "history"
  end.

Definition accepts_read (command : read_command) (args : list string) : bool :=
  let n := length args in
  match command with
  | CmdInspectConfig | CmdDiscover _ => (n =? 0)%nat
  | CmdList _ | CmdTopology _ | CmdVersion _ => true
  | _ => (n <=? 1)%nat
  end.

Definition execute_read (ticks : nat) (app : adapter) (command : read_command) (args : list string) : cli Z :=
  exit_status (wrapped app (read_name command) (accepts_read command args) args (run_read ticks app command args)).

End with_std.
