(* ===== verification/CliActs.v ===== *)
(** * What the parts of a command do

    Rendering only writes; a prompt writes and reads a line, and in machine
    mode does neither; preparing a plan asks the cluster nothing that may
    change it. *)

From S2P Require Import Prelude GoStrings GoErrors PgTypes GoTime Target Version Values Json Effects Contract Batch.
From S2P Require Import Transition Pause Flush Remove ConfigPatch EditConfig Standby Select Cluster Reads OnlyReads.
From S2P Require Import Cli CliRender CliWrite CliEdit.

(** ** Control operations that only read *)

Lemma acts_reads P {A} (p : prog A) : (∀ c, is_write c = false → P (ACall c)) → only_reads p → acts P (lift p).
Proof. intros HP. induction p as [a|c k IH]; cbn; [done|]. intros [Hc Hk]. split; [auto|]. intros r. apply IH, Hk. Qed.

Section writing.
Context `{GoStd, Encoders} (P : action → Prop) (HW : ∀ s text, P (AWrite s text)).

#[local] Hint Resolve HW : acts.

Lemma acts_print s text : acts P (print s text).
Proof using HW. unfold print. acts. Qed.

Lemma acts_println s text : acts P (println s text).
Proof using HW. apply acts_print. Qed.

#[local] Hint Resolve acts_print acts_println : acts.

Lemma acts_each {A} (f : A → cli unit) l : (∀ x, acts P (f x)) → acts P (each f l).
Proof using HW. intros Hf. induction l as [|x l IH]; cbn [each]; acts. Qed.

Lemma acts_encodeDocument s format d : acts P (encodeDocument s format d).
Proof using HW. unfold encodeDocument. acts. Qed.

Lemma acts_exit_for err rendered : acts P (exit_for err rendered).
Proof using HW. unfold exit_for. acts. Qed.

#[local] Hint Resolve acts_each acts_encodeDocument acts_exit_for : acts.

Lemma acts_finishResult {T} `{MachineData T} app format runtime (r : Result T) kind compatible :
  (∀ d, acts P (compatible d)) → acts P (finishResult app format runtime r kind compatible).
Proof using HW. intros Hc. unfold finishResult. acts. Qed.

Lemma acts_finishWriteResult {T} `{MachineData T} app runtime (r : Result T) kind render :
  (∀ d, acts P (render d)) → acts P (finishWriteResult app runtime r kind render).
Proof using HW. intros Hr. unfold finishWriteResult. repeat acts_step; auto using acts_finishResult with acts. Qed.

Lemma acts_renderCommandError {A} app name args err : acts P (renderCommandError (A := A) app name args err).
Proof using HW. unfold renderCommandError. acts. Qed.

Lemma acts_renderPrettyLine values widths : acts P (renderPrettyLine values widths).
Proof using HW. unfold renderPrettyLine. acts. Qed.

#[local] Hint Resolve acts_renderPrettyLine : acts.

Lemma acts_renderPretty headers rows title : acts P (renderPretty headers rows title).
Proof using HW. unfold renderPretty. acts. Qed.

#[local] Hint Resolve acts_renderPretty : acts.

Lemma acts_renderRows headers rows format delimiter title : acts P (renderRows headers rows format delimiter title).
Proof using HW. unfold renderRows. acts. Qed.

Lemma acts_renderListData data citus extended format : acts P (renderListData data citus extended format).
Proof using HW. apply acts_renderRows. Qed.

Lemma acts_preparedPlan app runtime r : acts P (preparedPlan app runtime r).
Proof using HW. unfold preparedPlan. repeat acts_step. apply acts_finishResult. by intros. Qed.

Lemma acts_renderConfigDiff preview : acts P (renderConfigDiff preview).
Proof using HW. unfold renderConfigDiff. acts. Qed.

#[local] Hint Resolve acts_renderConfigDiff : acts.

Lemma acts_preview_edit app options preview : acts P (preview_edit app options preview).
Proof using HW. unfold preview_edit. acts. Qed.

Lemma acts_printWarnings warnings : P AClose → acts P (printWarnings warnings).
Proof using HW. intros HC. induction warnings as [|w l IH]; cbn [printWarnings]; acts. Qed.

Lemma acts_openRuntime `{CliStd} app request : P AClose → (∀ i, P (AOpen i)) → acts P (openRuntime app request).
Proof using HW. intros HC HO. unfold openRuntime. repeat acts_step; auto using acts_printWarnings with acts. Qed.

Lemma acts_with_runtime `{CliStd} {A} app request (body : commandRuntime → cli A) :
  P AClose → (∀ i, P (AOpen i)) → (∀ runtime, acts P (body runtime)) → acts P (with_runtime app request body).
Proof using HW.
  intros HC HO Hb. apply acts_bind; [by apply acts_openRuntime|]. intros runtime. by apply acts_deferred_close.
Qed.
End writing.

#[export] Hint Resolve acts_print acts_println acts_each acts_encodeDocument acts_exit_for acts_renderPretty acts_renderRows
  acts_renderListData acts_preparedPlan acts_renderConfigDiff acts_preview_edit : acts.

(** ** Prompts *)

Section prompting.
Context `{GoStd, Encoders, CliStd} (P : action → Prop) (HW : ∀ s text, P (AWrite s text)) (app : adapter).
Context (HR : machine app = true ∨ P AReadLine).

#[local] Hint Resolve HW : acts.

Lemma machine_no_prompt : machine app = true → is_Some (promptUnavailableError app).
Proof. unfold promptUnavailableError. intros ->. eauto. Qed.

Lemma acts_require_prompt : acts P (require_prompt app).
Proof using Type. unfold require_prompt. acts. Qed.

Lemma acts_promptValue label default : acts P (promptValue app label default).
Proof using HR HW.
  unfold promptValue, require_prompt. destruct HR as [Hm|Hr].
  - by destruct (machine_no_prompt Hm) as [e ->].
  - acts.
Qed.

#[local] Hint Resolve acts_promptValue acts_require_prompt : acts.

Lemma acts_confirm question : acts P (confirm app question).
Proof using HR HW. unfold confirm. acts. Qed.

#[local] Hint Resolve acts_confirm : acts.

Lemma acts_confirmPlan plan question : acts P (confirmPlan app plan question).
Proof using HR HW. unfold confirmPlan. acts. Qed.

#[local] Hint Resolve acts_confirmPlan : acts.

Lemma acts_confirmPreparedPlan runtime r force question : acts P (confirmPreparedPlan app runtime r force question).
Proof using HR HW. unfold confirmPreparedPlan. acts. Qed.

Lemma acts_removeConfirmation runtime options explicit plan : acts P (removeConfirmation app runtime options explicit plan).
Proof using HR HW. unfold removeConfirmation, unless. acts. Qed.

Lemma acts_confirmFailover runtime plan : acts P (confirmFailover app runtime plan).
Proof using HR HW. unfold confirmFailover. acts. Qed.

Lemma acts_resolveInteractiveGroup runtime force : acts P (resolveInteractiveGroup app runtime force).
Proof using HR HW. unfold resolveInteractiveGroup. acts. Qed.

Section calling.
Context (HC : ∀ c, is_write c = false → P (ACall c)).

Lemma acts_List service request : acts P (lift (List service true request)).
Proof using HC. apply acts_reads; [done|]. apply List_only_reads. Qed.

#[local] Hint Resolve acts_List : acts.

Lemma acts_clusterForPrompt runtime : acts P (clusterForPrompt app runtime).
Proof using HC HW. unfold clusterForPrompt. repeat acts_step; auto with acts. apply acts_finishResult; [done|]. by intros. Qed.

Lemma acts_replicaNames runtime : acts P (replicaNamesForPrompt app runtime).
Proof using HC HW. unfold replicaNamesForPrompt. repeat acts_step; auto with acts. apply acts_finishResult; [done|]. by intros. Qed.

Lemma acts_show_removed runtime format : acts P (show_removed app runtime format).
Proof using HC HW. unfold show_removed. acts. Qed.

#[local] Hint Resolve acts_clusterForPrompt acts_replicaNames : acts.

Lemma acts_reinit_members runtime force members : acts P (reinit_members app runtime force members).
Proof using All. unfold reinit_members. acts. Qed.

Lemma acts_switchover_members runtime options : acts P (switchover_members app runtime options).
Proof using All. unfold switchover_members, unless, candidatePrompt. acts. Qed.

Lemma acts_unless given value prompt : acts P prompt → acts P (unless given value prompt).
Proof using Type. by destruct given. Qed.
End calling.
End prompting.

Lemma acts_parseRole `{CliStd} P value : acts P (parseRole value).
Proof. unfold parseRole. acts. Qed.

Lemma acts_parseScheduled `{CliStd, LocalZone} P value : acts P (parseScheduled value).
Proof. unfold parseScheduled. acts. Qed.

#[export] Hint Resolve acts_parseRole acts_parseScheduled acts_promptValue acts_require_prompt acts_confirm acts_confirmPlan
  acts_confirmPreparedPlan acts_removeConfirmation acts_confirmFailover acts_resolveInteractiveGroup acts_clusterForPrompt
  acts_replicaNames acts_show_removed acts_reinit_members acts_switchover_members acts_unless : acts.

(** ** The exit status *)

Lemma cwp_exit_status (p : cli unit) (Q : list cevent → result Z → Prop) :
  cwp p (λ tr o, match o with
    | Returned _ => Q tr (Returned 0%Z)
    | Errored e => if errorWasRendered e then Q tr (Returned (exitCode (Some e)))
                   else ∀ r, Q (tr ++ [CEv (AWrite Stderr (error_message e +:+ String newline "")) r]) (Returned (exitCode (Some e)))
    | Panicked => Q tr (Returned 2%Z)
    end) → cwp (exit_status p) Q.
Proof. revert Q. induction p as [a|e| |a k IH]; intros Q; cbn; [done| |done|]; [by case_match|]. intros Hp r. apply IH, (Hp r). Qed.

Lemma acts_exit_status (P : action → Prop) p : (∀ s text, P (AWrite s text)) → acts P p → acts P (exit_status p).
Proof.
  intros HW. induction p as [a|e| |a k IH]; cbn; [done|intros _; by case_match|done|]. intros [? Hk]. split; [done|]. intros r. apply IH, Hk.
Qed.

Lemma acts_wrapped `{GoStd, Encoders, CliStd} (P : action → Prop) app name accepted args handler :
  (∀ s text, P (AWrite s text)) → acts P handler → acts P (wrapped app name accepted args handler).
Proof.
  intros HW Hh. unfold wrapped. repeat case_match; try (by apply acts_renderCommandError).
  apply acts_on_error; [intros e; by apply acts_renderCommandError|done].
Qed.
