(* ===== verification/CliSamples.v ===== *)
(** * Commands on the small cluster of [Samples]

    A terminal that answers with a list of lines, a runtime on the sample
    service, and encoders that keep only the kind of a document. *)

From S2P Require Import Prelude GoStrings GoErrors PgTypes GoTime Target Version Values Dcs Effects Contract Samples.
From S2P Require Import Cli CliRender CliWrite CliEdit.
From S2P Require Config ConfigProject Runtime.

Definition sample_resolved : ConfigProject.Resolved :=
  let no_secret := Config.newSecret "" in
  let tls := ConfigProject.mkTLS "" "" "" no_secret in
  ConfigProject.mkResolved "prod" "/service" "pg" false None
    (ConfigProject.mkEtcd3 false ConfigProject.LocatorNone [] "" "" "" "" tls "" no_secret)
    (ConfigProject.mkREST false tls "" no_secret) ConfigProject.zero_network [] [] ∅.

Definition sample_runtime : commandRuntime := mkCommandRuntime sample_service sample_resolved sample_target [].

#[export] Instance sample_encoders : Encoders := {|
  json_Encode := λ d, Some match d with SuccessDocument _ kind _ _ => kind | ErrorDocument _ _ _ => "Error" | RowsDocument _ => "rows" end;
  yaml_Marshal := λ _, Some "document";
  yaml_Text := λ _, Some "text"
|}.

#[export] Instance sample_cli_std : CliStd := {|
  is_url_error := λ _, false;
  is_print := λ _, true;
  args_error := λ _ _, "accepts 1 arg(s)";
  args_error_said := λ _ _, ltac:(discriminate)
|}.
#[export] Instance sample_zone : LocalZone := {| local_offset := λ _, 0%Z |}.
#[export] Instance sample_yaml : YamlInput := {|
  yaml_config := λ text, Some (Some [("ttl", VString text)]);
  yaml_value := λ text, Some (VString text)
|}.

Definition sample_app (format : string) : adapter :=
  mkAdapter (mkRootOptions "" "" "" false "" format false) (λ _, false) true false
    (mkApplication "patronictl" "" "" "" None) (Runtime.mkBuild "0.1.0" "" "" None "go") "now" "now" "request-1".

(** The control calls of a history. *)
Definition calls_of (tr : list cevent) : list event :=
  omap (λ e, match e with CEv (ACall c) r => Some (Ev c r) | _ => None end) tr.

Definition lines_read (tr : list cevent) : nat :=
  length (List.filter (λ e, match ce_action e with AReadLine => true | _ => false end) tr).

(** The cluster answers by [oracle]; the terminal with the lines of [lines] in turn. *)
Definition at_terminal (oracle : list event → ∀ c, reply c) (lines : list string) (tr : list cevent) (a : action) : answer a :=
  match a return answer a with
  | ACall c => oracle (calls_of tr) c
  | AWrite _ _ | AClose => None
  | AReadLine => (deref "" (lines !! lines_read tr), LineRead)
  | AReadPassword | AReadAll | AReadFile _ => Some "text"
  | AOpen _ => inr sample_runtime
  | ATick => false
  | AGetenv _ => ""
  | ALookPath _ => None
  | ACreateTemp _ => None
  | AFile _ _ => None
  | ARunEditor _ _ => None
  end.

(** What was written to a stream. *)
Definition written (s : stream) (tr : list cevent) : list string :=
  omap (λ e, match ce_action e with
             | AWrite s' text => if match s, s' with Stdout, Stdout | Stderr, Stderr => true | _, _ => false end then Some text else None
             | _ => None
             end) tr.

Definition line (text : string) : string := text +:+ String newline "".

Definition reload_reply : list event → ∀ c, reply c := answers steady steady (status 202) applied.

(** A reload of both members, with the answer typed at the prompt. *)
Definition reload_run (answer : string) : list cevent * result unit :=
  crun (at_terminal reload_reply [line answer]) [] (run_write (sample_app "") (CmdReload (mkReloadOptions 0 "any" false)) ["pg"]).
