(* ===== verification/CliConsent.v ===== *)
(** * A command changes a cluster only with consent

    Without [--force], the plan is shown and the question answered with a yes
    before any request that may change the cluster is sent; [remove] asks for
    its acknowledgement to be typed.  [edit-config] asks by a preview made from
    another snapshot than its plan, and [pause] and [resume] never ask: they
    are not in the theorem. *)

From S2P Require Import Prelude GoStrings GoErrors PgTypes GoTime Target Version Values Json Effects Contract Batch.
From S2P Require Import Reload Restart Reinitialize Transition Pause Flush Remove ConfigPatch EditConfig Standby Select Cluster.
From S2P Require Import Reads OnlyReads Cli CliRender CliWrite CliEdit CliActs Samples CliSamples.
From S2P Require Config ConfigProject.

Definition harmless_action (a : action) : Prop := match a with ACall c => is_write c = false | _ => True end.

Lemma harmless_event e : harmless_action (ce_action e) → harmless e.
Proof. unfold harmless, writes_cluster. by destruct (ce_action e). Qed.

(** ** Consent *)

(** What the code keeps of a line. *)
Definition typed (line : string) : string := TrimRight end_of_line line.

Definition shown_plan (plan : Plan) : string :=
  "Plan: " +:+ pSummary plan +:+ String newline "" +:+ "Target: " +:+ targetLabel (pTarget plan) +:+ String newline "".

(** A prompt that was written, and its answer, among [asking]: a plan and a yes,
    or the acknowledgement of a removal. *)
Inductive consents `{CliStd} : bool → list cevent → Prop :=
| consents_plan plan question line ending :
    affirmative (typed line) = true →
    consents false [CEv (AWrite Stderr (shown_plan plan)) None; CEv (AWrite Stderr (question +:+ " [y/N]" +:+ ": ")) None;
                    CEv AReadLine (line, ending)]
| consents_removal scope line ending :
    typed line = RemoveAcknowledgement →
    consents true [CEv (AWrite Stderr (removePrompt scope +:+ ": ")) None; CEv AReadLine (line, ending)].

(** Nothing that may change the cluster was sent before a consent. *)
Definition granted `{CliStd} (removal : bool) (tr : list cevent) : Prop :=
  ∃ pre asking post, tr = pre ++ asking ++ post ∧ Forall harmless pre ∧ consents removal asking.

Definition asked `{CliStd} (removal : bool) (tr : list cevent) : Prop := Forall harmless tr ∨ granted removal tr.

Section consent.
Context `{CliStd} (removal : bool).

Lemma granted_pre pre tr : Forall harmless pre → granted removal tr → granted removal (pre ++ tr).
Proof.
  intros Hpre (p & a & q & -> & Hp & Ha). exists (pre ++ p), a, q. rewrite <- app_assoc.
  split_and!; [done|by apply Forall_app|done].
Qed.

Lemma granted_post tr post : granted removal tr → granted removal (tr ++ post).
Proof.
  intros (p & a & q & -> & Hp & Ha). exists p, a, (q ++ post). rewrite <- !app_assoc. done.
Qed.

Lemma asked_pre pre tr : Forall harmless pre → asked removal tr → asked removal (pre ++ tr).
Proof. intros Hpre [Ht|Ht]; [left; by apply Forall_app|right; by apply granted_pre]. Qed.

Lemma asked_post tr post : Forall harmless post → asked removal tr → asked removal (tr ++ post).
Proof. intros Hpost [Ht|Ht]; [left; by apply Forall_app|right; by apply granted_post]. Qed.

(** [p] asks before it changes anything; [p] has consent when it returns. *)
Definition asks {A} (p : cli A) : Prop := cwp p (λ tr _, asked removal tr).

Definition grants {A} (p : cli A) : Prop :=
  cwp p (λ tr o, match o with Returned _ => granted removal tr | _ => asked removal tr end).

Lemma acts_harmless {A} (p : cli A) : acts harmless_action p → cwp_all harmless p (λ _, True).
Proof. intros Hp. eapply cwp_all_mono, acts_cwp, Hp; [|done]. apply harmless_event. Qed.

Lemma asks_acts {A} (p : cli A) : acts harmless_action p → asks p.
Proof. intros Hp. eapply cwp_mono, acts_harmless, Hp. intros tr o [? _]. by left. Qed.

Lemma asks_bind {A B} (p : cli A) (f : A → cli B) : acts harmless_action p → (∀ a, asks (f a)) → asks (p ≫= f).
Proof.
  intros Hp Hf. apply cwp_bind. eapply cwp_mono, acts_harmless, Hp.
  intros tr [a|e|] [Htr _]; cbn; [|by left..]. eapply cwp_mono, Hf. intros tr' o'. by apply asked_pre.
Qed.

Lemma asks_granted {A B} (p : cli A) (f : A → cli B) : grants p → asks (p ≫= f).
Proof.
  intros Hp. apply cwp_bind. eapply cwp_mono, Hp. intros tr [a|e|] Htr; cbn; [|done..].
  apply cwp_forall. intros tr' o. right. by apply granted_post.
Qed.

Lemma grants_bind {A B} (p : cli A) (f : A → cli B) : acts harmless_action p → (∀ a, grants (f a)) → grants (p ≫= f).
Proof.
  intros Hp Hf. apply cwp_bind. eapply cwp_mono, acts_harmless, Hp.
  intros tr [a|e|] [Htr _]; cbn; [|by left..]. eapply cwp_mono, Hf.
  intros tr' [b|e|]; [by apply granted_pre|by apply asked_pre..].
Qed.

Lemma grants_then {A B} (p : cli A) (f : A → cli B) : grants p → grants (p ≫= f).
Proof.
  intros Hp. apply cwp_bind. eapply cwp_mono, Hp. intros tr [a|e|] Htr; cbn; [|done..].
  apply cwp_forall. intros tr' [b|e|]; [|right..]; by apply granted_post.
Qed.

Lemma asks_deferred_close {A} (p : cli A) : asks p → asks (deferred_close p).
Proof.
  intros Hp. apply cwp_deferred_close. eapply cwp_mono, Hp. intros tr o Htr err.
  apply asked_post; [by repeat constructor|done].
Qed.

Lemma asks_on_error {A} (h : cli_error → cli A) (p : cli A) :
  (∀ e, acts harmless_action (h e)) → asks p → asks (on_error h p).
Proof.
  intros Hh Hp. apply cwp_on_error. eapply cwp_mono, Hp. intros tr [a|e|] Htr; [done| |done].
  eapply cwp_mono, acts_harmless, Hh. intros tr' o' [Htr' _]. by apply asked_post.
Qed.

Lemma asks_exit_status p : asks p → asks (exit_status p).
Proof.
  intros Hp. apply cwp_exit_status. eapply cwp_mono, Hp. intros tr [u|e|] Htr; [done| |done].
  case_match; [done|]. intros r. apply asked_post; [by repeat constructor|done].
Qed.

Lemma asks_with_runtime {A} app request (body : commandRuntime → cli A) :
  (∀ runtime, asks (body runtime)) → asks (with_runtime app request body).
Proof. intros Hb. apply asks_bind; [by apply acts_openRuntime|]. intros runtime. by apply asks_deferred_close. Qed.
End consent.

#[export] Hint Extern 1 (harmless_action _) => (cbn; done) : acts.
#[export] Hint Extern 2 (∀ _, harmless_action _) => (cbn; done) : acts.
#[export] Hint Extern 2 (∀ _ _, harmless_action _) => (cbn; done) : acts.
#[export] Hint Extern 2 (∀ _, _ → harmless_action _) => (cbn; done) : acts.
#[export] Hint Extern 2 (_ ∨ harmless_action _) => (right; cbn; done) : acts.

(** ** Prompts *)

Section prompts.
Context `{GoStd, Encoders, CliStd, LocalZone} (app : adapter).

(** A prompt without a default: what was written and read, when it returned. *)
Lemma promptValue_read label :
  cwp (promptValue app label "") (λ tr o, match o with
    | Returned value => ∃ line ending, value = typed line ∧
        tr = [CEv (AWrite Stderr (label +:+ ": ")) None; CEv AReadLine (line, ending)]
    | _ => Forall harmless tr
    end).
Proof.
  unfold promptValue, require_prompt. destruct (promptUnavailableError app); [constructor|].
  cbn. intros [err|]; cbn; [by repeat constructor|]. intros [line ending]. cbn.
  destruct ending; cbn; [..|by repeat constructor]; exists line; eexists; (split; [by destruct (_ ==s _) eqn:E; go_bool|done]).
Qed.

Lemma confirm_read question :
  cwp (confirm app question) (λ tr o, match o with
    | Returned yes => ∃ line ending, yes = affirmative (typed line) ∧
        tr = [CEv (AWrite Stderr (question +:+ " [y/N]" +:+ ": ")) None; CEv AReadLine (line, ending)]
    | _ => Forall harmless tr
    end).
Proof.
  unfold confirm. apply cwp_bind. eapply cwp_mono, promptValue_read. intros tr [value|e|]; cbn; [|done..].
  intros (line & ending & -> & ->). exists line, ending. rewrite string_app_assoc. done.
Qed.

Lemma confirmPlan_grants plan question : grants false (confirmPlan app plan question).
Proof.
  unfold confirmPlan. apply grants_bind; [auto with acts|]. intros _.
  unfold print. intros [err|]; cbn; [left; by repeat constructor|].
  apply cwp_bind. eapply cwp_mono, confirm_read. intros tr [yes|e|]; cbn.
  - intros (line & ending & -> & ->). destruct (affirmative (typed line)) eqn:Hy; cbn; [|left; by repeat constructor].
    eexists [], [_; _; _], []. split_and!; [done|constructor|by apply (consents_plan plan question line ending)].
  - intros Htr. left. by repeat constructor.
  - intros Htr. left. by repeat constructor.
Qed.

Lemma confirmPreparedPlan_grants runtime r question : grants false (confirmPreparedPlan app runtime r false question).
Proof.
  unfold confirmPreparedPlan. apply grants_bind; [auto with acts|]. intros plan.
  apply grants_then, confirmPlan_grants.
Qed.

Lemma confirmFailover_grants runtime plan : grants false (confirmFailover app runtime plan).
Proof. unfold confirmFailover. apply grants_bind; [acts|]. intros _. apply confirmPlan_grants. Qed.

Lemma demotion_grants p : grants false p → grants false (on_error demotion_aborted p).
Proof. intros Hp. apply cwp_on_error. eapply cwp_mono, Hp. intros tr [a|e|] Htr; [done| |done]. cbn. by rewrite app_nil_r. Qed.

(** The acknowledgement typed at the prompt of [remove]. *)
Lemma granted_removal scope line ending tr :
  typed line = RemoveAcknowledgement →
  granted true ([CEv (AWrite Stderr (removePrompt scope +:+ ": ")) None; CEv AReadLine (line, ending)] ++ tr).
Proof.
  intros Ht. exists [], [CEv (AWrite Stderr (removePrompt scope +:+ ": ")) None; CEv AReadLine (line, ending)], tr.
  split; [reflexivity|split; [constructor|by apply consents_removal]].
Qed.

Lemma removeConfirmation_grants runtime options plan : grants true (removeConfirmation app runtime options false plan).
Proof.
  unfold removeConfirmation. cbn [negb orb check unless].
  apply grants_bind; [acts|]. intros _. apply grants_bind; [auto with acts|]. intros name. apply grants_bind; [acts|]. intros _.
  apply cwp_bind. eapply cwp_mono, promptValue_read. intros tr [value|e|]; cbn -[removePrompt Quote]; [|by left..].
  intros (line & ending & -> & ->).
  apply cwp_bind. unfold check. destruct (typed line ==s RemoveAcknowledgement) eqn:Hack; cbn -[removePrompt Quote]; [|left; by repeat constructor].
  go_bool. apply cwp_forall. intros tr o.
  pose proof (granted_removal (tScope (cmTarget runtime)) line ending tr Hack) as Hg.
  destruct o; [done|by right..].
Qed.
End prompts.

(** ** Handlers *)

(** The commands that ask, and were not told with an option not to. *)
Definition asking (command : write_command) : bool :=
  match command with
  | CmdRemove options => negb (explicit_confirmation options)
  | CmdReload options => negb (rloForce options)
  | CmdRestart options => negb (rsoForce options)
  | CmdReinit options => negb (rioForce options)
  | CmdFailover options => negb (foForce options)
  | CmdSwitchover options => negb (soForce options)
  | CmdFlush options => negb (floForce options)
  | CmdDemoteCluster options => negb (dmForce options)
  | CmdPromoteCluster options => negb (pmForce options)
  | CmdPause _ _ | CmdEditConfig _ => false
  end.

Definition is_removal (command : write_command) : bool := match command with CmdRemove _ => true | _ => false end.

Section handlers.
Context `{GoStd, Encoders, CliStd, LocalZone, YamlInput} (app : adapter) (args : list string).

Lemma asks_raise removal {A} e : asks removal (Raise (A := A) e).
Proof. left. constructor. Qed.

(** The common end of a handler: prepare, ask, execute. *)
Lemma asks_prepared {A} (p : prog (Result Plan)) (runtime : commandRuntime) (question : string) (f : Plan → cli A) :
  only_reads p →
  asks false (prepared ← lift p; plan ← confirmPreparedPlan app runtime prepared false question; f plan).
Proof.
  intros Hp. apply asks_bind; [by apply acts_reads|]. intros r. apply asks_granted, confirmPreparedPlan_grants.
Qed.

Lemma runRemove_asks options : explicit_confirmation options = false → asks true (runRemove app args options).
Proof.
  intros Hx. unfold runRemove. rewrite Hx. apply asks_bind; [acts|]. intros _. apply asks_bind; [acts|]. intros _.
  apply asks_with_runtime. intros runtime. cbv zeta.
  apply asks_bind; [apply acts_reads; auto with reads|]. intros r. apply asks_bind; [auto with acts|]. intros plan.
  apply asks_bind; [auto with acts|]. intros _. apply asks_granted, removeConfirmation_grants.
Qed.

Lemma runReload_asks options : rloForce options = false → asks false (runReload app args options).
Proof.
  intros Hf. apply asks_bind; [auto with acts|]. intros role. apply asks_with_runtime. intros runtime.
  cbv zeta. rewrite Hf. apply asks_prepared. auto with reads.
Qed.

Lemma runRestart_asks options : rsoForce options = false → asks false (runRestart app args options).
Proof.
  intros Hf. unfold runRestart. rewrite Hf. do 4 (apply asks_bind; [auto with acts|]; intros ?).
  apply asks_with_runtime. intros runtime. cbv zeta. apply asks_prepared. auto with reads.
Qed.

Lemma runReinit_asks options : rioForce options = false → asks false (runReinit app args options).
Proof.
  intros Hf. apply asks_with_runtime. intros runtime. apply asks_bind; [auto with acts|]. intros members.
  cbv zeta. rewrite Hf. apply asks_prepared. auto with reads.
Qed.

Lemma runFailover_asks options : foForce options = false → asks false (runFailover app args options).
Proof.
  intros Hf. apply asks_with_runtime. intros runtime. rewrite Hf. apply asks_bind; [auto with acts|].
  intros runtime'. cbv zeta. apply asks_bind.
  { unfold candidatePrompt. acts. }
  intros candidate. apply asks_bind; [apply acts_reads; [done|]; unfold PrepareFailover; destruct normalizeFailoverRequest; auto with reads|].
  intros r. apply asks_bind; [auto with acts|]. intros plan. apply asks_granted, confirmFailover_grants.
Qed.

Lemma runSwitchover_asks options : soForce options = false → asks false (runSwitchover app args options).
Proof.
  intros Hf. apply asks_with_runtime. intros runtime. rewrite Hf. do 4 (apply asks_bind; [auto with acts|]; intros ?).
  cbv zeta. apply asks_prepared. unfold PrepareSwitchover. destruct normalizeSwitchoverRequest. auto with reads.
Qed.

Lemma runFlush_asks options : floForce options = false → asks false (runFlush app args options).
Proof.
  intros Hf. unfold runFlush. destruct (find_first _ _); [|apply asks_raise]. apply asks_bind; [auto with acts|]. intros role.
  apply asks_with_runtime. intros runtime. cbv zeta. rewrite Hf. apply asks_prepared. auto with reads.
Qed.

Lemma runDemoteCluster_asks options : dmForce options = false → asks false (runDemoteCluster app args options).
Proof.
  intros Hf. apply asks_bind; [acts|]. intros _. apply asks_with_runtime. intros runtime. cbv zeta. rewrite Hf.
  apply asks_bind; [apply acts_reads; [done|]; unfold PrepareDemoteCluster; destruct normalizeDemoteClusterRequest; auto with reads|].
  intros r. apply asks_granted, demotion_grants, confirmPreparedPlan_grants.
Qed.

Lemma runPromoteCluster_asks options : pmForce options = false → asks false (runPromoteCluster app args options).
Proof.
  intros Hf. apply asks_with_runtime. intros runtime. cbv zeta. rewrite Hf. apply asks_prepared.
  unfold PreparePromoteCluster. destruct normalizePromoteClusterRequest. auto with reads.
Qed.

(** A command that was not told to skip its questions ([--force], or the
    confirmations of [remove]) sends no request that may change the cluster
    before it has shown the plan and read a yes to its question, or, to remove
    a cluster, the exact acknowledgement - whatever the output format, the
    answers of the cluster and the text typed. *)
Theorem run_write_asks command :
  asking command = true → cwp (run_write app command args) (λ tr _, asked (is_removal command) tr).
Proof.
  destruct command; cbn [asking run_write is_removal]; intros Hf; go_bool; try done.
  - by apply runRemove_asks.
  - by apply runReload_asks.
  - by apply runRestart_asks.
  - by apply runReinit_asks.
  - by apply runFailover_asks.
  - by apply runSwitchover_asks.
  - by apply runFlush_asks.
  - by apply runDemoteCluster_asks.
  - by apply runPromoteCluster_asks.
Qed.
End handlers.

(** A reload that was agreed to, and one that was not. *)
Lemma run_write_asks_witness :
  asked false (reload_run "y").1 ∧ filter writes_cluster (reload_run "y").1 ≠ [] ∧
  asked false (reload_run "no").1 ∧ filter writes_cluster (reload_run "no").1 = [].
Proof.
  split; [|split; [by vm_compute|split; [|by vm_compute]]].
  - apply (cwp_run (run_write (sample_app "") (CmdReload (mkReloadOptions 0 "any" false)) ["pg"]) (λ tr _, asked false tr)).
    exact (run_write_asks (sample_app "") ["pg"] (CmdReload (mkReloadOptions 0 "any" false)) eq_refl).
  - apply (cwp_run (run_write (sample_app "") (CmdReload (mkReloadOptions 0 "any" false)) ["pg"]) (λ tr _, asked false tr)).
    exact (run_write_asks (sample_app "") ["pg"] (CmdReload (mkReloadOptions 0 "any" false)) eq_refl).
Defined.

(** ** [edit-config]

    Whether to ask is decided by a preview of the first snapshot; the plan is
    made from a second one.  A change in between is written over unasked. *)

Definition snapshots_read (tr : list event) : nat :=
  length (List.filter (λ e, match ev_call e with CSnapshot _ => true | _ => false end) tr).

(** [ttl] is what the edit asks for when the command first looks, and another
    value afterwards, until it is written. *)
Definition raced_edit (tr : list event) (c : call) : reply c :=
  let current := if (snapshots_read tr =? 0)%nat then with_config 5 [("ttl", VString "30")]
                 else with_config 6 [("ttl", VString "20")] in
  answers current (with_config 8 [("ttl", VString "30")]) (status 200) applied tr c.

Definition raced_run : list cevent * result unit :=
  crun (at_terminal raced_edit []) []
    (run_write (sample_app "") (CmdEditConfig (mkEditConfigOptions 0 false ["ttl=30"] [] "" "" false)) ["pg"]).

Example edit_config_unasked :
  lines_read raced_run.1 = 0%nat ∧ filter writes_cluster raced_run.1 ≠ [] ∧
  written Stdout raced_run.1 = [line "Not changed"; line "Configuration changed"] ∧ raced_run.2 = Returned tt.
Proof. by vm_compute. Qed.
