(* ===== verification/CliMachine.v ===== *)
(** * The machine contract of the commands that change a cluster

    With [--output json] or [yaml], a command prints one document and nothing
    else on the standard output, whatever happens inside the control package
    and the cluster: the success document of its kind and exit status 0, or an
    error document and the status of its category.  It reads no line.

    [flawless] excludes the failures of the process itself: a stream that
    cannot be written, a runtime that cannot be closed, and a runtime factory
    that fails with an exit error of its own. *)

From S2P Require Import Prelude GoStrings GoErrors PgTypes GoTime Target Version Values Json Effects Contract Batch.
From S2P Require Import Reload Restart Reinitialize Transition Pause Flush Remove ConfigPatch EditConfig Standby Select Snapshots Cluster.
From S2P Require Import Reads Cli CliRender CliWrite CliEdit CliActs Samples CliSamples.
From S2P Require Config ConfigProject Runtime.

Definition flawless (e : cevent) : Prop :=
  match e with
  | CEv a r =>
      match a return answer a → Prop with
      | AWrite _ _ | AClose => λ r, r = None
      | AOpen _ => λ r, match r with inl (OpenExit _) => False | _ => True end
      | _ => λ _, True
      end r
  end.

#[export] Instance flawless_dec e : Decision (flawless e).
Proof. destruct e as [[] r]; cbn in *; try apply _. destruct r as [[]|]; apply _. Defined.

(** ** Errors that can be rendered *)

(** An error whose document can be built. *)
Definition presentable (e : cli_error) : Prop :=
  errorWasRendered e = false ∧ validCategories (categoryForExitError e) = true ∧ error_message e ≠ "".

Lemma presentable_exit category message :
  validCategories category = true → message ≠ "" → presentable (exit_error category message).
Proof. intros Hc Hm. split_and!; [done| |done]. unfold categoryForExitError. cbn. by destruct category. Qed.

#[export] Hint Resolve presentable_exit : go.

Section machine.
Context `{GoStd, Encoders, CliStd, LocalZone, YamlInput} (app : adapter).

(** What an error leaves on the standard output: nothing, or its document. *)
Definition reported (e : cli_error) (texts : list string) : Prop :=
  presentable e ∧ texts = [] ∨
  ∃ metadata err text, as_exit e = Some (meCategory err, ExitCode (meCategory err), true) ∧ texts = [text] ∧
    document_text (output app) (ErrorDocument machineAPIVersion metadata (Some err)) = Some text.

Definition contract {A} (Ret : A → list string → Prop) (p : cli A) : Prop :=
  cwp p (λ tr o, Forall flawless tr → match o with
    | Returned a => Ret a (written Stdout tr)
    | Errored e => reported e (written Stdout tr)
    | Panicked => False
    end).

Definition quietly {A} (p : cli A) : Prop := contract (λ _ texts, texts = []) p.

Lemma written_app s tr tr' : written s (tr ++ tr') = written s tr ++ written s tr'.
Proof. apply omap_app. Qed.

Lemma contract_bind {A B} (Ret : B → list string → Prop) (p : cli A) (f : A → cli B) :
  quietly p → (∀ a, contract Ret (f a)) → contract Ret (p ≫= f).
Proof.
  intros Hp Hf. apply cwp_bind. eapply cwp_mono, Hp. intros tr [a|e|] Ho; cbn; [|done..].
  eapply cwp_mono, Hf. intros tr' o Ho' Hfl. apply Forall_app in Hfl as [Hfl Hfl'].
  rewrite written_app, (Ho Hfl). apply (Ho' Hfl').
Qed.

Lemma contract_raise {A} (Ret : A → list string → Prop) e : presentable e → contract Ret (Raise e).
Proof. intros He _. by left. Qed.

Lemma contract_exit {A} (Ret : A → list string → Prop) category message :
  validCategories category = true → message ≠ "" → contract Ret (Raise (exit_error category message)).
Proof. intros Hc Hm. by apply contract_raise, presentable_exit. Qed.

Lemma quietly_done {A} (a : A) : quietly (Done a).
Proof. by intros _. Qed.

Lemma quietly_check ok category message :
  validCategories category = true → message ≠ "" → quietly (check ok (exit_error category message)).
Proof. intros Hc Hm. destruct ok; [apply quietly_done|by apply contract_exit]. Qed.

Lemma quietly_lift {A} (p : prog A) : quietly (lift p).
Proof.
  apply cwp_lift. apply wp_runs. intros tr a _ _. induction tr as [|e tr IH]; [done|]. exact IH.
Qed.

(** An action that writes nothing to the standard output. *)
Lemma quietly_act a : (∀ text, a ≠ AWrite Stdout text) → quietly (do_act a).
Proof.
  intros Ha r _. unfold written. cbn. destruct a as [| [] text| | | | | | | | | | | |]; try done. by destruct (Ha text).
Qed.

Lemma contract_deferred_close {A} (Ret : A → list string → Prop) (p : cli A) : contract Ret p → contract Ret (deferred_close p).
Proof.
  intros Hp. apply cwp_deferred_close. eapply cwp_mono, Hp. intros tr o Ho err Hfl.
  apply Forall_app in Hfl as [Hfl Hc]. inversion Hc as [|? ? Herr _]; subst. cbn in Herr. subst err.
  rewrite written_app. unfold written at 2 4. cbn [omap list_omap ce_action]. specialize (Ho Hfl). destruct o; by rewrite ?app_nil_r.
Qed.

Lemma contract_guard {A} (Ret : A → list string → Prop) (p : cli A) message :
  message ≠ "" →
  cwp p (λ tr o, Forall flawless tr → match o with
    | Returned a => Ret a (written Stdout tr) | Errored e => written Stdout tr = [] | Panicked => False end) →
  contract Ret (guard_with (internal message) p).
Proof.
  intros Hm Hp. apply cwp_guard_with. eapply cwp_mono, Hp. intros tr [a|e|] Ho Hfl; [exact (Ho Hfl)| |exact (Ho Hfl)].
  left. split; [by apply presentable_exit|exact (Ho Hfl)].
Qed.
(** ** Machine mode *)

Section modes.
Context (Hm : machine app = true) (Henc : ∀ d, is_Some (encode (output app) d)).

Lemma machine_not_human : human app = false.
Proof using Hm. unfold machine in Hm. unfold human. by destruct (orb_prop _ _ Hm) as [->%String.eqb_eq| ->%String.eqb_eq]. Qed.

Lemma document_some d : ∃ text, document_text (output app) d = Some text.
Proof using Henc. unfold document_text. destruct (Henc d) as [text ->]. cbn. eauto. Qed.

(** The success document of a result. *)
Definition success (texts : list string) : Prop :=
  ∃ kind metadata data text, (kind, type_of data) ∈ machineSuccessTypes ∧ texts = [text] ∧
    document_text (output app) (SuccessDocument machineAPIVersion kind metadata data) = Some text.

Definition registered {T} `{MachineData T} (kind : string) : Prop :=
  ∀ metadata (d : T), (kind, type_of (to_machine d)) ∈ machineSuccessTypes ∧
    newMachineSuccessEnvelope kind metadata (to_machine d) = Some (SuccessDocument machineAPIVersion kind metadata (to_machine d)).

Lemma outcome_failed {T} (r : Result T) :
  Result_Validate r = None → rOutcome r ≠ Succeeded → ∃ err, rError r = Some err ∧ Error_Validate err = None.
Proof.
  unfold Result_Validate. intros Hv Ho. repeat (case_match; try discriminate); simplify_eq/=.
  - eexists. split; [done|]. by destruct (Error_Validate _).
  - unfold outcome_error in *. repeat case_match; simplify_eq/=; done.
Qed.

Lemma encodeDocument_run (Q : list cevent → result unit → Prop) d :
  (∀ text r, document_text (output app) d = Some text →
     Q [CEv (AWrite Stdout text) r] (if r is Some m then Errored (PlainError m) else Returned tt)) →
  cwp (encodeDocument Stdout (output app) d) Q.
Proof using Henc.
  intros HQ. unfold encodeDocument. destruct (document_some d) as [text Ht]. rewrite Ht. intros r.
  specialize (HQ text r Ht). by destruct r.
Qed.

(** A document and the error that reports it. *)
Lemma finish_document {A} (Ret : A → list string → Prop) message d (rest : cli A) :
  message ≠ "" →
  (∀ text, document_text (output app) d = Some text →
     match rest with Done a => Ret a [text] | Raise e => reported e [text] | _ => False end) →
  contract Ret (_ ← guard_with (internal message) (encodeDocument Stdout (output app) d); rest).
Proof using Henc.
  intros Hne Hrest. apply cwp_bind, cwp_guard_with, encodeDocument_run. intros text [m|] Ht; cbn.
  - intros Hfl. inversion Hfl as [|? ? He]. done.
  - specialize (Hrest text Ht). destruct rest; cbn; done.
Qed.

Lemma finishResult_fails {T A} `{MachineData T} (Ret : A → list string → Prop) runtime (r : Result T) kind compatible f :
  rOutcome r ≠ Succeeded → contract Ret (finishResult app (output app) runtime r kind compatible ≫= f).
Proof using All.
  intros Ho. unfold finishResult. destruct (Result_Validate r) eqn:Hv; [by apply contract_exit|].
  rewrite (bool_decide_eq_false_2 _ Ho). cbv zeta. unfold is_human. fold (human app). rewrite machine_not_human.
  destruct (outcome_failed r Hv Ho) as (err & Herr & Hok). rewrite Herr. cbn [exit_for newMachineError fmap option_fmap option_map].
  apply cwp_assoc, finish_document; [done|]. intros text Ht. cbn. right. eexists _, _, text. split_and!; [|done|exact Ht]. done.
Qed.

Lemma finishResult_contract {T} `{MachineData T} runtime (r : Result T) kind compatible :
  registered (T := T) kind → contract (λ _, success) (finishResult app (output app) runtime r kind compatible).
Proof using All.
  intros Hk. destruct (decide (rOutcome r = Succeeded)) as [Ho|Ho]; [|by apply cwp_done, finishResult_fails].
  unfold finishResult. destruct (Result_Validate r); [by apply contract_exit|].
  rewrite (bool_decide_eq_true_2 _ Ho). cbv zeta. unfold is_human. fold (human app). rewrite machine_not_human.
  match goal with |- context [newMachineSuccessEnvelope kind ?m _] => destruct (Hk m (rData r)) as [Hin ->] end.
  apply finish_document; [done|]. intros text Ht. cbn. eexists _, _, _, text. done.
Qed.

Lemma finishWriteResult_contract {T} `{MachineData T} runtime (r : Result T) kind render :
  registered (T := T) kind → contract (λ _, success) (finishWriteResult app runtime r kind render).
Proof using All.
  intros Hk. unfold finishWriteResult. rewrite machine_not_human. by apply finishResult_contract.
Qed.

Lemma preparedPlan_quiet runtime r : quietly (preparedPlan app runtime r).
Proof using All.
  unfold preparedPlan. destruct (Result_Validate r); [by apply contract_exit|].
  destruct (bool_decide (rOutcome r = Succeeded)) eqn:Ho; cbn [negb].
  - destruct (Plan_Validate _); [by apply contract_exit|apply quietly_done].
  - apply finishResult_fails. by apply bool_decide_eq_false in Ho.
Qed.

Lemma require_prompt_fails : ∃ message, promptUnavailableError app = Some (usageError message) ∧ message ≠ "".
Proof using Hm. unfold promptUnavailableError. rewrite Hm. by eexists. Qed.

(** No prompt is written in machine mode. *)
Lemma promptValue_quiet label default : quietly (promptValue app label default).
Proof using Hm.
  unfold promptValue, require_prompt. destruct require_prompt_fails as (message & -> & Hne).
  intros _. left. split; [by apply presentable_exit|done].
Qed.

Lemma require_prompt_quiet : quietly (require_prompt app).
Proof using Hm. unfold require_prompt. destruct require_prompt_fails as (message & -> & Hne). by apply contract_exit. Qed.

Lemma confirmPlan_quiet plan question : quietly (confirmPlan app plan question).
Proof using Hm.
  unfold confirmPlan, require_prompt. destruct require_prompt_fails as (message & -> & Hne).
  intros _. left. split; [by apply presentable_exit|done].
Qed.

Lemma confirmPreparedPlan_quiet runtime r force question : quietly (confirmPreparedPlan app runtime r force question).
Proof using All.
  apply contract_bind; [apply preparedPlan_quiet|]. intros plan. destruct force; [apply quietly_done|].
  apply contract_bind; [apply confirmPlan_quiet|]. intros _. apply quietly_done.
Qed.
End modes.
End machine.

(** ** Opening the runtime *)

Lemma nonempty_app s t : s ≠ "" → s +:+ t ≠ "".
Proof. by destruct s. Qed.

Section opening.
Context `{CliStd}.

Lemma generic_category_valid err : validCategories (generic_category err) = true.
Proof.
  unfold generic_category. destruct (dcs_kind err ≫= dcsErrorCategory) as [category|] eqn:E; [|by case_match].
  destruct (dcs_kind err) as [kind|]; [|done]. destruct kind; by simplify_eq/=.
Qed.

Lemma runtimeErrorCategory_valid err : validCategories (runtimeErrorCategory err) = true.
Proof. destruct err as [| [[] | |]| |]; cbn; auto using generic_category_valid. Qed.

Lemma Error_text_nonempty field source message : Config.Error_text field source message ≠ "".
Proof. unfold Config.Error_text. cbv zeta. repeat case_match; repeat apply nonempty_app; done. Qed.

Lemma generic_message_nonempty err : generic_message err ≠ "".
Proof. unfold generic_message. repeat case_match; done. Qed.

Lemma safeRuntimeError_nonempty err : safeRuntimeError err ≠ "".
Proof.
  destruct err as [|err|[]|]; cbn -[String.append]; auto using generic_message_nonempty; try (by apply nonempty_app).
  destruct err; cbn -[String.append]; auto using Error_text_nonempty, generic_message_nonempty.
Qed.
End opening.

(** ** Messages of a preparation

    [demote-cluster] recognizes that it was aborted by the text of the error; no
    message of its preparation has that text. *)

Definition not_aborted (message : string) : Prop := HasPrefix message "Aborted" = false.

Section messages.
Context (service : Service) (operation : string) (Hop : ∀ rest, not_aborted (operation +:+ rest)).

Definition calm (r : snapshots_result) : Prop := match r with inl (failure, _) => not_aborted (dfMessage failure) | inr _ => True end.

Lemma calm_read message err evidence : not_aborted message → calm (read_failure message err evidence).
Proof. unfold read_failure. by destruct (classifyReadError (Some err)). Qed.

Lemma calm_unsupported err evidence : calm (unsupported_failure service operation err evidence).
Proof using Hop. apply Hop. Qed.

#[local] Hint Resolve calm_read calm_unsupported : go.
#[local] Hint Extern 1 (not_aborted _) => exact eq_refl : go.
#[local] Hint Extern 1 (calm (inr _)) => exact I : go.
#[local] Hint Extern 1 (calm (plain_failure _ _ _ _)) => exact eq_refl : go.

Lemma citusGroups_calm target allow check items snapshots evidence :
  returns (citusGroups service operation target allow check items snapshots evidence) calm.
Proof using Hop.
  revert snapshots evidence. induction items as [|item items IH]; intros snapshots evidence; cbn [citusGroups].
  { apply returns_ret. by destruct snapshots. }
  repeat (cbv beta zeta; match goal with
    | |- returns (mret _) _ => apply returns_ret
    | |- returns (do_call _ ≫= _) _ => apply returns_call; intros ?
    | |- returns (match ?x with _ => _ end) _ => destruct x
    | |- returns (citusGroups _ _ _ _ _ _ _ _) _ => apply IH
    end); auto with go.
Qed.

Lemma citusGroupSnapshots_calm target allow check :
  returns (citusGroupSnapshotsWithVersionCheck service operation target allow check) calm.
Proof using Hop.
  unfold citusGroupSnapshotsWithVersionCheck. cbv zeta. destruct (negb _).
  - apply returns_call. intros [err|snapshot]; apply returns_ret; [auto with go|]. case_match; auto with go.
  - destruct (negb _); [apply returns_ret, Hop|]. apply returns_call. intros [err|items]; [apply returns_ret; auto with go|].
    apply citusGroups_calm.
Qed.

Lemma operationSnapshots_calm target citus allow : returns (operationSnapshots service operation target citus allow) calm.
Proof using Hop.
  unfold operationSnapshots, operationSnapshotsWithVersionCheck. destruct citus; [apply citusGroupSnapshots_calm|].
  apply returns_call. intros [err|snapshot]; apply returns_ret; [apply calm_read, Hop|]. case_match; auto with go.
Qed.

Lemma citusCoordinator_calm target allow : returns (citusCoordinatorSnapshot service operation target allow) calm.
Proof using Hop.
  unfold citusCoordinatorSnapshot. cbv zeta. destruct (negb _); [apply operationSnapshots_calm|].
  eapply returns_bind; [apply citusGroupSnapshots_calm|]. intros [[failure ev]|[ss ev]] Hr; apply returns_ret; [done|].
  by case_match.
Qed.
End messages.

Lemma PrepareDemoteCluster_calm `{GoStd} service ctx request :
  returns (PrepareDemoteCluster service ctx request) (λ r, ∀ e, rError r = Some e → not_aborted (errMessage e)).
Proof.
  unfold PrepareDemoteCluster. destruct (normalizeDemoteClusterRequest request) as [intent err] eqn:E.
  assert (siOperation intent = "demote-cluster") as Hop by by (injection E as <- _).
  unfold prepareStandbyCluster, planStandbyCluster. rewrite Hop.
  eapply returns_bind; [eapply wp_all_returns, operationID_spec|]. intros id _. cbv zeta.
  destruct (negb ctx); [apply returns_ret; by intros e [= <-]|].
  destruct (negb (is_nil err)); [apply returns_ret; by intros e [= <-]|].
  apply returns_bind with (P := calm).
  { unfold standbyClusterSnapshots. rewrite Hop. destruct (siCitus intent); [by apply citusCoordinator_calm|by apply operationSnapshots_calm]. }
  intros [[failure ev]|[ss ev]] Hr; [apply returns_ret; by intros e [= <-]|].
  repeat case_match; apply returns_ret; intros e He; cbn in He; simplify_eq; done.
Qed.

Section handlers.
Context `{GoStd, Encoders, CliStd, LocalZone, YamlInput} (app : adapter).
Context (Hm : machine app = true) (Henc : ∀ d, is_Some (encode (output app) d)).

Lemma openRuntime_quiet request : quietly app (openRuntime app request).
Proof using Hm.
  unfold openRuntime. destruct (rootInvocation app request) as [err|invocation] eqn:E.
  - unfold rootInvocation in E. destruct (rootDCS app) as [[]|]; [done|]. injection E as <-. by apply contract_exit.
  - intros [[e|err]|runtime]; cbn.
    + intros Hfl. by inversion Hfl.
    + intros _. left. split; [|done]. apply presentable_exit; [apply runtimeErrorCategory_valid|apply safeRuntimeError_nonempty].
    + rewrite (machine_not_human app Hm). by intros _.
Qed.

Lemma with_runtime_contract {A} (Ret : A → list string → Prop) request body :
  (∀ runtime, contract app Ret (body runtime)) → contract app Ret (with_runtime app request body).
Proof using Hm. intros Hb. apply contract_bind; [apply openRuntime_quiet|]. intros runtime. by apply contract_deferred_close. Qed.

Lemma parseRole_quiet value : quietly app (parseRole value).
Proof. unfold parseRole. destruct (find_first _ _) as [[]|]; [apply quietly_done|by apply contract_exit]. Qed.

Lemma parseScheduled_quiet value : quietly app (parseScheduled value).
Proof. unfold parseScheduled. cbv zeta. destruct (_ || _); [apply quietly_done|]. destruct parse_layouts; [apply quietly_done|by apply contract_exit]. Qed.

Lemma unless_quiet given value prompt : quietly app prompt → quietly app (unless given value prompt).
Proof. intros Hp. destruct given; [apply quietly_done|done]. Qed.

Lemma List_for_prompt_quiet {A} runtime (r : Result ListData) (v : A) :
  rOutcome r ≠ Succeeded → quietly app (_ ← finishResult app (output app) runtime r "ClusterList" (λ _, Done tt); Done v).
Proof using All. intros Ho. by apply finishResult_fails. Qed.

Lemma clusterForPrompt_quiet runtime : quietly app (clusterForPrompt app runtime).
Proof using All.
  apply contract_bind; [apply quietly_lift|]. intros r. destruct (bool_decide _) eqn:Ho; cbn [negb].
  - destruct (ldClusters (rData r)) as [|? []]; [by apply contract_exit|apply quietly_done|by apply contract_exit].
  - apply List_for_prompt_quiet. by apply bool_decide_eq_false in Ho.
Qed.

Lemma replicaNames_quiet runtime : quietly app (replicaNamesForPrompt app runtime).
Proof using All.
  apply contract_bind; [apply quietly_lift|]. intros r. destruct (bool_decide _) eqn:Ho; cbn [negb]; [apply quietly_done|].
  apply List_for_prompt_quiet. by apply bool_decide_eq_false in Ho.
Qed.

Lemma resolveInteractiveGroup_quiet runtime force : quietly app (resolveInteractiveGroup app runtime force).
Proof using Hm.
  unfold resolveInteractiveGroup. destruct (_ || _ || _)%bool; [apply quietly_done|].
  apply contract_bind; [by apply promptValue_quiet|]. intros value. destruct (ParseInt _); [|by apply contract_exit].
  destruct (_ <? _)%Z; [by apply contract_exit|apply quietly_done].
Qed.

Lemma removeConfirmation_quiet runtime options explicit plan : quietly app (removeConfirmation app runtime options explicit plan).
Proof using Hm.
  unfold removeConfirmation.
  repeat first [ apply contract_bind; [first [by apply quietly_check | by apply unless_quiet, promptValue_quiet]|intros ?] ].
  cbv zeta. apply contract_bind; [|intros ?; apply quietly_done]. destruct (_ ==s _); [apply quietly_done|].
  apply contract_bind; [by apply unless_quiet, promptValue_quiet|intros ?].
  apply contract_bind; [by apply quietly_check|intros ?; apply quietly_done].
Qed.

Lemma confirm_quiet question : quietly app (confirm app question).
Proof using Hm. apply contract_bind; [by apply promptValue_quiet|]. intros ?. apply quietly_done. Qed.

Lemma confirmFailover_quiet runtime plan : quietly app (confirmFailover app runtime plan).
Proof using Hm.
  apply contract_bind; [|intros ?; by apply confirmPlan_quiet]. destruct (_ ==s _); [|apply quietly_done].
  apply contract_bind; [apply confirm_quiet|]. intros ?. by apply quietly_check.
Qed.

Lemma switchover_members_quiet runtime options : quietly app (switchover_members app runtime options).
Proof using All.
  unfold switchover_members. cbv zeta. destruct (_ && _); [|apply quietly_done].
  apply contract_bind; [apply clusterForPrompt_quiet|intros ?]. 
  do 2 (apply contract_bind; [by apply unless_quiet, promptValue_quiet|intros ?]). apply quietly_done.
Qed.

Lemma reinit_members_quiet runtime force members : quietly app (reinit_members app runtime force members).
Proof using All.
  unfold reinit_members. destruct members; [destruct force|]; try apply quietly_done.
  apply contract_bind; [apply replicaNames_quiet|intros ?].
  apply contract_bind; [by apply promptValue_quiet|intros ?]. apply quietly_done.
Qed.

(** Errors that are rendered do not have the text of an abort. *)
Definition calm_errors {A} (o : result A) : Prop :=
  match o with Errored e => errorWasRendered e = true → not_aborted (error_message e) | _ => True end.

Lemma confirmPreparedPlan_calm runtime r force question :
  (∀ e, rError r = Some e → not_aborted (errMessage e)) →
  cwp (confirmPreparedPlan app runtime r force question) (λ _, calm_errors).
Proof using All.
  intros Hr. apply cwp_bind. unfold preparedPlan. destruct (Result_Validate r) eqn:Hv; [done|].
  destruct (bool_decide (rOutcome r = Succeeded)) eqn:Ho; cbn [negb].
  - destruct (Plan_Validate _); [done|]. cbn. destruct force; [done|].
    unfold confirmPlan, require_prompt. by destruct (require_prompt_fails app Hm) as (message & -> & _).
  - unfold finishResult. rewrite Hv, Ho. cbv zeta. unfold is_human. fold (human app). rewrite (machine_not_human app Hm).
    apply bool_decide_eq_false in Ho. destruct (outcome_failed r Hv Ho) as (err & Herr & _). rewrite Herr.
    apply cwp_assoc, cwp_bind, cwp_guard_with, encodeDocument_run; [done|]. intros text [m|] _; [done|]. cbn. intros _. by apply Hr.
Qed.

Lemma demotion_contract runtime r force question :
  (∀ e, rError r = Some e → not_aborted (errMessage e)) →
  quietly app (on_error demotion_aborted (confirmPreparedPlan app runtime r force question)).
Proof using All.
  intros Hr. apply cwp_on_error.
  eapply cwp_mono, cwp_and; [|apply (confirmPreparedPlan_quiet app Hm Henc)|by apply confirmPreparedPlan_calm].
  intros tr [plan|e|] [Ho Hc]; [done| |done]. cbn. rewrite app_nil_r. intros Hfl. specialize (Ho Hfl). cbn in Hc.
  destruct (error_message e ==s "Aborted demote-cluster") eqn:E; [|done]. go_bool.
  destruct Ho as [[_ Ht]|(m & err & text & Ha & _)]; [left; split; [by apply presentable_exit|done]|].
  exfalso. unfold errorWasRendered in Hc. rewrite Ha in Hc. specialize (Hc eq_refl). rewrite E in Hc. discriminate Hc.
Qed.

(** ** Handlers *)

Ltac quiet :=
  first [ by apply quietly_check | by apply quietly_done | apply quietly_lift | by apply preparedPlan_quiet
        | by apply confirmPreparedPlan_quiet | by apply require_prompt_quiet | apply parseRole_quiet | apply parseScheduled_quiet
        | by apply unless_quiet, promptValue_quiet | apply resolveInteractiveGroup_quiet | apply removeConfirmation_quiet
        | apply confirmFailover_quiet | apply switchover_members_quiet | apply reinit_members_quiet ].

Ltac handler :=
  repeat (cbv beta zeta; first
    [ apply with_runtime_contract; intros ?
    | apply finishWriteResult_contract; [done|done|by intros metadata d; split; [apply list_elem_of_In; cbn; tauto|]]
    | apply contract_bind; [solve [quiet]|intros ?] ]).

Definition succeeds {A} (p : cli A) : Prop := contract app (λ _, success app) p.

Lemma runRemove_succeeds args options : succeeds (runRemove app args options).
Proof using All.
  unfold succeeds, runRemove. apply contract_bind; [quiet|intros _]. cbv zeta.
  apply contract_bind; [destruct (explicit_confirmation options); quiet|intros _].
  apply with_runtime_contract. intros runtime. cbv zeta. do 2 (apply contract_bind; [quiet|intros ?]).
  unfold show_removed. rewrite (machine_not_human app Hm). handler.
Qed.

Lemma runReload_succeeds args options : succeeds (runReload app args options).
Proof using All. unfold succeeds, runReload. handler. Qed.

Lemma runRestart_succeeds args options : succeeds (runRestart app args options).
Proof using All. unfold succeeds, runRestart. handler. Qed.

Lemma runReinit_succeeds args options : succeeds (runReinit app args options).
Proof using All. unfold succeeds, runReinit. handler. Qed.

Lemma runFailover_succeeds args options : succeeds (runFailover app args options).
Proof using All.
  unfold succeeds, runFailover. apply with_runtime_contract. intros runtime. apply contract_bind; [quiet|intros ?].
  cbv zeta. apply contract_bind.
  { destruct (_ && _); [|quiet]. apply contract_bind; [apply clusterForPrompt_quiet|]. intros ?. by apply promptValue_quiet. }
  intros candidate. do 2 (apply contract_bind; [quiet|intros ?]). apply contract_bind; [destruct (foForce options); quiet|intros _]. handler.
Qed.

Lemma runSwitchover_succeeds args options : succeeds (runSwitchover app args options).
Proof using All. unfold succeeds, runSwitchover. handler. Qed.

Lemma runFlush_succeeds args options : succeeds (runFlush app args options).
Proof using All.
  unfold succeeds, runFlush. destruct (find_first _ _); [|by apply contract_exit]. handler.
Qed.

Lemma runPause_succeeds args options resume : succeeds (runPause app args options resume).
Proof using All. unfold succeeds, runPause. destruct resume; handler. Qed.

Lemma runPromoteCluster_succeeds args options : succeeds (runPromoteCluster app args options).
Proof using All. unfold succeeds, runPromoteCluster. handler. Qed.

(** An operation whose results satisfy [P]. *)
Lemma contract_returns {A B} (Ret : B → list string → Prop) (P : A → Prop) (p : prog A) (f : A → cli B) :
  returns p P → (∀ a, P a → contract app Ret (f a)) → contract app Ret (lift p ≫= f).
Proof.
  intros Hp Hf. apply cwp_bind.
  eapply cwp_mono, cwp_and; [|apply (quietly_lift app)|apply (cwp_lift p (λ _ o, on_value P o)); exact Hp].
  intros tr [a|e|] [Ho Ha]; cbn; [|done..]. eapply cwp_mono, (Hf a Ha). intros tr' o Ho' Hfl.
  apply Forall_app in Hfl as [Hfl Hfl']. rewrite written_app, (Ho Hfl). apply (Ho' Hfl').
Qed.

Lemma runDemoteCluster_succeeds args options : succeeds (runDemoteCluster app args options).
Proof using All.
  unfold succeeds, runDemoteCluster. apply contract_bind; [quiet|intros _]. apply with_runtime_contract. intros runtime. cbv zeta.
  eapply contract_returns; [apply PrepareDemoteCluster_calm|]. intros r Hr.
  apply contract_bind; [by apply demotion_contract|intros ?]. handler.
Qed.

(** *** [edit-config] *)

Lemma quiet_raise_if {A} failure message (f : unit → cli A) Ret :
  message ≠ "" → (∀ u, contract app Ret (f u)) → contract app Ret (fail_if failure (failedError message) ≫= f).
Proof. intros Hne Hf. apply contract_bind; [|done]. destruct failure; [by apply contract_exit|by apply quietly_done]. Qed.

Lemma readConfigMap_quiet file : quietly app (readConfigMap file).
Proof.
  apply contract_bind; [by apply quietly_act|]. intros canceled. apply contract_bind; [by apply quietly_check|]. intros _.
  apply contract_bind; [unfold read_input; case_match; by apply quietly_act|]. intros [data|]; [|by apply contract_exit].
  destruct (_ ==s _); [by apply quietly_done|]. destruct (yaml_config data); [by apply quietly_done|by apply contract_exit].
Qed.

Lemma parse_settings_quiet all : quietly app (parse_settings all).
Proof.
  induction all as [|setting all IH]; cbn [parse_settings]; [by apply quietly_done|].
  destruct (parse_setting setting) as [err|v] eqn:E.
  - unfold parse_setting in E. destruct (Cut _ _) as [[path raw]|]; cbv zeta in E; [|injection E as <-; by apply contract_exit].
    destruct (_ ==s _); [injection E as <-; by apply contract_exit|]. destruct (yaml_value raw); [done|].
    injection E as <-. by apply contract_exit.
  - apply contract_bind; [exact IH|]. intros settings. by apply quietly_done.
Qed.

Lemma editConfigInEditor_quiet scope current : quietly app (editConfigInEditor app scope current).
Proof using Hm.
  unfold editConfigInEditor. destruct (require_prompt_fails app Hm) as (message & -> & _). by apply contract_exit.
Qed.

Lemma requested_edit_quiet runtime options current : quietly app (requested_edit app runtime options current).
Proof using Hm.
  unfold requested_edit, edit_input.
  do 2 (apply contract_bind; [case_match; [by apply quietly_done|apply readConfigMap_quiet]|intros ?]).
  apply contract_bind; [apply parse_settings_quiet|]. intros settings.
  destruct (_ && _)%bool; [|by apply quietly_done]. apply contract_bind; [apply editConfigInEditor_quiet|]. intros ?. by apply quietly_done.
Qed.

Lemma runEditConfig_succeeds args options : succeeds (runEditConfig app args options).
Proof using All.
  unfold succeeds, runEditConfig. destruct (_ && _); [by apply contract_exit|].
  apply with_runtime_contract. intros runtime. apply contract_bind; [quiet|]. intros current.
  destruct (bool_decide _) eqn:Ho; cbn [negb].
  - apply contract_bind; [apply requested_edit_quiet|]. intros edit. cbv zeta.
    destruct (PreviewEditConfig _ _) as [err|preview]; [by apply contract_exit|].
    unfold preview_edit. rewrite (machine_not_human app Hm), andb_false_r.
    apply contract_bind; [quiet|]. intros _. destruct (_ && _); [by apply contract_exit|].
    unfold apply_edit. do 2 (apply contract_bind; [quiet|intros ?]). apply contract_bind; [|intros _; handler].
    destruct (_ && _); [by apply confirmPlan_quiet|quiet].
  - apply bool_decide_eq_false in Ho. apply cwp_done. by apply (finishResult_fails app Hm Henc (λ _, success app)).
Qed.

Lemma run_write_succeeds command args : succeeds (run_write app command args).
Proof using All.
  destruct command; cbn [run_write].
  - apply runRemove_succeeds.
  - apply runReload_succeeds.
  - apply runRestart_succeeds.
  - apply runReinit_succeeds.
  - apply runFailover_succeeds.
  - apply runSwitchover_succeeds.
  - apply runFlush_succeeds.
  - apply runPause_succeeds.
  - apply runEditConfig_succeeds.
  - apply runDemoteCluster_succeeds.
  - apply runPromoteCluster_succeeds.
Qed.
(** ** No line is read *)

Definition no_input (a : action) : Prop :=
  match a with AReadLine | AReadPassword | ARunEditor _ _ => False | _ => True end.

Ltac acts_handler :=
  repeat first [ progress acts_step | apply acts_with_runtime; [done|done|done|intros ?] | apply acts_finishWriteResult; [done|intros ?]
               | apply acts_calls; by intros | apply acts_on_error; [by intros; unfold demotion_aborted|] | apply acts_finishResult; [done|by intros] ];
  eauto using machine_no_prompt with acts.

#[local] Hint Extern 1 (no_input _) => exact I : acts.
#[local] Hint Extern 1 (∀ _ _, no_input (AWrite _ _)) => (intros; exact I) : acts.
#[local] Hint Extern 1 (∀ _, _ → no_input _) => (intros; exact I) : acts.
#[local] Hint Extern 1 (machine app = true ∨ _) => (left; exact Hm) : acts.

Lemma acts_parse_settings P all : acts P (parse_settings all).
Proof. induction all as [|setting all IH]; cbn [parse_settings]; acts. Qed.

Lemma acts_no_editor scope current : acts no_input (editConfigInEditor app scope current).
Proof using Hm. unfold editConfigInEditor. by destruct (require_prompt_fails app Hm) as (message & -> & _). Qed.

#[local] Hint Resolve acts_parse_settings acts_no_editor : acts.

Lemma run_write_no_input command args : acts no_input (run_write app command args).
Proof using Hm.
  destruct command; cbn [run_write].
  - unfold runRemove. acts_handler.
  - unfold runReload, renderReloadWrite. acts_handler.
  - unfold runRestart, renderRestartWrite. acts_handler.
  - unfold runReinit, renderReinitializeWrite. acts_handler.
  - unfold runFailover, renderClusterWrite, candidatePrompt. acts_handler.
  - unfold runSwitchover, renderClusterWrite. acts_handler.
  - unfold runFlush, renderFlushWrite. acts_handler.
  - unfold runPause, renderPauseWrite. acts_handler.
  - unfold runEditConfig, requested_edit, edit_input, readConfigMap, read_input, apply_edit, render_edit, parseConfigSettings.
    acts_handler.
  - unfold runDemoteCluster, renderClusterRoleWrite. acts_handler.
  - unfold runPromoteCluster, renderClusterRoleWrite. acts_handler.
Qed.
End handlers.

(** ** The exit status *)

(** What the status says of the document: 0 for a success of a registered kind,
    the status of the category of an error. *)
Definition reports (status : Z) (d : document) : Prop :=
  match d with
  | SuccessDocument _ kind _ data => status = 0%Z ∧ (kind, type_of data) ∈ machineSuccessTypes
  | ErrorDocument _ _ (Some e) => status = ExitCode (meCategory e)
  | _ => False
  end.

Definition one_document `{Encoders} (app : adapter) (tr : list cevent) (o : result Z) : Prop :=
  ∃ d text status, o = Returned status ∧ written Stdout tr = [text] ∧ document_text (output app) d = Some text ∧ reports status d.

Section execution.
Context `{GoStd, Encoders, CliStd, LocalZone, YamlInput} (app : adapter).
Context (Hm : machine app = true) (Henc : ∀ d, is_Some (encode (output app) d)).

Lemma ExitCode_nonzero c : (ExitCode c =? 0)%Z = false.
Proof. by destruct c. Qed.

Lemma exitCode_rendered e c : as_exit e = Some (c, ExitCode c, true) → errorWasRendered e = true ∧ exitCode (Some e) = ExitCode c.
Proof. intros He. unfold errorWasRendered, exitCode. rewrite He. by rewrite ExitCode_nonzero. Qed.

(** What a run of the wrapped command leaves. *)
Definition ended (shown : list string → Prop) (tr : list cevent) (o : result unit) : Prop :=
  Forall flawless tr → match o with
  | Returned _ => shown (written Stdout tr)
  | Errored e => reported app e (written Stdout tr) ∧ errorWasRendered e = true
  | Panicked => False
  end.

Lemma renderCommandError_ended shown name args e : presentable e → cwp (renderCommandError app name args e) (ended shown).
Proof using Hm Henc.
  intros (Hr & Hc & Hne). unfold renderCommandError. rewrite Hr, Hm, (machine_not_human app Hm). cbn [orb negb]. cbv zeta.
  assert (Error_Validate (NewError (categoryForExitError e) (command_operation app name)
            (Normalize (mkTarget (roContextName (adRoot app)) "" (deref "" (head args)) None "")) false (error_message e) (cli_cause e) [])
          = None) as ->.
  { unfold Error_Validate. cbn. rewrite Hc. cbn. rewrite (proj2 (String.eqb_neq _ _) Hne).
    unfold command_operation. destruct (name ==s "") eqn:En; [done|]. cbn. destruct (name ==s apName _); [done|]. by rewrite En. }
  apply cwp_bind, cwp_guard_with, encodeDocument_run; [done|]. intros text [m|] Ht; cbn -[categoryForExitError]; intros Hfl.
  { inversion Hfl as [|? ? He]. done. }
  split; [|done]. right. eexists _, _, text. split_and!; [|done|exact Ht]. done.
Qed.

Lemma wrapped_ended shown name accepted args handler :
  contract app (λ _, shown) handler → cwp (wrapped app name accepted args handler) (ended shown).
Proof using Hm Henc.
  intros Hh. unfold wrapped. destruct (negb accepted); [by apply renderCommandError_ended, presentable_exit, args_error_said|].
  destruct (validateOutputContract app) as [err|] eqn:E.
  { apply renderCommandError_ended. unfold validateOutputContract in E.
    destruct (negb _); [injection E as <-; by apply presentable_exit|]. destruct (_ && _); [|done].
    injection E as <-. by apply presentable_exit. }
  apply cwp_on_error. eapply cwp_mono, Hh. intros tr [a|e|] Ho; [done| |done].
  destruct (errorWasRendered e) eqn:Hr.
  - unfold renderCommandError. rewrite Hr. cbn. rewrite app_nil_r. intros Hfl. split; [by apply Ho|done].
  - destruct (decide (Forall flawless tr)) as [Hfl|Hfl]; [|apply cwp_forall; intros tr' o' Hfl'; by apply Forall_app in Hfl' as [? _]].
    destruct (Ho Hfl) as [[Hp Ht]|(? & ? & ? & Ha & _)]; [|unfold errorWasRendered in Hr; by rewrite Ha in Hr].
    eapply cwp_mono, renderCommandError_ended, Hp. intros tr' o' He Hfl'. apply Forall_app in Hfl' as [_ Hfl'].
    rewrite written_app, Ht. exact (He Hfl').
Qed.

(** The exit status of a command whose error was rendered. *)
Lemma ended_status shown (Q : list cevent → result Z → Prop) p :
  cwp p (ended shown) →
  (∀ tr, shown (written Stdout tr) → Q tr (Returned 0%Z)) → (∀ tr o, one_document app tr o → Q tr o) →
  cwp (exit_status p) (λ tr o, Forall flawless tr → Q tr o).
Proof using Hm Henc.
  intros Hh HQ HQ'. apply cwp_exit_status. eapply cwp_mono, Hh. intros tr [u|e|] Ho.
  - intros Hfl. by apply HQ, Ho.
  - destruct (errorWasRendered e) eqn:Hr; [intros Hfl|intros r Hfl; apply Forall_app in Hfl as [Hfl _]; destruct (Ho Hfl); congruence].
    apply HQ'. destruct (Ho Hfl) as [[[[Hr' _] _]|(m & err & text & Ha & Hw & Ht)] _]; [by rewrite Hr in Hr'|].
    destruct (exitCode_rendered _ _ Ha) as [_ ->]. by eexists _, text, _; repeat split.
  - intros Hfl. by destruct (Ho Hfl).
Qed.

Lemma wrapped_status shown (Q : list cevent → result Z → Prop) name accepted args handler :
  contract app (λ _, shown) handler →
  (∀ tr, shown (written Stdout tr) → Q tr (Returned 0%Z)) → (∀ tr o, one_document app tr o → Q tr o) →
  cwp (exit_status (wrapped app name accepted args handler)) (λ tr o, Forall flawless tr → Q tr o).
Proof using Hm Henc. intros Hh. apply ended_status, wrapped_ended, Hh. Qed.

Lemma success_document tr : success app (written Stdout tr) → one_document app tr (Returned 0%Z).
Proof.
  intros (kind & m & data & text & Hin & Hw & Ht). exists (SuccessDocument machineAPIVersion kind m data), text, 0%Z. by repeat split.
Qed.

Lemma wrapped_no_input name accepted args handler :
  acts no_input handler → acts no_input (exit_status (wrapped app name accepted args handler)).
Proof using Type H. intros Hh. by apply acts_exit_status, acts_wrapped. Qed.
End execution.

(** In machine mode a command that changes a cluster prints exactly one
    document on the standard output, whatever the control package and the
    cluster answer and whatever the arguments: the success document of a
    registered kind with exit status 0, or the error document whose category
    the exit status is that of.  It reads no line of input and starts no
    editor. *)
Theorem execute_machine `{GoStd, Encoders, CliStd, LocalZone, YamlInput} app command args :
  machine app = true → (∀ d, is_Some (encode (output app) d)) →
  cwp (execute app command args) (λ tr o,
    Forall (λ e, no_input (ce_action e)) tr ∧ (Forall flawless tr → one_document app tr o)).
Proof.
  intros Hm Henc. eapply cwp_mono, cwp_and; [|apply acts_cwp, wrapped_no_input, run_write_no_input, Hm|
    apply (wrapped_status app Hm Henc (success app) (one_document app)); [by apply run_write_succeeds| |done]].
  - intros tr o [[Hi _] Hd]. by split.
  - apply success_document.
Qed.

(** A forced reload prints its result; one that would have to ask, an error. *)
Definition machine_reload (force : bool) : list cevent * result Z :=
  crun (at_terminal reload_reply []) [] (execute (sample_app "json") (CmdReload (mkReloadOptions 0 "any" force)) ["pg"]).

Lemma execute_machine_witness :
  written Stdout (machine_reload true).1 = [line "ReloadResult"] ∧ (machine_reload true).2 = Returned 0%Z ∧
  one_document (sample_app "json") (machine_reload true).1 (machine_reload true).2 ∧
  written Stdout (machine_reload false).1 = [line "Error"] ∧ (machine_reload false).2 = Returned 2%Z ∧
  one_document (sample_app "json") (machine_reload false).1 (machine_reload false).2.
Proof.
  assert (∀ force, Forall flawless (machine_reload force).1 →
            one_document (sample_app "json") (machine_reload force).1 (machine_reload force).2) as Hd.
  { intros force. refine (proj2 (cwp_run _ (λ tr o, Forall _ tr ∧ (Forall flawless tr → one_document (sample_app "json") tr o)) _ [] _)).
    apply (execute_machine (sample_app "json") (CmdReload (mkReloadOptions 0 "any" force)) ["pg"]); [reflexivity|]. intros d. by eexists. }
  assert (∀ force, Forall flawless (machine_reload force).1) as Hf by (intros []; apply (bool_decide_unpack _); vm_compute; exact I).
  split_and!; lazymatch goal with |- one_document _ _ _ => apply Hd, Hf | _ => vm_compute; reflexivity end.
Defined.

(** ** A runtime that cannot be closed

    The success document was printed; the failure to close is rendered as a
    second one. *)
Definition stuck_close (tr : list cevent) (a : action) : answer a :=
  match a return answer a with AClose => Some "close" | a => at_terminal reload_reply [] tr a end.

Example two_documents :
  let r := crun stuck_close [] (execute (sample_app "json") (CmdReload (mkReloadOptions 0 "any" true)) ["pg"]) in
  written Stdout r.1 = [line "ReloadResult"; line "Error"] ∧ r.2 = Returned 9%Z.
Proof. by vm_compute. Qed.
