(* ===== verification/CliTables.v ===== *)
(** * Tables are aligned: [renderPretty]

    Every line of a table has the same length, and rendering it does not panic,
    when no cell has a line break.  A cell with line breaks is written on one
    line that its column may be too narrow for. *)

From S2P Require Import Prelude GoStrings GoErrors Values Json Effects Contract Select Cluster Reads Samples.
From S2P Require Import Cli CliRender CliSamples.

#[local] Open Scope Z_scope.

Definition len (s : string) : Z := Z.of_nat (String.length s).

Lemma len_app s t : len (s +:+ t) = len s + len t.
Proof. unfold len. rewrite length_string_app. lia. Qed.

Lemma len_ReplaceByte old new s : len (ReplaceByte old new s) = len s.
Proof. unfold len. induction s as [|c s IH]; [done|]. cbn [ReplaceByte String.length]. lia. Qed.

Lemma len_Repeat c n text : Repeat c n = Some text → len text = n.
Proof.
  unfold Repeat. destruct (Z.ltb_spec n 0); [done|]. intros <-%(inj Some). unfold len.
  assert (∀ k, String.length (String.string_of_list_ascii (replicate k c)) = k) as -> by (intros k; induction k; cbn; auto). lia.
Qed.

Lemma Repeat_some c n : 0 <= n → ∃ text, Repeat c n = Some text ∧ len text = n.
Proof.
  intros Hn. unfold Repeat. destruct (Z.ltb_spec n 0); [lia|]. eexists. split; [done|].
  apply (len_Repeat c). unfold Repeat. by destruct (Z.ltb_spec n 0); [lia|].
Qed.

Lemma len_Join l l' sep sep' : len sep = len sep' → len <$> l = len <$> l' → len (Join l sep) = len (Join l' sep').
Proof.
  intros Hsep. revert l'. induction l as [|x l IH]; intros [|x' l'] Hl; try discriminate Hl; [done|].
  injection Hl as Hx Hl. destruct l as [|y l], l' as [|y' l']; try discriminate Hl; [exact Hx|].
  specialize (IH (y' :: l') Hl). unfold Join in *.
  change (String.concat sep (x :: y :: l)) with (x +:+ sep +:+ String.concat sep (y :: l)).
  change (String.concat sep' (x' :: y' :: l')) with (x' +:+ sep' +:+ String.concat sep' (y' :: l')).
  rewrite !len_app. lia.
Qed.

(** ** Lines *)

Lemma pretty_field_some value width :
  len value <= width + 1 → ∃ field, pretty_field value width = Some field ∧ len field = width + 2.
Proof.
  intros Hv. unfold pretty_field. cbv zeta. fold (len (ReplaceByte newline " " value)). rewrite len_ReplaceByte.
  destruct (Repeat_some " " (width - len value + 1)) as (padding & -> & Hp); [lia|]. cbn -[String.append].
  eexists. split; [done|]. rewrite !len_app, len_ReplaceByte. change (len " ") with 1. lia.
Qed.

Definition fits (values : list string) (widths : list Z) : Prop :=
  ∀ i w, widths !! i = Some w → len (deref "" (values !! i)) <= w + 1.

Definition line_width (widths : list Z) : Z := len (border widths).

Lemma border_fields widths : Forall (λ w, 0 <= w) widths → len <$> ((λ w, deref "" (Repeat "-" (w + 2))) <$> widths) = (λ w, w + 2) <$> widths.
Proof.
  induction 1 as [|w widths Hw _ IH]; [done|]. cbn [fmap list_fmap]. f_equal; [|exact IH].
  destruct (Repeat_some "-" (w + 2)) as (text & -> & Hl); [lia|]. exact Hl.
Qed.

Lemma columns_fmap {A} (f : Z → A) (widths : list Z) :
  (λ column, f (deref 0 (widths !! column))) <$> seq 0 (length widths) = f <$> widths.
Proof.
  apply list_eq. intros i. rewrite !list_lookup_fmap. destruct (widths !! i) as [w|] eqn:Hw.
  - rewrite lookup_seq_lt by (by apply lookup_lt_Some in Hw). cbn. by rewrite Hw.
  - rewrite lookup_seq_ge; [done|]. by apply lookup_ge_None.
Qed.

Lemma pretty_fields values widths :
  fits values widths →
  ∃ fields, mapM (λ column, pretty_field (deref "" (values !! column)) (deref 0 (widths !! column))) (seq 0 (length widths)) = Some fields ∧
    len <$> fields = (λ w, w + 2) <$> widths.
Proof.
  intros Hf. set (f := λ column, pretty_field (deref "" (values !! column)) (deref 0 (widths !! column))).
  assert (∀ column, column ∈ seq 0 (length widths) → ∃ field, f column = Some field ∧ len field = deref 0 (widths !! column) + 2) as Hc.
  { intros column Hin%elem_of_seq. destruct (lookup_lt_is_Some_2 widths column) as [w Hw]; [lia|].
    specialize (Hf column w Hw). unfold f. rewrite Hw. by apply pretty_field_some. }
  rewrite <- (columns_fmap (λ w, w + 2)). clear Hf. induction (seq 0 (length widths)) as [|column l IH]; [by exists []|].
  destruct (Hc column) as (field & Hfield & Hl); [by left|]. destruct IH as (fields & Hfs & Hls); [intros c Hin; apply Hc; by right|].
  exists (field :: fields). cbn [mapM fmap list_fmap]. rewrite Hfield. cbn [mbind option_bind]. rewrite Hfs. split; [done|]. by rewrite Hl, Hls.
Qed.

Lemma pretty_line_some values widths :
  Forall (λ w, 0 <= w) widths → fits values widths → ∃ text, pretty_line values widths = Some text ∧ len text = line_width widths.
Proof.
  intros Hw Hf. unfold pretty_line. destruct (pretty_fields _ _ Hf) as (fields & -> & Hl). cbn -[String.append].
  eexists. split; [done|]. unfold line_width, border. rewrite !len_app.
  rewrite (len_Join _ _ "|" "+" eq_refl (eq_trans Hl (eq_sym (border_fields _ Hw)))). done.
Qed.

(** ** Columns *)

Lemma Split_single s : has_char (Ascii.eqb newline) s = false → Split newline s = [s].
Proof.
  induction s as [|c s IH]; [done|]. intros [Hc Hs]%orb_false_iff. cbn [Split].
  rewrite Ascii.eqb_sym in Hc. rewrite Hc, IH by done. done.
Qed.

Lemma foldl_max_ge l a : a <= foldl Z.max a l.
Proof. revert a. induction l as [|x l IH]; intros a; cbn; [lia|]. specialize (IH (Z.max a x)). lia. Qed.

Lemma foldl_max_in l a x : x ∈ l → x <= foldl Z.max a l.
Proof.
  revert a. induction l as [|y l IH]; intros a Hx; [by apply not_elem_of_nil in Hx|]. cbn.
  apply elem_of_cons in Hx as [->|Hx]; [|by apply IH]. pose proof (foldl_max_ge l (Z.max a y)). lia.
Qed.

Section table.
Context (headers : list string) (rows : list (list string)).

Definition flat_row (row : list string) : Prop := Forall (λ text, has_char (Ascii.eqb newline) text = false) row.

Lemma column_width_header column : len (deref "" (headers !! column)) <= column_width headers rows column.
Proof. apply foldl_max_ge. Qed.

Lemma column_width_cell column row :
  row ∈ rows → flat_row row → len (deref "" (row !! column)) <= column_width headers rows column.
Proof.
  intros Hin Hflat. apply foldl_max_in. apply list_elem_of_bind. exists row. split; [|done].
  unfold line_lengths. rewrite Split_single; [by left|].
  destruct (row !! column) as [text|] eqn:E; [|done]. by eapply Forall_lookup_1 in Hflat.
Qed.

Lemma widths_lookup column w : column_widths headers rows !! column = Some w → w = column_width headers rows column.
Proof. unfold column_widths. rewrite list_lookup_fmap. intros (c & [-> _]%lookup_seq & ->)%fmap_Some. done. Qed.

Lemma widths_nonneg : Forall (λ w, 0 <= w) (column_widths headers rows).
Proof.
  apply Forall_fmap, Forall_forall. intros column _. cbn. pose proof (column_width_header column). unfold len in *. lia.
Qed.

Lemma headers_fit : fits headers (column_widths headers rows).
Proof. intros column w ->%widths_lookup. pose proof (column_width_header column). lia. Qed.

Lemma row_fits row : row ∈ rows → flat_row row → fits row (column_widths headers rows).
Proof. intros Hin Hflat column w ->%widths_lookup. pose proof (column_width_cell column row Hin Hflat). lia. Qed.
End table.

(** ** The printed table *)

(** Every text written is a line of [n] bytes and its line break. *)
Definition lines_of (n : Z) (tr : list cevent) : Prop := Forall (λ text, ∃ l, text = line l ∧ len l = n) (written Stdout tr).

Definition prints_lines (n : Z) (p : cli unit) : Prop := cwp p (λ tr o, o ≠ Panicked ∧ lines_of n tr).

Lemma prints_bind n (p q : cli unit) : prints_lines n p → prints_lines n q → prints_lines n (_ ← p; q).
Proof.
  intros Hp Hq. apply cwp_bind. eapply cwp_mono, Hp. intros tr [u|e|] [Ho Hl]; cbn; [|done..].
  eapply cwp_mono, Hq. intros tr' o [Ho' Hl']. split; [done|]. unfold lines_of, written in *. rewrite omap_app. by apply Forall_app.
Qed.

Lemma prints_println n text : len text = n → prints_lines n (println Stdout text).
Proof. intros Hl [m|]; (split; [done|]); apply Forall_singleton; by exists text. Qed.

Lemma prints_each {A} n (f : A → cli unit) l : Forall (λ x, prints_lines n (f x)) l → prints_lines n (each f l).
Proof. induction 1 as [|x l Hx _ IH]; cbn [each]; [by split; [|constructor]|]. by apply prints_bind. Qed.

(** The cells of a table that is not broken over lines. *)
Definition flat_cells `{GoStd} (headers : list string) (rows : list (list cell)) : Prop := Forall flat_row (text_row headers <$> rows).

(** C38: rendering a table whose cells have no line break does not panic, and
    after the title every line it prints - borders, headers and rows - has the
    same length. *)
Theorem renderPretty_aligned `{GoStd} headers rows title :
  flat_cells headers rows →
  ∃ n, cwp (renderPretty headers rows title) (λ tr o,
    o ≠ Panicked ∧ Forall (λ text, text = line title ∨ ∃ l, text = line l ∧ len l = n) (written Stdout tr)).
Proof.
  intros Hflat. set (textRows := text_row headers <$> rows). set (widths := column_widths headers textRows).
  exists (line_width widths).
  assert (∀ values, fits values widths → prints_lines (line_width widths) (renderPrettyLine values widths)) as Hline.
  { intros values Hf. unfold renderPrettyLine.
    destruct (pretty_line_some values widths (widths_nonneg _ _) Hf) as (text & -> & Hl). by apply prints_println. }
  assert (prints_lines (line_width widths)
            (_ ← println Stdout (border widths); _ ← renderPrettyLine headers widths; _ ← println Stdout (border widths);
             _ ← each (λ row, renderPrettyLine row widths) textRows; println Stdout (border widths))) as Hp.
  { repeat (apply prints_bind; [first [by apply prints_println | apply Hline, headers_fit | idtac]|]); [|by apply prints_println].
    apply prints_each, Forall_forall. intros row Hin. apply Hline, row_fits; [done|]. by eapply Forall_forall in Hflat. }
  unfold prints_lines in Hp. unfold renderPretty. cbv zeta. destruct (title ==s "").
  - refine (cwp_mono _ _ _ _ Hp). intros tr o [Ho Hl]. split; [done|]. eapply Forall_impl; [exact Hl|]. eauto.
  - apply cwp_bind. intros [m|]; cbn [andThen]; [split; [done|]; by apply Forall_singleton; left|].
    refine (cwp_mono _ _ _ _ Hp). intros tr o [Ho Hl]. split; [done|]. constructor; [by left|]. eapply Forall_impl; [exact Hl|]. eauto.
Qed.

Definition sample_headers : list string := ["Member"; "TL"].
Definition sample_rows : list (list cell) := [[CellText "n1"; CellInt 12]; [CellText "standby-2"; CellNil]].

Lemma renderPretty_aligned_witness :
  flat_cells sample_headers sample_rows ∧
  (∃ n, cwp (renderPretty sample_headers sample_rows "") (λ tr o,
    o ≠ Panicked ∧ Forall (λ text, text = line "" ∨ ∃ l, text = line l ∧ len l = n) (written Stdout tr))) ∧
  written Stdout (crun (at_terminal reload_reply []) [] (renderPretty sample_headers sample_rows "")).1 =
    line <$> ["+-----------+----+"; "| Member    | TL |"; "+-----------+----+"; "| n1        | 12 |"; "| standby-2 |    |";
              "+-----------+----+"].
Proof.
  assert (flat_cells sample_headers sample_rows) as Hf by (apply (bool_decide_unpack _); vm_compute; exact I).
  split; [exact Hf|]. split; [|vm_compute; reflexivity]. exact (renderPretty_aligned sample_headers sample_rows "" Hf).
Defined.

(** Two reasons for a pending restart are two lines of one cell. *)
Definition pending_reasons : config :=
  [("max_connections", VMap [("old_value", VString "100"); ("new_value", VString "200")]);
   ("wal_level", VMap [("old_value", VString "replica"); ("new_value", VString "logical")])].

Example renderPretty_panics :
  (crun (at_terminal reload_reply []) []
     (renderPretty ["Member"; "Pending restart reason"] [[CellText "n1"; CellText (pendingReason pending_reasons)]] "")).2 = Panicked.
Proof. by vm_compute. Qed.
