(* ===== verification/CliReadLaws.v ===== *)
(** * The commands that read: they change nothing, and their machine contract *)

From Stdlib Require Import SpecFloat.
From S2P Require Import Prelude GoStrings GoErrors PgTypes GoTime Target Version Values Json Dcs Effects Contract.
From S2P Require Import Select Snapshots Cluster Reads OnlyReads Samples Cli CliRender CliWrite CliEdit CliRead CliActs CliSamples.
From S2P Require Import CliMachine.
From S2P Require Config ConfigProject Inspect.

(** ** Actions *)

(** [query] also sends the caller's SQL. *)
Definition reading (query : bool) (a : action) : Prop :=
  match a with
  | ACall (CQueryChecked _ _ _) => query = true
  | ACall c => is_write c = false
  | _ => True
  end.

Definition is_query (command : read_command) : bool := match command with CmdQuery _ => true | _ => false end.

(** The calls of a program, on every branch. *)
Fixpoint only_calls (P : call → Prop) {A} (p : prog A) : Prop :=
  match p with Ret _ => True | Vis c k => P c ∧ ∀ r, only_calls P (k r) end.

Definition query_or_read (c : call) : Prop := is_write c = false ∨ ∃ a b d, c = CQueryChecked a b d.

Lemma only_calls_bind P {A B} (p : prog A) (f : A → prog B) :
  only_calls P p → (∀ a, only_calls P (f a)) → only_calls P (p ≫= f).
Proof. intros Hp Hf. induction p as [a|c k IH]; cbn; [apply Hf|]. destruct Hp as [Hc Hk]. split; [done|]. intros r. apply IH, Hk. Qed.

Lemma only_reads_calls {A} (p : prog A) : only_reads p → only_calls query_or_read p.
Proof. induction p as [a|c k IH]; cbn; [done|]. intros [Hc Hk]. split; [by left|]. auto. Qed.

Section with_std.
Context `{GoStd, Encoders, CliStd, LocalZone}.

Lemma Query_calls service ctx request : only_calls query_or_read (Query service ctx request).
Proof.
  unfold Query, queryMember.
  repeat match goal with
    | |- only_calls _ (mret _) => exact I
    | |- only_calls _ (do_call (CQueryChecked _ _ _)) => split; [right; eauto|done]
    | |- only_calls _ (operationID ≫= _) => apply only_calls_bind; [apply only_reads_calls, operationID_reads|intros]
    | |- only_calls _ (operationSnapshots _ _ _ _ _ ≫= _) => apply only_calls_bind; [apply only_reads_calls, operationSnapshots_reads|intros]
    | |- only_calls _ (_ ≫= _) => apply only_calls_bind; [|intros]
    | |- only_calls _ (match ?x with _ => _ end) => destruct x
    | |- _ => progress (cbv beta zeta)
    end.
Qed.

Section acting.
Context (P : action → Prop) (HW : ∀ s text, P (AWrite s text)) (HC : ∀ c, is_write c = false → P (ACall c)).
Context (HA : P AClose) (HO : ∀ i, P (AOpen i)) (HT : P ATick) (HI : P AReadAll) (HF : ∀ path, P (AReadFile path)).

#[local] Hint Resolve HW HT HI HF : acts.

Lemma acts_runWatch ticks interval body : acts P body → acts P (runWatch ticks interval body).
Proof using HT. intros Hb. revert interval. induction ticks as [|ticks IH]; intros interval; cbn [runWatch]; acts. Qed.

Lemma acts_finish {T} `{MachineData T} app runtime (r : Result T) kind compatible :
  (∀ d, acts P (compatible d)) → acts P (finish app runtime r kind compatible).
Proof using HW. by apply acts_finishResult. Qed.

Lemma acts_finish_projected {T U} `{MachineData T, MachineData U} app runtime (r : Result T) kind (projected : Result U) compatible :
  (∀ d, acts P (compatible d)) → acts P (finish_projected app runtime r kind projected compatible).
Proof using HW. intros Hc. unfold finish_projected. destruct (machine app); by apply acts_finish. Qed.

Lemma acts_indented source : acts P (indented source).
Proof using HW. unfold indented. acts. Qed.

#[local] Hint Resolve acts_indented : acts.

Lemma acts_watchInterval two seconds : acts P (watchInterval two seconds).
Proof using Type. unfold watchInterval. acts. Qed.

Lemma acts_read_input file : acts P (read_input file).
Proof using HI HF. unfold read_input. acts. Qed.

Lemma acts_querySQL options : acts P (querySQL options).
Proof using HC HI HF. unfold querySQL. repeat acts_step; auto using acts_read_input with acts. Qed.

Lemma acts_reading {A} (p : prog A) : only_reads p → acts P (lift p).
Proof using HC. by apply acts_reads. Qed.

Ltac acts_read :=
  repeat first
    [ progress acts_step | apply acts_with_runtime; [done|done|done|intros ?] | apply acts_runWatch
    | apply acts_finish_projected; intros ? | apply acts_finish; intros ? | apply acts_watchInterval
    | apply acts_reading; solve [auto with reads | unfold Topology, ShowConfig, History, Discover, ListAll, TopologyAll; auto with reads]
    | apply acts_querySQL | apply acts_each; [exact HW|intros ?] ];
  eauto with acts.

Lemma run_read_acts ticks app command args :
  (is_query command = true → (machine app = true ∨ P AReadLine ∧ P AReadPassword) ∧ (∀ a b c, P (ACall (CQueryChecked a b c)))) →
  acts P (run_read ticks app command args).
Proof using HW HC HA HO HT HI HF.
  intros HQ. destruct command; cbn [run_read].
  - unfold runInspectConfig, renderConfigurationInspection. acts_read.
  - unfold runDiscover, renderDiscoveryData. acts_read.
  - unfold runDSN. acts_read.
  - destruct (HQ eq_refl) as [HR HQc]. unfold runQuery, renderQueryData. acts_read.
    + unfold promptPassword. destruct HR as [Hm|[HR HP]]; [by destruct (machine_no_prompt app Hm) as [e ->]|]. acts_read.
    + assert (∀ A (p : prog A), only_calls query_or_read p → acts P (lift p)) as Hl.
      { intros A p. induction p as [v|q k IH]; cbn; [done|]. intros [Hc Hk]. split; [|auto].
        destruct Hc as [Hc|(? & ? & ? & ->)]; auto. }
      apply Hl, Query_calls.
  - unfold runList, no_clusters, finishList. acts_read.
  - unfold runTopology, show_topology, no_clusters, finishTopologies, renderTopologyData. acts_read.
  - unfold runShowConfig. acts_read.
  - unfold runVersion, local_version, renderVersion. acts_read.
  - unfold runHistory, renderHistory. acts_read.
Qed.
End acting.

End with_std.

(** ** Machine mode *)

(** [list] and [topology] print nothing when no cluster is named. *)
Definition listing (command : read_command) : bool := match command with CmdList _ | CmdTopology _ => true | _ => false end.

Definition shown (app : adapter) (command : read_command) `{Encoders} (texts : list string) : Prop :=
  success app texts ∨ listing command = true ∧ texts = [].

Section machine.
Context `{GoStd, Encoders, CliStd, LocalZone} (app : adapter).
Context (Hm : machine app = true) (Henc : ∀ d, is_Some (encode (output app) d)).

Definition succeeding {A} (p : cli A) : Prop := contract app (λ _, success app) p.

Lemma contract_mono {A} (R R' : A → list string → Prop) p :
  (∀ a texts, R a texts → R' a texts) → contract app R p → contract app R' p.
Proof. intros HR. apply cwp_mono. intros tr [a|e|] Ho Hfl; [by apply HR, Ho|exact (Ho Hfl)..]. Qed.

Lemma succeeding_then (p : cli unit) : succeeding p → succeeding (_ ← p; Done tt).
Proof.
  intros Hp. apply cwp_bind. eapply cwp_mono, Hp. intros tr [u|e|] Ho; cbn; [|done..]. by rewrite app_nil_r.
Qed.

Lemma watchInterval_quiet two seconds : quietly app (watchInterval two seconds).
Proof. unfold watchInterval. repeat case_match; solve [by apply contract_exit | by apply quietly_done]. Qed.

Lemma machine_output : (output app !=s "") = true.
Proof using All. unfold machine in Hm. by destruct (orb_prop _ _ Hm) as [->%String.eqb_eq| ->%String.eqb_eq]. Qed.

(** Watching is refused. *)
Lemma no_watch {A} (R : A → list string → Prop) interval message (rest : cli A) :
  message ≠ "" → ((0 <? interval)%Z = false → contract app R rest) →
  contract app R (_ ← check (negb ((output app !=s "") && (0 <? interval)%Z)) (usageError message); rest).
Proof using All.
  intros Hne Hr. rewrite machine_output. destruct (0 <? interval)%Z; cbn [andb negb check]; [by apply contract_exit|by apply Hr].
Qed.

Lemma runWatch_succeeds ticks interval body : (0 <? interval)%Z = false → succeeding body → succeeding (runWatch ticks interval body).
Proof.
  intros Hi Hb. assert ((interval <=? 0)%Z = true) as Hle by (apply Z.leb_le; by apply Z.ltb_ge in Hi).
  destruct ticks; cbn [runWatch]; rewrite Hle; by apply succeeding_then.
Qed.

Lemma finish_projected_succeeds {T U} `{MachineData T, MachineData U} runtime (r : Result T) kind (projected : Result U) compatible :
  registered (T := U) kind → succeeding (finish_projected app runtime r kind projected compatible).
Proof using All. intros Hk. unfold finish_projected. rewrite Hm. by apply finishResult_contract. Qed.

Lemma no_clusters_quiet : quietly app no_clusters.
Proof. apply contract_bind; [by apply quietly_act|]. intros ?. by apply quietly_done. Qed.

Lemma querySQL_quiet options : quietly app (querySQL options).
Proof.
  unfold querySQL. destruct (_ ==s _); [by apply quietly_done|].
  apply contract_bind; [by apply quietly_act|intros ?]. apply contract_bind; [by apply quietly_check|intros ?].
  apply contract_bind; [unfold read_input; case_match; by apply quietly_act|]. intros [data|]; [|by apply contract_exit].
  apply contract_bind; [by apply quietly_act|intros ?]. apply contract_bind; [by apply quietly_check|intros ?]. by apply quietly_done.
Qed.

Lemma promptPassword_quiet label : quietly app (promptPassword app label).
Proof using All. unfold promptPassword. destruct (machine_no_prompt app Hm) as [e ->]. by apply contract_exit. Qed.

#[local] Ltac registered := intros metadata d; split; [apply list_elem_of_In; cbn; tauto|done].

#[local] Ltac reads :=
  repeat (cbv beta zeta; first
    [ apply with_runtime_contract; [done|intros ?]
    | apply no_watch; [done|intros ?]
    | apply runWatch_succeeds; [done|]
    | apply finish_projected_succeeds; registered
    | apply finishResult_contract; [done|done|registered]
    | apply contract_bind; [first [ by apply quietly_check | apply quietly_lift | apply parseRole_quiet | apply watchInterval_quiet
                                  | apply querySQL_quiet ]|intros ?] ]).

Lemma runInspectConfig_succeeds : succeeding (runInspectConfig app).
Proof using All. unfold succeeding, runInspectConfig. reads. Qed.

Lemma runDiscover_succeeds format : succeeding (runDiscover app format).
Proof using All. unfold succeeding, runDiscover. reads. Qed.

Lemma runDSN_succeeds args options : succeeding (runDSN app args options).
Proof using All. unfold succeeding, runDSN. reads. Qed.

Lemma runQuery_succeeds ticks args options : succeeding (runQuery ticks app args options).
Proof using All.
  unfold succeeding, runQuery. reads. apply contract_bind; [|intros connection; reads].
  destruct (qoPassword options); [|by apply quietly_done]. apply contract_bind; [apply promptPassword_quiet|]. intros ?. by apply quietly_done.
Qed.

Lemma runShowConfig_succeeds args group : succeeding (runShowConfig app args group).
Proof using All. unfold succeeding, runShowConfig. reads. Qed.

Lemma runHistory_succeeds args options : succeeding (runHistory app args options).
Proof using All. unfold succeeding, runHistory. reads. Qed.

Lemma runVersion_succeeds args group : succeeding (runVersion app args group).
Proof using All.
  unfold succeeding, runVersion. destruct args as [|scope members]; [|reads].
  unfold local_version. rewrite Hm. set (metadata := mkMetadata _ _ _).
  assert (newMachineSuccessEnvelope "VersionInfo" metadata (to_machine (newMachineVersionInfo app [])) =
          Some (SuccessDocument machineAPIVersion "VersionInfo" metadata (to_machine (newMachineVersionInfo app [])))) as -> by done.
  apply cwp_guard_with, encodeDocument_run; [done|]. intros text [m|] Ht Hfl; [by inversion Hfl|].
  exists "VersionInfo", metadata, (to_machine (newMachineVersionInfo app [])), text. split_and!; [apply list_elem_of_In; cbn; tauto|done|exact Ht].
Qed.

Lemma runList_shown ticks args options : contract app (λ _, shown app (CmdList options)) (runList ticks app args options).
Proof using All.
  unfold runList. reads. destruct (loAll options).
  - apply (contract_mono (λ _, success app)); [by left|]. reads.
  - destruct (cluster_names _ _); [eapply contract_mono; [|apply no_clusters_quiet]; by right|].
    apply (contract_mono (λ _, success app)); [by left|]. reads.
Qed.

Lemma runTopology_shown ticks args options : contract app (λ _, shown app (CmdTopology options)) (runTopology ticks app args options).
Proof using All.
  unfold runTopology. reads. destruct (toAll options).
  - apply (contract_mono (λ _, success app)); [by left|]. reads.
  - destruct (cluster_names _ _) as [|name names]; [eapply contract_mono; [|apply no_clusters_quiet]; by right|].
    rewrite machine_output. match goal with Hi : (0 <? _)%Z = false |- _ => rewrite Hi end. cbn [andb orb].
    destruct names as [|other names]; cbn [length Nat.eqb negb check];
      [|intros _; left; split; [by apply presentable_exit|done]].
    apply contract_bind; [by apply quietly_done|intros _].
    apply (contract_mono (λ _, success app)); [by left|]. apply runWatch_succeeds; [done|]. cbn [each]. apply succeeding_then.
    unfold show_topology, finishTopologies. destruct (_ && _); reads.
Qed.

Lemma run_read_shown ticks command args : contract app (λ _, shown app command) (run_read ticks app command args).
Proof using All.
  destruct command; cbn [run_read]; first [apply runList_shown | apply runTopology_shown | apply (contract_mono (λ _, success app)); [by left|]].
  - apply runInspectConfig_succeeds.
  - apply runDiscover_succeeds.
  - apply runDSN_succeeds.
  - apply runQuery_succeeds.
  - apply runShowConfig_succeeds.
  - apply runVersion_succeeds.
  - apply runHistory_succeeds.
Qed.
End machine.

(** In machine mode a command that reads prints exactly one document, whose
    kind is registered, with the exit status that belongs to it, and reads no
    line and no password - except that [list] and [topology] print nothing and
    end with status 0 when no cluster was named. *)
Theorem execute_read_machine `{GoStd, Encoders, CliStd, LocalZone} ticks app command args :
  machine app = true → (∀ d, is_Some (encode (output app) d)) →
  cwp (execute_read ticks app command args) (λ tr o,
    Forall (λ e, no_input (ce_action e)) tr ∧
    (Forall flawless tr → one_document app tr o ∨ listing command = true ∧ written Stdout tr = [] ∧ o = Returned 0%Z)).
Proof.
  intros Hm Henc. eapply cwp_mono, cwp_and; [|apply acts_cwp, wrapped_no_input, run_read_acts; try done; by split; [left|]|
    apply (wrapped_status app Hm Henc (shown app command)
             (λ tr o, one_document app tr o ∨ listing command = true ∧ written Stdout tr = [] ∧ o = Returned 0%Z));
      [by apply run_read_shown| |by left]].
  - intros tr o [[Hi _] Hd]. by split.
  - intros tr [Hs|[Hl ->]]; [left; by apply success_document|by right].
Qed.

(** The members of the sample cluster, and a role that does not exist. *)
Definition machine_read (command : read_command) : list cevent * result Z :=
  crun (at_terminal reload_reply []) [] (execute_read 0 (sample_app "json") command ["pg"]).

Definition sample_list : read_command := CmdList (mkListOptions 0 false false false "pretty" false float_zero).
Definition wrong_dsn : read_command := CmdDSN (mkDsnOptions "captain" "" 0).

Lemma execute_read_machine_witness :
  written Stdout (machine_read sample_list).1 = [line "ClusterList"] ∧ (machine_read sample_list).2 = Returned 0%Z ∧
  one_document (sample_app "json") (machine_read sample_list).1 (machine_read sample_list).2 ∧
  written Stdout (machine_read wrong_dsn).1 = [line "Error"] ∧ (machine_read wrong_dsn).2 = Returned 2%Z.
Proof.
  split_and!; lazymatch goal with |- one_document _ _ _ => idtac | _ => vm_compute; reflexivity end.
  assert (Forall flawless (machine_read sample_list).1) as Hf by (apply (bool_decide_unpack _); vm_compute; exact I).
  assert (∀ d, is_Some (encode (output (sample_app "json")) d)) as Henc by (intros d; by eexists).
  destruct (cwp_run _ (λ tr o, Forall _ tr ∧ (Forall flawless tr →
                one_document (sample_app "json") tr o ∨ listing sample_list = true ∧ written Stdout tr = [] ∧ o = Returned 0%Z))
              (at_terminal reload_reply []) []
              (execute_read_machine 0 (sample_app "json") sample_list ["pg"] eq_refl Henc))
    as [_ Hd].
  destruct (Hd Hf) as [Hd'|(_ & Hw & _)]; [exact Hd'|]. exfalso. revert Hw. vm_compute. discriminate.
Defined.

(** The same list in human mode. *)
Example list_table :
  written Stdout (crun (at_terminal reload_reply []) [] (execute_read 0 (sample_app "") sample_list ["pg"])).1 =
    line <$> [" Cluster: pg (id) ";
              "+--------+------+---------+---------+----+-------------+-------------+------------+------------+";
              "| Member | Host | Role    | State   | TL | Receive LSN | Receive Lag | Replay LSN | Replay Lag |";
              "+--------+------+---------+---------+----+-------------+-------------+------------+------------+";
              "| n1     |      | Leader  | running |    |             |             |            |            |";
              "| n2     |      | Replica | running |    |             |             |            |            |";
              "+--------+------+---------+---------+----+-------------+-------------+------------+------------+"].
Proof. vm_compute. reflexivity. Qed.
