(* ===== verification/CliCommands.v ===== *)
(** * The command tree: [newRootCommandWithComposition], [read_commands.go],
    [write_commands.go]

    Each command with its use, its positional arguments, its flags and their
    defaults, the options they fill and the handler that runs.  cobra and pflag
    split the words of a command line and parse the text of a flag; a
    [command_line] is what they hand over. *)

From Stdlib Require Import SpecFloat.
From S2P Require Import Prelude GoStrings GoErrors PgTypes GoTime Target Version Values Json Effects Contract.
From S2P Require Import Cli CliRender CliWrite CliEdit CliRead.
From S2P Require Config ConfigProject Runtime.

(** ** Flags *)

(** What pflag parsed from the text of a flag. *)
Inductive flag_value := FlagString (s : string) | FlagInt (n : Z) | FlagBool (b : bool) | FlagFloat (f : spec_float).

(** A flag of the options [O]: [flDefine] stores its default, which is done
    when it is declared; [flSet] stores a value of its own type. *)
Record flag (O : Type) := mkFlag {
  flName : string;
  flShorthand : string;
  flUsage : string;
  flDefine : O → O;
  flSet : flag_value → O → O
}.
#[global] Arguments mkFlag {O}.
#[global] Arguments flName {O}.
#[global] Arguments flShorthand {O}.
#[global] Arguments flDefine {O}.
#[global] Arguments flSet {O}.

Section flags.
Context {O : Type}.

Definition StringVarP (store : string → O → O) (name shorthand default usage : string) : flag O :=
  mkFlag name shorthand usage (store default) (λ v o, match v with FlagString s => store s o | _ => o end).
Definition StringVar (store : string → O → O) (name default usage : string) : flag O := StringVarP store name "" default usage.
Definition IntVar (store : Z → O → O) (name : string) (default : Z) (usage : string) : flag O :=
  mkFlag name "" usage (store default) (λ v o, match v with FlagInt n => store n o | _ => o end).
Definition BoolVarP (store : bool → O → O) (name shorthand : string) (default : bool) (usage : string) : flag O :=
  mkFlag name shorthand usage (store default) (λ v o, match v with FlagBool b => store b o | _ => o end).
Definition BoolVar (store : bool → O → O) (name : string) (default : bool) (usage : string) : flag O :=
  BoolVarP store name "" default usage.
Definition Float64VarP (store : spec_float → O → O) (name shorthand : string) (default : spec_float) (usage : string) : flag O :=
  mkFlag name shorthand usage (store default) (λ v o, match v with FlagFloat f => store f o | _ => o end).

(** The values of a string array are kept in the order they were given. *)
Definition StringArrayVarP (get : O → list string) (store : list string → O → O) (name shorthand usage : string) : flag O :=
  mkFlag name shorthand usage (store []) (λ v o, match v with FlagString s => store (get o ++ [s]) o | _ => o end).

Definition defaults (initial : O) (flags : list (flag O)) : O := foldl (λ o f, flDefine f o) initial flags.

Definition set_flag (flags : list (flag O)) (o : O) (given : string * flag_value) : O :=
  match find_first (λ f, flName f ==s given.1) flags with Some f => flSet f given.2 o | None => o end.

Definition set_flags (flags : list (flag O)) (given : list (string * flag_value)) (o : O) : O := foldl (set_flag flags) o given.

End flags.

(** ** Commands *)

(** The [Args] of a command. *)
Inductive positional := NoArgs | ExactArgs (n : nat) | MinimumNArgs (n : nat) | MaximumNArgs (n : nat) | ArbitraryArgs.

Definition accepts_args (p : positional) (args : list string) : bool :=
  let n := length args in
  match p with
  | NoArgs => (n =? 0)%nat
  | ExactArgs m => (n =? m)%nat
  | MinimumNArgs m => (m <=? n)%nat
  | MaximumNArgs m => (n <=? m)%nat
  | ArbitraryArgs => true
  end.

(** The handler the [RunE] of a command calls. *)
Inductive handler := Reads (command : read_command) | Writes (command : write_command).

Record command := mkCommand {
  coOptions : Type;
  coUse : string;
  coShort : string;
  coArgs : positional;
  coInitial : coOptions;
  coFlags : list (flag coOptions);
  coHandler : coOptions → handler
}.

(** [command.Name()]: the first word of its use. *)
Definition Name (c : command) : string := match Cut " " (coUse c) with Some (name, _) => name | None => coUse c end.

(** ** [read_commands.go] *)

Definition group_flag {O} (store : Z → O → O) : flag O := IntVar store "group" 0 "Citus group".

Definition newInspectConfigCommand : command :=
  mkCommand unit "inspect-config" "Inspect the redacted effective configuration, sources, and current target" NoArgs tt []
    (λ _, Reads CmdInspectConfig).

Definition newDiscoverCommand : command :=
  mkCommand string "discover" "Discover all Patroni clusters in the selected context and namespace" NoArgs "pretty"
    [StringVarP (λ s _, s) "format" "f" "pretty" "Output format (pretty, tsv, json, yaml)"]
    (λ o, Reads (CmdDiscover o)).

Definition newDSNCommand : command :=
  mkCommand dsnOptions "dsn [cluster_name]" "Generate a dsn for the provided member, defaults to a dsn of the leader"
    (MaximumNArgs 1) (mkDsnOptions "" "" 0)
    [StringVarP (λ s o, mkDsnOptions s (doMember o) (doGroup o)) "role" "r" "" "Give a dsn of any member with this role";
     StringVarP (λ s o, mkDsnOptions (doRole o) s (doGroup o)) "member" "m" "" "Generate a dsn for this member";
     group_flag (λ n o, mkDsnOptions (doRole o) (doMember o) n)]
    (λ o, Reads (CmdDSN o)).

Definition query_group (n : Z) (o : queryOptions) : queryOptions :=
  mkQueryOptions n (qoFormat o) (qoFile o) (qoPassword o) (qoUsername o) (qoWatchTwo o) (qoWatch o) (qoRole o) (qoMember o)
    (qoDelimiter o) (qoCommand o) (qoDatabase o).
Definition query_format (s : string) (o : queryOptions) : queryOptions :=
  mkQueryOptions (qoGroup o) s (qoFile o) (qoPassword o) (qoUsername o) (qoWatchTwo o) (qoWatch o) (qoRole o) (qoMember o)
    (qoDelimiter o) (qoCommand o) (qoDatabase o).
Definition query_file (s : string) (o : queryOptions) : queryOptions :=
  mkQueryOptions (qoGroup o) (qoFormat o) s (qoPassword o) (qoUsername o) (qoWatchTwo o) (qoWatch o) (qoRole o) (qoMember o)
    (qoDelimiter o) (qoCommand o) (qoDatabase o).
Definition query_password (b : bool) (o : queryOptions) : queryOptions :=
  mkQueryOptions (qoGroup o) (qoFormat o) (qoFile o) b (qoUsername o) (qoWatchTwo o) (qoWatch o) (qoRole o) (qoMember o)
    (qoDelimiter o) (qoCommand o) (qoDatabase o).
Definition query_username (s : string) (o : queryOptions) : queryOptions :=
  mkQueryOptions (qoGroup o) (qoFormat o) (qoFile o) (qoPassword o) s (qoWatchTwo o) (qoWatch o) (qoRole o) (qoMember o)
    (qoDelimiter o) (qoCommand o) (qoDatabase o).
Definition query_watch_two (b : bool) (o : queryOptions) : queryOptions :=
  mkQueryOptions (qoGroup o) (qoFormat o) (qoFile o) (qoPassword o) (qoUsername o) b (qoWatch o) (qoRole o) (qoMember o)
    (qoDelimiter o) (qoCommand o) (qoDatabase o).
Definition query_watch (f : spec_float) (o : queryOptions) : queryOptions :=
  mkQueryOptions (qoGroup o) (qoFormat o) (qoFile o) (qoPassword o) (qoUsername o) (qoWatchTwo o) f (qoRole o) (qoMember o)
    (qoDelimiter o) (qoCommand o) (qoDatabase o).
Definition query_role (s : string) (o : queryOptions) : queryOptions :=
  mkQueryOptions (qoGroup o) (qoFormat o) (qoFile o) (qoPassword o) (qoUsername o) (qoWatchTwo o) (qoWatch o) s (qoMember o)
    (qoDelimiter o) (qoCommand o) (qoDatabase o).
Definition query_member (s : string) (o : queryOptions) : queryOptions :=
  mkQueryOptions (qoGroup o) (qoFormat o) (qoFile o) (qoPassword o) (qoUsername o) (qoWatchTwo o) (qoWatch o) (qoRole o) s
    (qoDelimiter o) (qoCommand o) (qoDatabase o).
Definition query_delimiter (s : string) (o : queryOptions) : queryOptions :=
  mkQueryOptions (qoGroup o) (qoFormat o) (qoFile o) (qoPassword o) (qoUsername o) (qoWatchTwo o) (qoWatch o) (qoRole o)
    (qoMember o) s (qoCommand o) (qoDatabase o).
Definition query_command (s : string) (o : queryOptions) : queryOptions :=
  mkQueryOptions (qoGroup o) (qoFormat o) (qoFile o) (qoPassword o) (qoUsername o) (qoWatchTwo o) (qoWatch o) (qoRole o)
    (qoMember o) (qoDelimiter o) s (qoDatabase o).
Definition query_database (s : string) (o : queryOptions) : queryOptions :=
  mkQueryOptions (qoGroup o) (qoFormat o) (qoFile o) (qoPassword o) (qoUsername o) (qoWatchTwo o) (qoWatch o) (qoRole o)
    (qoMember o) (qoDelimiter o) (qoCommand o) s.

Definition newQueryCommand : command :=
  mkCommand queryOptions "query [cluster_name]" "Query a Patroni PostgreSQL member" (MaximumNArgs 1)
    (mkQueryOptions 0 "tsv" "" false "" false float_zero "" "" tab "" "")
    [group_flag query_group;
     StringVar query_format "format" "tsv" "Output format (pretty, tsv, json, yaml)";
     StringVarP query_file "file" "f" "" "Execute the SQL commands from this file";
     BoolVar query_password "password" false "Force password prompt";
     StringVarP query_username "username" "U" "" "Database user name";
     BoolVarP query_watch_two "watch-2s" "W" false "Auto update the screen every 2 seconds";
     Float64VarP query_watch "watch" "w" float_zero "Auto update the screen every X seconds";
     StringVarP query_role "role" "r" "" "The role of the query";
     StringVarP query_member "member" "m" "" "Query a specific member";
     StringVar query_delimiter "delimiter" tab "The column delimiter";
     StringVarP query_command "command" "c" "" "The SQL commands to execute";
     StringVarP query_database "dbname" "d" "" "Database name to connect to"]
    (λ o, Reads (CmdQuery o)).

Definition newListCommand : command :=
  mkCommand listOptions "list [cluster_names...]" "List the Patroni members for a given Patroni" ArbitraryArgs
    (mkListOptions 0 false false false "pretty" false float_zero)
    [group_flag (λ n o, mkListOptions n (loAll o) (loExtended o) (loTimestamp o) (loFormat o) (loWatchTwo o) (loWatch o));
     BoolVar (λ b o, mkListOptions (loGroup o) b (loExtended o) (loTimestamp o) (loFormat o) (loWatchTwo o) (loWatch o))
       "all" false "List all clusters discovered in the selected context and namespace";
     BoolVarP (λ b o, mkListOptions (loGroup o) (loAll o) b (loTimestamp o) (loFormat o) (loWatchTwo o) (loWatch o))
       "extended" "e" false "Show some extra information";
     BoolVarP (λ b o, mkListOptions (loGroup o) (loAll o) (loExtended o) b (loFormat o) (loWatchTwo o) (loWatch o))
       "timestamp" "t" false "Print timestamp";
     StringVarP (λ s o, mkListOptions (loGroup o) (loAll o) (loExtended o) (loTimestamp o) s (loWatchTwo o) (loWatch o))
       "format" "f" "pretty" "Output format";
     BoolVarP (λ b o, mkListOptions (loGroup o) (loAll o) (loExtended o) (loTimestamp o) (loFormat o) b (loWatch o))
       "watch-2s" "W" false "Auto update the screen every 2 seconds";
     Float64VarP (λ f o, mkListOptions (loGroup o) (loAll o) (loExtended o) (loTimestamp o) (loFormat o) (loWatchTwo o) f)
       "watch" "w" float_zero "Auto update the screen every X seconds"]
    (λ o, Reads (CmdList o)).

Definition newTopologyCommand : command :=
  mkCommand topologyOptions "topology [cluster_names...]" "Prints ASCII topology for given cluster" ArbitraryArgs
    (mkTopologyOptions 0 false false float_zero)
    [group_flag (λ n o, mkTopologyOptions n (toAll o) (toWatchTwo o) (toWatch o));
     BoolVar (λ b o, mkTopologyOptions (toGroup o) b (toWatchTwo o) (toWatch o))
       "all" false "Show topology for all clusters discovered in the selected context and namespace";
     BoolVarP (λ b o, mkTopologyOptions (toGroup o) (toAll o) b (toWatch o))
       "watch-2s" "W" false "Auto update the screen every 2 seconds";
     Float64VarP (λ f o, mkTopologyOptions (toGroup o) (toAll o) (toWatchTwo o) f)
       "watch" "w" float_zero "Auto update the screen every X seconds"]
    (λ o, Reads (CmdTopology o)).

Definition newShowConfigCommand : command :=
  mkCommand Z "show-config [cluster_name]" "Show cluster configuration" (MaximumNArgs 1) 0%Z [group_flag (λ n _, n)]
    (λ o, Reads (CmdShowConfig o)).

Definition newVersionCommand (application : Application) : command :=
  mkCommand Z "version [cluster_name] [member_names...]"
    ("Output version of " +:+ apName application +:+ " or a running Patroni instance") ArbitraryArgs 0%Z [group_flag (λ n _, n)]
    (λ o, Reads (CmdVersion o)).

Definition newHistoryCommand : command :=
  mkCommand historyOptions "history [cluster_name]" "Show the history of failovers/switchovers" (MaximumNArgs 1)
    (mkHistoryOptions 0 "pretty")
    [group_flag (λ n o, mkHistoryOptions n (hoFormat o));
     StringVarP (λ s o, mkHistoryOptions (hoGroup o) s) "format" "f" "pretty" "Output format"]
    (λ o, Reads (CmdHistory o)).

Definition addReadCommands (application : Application) : list command :=
  [newInspectConfigCommand; newDiscoverCommand; newDSNCommand; newQueryCommand; newListCommand; newTopologyCommand;
   newShowConfigCommand; newVersionCommand application; newHistoryCommand].

(** ** [write_commands.go] *)

Definition force_usage : string := "Do not ask for confirmation at any point".

Definition newRemoveCommand : command :=
  mkCommand removeOptions "remove cluster_name" "Remove cluster from DCS" (ExactArgs 1) (mkRemoveOptions 0 "pretty" "" "" "")
    [group_flag (λ n o, mkRemoveOptions n (rmoFormat o) (rmoConfirmCluster o) (rmoAcknowledgement o) (rmoConfirmLeader o));
     StringVarP (λ s o, mkRemoveOptions (rmoGroup o) s (rmoConfirmCluster o) (rmoAcknowledgement o) (rmoConfirmLeader o))
       "format" "f" "pretty" "Output format";
     StringVar (λ s o, mkRemoveOptions (rmoGroup o) (rmoFormat o) s (rmoAcknowledgement o) (rmoConfirmLeader o))
       "confirm-cluster" "" "Explicitly confirm the exact cluster name without prompting";
     StringVar (λ s o, mkRemoveOptions (rmoGroup o) (rmoFormat o) (rmoConfirmCluster o) s (rmoConfirmLeader o))
       "acknowledge-removal" "" "Explicitly provide the destructive removal acknowledgement without prompting";
     StringVar (λ s o, mkRemoveOptions (rmoGroup o) (rmoFormat o) (rmoConfirmCluster o) (rmoAcknowledgement o) s)
       "confirm-leader" "" "Explicitly confirm the current leader name without prompting"]
    (λ o, Writes (CmdRemove o)).

Definition newReloadCommand : command :=
  mkCommand reloadOptions "reload cluster_name [member_names...]" "Reload cluster member configuration" (MinimumNArgs 1)
    (mkReloadOptions 0 "any" false)
    [group_flag (λ n o, mkReloadOptions n (rloRole o) (rloForce o));
     StringVarP (λ s o, mkReloadOptions (rloGroup o) s (rloForce o)) "role" "r" "any" "Reload only members with this role";
     BoolVar (λ b o, mkReloadOptions (rloGroup o) (rloRole o) b) "force" false force_usage]
    (λ o, Writes (CmdReload o)).

Definition newRestartCommand : command :=
  mkCommand restartOptions "restart cluster_name [member_names...]" "Restart cluster member" (MinimumNArgs 1)
    (mkRestartOptions 0 "any" false "" "" false "" false)
    [group_flag (λ n o, mkRestartOptions n (rsoRole o) (rsoAny o) (rsoScheduled o) (rsoPgVersion o) (rsoPending o) (rsoTimeout o) (rsoForce o));
     StringVarP (λ s o, mkRestartOptions (rsoGroup o) s (rsoAny o) (rsoScheduled o) (rsoPgVersion o) (rsoPending o) (rsoTimeout o) (rsoForce o))
       "role" "r" "any" "Restart only members with this role";
     BoolVar (λ b o, mkRestartOptions (rsoGroup o) (rsoRole o) b (rsoScheduled o) (rsoPgVersion o) (rsoPending o) (rsoTimeout o) (rsoForce o))
       "any" false "Restart a single member only";
     StringVar (λ s o, mkRestartOptions (rsoGroup o) (rsoRole o) (rsoAny o) s (rsoPgVersion o) (rsoPending o) (rsoTimeout o) (rsoForce o))
       "scheduled" "" "Timestamp of a scheduled restart in unambiguous format (e.g. ISO 8601)";
     StringVar (λ s o, mkRestartOptions (rsoGroup o) (rsoRole o) (rsoAny o) (rsoScheduled o) s (rsoPending o) (rsoTimeout o) (rsoForce o))
       "pg-version" "" "Restart if the PostgreSQL version is less than provided (e.g. 9.5.2)";
     BoolVar (λ b o, mkRestartOptions (rsoGroup o) (rsoRole o) (rsoAny o) (rsoScheduled o) (rsoPgVersion o) b (rsoTimeout o) (rsoForce o))
       "pending" false "Restart if pending";
     StringVar (λ s o, mkRestartOptions (rsoGroup o) (rsoRole o) (rsoAny o) (rsoScheduled o) (rsoPgVersion o) (rsoPending o) s (rsoForce o))
       "timeout" "" "Return error and fail over if necessary when restarting takes longer than this.";
     BoolVar (λ b o, mkRestartOptions (rsoGroup o) (rsoRole o) (rsoAny o) (rsoScheduled o) (rsoPgVersion o) (rsoPending o) (rsoTimeout o) b)
       "force" false force_usage]
    (λ o, Writes (CmdRestart o)).

Definition newReinitCommand : command :=
  mkCommand reinitOptions "reinit cluster_name [member_names...]" "Reinitialize cluster member" (MinimumNArgs 1)
    (mkReinitOptions 0 false false false)
    [group_flag (λ n o, mkReinitOptions n (rioForce o) (rioFromLeader o) (rioWait o));
     BoolVar (λ b o, mkReinitOptions (rioGroup o) b (rioFromLeader o) (rioWait o)) "force" false force_usage;
     BoolVar (λ b o, mkReinitOptions (rioGroup o) (rioForce o) b (rioWait o)) "from-leader" false "Get basebackup from leader";
     BoolVar (λ b o, mkReinitOptions (rioGroup o) (rioForce o) (rioFromLeader o) b) "wait" false "Wait until reinitialization completes"]
    (λ o, Writes (CmdReinit o)).

Definition newFailoverCommand : command :=
  mkCommand failoverOptions "failover [cluster_name]" "Failover to a replica" (MaximumNArgs 1) (mkFailoverOptions 0 "" false)
    [group_flag (λ n o, mkFailoverOptions n (foCandidate o) (foForce o));
     StringVar (λ s o, mkFailoverOptions (foGroup o) s (foForce o)) "candidate" "" "The name of the candidate";
     BoolVar (λ b o, mkFailoverOptions (foGroup o) (foCandidate o) b) "force" false force_usage]
    (λ o, Writes (CmdFailover o)).

(** [--leader] and [--primary] fill the same option. *)
Definition switchover_leader (s : string) (o : switchoverOptions) : switchoverOptions :=
  mkSwitchoverOptions (soGroup o) s (soCandidate o) (soScheduled o) (soForce o).

Definition newSwitchoverCommand : command :=
  mkCommand switchoverOptions "switchover [cluster_name]" "Switchover to a replica" (MaximumNArgs 1)
    (mkSwitchoverOptions 0 "" "" "" false)
    [group_flag (λ n o, mkSwitchoverOptions n (soLeader o) (soCandidate o) (soScheduled o) (soForce o));
     StringVar switchover_leader "leader" "" "The name of the current leader";
     StringVar switchover_leader "primary" "" "The name of the current leader";
     StringVar (λ s o, mkSwitchoverOptions (soGroup o) (soLeader o) s (soScheduled o) (soForce o))
       "candidate" "" "The name of the candidate";
     StringVar (λ s o, mkSwitchoverOptions (soGroup o) (soLeader o) (soCandidate o) s (soForce o))
       "scheduled" "" "Timestamp of a scheduled switchover in unambiguous format (e.g. ISO 8601)";
     BoolVar (λ b o, mkSwitchoverOptions (soGroup o) (soLeader o) (soCandidate o) (soScheduled o) b) "force" false force_usage]
    (λ o, Writes (CmdSwitchover o)).

Definition newFlushCommand : command :=
  mkCommand flushOptions "flush cluster_name [member_names...] target" "Discard scheduled events" (MinimumNArgs 2)
    (mkFlushOptions 0 "any" false)
    [group_flag (λ n o, mkFlushOptions n (floRole o) (floForce o));
     StringVarP (λ s o, mkFlushOptions (floGroup o) s (floForce o)) "role" "r" "any" "Flush only members with this role";
     BoolVar (λ b o, mkFlushOptions (floGroup o) (floRole o) b) "force" false force_usage]
    (λ o, Writes (CmdFlush o)).

Definition newPauseCommand (resume : bool) : command :=
  let '(name, short, waitHelp) :=
    if resume then ("resume", "Resume auto failover", "Wait until pause is cleared on all nodes")
    else ("pause", "Disable auto failover", "Wait until pause is applied on all nodes") in
  mkCommand pauseOptions (name +:+ " [cluster_name]") short (MaximumNArgs 1) (mkPauseOptions 0 false)
    [group_flag (λ n o, mkPauseOptions n (poWait o)); BoolVar (λ b o, mkPauseOptions (poGroup o) b) "wait" false waitHelp]
    (λ o, Writes (CmdPause o resume)).

Definition newEditConfigCommand : command :=
  mkCommand editConfigOptions "edit-config [cluster_name]" "Edit cluster configuration" (MaximumNArgs 1)
    (mkEditConfigOptions 0 false [] [] "" "" false)
    [group_flag (λ n o, mkEditConfigOptions n (eoQuiet o) (eoSettings o) (eoPgSettings o) (eoApplyFile o) (eoReplaceFile o) (eoForce o));
     BoolVarP (λ b o, mkEditConfigOptions (eoGroup o) b (eoSettings o) (eoPgSettings o) (eoApplyFile o) (eoReplaceFile o) (eoForce o))
       "quiet" "q" false "Do not show changes";
     StringArrayVarP eoSettings
       (λ l o, mkEditConfigOptions (eoGroup o) (eoQuiet o) l (eoPgSettings o) (eoApplyFile o) (eoReplaceFile o) (eoForce o))
       "set" "s" "Set specific configuration value. Can be specified multiple times";
     StringArrayVarP eoPgSettings
       (λ l o, mkEditConfigOptions (eoGroup o) (eoQuiet o) (eoSettings o) l (eoApplyFile o) (eoReplaceFile o) (eoForce o))
       "pg" "p" "Set specific PostgreSQL parameter value. Can be specified multiple times";
     StringVar (λ s o, mkEditConfigOptions (eoGroup o) (eoQuiet o) (eoSettings o) (eoPgSettings o) s (eoReplaceFile o) (eoForce o))
       "apply" "" "Apply configuration from file. Use - for stdin.";
     StringVar (λ s o, mkEditConfigOptions (eoGroup o) (eoQuiet o) (eoSettings o) (eoPgSettings o) (eoApplyFile o) s (eoForce o))
       "replace" "" "Apply configuration from file, replacing existing configuration. Use - for stdin.";
     BoolVar (λ b o, mkEditConfigOptions (eoGroup o) (eoQuiet o) (eoSettings o) (eoPgSettings o) (eoApplyFile o) (eoReplaceFile o) b)
       "force" false force_usage]
    (λ o, Writes (CmdEditConfig o)).

Definition newDemoteClusterCommand : command :=
  mkCommand demoteClusterOptions "demote-cluster [cluster_name]" "Demote cluster to a standby cluster" (MaximumNArgs 1)
    (mkDemoteOptions false "" 0 "" "")
    [BoolVar (λ b o, mkDemoteOptions b (dmHost o) (dmPort o) (dmRestoreCommand o) (dmPrimarySlotName o)) "force" false force_usage;
     StringVar (λ s o, mkDemoteOptions (dmForce o) s (dmPort o) (dmRestoreCommand o) (dmPrimarySlotName o))
       "host" "" "Address of the remote node";
     IntVar (λ n o, mkDemoteOptions (dmForce o) (dmHost o) n (dmRestoreCommand o) (dmPrimarySlotName o))
       "port" 0 "Port of the remote node";
     StringVar (λ s o, mkDemoteOptions (dmForce o) (dmHost o) (dmPort o) s (dmPrimarySlotName o))
       "restore-command" "" "Command to restore WAL records from the remote primary";
     StringVar (λ s o, mkDemoteOptions (dmForce o) (dmHost o) (dmPort o) (dmRestoreCommand o) s)
       "primary-slot-name" "" "Name of the slot on the remote node to use for replication"]
    (λ o, Writes (CmdDemoteCluster o)).

Definition newPromoteClusterCommand : command :=
  mkCommand promoteClusterOptions "promote-cluster [cluster_name]" "Promote cluster, make it run standalone" (MaximumNArgs 1)
    (mkPromoteOptions false) [BoolVar (λ b _, mkPromoteOptions b) "force" false force_usage]
    (λ o, Writes (CmdPromoteCluster o)).

Definition addWriteCommands : list command :=
  [newRemoveCommand; newReloadCommand; newRestartCommand; newReinitCommand; newFailoverCommand; newSwitchoverCommand;
   newFlushCommand; newPauseCommand false; newPauseCommand true; newEditConfigCommand; newDemoteClusterCommand;
   newPromoteClusterCommand].

(** ** [root.go] *)

(** The environment of the process: the streams and the clock as the commands
    see them, 16 random bytes, and what the embedding application chose. *)
Record boundaries := mkBoundaries {
  bdInteractive : bool;
  bdTerminal : bool;
  bdNow : string;
  bdWallNow : string;
  bdRandom : option (list N);                      (* rand.Read of 16 bytes; none when it fails *)
  bdStamp : string;                                (* time.Now().UTC() as 20060102T150405.000000000 *)
  bdBuild : Runtime.build;
  bdProfile : Application;
  bdLoadPath : string;                             (* environment.Load.Path *)
  bdDefaultConfig : string                         (* defaultConfigPath(), empty when it fails *)
}.

Definition newCLIRequestIDWithPrefix (b : boundaries) (prefix : string) : string :=
  trimmed_or prefix (apRequestIDPrefix (defaultApplication (bdBuild b))) +:+ "-" +:+
  match bdRandom b with
  | Some bytes => String.string_of_list_ascii (bytes ≫= hex_digits 2)
  | None => bdStamp b
  end.

Definition newCLIRequestID (b : boundaries) : string :=
  newCLIRequestIDWithPrefix b (apRequestIDPrefix (defaultApplication (bdBuild b))).

(** [adapter.requestID] of the [newID] of [NewRootCommandWithOptions] *)
Definition requestID (b : boundaries) (application : Application) : string :=
  Runtime.orElse (newCLIRequestIDWithPrefix b (apRequestIDPrefix application)) (newCLIRequestID b).

Definition root_local_flags (defaultConfig : string) : list (flag rootOptions) :=
  [StringVarP (λ s o, mkRootOptions s (roDCSURL o) (roDCSAlias o) (roInsecure o) (roContextName o) (roOutput o) (roAllowUnsupportedRead o))
     "config-file" "c" defaultConfig "Configuration file";
   StringVarP (λ s o, mkRootOptions (roConfigFile o) s (roDCSAlias o) (roInsecure o) (roContextName o) (roOutput o) (roAllowUnsupportedRead o))
     "dcs-url" "d" "" "The DCS connect url";
   StringVar (λ s o, mkRootOptions (roConfigFile o) (roDCSURL o) s (roInsecure o) (roContextName o) (roOutput o) (roAllowUnsupportedRead o))
     "dcs" "" "The DCS connect url";
   BoolVarP (λ b o, mkRootOptions (roConfigFile o) (roDCSURL o) (roDCSAlias o) b (roContextName o) (roOutput o) (roAllowUnsupportedRead o))
     "insecure" "k" false "Allow connections to SSL sites without certs"].

Definition persistent_flags (application : Application) : list (flag rootOptions) :=
  [StringVar (λ s o, mkRootOptions (roConfigFile o) (roDCSURL o) (roDCSAlias o) (roInsecure o) s (roOutput o) (roAllowUnsupportedRead o))
     "context" "" "Select a named Patroni context";
   StringVarP (λ s o, mkRootOptions (roConfigFile o) (roDCSURL o) (roDCSAlias o) (roInsecure o) (roContextName o) s (roAllowUnsupportedRead o))
     "output" "o" "" (apName application +:+ " output envelope: human, json, or yaml");
   BoolVar (λ b o, mkRootOptions (roConfigFile o) (roDCSURL o) (roDCSAlias o) (roInsecure o) (roContextName o) (roOutput o) b)
     "allow-unsupported-read" false "Allow best-effort reads from an unsupported Patroni major version"].

Definition tree (application : Application) : list command := addReadCommands application ++ addWriteCommands.

(** A command line split by cobra, which with [TraverseChildren] parses the
    flags before the name of the command as those of the root: the flags of the
    root, the name of the command, the flags after it, those before one that
    could not be parsed with its error, and the arguments. *)
Record command_line := mkCommandLine {
  clRoot : list (string * flag_value);
  clName : string;
  clFlags : list (string * flag_value);
  clFailure : option string;
  clArgs : list string
}.

Definition root_options (b : boundaries) (application : Application) (line : command_line) : rootOptions :=
  let local := root_local_flags (trimmed_or (bdLoadPath b) (bdDefaultConfig b)) in
  let persistent := persistent_flags application in
  set_flags persistent (clFlags line)
    (set_flags (local ++ persistent) (clRoot line) (defaults (mkRootOptions "" "" "" false "" "" false) (local ++ persistent))).

(** The adapter of [newRootCommandWithComposition], when the flags are set. *)
Definition root_adapter (b : boundaries) (line : command_line) : adapter :=
  let application := normalizeApplication (bdBuild b) (bdProfile b) in
  mkAdapter (root_options b application line)
    (λ name, bool_decide (name ∈ (clRoot line ++ clFlags line).*1))
    (bdInteractive b) (bdTerminal b) application (bdBuild b) (bdNow b) (bdWallNow b) (requestID b application).

Section with_std.
Context `{GoStd, Encoders, CliStd, LocalZone, YamlInput}.

Definition run_handler (ticks : nat) (app : adapter) (h : handler) (args : list string) : cli unit :=
  match h with Reads c => run_read ticks app c args | Writes c => run_write app c args end.

(** The [FlagErrorFunc], the [Args] and the [RunE] of the command. *)
Definition run_command (ticks : nat) (app : adapter) (c : command) (line : command_line) : cli Z :=
  exit_status
    match clFailure line with
    | Some message => renderCommandError app (Name c) [] (usageError message)
    | None =>
        wrapped app (Name c) (accepts_args (coArgs c) (clArgs line)) (clArgs line)
          (run_handler ticks app (coHandler c (set_flags (coFlags c) (clFlags line) (defaults (coInitial c) (coFlags c)))) (clArgs line))
    end.

(** [ExecuteContext] of a line that names a command of the tree. *)
Definition run_line (ticks : nat) (b : boundaries) (line : command_line) : option (cli Z) :=
  let app := root_adapter b line in
  c ← find_first (λ c, Name c ==s clName line) (tree (adApplication app));
  Some (run_command ticks app c line).

End with_std.
