(* ===== verification/CliLines.v ===== *)
(** * Command lines

    What the theorems of [CliConsent], [CliMachine] and [CliReadLaws] say of the
    handlers, of whole command lines: for every command of the tree and every
    flag, also one that cannot be parsed.  The tree can be built: pflag panics
    on a flag or a shorthand that is declared twice. *)

From S2P Require Import Prelude GoStrings GoErrors PgTypes GoTime Target Version Values Json Effects Contract.
From S2P Require Import Cli CliRender CliWrite CliEdit CliRead CliActs Samples CliSamples CliConsent CliMachine CliReadLaws.
From S2P Require Import CliCommands.
From S2P Require Config ConfigProject Runtime.

(** ** The tree *)

Definition shorthands {O} (flags : list (flag O)) : list string := filter (λ s, s ≠ "") (flShorthand <$> flags).

(** The names and shorthands of a command are distinct, also from those that
    cobra declares for help and, on the root, the version. *)
Definition buildable (names shorts : list string) : bool :=
  bool_decide (NoDup names) && bool_decide (NoDup shorts) && forallb (λ s, (String.length s =? 1)%nat) shorts.

Definition command_buildable (application : Application) (c : command) : bool :=
  let persistent := persistent_flags application in
  buildable ((flName <$> coFlags c) ++ (flName <$> persistent) ++ ["help"])
    (shorthands (coFlags c) ++ shorthands persistent ++ ["h"]).

Definition root_buildable (defaultConfig : string) (application : Application) : bool :=
  let flags := root_local_flags defaultConfig ++ persistent_flags application in
  buildable ((flName <$> flags) ++ ["help"; "version"]) (shorthands flags ++ ["h"; "v"]).

Lemma tree_buildable defaultConfig application :
  root_buildable defaultConfig application = true ∧ forallb (command_buildable application) (tree application) = true ∧
  bool_decide (NoDup (Name <$> tree application)) = true.
Proof. by vm_compute. Qed.

(** No flag of a command has the name of one that is local to the root, so
    whether a name was given is one question of the whole line. *)
Lemma flags_disjoint defaultConfig application :
  let root := flName <$> root_local_flags defaultConfig in
  forallb (λ c, forallb (λ f, negb (bool_decide (flName f ∈ root))) (coFlags c)) (tree application) = true.
Proof. by vm_compute. Qed.

(** The tree and the commands of [execute] and [execute_read] agree on names
    and arguments. *)
Definition agrees (c : command) : Prop :=
  ∀ o args, match coHandler c o with
    | Writes w => Name c = command_name w ∧ accepts_args (coArgs c) args = accepts w args
    | Reads r => Name c = read_name r ∧ accepts_args (coArgs c) args = accepts_read r args
    end.

Lemma tree_agrees application : Forall agrees (tree application).
Proof. repeat constructor. Qed.

(** ** Options that keep a property *)

Lemma set_flags_keeps {O} (P : O → Prop) (flags : list (flag O)) given o :
  Forall (λ f, flName f ∈ given.*1 → ∀ v o, P o → P (flSet f v o)) flags → P o → P (set_flags flags given o).
Proof.
  intros Hf. unfold set_flags.
  assert (∀ rest, rest ⊆ given → ∀ o, P o → P (foldl (set_flag flags) o rest)) as Hgo; [|by apply Hgo].
  induction rest as [|g rest IH]; intros Hs o' Ho; [done|]. cbn. apply IH; [set_solver|].
  unfold set_flag. destruct (find_first _ flags) as [f|] eqn:E; [|done].
  apply find_first_Some in E as [Hin Hn]. rewrite Forall_forall in Hf. apply Hf; [done| |done].
  go_bool. rewrite Hn. apply list_elem_of_fmap. exists g. split; [done|]. apply Hs, list_elem_of_here.
Qed.

(** ** Consent *)

(** The flags that answer a question beforehand. *)
Definition confirming : list string := ["force"; "confirm-cluster"; "acknowledge-removal"; "confirm-leader"].

(** The commands that may change a cluster and ask first. *)
Definition asking_names : list string :=
  ["remove"; "reload"; "restart"; "reinit"; "failover"; "switchover"; "flush"; "demote-cluster"; "promote-cluster"].

Definition unconfirmed (given : list (string * flag_value)) : Prop := Forall (λ name, name ∉ given.*1) confirming.

Definition asking_handler (removal : bool) (h : handler) : Prop :=
  match h with Writes w => asking w = true ∧ is_removal w = removal | Reads _ => False end.

Definition given_options (c : command) (given : list (string * flag_value)) : coOptions c :=
  set_flags (coFlags c) given (defaults (coInitial c) (coFlags c)).

(** One command: it does not ask, or asks by default and no flag but the
    confirming ones changes that. *)
Ltac command_asks :=
  match goal with
  | |- context [given_options ?c ?given] =>
      first
        [ intros Hin; apply (bool_decide_pack _) in Hin; vm_compute in Hin; done
        | intros _; apply (set_flags_keeps (λ o, asking_handler (bool_decide (Name c = "remove")) (coHandler c o)));
          [ repeat apply Forall_cons_2; first [ exact (Forall_nil_2 _) | by intros Hin [] o Ho | by intros Hin ]
          | by vm_compute ] ]
  end.

(** Without those flags the options of such a command tell it to ask. *)
Lemma tree_asks application given :
  unconfirmed given →
  Forall (λ c, Name c ∈ asking_names → asking_handler (bool_decide (Name c = "remove")) (coHandler c (given_options c given)))
    (tree application).
Proof.
  intros Hu. unfold unconfirmed, confirming in Hu. rewrite !Forall_cons in Hu. destruct Hu as (Hf & Hc & Ha & Hl & _).
  unfold tree, addReadCommands, addWriteCommands. cbn [app]. rewrite !Forall_cons. split_and!; [..|constructor]; command_asks.
Qed.

(** ** Lines *)

Section lines.
Context `{GoStd, Encoders, CliStd, LocalZone, YamlInput}.

Lemma run_line_command ticks b line p :
  run_line ticks b line = Some p →
  ∃ c, c ∈ tree (adApplication (root_adapter b line)) ∧ Name c = clName line ∧ p = run_command ticks (root_adapter b line) c line.
Proof.
  unfold run_line. destruct (find_first _ _) as [c|] eqn:E; [|done]. intros [= <-].
  apply find_first_Some in E as [Hin Hn]. go_bool. by exists c.
Qed.

(** C34: a line that names a command which may change a cluster and asks first,
    with none of the flags that answer beforehand, sends no request that may
    change the cluster before it has shown the plan and read a yes to its
    question, or, to remove a cluster, the exact acknowledgement - whatever the
    other flags, the output format, the answers of the cluster and the text
    typed. *)
Theorem run_line_asks ticks b line p :
  run_line ticks b line = Some p → clName line ∈ asking_names → unconfirmed (clFlags line) →
  cwp p (λ tr _, asked (bool_decide (clName line = "remove")) tr).
Proof.
  intros (c & Hin & Hn & ->)%run_line_command Hask Hu. unfold run_command. apply asks_exit_status.
  destruct (clFailure line); [apply asks_acts; by apply acts_renderCommandError|].
  unfold wrapped. repeat case_match; try (apply asks_acts; by apply acts_renderCommandError).
  apply asks_on_error; [intros e; by apply acts_renderCommandError|].
  pose proof (tree_asks (adApplication (root_adapter b line)) _ Hu) as Ht. rewrite Forall_forall in Ht.
  specialize (Ht c Hin). rewrite Hn in Ht. specialize (Ht Hask). unfold given_options in Ht.
  destruct (coHandler c _) as [r|w]; [done|]. destruct Ht as [Hw <-]. by apply run_write_asks.
Qed.

End lines.

(** ** Lines of the sample terminal *)

Definition sample_boundaries : boundaries :=
  mkBoundaries true false "now" "now" (Some [15%N; 255%N]) "stamp" (Runtime.mkBuild "0.1.0" "" "" None "go")
    (mkApplication "" "" "" "" None) "" "".

(** [patronictl --output <format> reload <flags> pg] *)
Definition reload_words (format : string) (flags : list (string * flag_value)) : command_line :=
  mkCommandLine [("output", FlagString format)] "reload" flags None ["pg"].

Definition line_run (line : command_line) (typed : list string) : list cevent * result Z :=
  match run_line 0 sample_boundaries line with
  | Some p => crun (at_terminal reload_reply typed) [] p
  | None => ([], Panicked)
  end.

Lemma run_line_asks_witness :
  asked false (line_run (reload_words "" [("role", FlagString "any")]) ["y"]).1 ∧
  filter writes_cluster (line_run (reload_words "" [("role", FlagString "any")]) ["y"]).1 ≠ [] ∧
  filter writes_cluster (line_run (reload_words "" [("role", FlagString "any")]) ["n"]).1 = [] ∧
  lines_read (line_run (reload_words "" [("force", FlagBool true)]) []).1 = 0%nat ∧
  filter writes_cluster (line_run (reload_words "" [("force", FlagBool true)]) []).1 ≠ [].
Proof.
  split; [|by vm_compute].
  apply (cwp_run _ (λ tr _, asked false tr)).
  apply (run_line_asks 0 sample_boundaries (reload_words "" [("role", FlagString "any")]) _ eq_refl).
  - apply (bool_decide_unpack _). vm_compute. exact I.
  - apply (bool_decide_unpack _). vm_compute. exact I.
Defined.


(** The request identifier of the standalone command, and of another program. *)
Example request_ids :
  requestID sample_boundaries (normalizeApplication (bdBuild sample_boundaries) (bdProfile sample_boundaries)) = "patronictl-go-cli-0fff" ∧
  requestID sample_boundaries (normalizeApplication (bdBuild sample_boundaries) (mkApplication "tool" "" "" "" None)) = "tool-cli-0fff".
Proof. by vm_compute. Qed.
