(* ===== verification/MachineSchema.v ===== *)
(** * The schema generator: [tools/machineschema/main.go]

    The tool walks the Go types of the machine documents by reflection and
    writes a JSON schema, a structural contract and one example per kind.  A
    [GoType] is what it sees of a [reflect.Type]; the declarations of the
    program are a class, [GoTypes].  Structs are declared types: the program has
    no struct literal types in its documents. *)

From S2P Require Import Prelude GoStrings GoErrors GoTime Target Values Json Assoc Effects Contract.

(** ** Types, as [reflect] shows them *)

Inductive Basic :=
| Bool | Int | Int8 | Int16 | Int32 | Int64
| Uint | Uint8 | Uint16 | Uint32 | Uint64 | Uintptr
| Float32 | Float64 | Complex64 | Complex128 | String_.

#[export] Instance Basic_eq_dec : EqDecision Basic.
Proof. solve_decision. Defined.

Inductive GoType :=
| TDefined (pkg name : string)          (* a declared type: [PkgPath], [Name] *)
| TBasic (b : Basic)
| TInterface                            (* [any] *)
| TPointer (elem : GoType)
| TSlice (elem : GoType)
| TArray (length : nat) (elem : GoType)
| TMap (key elem : GoType)
| TOther (kind : string).               (* channels, functions: [Kind().String()] *)

#[export] Instance GoType_eq_dec : EqDecision GoType.
Proof. solve_decision. Defined.

(** [reflect.StructField]; the tag is [Tag.Get("json")]. *)
Record StructField := mkStructField {
  sfName : string;
  sfPkgPath : string;      (* empty for an exported field *)
  sfType : GoType;
  sfTag : string
}.

(** What a declared type is: a struct, or another type that is not declared. *)
Inductive TypeDef := DefStruct (fields : list StructField) | DefType (t : GoType).

Class GoTypes := type_table : list ((string * string) * TypeDef).

Definition type_def `{GoTypes} (pkg name : string) : TypeDef :=
  match find_first (λ d, (d.1.1 ==s pkg) && (d.1.2 ==s name)) type_table with
  | Some d => d.2
  | None => DefType (TOther "invalid")
  end.

(** [Kind], with what [Elem], [Key], [Len], [Field] give. *)
Definition under `{GoTypes} (t : GoType) : GoType + list StructField :=
  match t with
  | TDefined pkg name => match type_def pkg name with DefStruct fields => inr fields | DefType t => inl t end
  | _ => inl t
  end.

(** [for dataType.Kind() == reflect.Pointer { dataType = dataType.Elem() }]; no
    declared type of the program is a pointer. *)
Fixpoint strip_pointers (t : GoType) : GoType :=
  match t with TPointer t => strip_pointers t | _ => t end.

Definition PkgPath (t : GoType) : string := match t with TDefined pkg _ => pkg | _ => "" end.

Definition Basic_String (b : Basic) : string :=
  match b with
  | Bool => "bool" | Int => "int" | Int8 => "int8" | Int16 => "int16" | Int32 => "int32" | Int64 => "int64"
  | Uint => "uint" | Uint8 => "uint8" | Uint16 => "uint16" | Uint32 => "uint32" | Uint64 => "uint64"
  | Uintptr => "uintptr" | Float32 => "float32" | Float64 => "float64" | Complex64 => "complex64"
  | Complex128 => "complex128" | String_ => "string"
  end.

Definition Type_Name (t : GoType) : string :=
  match t with TDefined _ name => name | TBasic b => Basic_String b | _ => "" end.

(** [path.Base] *)
Definition path_Base (path : string) : string :=
  if path ==s "" then "."
  else let path := TrimRight slash path in
       let base := match CutLast "/" path with Some (_, base) => base | None => path end in
       if base ==s "" then "/" else base.

(** [Type.String] *)
Fixpoint Type_String (t : GoType) : string :=
  match t with
  | TDefined pkg name => path_Base pkg +:+ "." +:+ name
  | TBasic b => Basic_String b
  | TInterface => "interface {}"
  | TPointer t => "*" +:+ Type_String t
  | TSlice t => "[]" +:+ Type_String t
  | TArray n t => "[" +:+ format_N (N.of_nat n) +:+ "]" +:+ Type_String t
  | TMap k t => "map[" +:+ Type_String k +:+ "]" +:+ Type_String t
  | TOther kind => kind
  end.

(** [time.Time] *)
Definition time_type : GoType := TDefined "time" "Time".

Definition integer_type (b : Basic) : bool :=
  match b with Int | Int8 | Int16 | Int32 | Int64 => true | _ => false end.

Definition unsigned_type (b : Basic) : bool :=
  match b with Uint | Uint8 | Uint16 | Uint32 | Uint64 => true | _ => false end.

Definition float_type (b : Basic) : bool := match b with Float32 | Float64 => true | _ => false end.

(** ** Fields *)

(** [jsonField]: name, [omitEmpty], include. *)
Definition omit_option (option : string) : bool := (option ==s "omitempty") || (option ==s "omitzero").

Definition jsonField (field : StructField) : string * bool * bool :=
  if sfPkgPath field !=s "" then ("", false, false)
  else
    let parts := Split "," (sfTag field) in
    match parts with
    | first :: options =>
        if first ==s "-" then ("", false, false)
        else (if first !=s "" then first else sfName field, existsb omit_option options, true)
    | [] => (sfName field, false, true)
    end.

Definition machine_package : string := "github.com/pgsty/go-patroni/internal/cli".
Definition model_package : string := "github.com/pgsty/go-patroni/model".
Definition control_package : string := "github.com/pgsty/go-patroni/control".
Definition config_package : string := "github.com/pgsty/go-patroni/config".
Definition postgres_package : string := "github.com/pgsty/go-patroni/postgres".

Definition machineAPIVersion : string := "patroni.pgsty.com/v1alpha1".
Definition supported_range : string := ">=3.0.0,<5.0.0".
Definition schemaVersion : string := "patroni.pgsty.com/machine-contract/v1alpha1".
Definition schemaBase : string := "https://patroni.pgsty.com/schema/machine/v1alpha1/".

Definition machineCauses : list string :=
  ["INVALID_INPUT"; "INVALID_CONFIGURATION"; "UNSUPPORTED_PATRONI_VERSION"; "AUTHENTICATION_REJECTED";
   "TLS_CONFIGURATION_OR_VERIFICATION_FAILED"; "TARGET_NOT_FOUND"; "CONCURRENT_STATE_CONFLICT";
   "UPSTREAM_UNREACHABLE"; "OPERATION_REJECTED"; "OUTCOME_UNCONFIRMED"; "INTERNAL_INVARIANT"].

(** A type of this package and name. *)
Definition is_type (pkg name : string) (t : GoType) : bool :=
  match t with TDefined p n => (p ==s pkg) && (n ==s name) | _ => false end.

Definition isRFC3339Field (parent : GoType) (name : string) : bool :=
  let key := PkgPath parent +:+ "." +:+ Type_Name parent +:+ "." +:+ name in
  (key ==s "github.com/pgsty/go-patroni/internal/cli.machineMetadata.observedAt")
  || (key ==s "github.com/pgsty/go-patroni/model.ScheduledRestart.schedule")
  || (key ==s "github.com/pgsty/go-patroni/model.ScheduledSwitchover.at")
  || (key ==s "github.com/pgsty/go-patroni/control.HistoryEntry.timestamp")
  || (key ==s "github.com/pgsty/go-patroni/control.ClusterWriteData.scheduledAt").

(** ** Schemas

    A schema is the [any] the code builds: [true] or a [map[string]any]. *)

Definition strings (l : list string) : value := VList (VString <$> l).

Definition applyFieldSchema (schema : value) (parent : GoType) (name : string) : value :=
  if is_type machine_package "machineMetadata" parent && (name ==s "revision") then
    VMap [("oneOf", VList [VMap [("type", VString "integer")];
                           VMap [("type", VString "string"); ("minLength", VNumber "1")]])]
  else match schema with
  | VMap object =>
      let copy := object in
      let copy := if isRFC3339Field parent name then aset copy "format" (VString "date-time") else copy in
      let copy := if is_type model_package "Target" parent && (name ==s "namespace")
                  then aset copy "pattern" (VString "^/") else copy in
      let copy := if name ==s "httpStatus"
                  then aset (aset copy "minimum" (VNumber "0")) "maximum" (VNumber "599") else copy in
      let copy := if is_type machine_package "machineVersionInfo" parent then
                    if name ==s "supportedPatroni" then aset copy "const" (VString supported_range)
                    else if name ==s "machineSchema" then aset copy "const" (VString machineAPIVersion) else copy
                  else copy in
      let copy := if is_type machine_package "machineError" parent && (name ==s "cause")
                  then aset copy "enum" (strings machineCauses) else copy in
      VMap copy
  | _ => schema
  end.

(** Letters, digits, [_] and [-] stay; outside ASCII an identifier has only
    letters and digits. *)
Definition sanitizeName (v : string) : string :=
  String.string_of_list_ascii
    ((λ c, if is_alnum c || Ascii.eqb c "_" || Ascii.eqb c "-" || byte_le 128 c 255 then c else "_"%char)
     <$> String.list_ascii_of_string v).

(** [schemaGenerator] without [defs], which is threaded. *)
Record schemaGenerator := mkGenerator {
  sgAliases : list ((string * string) * string);
  sgEnums : list ((string * string) * list string)
}.

Definition type_index {A} (m : list ((string * string) * A)) (t : GoType) : option A :=
  match t with
  | TDefined pkg name => snd <$> find_first (λ d, (d.1.1 ==s pkg) && (d.1.2 ==s name)) m
  | _ => None
  end.

Definition definitionName (generator : schemaGenerator) (t : GoType) : string :=
  match type_index (sgAliases generator) t with
  | Some alias => alias
  | None =>
      let pkg := path_Base (PkgPath t) in
      let pkg := if (pkg ==s ".") || (pkg ==s "/") || (pkg ==s "") then "builtin" else pkg in
      sanitizeName (pkg +:+ "_" +:+ Type_Name t)
  end.

(** A step of the generator: [None] when the fuel is out, else its error or its
    result with the definitions so far. *)
Definition defs := list (string * value).
Definition gen (A : Type) : Type := defs → option ((string + A) * defs).

Definition gen_ret {A} (a : A) : gen A := λ d, Some (inr a, d).
Definition gen_fail {A} (message : string) : gen A := λ d, Some (inl message, d).
Definition gen_bind {A B} (f : A → gen B) (p : gen A) : gen B := λ d,
  match p d with
  | None => None
  | Some (inl message, d) => Some (inl message, d)
  | Some (inr a, d) => f a d
  end.

#[export] Instance gen_mret : MRet gen := @gen_ret.
#[export] Instance gen_mbind : MBind gen := @gen_bind.

Definition get_defs : gen defs := λ d, Some (inr d, d).
Definition set_def (name : string) (v : value) : gen () := λ d, Some (inr (), aset d name v).

(** The loop of [structDefinition]: [properties] and [required]. *)
Fixpoint struct_fields (schemaFor : GoType → string → gen value) (parent : GoType) (path : string)
    (fields : list StructField) (properties : list (string * value)) (required : list string)
    : gen (list (string * value) * list string) :=
  match fields with
  | [] => mret (properties, required)
  | field :: fields =>
      let '(name, omitEmpty, include) := jsonField field in
      if negb include then struct_fields schemaFor parent path fields properties required
      else
        fieldSchema ← schemaFor (sfType field) (path +:+ "/" +:+ name);
        let fieldSchema := applyFieldSchema fieldSchema parent name in
        struct_fields schemaFor parent path fields (aset properties name fieldSchema)
          (if (omitEmpty : bool) then required else required ++ [name])
  end.

Definition definition_of (properties : list (string * value)) (required : list string) : value :=
  let required := sort_strings required in
  let definition := [("type", VString "object"); ("additionalProperties", VBool false);
                     ("properties", VMap properties)] in
  VMap (if is_nil (head required) then definition else aset definition "required" (strings required)).

Definition structDefinition (schemaFor : GoType → string → gen value) (t : GoType) (path : string)
    (fields : list StructField) : gen value :=
  r ← struct_fields schemaFor t path fields [] [];
  mret (definition_of r.1 r.2).

(** The kinds of [schemaFor] that have no elements. *)
Definition basic_schema (b : Basic) : option value :=
  let integer := [("type", VString "integer"); ("minimum", VNumber "0")] in
  match b with
  | Bool => Some (VMap [("type", VString "boolean")])
  | String_ => Some (VMap [("type", VString "string")])
  | Uint16 => Some (VMap (aset integer "maximum" (VNumber "65535")))
  | _ =>
      if integer_type b then Some (VMap [("type", VString "integer")])
      else if unsigned_type b then Some (VMap integer)
      else if float_type b then Some (VMap [("type", VString "number")])
      else None
  end.

Section generator.
Context `{GoTypes} (generator : schemaGenerator).

Fixpoint schemaFor (fuel : nat) (t : GoType) (path : string) : gen value :=
  match fuel with
  | O => λ _, None
  | S fuel =>
      let t := strip_pointers t in
      if bool_decide (t = time_type)
      then mret (VMap [("type", VString "string"); ("format", VString "date-time")])
      else match type_index (sgEnums generator) t with
      | Some values => mret (VMap [("type", VString "string"); ("enum", strings values)])
      | None =>
      match under t with
      | inl TInterface => mret (VBool true)
      | inl (TBasic b) =>
          match basic_schema b with
          | Some schema => mret schema
          | None => gen_fail ("unsupported Go kind " +:+ Basic_String b +:+ " for " +:+ Type_String t)
          end
      | inl (TSlice elem) | inl (TArray _ elem) =>
          items ← schemaFor fuel elem (path +:+ "/*");
          mret (VMap [("type", VString "array"); ("items", items)])
      | inl (TMap key elem) =>
          if negb (match under key with inl (TBasic String_) => true | _ => false end)
          then gen_fail ("map " +:+ Type_String t +:+ " has non-string key")
          else
            values ← schemaFor fuel elem (path +:+ "/*");
            mret (VMap [("type", VString "object"); ("additionalProperties", values)])
      | inr fields =>
          let name := definitionName generator t in
          d ← get_defs;
          _ ← (if is_nil (aget d name) then
                 _ ← set_def name (VMap []);
                 definition ← structDefinition (schemaFor fuel) t path fields;
                 set_def name definition
               else mret ());
          mret (VMap [("$ref", VString ("#/$defs/" +:+ name))])
      | inl (TOther kind) => gen_fail ("unsupported Go kind " +:+ kind +:+ " for " +:+ Type_String t)
      | inl (TPointer _) | inl (TDefined _ _) => gen_fail "unreachable"
      end
      end
  end.

Definition sortedKeys {A} (m : list (string * A)) : list string := sort_strings m.*1.

Fixpoint result_branches (fuel : nat) (catalog : list (string * GoType)) (kinds : list string) : gen (list value) :=
  match kinds with
  | [] => mret []
  | kind :: kinds =>
      dataSchema ← (λ d, match schemaFor fuel (deref (TOther "invalid") (aget catalog kind)) "data" d with
                         | Some (inl message, d) => Some (inl ("schema " +:+ kind +:+ ": " +:+ message), d)
                         | r => r
                         end);
      branches ← result_branches fuel catalog kinds;
      mret (VMap [("required", strings ["kind"; "data"]);
                  ("properties", VMap [("kind", VMap [("const", VString kind)]); ("data", dataSchema)])] :: branches)
  end.

Definition resultSchema (fuel : nat) (catalog : list (string * GoType)) (metadataType : GoType) : gen value :=
  let kinds := sortedKeys catalog in
  metadataSchema ← schemaFor fuel metadataType "metadata";
  branches ← result_branches fuel catalog kinds;
  defs ← get_defs;
  mret (VMap [("$schema", VString "https://json-schema.org/draft/2020-12/schema");
              ("$id", VString (schemaBase +:+ "result.schema.json"));
              ("title", VString "Go patronictl v1alpha1 exhaustive success envelope");
              ("type", VString "object");
              ("additionalProperties", VBool false);
              ("required", strings ["apiVersion"; "kind"; "metadata"; "data"]);
              ("properties", VMap [("apiVersion", VMap [("const", VString machineAPIVersion)]);
                                   ("kind", VMap [("enum", strings kinds)]);
                                   ("metadata", metadataSchema);
                                   ("data", VBool true)]);
              ("oneOf", VList branches);
              ("$defs", VMap defs)]).

(** ** The structural contract *)

Record fieldContract := mkFieldContract {
  fcPath : string;
  fcType : string;
  fcRequired : bool;
  fcFormat : string;
  fcConstant : option string;
  fcEnum : list string
}.

Record kindContract := mkKindContract {
  kcKind : string;
  kcDataType : string;
  kcGolden : string;
  kcFields : list fieldContract
}.

Record contractDocument := mkContractDocument {
  cdSchemaVersion : string;
  cdAPIVersion : string;
  cdGeneratedBy : string;
  cdKinds : list kindContract;
  cdEnums : list (string * list string);
  cdExitCodes : list (string * Z)
}.

Definition typeDescription (t : GoType) : string :=
  let t := strip_pointers t in
  if bool_decide (t = time_type) then "string"
  else match under t with
  | inl TInterface => "any"
  | inl (TBasic b) =>
      match b with
      | Bool => "boolean"
      | String_ => "string"
      | _ => if integer_type b || unsigned_type b then "integer"
             else if float_type b then "number" else Basic_String b
      end
  | inr _ => "object"
  | inl (TSlice _) | inl (TArray _ _) => "array"
  | inl (TMap _ _) => "object-map"
  | inl (TOther kind) => kind
  | inl (TPointer _) | inl (TDefined _ _) => "unreachable"
  end.

Definition typeName (t : GoType) : string :=
  let t := strip_pointers t in
  if PkgPath t ==s "" then Type_String t else path_Base (PkgPath t) +:+ "." +:+ Type_Name t.

(** The contract of one field of [flattenFields]. *)
Definition field_contract (t : GoType) (field : StructField) (name path : string) (required : bool) : fieldContract :=
  let base := strip_pointers (sfType field) in
  let type := if is_type machine_package "machineMetadata" t && (name ==s "revision")
              then "integer|string" else typeDescription (sfType field) in
  let enum := deref [] (type_index (sgEnums generator) base) in
  let format := if bool_decide (base = time_type) || isRFC3339Field t name then "date-time" else "" in
  let constant :=
    if is_type machine_package "machineVersionInfo" t then
      if name ==s "supportedPatroni" then Some supported_range
      else if name ==s "machineSchema" then Some machineAPIVersion else None
    else None in
  let enum := if is_type machine_package "machineError" t && (name ==s "cause") then machineCauses else enum in
  mkFieldContract path type required format constant enum.

(** [stack] holds the structs being walked, once per visit. *)
Definition visits (stack : list GoType) (t : GoType) : nat := length (filter (λ u, u = t) stack).

Fixpoint flattenFields (fuel : nat) (prefix : string) (t : GoType) (parentPresent : bool) (stack : list GoType)
    : option (list fieldContract) :=
  match fuel with
  | O => None
  | S fuel =>
      let t := strip_pointers t in
      if bool_decide (t = time_type) || (1 <? visits stack t)%nat then Some []
      else match under t with
      | inr fields =>
          (fix go (fields : list StructField) : option (list fieldContract) :=
             match fields with
             | [] => Some []
             | field :: fields =>
                 let '(name, omitEmpty, include) := jsonField field in
                 if negb include then go fields
                 else
                   let path := prefix +:+ "/" +:+ name in
                   let required := parentPresent && negb omitEmpty in
                   inner ← flattenFields fuel path (sfType field) required (t :: stack);
                   rest ← go fields;
                   Some (field_contract t field name path required :: inner ++ rest)
             end) fields
      | inl (TSlice elem) | inl (TArray _ elem) => flattenFields fuel (prefix +:+ "/*") elem parentPresent stack
      | _ => Some []
      end
  end.

Definition envelopeFields (fuel : nat) (kind payloadName : string) (metadataType payloadType : GoType)
    : option (list fieldContract) :=
  let plain path type constant := mkFieldContract path type true "" constant [] in
  metadata ← flattenFields fuel "/metadata" metadataType true [];
  payload ← flattenFields fuel ("/" +:+ payloadName) payloadType true [];
  Some (sort_by fcPath
    ([plain "/apiVersion" "string" (Some machineAPIVersion); plain "/kind" "string" (Some kind);
      plain "/metadata" "object" None; plain ("/" +:+ payloadName) (typeDescription payloadType) None]
     ++ metadata ++ payload)).

(** [goldenName], for kinds in ASCII. *)
Definition is_upper (c : ascii) : bool := byte_le 65 c 90.
Definition is_lower (c : ascii) : bool := byte_le 97 c 122.
Definition to_lower (c : ascii) : ascii := if is_upper c then byte (nat_of_ascii c + 32) else c.

Fixpoint golden_runes (previous : option ascii) (input : list ascii) : list ascii :=
  match input with
  | [] => []
  | c :: rest =>
      let boundary :=
        match previous with
        | Some p => is_upper c && (is_lower p || match rest with n :: _ => is_lower n | [] => false end)
        | None => false
        end in
      (if boundary then ["-"%char] else []) ++ to_lower c :: golden_runes (Some c) rest
  end.

Definition goldenName (kind : string) : string :=
  String.string_of_list_ascii (golden_runes None (String.list_ascii_of_string kind)) +:+ ".golden.json".

(** ** Example values *)

(** [reflect.Value], for the types the documents are made of. *)
Inductive GoValue :=
| GBool (b : bool)
| GInt (n : Z)                          (* every integer type *)
| GFloat (text : string)                (* a float, by its JSON text *)
| GString (s : string)
| GTime (t : Time)
| GNil                                  (* a nil pointer, interface, slice or map *)
| GPointer (v : GoValue)
| GInterface (v : value)                (* decoded JSON in an [any] *)
| GList (items : list GoValue)          (* a slice that is not nil, an array *)
| GMap (entries : list (string * GoValue))
| GStruct (fields : list GoValue).      (* in the order of the fields *)

(** [reflect.Zero] *)
Fixpoint zero_value (fuel : nat) (t : GoType) : GoValue :=
  match fuel with
  | O => GNil
  | S fuel =>
      if bool_decide (t = time_type) then GTime zero
      else match under t with
      | inl (TBasic b) =>
          match b with
          | Bool => GBool false
          | String_ => GString ""
          | _ => if float_type b then GFloat "0" else GInt 0
          end
      | inr fields => GStruct ((λ f, zero_value fuel (sfType f)) <$> fields)
      | inl (TArray n elem) => GList (replicate n (zero_value fuel elem))
      | _ => GNil
      end
  end.

Definition exampleString (parent : GoType) (name : string) : string :=
  let time := "2026-07-13T12:34:56Z" in
  if isRFC3339Field parent name then time
  else if bool_decide (name ∈ ["observedAt"; "schedule"; "at"; "timestamp"; "scheduledAt"]) then time
  else if name ==s "context" then "default"
  else if name ==s "namespace" then "/service"
  else if name ==s "scope" then "alpha"
  else if bool_decide (name ∈ ["member"; "name"; "leader"; "candidate"; "previousLeader"; "newLeader"; "parent"]) then "node-a"
  else if name ==s "host" then "node-a.example.invalid"
  else if name ==s "supportedPatroni" then supported_range
  else if name ==s "machineSchema" then machineAPIVersion
  else if name ==s "cause" then deref "" (head machineCauses)
  else if name ==s "apiUrl" then "https://node-a.example.invalid:8008"
  else if name ==s "path" then "/patroni"
  else "example".

Definition example_time : Time := mkTime (days_from_civil 2026 7 13 * 86400 + 12 * 3600 + 34 * 60 + 56) 0 0.

(** The example of an enumeration: a send state is accepted, a verification has
    succeeded. *)
Definition example_enum (t : GoType) (first : string) : GoValue :=
  GString (if bool_decide (t = TDefined control_package "SendState") then "ACCEPTED"
           else if bool_decide (t = TDefined control_package "Verification") then "VERIFIED_SUCCEEDED"
           else first).

(** Errors that an example leaves out. *)
Definition nil_example (t : GoType) : bool :=
  is_type control_package "Error" t || is_type control_package "QueryError" t.

Fixpoint exampleValue (fuel : nat) (t : GoType) (fieldName : string) : option (string + GoValue) :=
  match fuel with
  | O => None
  | S fuel =>
      match t with
      | TPointer elem =>
          if nil_example elem then Some (inr GNil)
          else r ← exampleValue fuel elem fieldName;
               Some (match r with inl err => inl err | inr v => inr (GPointer v) end)
      | _ =>
      if bool_decide (t = time_type) then Some (inr (GTime example_time))
      else match type_index (sgEnums generator) t with
      | Some (first :: _) => Some (inr (example_enum t first))
      | _ =>
      match under t with
      | inl TInterface => Some (inr (GInterface (VString "example")))
      | inl (TBasic b) =>
          match b with
          | Bool => Some (inr (GBool false))
          | String_ => Some (inr (GString (exampleString t fieldName)))
          | _ => if integer_type b || unsigned_type b then Some (inr (GInt 1))
                 else if float_type b then Some (inr (GFloat "1"))
                 else Some (inl ("unsupported example type " +:+ Type_String t))
          end
      | inr fields =>
          r ← (fix go (fields : list StructField) : option (string + list GoValue) :=
                 match fields with
                 | [] => Some (inr [])
                 | field :: fields =>
                     let '(name, _, include) := jsonField field in
                     item ← (if (include : bool) then exampleValue fuel (sfType field) name
                             else Some (inr (zero_value fuel (sfType field))));
                     match item with
                     | inl err => Some (inl err)
                     | inr item =>
                         rest ← go fields;
                         Some (match rest with inl err => inl err | inr items => inr (item :: items) end)
                     end
                 end) fields;
          Some (match r with inl err => inl err | inr items => inr (GStruct items) end)
      | inl (TSlice elem) =>
          r ← exampleValue fuel elem fieldName;
          Some (match r with inl err => inl err | inr item => inr (GList [item]) end)
      | inl (TArray n elem) =>
          if (n =? 0)%nat then Some (inr (GList []))
          else r ← exampleValue fuel elem fieldName;
               Some (match r with inl err => inl err | inr item => inr (GList (replicate n item)) end)
      | inl (TMap key elem) =>
          if negb (match under key with inl (TBasic String_) => true | _ => false end)
          then Some (inl ("unsupported example map " +:+ Type_String t))
          else r ← exampleValue fuel elem fieldName;
               Some (match r with inl err => inl err | inr item => inr (GMap [("example", item)]) end)
      | _ => Some (inl ("unsupported example type " +:+ Type_String t))
      end
      end
      end
  end.
End generator.

(** ** Paths: [path/filepath] on Unix *)

(** The elements of a clean path, last first. *)
Fixpoint clean_elements (rooted : bool) (done : list string) (elements : list string) : list string :=
  match elements with
  | [] => done
  | e :: elements =>
      if (e ==s "") || (e ==s ".") then clean_elements rooted done elements
      else if e ==s ".." then
        match done with
        | top :: below => if top ==s ".." then clean_elements rooted (e :: done) elements
                          else clean_elements rooted below elements
        | [] => clean_elements rooted (if rooted then [] else [e]) elements
        end
      else clean_elements rooted (e :: done) elements
  end.

Definition filepath_Clean (path : string) : string :=
  let rooted := HasPrefix path "/" in
  let text := Join (reverse (clean_elements rooted [] (Split "/" path))) "/" in
  if rooted then "/" +:+ text else if text ==s "" then "." else text.

Definition filepath_Join (directory name : string) : string :=
  if directory ==s "" then if name ==s "" then "" else filepath_Clean name
  else if name ==s "" then filepath_Clean directory
  else filepath_Clean (directory +:+ "/" +:+ name).

Definition filepath_Dir (path : string) : string :=
  match CutLast "/" path with Some (directory, _) => filepath_Clean (directory +:+ "/") | None => "." end.

(** ** The contract document *)

(** [string(category)] *)
Definition Category_text (c : Category) : string :=
  match c with
  | CategoryUsage => "USAGE" | CategoryConfig => "CONFIG" | CategoryUnsupported => "UNSUPPORTED"
  | CategoryAuth => "AUTH" | CategoryTLS => "TLS" | CategoryNotFound => "NOT_FOUND"
  | CategoryConflict => "CONFLICT" | CategoryUnreachable => "UNREACHABLE" | CategoryFailed => "FAILED"
  | CategoryUnknown => "UNKNOWN" | CategoryInternal => "INTERNAL" | CategoryRaw s => s
  end.

Section contract.
Context `{GoTypes} (generator : schemaGenerator).

Definition kind_contract (fuel : nat) (kind payloadName golden : string)
    (metadataType payloadType : GoType) : option kindContract :=
  fields ← envelopeFields generator fuel kind payloadName metadataType payloadType;
  Some (mkKindContract kind (typeName payloadType) golden fields).

Fixpoint kind_contracts (fuel : nat) (catalog : list (string * GoType)) (metadataType : GoType)
    (goldenDirectory : string) (kinds : list string) : option (list kindContract) :=
  match kinds with
  | [] => Some []
  | kind :: kinds =>
      first ← kind_contract fuel kind "data" (filepath_Join goldenDirectory (goldenName kind))
                metadataType (deref (TOther "invalid") (aget catalog kind));
      rest ← kind_contracts fuel catalog metadataType goldenDirectory kinds;
      Some (first :: rest)
  end.

Definition exit_codes : list (string * Z) :=
  ("SUCCESS", 0%Z) ::
  ((λ category, (Category_text category, ExitCode category)) <$>
   [CategoryFailed; CategoryUsage; CategoryConfig; CategoryUnsupported; CategoryAuth; CategoryTLS;
    CategoryNotFound; CategoryConflict; CategoryUnreachable; CategoryUnknown; CategoryInternal]).

Definition contract (fuel : nat) (catalog : list (string * GoType)) (metadataType errorType : GoType)
    (goldenDirectory : string) : option contractDocument :=
  kinds ← kind_contracts fuel catalog metadataType goldenDirectory (sortedKeys catalog);
  error ← kind_contract fuel "Error" "error"
            "internal/cli/testdata/machine-runtime-error.golden.json" metadataType errorType;
  Some (mkContractDocument schemaVersion machineAPIVersion "tools/machineschema"
          (sort_by kcKind (kinds ++ [error]))
          (sort_by fst ((λ e, (typeName (TDefined e.1.1 e.1.2), e.2)) <$> sgEnums generator))
          exit_codes).
End contract.

(** ** The tool *)

Record options := mkOptions {
  opDirectory : string;
  opGoldenDir : string;
  opCheck : bool;
  opWriteBaseline : bool;
  opBaselineOutput : string
}.

Record exampleEnvelope := mkExampleEnvelope {
  eeAPIVersion : string;
  eeKind : string;
  eeRequestID : string;      (* exampleMetadata *)
  eeObservedAt : string;
  eeWarnings : list string;
  eeData : GoType * GoValue
}.

(** [encoding/json] on the three kinds of documents. *)
Class Marshalling := {
  marshal_schema : value → option string;
  marshal_contract : contractDocument → option string;
  marshalGolden : exampleEnvelope → option string
}.

(** The files and the directories that exist, by clean path; [denied] paths
    refuse every operation of the process. *)
Record Disk := mkDisk { dkFiles : gmap string string; dkDirs : list string }.

Section tool.
Context `{GoTypes, Marshalling} (denied : string → bool).

Definition is_directory (disk : Disk) (path : string) : bool :=
  let path := filepath_Clean path in
  existsb (λ d, (d ==s path) || HasPrefix d (path +:+ "/")) (dkDirs disk).

(** [os.MkdirAll] makes the parents too: a directory exists when one at or
    below it was made. *)
Definition MkdirAll (directory : string) (disk : Disk) : option goerror * Disk :=
  if denied directory then (Some (EText "mkdir"), disk)
  else (None, mkDisk (dkFiles disk) (filepath_Clean directory :: dkDirs disk)).

Definition WriteFile (name data : string) (disk : Disk) : option goerror * Disk :=
  if denied name then (Some (EText "open"), disk)
  else (None, mkDisk (<[filepath_Clean name := data]> (dkFiles disk)) (dkDirs disk)).

Definition ReadFile (name : string) (disk : Disk) : option string :=
  if denied name then None else dkFiles disk !! filepath_Clean name.

Definition Remove (name : string) (disk : Disk) : option goerror * Disk :=
  if denied name || is_nil (dkFiles disk !! filepath_Clean name) then (Some (EText "remove"), disk)
  else (None, mkDisk (delete (filepath_Clean name) (dkFiles disk)) (dkDirs disk)).

(** [os.ReadDir]: the files of a directory by name; [inl true] when it does not
    exist.  [os.ReadDir] of an empty name fails that way too. *)
Definition ReadDir (directory : string) (disk : Disk) : bool + list string :=
  if directory ==s "" then inl true
  else if denied directory then inl false
  else if negb (is_directory disk directory) then inl true
  else inr (sort_strings (omap (λ file,
              let name := match CutLast "/" file with Some (_, name) => name | None => file end in
              if filepath_Join directory name ==s file then Some name else None)
              (map_to_list (dkFiles disk)).*1)).

Definition writeGenerated (name data : string) (disk : Disk) : option goerror * Disk :=
  match MkdirAll (filepath_Dir name) disk with
  | (Some err, disk) => (Some err, disk)
  | (None, disk) =>
      match WriteFile name data disk with
      | (Some err, disk) => (Some (EWrap ("write " +:+ name) err), disk)
      | (None, disk) => (None, disk)
      end
  end.

Fixpoint write_outputs (outputs : list (string * string)) (disk : Disk) : option goerror * Disk :=
  match outputs with
  | [] => (None, disk)
  | (name, data) :: outputs =>
      match writeGenerated name data disk with
      | (Some err, disk) => (Some err, disk)
      | (None, disk) => write_outputs outputs disk
      end
  end.

Fixpoint check_outputs (names : list string) (outputs : list (string * string)) (disk : Disk) : option goerror :=
  match names with
  | [] => None
  | name :: names =>
      match ReadFile name disk with
      | None => Some (EText ("generated file " +:+ name +:+ " is missing or unreadable"))
      | Some actual =>
          if actual !=s deref "" (aget outputs name)
          then Some (EText ("generated file " +:+ name +:+ " is stale; run make generate"))
          else check_outputs names outputs disk
      end
  end.

Definition checkOutputs (outputs : list (string * string)) (disk : Disk) : option goerror :=
  check_outputs (sortedKeys outputs) outputs disk.

(** The entries of a directory that no output has. *)
Definition stale (directory : string) (outputs : list (string * string)) (entry : string) : bool :=
  HasSuffix entry ".golden.json" && is_nil (aget outputs (filepath_Join directory entry)).

Definition checkGoldenDirectory (directory : string) (outputs : list (string * string)) (disk : Disk) : option goerror :=
  match ReadDir directory disk with
  | inl _ => Some (EText "open")
  | inr entries =>
      match find_first (stale directory outputs) entries with
      | Some entry =>
          Some (EText ("stale generated golden " +:+ filepath_Join directory entry +:+ "; run make generate"))
      | None => None
      end
  end.

Fixpoint remove_entries (directory : string) (entries : list string) (disk : Disk) : option goerror * Disk :=
  match entries with
  | [] => (None, disk)
  | entry :: entries =>
      match Remove (filepath_Join directory entry) disk with
      | (Some err, disk) =>
          (Some (EWrap ("remove stale generated golden " +:+ filepath_Join directory entry) err), disk)
      | (None, disk) => remove_entries directory entries disk
      end
  end.

Definition removeStaleGoldens (directory : string) (outputs : list (string * string)) (disk : Disk)
    : option goerror * Disk :=
  match ReadDir directory disk with
  | inl true => (None, disk)
  | inl false => (Some (EText "open"), disk)
  | inr entries => remove_entries directory (List.filter (stale directory outputs) entries) disk
  end.

(** The examples of [run], in the order of [range catalog]. *)
Fixpoint example_outputs (generator : schemaGenerator) (fuel : nat) (goldenDir : string)
    (catalog : list (string * GoType)) (outputs : list (string * string))
    : option (goerror + list (string * string)) :=
  match catalog with
  | [] => Some (inr outputs)
  | (kind, dataType) :: catalog =>
      data ← exampleValue generator fuel dataType "data";
      match data with
      | inl err => Some (inl (EWrap ("build " +:+ kind +:+ " example") (EText err)))
      | inr data =>
          let document := mkExampleEnvelope machineAPIVersion kind "machine-schema-example"
                            "2026-07-13T12:34:56Z" [] (dataType, data) in
          match marshalGolden document with
          | None => Some (inl (EText ("encode " +:+ kind +:+ " example")))
          | Some encoded =>
              example_outputs generator fuel goldenDir catalog
                (aset outputs (filepath_Join goldenDir (goldenName kind)) encoded)
          end
      end
  end.

(** The documents of [run]: the contract's text and every output. *)
Definition generate (generator : schemaGenerator) (fuel : nat) (catalog : list (string * GoType))
    (metadataType errorType : GoType) (configuration : options)
    : option (goerror + string * list (string * string)) :=
  match catalog with
  | [] => Some (inl (EText "machine schema catalog is empty"))
  | _ =>
  r ← resultSchema generator fuel catalog metadataType [];
  match r.1 with
  | inl err => Some (inl (EText err))
  | inr schema =>
  match marshal_schema schema with
  | None => Some (inl (EText "encode result schema"))
  | Some resultBytes =>
  document ← contract generator fuel catalog metadataType errorType (opGoldenDir configuration);
  match marshal_contract document with
  | None => Some (inl (EText "encode machine contract"))
  | Some contractBytes =>
      let outputs := aset [(filepath_Join (opDirectory configuration) "result.schema.json", resultBytes)]
                       (filepath_Join (opDirectory configuration) "contract.json") contractBytes in
      r ← example_outputs generator fuel (opGoldenDir configuration) catalog outputs;
      Some (match r with inl err => inl err | inr outputs => inr (contractBytes, outputs) end)
  end
  end
  end
  end.

(** [os.Stat(baselineOutput)] finds a file. *)
Definition file_exists (name : string) (disk : Disk) : bool :=
  negb (is_nil (dkFiles disk !! filepath_Clean name)) || is_directory disk name.

Definition write_baseline (configuration : options) (contractBytes : string) (disk : Disk) : option goerror * Disk :=
  let name := opBaselineOutput configuration in
  if negb (opWriteBaseline configuration) then (None, disk)
  else if denied name then (Some (EText "stat"), disk)
  else if file_exists name disk
  then (Some (EText ("refusing to overwrite existing compatibility baseline " +:+ name)), disk)
  else writeGenerated name contractBytes disk.

Definition run_check (configuration : options) (outputs : list (string * string)) (disk : Disk) : option goerror :=
  if opWriteBaseline configuration then Some (EText "-check and -write-baseline are mutually exclusive")
  else match checkOutputs outputs disk with
  | Some err => Some err
  | None => checkGoldenDirectory (opGoldenDir configuration) outputs disk
  end.

Definition run_write (configuration : options) (contractBytes : string) (outputs : list (string * string))
    (disk : Disk) : option goerror * Disk :=
  match write_outputs outputs disk with
  | (Some err, disk) => (Some err, disk)
  | (None, disk) =>
      match removeStaleGoldens (opGoldenDir configuration) outputs disk with
      | (Some err, disk) => (Some err, disk)
      | (None, disk) => write_baseline configuration contractBytes disk
      end
  end.

Definition run (generator : schemaGenerator) (fuel : nat) (catalog : list (string * GoType))
    (metadataType errorType : GoType) (configuration : options) (disk : Disk) : option (option goerror * Disk) :=
  r ← generate generator fuel catalog metadataType errorType configuration;
  Some (match r with
        | inl err => (Some err, disk)
        | inr (contractBytes, outputs) =>
            if opCheck configuration then (run_check configuration outputs disk, disk)
            else run_write configuration contractBytes outputs disk
        end).
End tool.
