(* ===== verification/MachineTypes.v ===== *)
(** * The types of the machine documents

    The declarations [reflect] shows the schema generator: the documents of
    [internal/cli/machine_catalog.go] and every type they are made of, with the
    JSON tags of their fields.  [program_types] is the instance of [GoTypes] for
    this program. *)

From S2P Require Import Prelude GoStrings MachineSchema.

(** An exported field. *)
Definition field (name : string) (t : GoType) (tag : string) : StructField := mkStructField name "" t tag.

(** ** Declarations *)

Definition time_Time_type : TypeDef :=
  DefStruct [mkStructField "wall" "time" (TBasic Uint64) ""; mkStructField "ext" "time" (TBasic Int64) "";
             mkStructField "loc" "time" (TOther "ptr") ""].

Definition control_ConfigEditData_type : TypeDef :=
  DefStruct [field "ChangedPaths" (TSlice (TBasic String_)) "changedPaths";
             field "BeforeRevision" (TBasic Int64) "beforeRevision";
             field "DCSRevision" (TBasic Int64) "dcsRevision,omitempty";
             field "DCSSendState" (TDefined control_package "SendState") "dcsSendState";
             field "Verification" (TDefined control_package "Verification") "verification";
             field "Noop" (TBasic Bool) "noop"].

Definition control_Category_type : TypeDef := DefType (TBasic String_).

Definition control_Error_type : TypeDef :=
  DefStruct [field "Category" (TDefined control_package "Category") "category";
             field "Operation" (TBasic String_) "operation";
             field "Target" (TDefined model_package "Target") "target";
             field "Retryable" (TBasic Bool) "retryable";
             field "Message" (TBasic String_) "message";
             field "Evidence" (TSlice (TDefined control_package "Evidence")) "evidence";
             mkStructField "cause" control_package (TOther "interface") ""].

Definition control_ConfigurationSource_type : TypeDef :=
  DefStruct [field "Field" (TBasic String_) "field";
             field "Layer" (TDefined config_package "Layer") "layer";
             field "Name" (TBasic String_) "name"].

Definition control_NetworkTimeoutInspection_type : TypeDef :=
  DefStruct [field "DNSLookupMilliseconds" (TBasic Int64) "dnsLookupMilliseconds";
             field "DCSDialMilliseconds" (TBasic Int64) "dcsDialMilliseconds";
             field "DCSRequestMilliseconds" (TBasic Int64) "dcsRequestMilliseconds";
             field "PatroniRequestMilliseconds" (TBasic Int64) "patroniRequestMilliseconds";
             field "PostgresQueryMilliseconds" (TBasic Int64) "postgresQueryMilliseconds";
             field "PostgresCloseMilliseconds" (TBasic Int64) "postgresCloseMilliseconds"].

Definition control_ConfigurationInspection_type : TypeDef :=
  DefStruct [field "Target" (TDefined model_package "Target") "target";
             field "Effective" (TMap (TBasic String_) TInterface) "effective";
             field "NetworkTimeouts" (TDefined control_package "NetworkTimeoutInspection") "networkTimeouts";
             field "Sources" (TSlice (TDefined control_package "ConfigurationSource")) "sources";
             field "Warnings" (TSlice (TDefined config_package "Warning")) "warnings"].

Definition control_Role_type : TypeDef := DefType (TBasic String_).

Definition control_DSNData_type : TypeDef :=
  DefStruct [field "Target" (TDefined model_package "Target") "target";
             field "Member" (TBasic String_) "member";
             field "Role" (TDefined control_package "Role") "role";
             field "Host" (TBasic String_) "host";
             field "Port" (TBasic Uint16) "port"].

Definition control_TopologyMember_type : TypeDef :=
  DefStruct [field "Member" (TDefined model_package "Member") "member";
             field "Parent" (TBasic String_) "parent,omitempty";
             field "Depth" (TBasic Int) "depth"].

Definition control_TopologyData_type : TypeDef :=
  DefStruct [field "Cluster" (TDefined model_package "Cluster") "cluster";
             field "Members" (TSlice (TDefined control_package "TopologyMember")) "members"].

Definition control_ConfigData_type : TypeDef :=
  DefStruct [field "Target" (TDefined model_package "Target") "target";
             field "Revision" (TBasic Int64) "revision";
             field "Config" (TMap (TBasic String_) TInterface) "config"].

Definition control_HistoryEntry_type : TypeDef :=
  DefStruct [field "Timeline" (TBasic Int64) "timeline";
             field "LSN" (TBasic Int64) "lsn";
             field "Reason" (TBasic String_) "reason";
             field "Timestamp" (TBasic String_) "timestamp,omitempty";
             field "NewLeader" (TBasic String_) "newLeader,omitempty"].

Definition control_HistoryData_type : TypeDef :=
  DefStruct [field "Target" (TDefined model_package "Target") "target";
             field "Entries" (TSlice (TDefined control_package "HistoryEntry")) "entries"].

Definition control_QueryErrorKind_type : TypeDef := DefType (TBasic String_).

Definition control_QueryError_type : TypeDef :=
  DefStruct [field "Kind" (TDefined control_package "QueryErrorKind") "kind";
             field "SQLState" (TBasic String_) "sqlState,omitempty";
             field "Message" (TBasic String_) "message"].

Definition control_QueryData_type : TypeDef :=
  DefStruct [field "Target" (TDefined model_package "Target") "target";
             field "Member" (TBasic String_) "member,omitempty";
             field "Result" (TDefined postgres_package "QueryResult") "result";
             field "Error" (TPointer (TDefined control_package "QueryError")) "error,omitempty"].

Definition control_RemoveData_type : TypeDef :=
  DefStruct [field "ExpectedKeys" (TBasic Int) "expectedKeys";
             field "Deleted" (TBasic Int64) "deleted";
             field "RemainingKeys" (TSlice (TBasic String_)) "remainingKeys,omitempty";
             field "DCSSendState" (TDefined control_package "SendState") "dcsSendState";
             field "Verification" (TDefined control_package "Verification") "verification";
             field "DCSRevision" (TBasic Int64) "dcsRevision,omitempty";
             field "Noop" (TBasic Bool) "noop"].

Definition control_Outcome_type : TypeDef := DefType (TBasic String_).

Definition control_SendState_type : TypeDef := DefType (TBasic String_).

Definition control_Verification_type : TypeDef := DefType (TBasic String_).

Definition control_EvidenceSource_type : TypeDef := DefType (TBasic String_).

Definition control_Evidence_type : TypeDef :=
  DefStruct [field "Source" (TDefined control_package "EvidenceSource") "source";
             field "ObservedAt" (time_type) "observedAt";
             field "Summary" (TBasic String_) "summary";
             field "Revision" (TBasic String_) "revision,omitempty";
             field "Path" (TBasic String_) "path,omitempty";
             field "SendState" (TDefined control_package "SendState") "sendState,omitempty"].

Definition control_ClusterRoleData_type : TypeDef :=
  DefStruct [field "PreviousLeader" (TBasic String_) "previousLeader";
             field "Leader" (TBasic String_) "leader,omitempty";
             field "DesiredRole" (TBasic String_) "desiredRole";
             field "RESTSendState" (TDefined control_package "SendState") "restSendState";
             field "Verification" (TDefined control_package "Verification") "verification";
             field "HTTPStatus" (TBasic Int) "httpStatus,omitempty";
             field "DCSRevision" (TBasic Int64) "dcsRevision,omitempty";
             field "PendingConditions" (TSlice (TBasic String_)) "pendingConditions,omitempty";
             field "Noop" (TBasic Bool) "noop"].

Definition control_FlushEvent_type : TypeDef := DefType (TBasic String_).

Definition control_MemberWriteResult_type : TypeDef :=
  DefStruct [field "Target" (TDefined model_package "Target") "target";
             field "Outcome" (TDefined control_package "Outcome") "outcome";
             field "SendState" (TDefined control_package "SendState") "sendState";
             field "Verification" (TDefined control_package "Verification") "verification";
             field "HTTPStatus" (TBasic Int) "httpStatus,omitempty";
             field "Summary" (TBasic String_) "summary";
             field "Evidence" (TSlice (TDefined control_package "Evidence")) "evidence";
             field "Error" (TPointer (TDefined control_package "Error")) "error,omitempty"].

Definition control_BatchWriteData_type : TypeDef :=
  DefStruct [field "Members" (TSlice (TDefined control_package "MemberWriteResult")) "members"].

Definition control_FlushData_type : TypeDef :=
  DefStruct [field "Event" (TDefined control_package "FlushEvent") "event";
             field "Results" (TSlice (TDefined control_package "MemberWriteResult")) "results,omitempty";
             field "RESTSendState" (TDefined control_package "SendState") "restSendState";
             field "DCSSendState" (TDefined control_package "SendState") "dcsSendState,omitempty";
             field "Verification" (TDefined control_package "Verification") "verification";
             field "DCSRevision" (TBasic Int64) "dcsRevision,omitempty";
             field "Noop" (TBasic Bool) "noop"].

Definition control_PauseData_type : TypeDef :=
  DefStruct [field "Paused" (TBasic Bool) "paused";
             field "Wait" (TBasic Bool) "wait";
             field "Results" (TSlice (TDefined control_package "MemberWriteResult")) "results,omitempty";
             field "RESTSendState" (TDefined control_package "SendState") "restSendState";
             field "Verification" (TDefined control_package "Verification") "verification";
             field "DCSRevision" (TBasic Int64) "dcsRevision,omitempty";
             field "PendingMembers" (TSlice (TBasic String_)) "pendingMembers,omitempty";
             field "Noop" (TBasic Bool) "noop"].

Definition control_ClusterWriteData_type : TypeDef :=
  DefStruct [field "Leader" (TBasic String_) "leader,omitempty";
             field "Candidate" (TBasic String_) "candidate,omitempty";
             field "ScheduledAt" (TBasic String_) "scheduledAt,omitempty";
             field "RESTSendState" (TDefined control_package "SendState") "restSendState";
             field "DCSSendState" (TDefined control_package "SendState") "dcsSendState,omitempty";
             field "Verification" (TDefined control_package "Verification") "verification";
             field "HTTPStatus" (TBasic Int) "httpStatus,omitempty";
             field "DCSRevision" (TBasic Int64) "dcsRevision,omitempty";
             field "LegacyEndpoint" (TBasic Bool) "legacyEndpoint"].

Definition model_MemberRole_type : TypeDef := DefType (TBasic String_).

Definition model_ScheduledRestart_type : TypeDef :=
  DefStruct [field "Schedule" (TBasic String_) "schedule";
             field "PostgresVersion" (TBasic String_) "postgresVersion,omitempty"].

Definition model_Member_type : TypeDef :=
  DefStruct [field "Target" (TDefined model_package "Target") "target";
             field "Name" (TBasic String_) "name";
             field "APIURL" (TBasic String_) "apiUrl,omitempty";
             field "Host" (TBasic String_) "host,omitempty";
             field "Port" (TBasic Uint16) "port,omitempty";
             field "Role" (TDefined model_package "MemberRole") "role";
             field "State" (TBasic String_) "state,omitempty";
             field "Timeline" (TPointer (TBasic Int)) "timeline,omitempty";
             field "ReceiveLSN" (TBasic String_) "receiveLsn,omitempty";
             field "ReceiveLagBytes" (TBasic Int64) "receiveLagBytes,omitempty";
             field "ReplayLSN" (TBasic String_) "replayLsn,omitempty";
             field "ReplayLagBytes" (TBasic Int64) "replayLagBytes,omitempty";
             field "PendingRestart" (TBasic Bool) "pendingRestart,omitempty";
             field "PendingRestartReason" (TMap (TBasic String_) TInterface) "pendingRestartReason,omitempty";
             field "ScheduledRestart" (TPointer (TDefined model_package "ScheduledRestart"))
                 "scheduledRestart,omitempty";
             field "Tags" (TMap (TBasic String_) TInterface) "tags,omitempty";
             field "PatroniVersion" (TBasic String_) "patroniVersion,omitempty"].

Definition model_ScheduledSwitchover_type : TypeDef :=
  DefStruct [field "At" (TBasic String_) "at";
             field "From" (TBasic String_) "from,omitempty";
             field "To" (TBasic String_) "to,omitempty"].

Definition model_Cluster_type : TypeDef :=
  DefStruct [field "Target" (TDefined model_package "Target") "target";
             field "DiscoveryState" (TDefined model_package "DiscoveryState") "discoveryState";
             field "ManagementState" (TDefined model_package "ManagementState") "managementState";
             field "ReachabilityState" (TDefined model_package "ReachabilityState") "reachabilityState";
             field "HealthState" (TDefined model_package "HealthState") "healthState";
             field "Revision" (TBasic Int64) "revision";
             field "Initialize" (TBasic String_) "initialize,omitempty";
             field "Leader" (TBasic String_) "leader,omitempty";
             field "Paused" (TBasic Bool) "paused";
             field "ScheduledSwitchover" (TPointer (TDefined model_package "ScheduledSwitchover"))
                 "scheduledSwitchover,omitempty";
             field "Members" (TSlice (TDefined model_package "Member")) "members"].

Definition model_DiscoveryState_type : TypeDef := DefType (TBasic String_).

Definition model_ManagementState_type : TypeDef := DefType (TBasic String_).

Definition model_ReachabilityState_type : TypeDef := DefType (TBasic String_).

Definition model_HealthState_type : TypeDef := DefType (TBasic String_).

Definition model_Target_type : TypeDef :=
  DefStruct [field "Context" (TBasic String_) "context";
             field "Namespace" (TBasic String_) "namespace";
             field "Scope" (TBasic String_) "scope";
             field "Group" (TPointer (TBasic Int)) "group,omitempty";
             field "Member" (TBasic String_) "member,omitempty"].

Definition machineClusterList_type : TypeDef :=
  DefStruct [field "Clusters" (TSlice (TDefined machine_package "machineCluster")) "clusters"].

Definition machineCluster_type : TypeDef :=
  DefStruct [field "Target" (TDefined model_package "Target") "target";
             field "DiscoveryState" (TDefined model_package "DiscoveryState") "discoveryState";
             field "ManagementState" (TDefined model_package "ManagementState") "managementState";
             field "ReachabilityState" (TDefined model_package "ReachabilityState") "reachabilityState";
             field "HealthState" (TDefined model_package "HealthState") "healthState";
             field "Revision" (TBasic Int64) "revision";
             field "Initialize" (TBasic String_) "initialize,omitempty";
             field "Leader" (TBasic String_) "leader,omitempty";
             field "Paused" (TBasic Bool) "paused";
             field "ScheduledSwitchover" (TPointer (TDefined model_package "ScheduledSwitchover"))
                 "scheduledSwitchover,omitempty";
             field "Members" (TSlice (TDefined model_package "Member")) "members"].

Definition machineDiscovery_type : TypeDef :=
  DefStruct [field "Clusters" (TSlice (TDefined machine_package "machineClusterSummary")) "clusters"].

Definition machineClusterSummary_type : TypeDef :=
  DefStruct [field "Target" (TDefined model_package "Target") "target";
             field "DiscoveryState" (TDefined model_package "DiscoveryState") "discoveryState";
             field "ManagementState" (TDefined model_package "ManagementState") "managementState";
             field "ReachabilityState" (TDefined model_package "ReachabilityState") "reachabilityState";
             field "HealthState" (TDefined model_package "HealthState") "healthState";
             field "Revision" (TBasic Int64) "revision";
             field "MemberCount" (TBasic Int) "memberCount";
             field "Leader" (TBasic String_) "leader,omitempty"].

Definition machineTopologyList_type : TypeDef :=
  DefStruct [field "Topologies" (TSlice (TDefined machine_package "machineTopology")) "topologies"].

Definition machineTopology_type : TypeDef :=
  DefStruct [field "Cluster" (TDefined machine_package "machineCluster") "cluster";
             field "Members" (TSlice (TDefined machine_package "machineTopologyMember")) "members"].

Definition machineTopologyMember_type : TypeDef :=
  DefStruct [field "Member" (TDefined model_package "Member") "member";
             field "Parent" (TBasic String_) "parent,omitempty";
             field "Depth" (TBasic Int) "depth"].

Definition machineVersionInfo_type : TypeDef :=
  DefStruct [field "Version" (TBasic String_) "version";
             field "Commit" (TBasic String_) "commit";
             field "BuildTime" (TBasic String_) "buildTime";
             field "GoVersion" (TBasic String_) "goVersion";
             field "SupportedPatroni" (TBasic String_) "supportedPatroni";
             field "MachineSchema" (TBasic String_) "machineSchema";
             field "Application" (TPointer (TDefined machine_package "machineApplicationInfo"))
                 "application,omitempty";
             field "Members" (TSlice (TDefined machine_package "machineMemberVersion")) "members"].

Definition machineApplicationInfo_type : TypeDef :=
  DefStruct [field "Name" (TBasic String_) "name";
             field "Version" (TBasic String_) "version";
             field "Commit" (TBasic String_) "commit";
             field "BuildTime" (TBasic String_) "buildTime";
             field "GoVersion" (TBasic String_) "goVersion";
             field "SupportedPatroni" (TBasic String_) "supportedPatroni"].

Definition machineMemberVersion_type : TypeDef :=
  DefStruct [field "Target" (TDefined model_package "Target") "target";
             field "PatroniVersion" (TBasic String_) "patroniVersion,omitempty";
             field "PostgresVersion" (TBasic String_) "postgresVersion,omitempty";
             field "HTTPStatus" (TBasic Int) "httpStatus,omitempty";
             field "Error" (TPointer (TDefined machine_package "machineError")) "error,omitempty"].

Definition machineMetadata_type : TypeDef :=
  DefStruct [field "RequestID" (TBasic String_) "requestId";
             field "ObservedAt" (TBasic String_) "observedAt";
             field "Revision" (TInterface) "revision,omitempty";
             field "Warnings" (TSlice (TBasic String_)) "warnings"].

Definition machineError_type : TypeDef :=
  DefStruct [field "Category" (TDefined control_package "Category") "category";
             field "Operation" (TBasic String_) "operation";
             field "Target" (TDefined model_package "Target") "target";
             field "Retryable" (TBasic Bool) "retryable";
             field "Cause" (TBasic String_) "cause";
             field "Message" (TBasic String_) "message";
             field "Evidence" (TSlice (TDefined control_package "Evidence")) "evidence";
             field "NextActions" (TSlice (TBasic String_)) "nextActions"].

Definition config_Layer_type : TypeDef := DefType (TBasic String_).

Definition config_WarningCode_type : TypeDef := DefType (TBasic String_).

Definition config_Warning_type : TypeDef :=
  DefStruct [field "Code" (TDefined config_package "WarningCode") "code";
             field "Field" (TBasic String_) "field";
             field "Message" (TBasic String_) "message"].

Definition postgres_Column_type : TypeDef :=
  DefStruct [field "Name" (TBasic String_) "name";
             field "TableOID" (TBasic Uint32) "tableOID";
             field "TableAttributeNumber" (TBasic Uint16) "tableAttributeNumber";
             field "DataTypeOID" (TBasic Uint32) "dataTypeOID";
             field "DataTypeSize" (TBasic Int16) "dataTypeSize";
             field "TypeModifier" (TBasic Int32) "typeModifier";
             field "Format" (TBasic Int16) "format"].

Definition postgres_Cell_type : TypeDef :=
  DefStruct [field "Null" (TBasic Bool) "null";
             field "Text" (TBasic String_) "text,omitempty";
             field "Bytes" (TBasic Int64) "bytes"].

Definition postgres_Row_type : TypeDef := DefType (TSlice (TDefined postgres_package "Cell")).

Definition postgres_ResultSummary_type : TypeDef :=
  DefStruct [field "Index" (TBasic Int) "index";
             field "Columns" (TSlice (TDefined postgres_package "Column")) "columns";
             field "CommandTag" (TBasic String_) "commandTag";
             field "RowsAffected" (TBasic Int64) "rowsAffected";
             field "ObservedRows" (TBasic Int64) "observedRows";
             field "EmittedRows" (TBasic Int64) "emittedRows";
             field "ObservedBytes" (TBasic Int64) "observedBytes";
             field "EmittedBytes" (TBasic Int64) "emittedBytes";
             field "Truncated" (TBasic Bool) "truncated"].

Definition postgres_Summary_type : TypeDef :=
  DefStruct [field "Results" (TSlice (TDefined postgres_package "ResultSummary")) "results";
             field "ObservedRows" (TBasic Int64) "observedRows";
             field "EmittedRows" (TBasic Int64) "emittedRows";
             field "ObservedBytes" (TBasic Int64) "observedBytes";
             field "EmittedBytes" (TBasic Int64) "emittedBytes";
             field "Truncated" (TBasic Bool) "truncated"].

Definition postgres_ResultSet_type : TypeDef :=
  DefStruct [field "Index" (TBasic Int) "index";
             field "Columns" (TSlice (TDefined postgres_package "Column")) "columns";
             field "Rows" (TSlice (TDefined postgres_package "Row")) "rows";
             field "CommandTag" (TBasic String_) "commandTag";
             field "RowsAffected" (TBasic Int64) "rowsAffected";
             field "Truncated" (TBasic Bool) "truncated"].

Definition postgres_QueryResult_type : TypeDef :=
  DefStruct [field "Sets" (TSlice (TDefined postgres_package "ResultSet")) "sets";
             field "Summary" (TDefined postgres_package "Summary") "summary"].

(** ** The program *)

Definition program_types : GoTypes :=
  [((control_package, "ConfigEditData"), control_ConfigEditData_type);
   ((control_package, "Category"), control_Category_type);
   ((control_package, "Error"), control_Error_type);
   ((control_package, "ConfigurationSource"), control_ConfigurationSource_type);
   ((control_package, "NetworkTimeoutInspection"), control_NetworkTimeoutInspection_type);
   ((control_package, "ConfigurationInspection"), control_ConfigurationInspection_type);
   ((control_package, "Role"), control_Role_type);
   ((control_package, "DSNData"), control_DSNData_type);
   ((control_package, "TopologyMember"), control_TopologyMember_type);
   ((control_package, "TopologyData"), control_TopologyData_type);
   ((control_package, "ConfigData"), control_ConfigData_type);
   ((control_package, "HistoryEntry"), control_HistoryEntry_type);
   ((control_package, "HistoryData"), control_HistoryData_type);
   ((control_package, "QueryErrorKind"), control_QueryErrorKind_type);
   ((control_package, "QueryError"), control_QueryError_type);
   ((control_package, "QueryData"), control_QueryData_type);
   ((control_package, "RemoveData"), control_RemoveData_type);
   ((control_package, "Outcome"), control_Outcome_type);
   ((control_package, "SendState"), control_SendState_type);
   ((control_package, "Verification"), control_Verification_type);
   ((control_package, "EvidenceSource"), control_EvidenceSource_type);
   ((control_package, "Evidence"), control_Evidence_type);
   ((control_package, "ClusterRoleData"), control_ClusterRoleData_type);
   ((control_package, "FlushEvent"), control_FlushEvent_type);
   ((control_package, "MemberWriteResult"), control_MemberWriteResult_type);
   ((control_package, "BatchWriteData"), control_BatchWriteData_type);
   ((control_package, "FlushData"), control_FlushData_type);
   ((control_package, "PauseData"), control_PauseData_type);
   ((control_package, "ClusterWriteData"), control_ClusterWriteData_type);
   ((model_package, "MemberRole"), model_MemberRole_type);
   ((model_package, "ScheduledRestart"), model_ScheduledRestart_type);
   ((model_package, "Member"), model_Member_type);
   ((model_package, "ScheduledSwitchover"), model_ScheduledSwitchover_type);
   ((model_package, "Cluster"), model_Cluster_type);
   ((model_package, "DiscoveryState"), model_DiscoveryState_type);
   ((model_package, "ManagementState"), model_ManagementState_type);
   ((model_package, "ReachabilityState"), model_ReachabilityState_type);
   ((model_package, "HealthState"), model_HealthState_type);
   ((model_package, "Target"), model_Target_type);
   ((machine_package, "machineClusterList"), machineClusterList_type);
   ((machine_package, "machineCluster"), machineCluster_type);
   ((machine_package, "machineDiscovery"), machineDiscovery_type);
   ((machine_package, "machineClusterSummary"), machineClusterSummary_type);
   ((machine_package, "machineTopologyList"), machineTopologyList_type);
   ((machine_package, "machineTopology"), machineTopology_type);
   ((machine_package, "machineTopologyMember"), machineTopologyMember_type);
   ((machine_package, "machineVersionInfo"), machineVersionInfo_type);
   ((machine_package, "machineApplicationInfo"), machineApplicationInfo_type);
   ((machine_package, "machineMemberVersion"), machineMemberVersion_type);
   ((machine_package, "machineMetadata"), machineMetadata_type);
   ((machine_package, "machineError"), machineError_type);
   ((config_package, "Layer"), config_Layer_type);
   ((config_package, "WarningCode"), config_WarningCode_type);
   ((config_package, "Warning"), config_Warning_type);
   ((postgres_package, "Column"), postgres_Column_type);
   ((postgres_package, "Cell"), postgres_Cell_type);
   ((postgres_package, "Row"), postgres_Row_type);
   ((postgres_package, "ResultSummary"), postgres_ResultSummary_type);
   ((postgres_package, "Summary"), postgres_Summary_type);
   ((postgres_package, "ResultSet"), postgres_ResultSet_type);
   ((postgres_package, "QueryResult"), postgres_QueryResult_type);
   (("time", "Time"), time_Time_type)].

Definition enumValues : list ((string * string) * list string) :=
  [((config_package, "Layer"), ["default"; "file"; "context"; "environment"; "flag"]);
   ((config_package, "WarningCode"), ["SCHEMELESS_DCS_URL"; "INSECURE_REST_TLS"]);
   ((control_package, "Category"), ["USAGE"; "CONFIG"; "UNSUPPORTED"; "AUTH"; "TLS"; "NOT_FOUND"; "CONFLICT";
       "UNREACHABLE"; "FAILED"; "UNKNOWN"; "INTERNAL"]);
   ((control_package, "Outcome"), ["SUCCEEDED"; "FAILED"; "UNKNOWN"]);
   ((control_package, "SendState"), ["NOT_SENT"; "MAYBE_SENT"; "ACCEPTED"]);
   ((control_package, "Verification"), ["UNVERIFIED"; "VERIFIED_SUCCEEDED"; "VERIFIED_FAILED"]);
   ((control_package, "EvidenceSource"), ["LOCAL"; "DCS"; "PATRONI"; "POSTGRES"; "CONTROL"]);
   ((control_package, "Path"), ["local"; "dcs"; "rest"; "postgres"; "rest->dcs"]);
   ((control_package, "Role"), ["leader"; "primary"; "standby-leader"; "replica"; "standby"; "any"]);
   ((control_package, "FlushEvent"), ["restart"; "switchover"]);
   ((control_package, "QueryErrorKind"), ["NO_CONNECTION"; "DATABASE"; "ROLE_MISMATCH"]);
   ((model_package, "MemberRole"), ["leader"; "standby_leader"; "sync_standby"; "quorum_standby"; "replica"]);
   ((model_package, "DiscoveryState"), ["DISCOVERED"; "CONFIGURED_ONLY"; "ABSENT"]);
   ((model_package, "ManagementState"), ["EXPLICIT"; "ALL_SELECTED"; "UNMANAGED"]);
   ((model_package, "ReachabilityState"), ["REACHABLE"; "PARTIALLY_REACHABLE"; "UNREACHABLE"; "UNKNOWN"]);
   ((model_package, "HealthState"), ["HEALTHY"; "DEGRADED"; "UNHEALTHY"; "UNKNOWN"])].

Definition MachineSchemaCatalog : list (string * GoType) :=
  [("DSN", TDefined control_package "DSNData");
   ("QueryResult", TDefined control_package "QueryData");
   ("EffectiveConfiguration", TDefined control_package "ConfigurationInspection");
   ("ClusterDiscovery", TDefined machine_package "machineDiscovery");
   ("ClusterList", TDefined machine_package "machineClusterList");
   ("ClusterTopologyList", TDefined machine_package "machineTopologyList");
   ("ClusterTopology", TDefined control_package "TopologyData");
   ("DynamicConfig", TDefined control_package "ConfigData");
   ("VersionInfo", TDefined machine_package "machineVersionInfo");
   ("ClusterHistory", TDefined control_package "HistoryData");
   ("RemoveResult", TDefined control_package "RemoveData");
   ("ReloadResult", TDefined control_package "BatchWriteData");
   ("RestartResult", TDefined control_package "BatchWriteData");
   ("ReinitializeResult", TDefined control_package "BatchWriteData");
   ("FailoverResult", TDefined control_package "ClusterWriteData");
   ("SwitchoverResult", TDefined control_package "ClusterWriteData");
   ("FlushResult", TDefined control_package "FlushData");
   ("PauseResult", TDefined control_package "PauseData");
   ("ResumeResult", TDefined control_package "PauseData");
   ("ConfigEditResult", TDefined control_package "ConfigEditData");
   ("DemoteClusterResult", TDefined control_package "ClusterRoleData");
   ("PromoteClusterResult", TDefined control_package "ClusterRoleData")].

(** [MachineSchemaEnvelopeTypes] *)
Definition metadataType : GoType := TDefined machine_package "machineMetadata".
Definition errorType : GoType := TDefined machine_package "machineError".

(** The generator of [run]. *)
Definition generator : schemaGenerator :=
  mkGenerator [((machine_package, "machineMetadata"), "metadata")] enumValues.
