(* ===== verification/SchemaLaws.v ===== *)
(** * What the generated schema accepts

    [encode] is [encoding/json] on the values of the documents, [validate] the
    JSON Schema keywords the generator uses.  The generated schema accepts every
    success document whose values fit their types ([fits]); the generated
    examples fit; and what the tool writes passes its own check. *)

From S2P Require Import Prelude GoStrings GoErrors GoTime Target Values Json Assoc Effects Contract Samples Select Reads.
From S2P Require ReadsLaws.
From S2P Require Import MachineSchema MachineTypes.

(** ** [encoding/json] by reflection *)

(** [isEmptyValue] *)
Definition is_empty (v : GoValue) : bool :=
  match v with
  | GBool b => negb b
  | GInt n => (n =? 0)%Z
  | GFloat text => (text ==s "0") || (text ==s "-0")
  | GString s => s ==s ""
  | GNil | GList [] | GMap [] => true
  | _ => false
  end.

Section encoding.
Context `{GoTypes} (generator : schemaGenerator).

(** [Elem] of a slice, an array or a map. *)
Definition elem_type (t : GoType) : GoType :=
  match under t with
  | inl (TSlice elem) | inl (TArray _ elem) | inl (TMap _ elem) => elem
  | _ => TOther "invalid"
  end.

Definition fields_of (t : GoType) : list StructField := match under t with inr fields => fields | _ => [] end.

(** Recursion over the fields of a struct and their values. *)
Definition all_fields (p : StructField → GoValue → bool) : list StructField → list GoValue → bool :=
  fix go fields values {struct values} :=
    match values, fields with
    | v :: values, field :: fields => p field v && go fields values
    | [], [] => true
    | _, _ => false
    end.

Definition encode_fields (skip : StructField → GoValue → bool) (enc : StructField → GoValue → value)
    : list StructField → list GoValue → list (string * value) :=
  fix go fields values {struct values} :=
    match values, fields with
    | v :: values, field :: fields =>
        let '(name, _, include) := jsonField field in
        (if negb include || skip field v then [] else [(name, enc field v)]) ++ go fields values
    | _, _ => []
    end.

(** [reflect.Value.IsZero]: of lists only an array can be zero. *)
Fixpoint is_zero (t : GoType) (v : GoValue) : bool :=
  match v with
  | GBool b => negb b
  | GInt n => (n =? 0)%Z
  | GFloat text => text ==s "0"
  | GString s => s ==s ""
  | GTime t => IsZero t
  | GNil => true
  | GList items => match under t with inl (TArray _ elem) => forallb (is_zero elem) items | _ => false end
  | GStruct values => all_fields (λ field v, is_zero (sfType field) v) (fields_of t) values
  | GPointer _ | GInterface _ | GMap _ => false
  end.

Definition omitted (field : StructField) (v : GoValue) : bool :=
  let options := tail (Split "," (sfTag field)) in
  (existsb (String.eqb "omitempty") options && is_empty v)
  || (existsb (String.eqb "omitzero") options && is_zero (sfType field) v).

(** The document of a value, a struct in the order of its fields. *)
Fixpoint encode (t : GoType) (v : GoValue) : value :=
  match v with
  | GNil => VNull
  | GBool b => VBool b
  | GInt n => VNumber (FormatInt n)
  | GFloat text => VNumber text
  | GString s => VString s
  | GTime t => VString (FormatRFC3339Nano t)
  | GInterface v => v
  | GPointer v => encode (match t with TPointer elem => elem | _ => t end) v
  | GList items => VList (List.map (encode (elem_type t)) items)
  | GMap entries => VMap (List.map (λ kv, (kv.1, encode (elem_type t) kv.2)) entries)
  | GStruct values => VMap (encode_fields omitted (λ field v, encode (sfType field) v) (fields_of t) values)
  end.

(** ** Values that fit their type

    A value of the type, in which nothing is nil but an interface or a field
    that is left out, an enumeration has one of its values, and the fields with
    a rule of their own keep it. *)

(** A JSON number without fraction and exponent. *)
Definition json_integer (text : string) : option Z :=
  match text with
  | String "-" digits => option_map (λ n, (- Z.of_N n)%Z) (parse_digits digits)
  | _ => option_map Z.of_N (parse_digits text)
  end.

(** The rules [applyFieldSchema] writes into a schema. *)
Definition field_rule (parent : GoType) (name : string) (document : value) : bool :=
  if is_type machine_package "machineMetadata" parent && (name ==s "revision") then
    match document with
    | VNumber text => negb (is_nil (json_integer text))
    | VString s => s !=s ""
    | _ => false
    end
  else
    (negb (is_type model_package "Target" parent && (name ==s "namespace"))
     || match document with VString s => HasPrefix s "/" | _ => true end)
    && (negb (name ==s "httpStatus")
        || match document with
           | VNumber text => match json_integer text with Some n => (0 <=? n)%Z && (n <=? 599)%Z | None => false end
           | _ => true
           end)
    && (negb (is_type machine_package "machineVersionInfo" parent)
        || ((negb (name ==s "supportedPatroni") || match document with VString s => s ==s supported_range | _ => false end)
            && (negb (name ==s "machineSchema") || match document with VString s => s ==s machineAPIVersion | _ => false end)))
    && (negb (is_type machine_package "machineError" parent && (name ==s "cause"))
        || match document with VString s => existsb (String.eqb s) machineCauses | _ => false end).

Definition in_range (lo hi n : Z) : bool := ((lo <=? n) && (n <=? hi))%Z.

Definition fits_basic (b : Basic) (v : GoValue) : bool :=
  match b, v with
  | Bool, GBool _ | String_, GString _ => true
  | (Int | Int64), GInt n => in_range (- 2 ^ 63) (2 ^ 63 - 1) n
  | Int8, GInt n => in_range (- 2 ^ 7) (2 ^ 7 - 1) n
  | Int16, GInt n => in_range (- 2 ^ 15) (2 ^ 15 - 1) n
  | Int32, GInt n => in_range (- 2 ^ 31) (2 ^ 31 - 1) n
  | (Uint | Uint64), GInt n => in_range 0 (2 ^ 64 - 1) n
  | Uint8, GInt n => in_range 0 (2 ^ 8 - 1) n
  | Uint16, GInt n => in_range 0 (2 ^ 16 - 1) n
  | Uint32, GInt n => in_range 0 (2 ^ 32 - 1) n
  | (Float32 | Float64), GFloat text => isValidNumber text
  | _, _ => false
  end.

(** A field of [parent]: left out, or its value [fit]s its type and its rule. *)
Definition field_fits (fit : bool) (parent : GoType) (field : StructField) (v : GoValue) : bool :=
  let '(name, _, include) := jsonField field in
  negb include || omitted field v || (fit && field_rule parent name (encode (sfType field) v)).

Fixpoint fits (t : GoType) (v : GoValue) : bool :=
  match t, v with
  | TPointer elem, GPointer v => fits elem v
  | TPointer _, _ | _, GPointer _ => false
  | _, _ =>
      if bool_decide (t = time_type) then match v with GTime _ => true | _ => false end
      else match type_index (sgEnums generator) t with
      | Some values => match v with GString s => existsb (String.eqb s) values | _ => false end
      | None =>
      match under t, v with
      | inl TInterface, (GInterface _ | GNil) => true
      | inl (TBasic b), _ => fits_basic b v
      | inl (TSlice elem), GList items => forallb (fits elem) items
      | inl (TArray n elem), GList items => (length items =? n)%nat && forallb (fits elem) items
      | inl (TMap key elem), GMap entries => forallb (λ kv, fits elem kv.2) entries
      | inr fields, GStruct values => all_fields (λ field v, field_fits (fits (sfType field) v) t field v) fields values
      | _, _ => false
      end
      end
  end.
End encoding.

(** ** JSON Schema: the keywords the generator uses

    [validate defs fuel schema instance]: whether the schema accepts the
    instance; [None] when the fuel is out or a keyword is used in a way that the
    generator does not. *)

(** All of them hold: one that fails is enough to fail. *)
Definition all3 (l : list (option bool)) : option bool :=
  if existsb (λ o, bool_decide (o = Some false)) l then Some false
  else if existsb is_nil l then None else Some true.

Definition one_of (l : list (option bool)) : option bool :=
  if existsb is_nil l then None
  else Some (length (List.filter (λ o, bool_decide (o = Some true)) l) =? 1)%nat.

(** Equality with a text. *)
Definition same_text (expected instance : value) : option bool :=
  match expected, instance with
  | VString s, VString s' => Some (s' ==s s)
  | VString _, _ => Some false
  | _, _ => None
  end.

Definition has_json_type (type : string) (instance : value) : option bool :=
  match instance with
  | VNull => Some (type ==s "null")
  | VBool _ => Some (type ==s "boolean")
  | VNumber text =>
      if type ==s "number" then Some true
      else if type ==s "integer" then if is_nil (json_integer text) then None else Some true
      else Some false
  | VFloat _ => None
  | VString _ => Some (type ==s "string")
  | VList _ => Some (type ==s "array")
  | VMap _ => Some (type ==s "object")
  end.

Definition compare_number (le : Z → Z → bool) (bound instance : value) : option bool :=
  match bound, instance with
  | VNumber b, VNumber n => b ← json_integer b; n ← json_integer n; Some (le b n)
  | VNumber _, _ => Some true
  | _, _ => None
  end.

Definition text_of (v : value) : string := match v with VString s => s | _ => "" end.

Section validation.
Variable defs : list (string * value).

(** One keyword of a schema with the keywords [siblings]. *)
Definition keyword (rec : value → value → option bool) (siblings : list (string * value)) (name : string)
    (arg instance : value) : option bool :=
  if name ==s "$ref" then
    match arg with
    | VString r => if HasPrefix r "#/$defs/" then
                     schema ← aget defs (TrimPrefix r "#/$defs/"); rec schema instance
                   else None
    | _ => None
    end
  else if name ==s "type" then match arg with VString type => has_json_type type instance | _ => None end
  else if name ==s "enum" then
    match arg with
    | VList values =>
        let same := (λ v, same_text v instance) <$> values in
        if existsb is_nil same then None else Some (existsb (λ o, bool_decide (o = Some true)) same)
    | _ => None
    end
  else if name ==s "const" then same_text arg instance
  else if name ==s "minimum" then compare_number (λ b n, (b <=? n)%Z) arg instance
  else if name ==s "maximum" then compare_number (λ b n, (n <=? b)%Z) arg instance
  else if name ==s "minLength" then
    match arg, instance with
    | VNumber b, VString s => b ← json_integer b; Some (b <=? Z.of_nat (length (string_runes s)))%Z
    | VNumber _, _ => Some true
    | _, _ => None
    end
  else if name ==s "pattern" then
    match arg, instance with
    | VString p, VString s => if p ==s "^/" then Some (HasPrefix s "/") else None
    | VString _, _ => Some true
    | _, _ => None
    end
  else if name ==s "properties" then
    match arg, instance with
    | VMap properties, VMap fields =>
        all3 (omap (λ p, rec p.2 <$> aget fields p.1) properties)
    | VMap _, _ => Some true
    | _, _ => None
    end
  else if name ==s "required" then
    match arg, instance with
    | VList names, VMap fields => Some (forallb (λ n, negb (is_nil (aget fields (text_of n)))) names)
    | VList _, _ => Some true
    | _, _ => None
    end
  else if name ==s "additionalProperties" then
    match instance with
    | VMap fields =>
        let known := match aget siblings "properties" with Some (VMap properties) => properties.*1 | _ => [] end in
        all3 ((λ f, if bool_decide (f.1 ∈ known) then Some true else rec arg f.2) <$> fields)
    | _ => Some true
    end
  else if name ==s "items" then
    match instance with VList items => all3 (rec arg <$> items) | _ => Some true end
  else if name ==s "oneOf" then
    match arg with VList schemas => one_of ((λ schema, rec schema instance) <$> schemas) | _ => None end
  else Some true.    (* "format" and the annotations *)

Fixpoint validate (fuel : nat) (schema instance : value) : option bool :=
  match fuel with
  | O => None
  | S fuel =>
      match schema with
      | VBool b => Some b
      | VMap keywords => all3 ((λ kw, keyword (validate fuel) keywords kw.1 kw.2 instance) <$> keywords)
      | _ => None
      end
  end.

(** With enough fuel, the schema accepts the instance; or refuses it. *)
Definition decides (verdict : bool) (schema instance : value) : Prop :=
  ∃ n, ∀ m, (n ≤ m)%nat → validate m schema instance = Some verdict.
End validation.

Definition accepts (defs : list (string * value)) : value → value → Prop := decides defs true.

(** A whole document against a schema with its [$defs]. *)
Definition definitions (schema : value) : list (string * value) :=
  match schema with
  | VMap keywords => match aget keywords "$defs" with Some (VMap defs) => defs | _ => [] end
  | _ => []
  end.

Definition document_accepted (schema document : value) : Prop := accepts (definitions schema) schema document.

(** The success envelope, [successEnvelope] of [internal/cli/render.go]. *)
Definition envelope `{GoTypes} (kind : string) (metadata : GoType * GoValue) (data : GoType * GoValue) : value :=
  VMap [("apiVersion", VString machineAPIVersion); ("kind", VString kind);
        ("metadata", encode metadata.1 metadata.2); ("data", encode data.1 data.2)].

(** ** Lemmas: what is accepted *)

(** What holds from some fuel on, for each of finitely many. *)
Lemma eventually_Forall {A} (P : nat → A → Prop) l :
  Forall (λ x, ∃ n, ∀ m, (n ≤ m)%nat → P m x) l → ∃ n, ∀ m, (n ≤ m)%nat → Forall (P m) l.
Proof.
  induction 1 as [|x l (n & Hn) _ (k & Hk)]; [by exists 0%nat|].
  exists (n `max` k)%nat. intros m Hm. constructor; [apply Hn|apply Hk]; lia.
Qed.

Lemma all3_true l : Forall (λ o, o = Some true) l → all3 l = Some true.
Proof.
  intros Hl. unfold all3. assert (∀ p, p (Some true) = false → existsb p l = false) as Hno.
  { intros p Hp. induction Hl as [|o l -> _ IH]; [done|]. cbn. by rewrite Hp. }
  by rewrite !Hno.
Qed.

Lemma all3_true_inv l : all3 l = Some true → Forall (λ o, o = Some true) l.
Proof.
  unfold all3. destruct (existsb _ l) eqn:Ef; [done|]. destruct (existsb is_nil l) eqn:En; [done|]. intros _.
  apply Forall_forall. intros o Ho. destruct o as [[]|]; [done|exfalso|exfalso].
  - assert (existsb (λ o, bool_decide (o = Some false)) l = true); [|congruence].
    apply List.existsb_exists. eexists. split; [by apply list_elem_of_In|done].
  - assert (existsb (@is_nil bool) l = true); [|congruence].
    apply List.existsb_exists. eexists. split; [by apply list_elem_of_In|done].
Qed.

Lemma all3_false l : Some false ∈ l → all3 l = Some false.
Proof.
  intros Hl. unfold all3. replace (existsb _ l) with true; [done|]. symmetry.
  apply List.existsb_exists. eexists. split; [by apply list_elem_of_In|done].
Qed.

Section accepted.
Context (D : list (string * value)).

(** A keyword that holds of [x] whatever the others are. *)
Definition holds (siblings : list (string * value)) (k : string) (a x : value) : Prop :=
  ∃ n, ∀ m, (n ≤ m)%nat → keyword D (validate D m) siblings k a x = Some true.

Lemma accepts_true x : accepts D (VBool true) x.
Proof. exists 1%nat. intros [|m] Hm; [lia|done]. Qed.

Lemma accepts_map kws x : Forall (λ kw, holds kws kw.1 kw.2 x) kws → accepts D (VMap kws) x.
Proof.
  intros H. apply eventually_Forall in H as (n & Hn). exists (S n). intros [|m] Hm; [lia|]. cbn [validate].
  apply all3_true, Forall_fmap. apply (Hn m). lia.
Qed.

Lemma accepts_map_inv kws x : accepts D (VMap kws) x → Forall (λ kw, holds kws kw.1 kw.2 x) kws.
Proof.
  intros (n & Hn). apply Forall_forall. intros kw Hkw. exists n. intros m Hm.
  specialize (Hn (S m) ltac:(lia)). cbn [validate] in Hn. apply all3_true_inv, Forall_fmap in Hn.
  by rewrite Forall_forall in Hn; apply Hn.
Qed.

(** Only [additionalProperties] looks at another keyword, [properties]. *)
Lemma keyword_siblings rec kws kws' k a x :
  aget kws "properties" = aget kws' "properties" → keyword D rec kws k a x = keyword D rec kws' k a x.
Proof. intros Hp. unfold keyword. by rewrite Hp. Qed.

Lemma accepts_aset kws k a x :
  k ≠ "properties" → accepts D (VMap kws) x → (∀ siblings, holds siblings k a x) → accepts D (VMap (aset kws k a)) x.
Proof.
  intros Hk Hx%accepts_map_inv Ha. apply accepts_map, Forall_forall. intros kw Hkw.
  apply aset_elem in Hkw as [->|Hkw]; [apply Ha|].
  rewrite Forall_forall in Hx. destruct (Hx kw Hkw) as (n & Hn). exists n. intros m Hm.
  rewrite <- (Hn m Hm). apply keyword_siblings. by apply aget_set_ne.
Qed.

Lemma holds_now siblings k a x b : (∀ rec, keyword D rec siblings k a x = b) → b = Some true → holds siblings k a x.
Proof. intros H ->. exists 0%nat. intros m _. apply H. Qed.

Lemma holds_ref siblings name s x :
  aget D name = Some s → accepts D s x → holds siblings "$ref" (VString ("#/$defs/" +:+ name)) x.
Proof using Type.
  intros Hs (n & Hn). exists n. intros m Hm. change (keyword D (validate D m) siblings "$ref" (VString ("#/$defs/" +:+ name)) x)
    with (if HasPrefix ("#/$defs/" +:+ name) "#/$defs/"
          then aget D (TrimPrefix ("#/$defs/" +:+ name) "#/$defs/") ≫= λ schema, validate D m schema x else None).
  rewrite HasPrefix_app, TrimPrefix_app, Hs. cbn. by apply Hn.
Qed.

Lemma holds_items siblings a items : Forall (accepts D a) items → holds siblings "items" a (VList items).
Proof using Type.
  intros H. apply (eventually_Forall (λ m x, validate D m a x = Some true)) in H as (n & Hn). exists n. intros m Hm.
  apply (all3_true (validate D m a <$> items)), Forall_fmap, (Hn m Hm).
Qed.

Lemma holds_properties siblings properties fields :
  (∀ p x, p ∈ properties → aget fields p.1 = Some x → accepts D p.2 x) →
  holds siblings "properties" (VMap properties) (VMap fields).
Proof using Type.
  intros H. assert (Forall (λ p, ∃ n, ∀ m, (n ≤ m)%nat → ∀ x, aget fields p.1 = Some x → validate D m p.2 x = Some true)
    properties) as (n & Hn)%eventually_Forall.
  { apply Forall_forall. intros p Hp. destruct (aget fields p.1) as [x|] eqn:E; [|by exists 0%nat].
    destruct (H p x Hp E) as (n & Hn). exists n. intros m Hm ? [= <-]. by apply Hn. }
  exists n. intros m Hm. apply (all3_true (omap (λ p, validate D m p.2 <$> aget fields p.1) properties)).
  specialize (Hn m Hm). apply Forall_forall. intros o (p & Hp & Ho)%list_elem_of_omap.
  rewrite Forall_forall in Hn. specialize (Hn p Hp). destruct (aget fields p.1) as [x|]; [|done].
  injection Ho as <-. by apply Hn.
Qed.

Lemma holds_additional siblings properties a fields :
  aget siblings "properties" = Some (VMap properties) →
  Forall (λ f, f.1 ∈ properties.*1 ∨ accepts D a f.2) fields → holds siblings "additionalProperties" a (VMap fields).
Proof using Type.
  intros Hs H. assert (Forall (λ f, ∃ n, ∀ m, (n ≤ m)%nat → f.1 ∈ properties.*1 ∨ validate D m a f.2 = Some true) fields)
    as (n & Hn)%eventually_Forall.
  { eapply Forall_impl; [exact H|]. intros f [Hf|(n & Hn)]; [exists 0%nat; auto|exists n; auto]. }
  exists n. intros m Hm. change (keyword D (validate D m) siblings "additionalProperties" a (VMap fields)) with
    (all3 ((λ f, if bool_decide (f.1 ∈ match aget siblings "properties" with Some (VMap ps) => ps.*1 | _ => [] end)
                 then Some true else validate D m a f.2) <$> fields)).
  rewrite Hs. apply all3_true, Forall_fmap. eapply Forall_impl; [exact (Hn m Hm)|].
  intros f Hf. cbn. case_bool_decide; [done|]. by destruct Hf.
Qed.

(** A map without [properties]. *)
Lemma holds_values a fields : Forall (λ f, accepts D a f.2) fields →
  holds [("type", VString "object"); ("additionalProperties", a)] "additionalProperties" a (VMap fields).
Proof using Type.
  intros H. assert (Forall (λ f, ∃ n, ∀ m, (n ≤ m)%nat → validate D m a f.2 = Some true) fields) as (n & Hn)%eventually_Forall
    by exact H.
  exists n. intros m Hm. apply (all3_true ((λ f, _) <$> fields)), Forall_fmap.
  eapply Forall_impl; [exact (Hn m Hm)|]. intros f Hf. exact Hf.
Qed.

Lemma holds_required siblings names fields :
  Forall (λ n, n ∈ fields.*1) names → holds siblings "required" (strings names) (VMap fields).
Proof using Type.
  intros H. apply holds_now with (b := Some true); [|done]. intros rec.
  change (Some (forallb (λ n, negb (is_nil (aget fields (text_of n)))) (VString <$> names)) = Some true). f_equal.
  apply List.forallb_forall. intros v (n & -> & Hn)%list_elem_of_In%list_elem_of_fmap. cbn.
  rewrite Forall_forall in H. by apply H, aget_is_Some in Hn as [x ->].
Qed.

Lemma holds_enum siblings values s : existsb (String.eqb s) values = true → holds siblings "enum" (strings values) (VString s).
Proof using Type.
  intros H. apply holds_now with (b := Some true); [|done]. intros rec.
  set (same := (λ v, same_text v (VString s)) <$> (VString <$> values)).
  change ((if existsb is_nil same then None else Some (existsb (λ o, bool_decide (o = Some true)) same)) = Some true).
  assert (existsb (@is_nil bool) same = false) as -> by (unfold same; clear H; by induction values).
  f_equal. apply List.existsb_exists in H as (t & Ht & Hs). apply String.eqb_eq in Hs as <-.
  apply List.existsb_exists. exists (Some true). split; [|done]. apply list_elem_of_In.
  apply list_elem_of_fmap. exists (VString s). cbn. rewrite String.eqb_refl. split; [done|].
  apply list_elem_of_fmap. exists s. split; [done|by apply list_elem_of_In].
Qed.
End accepted.

(** ** Lemmas: values *)

Lemma json_integer_FormatInt z : json_integer (FormatInt z) = Some z.
Proof.
  unfold FormatInt. destruct (Z.ltb_spec z 0) as [Hneg|Hpos].
  - unfold json_integer. rewrite parse_format_N. cbn. rewrite N2Z.inj_abs_N. f_equal. lia.
  - destruct (format_N_first (Z.abs_N z)) as (c & r & Heq & Hc).
    assert (Hp : json_integer (format_N (Z.abs_N z)) = option_map Z.of_N (parse_digits (format_N (Z.abs_N z)))).
    { rewrite Heq. unfold json_integer. destruct c as [[] [] [] [] [] [] [] []]; cbn in Hc; done. }
    rewrite Hp, parse_format_N. cbn. rewrite N2Z.inj_abs_N. f_equal. lia.
Qed.

(** Induction on a value and the values in it. *)
Section values.
Context (P : GoValue → Prop).
Context (Hlist : ∀ items, Forall P items → P (GList items)).
Context (Hmap : ∀ entries, Forall (λ kv, P kv.2) entries → P (GMap entries)).
Context (Hstruct : ∀ values, Forall P values → P (GStruct values)).
Context (Hpointer : ∀ v, P v → P (GPointer v)).
Context (Hbool : ∀ b, P (GBool b)) (Hint : ∀ n, P (GInt n)) (Hfloat : ∀ t, P (GFloat t)) (Hstring : ∀ s, P (GString s)).
Context (Htime : ∀ t, P (GTime t)) (Hnil : P GNil) (Hinterface : ∀ v, P (GInterface v)).

Fixpoint GoValue_nested_ind (v : GoValue) : P v :=
  match v with
  | GBool b => Hbool b
  | GInt n => Hint n
  | GFloat t => Hfloat t
  | GString s => Hstring s
  | GTime t => Htime t
  | GNil => Hnil
  | GInterface v => Hinterface v
  | GPointer v => Hpointer v (GoValue_nested_ind v)
  | GList items =>
      Hlist items ((fix go l : Forall P l :=
        match l with [] => Forall_nil_2 P | v :: l => Forall_cons_2 P v l (GoValue_nested_ind v) (go l) end) items)
  | GMap entries =>
      Hmap entries ((fix go l : Forall (λ kv, P kv.2) l :=
        match l with
        | [] => Forall_nil_2 _
        | kv :: l => Forall_cons_2 _ kv l (GoValue_nested_ind kv.2) (go l)
        end) entries)
  | GStruct values =>
      Hstruct values ((fix go l : Forall P l :=
        match l with [] => Forall_nil_2 P | v :: l => Forall_cons_2 P v l (GoValue_nested_ind v) (go l) end) values)
  end.
End values.

(** ** Lemmas: the schemas of types *)

Section schemas.
Context `{GoTypes} (generator : schemaGenerator).

(** The kind of [t] under its pointers, when it is neither a time nor an
    enumeration. *)
Definition plain (t : GoType) (kind : GoType + list StructField) : Prop :=
  strip_pointers t ≠ time_type ∧ type_index (sgEnums generator) (strip_pointers t) = None ∧
  under (strip_pointers t) = kind.

Definition date_schema : value := VMap [("type", VString "string"); ("format", VString "date-time")].
Definition ref_schema (t : GoType) : value := VMap [("$ref", VString ("#/$defs/" +:+ definitionName generator t))].

(** [schema] is the schema of [t] in a document that defines the structs [D]. *)
Inductive schema_of (D : list (string * value)) (t : GoType) : value → Prop :=
| so_time : strip_pointers t = time_type → schema_of D t date_schema
| so_enum values : strip_pointers t ≠ time_type → type_index (sgEnums generator) (strip_pointers t) = Some values →
    schema_of D t (VMap [("type", VString "string"); ("enum", strings values)])
| so_interface : plain t (inl TInterface) → schema_of D t (VBool true)
| so_basic b schema : plain t (inl (TBasic b)) → basic_schema b = Some schema → schema_of D t schema
| so_slice elem items : plain t (inl (TSlice elem)) → schema_of D elem items →
    schema_of D t (VMap [("type", VString "array"); ("items", items)])
| so_array n elem items : plain t (inl (TArray n elem)) → schema_of D elem items →
    schema_of D t (VMap [("type", VString "array"); ("items", items)])
| so_map key elem values : plain t (inl (TMap key elem)) → schema_of D elem values →
    schema_of D t (VMap [("type", VString "object"); ("additionalProperties", values)])
| so_struct fields : plain t (inr fields) → is_Some (aget D (definitionName generator (strip_pointers t))) →
    schema_of D t (ref_schema (strip_pointers t)).

(** The included fields of a struct. *)
Definition included (fields : list StructField) (f : StructField) (name : string) (omitEmpty : bool) : Prop :=
  f ∈ fields ∧ jsonField f = (name, omitEmpty, true).

(** [properties] and [required] describe the fields of the struct [t]. *)
Record describes (D : list (string * value)) (t : GoType) (fields : list StructField)
    (properties : list (string * value)) (required : list string) : Prop := {
  ds_unique : NoDup properties.*1;
  ds_field f name omitEmpty : included fields f name omitEmpty →
    ∃ schema, schema_of D (sfType f) schema ∧ aget properties name = Some (applyFieldSchema schema t name);
  ds_required name : name ∈ required → ∃ f, included fields f name false
}.

(** Every definition of [D], those in [pending] apart, describes its struct. *)
Definition complete (D : list (string * value)) (pending : list string) : Prop :=
  ∀ t fields definition, under t = inr fields → aget D (definitionName generator t) = Some definition →
    definitionName generator t ∈ pending ∨
    ∃ properties required, definition = definition_of properties required ∧ describes D t fields properties required.

(** ** Lemmas: a field's own rule *)

Lemma basic_schema_map b schema : basic_schema b = Some schema → ∃ kws, schema = VMap kws.
Proof using Type. destruct b; cbn; intros [= <-]; eauto. Qed.

Lemma schema_of_shape D t schema : schema_of D t schema → schema = VBool true ∨ ∃ kws, schema = VMap kws.
Proof using Type. inversion 1; eauto. right. by eapply basic_schema_map. Qed.

Lemma string_runes_cons c s : (1 <=? Z.of_nat (length (string_runes (String c s))))%Z = true.
Proof using Type.
  apply Z.leb_le. unfold string_runes. cbn [String.list_ascii_of_string length runes].
  destruct (utf8_len _); cbn [length]; lia.
Qed.

Lemma revision_accepted D x :
  match x with VNumber text => negb (is_nil (json_integer text)) | VString s => s !=s "" | _ => false end = true →
  accepts D (VMap [("oneOf", VList [VMap [("type", VString "integer")];
                                    VMap [("type", VString "string"); ("minLength", VNumber "1")]])]) x.
Proof using Type.
  intros Hx. exists 3%nat. intros [|[|[|m]]] Hm; [lia..|]. destruct x as [| |text| |s| |]; try discriminate Hx.
  - cbn. destruct (json_integer text); [done|discriminate Hx].
  - destruct s as [|c s]; [discriminate Hx|]. pose proof (string_runes_cons c s) as Hr.
    cbn -[string_runes Z.leb Z.of_nat json_integer]. change (json_integer "1") with (Some 1%Z).
    cbn -[string_runes Z.leb Z.of_nat]. by rewrite Hr.
Qed.

Lemma same_text_holds D siblings k s : (∀ rec x, keyword D rec siblings k (VString s) x = same_text (VString s) x) →
  holds D siblings k (VString s) (VString s).
Proof using Type. intros Hk. exists 0%nat. intros m _. rewrite Hk. cbn. by rewrite String.eqb_refl. Qed.

Lemma accepts_set_if D (b : bool) k a kws x :
  k ≠ "properties" → (b = true → ∀ siblings, holds D siblings k a x) →
  accepts D (VMap kws) x → accepts D (VMap (if b then aset kws k a else kws)) x.
Proof using Type. intros Hk Ha Hkws. destruct b; [|done]. apply accepts_aset; auto. Qed.

(** The two constants of the version document. *)
Lemma accepts_constants D (b b1 b2 : bool) s1 s2 kws x :
  negb b || ((negb b1 || match x with VString s => s ==s s1 | _ => false end)
             && (negb b2 || match x with VString s => s ==s s2 | _ => false end)) = true →
  accepts D (VMap kws) x →
  accepts D (VMap (if b then if b1 then aset kws "const" (VString s1) else if b2 then aset kws "const" (VString s2) else kws
                   else kws)) x.
Proof using Type.
  destruct b; [|done]. intros [H1 H2]%andb_true_iff Hkws.
  destruct b1; [|destruct b2; [|done]]; cbn in *; (apply accepts_aset; [done|done|intros siblings]);
    destruct x as [| | | |s| |]; try done; [apply String.eqb_eq in H1 as ->|apply String.eqb_eq in H2 as ->];
    by apply same_text_holds.
Qed.

Lemma accepts_status D (b : bool) kws x :
  negb b || match x with
            | VNumber text => match json_integer text with Some n => (0 <=? n)%Z && (n <=? 599)%Z | None => false end
            | _ => true
            end = true →
  accepts D (VMap kws) x →
  accepts D (VMap (if b then aset (aset kws "minimum" (VNumber "0")) "maximum" (VNumber "599") else kws)) x.
Proof using Type.
  destruct b; [|done]. intros Hx Hkws.
  assert (∀ siblings k le bound, (∀ rec, keyword D rec siblings k (VNumber bound) x = compare_number le (VNumber bound) x) →
    compare_number le (VNumber bound) x = Some true → holds D siblings k (VNumber bound) x) as Hholds.
  { intros siblings k le bound Hk Hb. by apply (holds_now _ _ _ _ _ _ Hk). }
  cbn in Hx. apply accepts_aset; [done|apply accepts_aset; [done|done|]|]; intros siblings; eapply Hholds; try done;
    (destruct x as [| |text| | | |]; [done|done| |done|done|done|done]); cbn;
    (destruct (json_integer text) as [n|]; [|discriminate Hx]); apply andb_true_iff in Hx as [H0 H1];
    [exact (f_equal Some H0)|exact (f_equal Some H1)].
Qed.

Lemma applyFieldSchema_accepts D t schema parent name x :
  schema_of D t schema → accepts D schema x → field_rule parent name x = true →
  accepts D (applyFieldSchema schema parent name) x.
Proof using Type.
  intros Hs Hx. unfold field_rule, applyFieldSchema.
  destruct (is_type machine_package "machineMetadata" parent && (name ==s "revision")); [by apply revision_accepted|].
  intros [[[Hns Hst]%andb_true_iff Hvi]%andb_true_iff Hca]%andb_true_iff.
  destruct (schema_of_shape _ _ _ Hs) as [->|[kws ->]]; [done|]. clear Hs. cbv zeta.
  apply accepts_set_if; [done| |apply accepts_constants; [done|apply accepts_status; [done|]]].
  - intros Hb siblings. rewrite Hb in Hca. cbn in Hca. destruct x; try discriminate Hca. by apply holds_enum.
  - apply accepts_set_if; [done| |apply accepts_set_if; [done| |done]].
    + intros Hb siblings. rewrite Hb in Hns. cbn in Hns. apply holds_now with (b := Some true); [|done]. intros rec.
      destruct x; try done. cbn. by rewrite Hns.
    + intros _ siblings. by apply holds_now with (b := Some true).
Qed.

(** ** Lemmas: values that fit are accepted *)

(** [fits] below the checks for times and enumerations. *)
Definition kind_fits (t : GoType) (kind : GoType + list StructField) (v : GoValue) : bool :=
  match kind, v with
  | inl TInterface, (GInterface _ | GNil) => true
  | inl (TBasic b), _ => fits_basic b v
  | inl (TSlice elem), GList items => forallb (fits generator elem) items
  | inl (TArray n elem), GList items => (length items =? n)%nat && forallb (fits generator elem) items
  | inl (TMap key elem), GMap entries => forallb (λ kv, fits generator elem kv.2) entries
  | inr fields, GStruct values =>
      all_fields (λ field v, field_fits (fits generator (sfType field) v) t field v) fields values
  | _, _ => false
  end.

Lemma fits_cases t v :
  fits generator t v = true →
  (∃ elem v', t = TPointer elem ∧ v = GPointer v' ∧ fits generator elem v' = true) ∨
  (strip_pointers t = t ∧
   ((t = time_type ∧ ∃ instant, v = GTime instant) ∨
    (t ≠ time_type ∧ ∃ values s, type_index (sgEnums generator) t = Some values ∧ v = GString s ∧
       existsb (String.eqb s) values = true) ∨
    (plain t (under t) ∧ kind_fits t (under t) v = true))).
Proof using Type.
  intros Hf. assert ((∃ elem, t = TPointer elem) ∨ (strip_pointers t = t ∧ ∀ elem, t ≠ TPointer elem)) as [[elem ->]|[Hs Hp]]
    by (destruct t; eauto; by right).
  { left. destruct v; try discriminate Hf. eauto. }
  right. split; [done|].
  assert ((if bool_decide (t = time_type) then match v with GTime _ => true | _ => false end
           else match type_index (sgEnums generator) t with
                | Some values => match v with GString s => existsb (String.eqb s) values | _ => false end
                | None => kind_fits t (under t) v
                end) = true) as Hb.
  { destruct t; try (by destruct (Hp _ eq_refl)); destruct v; try discriminate Hf; exact Hf. }
  case_bool_decide as Ht; [left; split; [done|]; destruct v; try discriminate Hb; eauto|right].
  destruct (type_index _ _) as [values|] eqn:E; [left; destruct v; try discriminate Hb; eauto 6|right].
  split; [|done]. unfold plain. by rewrite Hs.
Qed.

Lemma holds_type D siblings type x : has_json_type type x = Some true → holds D siblings "type" (VString type) x.
Proof using Type. intros Hx. by apply holds_now with (b := has_json_type type x). Qed.

Lemma holds_bound D siblings k bound n (le : Z → Z → bool) :
  (∀ rec x, keyword D rec siblings k bound x = compare_number le bound x) →
  compare_number le bound (VNumber (FormatInt n)) = Some true → holds D siblings k bound (VNumber (FormatInt n)).
Proof using Type. intros Hk Hb. apply (holds_now _ _ _ _ _ _ (λ rec, Hk rec _)). exact Hb. Qed.

Lemma compare_FormatInt le b bound n :
  json_integer b = Some bound → compare_number le (VNumber b) (VNumber (FormatInt n)) = Some (le bound n).
Proof using Type. intros Hb. cbn -[json_integer]. by rewrite Hb, json_integer_FormatInt. Qed.

Lemma basic_accepted D t b schema v :
  basic_schema b = Some schema → fits_basic b v = true → accepts D schema (encode t v).
Proof using Type.
  assert (∀ n, has_json_type "integer" (VNumber (FormatInt n)) = Some true) as Hint
    by (intros n; cbn -[json_integer]; by rewrite json_integer_FormatInt).
  assert (∀ siblings lo hi n, in_range lo hi n = true → (0 <= lo)%Z → holds D siblings "minimum" (VNumber "0") (VNumber (FormatInt n))) as Hmin.
  { intros siblings lo hi n [H1%Z.leb_le _]%andb_true_iff Hlo. eapply holds_bound; [done|].
    rewrite (compare_FormatInt _ "0" 0%Z) by done. f_equal. apply Z.leb_le. lia. }
  destruct b, v; intros [= <-] Hv; try discriminate Hv; cbn [encode];
    (apply accepts_map; repeat apply Forall_cons_2; try apply Forall_nil_2);
    first [by apply holds_type|by eapply Hmin|idtac].
  apply andb_true_iff in Hv as [_ Hv%Z.leb_le]. eapply holds_bound; [done|].
  rewrite (compare_FormatInt _ "65535" 65535%Z) by done. f_equal. apply Z.leb_le. lia.
Qed.

(** A field that is always there is never left out. *)
Lemma not_omitted f name v : jsonField f = (name, false, true) → omitted f v = false.
Proof using Type.
  unfold jsonField, omitted. destruct (sfPkgPath f !=s ""); [done|].
  destruct (Split "," (sfTag f)) as [|first options]; [done|]. destruct (first ==s "-"); [done|]. cbn [tail].
  intros [= _ Ho]. assert (∀ o, existsb omit_option options = false → (o = "omitempty" ∨ o = "omitzero") →
    existsb (String.eqb o) options = false) as Hno.
  { intros o Hex Hoo. apply not_true_iff_false. intros (o' & Hin & <-%String.eqb_eq)%List.existsb_exists.
    rewrite <- not_true_iff_false in Hex. apply Hex, List.existsb_exists. exists o. split; [done|].
    by destruct Hoo as [-> | ->]. }
  by rewrite !Hno by auto.
Qed.

Section fields.
Context (P : StructField → GoValue → Prop) (parent : GoType).

(** Each entry of a struct's document is a field that fits. *)
Lemma encode_fields_elem p fields values name x :
  all_fields (λ field v, field_fits (p field v) parent field v) fields values = true →
  (name, x) ∈ encode_fields omitted (λ field v, encode (sfType field) v) fields values →
  ∃ f v omitEmpty, f ∈ fields ∧ v ∈ values ∧ jsonField f = (name, omitEmpty, true) ∧ x = encode (sfType f) v ∧
    p f v = true ∧ field_rule parent name x = true.
Proof using Type.
  revert fields. induction values as [|v values IH]; intros [|f fields] Hf Hx; try done; [by apply elem_of_nil in Hx..|].
  cbn in Hf, Hx. apply andb_true_iff in Hf as [Hv Hf]. unfold field_fits in Hv.
  destruct (jsonField f) as [[n o] include] eqn:Ej. apply elem_of_app in Hx as [Hx|Hx].
  - destruct include; [|by apply elem_of_nil in Hx]. cbn in Hv, Hx. destruct (omitted f v); [by apply elem_of_nil in Hx|].
    cbn in Hv. apply list_elem_of_singleton in Hx as [= -> ->]. apply andb_true_iff in Hv as [Hp Hr].
    exists f, v, o. repeat split; try done; by left.
  - destruct (IH fields Hf Hx) as (f' & v' & o' & Hin & Hv' & ?). exists f', v', o'. split; [by right|]. split; [by right|done].
Qed.

(** A required field is in the document. *)
Lemma encode_fields_required p fields values f name :
  all_fields p fields values = true → f ∈ fields → jsonField f = (name, false, true) →
  name ∈ (encode_fields omitted (λ field v, encode (sfType field) v) fields values).*1.
Proof using Type.
  revert fields. induction values as [|v values IH]; intros [|f' fields] Hall Hf Ej; try done; [by apply elem_of_nil in Hf|].
  cbn in Hall. apply andb_true_iff in Hall as [_ Hall]. cbn. apply elem_of_cons in Hf as [<-|Hf].
  - rewrite Ej. cbn. rewrite (not_omitted f name) by done. by left.
  - destruct (jsonField f') as [[n o] include]. rewrite fmap_app. apply elem_of_app. right. by apply IH.
Qed.
End fields.

Section complete.
Context (D : list (string * value)) (Hcomplete : complete D []).

Lemma struct_accepted t fields values :
  under t = inr fields → is_Some (aget D (definitionName generator t)) →
  all_fields (λ field v, field_fits (fits generator (sfType field) v) t field v) fields values = true →
  Forall (λ v, ∀ t schema, schema_of D t schema → fits generator t v = true → accepts D schema (encode t v)) values →
  accepts D (ref_schema t) (encode t (GStruct values)).
Proof using Hcomplete.
  intros Ht [definition HD] Hfits IH.
  destruct (Hcomplete t fields definition Ht HD) as [Hn|(properties & required & -> & Hds)]; [by apply elem_of_nil in Hn|].
  apply accepts_map, Forall_singleton. cbn [fst snd]. eapply holds_ref; [exact HD|].
  cbn [encode]. unfold fields_of. rewrite Ht.
  set (entries := encode_fields _ _ _ _). set (required' := sort_strings required).
  assert (∀ name x, (name, x) ∈ entries → ∃ schema, aget properties name = Some schema ∧ accepts D schema x) as Hentries.
  { intros name x Hx. apply (encode_fields_elem t _ _ _ _ _ Hfits) in Hx
      as (f & v & o & Hf & Hv & Ej & -> & Hfit & Hrule).
    destruct (ds_field _ _ _ _ _ Hds f name o) as (schema & Hschema & Hget); [done|]. eexists. split; [exact Hget|].
    eapply applyFieldSchema_accepts; [exact Hschema| |done]. rewrite Forall_forall in IH. by apply IH. }
  assert (Forall (λ n, n ∈ entries.*1) required') as Hrequired.
  { apply Forall_forall. intros name Hname. unfold required' in Hname. rewrite sort_strings_perm in Hname.
    apply (ds_required _ _ _ _ _ Hds) in Hname as (f & Hf & Ej). by eapply encode_fields_required. }
  assert (∀ siblings, aget siblings "properties" = Some (VMap properties) →
            Forall (λ kw, holds D siblings kw.1 kw.2 (VMap entries))
              [("type", VString "object"); ("additionalProperties", VBool false); ("properties", VMap properties)]) as Hbase.
  { intros siblings Hs. repeat apply Forall_cons_2; try apply Forall_nil_2; cbn [fst snd].
    - by apply holds_type.
    - eapply holds_additional; [exact Hs|]. apply Forall_forall. intros [name x] Hx. left.
      destruct (Hentries name x Hx) as (schema & Hget & _). cbn. apply aget_is_Some. by rewrite Hget.
    - apply holds_properties. intros [name schema] x Hp Hx. cbn in *. apply aget_Some_elem in Hx.
      destruct (Hentries name x Hx) as (schema' & Hget & Hacc).
      apply aget_elem in Hget; [|apply (ds_unique _ _ _ _ _ Hds)]. 
      assert (schema' = schema) as ->; [|done].
      apply (aget_elem _ _ _ (ds_unique _ _ _ _ _ Hds)) in Hget, Hp. congruence. }
  apply accepts_map. unfold definition_of. fold required'. destruct (is_nil (head required')).
  - by apply Hbase.
  - change (aset _ "required" (strings required')) with
      ([("type", VString "object"); ("additionalProperties", VBool false); ("properties", VMap properties)]
       ++ [("required", strings required')]).
    apply Forall_app. split; [by apply Hbase|]. apply Forall_singleton. by apply holds_required.
Qed.

Lemma forallb_Forall {A} (p : A → bool) l : forallb p l = true → Forall (λ x, p x = true) l.
Proof using Type. intros Hl. apply Forall_forall. intros x Hx. eapply List.forallb_forall; [exact Hl|by apply list_elem_of_In]. Qed.

Lemma list_accepted t elem items values :
  schema_of D elem items → elem_type t = elem → Forall (λ v, fits generator elem v = true) values →
  Forall (λ v, ∀ t schema, schema_of D t schema → fits generator t v = true → accepts D schema (encode t v)) values →
  accepts D (VMap [("type", VString "array"); ("items", items)]) (encode t (GList values)).
Proof using Type.
  intros Hs He Hfits IH. cbn [encode]. rewrite He.
  apply accepts_map. repeat apply Forall_cons_2; try apply Forall_nil_2; cbn [fst snd]; [by apply holds_type|].
  apply holds_items. change (List.map (encode elem) values) with (encode elem <$> values). apply Forall_fmap.
  rewrite Forall_forall in Hfits, IH. apply Forall_forall. intros v Hv. cbn. by apply IH; [|done|apply Hfits].
Qed.

Lemma map_accepted t elem schema (entries : list (string * GoValue)) :
  schema_of D elem schema → elem_type t = elem → Forall (λ kv, fits generator elem kv.2 = true) entries →
  Forall (λ kv, ∀ t schema, schema_of D t schema → fits generator t kv.2 = true → accepts D schema (encode t kv.2)) entries →
  accepts D (VMap [("type", VString "object"); ("additionalProperties", schema)]) (encode t (GMap entries)).
Proof using Type.
  intros Hs He Hfits IH. cbn [encode]. rewrite He.
  apply accepts_map. repeat apply Forall_cons_2; try apply Forall_nil_2; cbn [fst snd]; [by apply holds_type|].
  apply holds_values. change (List.map ?f entries) with (f <$> entries). apply Forall_fmap.
  rewrite Forall_forall in Hfits, IH. apply Forall_forall. intros kv Hkv. cbn. by apply IH; [|done|apply Hfits].
Qed.

Lemma plain_accepted t schema v :
  strip_pointers t = t → plain t (under t) → kind_fits t (under t) v = true → schema_of D t schema →
  match v with
  | GList values => Forall (λ v, ∀ t schema, schema_of D t schema → fits generator t v = true → accepts D schema (encode t v)) values
  | GStruct values => Forall (λ v, ∀ t schema, schema_of D t schema → fits generator t v = true → accepts D schema (encode t v)) values
  | GMap entries => Forall (λ kv, ∀ t schema, schema_of D t schema → fits generator t kv.2 = true → accepts D schema (encode t kv.2)) entries
  | _ => True
  end →
  accepts D schema (encode t v).
Proof using Hcomplete.
  intros Hst (Hne & Hi & _) Hk Hs IH. rewrite Hst in Hne, Hi.
  inversion Hs as [Ht|values' _ Hi'|(_ & _ & Hu)|b schema' (_ & _ & Hu) Hb|elem items (_ & _ & Hu) He|n elem items (_ & _ & Hu) He
                  |key elem vs (_ & _ & Hu) He|fields (_ & _ & Hu) HD]; rewrite ?Hst in *; subst; try congruence;
    rewrite Hu in Hk; cbn [kind_fits] in Hk.
  - apply accepts_true.
  - by eapply basic_accepted.
  - destruct v; try discriminate Hk. apply (list_accepted _ elem); [done|by unfold elem_type; rewrite Hu|by apply forallb_Forall|done].
  - destruct v; try discriminate Hk. apply andb_true_iff in Hk as [_ Hk].
    apply (list_accepted _ elem); [done|by unfold elem_type; rewrite Hu|by apply forallb_Forall|done].
  - destruct v; try discriminate Hk. apply (map_accepted _ elem); [done|by unfold elem_type; rewrite Hu| |done].
    exact (forallb_Forall (λ kv, fits generator elem kv.2) _ Hk).
  - destruct v; try discriminate Hk. by apply (struct_accepted _ fields).
Qed.

Lemma time_accepted t instant : strip_pointers t = time_type → ∀ schema, schema_of D t schema →
  accepts D schema (VString (FormatRFC3339Nano instant)).
Proof using Type.
  intros Ht schema Hs. inversion Hs as [_|? Hne|(Hne & _)|? ? (Hne & _)|? ? (Hne & _)|? ? ? (Hne & _)|? ? ? (Hne & _)|? (Hne & _)];
    subst; try congruence.
  apply accepts_map. repeat apply Forall_cons_2; try apply Forall_nil_2; cbn [fst snd]; [by apply holds_type|].
  by apply holds_now with (b := Some true).
Qed.

Lemma enum_accepted t values s :
  strip_pointers t ≠ time_type → type_index (sgEnums generator) (strip_pointers t) = Some values →
  existsb (String.eqb s) values = true → ∀ schema, schema_of D t schema → accepts D schema (VString s).
Proof using Type.
  intros Ht Hi Hex schema Hs.
  inversion Hs as [Hne|values' _ Hi'|(_ & Hne & _)|? ? (_ & Hne & _)|? ? (_ & Hne & _)|? ? ? (_ & Hne & _)|? ? ? (_ & Hne & _)
                  |? (_ & Hne & _)]; subst; try congruence.
  rewrite Hi in Hi'. injection Hi' as <-.
  apply accepts_map. repeat apply Forall_cons_2; try apply Forall_nil_2; cbn [fst snd]; [by apply holds_type|].
  by apply holds_enum.
Qed.

Lemma schema_of_pointer elem schema : schema_of D (TPointer elem) schema → schema_of D elem schema.
Proof using Type.
  intros Hs. inversion Hs; subst;
    [by apply so_time|by eapply so_enum|by apply so_interface|by eapply so_basic|by eapply so_slice|by eapply so_array
    |by eapply so_map|by eapply (so_struct D elem)].
Qed.

(** What fits a type is accepted by its schema. *)
Lemma fits_accepted v : ∀ t schema, schema_of D t schema → fits generator t v = true → accepts D schema (encode t v).
Proof using Hcomplete.
  induction v as [items IH|entries IH|values IH|v IH|b|n|text|s|instant| |w] using GoValue_nested_ind; intros t schema Hs Hf;
    (apply fits_cases in Hf as [(elem & v' & -> & Hv & Hf)|[Hst Hf]];
     [first [discriminate Hv|injection Hv as <-]|
      destruct Hf as [[-> [instant' Hv]]|[(Hne & values' & s' & Hi & Hv & Hex)|[Hplain Hk]]];
      [try discriminate Hv|try discriminate Hv|by apply plain_accepted]]).
  - apply IH; [by apply schema_of_pointer|done].
  - injection Hv as ->. rewrite <- Hst in Hne, Hi. by eapply enum_accepted.
  - by apply (time_accepted time_type).
Qed.
End complete.
End schemas.

(** ** Lemmas: the generator *)

Lemma gen_bind_inv {A B} (p : gen A) (f : A → gen B) d b d' :
  (p ≫= f) d = Some (inr b, d') → ∃ a d1, p d = Some (inr a, d1) ∧ f a d1 = Some (inr b, d').
Proof.
  unfold mbind, gen_mbind, gen_bind. destruct (p d) as [[[err|a] d1]|]; [done| |done]. eauto.
Qed.

Lemma gen_ret_inv {A} (a b : A) d d' : (mret a : gen A) d = Some (inr b, d') → b = a ∧ d' = d.
Proof. by intros [= <- <-]. Qed.

Definition included_names (fields : list StructField) : list string :=
  omap (λ f, let '(name, _, include) := jsonField f in if (include : bool) then Some name else None) fields.

Lemma included_names_elem fields f name o : included fields f name o → name ∈ included_names fields.
Proof. intros [Hf Ej]. apply list_elem_of_omap. exists f. by rewrite Ej. Qed.

Section generated.
Context `{GoTypes} (generator : schemaGenerator).

(** Different structs have different definitions, and the fields of a struct
    different names. *)
Class WellDeclared : Prop := {
  wd_names t t' fields fields' : under t = inr fields → under t' = inr fields' →
    definitionName generator t = definitionName generator t' → t = t';
  wd_fields t fields : under t = inr fields → NoDup (included_names fields)
}.

Definition grows (d d' : list (string * value)) : Prop := ∀ k, is_Some (aget d k) → is_Some (aget d' k).

#[local] Instance grows_preorder : PreOrder grows.
Proof using Type. split; [by intros d k|intros d1 d2 d3 H1 H2 k Hk; auto]. Qed.

Lemma grows_aset d k v : grows d (aset d k v).
Proof using Type. intros k' Hk'. rewrite aget_set. by destruct (k ==s k'). Qed.

Lemma schema_of_mono d d' t schema : grows d d' → schema_of generator d t schema → schema_of generator d' t schema.
Proof using Type.
  intros Hg Hs. induction Hs as [t Ht|t values Ht Hi|t Hp|t b schema Hp Hb|t elem items Hp Hs IH|t n elem items Hp Hs IH
                                |t key elem values Hp Hs IH|t fields Hp HD];
    [by apply so_time|by eapply so_enum|by apply so_interface|by eapply so_basic|by eapply so_slice|by eapply so_array
    |by eapply so_map|eapply so_struct; eauto].
Qed.

Lemma describes_mono d d' t fields properties required :
  grows d d' → describes generator d t fields properties required → describes generator d' t fields properties required.
Proof using Type.
  intros Hg [Hu Hf Hr]. split; [done| |done]. intros f name o Hi. destruct (Hf f name o Hi) as (schema & Hs & ?).
  exists schema. split; [by eapply schema_of_mono|done].
Qed.

(** What a step of the generator keeps. *)
Definition step_ok (d d' : list (string * value)) : Prop :=
  grows d d' ∧ ∀ pending, complete generator d pending → complete generator d' pending.

#[local] Instance step_ok_preorder : PreOrder step_ok.
Proof using Type.
  split; [by split|]. intros d1 d2 d3 [Hg1 Hc1] [Hg2 Hc2]. split; [by etrans|auto].
Qed.

Section fields.
Context (sf : GoType → string → gen value).
Context (Hsf : ∀ t path d schema d', sf t path d = Some (inr schema, d') → step_ok d d' ∧ schema_of generator d' t schema).

Lemma struct_fields_spec t path fields properties required d properties' required' d' :
  struct_fields sf t path fields properties required d = Some (inr (properties', required'), d') →
  NoDup (properties.*1 ++ included_names fields) →
  step_ok d d' ∧ NoDup properties'.*1 ∧
  (∀ name schema, aget properties name = Some schema → aget properties' name = Some schema) ∧
  (∀ f name o, included fields f name o →
     ∃ schema, schema_of generator d' (sfType f) schema ∧ aget properties' name = Some (applyFieldSchema schema t name)) ∧
  (∀ name, name ∈ required' → name ∈ required ∨ ∃ f, included fields f name false).
Proof using Hsf.
  revert properties required d. induction fields as [|f fields IH]; intros properties required d; cbn [struct_fields].
  { intros [[= -> ->] ->]%gen_ret_inv Hnd. rewrite app_nil_r in Hnd. split; [done|]. split; [done|]. split; [done|].
    split; [intros ? ? ? [Hf _]; by apply elem_of_nil in Hf|auto]. }
  assert (∀ g name o, included fields g name o → included (f :: fields) g name o) as Hlater
    by (intros ? ? ? [? ?]; split; [by right|done]).
  destruct (jsonField f) as [[name o] include] eqn:Ej. cbn [included_names omap list_omap]. rewrite Ej.
  destruct include; cbn [negb].
  2: { intros Hrun Hnd. destruct (IH _ _ _ Hrun Hnd) as (Hstep & Hnd' & Hkeep & Hfields & Hreq).
       split; [done|]. split; [done|]. split; [done|]. split.
       - intros g gname go [Hg Eg]. apply elem_of_cons in Hg as [->|Hg]; [congruence|]. by apply (Hfields g gname go).
       - intros n Hn. destruct (Hreq n Hn) as [|(g & Hg)]; [by left|right; eauto]. }
  intros (schema & d1 & Hschema & Hrun)%gen_bind_inv Hnd. apply Hsf in Hschema as [Hstep1 Hschema].
  assert (name ∉ properties.*1) as Hname.
  { intros Hin. apply NoDup_app in Hnd as (_ & Hdis & _). apply (Hdis name Hin). by left. }
  assert (NoDup ((aset properties name (applyFieldSchema schema t name)).*1 ++ included_names fields)) as Hnd1.
  { apply NoDup_app in Hnd as (Hp & Hdis & [Hno Hnd]%NoDup_cons). apply NoDup_app. split; [by apply aset_NoDup|].
    split; [|done]. intros n [->|Hn]%aset_keys; [done|]. intros Hin. apply (Hdis n Hn). by right. }
  destruct (IH _ _ _ Hrun Hnd1) as (Hstep & Hnd' & Hkeep & Hfields & Hreq).
  split; [by etrans|]. split; [done|]. split; [|split].
  - intros n s Hs. apply Hkeep. rewrite aget_set_ne; [done|]. intros <-. apply Hname, aget_is_Some. by rewrite Hs.
  - intros g gname go [Hg Eg]. apply elem_of_cons in Hg as [->|Hg]; [|by apply (Hfields g gname go)].
    rewrite Ej in Eg. injection Eg as <- <-. exists schema. split; [eapply schema_of_mono; [apply Hstep|done]|].
    apply Hkeep, aget_set_eq.
  - intros n Hn. destruct (Hreq n Hn) as [Hn'|(g & Hg)]; [|right; eauto].
    destruct o; [by left|]. apply elem_of_app in Hn' as [|Hn'%list_elem_of_singleton]; [by left|right]. subst n.
    exists f. split; [by left|done].
Qed.
End fields.

Context {Hwell : WellDeclared}.

(** Defining a struct that is not defined yet. *)
Lemma define_struct d d1 t fields properties required :
  under t = inr fields → aget d (definitionName generator t) = None →
  step_ok (aset d (definitionName generator t) (VMap [])) d1 →
  describes generator d1 t fields properties required →
  step_ok d (aset d1 (definitionName generator t) (definition_of properties required)).
Proof using Hwell.
  intros Ht Hnone [Hg Hc] Hds. set (name := definitionName generator t) in *.
  split; [etrans; [apply (grows_aset d name (VMap []))|etrans; [exact Hg|apply grows_aset]]|].
  intros pending Hpending.
  assert (complete generator d1 (name :: pending)) as H1.
  { apply Hc. intros t' fields' definition Ht'. rewrite aget_set. destruct (String.eqb_spec name (definitionName generator t')) as [<-|Hne].
    - intros _. left. by left.
    - intros Hget. destruct (Hpending t' fields' definition Ht' Hget) as [|(ps & rs & Hd & Hp)]; [left; by right|right].
      exists ps, rs. split; [done|]. eapply describes_mono; [apply grows_aset|done]. }
  intros t' fields' definition Ht'. rewrite aget_set. destruct (String.eqb_spec name (definitionName generator t')) as [Heq|Hne].
  - intros [= <-]. right. exists properties, required. split; [done|].
    assert (t = t') as <- by (by apply (wd_names _ _ fields fields')).
    rewrite Ht in Ht'. injection Ht' as <-. eapply describes_mono; [apply grows_aset|done].
  - intros Hget. destruct (H1 t' fields' definition Ht' Hget) as [[Heq|Hin]%elem_of_cons|(ps & rs & Hd & Hp)];
      [by destruct Hne|by left|right].
    exists ps, rs. split; [done|]. eapply describes_mono; [apply grows_aset|done].
Qed.

Lemma schemaFor_spec fuel : ∀ t path d schema d',
  schemaFor generator fuel t path d = Some (inr schema, d') → step_ok d d' ∧ schema_of generator d' t schema.
Proof using Hwell.
  induction fuel as [|fuel IH]; intros t path d schema d'; cbn [schemaFor]; [done|]. cbv zeta.
  case_bool_decide as Ht; [intros [-> ->]%gen_ret_inv; split; [done|by apply so_time]|].
  destruct (type_index _ _) as [values|] eqn:Ei; [intros [-> ->]%gen_ret_inv; split; [done|by apply so_enum]|].
  assert (∀ k, under (strip_pointers t) = k → plain generator t k) as Hplain by done.
  destruct (under (strip_pointers t)) as [kind|fields] eqn:Eu.
  - destruct kind as [pkg name|b| |elem|elem|n elem|key elem|k]; try discriminate.
    + destruct (basic_schema b) as [s|] eqn:Eb; [|discriminate]. intros [-> ->]%gen_ret_inv.
      split; [done|]. by eapply so_basic; [apply Hplain|].
    + intros [-> ->]%gen_ret_inv. split; [done|]. by apply so_interface, Hplain.
    + intros (items & d1 & [Hstep Hs]%IH & [-> ->]%gen_ret_inv)%gen_bind_inv. split; [done|]. by eapply so_slice; [apply Hplain|].
    + intros (items & d1 & [Hstep Hs]%IH & [-> ->]%gen_ret_inv)%gen_bind_inv. split; [done|]. by eapply so_array; [apply Hplain|].
    + destruct (negb _); [discriminate|].
      intros (values & d1 & [Hstep Hs]%IH & [-> ->]%gen_ret_inv)%gen_bind_inv. split; [done|]. by eapply so_map; [apply Hplain|].
  - set (name := definitionName generator (strip_pointers t)).
    intros (? & ? & [= <- <-] & (? & d1 & Hdef & [-> ->]%gen_ret_inv)%gen_bind_inv)%gen_bind_inv.
    assert (step_ok d d1 ∧ is_Some (aget d1 name)) as [Hstep Hname];
      [|split; [done|by eapply (so_struct _ _ t); [apply Hplain|]]].
    destruct (aget d name) as [old|] eqn:Eold; cbn [is_nil] in Hdef.
    { apply gen_ret_inv in Hdef as [_ ->]. split; [done|eauto]. }
    apply gen_bind_inv in Hdef as (? & ? & [= <- <-] & (definition & d2 & Hstruct & Hset)%gen_bind_inv).
    apply gen_bind_inv in Hstruct as ([properties required] & ? & Hfields & [-> ->]%gen_ret_inv).
    injection Hset as _ <-. split; [|rewrite aget_set_eq; eauto].
    apply (struct_fields_spec _ IH) in Hfields as (Hstep & Hnd & _ & Hds & Hreq); [|by eapply wd_fields].
    apply (define_struct _ _ _ fields); [done..|]. split; [done|done|].
    intros n Hn. destruct (Hreq n Hn) as [Hn'|Hf]; [by apply elem_of_nil in Hn'|done].
Qed.

Lemma result_branches_spec fuel catalog kinds d branches d' :
  result_branches generator fuel catalog kinds d = Some (inr branches, d') →
  step_ok d d' ∧ Forall2 (λ kind branch, ∃ schema,
    schema_of generator d' (deref (TOther "invalid") (aget catalog kind)) schema ∧
    branch = VMap [("required", strings ["kind"; "data"]);
                   ("properties", VMap [("kind", VMap [("const", VString kind)]); ("data", schema)])]) kinds branches.
Proof using Hwell.
  revert d branches. induction kinds as [|kind kinds IH]; intros d branches; cbn [result_branches].
  { intros [-> ->]%gen_ret_inv. split; [done|constructor]. }
  intros (schema & d1 & Hschema & (rest & d2 & Hrest & [-> ->]%gen_ret_inv)%gen_bind_inv)%gen_bind_inv.
  destruct (schemaFor _ _ _ _ d) as [[[err|s] d0]|] eqn:E; [discriminate| |discriminate]. injection Hschema as -> ->.
  apply schemaFor_spec in E as [Hstep Hs]. apply IH in Hrest as [Hstep' Hbranches].
  split; [by etrans|]. constructor; [|done]. exists schema. split; [|done]. eapply schema_of_mono; [apply Hstep'|done].
Qed.
End generated.

(** ** The result schema *)

Lemma one_of_unique (kind : string) kinds :
  NoDup kinds → kind ∈ kinds → one_of ((λ k, Some (bool_decide (k = kind))) <$> kinds) = Some true.
Proof.
  intros Hnd Hin. unfold one_of. assert (existsb (@is_nil bool) ((λ k, Some (bool_decide (k = kind))) <$> kinds) = false) as ->
    by (clear; by induction kinds). f_equal. apply Nat.eqb_eq.
  induction Hnd as [|k kinds Hk Hnd IH]; [by apply elem_of_nil in Hin|]. cbn.
  destruct (decide (k = kind)) as [->|Hne].
  - rewrite (bool_decide_eq_true_2 (kind = kind)) by done. cbn. f_equal. clear -Hk. induction kinds as [|k kinds IH]; [done|].
    apply not_elem_of_cons in Hk as [Hne Hk]. cbn. rewrite (bool_decide_eq_false_2 (k = kind)) by congruence. cbn. by apply IH.
  - rewrite (bool_decide_eq_false_2 (k = kind)) by done. cbn. apply IH. apply elem_of_cons in Hin as [|]; congruence.
Qed.

Section result.
Context `{GoTypes} (generator : schemaGenerator) (D : list (string * value)).
Context (kind : string) (metadata data : value).

(** The envelope, with its parts encoded. *)
Definition envelope_entries : list (string * value) :=
  [("apiVersion", VString machineAPIVersion); ("kind", VString kind); ("metadata", metadata); ("data", data)].

Lemma branch_decided k schema :
  (k = kind → accepts D schema data) →
  decides D (bool_decide (k = kind))
    (VMap [("required", strings ["kind"; "data"]);
           ("properties", VMap [("kind", VMap [("const", VString k)]); ("data", schema)])]) (VMap envelope_entries).
Proof using Type.
  intros Hk. case_bool_decide as E.
  - subst k. apply accepts_map. repeat apply Forall_cons_2; try apply Forall_nil_2; cbn [fst snd].
    + apply holds_required. repeat apply Forall_cons_2; try apply Forall_nil_2; by set_solver.
    + apply holds_properties. intros p x Hp Hx. apply elem_of_cons in Hp as [->|Hp%list_elem_of_singleton]; [|subst p].
      * cbn in Hx. injection Hx as <-. apply accepts_map, Forall_singleton. by apply same_text_holds.
      * cbn in Hx. injection Hx as <-. by apply Hk.
  - exists 3%nat. intros [|[|[|m]]] Hm; [lia..|]. cbn [validate]. apply all3_false, elem_of_cons. right.
    apply list_elem_of_singleton. cbn [fst snd]. symmetry. apply (all3_false (omap _ _)), elem_of_cons. left. cbn. apply String.eqb_neq in E.
    rewrite String.eqb_sym in E. by rewrite E.
Qed.

Lemma oneOf_holds siblings kinds branches :
  NoDup kinds → kind ∈ kinds →
  Forall2 (λ k branch, ∃ schema, (k = kind → accepts D schema data) ∧
    branch = VMap [("required", strings ["kind"; "data"]);
                   ("properties", VMap [("kind", VMap [("const", VString k)]); ("data", schema)])]) kinds branches →
  holds D siblings "oneOf" (VList branches) (VMap envelope_entries).
Proof using Type.
  intros Hnd Hin Hall.
  assert (Forall2 (λ k branch, decides D (bool_decide (k = kind)) branch (VMap envelope_entries)) kinds branches) as Hd.
  { eapply Forall2_impl; [exact Hall|]. intros k branch (schema & Hk & ->). by apply branch_decided. }
  assert (∃ n, ∀ m, (n ≤ m)%nat →
            (λ branch, validate D m branch (VMap envelope_entries)) <$> branches = (λ k, Some (bool_decide (k = kind))) <$> kinds)
    as (n & Hn).
  { clear Hall Hnd Hin. induction Hd as [|k branch kinds branches (n & Hn) _ (n' & Hn')]; [by exists 0%nat|].
    exists (n `max` n')%nat. intros m Hm. cbn. rewrite Hn, Hn' by lia. done. }
  exists n. intros m Hm. change (one_of ((λ schema, validate D m schema (VMap envelope_entries)) <$> branches) = Some true).
  rewrite (Hn m Hm). by apply one_of_unique.
Qed.
End result.


(** ** The declarations of the program *)

Definition declared_structs `{GoTypes} : list (GoType * list StructField) :=
  omap (λ d, match d.2 with DefStruct fields => Some (TDefined d.1.1 d.1.2, fields) | DefType _ => None end) type_table.

Lemma declared_struct `{GoTypes} t fields : under t = inr fields → (t, fields) ∈ declared_structs.
Proof.
  destruct t as [pkg name| | | | | | |]; try done. cbn. unfold type_def.
  destruct (find_first _ _) as [d|] eqn:E; [|done]. apply find_first_Some in E as [Hd [Hp Hn]%andb_true_iff].
  apply String.eqb_eq in Hp, Hn. intros Hf. apply list_elem_of_omap. exists d. split; [done|].
  destruct d as [[p n] def]; cbn in *; subst p n. destruct def; [by injection Hf as ->|done].
Qed.

Lemma NoDup_fmap_elem {A} (f : A → string) l x y : NoDup (f <$> l) → x ∈ l → y ∈ l → f x = f y → x = y.
Proof.
  induction l as [|z l IH]; [by intros _ ?%elem_of_nil|]. cbn. intros [Hz Hnd]%NoDup_cons Hx Hy Hf.
  apply elem_of_cons in Hx as [->|Hx], Hy as [->|Hy]; [done| | |by apply IH].
  - exfalso. apply Hz. rewrite Hf. by apply list_elem_of_fmap_2.
  - exfalso. apply Hz. rewrite <- Hf. by apply list_elem_of_fmap_2.
Qed.

(** Checked on the table. *)
Lemma well_declared `{GoTypes} generator :
  NoDup ((λ d, definitionName generator d.1) <$> declared_structs) →
  Forall (λ d, NoDup (included_names d.2)) declared_structs → WellDeclared generator.
Proof.
  intros Hnames Hfields. split.
  - intros t t' fields fields' Ht%declared_struct Ht'%declared_struct Heq.
    assert ((t, fields) = (t', fields')) as [= ->]; [|done].
    by apply (NoDup_fmap_elem (λ d, definitionName generator d.1) declared_structs).
  - intros t fields Ht%declared_struct. rewrite Forall_forall in Hfields. by apply (Hfields (t, fields)).
Qed.

#[export] Instance program_well_declared : @WellDeclared program_types generator.
Proof. apply well_declared; apply (bool_decide_unpack _); vm_compute; exact I. Qed.

(** The schema of the program; 20 is more than its types nest. *)
Definition program_result : option ((string + value) * defs) :=
  @resultSchema program_types generator 20 MachineSchemaCatalog metadataType [].

Definition program_schema : value := match program_result with Some (inr schema, _) => schema | _ => VNull end.
Definition program_definitions : defs := match program_result with Some (_, d) => d | None => [] end.

Lemma program_generated :
  @resultSchema program_types generator 20 MachineSchemaCatalog metadataType [] =
  Some (inr program_schema, program_definitions).
Proof. vm_compute. reflexivity. Qed.

Definition sample_metadata : GoValue :=
  GStruct [GString "request-1"; GString "2026-07-13T12:34:56Z"; GInterface (VNumber "7"); GList []].

Definition sample_remove : GoValue :=
  GStruct [GInt 3; GInt 2; GList [GString "config"]; GString "ACCEPTED"; GString "UNVERIFIED"; GInt 0; GBool false].


(** ** Documents the schema refuses *)

Definition document_refused (schema document : value) : Prop :=
  decides (definitions schema) false schema document.

Section refused.
Context (D : list (string * value)).

Definition fails (siblings : list (string * value)) (k : string) (a x : value) : Prop :=
  ∃ n, ∀ m, (n ≤ m)%nat → keyword D (validate D m) siblings k a x = Some false.

Lemma refuses_map kws k a x : (k, a) ∈ kws → fails kws k a x → decides D false (VMap kws) x.
Proof using Type.
  intros Hk (n & Hn). exists (S n). intros [|m] Hm; [lia|]. cbn [validate].
  apply all3_false, list_elem_of_fmap. exists (k, a). cbn. split; [symmetry; apply Hn; lia|done].
Qed.

Lemma refuses_ref name s x :
  aget D name = Some s → decides D false s x → decides D false (VMap [("$ref", VString ("#/$defs/" +:+ name))]) x.
Proof using Type.
  intros Hs (n & Hn). eapply refuses_map; [by left|]. exists n. intros m Hm.
  change (keyword D (validate D m) ?sib "$ref" (VString ("#/$defs/" +:+ name)) x)
    with (if HasPrefix ("#/$defs/" +:+ name) "#/$defs/"
          then aget D (TrimPrefix ("#/$defs/" +:+ name) "#/$defs/") ≫= λ schema, validate D m schema x else None).
  rewrite HasPrefix_app, TrimPrefix_app, Hs. cbn. by apply Hn.
Qed.

Lemma refuses_property kws properties name schema fields x :
  ("properties", VMap properties) ∈ kws → (name, schema) ∈ properties → aget fields name = Some x →
  decides D false schema x → decides D false (VMap kws) (VMap fields).
Proof using Type.
  intros Hkw Hp Hx (n & Hn). eapply refuses_map; [exact Hkw|]. exists n. intros m Hm.
  apply (all3_false (omap (λ p, validate D m p.2 <$> aget fields p.1) properties)).
  apply list_elem_of_omap. exists (name, schema). split; [done|]. cbn. rewrite Hx. cbn. f_equal. by apply Hn.
Qed.

Lemma refuses_now kws k a x : (k, a) ∈ kws → (∀ rec, keyword D rec kws k a x = Some false) → decides D false (VMap kws) x.
Proof using Type. intros Hk Hf. eapply refuses_map; [exact Hk|]. exists 0%nat. intros m _. apply Hf. Qed.
End refused.

Lemma one_of_none l : Forall (λ o, o = Some false) l → one_of l = Some false.
Proof.
  intros Hl. unfold one_of. replace (existsb is_nil l) with false by (induction Hl as [|o l -> _ IH]; done).
  f_equal. assert (List.filter (λ o, bool_decide (o = Some true)) l = []) as ->; [|done].
  induction Hl as [|o l -> _ IH]; [done|]. cbn. exact IH.
Qed.

Lemma resultSchema_complete `{GoTypes} generator {Hwell : WellDeclared generator} fuel catalog metadataType schema d :
  resultSchema generator fuel catalog metadataType [] = Some (inr schema, d) → complete generator d [].
Proof.
  unfold resultSchema. intros (ms & d1 & Hm & (branches & d2 & Hb & Hret)%gen_bind_inv)%gen_bind_inv.
  apply gen_bind_inv in Hret as (? & ? & [= <- <-] & [_ ->]%gen_ret_inv).
  apply (schemaFor_spec generator) in Hm as [[_ Hc1] _]. apply (result_branches_spec generator) in Hb as [[_ Hc2] _].
  apply Hc2, Hc1. intros ? ? ? _. discriminate.
Qed.

(** A document whose data the schema of its kind refuses. *)
Lemma resultSchema_refuses `{GoTypes} generator {Hwell : WellDeclared generator} fuel catalog metadataType schema d
    kind t metadata data :
  resultSchema generator fuel catalog metadataType [] = Some (inr schema, d) → aget catalog kind = Some t →
  (∀ s, schema_of generator d t s → decides d false s (encode t data)) →
  document_refused schema (envelope kind (metadataType, metadata) (t, data)).
Proof.
  unfold resultSchema. intros (ms & d1 & Hm & (branches & d2 & Hb & Hret)%gen_bind_inv)%gen_bind_inv Hkind Hdata.
  apply gen_bind_inv in Hret as (? & ? & [= <- <-] & [-> ->]%gen_ret_inv).
  apply (result_branches_spec generator) in Hb as [_ Hb].
  unfold document_refused, definitions. cbn [aget String.eqb Ascii.eqb Bool.eqb].
  set (entries := envelope_entries kind (encode metadataType metadata) (encode t data)).
  change (envelope kind (metadataType, metadata) (t, data)) with (VMap entries).
  apply (refuses_map _ _ "oneOf" (VList branches)); [repeat (first [by left|right])|].
  assert (∃ n, ∀ m, (n ≤ m)%nat → Forall (λ branch, validate d2 m branch (VMap entries) = Some false) branches) as (n & Hn).
  { apply eventually_Forall. clear -Hb Hkind Hdata. induction Hb as [|k branch kinds branches (s & Hs & ->) _ IH]; [done|].
    constructor; [|done]. destruct (decide (k = kind)) as [->|Hne].
    - rewrite Hkind in Hs. apply (refuses_property _ _ [("kind", VMap [("const", VString kind)]); ("data", s)] "data" s _ (encode t data)).
      + right. by left.
      + right. by left.
      + done.
      + by apply Hdata.
    - destruct (branch_decided d2 kind (encode metadataType metadata) (encode t data) k s) as (n & Hn); [done|].
      exists n. intros m Hfuel. etrans; [exact (Hn m Hfuel)|by rewrite bool_decide_eq_false_2]. }
  exists n. intros m Hfuel. change (one_of ((λ schema, validate d2 m schema (VMap entries)) <$> branches) = Some false).
  apply one_of_none, Forall_fmap. exact (Hn m Hfuel).
Qed.

(** ** Lemmas: the schema of a type, by the type *)

Section by_type.
Context `{GoTypes} (generator : schemaGenerator) (D : list (string * value)) (Hcomplete : complete generator D []).

Lemma schema_of_enum t values s :
  strip_pointers t ≠ time_type → type_index (sgEnums generator) (strip_pointers t) = Some values →
  schema_of generator D t s → s = VMap [("type", VString "string"); ("enum", strings values)].
Proof using Type.
  intros Ht Hi Hs.
  inversion Hs as [Hne|values' _ Hi'|(_ & Hne & _)|? ? (_ & Hne & _)|? ? (_ & Hne & _)|? ? ? (_ & Hne & _)|? ? ? (_ & Hne & _)
                  |? (_ & Hne & _)]; subst; congruence.
Qed.

Lemma schema_of_slice t elem s :
  plain generator t (inl (TSlice elem)) → schema_of generator D t s → ∃ items, s = VMap [("type", VString "array"); ("items", items)].
Proof using Type.
  intros (Ht & Hi & Hu) Hs.
  inversion Hs as [Hne|values' _ Hi'|(_ & _ & Hu')|? ? (_ & _ & Hu')|? ? (_ & _ & Hu')|? ? ? (_ & _ & Hu')|? ? ? (_ & _ & Hu')
                  |? (_ & _ & Hu')]; subst; try congruence; eauto.
Qed.

Lemma schema_of_ref t fields s :
  plain generator t (inr fields) → schema_of generator D t s → s = ref_schema generator (strip_pointers t).
Proof using Type.
  intros (Ht & Hi & Hu) Hs.
  inversion Hs as [Hne|values' _ Hi'|(_ & _ & Hu')|? ? (_ & _ & Hu')|? ? (_ & _ & Hu')|? ? ? (_ & _ & Hu')|? ? ? (_ & _ & Hu')
                  |? (_ & _ & Hu')]; subst; try congruence; eauto.
Qed.

(** A struct is refused when a field is. *)
Lemma struct_refused t fields f name o entries x :
  plain generator t (inr fields) → included fields f name o →
  is_Some (aget D (definitionName generator (strip_pointers t))) → aget entries name = Some x →
  (∀ s, schema_of generator D (sfType f) s →
     decides D false (applyFieldSchema s (strip_pointers t) name) x) →
  ∀ s, schema_of generator D t s → decides D false s (VMap entries).
Proof using Hcomplete.
  intros Hp Hf [definition HD] Hx Hd s ->%(schema_of_ref _ fields); [|done].
  destruct (Hcomplete (strip_pointers t) fields definition (proj2 (proj2 Hp)) HD) as [Hn|(ps & required & -> & Hds)];
    [by apply elem_of_nil in Hn|].
  destruct (ds_field _ _ _ _ _ _ Hds f name o Hf) as (schema & Hs & Hget). eapply refuses_ref; [exact HD|].
  eapply (refuses_property _ _ ps name); [|by apply aget_Some_elem|done|by apply Hd].
  unfold definition_of. destruct (is_nil _); repeat (first [by left|right]).
Qed.

End by_type.

(** ** Two documents the program prints against its own schema *)

Definition target_value (target : Target) : GoValue :=
  GStruct [GString (tContext target); GString (tNamespace target); GString (tScope target);
           match tGroup target with Some n => GPointer (GInt n) | None => GNil end; GString (tMember target)].

Definition dsn_value (data : DSNData) : GoValue :=
  GStruct [target_value (ddTarget data); GString (ddMember data); GString (Role_text (ddRole data));
           GString (ddHost data); GInt (ddPort data)].

Definition QueryErrorKind_text (kind : QueryErrorKind) : string :=
  match kind with
  | QueryErrorNoConnection => "NO_CONNECTION" | QueryErrorDatabase => "DATABASE"
  | QueryErrorRoleMismatch => "ROLE_MISMATCH"
  end.

(** The data of [compatibleQueryError]: [Result] is not set. *)
Definition query_error_value (data : QueryData) : GoValue :=
  GStruct [target_value (qdTarget data); GString (qdMember data);
           @zero_value program_types 3 (TDefined postgres_package "QueryResult");
           match qdError data with
           | Some e => GPointer (GStruct [GString (QueryErrorKind_text (qeKind e)); GString (qeSQLState e); GString (qeMessage e)])
           | None => GNil
           end].

Section program.
#[local] Existing Instance program_types.

Lemma program_complete : complete generator program_definitions [].
Proof using Type. exact (resultSchema_complete generator _ _ _ _ _ program_generated). Qed.

(** The document of a connection string found by member name has an empty role,
    which is none of the roles of the schema. *)
Lemma dsn_refused data metadata :
  ddRole data = RoleRaw "" →
  document_refused program_schema
    (envelope "DSN" (metadataType, metadata) (TDefined control_package "DSNData", dsn_value data)).
Proof using Type.
  intros Hrole. eapply (resultSchema_refuses generator); [exact program_generated|reflexivity|].
  eapply (struct_refused _ _ program_complete _ _ (field "Role" (TDefined control_package "Role") "role") "role" false
            _ (VString (Role_text (ddRole data)))); [by repeat split|split; [|reflexivity]|..].
  - vm_compute. repeat (first [by left|right]).
  - vm_compute. by eexists.
  - reflexivity.
  - intros s ->%(schema_of_enum _ _ _ ["leader"; "primary"; "standby-leader"; "replica"; "standby"; "any"]); [|done|reflexivity].
    rewrite Hrole. exists 1%nat. intros [|m] Hm; [lia|reflexivity].
Qed.

(** A result that is not set has no array of sets, but [null]. *)
Lemma unset_result_refused s :
  schema_of generator program_definitions (TDefined postgres_package "QueryResult") s →
  decides program_definitions false s
    (encode (TDefined postgres_package "QueryResult") (@zero_value program_types 3 (TDefined postgres_package "QueryResult"))).
Proof using Type.
  eapply (struct_refused _ _ program_complete _ _ (field "Sets" (TSlice (TDefined postgres_package "ResultSet")) "sets")
            "sets" false _ VNull); [by repeat split|split; [|reflexivity]|..].
  - vm_compute. repeat (first [by left|right]).
  - vm_compute. by eexists.
  - reflexivity.
  - intros s' [items ->]%(schema_of_slice _ _ _ (TDefined postgres_package "ResultSet")); [|by repeat split].
    eapply (refuses_now _ _ "type" (VString "array")); [by left|done].
Qed.

Lemma query_error_refused data metadata :
  document_refused program_schema
    (envelope "QueryResult" (metadataType, metadata) (TDefined control_package "QueryData", query_error_value data)).
Proof using Type.
  eapply (resultSchema_refuses generator); [exact program_generated|reflexivity|].
  eapply (struct_refused _ _ program_complete _ _ (field "Result" (TDefined postgres_package "QueryResult") "result")
            "result" false _ (encode (TDefined postgres_package "QueryResult")
                                (@zero_value program_types 3 (TDefined postgres_package "QueryResult")))); [by repeat split|split; [|reflexivity]|..].
  - vm_compute. repeat (first [by left|right]).
  - vm_compute. by eexists.
  - destruct data as [target [|c member] result err]; reflexivity.
  - intros s Hs. assert (applyFieldSchema s (strip_pointers (TDefined control_package "QueryData")) "result" = s) as ->;
      [|by apply unset_result_refused].
    destruct (schema_of_shape _ _ _ _ Hs) as [->|[kws ->]]; reflexivity.
Qed.
End program.

Section handlers.
Context `{GoStd} (service : Service).

Lemma returns_any {A} (p : prog A) : returns p (λ _, True).
Proof using Type. induction p as [a|c k IH]; [done|]. intros r. apply IH. Qed.

(** A connection string found by member name carries no role. *)
Lemma DSN_member_role ctx request name :
  member_selector (Normalize (dsnTarget request)) (dsnMember request) = Some name → name ≠ "" →
  returns (DSN service ctx request) (λ r, rOutcome r = Succeeded → ddRole (rData r) = RoleRaw "").
Proof using Type.
  intros Hname Hne%String.eqb_neq. unfold DSN.
  eapply returns_bind; [eapply wp_all_returns, operationID_spec|]. intros id _. cbv zeta. rewrite Hname.
  destruct (negb ctx); [done|]. destruct (Target_Validate _ _); [done|]. destruct (Role_validOrEmpty _) eqn:Ev; [|done].
  rewrite Hne. cbn [negb andb]. rewrite andb_true_r. destruct (Role_empty (dsnRole request)) eqn:Er; [|done]. cbn [negb].
  eapply returns_bind; [apply returns_any|]. intros [failure|[snapshots evidence]] _; [by destruct failure|].
  destruct (selectMemberAcrossSnapshots _ _ _) as [[s m]|]; [|done].
  destruct (postgresAddress _) as [[host port] err]. destruct (negb _); [done|]. intros _.
  unfold selected_role. rewrite Er, Hne. cbn. destruct (dsnRole request) as [| | | | | |text]; try discriminate Er.
  by apply String.eqb_eq in Er as ->.
Qed.

(** Whenever [dsn] finds a connection string by member name, what it prints for
    machines is refused by the schema published for it. *)
Theorem DSN_member_breaks_schema ctx request name metadata :
  member_selector (Normalize (dsnTarget request)) (dsnMember request) = Some name → name ≠ "" →
  returns (DSN service ctx request) (λ r, rOutcome r = Succeeded →
    document_refused program_schema
      (@envelope program_types "DSN" (metadataType, metadata) (TDefined control_package "DSNData", dsn_value (rData r)))).
Proof using Type.
  intros Hname Hne. eapply returns_mono; [|by apply (DSN_member_role _ _ name)]. intros r Hr Hok. by apply dsn_refused, Hr.
Qed.

(** So is the document of a query that the server refused, or that found no
    member: its result has [null] for its sets. *)
Theorem query_error_breaks_schema id target member kind state message evidence metadata :
  document_refused program_schema
    (@envelope program_types "QueryResult" (metadataType, metadata)
       (TDefined control_package "QueryData",
        query_error_value (rData (compatibleQueryError service id target member kind state message evidence)))).
Proof using Type. apply query_error_refused. Qed.
End handlers.

(** A member of the small cluster, by name. *)
Example DSN_member_breaks_schema_run :
  let r := Effects.run (ReadsLaws.pg_oracle []) [] (@DSN ReadsLaws.pg_std sample_service true (mkDSNRequest sample_target (RoleRaw "") "n1" false false)) in
  rOutcome r.2 = Succeeded ∧
  validate program_definitions 30 program_schema
    (@envelope program_types "DSN" (metadataType, sample_metadata) (TDefined control_package "DSNData", dsn_value (rData r.2)))
  = Some false.
Proof. vm_compute. split; reflexivity. Qed.

(** ** What the tool writes passes its check *)

Lemma append_cons c s t : String c s +:+ t = String c (s +:+ t).
Proof. done. Qed.

(** The elements of a clean path, last first: [..] only below everything else. *)
Inductive settled (rooted : bool) : list string → Prop :=
| settled_nil : settled rooted []
| settled_cons e acc :
    e ≠ "" → e ≠ "." → lacks "/" e → (e = ".." → rooted = false ∧ Forall (eq "..") acc) →
    settled rooted acc → settled rooted (e :: acc).

Lemma clean_elements_settled rooted elements acc :
  Forall (lacks "/") elements → settled rooted acc → settled rooted (clean_elements rooted acc elements).
Proof.
  intros He. revert acc. induction He as [|e elements Hl He IH]; intros acc Hd; [done|]. cbn [clean_elements].
  destruct (String.eqb_spec e "") as [|Hne]; [by apply IH|]. destruct (String.eqb_spec e ".") as [|Hnd]; [by apply IH|].
  destruct (String.eqb_spec e "..") as [->|Hdd]; [|by apply IH; constructor].
  destruct Hd as [|top below Ht1 Ht2 Ht3 Ht4 Hb].
  - apply IH. destruct rooted; repeat constructor; done.
  - destruct (String.eqb_spec top "..") as [->|Htd]; [|by apply IH]. apply IH. destruct (Ht4 eq_refl) as [-> Hall].
    by repeat constructor.
Qed.

Lemma clean_elements_id rooted elements acc :
  settled rooted (reverse elements ++ acc) → clean_elements rooted acc elements = reverse elements ++ acc.
Proof.
  revert acc. induction elements as [|e elements IH]; intros acc Hs; [done|].
  rewrite reverse_cons, <- app_assoc in Hs |- *. cbn [app] in Hs |- *. specialize (IH (e :: acc) Hs).
  assert (settled rooted (e :: acc)) as He.
  { clear IH. induction (reverse elements) as [|x l IHl]; [done|]. inversion Hs; subst. by apply IHl. }
  inversion He as [|? ? Hne Hnd Hl Hdd Hd]; subst. cbn [clean_elements].
  rewrite (proj2 (String.eqb_neq _ _) Hne), (proj2 (String.eqb_neq _ _) Hnd). cbn [orb].
  destruct (String.eqb_spec e "..") as [->|]; [|done]. destruct (Hdd eq_refl) as [-> Hall].
  destruct Hall as [|top below <- _]; [done|]. cbn. done.
Qed.

Lemma clean_elements_app rooted l k acc :
  clean_elements rooted acc (l ++ k) = clean_elements rooted (clean_elements rooted acc l) k.
Proof.
  revert acc. induction l as [|e l IH]; intros acc; [done|]. cbn [clean_elements app].
  repeat case_match; by rewrite ?IH.
Qed.

Lemma settled_lacks rooted l : settled rooted l → Forall (lacks "/") l.
Proof. induction 1; by constructor. Qed.

(** The text of a clean path with these elements. *)
Definition path_text (rooted : bool) (acc : list string) : string :=
  if rooted then "/" +:+ Join (reverse acc) "/" else if is_nil (head acc) then "." else Join (reverse acc) "/".

Lemma rooted_cons c s : HasPrefix (String c s) "/" = Ascii.eqb "/" c.
Proof.
  unfold HasPrefix. cbn -[ascii_dec Ascii.eqb]. destruct (ascii_dec "/" c) as [<-|Hne].
  - rewrite Ascii.eqb_refl. by destruct s.
  - by apply Ascii.eqb_neq in Hne as ->.
Qed.

(** The first element of a relative path starts it. *)
Lemma settled_first rooted acc : settled rooted acc → acc ≠ [] →
  ∃ c s, Join (reverse acc) "/" = String c s ∧ "/"%char ≠ c.
Proof.
  intros Hs Hne. destruct (reverse acc) as [|e l] eqn:E; [by apply (f_equal reverse) in E; rewrite reverse_involutive in E|].
  assert (e ∈ acc) as He by (rewrite <- elem_of_reverse, E; by left).
  assert (e ≠ "" ∧ lacks "/" e) as [H1 H2].
  { clear E Hne. induction Hs; [by apply elem_of_nil in He|]. apply elem_of_cons in He as [->|He]; auto. }
  destruct e as [|c e]; [done|]. apply lacks_cons in H2 as [H2 _].
  exists c. destruct l as [|y l]; [by exists e|]. rewrite Join_cons. by eexists.
Qed.

Lemma Clean_text path :
  ∃ rooted acc, settled rooted acc ∧ filepath_Clean path = path_text rooted acc ∧
    rooted = HasPrefix path "/" ∧ acc = clean_elements rooted [] (Split "/" path).
Proof.
  set (rooted := HasPrefix path "/"). set (acc := clean_elements rooted [] (Split "/" path)).
  assert (settled rooted acc) as Hs by (apply clean_elements_settled; [apply Split_lacks|constructor]).
  exists rooted, acc. split_and!; [done| |done|done]. unfold filepath_Clean. fold rooted acc. unfold path_text.
  destruct rooted; [done|]. destruct acc as [|e l] eqn:E; [done|]. cbn [head is_nil].
  destruct (settled_first _ _ Hs ltac:(done)) as (c & s & -> & _). done.
Qed.

Lemma Clean_path_text rooted acc : settled rooted acc → filepath_Clean (path_text rooted acc) = path_text rooted acc.
Proof.
  intros Hs. destruct (decide (acc = [])) as [->|Hne]; [by destruct rooted|].
  assert (Split "/" (Join (reverse acc) "/") = reverse acc) as Hsplit.
  { apply Split_Join; [|by intros H%(f_equal reverse); rewrite reverse_involutive in H].
    rewrite Forall_reverse. by eapply settled_lacks. }
  assert (clean_elements rooted [] (reverse acc) = acc) as Hclean.
  { rewrite clean_elements_id; rewrite reverse_involutive, app_nil_r; done. }
  destruct (settled_first _ _ Hs Hne) as (c & s & Ej & Hc). unfold path_text.
  destruct rooted; unfold filepath_Clean.
  - replace (HasPrefix ("/" +:+ Join (reverse acc) "/") "/") with true by (by rewrite HasPrefix_app).
    change ("/" +:+ Join (reverse acc) "/") with ("" +:+ String "/" (Join (reverse acc) "/")) at 1.
    rewrite Split_app, Hsplit by done. change (clean_elements true [] ("" :: reverse acc)) with (clean_elements true [] (reverse acc)).
    by rewrite Hclean.
  - destruct acc as [|e l]; [done|]. cbn [head is_nil]. rewrite Hsplit, Ej, rooted_cons, (proj2 (Ascii.eqb_neq _ _) Hc), Hclean, Ej.
    done.
Qed.

Lemma Clean_Clean path : filepath_Clean (filepath_Clean path) = filepath_Clean path.
Proof. destruct (Clean_text path) as (rooted & acc & Hs & -> & _). by apply Clean_path_text. Qed.

Lemma Split_app_any sep p t : Split sep (p +:+ String sep t) = Split sep p ++ Split sep t.
Proof.
  induction p as [|c p IH]; [by rewrite (Split_app sep "")|]. rewrite append_cons. cbn [Split]. rewrite IH.
  destruct (Ascii.eqb c sep); [done|]. destruct (Split sep p) eqn:E; [by apply Split_not_nil in E|done].
Qed.

Lemma Clean_slash p : p ≠ "" → filepath_Clean (p +:+ "/") = filepath_Clean p.
Proof.
  intros Hp. unfold filepath_Clean. rewrite Split_app_any.
  replace (HasPrefix (p +:+ "/") "/") with (HasPrefix p "/")
    by (destruct p; [done|]; by rewrite append_cons, !rooted_cons).
  by rewrite clean_elements_app.
Qed.

Lemma Clean_not_empty p : filepath_Clean p ≠ "".
Proof.
  destruct (Clean_text p) as (rooted & acc & Hs & -> & _). unfold path_text. destruct rooted; [done|].
  destruct acc as [|e l] eqn:E; [done|]. cbn [head is_nil]. by destruct (settled_first _ _ Hs ltac:(done)) as (? & ? & -> & _).
Qed.

Lemma Join_last l n sep : l ≠ [] → Join (l ++ [n]) sep = Join l sep +:+ sep +:+ n.
Proof.
  induction l as [|x l IH]; [done|]. intros _. destruct l as [|y l]; [done|].
  cbn [app] in IH |- *. rewrite !Join_cons, IH by done. by rewrite !string_app_assoc.
Qed.

(** A file of a directory, and the directory of that file. *)
Lemma Dir_Join directory n :
  directory ≠ "" → n ≠ "" → n ≠ "." → n ≠ ".." → lacks "/" n →
  filepath_Dir (filepath_Join directory n) = filepath_Clean directory.
Proof.
  intros Hd Hn1 Hn2 Hn3 Hl. unfold filepath_Join.
  rewrite (proj2 (String.eqb_neq _ _) Hd), (proj2 (String.eqb_neq _ _) Hn1).
  destruct (Clean_text (directory +:+ "/" +:+ n)) as (rooted & acc' & Hs' & -> & Hr' & Hd').
  destruct (Clean_text directory) as (rooted0 & acc & Hs & Ec & Hr & Hacc).
  assert (rooted = rooted0) as ->.
  { rewrite Hr', Hr. destruct directory; [done|]. by rewrite append_cons, !rooted_cons. }
  assert (acc' = n :: acc) as ->.
  { rewrite Hd'. change ("/" +:+ n) with (String "/" n). rewrite Split_app_any, clean_elements_app, <- Hacc, Split_lacks_id by done.
    cbn [clean_elements]. by rewrite (proj2 (String.eqb_neq _ _) Hn1), (proj2 (String.eqb_neq _ _) Hn2), (proj2 (String.eqb_neq _ _) Hn3). }
  clear Hr' Hr Hd' Hacc Hs'. rewrite <- (Clean_Clean directory), Ec. unfold filepath_Dir, path_text. rewrite reverse_cons.
  cbn [head is_nil]. destruct (decide (acc = [])) as [->|Hne].
  - destruct rooted0; cbn [reverse rev_append app].
    + change ("/" +:+ Join [n] "/") with ("" +:+ String "/" n). by rewrite CutLast_app.
    + change (Join [n] "/") with n. destruct (CutLast "/" n) as [[a b]|] eqn:E; [|done].
      apply CutLast_Some in E as [-> _]. exfalso. revert Hl. clear. induction a as [|c a IH]; intros [H1 H2]%lacks_cons; auto.
  - rewrite Join_last by (intros H%(f_equal reverse); by rewrite reverse_involutive in H).
    change ("/" +:+ n) with (String "/" n).
    destruct rooted0.
    + rewrite <- string_app_assoc, CutLast_app by done. by rewrite Clean_slash.
    + rewrite CutLast_app by done. destruct acc as [|e l]; [done|]. cbn [head is_nil].
      destruct (settled_first _ _ Hs Hne) as (c & s & Ej & _). rewrite Clean_slash by (by rewrite Ej). done.
Qed.

Lemma golden_runes_lacks previous input :
  Forall (λ c, "/"%char ≠ c) input → Forall (λ c, "/"%char ≠ c) (golden_runes previous input).
Proof.
  intros Hi. revert previous. induction Hi as [|c input Hc Hi IH]; intros previous; [done|].
  cbn [golden_runes]. 
  assert ("/"%char ≠ to_lower c) as Hl.
  { revert Hc. clear. intros Hc. destruct c as [[] [] [] [] [] [] [] []]; done. }
  repeat case_match; repeat constructor; auto; apply IH.
Qed.

Lemma lacks_Forall c s : lacks c s ↔ Forall (λ d, c ≠ d) (String.list_ascii_of_string s).
Proof.
  induction s as [|d s IH]; [by split; [constructor|]|]. rewrite lacks_cons. cbn. rewrite Forall_cons. tauto.
Qed.

Lemma goldenName_lacks kind : lacks "/" kind → lacks "/" (goldenName kind).
Proof.
  intros H. apply lacks_app. split; [|done].
  apply lacks_Forall. rewrite String.list_ascii_of_string_of_list_ascii.
  by apply golden_runes_lacks, lacks_Forall.
Qed.

Lemma goldenName_long kind : (12 <= String.length (goldenName kind))%nat.
Proof. unfold goldenName. rewrite length_string_app. cbn. lia. Qed.

Lemma goldenName_plain kind n : (String.length n < 12)%nat → goldenName kind ≠ n.
Proof. intros Hn E. pose proof (goldenName_long kind). rewrite E in *. lia. Qed.

Lemma Join_clean directory n : n ≠ "" → filepath_Clean (filepath_Join directory n) = filepath_Join directory n.
Proof.
  intros Hn. unfold filepath_Join. rewrite (proj2 (String.eqb_neq _ _) Hn).
  destruct (directory ==s ""); apply Clean_Clean.
Qed.

(** The outputs of the tool: names are distinct clean paths. *)
Definition well_named (outputs : list (string * string)) : Prop :=
  NoDup outputs.*1 ∧ Forall (λ o, filepath_Clean o.1 = o.1) outputs.

Lemma well_named_set outputs directory n data :
  n ≠ "" → well_named outputs → well_named (aset outputs (filepath_Join directory n) data).
Proof.
  intros Hn [Hnd Hc]. split; [by apply aset_NoDup|]. apply Forall_forall. intros o [-> |Ho]%aset_elem; [by apply Join_clean|].
  by eapply Forall_forall in Hc.
Qed.

Section tool.
Context `{GoTypes, Marshalling} (denied : string → bool).

Lemma example_outputs_named generator fuel goldenDir catalog outputs outputs' :
  example_outputs generator fuel goldenDir catalog outputs = Some (inr outputs') → well_named outputs →
  well_named outputs' ∧ (∀ name, name ∈ outputs.*1 → name ∈ outputs'.*1) ∧
  ∀ kind, kind ∈ catalog.*1 → filepath_Join goldenDir (goldenName kind) ∈ outputs'.*1.
Proof using Type.
  revert outputs. induction catalog as [|[kind t] catalog IH]; intros outputs; cbn [example_outputs].
  { intros [= <-] Hw. split_and!; [done|done|]. intros kind Hk. by apply elem_of_nil in Hk. }
  destruct (exampleValue _ _ _ _) as [[err|data]|]; [done| |done]. cbn. destruct (marshalGolden _) as [encoded|]; [|done].
  intros He Hw. apply IH in He as (Hw' & Hsub & Hk); [|apply well_named_set; [by apply goldenName_plain; cbn; lia|done]].
  split_and!; [done| |].
  - intros name Hn. apply Hsub, aset_keys. by right.
  - intros k [-> |Hin]%elem_of_cons; [|by apply Hk]. apply Hsub, aset_keys. by left.
Qed.

Lemma generate_named generator fuel catalog metadataType errorType configuration contractBytes outputs :
  generate generator fuel catalog metadataType errorType configuration = Some (inr (contractBytes, outputs)) →
  well_named outputs ∧ catalog ≠ [] ∧
  ∀ kind, kind ∈ catalog.*1 → filepath_Join (opGoldenDir configuration) (goldenName kind) ∈ outputs.*1.
Proof using Type.
  unfold generate. destruct catalog as [|entry catalog]; [done|].
  destruct (resultSchema _ _ _ _ _) as [[[err|schema] d]|]; [done| |done]. cbn [mbind option_bind fst].
  destruct (marshal_schema schema) as [resultBytes|]; [|done].
  destruct (contract _ _ _ _ _ _) as [document|]; [|done]. cbn [mbind option_bind].
  destruct (marshal_contract document) as [bytes|]; [|done].
  destruct (example_outputs _ _ _ _ _) as [[err|outs]|] eqn:E; [done| |done]. intros [= <- <-].
  apply example_outputs_named in E as (Hw & _ & Hk); [done|].
  apply well_named_set; [done|]. split; [apply NoDup_singleton|]. apply Forall_singleton. by apply Join_clean.
Qed.

Lemma writeGenerated_ok name data disk disk' :
  writeGenerated denied name data disk = (None, disk') →
  denied name = false ∧
  disk' = mkDisk (<[filepath_Clean name := data]> (dkFiles disk)) (filepath_Clean (filepath_Dir name) :: dkDirs disk).
Proof using Type.
  unfold writeGenerated, MkdirAll, WriteFile. destruct (denied (filepath_Dir name)); [done|].
  destruct (denied name); [done|]. by intros [= <-].
Qed.

(** After [run] has written, every output is there, and its directory. *)
Lemma write_outputs_ok outputs disk disk' :
  write_outputs denied outputs disk = (None, disk') → well_named outputs →
  (∀ name data, (name, data) ∈ outputs → denied name = false ∧ dkFiles disk' !! name = Some data ∧
     filepath_Clean (filepath_Dir name) ∈ dkDirs disk') ∧
  (∀ name, name ∉ outputs.*1 → dkFiles disk' !! name = dkFiles disk !! name) ∧
  (∀ d, d ∈ dkDirs disk → d ∈ dkDirs disk').
Proof using Type.
  revert disk. induction outputs as [|[name data] outputs IH]; intros disk; cbn [write_outputs].
  { intros [= <-] _. split_and!; [|done|done]. intros ? ? Hin. by apply elem_of_nil in Hin. }
  destruct (writeGenerated denied name data disk) as [[err|] disk1] eqn:E; [done|]. intros Hw [Hnd Hc].
  apply writeGenerated_ok in E as [Hden ->]. apply NoDup_cons in Hnd as [Hnin Hnd]. apply Forall_cons in Hc as [Hc Hcs].
  cbn in Hc. apply IH in Hw as (Hin & Hout & Hdirs); [|done]. cbn [dkFiles dkDirs] in *. rewrite Hc in *. split_and!.
  - intros n b [[= -> ->]|Hb]%elem_of_cons; [|by apply Hin]. split_and!; [done| |apply Hdirs; by left].
    rewrite Hout by done. apply lookup_insert_eq.
  - intros n Hn. cbn in Hn. apply not_elem_of_cons in Hn as [Hne Hn]. rewrite Hout by done. by rewrite lookup_insert_ne.
  - intros d Hd. apply Hdirs. by right.
Qed.

(** The entries of a directory are its files. *)
Definition file_of (directory entry : string) (disk : Disk) : Prop :=
  is_Some (dkFiles disk !! filepath_Join directory entry) ∧
  entry = match CutLast "/" (filepath_Join directory entry) with
          | Some (_, name) => name | None => filepath_Join directory entry end.

Lemma ReadDir_entries directory disk entries entry :
  ReadDir denied directory disk = inr entries → entry ∈ entries ↔ file_of directory entry disk.
Proof using Type.
  unfold ReadDir. destruct (directory ==s ""); [done|]. destruct (denied directory); [done|].
  destruct (negb _); [done|]. intros [= <-]. rewrite sort_strings_perm, list_elem_of_omap. split.
  - intros (file & Hf & Hc). case_match eqn:E; [|done]. apply String.eqb_eq in E.
    injection Hc as Hc. rewrite Hc in E. unfold file_of. rewrite E. split; [|by destruct (CutLast "/" file) as [[]|]].
    apply list_elem_of_fmap in Hf as ([k v] & -> & Hkv). apply elem_of_map_to_list in Hkv. by exists v.
  - intros [[data Hd] Hn]. exists (filepath_Join directory entry). split.
    + apply list_elem_of_fmap. exists (filepath_Join directory entry, data). split; [done|]. by apply elem_of_map_to_list.
    + rewrite <- Hn, String.eqb_refl. done.
Qed.

(** Removing leaves the other files. *)
Lemma remove_entries_ok directory entries disk disk' :
  remove_entries denied directory entries disk = (None, disk') → Forall (λ e, e ≠ "") entries →
  dkDirs disk' = dkDirs disk ∧
  (∀ e, e ∈ entries → dkFiles disk' !! filepath_Join directory e = None) ∧
  (∀ f, dkFiles disk' !! f = dkFiles disk !! f ∨ f ∈ filepath_Join directory <$> entries ∧ dkFiles disk' !! f = None).
Proof using Type.
  revert disk. induction entries as [|e entries IH]; intros disk; cbn [remove_entries].
  { intros [= <-] _. split_and!; [done| |by left]. intros ? Hin. by apply elem_of_nil in Hin. }
  unfold Remove. intros Hr [He Hes]%Forall_cons. revert Hr.
  destruct (denied _ || _); [done|]. rewrite Join_clean by done. intros Hr.
  apply IH in Hr as (Hd & Hgone & Hkeep); [|done]. cbn [dkFiles dkDirs] in *. split_and!; [done| |].
  - intros x [-> |Hx]%elem_of_cons; [|by apply Hgone].
    destruct (Hkeep (filepath_Join directory e)) as [Hk|[_ Hk]]; [|done]. rewrite Hk. apply lookup_delete_eq.
  - intros f. rewrite fmap_cons, elem_of_cons. destruct (Hkeep f) as [Hk|[Hin Hk]]; [|by right; auto].
    destruct (decide (filepath_Join directory e = f)) as [<-|Hne].
    + right. split; [by left|]. rewrite Hk. apply lookup_delete_eq.
    + left. rewrite Hk. by apply lookup_delete_ne.
Qed.

Lemma ReadDir_same directory disk disk' entries :
  ReadDir denied directory disk = inr entries → dkDirs disk' = dkDirs disk →
  ∃ entries', ReadDir denied directory disk' = inr entries'.
Proof using Type.
  unfold ReadDir, is_directory. destruct (directory ==s ""); [done|]. destruct (denied directory); [done|].
  intros Hr ->. destruct (negb _); [done|]. by eexists.
Qed.

Lemma ReadDir_exists directory disk :
  directory ≠ "" → filepath_Clean directory ∈ dkDirs disk → ReadDir denied directory disk ≠ inl true.
Proof using Type.
  intros Hd Hin. unfold ReadDir, is_directory. rewrite (proj2 (String.eqb_neq _ _) Hd). destruct (denied directory); [done|].
  rewrite (proj2 (existsb_exists _ _)); [done|]. exists (filepath_Clean directory). split; [by apply list_elem_of_In|].
  by rewrite String.eqb_refl.
Qed.

Lemma stale_not_empty directory outputs e : stale directory outputs e = true → e ≠ "".
Proof using Type. unfold stale. by intros [Hs _]%andb_true_iff ->. Qed.

Lemma check_outputs_ok names outputs disk :
  (∀ name, name ∈ names → denied name = false ∧ filepath_Clean name = name ∧
     ∃ data, aget outputs name = Some data ∧ dkFiles disk !! name = Some data) →
  check_outputs denied names outputs disk = None.
Proof using Type.
  induction names as [|name names IH]; intros Hall; [done|]. cbn [check_outputs]. unfold ReadFile.
  destruct (Hall name ltac:(by left)) as (-> & -> & data & -> & ->). cbn. rewrite String.eqb_refl. cbn.
  apply IH. intros n Hn. apply Hall. by right.
Qed.

(** Removing the stale examples leaves no stale one, and every output. *)
Lemma removeStaleGoldens_ok directory outputs disk disk' :
  removeStaleGoldens denied directory outputs disk = (None, disk') → directory ≠ "" →
  filepath_Clean directory ∈ dkDirs disk →
  (∀ name data, aget outputs name = Some data → dkFiles disk' !! name = dkFiles disk !! name) ∧
  checkGoldenDirectory denied directory outputs disk' = None.
Proof using Type.
  unfold removeStaleGoldens. intros Hr Hd Hin. pose proof (ReadDir_exists directory disk Hd Hin) as Hex.
  destruct (ReadDir denied directory disk) as [[|]|entries] eqn:E; [done..|].
  apply remove_entries_ok in Hr as (Hdirs & Hgone & Hkeep).
  2: { apply Forall_forall. intros e He%list_elem_of_In%filter_In. eapply stale_not_empty, He. }
  split.
  - intros name data Ha. destruct (Hkeep name) as [Hk|[Hk _]]; [done|]. exfalso.
    apply list_elem_of_fmap in Hk as (e & -> & He%list_elem_of_In%filter_In). destruct He as [_ He].
    unfold stale in He. rewrite Ha in He. by rewrite andb_false_r in He.
  - unfold checkGoldenDirectory. destruct (ReadDir_same _ _ disk' _ E Hdirs) as [entries' E']. rewrite E'.
    destruct (find_first _ entries') as [e|] eqn:Ef; [|done]. exfalso. apply find_first_Some in Ef as [He Hstale].
    apply (ReadDir_entries _ _ _ _ E') in He as [[data Hdata] Hn].
    assert (e ∈ List.filter (stale directory outputs) entries) as Hf.
    { apply list_elem_of_In, filter_In. split; [|done]. apply list_elem_of_In, (ReadDir_entries _ _ _ _ E). split; [|done].
      destruct (Hkeep (filepath_Join directory e)) as [Hk|[_ Hk]]; [rewrite <- Hk; by exists data|congruence]. }
    apply Hgone in Hf. congruence.
Qed.

Definition checking (configuration : options) : options :=
  mkOptions (opDirectory configuration) (opGoldenDir configuration) true false (opBaselineOutput configuration).

(** What the tool writes passes the tool's own check: after [make generate] has
    succeeded, the check reports neither a missing, a different nor a left-over
    file, and changes nothing. *)
Theorem run_write_then_check generator fuel catalog metadataType errorType configuration disk disk' :
  opCheck configuration = false → opWriteBaseline configuration = false → opGoldenDir configuration ≠ "" →
  Forall (lacks "/") catalog.*1 →
  run denied generator fuel catalog metadataType errorType configuration disk = Some (None, disk') →
  run denied generator fuel catalog metadataType errorType (checking configuration) disk' = Some (None, disk').
Proof using Type.
  intros Hcheck Hbase Hdir Hkinds. unfold run.
  change (generate generator fuel catalog metadataType errorType (checking configuration))
    with (generate generator fuel catalog metadataType errorType configuration).
  destruct (generate _ _ _ _ _ _) as [[err|[contractBytes outputs]]|] eqn:Eg; [done| |done]. cbn [mbind option_bind].
  rewrite Hcheck. cbn [checking opCheck]. unfold run_write, write_baseline. rewrite Hbase. cbn [negb].
  destruct (write_outputs _ _ _) as [[err|] disk1] eqn:Ew; [done|].
  destruct (removeStaleGoldens _ _ _ _) as [[err|] disk2] eqn:Er; [done|]. intros [= <-].
  apply generate_named in Eg as ([Hnd Hclean] & Hne & Hgold).
  destruct (write_outputs_ok _ _ _ Ew (conj Hnd Hclean)) as (Hin & _ & _).
  apply removeStaleGoldens_ok in Er as [Hkeep Hg]; [|done|].
  - do 2 f_equal. unfold run_check. cbn [opWriteBaseline opGoldenDir]. unfold checkOutputs. rewrite check_outputs_ok; [done|].
    intros name Hn. unfold sortedKeys in Hn. rewrite sort_strings_perm in Hn.
    apply aget_is_Some in Hn as [data Ha]. destruct (Hin name data (aget_Some_elem _ _ _ Ha)) as (Hden & Hf & _).
    split_and!; [done| |].
    + by apply (proj1 (Forall_forall _ _) Hclean (name, data)), aget_Some_elem.
    + exists data. split; [done|]. by rewrite (Hkeep _ _ Ha).
  - destruct catalog as [|[kind t] catalog]; [done|]. apply Forall_cons in Hkinds as [Hk _].
    specialize (Hgold kind ltac:(by left)). apply list_elem_of_fmap in Hgold as ([name data] & Hn & Ho). cbn in Hn. subst name.
    destruct (Hin _ _ Ho) as (_ & _ & Hd). rewrite Dir_Join, Clean_Clean in Hd; [done|done|..|by apply goldenName_lacks];
      apply goldenName_plain; cbn; lia.
Qed.
End tool.

(** Encoders that print the kinds only. *)
Definition kinds_only : Marshalling := {|
  marshal_schema := λ _, Some "schema";
  marshal_contract := λ document, Some (Join (kcKind <$> cdKinds document) ",");
  marshalGolden := λ document, Some (eeKind document) |}.

(** A directory with an example of a kind that is gone. *)
Definition old_disk : Disk :=
  mkDisk {["golden/gone.golden.json" := "old"; "golden/dsn.golden.json" := "old"; "golden/notes" := "kept"]} ["golden"].

Definition sample_options : options := mkOptions "schema" "./golden/" false false "schema/compatibility-baseline.json".

Local Notation sample_run :=
  (@run program_types kinds_only (λ _, false) generator 30 MachineSchemaCatalog metadataType errorType).

Definition written_disk : Disk := match sample_run sample_options old_disk with Some (_, disk) => disk | None => old_disk end.

Lemma written_disk_run : sample_run sample_options old_disk = Some (None, written_disk).
Proof. vm_cast_no_check (eq_refl (Some (None, written_disk) : option (option goerror * Disk))). Qed.

Lemma written_disk_files :
  (λ name, dkFiles written_disk !! name) <$> ["golden/gone.golden.json"; "golden/dsn.golden.json"; "golden/notes"]
  = [None; Some "DSN"; Some "kept"].
Proof. vm_compute. reflexivity. Qed.

Lemma golden_dir_named : opGoldenDir sample_options ≠ "".
Proof. done. Qed.

Lemma kinds_named : Forall (lacks "/") MachineSchemaCatalog.*1.
Proof. repeat constructor. Qed.

Lemma run_write_then_check_witness :
  sample_run sample_options old_disk = Some (None, written_disk) ∧
  sample_run (checking sample_options) written_disk = Some (None, written_disk).
Proof.
  split; [exact written_disk_run|].
  exact (@run_write_then_check program_types kinds_only (λ _, false) generator 30 MachineSchemaCatalog metadataType errorType
    sample_options old_disk written_disk eq_refl eq_refl golden_dir_named kinds_named written_disk_run).
Defined.

(** The examples the generator makes fit the types, and the schema accepts
    their documents. *)
Example examples_accepted :
  forallb (λ entry, match @exampleValue program_types generator 30 entry.2 "data" with
                    | Some (inr data) =>
                        @fits program_types generator entry.2 data &&
                        bool_decide (validate program_definitions 30 program_schema
                          (@envelope program_types entry.1 (metadataType, sample_metadata) (entry.2, data)) = Some true)
                    | _ => false
                    end) MachineSchemaCatalog = true.
Proof. vm_compute. reflexivity. Qed.
